(* ===== verification/_CoqProject ===== *)
-Q . S2P
Prelude.v
Codec.v
CString.v
Lines.v
Crc32.v
Base64.v
Hash.v
Chains.v
HashTable.v
CfgFile.v
SockOpt.v
ListH.v
Hlist.v
TsQueue.v
SchedTimer.v
Periodic.v
Datasevr.v
Cluster.v
Wlc.v
ClusterDatasevr.v
TsConn.v
Protocol.v
Snapshot.v
TsService.v
TsThread.v
DsBlock.v
DsBinlog.v
ClientIo.v
DsSync.v
DsFile.v
Client.v
DsConn.v
DsService.v
DsDiskIo.v
DsNet.v
DsServe.v
DsSend.v
DsMaster.v
DsFaults.v
Logger.v
Clock.v
Accept.v
Threads.v
Shutdown.v
Restart.v
Config.v
Startup.v
DsTasks.v
TrackerClient.v
DsPools.v
DsStop.v
