(* ===== verification/Prelude.v ===== *)
(** * A verification of LFS

    LFS is a distributed file store written in C.  A tracker keeps a registry
    of data servers, grouped in volumes of replicas, learns their state from
    heartbeats and reports, and tells clients which server to write to and
    which to read from.  The data servers store the files.  Both are built on a
    common library of strings, codecs, hash tables, lists, queues and timers.

    The development follows the program bottom up, one file per component:

    - [Prelude]: outcomes of C code (a value, or a crash: use after free, index
      out of bounds, null dereference, failed assertion, divergence), machine
      integers with their wrap-around, byte strings, sequences of steps,
      tactics and shared lemmas.
    - [Codec], [CString], [Crc32], [Base64], [Hash]: shared_func.c, crc32.c,
      base64.c, jenkins_hash.c, murmur3_hash.c and hash.c under
      src/src/common.  Pure functions on bytes.
    - [Chains]: chains of heap cells and arrays of chains, the lemmas that the
      two hash tables below share.
    - [HashTable]: hash_table.c, with the cells of its chains in a heap.
    - [CfgFile]: cfg_file_opt.c and [getFileContent].  It is proved against the
      class [Dictionary] with its laws; the instance is [HashTable].
    - [SockOpt]: the options, [bind] and [set_noblock] of sock_opt.c, and
      [server_sockets], which makes the socket of a server.
    - [ListH], [Hlist], [TsQueue], [SchedTimer]: list.h (circular lists, lists
      with a one-pointer head), ts_queue.c, sched_timer.c.
      The queue and the timers are run by several threads: their theorems are
      about every interleaving of steps, where a step is what the code does
      under its mutex (or one unlocked read).
    - [Datasevr], [Cluster], [Wlc], [ClusterDatasevr]: ts_datasevr.c,
      ts_cluster.c, ts_wlc.c and ts_cluster_datasevr.c under
      src/src/trackerserver.  Blocks (data servers) and volumes are heap
      objects in one [store]; the volume table is a hash table that grows one
      bucket at a time while it is in use; the load list is a skip list.
    - [TsConn], [TsService], [TsThread]: ts_conn.c, ts_service.c and
      ts_thread.c.  A connection has its two buffers as bytes; a handler reads
      its request from the bytes and writes the response bytes; the state
      machine reads requests from a socket and writes responses to it.
    - [Lines], [Protocol]: the printing and parsing of decimal fields, lines
      and records that the text files of the program share, and the layouts of
      the messages (lfs_protocol.h, the structures of the requests and
      responses).
    - [Snapshot]: ts_snapshot.c, the tracker's registry written to and read
      back from a text file.
    - [DsBlock], [DsBinlog]: ds_block.c and ds_binlog.c under
      src/src/dataserver.  The mounts of a data server and the choice of the
      one to write to; the log of the operations, its rotation, the readers
      with their position, and the marks that are kept in files.
    - [ClientIo], [DsSync]: ds_client_network_io.c and ds_sync.c.  The
      blocking requests of one server to another, the replication thread that
      reads the log and sends its operations to a server of the volume, and
      the full synchronisation of a new server.
    - [TrackerClient]: tracker_client.c and ds_client_conn.c.  The thread that
      registers a data server with a tracker, reports to it and learns from
      its answers which other servers the volume has.
    - [DsFile], [DsConn], [DsService], [DsDiskIo], [DsNet]: ds_file.c,
      ds_conn.c, ds_service.c, ds_disk_io.c and ds_network_io.c.  The context
      of a file and the meta data in its name; the connections of a data
      server; the handlers; the threads that read and write the files; and the
      state machine that moves a connection between the network and the disk.
      [DsServe], [DsSend], [DsMaster] and [DsFaults] hold the theorems about
      whole requests: a copy received, a download, a file for a server that
      synchronises, and requests that are refused or break the server.
    - [Client]: client_common.c, the meta data as a client reads it.
    - [Logger]: logger.c.  The cache of lines, its lock and the log file.
    - [Clock]: times.c, and the dates, dumps and tests of names of
      shared_func.c, with the calendar behind [localtime] and [mktime].
    - [Accept]: the part of ts_thread.c and ds_network_io.c in which the main
      thread accepts connections and hands them to the network threads.
    - [Threads]: the start of the pools of threads of both servers, with the
      condition on which the main thread waits for them.
    - [Shutdown]: the maintenance thread and the snapshot thread of the tracker
      as loops with their mutexes, and [tracker_destroy], which stops them.
    - [Restart]: [cluster_init], [cluster_destroy] and the start of the
      snapshot: the tables of a tracker from one run to the next.
    - [Periodic]: the threads of sched_timer.c and the tasks that both servers
      repeat with them.
    - [DsTasks]: the callbacks of dataserverd.c and trackerd.c, with the work
      they do on the counters, the logs and the snapshot.
    - [Config]: the defaults and the configuration of both servers (ds_func.c,
      ts_func.c, the beginning of [main] in dataserverd.c), read through the
      class [Dictionary].
    - [Startup]: [main] of both servers, from the command line over the parts
      in their order to the end, also when a part fails.
    - [DsPools]: the tables and threads that a data server starts and gives
      back (ds_conn.c, ds_file.c, ds_sync.c, the thread of tracker_client.c for
      each tracker), [daemon_init], and the splitting of names in lfs_define.h.
    - [DsStop]: [dataserver_destroy] as a whole.

    How the components meet in a run.  On a tracker
    [TsThread.__state_machine] reads pieces of a request into the buffer,
    [TsThread.__parse_protocol_cmd] recognises a complete request,
    [TsService.dispatch_cmd] calls the handler, the handler calls the registry
    ([ClusterDatasevr]) and the load list ([Wlc]), and the state machine writes
    the response.  On a data server [TrackerClient.tc_step] sends the requests
    that the tracker's handlers answer, keeps the table of the servers of the
    volume and starts for each of them a thread ([DsSync]) that follows the log
    ([DsBinlog]) and sends what it finds ([ClientIo]).  The two sides of the
    heartbeat are composed in [heartbeat_learns].  [DsNet.turn] is a turn of
    the network thread or of the disk thread with a connection: a request is
    read ([__network_read_header], [__network_read_body]), dispatched to its
    handler, the file is moved between socket and disk piece by piece
    ([__network_fread], [dio_write], [dio_read], [__network_fwrite],
    [__network_fsend]) and the function for a finished file writes the log and
    the answer.  The requests that [DsSync] sends are read by these handlers in
    [replica_stored] and [full_sync_copied].

    What the theorems show.

    - From socket to socket: a request is dispatched once with its exact bytes,
      however it arrives, and its response is sent completely and in order
      ([request_served], [request_in_pieces], [network_read_spec]); a peer that
      is gone makes the machine write without end ([broken_pipe_spins]).
    - The handlers: for each kind of request what the tracker's tables and the
      response bytes are afterwards ([register_served], [heartbeat_served],
      [statreport_served], [writetracker_served], [readtracker_served],
      [unregistered_refused]); no request, whatever its bytes, loses or
      reorders a registered server ([dispatch_cmd_membership]).
    - The tables: lookup in the volume table is the lookup of a finite map
      while the buckets are moved, and what it is after every single statement of
      [__cluster_expand], which replaces the array without a lock
      ([cluster_find_refines], [window_insert_lost]); an expansion ends
      ([expansion_completes]), and the exact condition under which an insertion
      during an expansion leaves the array ([do_cluster_insert_spec]).  The skip
      list stays well formed and sorted under insertion ([wlcsl_insert_spec]) and
      deletion, and the search finds exactly what no taller node of equal load
      hides ([Wlc]).
    - The common library: round trips of the codecs, equality of the hash
      readers and of the table-driven checksum with bit-by-bit references, the
      hash table as a finite map, the configuration file as the map of its last
      assignments, the queue as first in first out under every interleaving,
      timers that never fire early, the lists of list.h as lists of their
      entries under every sequence of operations ([hlist_refines]), dates that
      are read back as the second they were written ([date_roundtrip]).
    - Files: the snapshot, the log and the marks are read back as they were
      written, the log also across its rotation; a tracker that starts again
      knows the servers of the run before ([tracker_restarts]).
    - Replication: in every sequence of rounds with failures and restarts the
      records of the current file of the log, which may grow meanwhile, are sent in
      order and at most once with success, without a gap, and a connection that
      does not fail sends what is there ([async_thread_exactly_once]); a log that
      goes on to a new file is not followed ([rotated_files_skipped]); what the request for a file's data looks
      like to the receiver ([async_copy_received]); a file that has been
      removed meanwhile blocks the log for ever ([missing_file_blocks]).  A
      copy ends up with the sent bytes at the same place below the mount of the
      receiver (over the beginning of a longer file that was there), however the bytes arrive and the disk takes them
      ([replica_stored]); so does a file of a full synchronisation
      ([full_sync_copied]).
    - Serving files: a download sends the first bytes of the file and what
      becomes of the connection ([download_served]); connections go through the
      linked queues between a network thread and a disk thread in order and once
      ([dio_queue_order]), with the signal that can be lost ([dio_lost_wakeup]); the
      requests that abort the server, are read behind a buffer, or, like every
      upload, make it write behind one ([DsFaults]).
    - Running the servers: what the counter of connections counts, with the
      connections that a data server opens itself, and that each accepted one is in
      one place ([accept_accounting]), the threads take them in turn
      ([round_robin]); the main thread is never left waiting for threads that
      have started ([startup_completes]), but waits for ever when it is told to
      stop ([tracker_never_stops]); the lines of the log are in the file and the cache in
      the order of the calls ([log_lines_in_order]); the values a server runs
      with are those of its file ([ds_configured]).  A server whose parts come
      up serves a socket at its configured address ([ds_served], [ts_served]),
      the socket is either ready or closed again ([server_sockets_spec]), every
      configured tracker has its thread ([trackers_reported]), and no periodic
      task is lost, doubled or early ([tasks_periodic]), and the tick that
      flushes the log leaves no line in the cache ([lines_flushed]); what is wrong when a
      part fails ([ds_failed_start], [ts_failed_start]), when an interval is long
      ([long_interval_spins]) and what is never freed ([cluster_destroy_spec],
      [contexts_freed]).  A data server that is stopped has its log lines in the
      file, and its next start finds the log of its operations whole; then it locks
      the mutex of its second log, which it has destroyed
      ([stop_locks_destroyed]).
    - Membership as a data server sees it: the table of the volume's servers
      refines the map that the answers of the tracker describe
      ([heartbeat_learns]), with what is lost when a tracker forgets a server
      ([never_registers_again]) or a server goes down ([down_never_noticed]).

    Conventions.  A C function that can fail in an undefined way returns an
    [outcome]; a null pointer is [None]; memory that is allocated and freed is
    a finite map from locations, and reading a freed location is the crash
    [UseAfterFree].  [malloc] succeeds or not according to an oracle or an
    argument.  Integers are [Z], wrapped where the code's type wraps.  The
    clock, the socket, the file system, libevent and the random numbers are
    arguments.  Log messages are left out, except where their arguments
    dereference a pointer.

    Fuel.  Loops that walk a heap take the number of cells as fuel, which is
    enough because a well-formed chain has no repeated cell; the theorems state
    that the functions return.  [__network_read] has four rounds and is proved
    to need no more.  The state machine takes its fuel as an argument, and
    [request_served] states how much a request takes.  The endless loops of the
    data server's threads are functions of the list of what happens to them,
    one entry a round; their theorems hold for every such list.

    The turns of [DsNet] are given as a number; [replica_stored] and the others
    hold for the number of pieces in which the data arrives.

    Not modelled: the registration of signal handlers, the texts that the
    programs print (usage, licence), the events and loops of libevent, which are
    arguments, the parts of the sources that are compiled out ([#if 0]), the
    constants of error.h and the macros of misc.h, which nothing includes or
    whose meaning is that of the operations that use them, and the test
    programs.  The zone of [localtime] has the same offset all year.
    LFS_MACHINE_ID_BUFF_SIZE, the structure of the context and of the answer to
    an upload, two default values and Base64decode are used by the sources and
    not defined in them: they are arguments.

    Left open.  The parts of [Startup] come up or do not, while the models of
    these parts are in their own files: their states are not threaded through
    [main].  The two servers are composed per request, not as one network of
    trackers and data servers. *)
From stdpp Require Export base numbers list gmap.
From Stdlib Require Export Lia Ascii String.
From stdpp Require Export strings.

#[global] Open Scope Z_scope.

(** ** Outcomes of C code

    A C expression either yields a value or hits behaviour the language
    leaves undefined (or an [assert]); a loop may also not end. *)

Inductive crash :=
| UseAfterFree
| OutOfBounds
| NullDeref
| AssertFailed
| Overlap
| Uninitialised
| Diverged.

Inductive outcome (A : Type) :=
| Ret (a : A)
| Crash (c : crash).
Arguments Ret {A} a.
Arguments Crash {A} c.

#[export] Instance crash_eq_dec : EqDecision crash.
Proof. solve_decision. Defined.

#[export] Instance outcome_ret : MRet outcome := @Ret.

#[export] Instance outcome_bind : MBind outcome := fun A B f m =>
  match m with
  | Ret a => f a
  | Crash c => Crash c
  end.

(** [get_or c o] is the value of [o], or the crash [c] when there is none. *)
Definition get_or {A} (c : crash) (o : option A) : outcome A :=
  match o with
  | Some a => Ret a
  | None => Crash c
  end.

(** ** Machine integers

    Values of a C integer type are [Z]s; [u_wrap w] and [s_wrap w] are the
    conversions to the unsigned and to the (two's complement) signed type of
    width [w]. *)

Definition u_wrap (w z : Z) : Z := z mod 2 ^ w.
Definition s_wrap (w z : Z) : Z := (z + 2 ^ (w - 1)) mod 2 ^ w - 2 ^ (w - 1).

Notation u8 := (u_wrap 8).
Notation u32 := (u_wrap 32).
Notation u64 := (u_wrap 64).
Notation s16 := (s_wrap 16).
Notation s32 := (s_wrap 32).
Notation s64 := (s_wrap 64).

Definition is_u (w z : Z) : Prop := 0 <= z < 2 ^ w.
Definition is_s (w z : Z) : Prop := - 2 ^ (w - 1) <= z < 2 ^ (w - 1).

Abbreviation bytes := (list Z).
Definition is_bytes (b : bytes) : Prop := Forall (is_u 8) b.

(** Constants of common_define.h and errno.h the code returns. *)
Definition LFS_OK : Z := 0.
Definition LFS_ERROR : Z := -1.
Definition EPERM : Z := 1.
Definition ENOENT : Z := 2.
Definition EINTR : Z := 4.
Definition EIO : Z := 5.
Definition EAGAIN : Z := 11.
Definition ENOMEM : Z := 12.
Definition EACCES : Z := 13.

(** [(errno != 0) ? errno : EIO]. *)
Definition errno_or_eio (e : Z) : Z := if negb (e =? 0) then e else EIO.
Definition EEXIST : Z := 17.
Definition EINVAL : Z := 22.
Definition ETIMEDOUT : Z := 110.

(** ** Strings of bytes *)

Fixpoint str (s : string) : bytes :=
  match s with
  | EmptyString => []
  | String c s' => Z.of_N (Ascii.N_of_ascii c) :: str s'
  end.

Definition chr (c : Ascii.ascii) : Z := Z.of_N (Ascii.N_of_ascii c).
Arguments chr c%_char.

(** The C string a buffer holds: its bytes up to the first NUL. *)
Fixpoint cstr (b : bytes) : bytes :=
  match b with
  | [] => []
  | c :: b' => if c =? 0 then [] else c :: cstr b'
  end.

Definition no_nul (b : bytes) : Prop := Forall (fun c => c <> 0) b.

(** Array accesses with a C index: negative or past the end is undefined. *)
Definition zlookup {A} (l : list A) (i : Z) : option A :=
  if 0 <=? i then l !! Z.to_nat i else None.

Definition zinsert {A} (l : list A) (i : Z) (x : A) : outcome (list A) :=
  if (0 <=? i) && (i <? Z.of_nat (length l))
  then Ret (<[Z.to_nat i := x]> l)
  else Crash OutOfBounds.

(** ** Sequences of steps *)

Inductive star {S : Type} (R : S -> S -> Prop) : S -> S -> Prop :=
| star_refl s : star R s s
| star_step s1 s2 s3 : R s1 s2 -> star R s2 s3 -> star R s1 s3.

(** ** Tactics and hint databases *)

Create HintDb lfs discriminated.
Create HintDb lfs_bits.

(** [bind_inv H] splits a hypothesis that says a bind returned. *)
Ltac bind_inv H :=
  lazymatch type of H with
  | mbind _ ?m = Ret _ =>
      let E := fresh "E" in
      destruct m eqn:E; cbn in H; [ | discriminate H ]
  end.

(** [ret_inv H] splits a hypothesis that says a computation returned along the
    computation, up to its result. *)
Ltac ret_inv H :=
  repeat lazymatch type of H with
  | mbind _ ?m = Ret _ => let E := fresh "E" in destruct m eqn:E; cbn [mbind outcome_bind] in H; [|discriminate H]
  | Crash _ = Ret _ => discriminate H
  | (let '(_, _) := ?p in _) = Ret _ => let E := fresh "E" in destruct p eqn:E
  | match ?x with _ => _ end = Ret _ => let E := fresh "E" in destruct x eqn:E
  end.

(** [case_bool H] turns boolean comparisons into propositions. *)
Ltac zbool :=
  repeat match goal with
  | H : (_ =? _) = true |- _ => apply Z.eqb_eq in H
  | H : (_ =? _) = false |- _ => apply Z.eqb_neq in H
  | H : (_ <? _) = true |- _ => apply Z.ltb_lt in H
  | H : (_ <? _) = false |- _ => apply Z.ltb_ge in H
  | H : (_ <=? _) = true |- _ => apply Z.leb_le in H
  | H : (_ <=? _) = false |- _ => apply Z.leb_gt in H
  | H : (_ && _) = true |- _ => apply andb_true_iff in H; destruct H
  | H : (_ || _) = false |- _ => apply orb_false_iff in H; destruct H
  | H : negb _ = true |- _ => apply negb_true_iff in H
  | H : negb _ = false |- _ => apply negb_false_iff in H
  end.

Ltac zcase b :=
  let E := fresh "E" in destruct b eqn:E; zbool.

(** ** Lemmas on outcomes *)

Lemma get_or_Ret {A} c (o : option A) a : get_or c o = Ret a <-> o = Some a.
Proof. destruct o; cbn; split; congruence. Qed.

Lemma bind_Ret {A B} (m : outcome A) (f : A -> outcome B) b :
  m ≫= f = Ret b <-> exists a, m = Ret a /\ f a = Ret b.
Proof.
  destruct m as [a|c]; cbn; split.
  - eauto.
  - by intros (a' & [= <-] & ?).
  - done.
  - by intros (a' & [=] & _).
Qed.

Lemma outcome_assoc {A B C} (m : outcome A) (f : A -> outcome B) (g : B -> outcome C) :
  (m ≫= f) ≫= g = m ≫= (fun a => f a ≫= g).
Proof. by destruct m. Qed.

Lemma Ret_inj {A} (a b : A) : Ret a = Ret b -> a = b.
Proof. congruence. Qed.

Lemma star_trans {S} (R : S -> S -> Prop) a b c : star R a b -> star R b c -> star R a c.
Proof. induction 1; eauto using star. Qed.

(** An invariant of every step is an invariant of every run. *)
Lemma star_invariant {S} (R : S -> S -> Prop) (P : S -> Prop) a b :
  (forall s s', P s -> R s s' -> P s') -> P a -> star R a b -> P b.
Proof. intros HP Ha Hab. induction Hab; eauto. Qed.

(** ** Lemmas on machine integers *)

Lemma u_wrap_range w z : 0 <= w -> is_u w (u_wrap w z).
Proof. intros. apply Z.mod_pos_bound. lia. Qed.

Lemma u_wrap_id w z : is_u w z -> u_wrap w z = z.
Proof. intros. by apply Z.mod_small. Qed.

Lemma pow2_half w : 0 < w -> 2 ^ w = 2 * 2 ^ (w - 1).
Proof. intros. rewrite <- Z.pow_succ_r by lia. f_equal. lia. Qed.

Lemma s_wrap_range w z : 0 < w -> is_s w (s_wrap w z).
Proof.
  intros Hw. unfold is_s, s_wrap.
  pose proof (Z.mod_pos_bound (z + 2 ^ (w - 1)) (2 ^ w)).
  pose proof (pow2_half w Hw). lia.
Qed.

Lemma s_wrap_id w z : 0 < w -> is_s w z -> s_wrap w z = z.
Proof.
  intros Hw Hz. unfold is_s, s_wrap in *. pose proof (pow2_half w Hw).
  rewrite Z.mod_small; lia.
Qed.

(** The bits of a converted value: zero extension and sign extension. *)
Lemma u_wrap_bits w z i : 0 <= w -> 0 <= i ->
  Z.testbit (u_wrap w z) i = (i <? w) && Z.testbit z i.
Proof.
  intros. unfold u_wrap. zcase (i <? w).
  - rewrite Z.mod_pow2_bits_low by lia. done.
  - by rewrite Z.mod_pow2_bits_high by lia.
Qed.

Lemma s_wrap_mod w z : 0 < w -> s_wrap w z mod 2 ^ w = z mod 2 ^ w.
Proof.
  intros. unfold s_wrap. rewrite Zminus_mod_idemp_l. f_equal. lia.
Qed.

Lemma is_s_sign_bit w z i : 0 < w -> is_s w z -> w - 1 <= i -> Z.testbit z i = (z <? 0).
Proof.
  intros Hw [Hl Hh] Hi. assert (0 < 2 ^ (w - 1)) by (apply Z.pow_pos_nonneg; lia).
  zcase (z <? 0).
  - destruct (Z.eq_dec z (- 2 ^ (w - 1))) as [->|].
    + rewrite Z.bits_opp by lia.
      apply negb_true_iff. destruct (decide (2 ^ (w - 1) = 1)) as [->|Hn].
      * by rewrite Z.bits_0.
      * rewrite Z.bits_above_log2; [done|lia|].
        rewrite Z.log2_pred_pow2; [lia|]. destruct (decide (w - 1 = 0)) as [Hw0|]; [by rewrite Hw0 in Hn|lia].
    + rewrite Z.bits_above_log2_neg; [done|lia|].
      assert (w - 1 <> 0) by (intros Hw0; rewrite Hw0 in *; cbn in *; lia).
      enough (Z.log2 (Z.pred (- z)) < w - 1) by lia.
      destruct (Z.eq_dec (Z.pred (- z)) 0) as [->|]; [cbn; lia|].
      apply Z.log2_lt_pow2; lia.
  - destruct (Z.eq_dec z 0) as [->|]; [by rewrite Z.bits_0|].
    apply Z.bits_above_log2; [lia|].
    enough (Z.log2 z < w - 1) by lia. apply Z.log2_lt_pow2; lia.
Qed.

Lemma s_wrap_bits w z i : 0 < w -> 0 <= i ->
  Z.testbit (s_wrap w z) i = Z.testbit z (Z.min i (w - 1)).
Proof.
  intros Hw Hi. pose proof (s_wrap_range w z Hw) as Hr.
  assert (Hlow : forall j, 0 <= j < w -> Z.testbit (s_wrap w z) j = Z.testbit z j).
  { intros j Hj. rewrite <- (Z.mod_pow2_bits_low (s_wrap w z) w) by lia.
    rewrite s_wrap_mod by lia. by rewrite Z.mod_pow2_bits_low by lia. }
  destruct (Z.le_gt_cases w i).
  - rewrite Z.min_r by lia. rewrite <- Hlow by lia.
    rewrite !(is_s_sign_bit w (s_wrap w z)); first [done|lia].
  - rewrite Z.min_l by lia. apply Hlow. lia.
Qed.

Lemma testbit_255 i : 0 <= i -> Z.testbit 255 i = (i <? 8).
Proof. intros. change 255 with (Z.ones 8). rewrite Z.testbit_ones by lia. zcase (0 <=? i); [done|lia]. Qed.

Lemma testbit_u8_high b i : is_u 8 b -> 8 <= i -> Z.testbit b i = false.
Proof.
  intros Hb Hi. rewrite <- (u_wrap_id 8 b Hb), u_wrap_bits by lia. zcase (i <? 8); first [done | lia].
Qed.

Lemma land_255 z : Z.land z 255 = u8 z.
Proof. change 255 with (Z.ones 8). rewrite Z.land_ones by lia. done. Qed.

Lemma land_255_byte z : is_u 8 (Z.land z 255).
Proof. rewrite land_255. apply u_wrap_range. lia. Qed.

(** Two integers are equal when their bits are; [Z.bits_inj'] for use with
    the width lemmas above. *)
Lemma bits_eq a b : (forall i, 0 <= i -> Z.testbit a i = Z.testbit b i) -> a = b.
Proof. intros. by apply Z.bits_inj'. Qed.

(** A boolean test checked by computation on every value below [n]. *)
Lemma forall_below (n : Z) (p : Z -> bool) :
  forallb p (seqZ 0 n) = true -> forall z, 0 <= z < n -> p z = true.
Proof.
  intros H z Hz. rewrite forallb_forall in H. apply H, list_elem_of_In, elem_of_seqZ. lia.
Qed.

Lemma is_u_mono w w' z : 0 <= w <= w' -> is_u w z -> is_u w' z.
Proof. unfold is_u. intros. pose proof (Z.pow_le_mono_r 2 w w'). lia. Qed.

Lemma is_u_bits w z : 0 <= w -> 0 <= z -> (forall i, w <= i -> Z.testbit z i = false) -> is_u w z.
Proof.
  intros Hw Hz Hb.
  enough (z = u_wrap w z) as -> by (by apply u_wrap_range).
  apply bits_eq. intros i Hi. rewrite u_wrap_bits by lia. zcase (i <? w); [done|]. apply Hb. lia.
Qed.

Lemma is_u_testbit w z i : 0 <= w <= i -> is_u w z -> Z.testbit z i = false.
Proof.
  intros Hw Hz. rewrite <- (u_wrap_id w z Hz), u_wrap_bits by lia. zcase (i <? w); first [done | lia].
Qed.

Lemma is_u_lxor w a b : 0 <= w -> is_u w a -> is_u w b -> is_u w (Z.lxor a b).
Proof.
  intros Hw Ha Hb. apply is_u_bits; [done|apply Z.lxor_nonneg; unfold is_u in *; lia|].
  intros i Hi. rewrite Z.lxor_spec, !(is_u_testbit w) by first [assumption | lia]. done.
Qed.

Lemma is_u_lor w a b : 0 <= w -> is_u w a -> is_u w b -> is_u w (Z.lor a b).
Proof.
  intros Hw Ha Hb. apply is_u_bits; [done|apply Z.lor_nonneg; unfold is_u in *; lia|].
  intros i Hi. rewrite Z.lor_spec, !(is_u_testbit w) by first [assumption | lia]. done.
Qed.

Lemma is_u_land w a b : 0 <= w -> is_u w b -> is_u w (Z.land a b).
Proof.
  intros Hw Hb. apply is_u_bits; [done|apply Z.land_nonneg; unfold is_u in *; lia|].
  intros i Hi. rewrite Z.land_spec, (is_u_testbit w b) by first [assumption | lia]. apply andb_false_r.
Qed.

Lemma is_u_shiftr w a k : 0 <= w -> 0 <= k -> is_u w a -> is_u w (Z.shiftr a k).
Proof.
  unfold is_u. intros Hw Hk Ha. rewrite Z.shiftr_div_pow2 by lia. split.
  - apply Z.div_pos; lia.
  - apply Z.le_lt_trans with a; [|lia]. apply Z.div_le_upper_bound; nia.
Qed.

#[export] Hint Resolve u_wrap_range is_u_lxor is_u_lor is_u_land is_u_shiftr land_255_byte : lfs.

(** A mask [2^k - 1] keeps the low [k] bits. *)
Lemma land_mask_mod a k : 0 <= k -> Z.land a (2 ^ k - 1) = a mod 2 ^ k.
Proof.
  intros. replace (2 ^ k - 1) with (Z.ones k) by (rewrite Z.ones_equiv; lia).
  by apply Z.land_ones.
Qed.

(** Or-ing a low part into a shifted value is adding it. *)
Lemma lor_shiftl_add a v k : 0 <= k -> is_u k v -> Z.lor (Z.shiftl a k) v = a * 2 ^ k + v.
Proof.
  intros Hk Hv.
  assert (Z.land (Z.shiftl a k) v = 0) as Hl.
  { apply bits_eq. intros i Hi. rewrite Z.land_spec, Z.bits_0. destruct (Z.le_gt_cases k i).
    - rewrite (is_u_testbit k v) by first [assumption | lia]. apply andb_false_r.
    - by rewrite Z.shiftl_spec_low by lia. }
  rewrite <- Z.lxor_lor, <- Z.add_nocarry_lxor by done. by rewrite Z.shiftl_mul_pow2.
Qed.

(** ** Lemmas on strings and arrays *)

Lemma cstr_no_nul b : no_nul (cstr b).
Proof. unfold no_nul. induction b as [|c b IH]; cbn; [done|]. zcase (c =? 0); by constructor. Qed.

Lemma cstr_id b : no_nul b -> cstr b = b.
Proof.
  unfold no_nul. induction 1 as [|c b Hc Hb IH]; cbn; [done|].
  zcase (c =? 0); [done|]. by rewrite IH.
Qed.

Lemma cstr_app_nul b r : no_nul b -> cstr (b ++ 0 :: r) = b.
Proof.
  unfold no_nul. induction 1 as [|c b Hc Hb IH]; cbn; [done|].
  zcase (c =? 0); [done|]. by rewrite IH.
Qed.

Lemma zlookup_nat {A} (l : list A) (n : nat) : zlookup l (Z.of_nat n) = l !! n.
Proof. unfold zlookup. zcase (0 <=? Z.of_nat n); [|lia]. by rewrite Nat2Z.id. Qed.

Lemma zlookup_Some {A} (l : list A) i x : zlookup l i = Some x -> 0 <= i < Z.of_nat (length l).
Proof.
  unfold zlookup. zcase (0 <=? i); [|done].
  intros H%lookup_lt_Some. lia.
Qed.

Lemma zlookup_is_Some {A} (l : list A) i : 0 <= i < Z.of_nat (length l) -> is_Some (zlookup l i).
Proof.
  intros. unfold zlookup. zcase (0 <=? i); [|lia]. apply lookup_lt_is_Some. lia.
Qed.

Lemma zinsert_Ret {A} (l : list A) i x :
  0 <= i < Z.of_nat (length l) -> zinsert l i x = Ret (<[Z.to_nat i := x]> l).
Proof. intros. unfold zinsert. zcase (0 <=? i); [|lia]. zcase (i <? Z.of_nat (length l)); [done|lia]. Qed.

Lemma zinsert_Crash {A} (l : list A) i x :
  ~ 0 <= i < Z.of_nat (length l) -> zinsert l i x = Crash OutOfBounds.
Proof.
  intros. unfold zinsert. zcase (0 <=? i); [|done]. zcase (i <? Z.of_nat (length l)); [lia|done].
Qed.

(** Selecting nothing and everything. *)
Lemma filter_none {A} (P : A -> Prop) `{forall x, Decision (P x)} (l : list A) : Forall (fun x => ~ P x) l -> base.filter P l = [].
Proof. induction 1; [done|]. by rewrite filter_cons_False. Qed.

Lemma filter_all {A} (P : A -> Prop) `{forall x, Decision (P x)} (l : list A) : Forall P l -> base.filter P l = l.
Proof. induction 1 as [|x l Hx _ IH]; [done|]. rewrite filter_cons_True by done. by rewrite IH. Qed.

(** Records grouped by a key: selecting a key selects one group. *)
Section Keys.
Context {A B : Type} (key : A -> Z) (f : A -> list B) (kb : B -> Z).

Lemma filter_other l vid : (forall a y, a ∈ l -> y ∈ f a -> kb y = key a) -> (forall a, a ∈ l -> key a <> vid) ->
  base.filter (fun y => kb y = vid) (l ≫= f) = [].
Proof.
  intros Hk Hne. apply filter_none, Forall_forall. intros y (a & Hy & Ha)%list_elem_of_bind.
  rewrite (Hk a y Ha Hy). by apply Hne.
Qed.

Lemma filter_group l vid a : NoDup (key <$> l) -> (forall a y, a ∈ l -> y ∈ f a -> kb y = key a) -> a ∈ l -> key a = vid ->
  base.filter (fun y => kb y = vid) (l ≫= f) = f a.
Proof.
  intros Hn Hk (l1 & l2 & ->)%list_elem_of_split Ha. rewrite fmap_app in Hn. cbn in Hn.
  apply NoDup_app in Hn as (_ & H1 & [H2 _]%NoDup_cons). rewrite bind_app, bind_cons, !filter_app.
  assert (forall l', (forall x, x ∈ l' -> x ∈ l1 ++ a :: l2) -> a ∈ l1 ++ a :: l2 -> (key a ∉ key <$> l') ->
            base.filter (fun y => kb y = vid) (l' ≫= f) = []) as Hside.
  { intros l' Hsub _ Hnot. apply filter_other; [intros; apply Hk; auto|]. intros x Hx Hvx. apply Hnot, list_elem_of_fmap.
    exists x. split; [congruence|done]. }
  rewrite (Hside l1), (Hside l2); [|intros; set_solver|set_solver|done|intros; set_solver|set_solver|].
  - rewrite app_nil_r. cbn. apply filter_all, Forall_forall. intros y Hy. rewrite (Hk a y); [done|set_solver|done].
  - intros Hin. apply (H1 _ Hin). set_solver.
Qed.
End Keys.

(** ** Lengths as integers *)

Definition zlen {A} (l : list A) : Z := Z.of_nat (length l).

Lemma zlen_app {A} (l k : list A) : zlen (l ++ k) = zlen l + zlen k.
Proof. unfold zlen. rewrite length_app. lia. Qed.

Lemma zlen_cons {A} (x : A) l : zlen (x :: l) = 1 + zlen l.
Proof. unfold zlen. cbn [length]. lia. Qed.

Lemma zlen_nil {A} : zlen (@nil A) = 0.
Proof. done. Qed.

Lemma zlen_pos {A} (l : list A) : 0 <= zlen l.
Proof. unfold zlen. lia. Qed.

Lemma zlen_zero {A} (l : list A) : zlen l = 0 -> l = [].
Proof. unfold zlen. destruct l; [done|cbn; lia]. Qed.

Lemma take_zlen {A} (l : list A) : take (Z.to_nat (zlen l)) l = l.
Proof. unfold zlen. by rewrite Nat2Z.id, firstn_all. Qed.

Lemma zlookup_app_r {A} (l k : list A) i : zlen l <= i -> zlookup (l ++ k) i = zlookup k (i - zlen l).
Proof.
  unfold zlookup, zlen. intros H. rewrite !(proj2 (Z.leb_le _ _)) by lia. rewrite lookup_app_r by lia. f_equal. lia.
Qed.

Lemma zlookup_app_l {A} (l k : list A) i : i < zlen l -> zlookup (l ++ k) i = zlookup l i.
Proof.
  unfold zlookup, zlen. intros H. zcase (0 <=? i); [|done]. apply lookup_app_l. lia.
Qed.

Lemma zlookup_out {A} (l : list A) i : i < 0 \/ zlen l <= i -> zlookup l i = None.
Proof. unfold zlookup, zlen. intros H. zcase (0 <=? i); [|done]. apply lookup_ge_None. lia. Qed.

(** Replacing the last of the chunks. *)
Lemma zlookup_last {A} (l : list A) (x y : A) i :
  zlookup (l ++ [y]) i = if decide (i = zlen l) then Some y else zlookup (l ++ [x]) i.
Proof.
  case_decide as E.
  - subst i. rewrite zlookup_app_r by lia. by rewrite Z.sub_diag.
  - destruct (Z.lt_ge_cases i (zlen l)); [by rewrite !zlookup_app_l|].
    rewrite !zlookup_out; [done| |]; right; rewrite zlen_app, zlen_cons, zlen_nil; lia.
Qed.

Lemma zlookup_snoc {A} (l : list A) (y : A) i :
  zlookup (l ++ [y]) i = if decide (i = zlen l) then Some y else zlookup l i.
Proof.
  case_decide as E.
  - subst i. rewrite zlookup_app_r by lia. by rewrite Z.sub_diag.
  - destruct (Z.lt_ge_cases i (zlen l)); [by rewrite !zlookup_app_l|].
    rewrite !zlookup_out; [done| |]; right; rewrite ?zlen_app, ?zlen_cons, ?zlen_nil; lia.
Qed.

Lemma concat_snoc {A} (l : list (list A)) x : concat (l ++ [x]) = concat l ++ x.
Proof. rewrite concat_app. cbn. by rewrite app_nil_r. Qed.
