(* ===== verification/Codec.v ===== *)
(** * Integers and hexadecimal text in byte buffers

    src/src/common/shared_func.c: the big-endian integer codecs of the wire
    protocol and of the file ids ([int16_t2buff] .. [buff2long]) and the
    hexadecimal converters ([hex2ascii], [ascii2hex]).  A writer returns the
    bytes it stores at [buff]; a reader takes the bytes from [buff] on and
    crashes when the buffer is shorter than what it reads. *)
From S2P Require Import Prelude.

Definition int16_t2buff (n : Z) : bytes :=
  [ Z.land (Z.shiftr n 8) 255;
    Z.land n 255 ].

Definition buff2int16_t (buff : bytes) : outcome Z :=
  match buff with
  | p0 :: p1 :: _ => Ret (s16 (Z.lor (Z.shiftl p0 8) p1))
  | _ => Crash OutOfBounds
  end.

Definition int2buff (n : Z) : bytes :=
  [ Z.land (Z.shiftr n 24) 255;
    Z.land (Z.shiftr n 16) 255;
    Z.land (Z.shiftr n 8) 255;
    Z.land n 255 ].

Definition buff2int (buff : bytes) : outcome Z :=
  match buff with
  | p0 :: p1 :: p2 :: p3 :: _ =>
      Ret (Z.lor (Z.lor (Z.lor (s32 (Z.shiftl p0 24))
                               (Z.shiftl p1 16))
                        (Z.shiftl p2 8))
                 p3)
  | _ => Crash OutOfBounds
  end.

Definition long2buff (n : Z) : bytes :=
  [ Z.land (Z.shiftr n 56) 255;
    Z.land (Z.shiftr n 48) 255;
    Z.land (Z.shiftr n 40) 255;
    Z.land (Z.shiftr n 32) 255;
    Z.land (Z.shiftr n 24) 255;
    Z.land (Z.shiftr n 16) 255;
    Z.land (Z.shiftr n 8) 255;
    Z.land n 255 ].

Definition buff2long (buff : bytes) : outcome Z :=
  match buff with
  | p0 :: p1 :: p2 :: p3 :: p4 :: p5 :: p6 :: p7 :: _ =>
      Ret (Z.lor (Z.lor (Z.lor (Z.lor (Z.lor (Z.lor (Z.lor
             (s64 (Z.shiftl p0 56))
             (Z.shiftl p1 48))
             (Z.shiftl p2 40))
             (Z.shiftl p3 32))
             (Z.shiftl p4 24))
             (Z.shiftl p5 16))
             (Z.shiftl p6 8))
             p7)
  | _ => Crash OutOfBounds
  end.

(** One nibble of [hex2ascii]: digits below 10 are ['0'..'9'], the others
    ['A'..'F']; the inner [if (Nibble[j] < 16)] leaves any other value. *)
Definition nibble2ascii (nib : Z) : Z :=
  if nib <? 10 then u8 (nib + 48)
  else if nib <? 16 then u8 (nib - 10 + chr "A")
  else nib.

Fixpoint hex2ascii (pHex : bytes) : bytes :=
  match pHex with
  | [] => []
  | h :: pHex' =>
      let hi := Z.shiftr (Z.land h 240) 4 in
      let lo := Z.land h 15 in
      nibble2ascii hi :: nibble2ascii lo :: hex2ascii pHex'
  end.

(** One nibble of [ascii2hex]; [None] is its [return -1]. *)
Definition ascii2nibble (c : Z) : option Z :=
  if (c <=? chr "F") && (chr "A" <=? c) then Some (c - chr "A" + 10)
  else if (c <=? chr "f") && (chr "a" <=? c) then Some (c - chr "a" + 10)
  else if (chr "0" <=? c) && (c <=? chr "9") then Some (c - chr "0")
  else None.

(** The loop of [ascii2hex] over pairs of characters. *)
Fixpoint ascii2hex_loop (pAscii : bytes) : option bytes :=
  match pAscii with
  | a :: b :: rest =>
      match ascii2nibble a, ascii2nibble b with
      | Some hi, Some lo =>
          match ascii2hex_loop rest with
          | Some out => Some (u8 (Z.lor (u8 (Z.shiftl hi 4)) lo) :: out)
          | None => None
          end
      | _, _ => None
      end
  | _ => Some []
  end.

(** The bytes stored, or [None] for a [-1] result. *)
Definition ascii2hex (pAscii : bytes) : option bytes :=
  if negb (Z.rem (Z.of_nat (length pAscii)) 2 =? 0) then None
  else ascii2hex_loop pAscii.

(** ** Bits *)

(** [bits] reduces a goal about the bits of shifted, masked and converted
    integers to boolean facts on positions. *)
Ltac bits_step :=
  first
    [ rewrite Z.lor_spec
    | rewrite Z.land_spec
    | rewrite s_wrap_bits by lia
    | rewrite u_wrap_bits by lia
    | rewrite Z.shiftl_spec by lia
    | rewrite Z.shiftr_spec by lia
    | rewrite testbit_255 by lia ].

Lemma testbit_shiftl_byte b k i : is_u 8 b -> 0 <= k -> 0 <= i ->
  Z.testbit (Z.shiftl b k) i = (k <=? i) && (i <? k + 8) && Z.testbit b (i - k).
Proof.
  intros Hb Hk Hi. rewrite Z.shiftl_spec by lia.
  zcase (k <=? i); cbn; [|by rewrite Z.testbit_neg_r by lia].
  zcase (i <? k + 8); cbn; [done|]. by rewrite testbit_u8_high by first [assumption | lia].
Qed.

Lemma testbit_byte b i : is_u 8 b -> 0 <= i -> Z.testbit b i = (i <? 8) && Z.testbit b i.
Proof.
  intros. zcase (i <? 8); [done|]. by rewrite testbit_u8_high by first [assumption | lia].
Qed.

(** Byte [k] of [n], as the writers extract it, at the position the readers
    put it back. *)
Lemma testbit_byte_at n k i : 0 <= k -> 0 <= i ->
  Z.testbit (Z.shiftl (Z.land (Z.shiftr n k) 255) k) i
  = (k <=? i) && (i <? k + 8) && Z.testbit n i.
Proof.
  intros. rewrite testbit_shiftl_byte by first [apply land_255_byte | lia].
  zcase (k <=? i); cbn; [|done]. zcase (i <? k + 8); cbn; [|done].
  rewrite Z.land_spec, Z.shiftr_spec, testbit_255 by lia.
  zcase (i - k <? 8); [|lia]. rewrite andb_true_r. f_equal. lia.
Qed.

Lemma testbit_low_byte n i : 0 <= i ->
  Z.testbit (Z.land n 255) i = (i <? 8) && Z.testbit n i.
Proof. intros. by rewrite Z.land_spec, testbit_255, andb_comm by lia. Qed.

#[export] Hint Rewrite Z.lor_spec : lfs_bits.
#[export] Hint Rewrite testbit_byte_at testbit_low_byte s_wrap_bits using lia : lfs_bits.

(** Case on which byte the bit [i] falls in. *)
Ltac split_bytes i :=
  repeat match goal with
  | |- context [?a <=? ?x] => zcase (a <=? x); try lia; cbn [andb orb]
  | |- context [?x <? ?a] => zcase (x <? a); try lia; cbn [andb orb]
  end; rewrite ?orb_false_r; try reflexivity.

Lemma buff2int_int2buff_bits n :
  Z.lor (Z.lor (Z.lor (s32 (Z.shiftl (Z.land (Z.shiftr n 24) 255) 24))
     (Z.shiftl (Z.land (Z.shiftr n 16) 255) 16))
     (Z.shiftl (Z.land (Z.shiftr n 8) 255) 8))
     (Z.land n 255) = s32 n.
Proof.
  apply bits_eq. intros i Hi. autorewrite with lfs_bits.
  destruct (Z.le_gt_cases i 31).
  - rewrite Z.min_l by lia. split_bytes i.
  - rewrite Z.min_r by lia. split_bytes i.
Qed.

Lemma buff2long_long2buff_bits n :
  Z.lor (Z.lor (Z.lor (Z.lor (Z.lor (Z.lor (Z.lor
     (s64 (Z.shiftl (Z.land (Z.shiftr n 56) 255) 56))
     (Z.shiftl (Z.land (Z.shiftr n 48) 255) 48))
     (Z.shiftl (Z.land (Z.shiftr n 40) 255) 40))
     (Z.shiftl (Z.land (Z.shiftr n 32) 255) 32))
     (Z.shiftl (Z.land (Z.shiftr n 24) 255) 24))
     (Z.shiftl (Z.land (Z.shiftr n 16) 255) 16))
     (Z.shiftl (Z.land (Z.shiftr n 8) 255) 8))
     (Z.land n 255) = s64 n.
Proof.
  apply bits_eq. intros i Hi. autorewrite with lfs_bits.
  destruct (Z.le_gt_cases i 63).
  - rewrite Z.min_l by lia. split_bytes i.
  - rewrite Z.min_r by lia. split_bytes i.
Qed.

(** ** Round trips *)

Lemma buff2long_decode n r : buff2long (long2buff n ++ r) = Ret (s64 n).
Proof. unfold long2buff. cbn [app buff2long]. by rewrite buff2long_long2buff_bits. Qed.

(** A 64-bit integer written with [long2buff] is read back by
    [buff2long], whatever follows it in the buffer: the value is the argument
    as an [int64_t]. *)
Theorem buff2long_long2buff n r : buff2long (long2buff n ++ r) = Ret (s64 n).
Proof. apply buff2long_decode. Qed.

Lemma buff2int_int2buff n r : buff2int (int2buff n ++ r) = Ret (s32 n).
Proof. unfold int2buff. cbn [app buff2int]. by rewrite buff2int_int2buff_bits. Qed.

Lemma buff2int16_t_int16_t2buff n r : buff2int16_t (int16_t2buff n ++ r) = Ret (s16 n).
Proof.
  unfold int16_t2buff. cbn [app buff2int16_t]. f_equal. apply bits_eq. intros i Hi.
  autorewrite with lfs_bits. destruct (Z.le_gt_cases i 15).
  - rewrite Z.min_l by lia. split_bytes i.
  - rewrite Z.min_r by lia. split_bytes i.
Qed.

Lemma length_long2buff n : length (long2buff n) = 8%nat.
Proof. done. Qed.

Lemma long2buff_bytes n : is_bytes (long2buff n).
Proof. unfold long2buff, is_bytes. repeat constructor; apply land_255_byte. Qed.

Lemma int2buff_bytes n : is_bytes (int2buff n).
Proof. unfold int2buff, is_bytes. repeat constructor; apply land_255_byte. Qed.

Lemma byte_of_lor b x y k : is_u 8 b -> 0 <= k ->
  (forall i, k <= i < k + 8 -> Z.testbit x i = Z.testbit b (i - k)) ->
  y = Z.land (Z.shiftr x k) 255 -> y = b.
Proof.
  intros Hb Hk Hx ->. apply bits_eq. intros i Hi.
  rewrite Z.land_spec, Z.shiftr_spec, testbit_255 by lia.
  rewrite (testbit_byte b i) by first [assumption | lia].
  zcase (i <? 8); [|by rewrite andb_false_r]. rewrite andb_true_r, Hx by lia.
  cbn. f_equal. lia.
Qed.

Lemma is_bytes_cons b l : is_bytes (b :: l) <-> is_u 8 b /\ is_bytes l.
Proof. apply Forall_cons. Qed.

Lemma buff2long_bits b0 b1 b2 b3 b4 b5 b6 b7 r n :
  is_bytes [b0; b1; b2; b3; b4; b5; b6; b7] ->
  buff2long (b0 :: b1 :: b2 :: b3 :: b4 :: b5 :: b6 :: b7 :: r) = Ret n ->
  forall i, 0 <= i < 64 ->
    Z.testbit n i = Z.testbit (default 0 ([b7; b6; b5; b4; b3; b2; b1; b0] !! Z.to_nat (i / 8))) (i mod 8).
Proof.
  rewrite !is_bytes_cons. intros (?&?&?&?&?&?&?&?&_) Hn%Ret_inj i Hi. subst n.
  rewrite !Z.lor_spec, s_wrap_bits, Z.min_l by lia.
  rewrite !testbit_shiftl_byte, (testbit_byte b7) by first [assumption | lia].
  assert (i / 8 = 0 \/ i / 8 = 1 \/ i / 8 = 2 \/ i / 8 = 3 \/
          i / 8 = 4 \/ i / 8 = 5 \/ i / 8 = 6 \/ i / 8 = 7) as Hd
    by (pose proof (Z.div_mod i 8); pose proof (Z.mod_pos_bound i 8); lia).
  assert (8 * (i / 8) <= i < 8 * (i / 8) + 8 /\ i mod 8 = i - 8 * (i / 8)) as [Hr Hm]
    by (pose proof (Z.div_mod i 8); pose proof (Z.mod_pos_bound i 8); lia).
  repeat destruct Hd as [Hd|Hd]; rewrite Hd in *; rewrite Hm; clear Hd Hm;
    split_bytes i; cbn; f_equal; lia.
Qed.

(** Reading is injective on 8-byte fields: rewriting the value read with
    [long2buff] gives back the bytes of the field. *)
Theorem long2buff_buff2long b r n :
  is_bytes b -> length b = 8%nat -> buff2long (b ++ r) = Ret n -> long2buff n = b.
Proof.
  intros Hb Hlen Hn. destruct b as [|b0 [|b1 [|b2 [|b3 [|b4 [|b5 [|b6 [|b7 [|]]]]]]]]]; try done.
  pose proof (buff2long_bits _ _ _ _ _ _ _ _ _ _ Hb Hn) as Hbits. clear Hn Hlen.
  rewrite !is_bytes_cons in Hb. destruct Hb as (?&?&?&?&?&?&?&?&_).
  assert (Hbyte : forall (j : nat) k b, [b7; b6; b5; b4; b3; b2; b1; b0] !! j = Some b ->
            (j < 8)%nat -> k = 8 * Z.of_nat j -> is_u 8 b -> Z.land (Z.shiftr n k) 255 = b).
  { intros j k b Hjb Hj -> Hb. eapply byte_of_lor; [done|..|reflexivity]; [lia|].
    intros i Hi. rewrite Hbits by lia.
    replace (i / 8) with (Z.of_nat j) by (apply Z.div_unique with (i - 8 * Z.of_nat j); lia).
    rewrite Nat2Z.id, Hjb. cbn. f_equal.
    symmetry. apply Z.mod_unique with (Z.of_nat j); lia. }
  unfold long2buff. change (Z.land n 255) with (Z.land (Z.shiftr n 0) 255).
  rewrite (Hbyte 7%nat 56 b0), (Hbyte 6%nat 48 b1), (Hbyte 5%nat 40 b2), (Hbyte 4%nat 32 b3),
    (Hbyte 3%nat 24 b4), (Hbyte 2%nat 16 b5), (Hbyte 1%nat 8 b6), (Hbyte 0%nat 0 b7) by (done || lia).
  done.
Qed.

Lemma long2buff_buff2long_witness :
  buff2long [255; 0; 0; 0; 0; 0; 1; 2] = Ret (-72057594037927678) /\
  long2buff (-72057594037927678) = [255; 0; 0; 0; 0; 0; 1; 2].
Proof.
  split; [reflexivity|].
  apply (long2buff_buff2long [255; 0; 0; 0; 0; 0; 1; 2] []); [|reflexivity|reflexivity].
  repeat constructor; cbn; lia.
Defined.

(** *** Hexadecimal text *)

Lemma ascii2nibble_nibble2ascii nib : 0 <= nib < 16 -> ascii2nibble (nibble2ascii nib) = Some nib.
Proof.
  intros H.
  set (p z := bool_decide (ascii2nibble (nibble2ascii z) = Some z)).
  apply (bool_decide_unpack _), Is_true_true, (forall_below 16 p); [vm_compute; reflexivity|lia].
Qed.

Lemma nibbles_of_byte b : is_u 8 b ->
  u8 (Z.lor (u8 (Z.shiftl (Z.shiftr (Z.land b 240) 4) 4)) (Z.land b 15)) = b.
Proof.
  intros H. set (p z := u8 (Z.lor (u8 (Z.shiftl (Z.shiftr (Z.land z 240) 4) 4)) (Z.land z 15)) =? z).
  apply Z.eqb_eq, (forall_below 256 p); [vm_compute; reflexivity|done].
Qed.

Lemma hi_nibble_range b : is_u 8 b -> 0 <= Z.shiftr (Z.land b 240) 4 < 16.
Proof.
  intros Hb. assert (is_u 8 (Z.land b 240)) as Hl by (apply is_u_land; [lia|]; unfold is_u; lia).
  unfold is_u in Hl. rewrite Z.shiftr_div_pow2 by lia.
  split; [apply Z.div_pos; lia | apply Z.div_lt_upper_bound; lia].
Qed.

Lemma lo_nibble_range b : 0 <= Z.land b 15 < 16.
Proof. change 15 with (Z.ones 4). rewrite Z.land_ones by lia. apply Z.mod_pos_bound. lia. Qed.

Lemma ascii2hex_loop_hex2ascii b : is_bytes b -> ascii2hex_loop (hex2ascii b) = Some b.
Proof.
  induction 1 as [|h b Hh Hb IH]; [done|]. cbn [hex2ascii ascii2hex_loop].
  rewrite !ascii2nibble_nibble2ascii by auto using hi_nibble_range, lo_nibble_range.
  by rewrite IH, nibbles_of_byte.
Qed.

Lemma length_hex2ascii b : length (hex2ascii b) = (2 * length b)%nat.
Proof. induction b; cbn; lia. Qed.

(** [ascii2hex] decodes what [hex2ascii] printed: every byte buffer comes
    back unchanged. *)
Theorem ascii2hex_hex2ascii b : is_bytes b -> ascii2hex (hex2ascii b) = Some b.
Proof.
  intros Hb. unfold ascii2hex. rewrite length_hex2ascii, Nat2Z.inj_mul.
  rewrite (Z.mul_comm (Z.of_nat 2)), Z.rem_mul by lia. by apply ascii2hex_loop_hex2ascii.
Qed.

Lemma ascii2hex_hex2ascii_witness : ascii2hex (hex2ascii [0; 171; 255]) = Some [0; 171; 255].
Proof. apply ascii2hex_hex2ascii. repeat constructor; cbn; lia. Defined.

(** Reads past the end of a short field crash, they never return a value. *)
Lemma buff2long_short b : (length b < 8)%nat -> buff2long b = Crash OutOfBounds.
Proof.
  intros H. destruct b as [|b0 [|b1 [|b2 [|b3 [|b4 [|b5 [|b6 [|b7 l]]]]]]]]; cbn in *; done || lia.
Qed.
