(* ===== verification/CString.v ===== *)
(** * C strings: splitting, trimming, numbers in text

    src/src/common/shared_func.c: the string helpers the configuration
    reader, the snapshots and the binlog are built on, with the C library's
    [strchr], [strspn], [strpbrk], [strtol] and the [%d]/[%x] conversions they
    use.  A [char*] is the byte list up to its NUL (see [cstr]); a function
    that changes its argument in place returns the new content. *)
From S2P Require Import Prelude.

(** ** The C library *)

Definition isspace (c : Z) : bool := (c =? 32) || ((9 <=? c) && (c <=? 13)).

(** [strchr]: the text before the first [c] and the text after it. *)
Fixpoint strchr (s : bytes) (c : Z) : option (bytes * bytes) :=
  match s with
  | [] => None
  | x :: s' =>
      if x =? c then Some ([], s')
      else match strchr s' c with
           | Some (pre, post) => Some (x :: pre, post)
           | None => None
           end
  end.

Definition mem (c : Z) (set : bytes) : bool := existsb (Z.eqb c) set.

(** [strspn]: drop the longest prefix of characters of [set]. *)
Fixpoint strspn_drop (s set : bytes) : bytes :=
  match s with
  | [] => []
  | c :: s' => if mem c set then strspn_drop s' set else s
  end.

(** [strpbrk]: split at the first character of [set], which is dropped. *)
Fixpoint strpbrk (s set : bytes) : option (bytes * bytes) :=
  match s with
  | [] => None
  | c :: s' =>
      if mem c set then Some ([], s')
      else match strpbrk s' set with
           | Some (pre, post) => Some (c :: pre, post)
           | None => None
           end
  end.

Definition digit_value (c : Z) : option Z :=
  if (48 <=? c) && (c <=? 57) then Some (c - 48)
  else if (97 <=? c) && (c <=? 122) then Some (c - 97 + 10)
  else if (65 <=? c) && (c <=? 90) then Some (c - 65 + 10)
  else None.

Definition digit_in (base c : Z) : option Z :=
  match digit_value c with
  | Some d => if d <? base then Some d else None
  | None => None
  end.

Fixpoint strtol_digits (base acc : Z) (s : bytes) : Z :=
  match s with
  | [] => acc
  | c :: s' =>
      match digit_in base c with
      | Some d => strtol_digits base (acc * base + d) s'
      | None => acc
      end
  end.

(** The optional [0x] of base 16, taken only before a digit. *)
Definition strtol_prefix (base : Z) (s : bytes) : bytes :=
  match s with
  | z :: x :: d :: _ =>
      if (base =? 16) && (z =? 48) && ((x =? 120) || (x =? 88)) &&
         bool_decide (is_Some (digit_in 16 d))
      then drop 2 s else s
  | _ => s
  end.

Fixpoint skip_space (s : bytes) : bytes :=
  match s with
  | c :: s' => if isspace c then skip_space s' else s
  | [] => []
  end.

Definition clamp_long (z : Z) : Z := Z.max (- 2 ^ 63) (Z.min z (2 ^ 63 - 1)).

Definition strtol (base : Z) (s : bytes) : Z :=
  let s := skip_space s in
  match s with
  | c :: s' =>
      if c =? 45 then clamp_long (- strtol_digits base 0 (strtol_prefix base s'))
      else if c =? 43 then clamp_long (strtol_digits base 0 (strtol_prefix base s'))
      else clamp_long (strtol_digits base 0 (strtol_prefix base s))
  | [] => 0
  end.

Definition atol (s : bytes) : Z := strtol 10 s.
Definition atoi (s : bytes) : Z := s32 (strtol 10 s).

(** Digits of [n >= 0] in [base], most significant first; [log2 n + 1] digits
    are always enough. *)
Fixpoint pr_digits (dig : Z -> Z) (base : Z) (fuel : nat) (n : Z) (acc : bytes) : bytes :=
  match fuel with
  | O => acc
  | S f =>
      if n <? base then dig n :: acc
      else pr_digits dig base f (n / base) (dig (n mod base) :: acc)
  end.

Definition dec_digit (d : Z) : Z := d + 48.
Definition hex_digit_l (d : Z) : Z := if d <? 10 then d + 48 else d - 10 + 97.
Definition hex_digit_u (d : Z) : Z := if d <? 10 then d + 48 else d - 10 + 65.

Definition pr_nat (dig : Z -> Z) (base n : Z) : bytes :=
  pr_digits dig base (S (Z.to_nat (Z.log2 n))) n [].

(** [%d], [%ld], [%u]. *)
Definition pr_dec (n : Z) : bytes :=
  if n <? 0 then 45 :: pr_nat dec_digit 10 (- n) else pr_nat dec_digit 10 n.

Definition pad0 (w : nat) (s : bytes) : bytes := replicate (w - length s) 48 ++ s.

(** [%02x], [%02X] and [%03d] on non-negative values. *)
Definition pr_02x (n : Z) : bytes := pad0 2 (pr_nat hex_digit_l 16 n).
Definition pr_02X (n : Z) : bytes := pad0 2 (pr_nat hex_digit_u 16 n).
Definition pr_03d (n : Z) : bytes := pad0 3 (pr_dec n).

(** ** shared_func.c *)

(** [strtok_r s delim]: the token, if any, and the new [*save_ptr]. *)
Definition strtok_r (s delim : bytes) : option bytes * bytes :=
  let s := strspn_drop s delim in
  match s with
  | [] => (None, s)
  | _ =>
      match strpbrk s delim with
      | None => (Some s, [])
      | Some (token, rest) => (Some token, rest)
      end
  end.

(** Characters of a string where a byte above 127 starts a two-byte one. *)
Fixpoint getCharLen (s : bytes) : Z :=
  match s with
  | [] => 0
  | c :: s' =>
      if 127 <? c then
        match s' with
        | _ :: s'' => 1 + getCharLen s''
        | [] => 1
        end
      else 1 + getCharLen s'
  end.

Definition toLowercase (src : bytes) : bytes :=
  (fun c => if (chr "A" <=? c) && (c <=? chr "Z") then c + 32 else c) <$> src.

Definition toUppercase (src : bytes) : bytes :=
  (fun c => if (chr "a" <=? c) && (c <=? chr "z") then c - 32 else c) <$> src.

Fixpoint bin2hex (s : bytes) : bytes :=
  match s with
  | [] => []
  | c :: s' => pr_02x c ++ bin2hex s'
  end.

(** The loop of [hex2bin] runs [strlen / 2] times on pairs of characters. *)
Fixpoint hex2bin (s : bytes) : bytes :=
  match s with
  | a :: b :: s' => u8 (strtol 16 (cstr [a; b])) :: hex2bin s'
  | _ => []
  end.

Definition is_trim_space (c : Z) : bool :=
  (c =? 32) || (c =? 10) || (c =? 13) || (c =? 9).

Fixpoint skip_trim (s : bytes) : bytes :=
  match s with
  | c :: s' => if is_trim_space c then skip_trim s' else s
  | [] => []
  end.

(** [trim_left] copies through a heap buffer: when that allocation fails the
    string itself is left as it is. *)
Definition trim_left (malloc_ok : bool) (pStr : bytes) : bytes :=
  let p := skip_trim pStr in
  if Nat.eqb (length p) (length pStr) then pStr
  else if malloc_ok then p else pStr.

(** [trim_right] scans backwards from the last character. *)
Definition trim_right (pStr : bytes) : bytes := reverse (skip_trim (reverse pStr)).

Definition trim (malloc_ok : bool) (pStr : bytes) : bytes :=
  trim_left malloc_ok (trim_right pStr).

Definition chopPath (filePath : bytes) : bytes :=
  match last filePath with
  | None => filePath
  | Some c => if c =? chr "/" then take (length filePath - 1) filePath else filePath
  end.

(** The [while (true)] loop of [splitStr] with [n] columns left to fill. *)
Fixpoint splitStr_loop (n : nat) (p : bytes) (seperator : Z) : list bytes :=
  match n with
  | O => []
  | S O => [p]
  | S n' =>
      match strchr p seperator with
      | None => [p]
      | Some (col, rest) => col :: splitStr_loop n' rest seperator
      end
  end.

(** The columns stored in [pCols]; the result of the C function is their
    number. *)
Definition splitStr (src : bytes) (seperator : Z) (nMaxCols : Z) : list bytes :=
  if nMaxCols <=? 0 then []
  else splitStr_loop (Z.to_nat nMaxCols) src seperator.

Fixpoint get_split_str_count_loop (count : Z) (str : bytes) (seperator : Z) : Z :=
  match str with
  | [] => count
  | c :: str' =>
      get_split_str_count_loop (if c =? seperator then count + 1 else count) str' seperator
  end.

Definition get_split_str_count (str : bytes) (seperator : Z) : Z :=
  get_split_str_count_loop 1 str seperator.

(** ** Specifications *)

(** Columns joined by a separator. *)
Fixpoint join (sep : Z) (cols : list bytes) : bytes :=
  match cols with
  | [] => []
  | [c] => c
  | c :: cols' => c ++ sep :: join sep cols'
  end.

Definition lacks (sep : Z) (s : bytes) : Prop := Forall (fun c => c <> sep) s.

(** The next character, if any, is not a digit. *)
Definition no_digit_head (s : bytes) : Prop :=
  match s with
  | [] => True
  | c :: _ => digit_in 10 c = None
  end.

(** ** Splitting *)

Lemma strchr_Some s c pre post :
  strchr s c = Some (pre, post) -> s = pre ++ c :: post /\ lacks c pre.
Proof.
  revert pre. induction s as [|x s IH]; intros pre; cbn; [done|].
  zcase (x =? c).
  - intros [= <- <-]. subst. split; [done|constructor].
  - destruct (strchr s c) as [[pre' post']|] eqn:Hs; [|done]. intros [= <- <-].
    destruct (IH pre' eq_refl) as [-> ?]. split; [done|by constructor].
Qed.

Lemma strchr_None s c : strchr s c = None <-> lacks c s.
Proof.
  unfold lacks. induction s as [|x s IH]; cbn; [split; auto|]. rewrite Forall_cons.
  zcase (x =? c); [split; [done|by intros []]|].
  destruct (strchr s c) as [[]|]; split; try done; [intros [_ H%IH]; done|intros _; split; [done|by apply IH]].
Qed.

Lemma strchr_app pre c post : lacks c pre -> strchr (pre ++ c :: post) c = Some (pre, post).
Proof.
  induction 1 as [|x pre Hx Hpre IH]; cbn; [by rewrite Z.eqb_refl|].
  zcase (x =? c); [done|]. by rewrite IH.
Qed.

Lemma splitStr_loop_cons n p sep : exists c cols, splitStr_loop (S n) p sep = c :: cols.
Proof. destruct n; cbn; [eauto|]. destruct (strchr p sep) as [[]|]; eauto. Qed.

Lemma join_splitStr_loop n p sep : join sep (splitStr_loop (S n) p sep) = p.
Proof.
  revert p. induction n as [|n IH]; intros p; [done|].
  change (splitStr_loop (S (S n)) p sep) with
    (match strchr p sep with None => [p] | Some (col, rest) => col :: splitStr_loop (S n) rest sep end).
  destruct (strchr p sep) as [[col rest]|] eqn:Hs; [|done].
  apply strchr_Some in Hs as [-> _]. specialize (IH rest).
  destruct (splitStr_loop_cons n rest sep) as (c & cols & Hc). rewrite Hc in *. cbn in *. by rewrite IH.
Qed.

Lemma count_loop_add k s sep :
  get_split_str_count_loop k s sep = k - 1 + get_split_str_count s sep.
Proof.
  unfold get_split_str_count. revert k. induction s as [|c s IH]; intros k; cbn; [lia|].
  zcase (c =? sep); [rewrite (IH (k + 1)), (IH (1 + 1)) | rewrite (IH k)]; lia.
Qed.

Lemma count_lacks s sep : lacks sep s -> get_split_str_count s sep = 1.
Proof.
  unfold get_split_str_count. induction 1 as [|c s Hc Hs IH]; cbn; [done|].
  zcase (c =? sep); [done|apply IH].
Qed.

Lemma count_app pre post sep :
  lacks sep pre -> get_split_str_count (pre ++ sep :: post) sep = 1 + get_split_str_count post sep.
Proof.
  unfold get_split_str_count at 1. induction 1 as [|c s Hc Hs IH]; cbn.
  - rewrite Z.eqb_refl, count_loop_add. lia.
  - zcase (c =? sep); [done|apply IH].
Qed.

Lemma count_pos s sep : 1 <= get_split_str_count s sep.
Proof.
  unfold get_split_str_count. induction s as [|c s IH]; cbn; [done|].
  zcase (c =? sep); [rewrite count_loop_add; unfold get_split_str_count|]; lia.
Qed.

Lemma length_splitStr_loop n p sep :
  Z.of_nat (length (splitStr_loop (S n) p sep)) = Z.min (Z.of_nat (S n)) (get_split_str_count p sep).
Proof.
  revert p. induction n as [|n IH]; intros p.
  - cbn. pose proof (count_pos p sep). lia.
  - change (splitStr_loop (S (S n)) p sep) with
      (match strchr p sep with None => [p] | Some (col, rest) => col :: splitStr_loop (S n) rest sep end).
    destruct (strchr p sep) as [[col rest]|] eqn:Hs.
    + apply strchr_Some in Hs as [-> Hl]. rewrite count_app by done.
      cbn [length]. specialize (IH rest). lia.
    + apply strchr_None in Hs. rewrite count_lacks by done. cbn. lia.
Qed.

Lemma splitStr_loop_join cols sep :
  cols <> [] -> Forall (lacks sep) cols -> splitStr_loop (length cols) (join sep cols) sep = cols.
Proof.
  intros Hne H. induction H as [|c cols Hc Hcols IH]; [done|].
  destruct cols as [|c' cols]; [done|].
  cbn [length join]. cbn [splitStr_loop]. rewrite strchr_app by done.
  f_equal. by apply IH.
Qed.

(** Splitting a line loses nothing: the columns [splitStr] stores,
    joined again by the separator, are the line, and their number is the
    column limit or the number of fields [get_split_str_count] counts,
    whichever is smaller. *)
Theorem splitStr_spec src sep nMaxCols :
  0 < nMaxCols ->
  join sep (splitStr src sep nMaxCols) = src /\
  Z.of_nat (length (splitStr src sep nMaxCols)) = Z.min nMaxCols (get_split_str_count src sep).
Proof.
  intros H. unfold splitStr. zcase (nMaxCols <=? 0); [lia|].
  destruct (Z.to_nat nMaxCols) as [|n] eqn:Hn; [lia|]. split.
  - apply join_splitStr_loop.
  - rewrite length_splitStr_loop. lia.
Qed.

Lemma splitStr_spec_witness :
  join 124 (splitStr (str "a|b|c") 124 2) = str "a|b|c" /\
  Z.of_nat (length (splitStr (str "a|b|c") 124 2)) = Z.min 2 (get_split_str_count (str "a|b|c") 124).
Proof. apply splitStr_spec. lia. Defined.

(** A record printed with as many separator-free fields as the reader asks
    for is read back field by field. *)
Lemma splitStr_join cols sep nMaxCols :
  nMaxCols = Z.of_nat (length cols) -> cols <> [] -> Forall (lacks sep) cols ->
  splitStr (join sep cols) sep nMaxCols = cols.
Proof.
  intros -> Hne H. unfold splitStr.
  zcase (Z.of_nat (length cols) <=? 0); [destruct cols; cbn in *; [done|lia]|].
  rewrite Nat2Z.id. by apply splitStr_loop_join.
Qed.

(** ** Numbers in text *)

Lemma pr_digits_app dig base fuel n acc r :
  pr_digits dig base fuel n acc ++ r = pr_digits dig base fuel n (acc ++ r).
Proof.
  revert n acc. induction fuel as [|f IH]; intros n acc; cbn; [done|].
  destruct (n <? base); [done|]. by rewrite IH.
Qed.

Section Digits.
Context (dig : Z -> Z) (base : Z).
Hypothesis Hbase : 2 <= base.
Hypothesis Hdig : forall d, 0 <= d < base -> digit_in base (dig d) = Some d.

Lemma strtol_pr_digits fuel n r :
  0 <= n < 2 ^ Z.of_nat fuel ->
  strtol_digits base 0 (pr_digits dig base fuel n r) = strtol_digits base n r.
Proof.
  revert n r. induction fuel as [|f IH]; intros n r Hn.
  - cbn in *. by replace n with 0 by lia.
  - rewrite Nat2Z.inj_succ, Z.pow_succ_r in Hn by lia. cbn [pr_digits]. zcase (n <? base).
    + cbn [strtol_digits]. rewrite Hdig by lia. f_equal.
    + assert (0 <= n mod base < base) by (apply Z.mod_pos_bound; lia).
      pose proof (Z.div_mod n base). assert (0 <= n / base) by (apply Z.div_pos; lia).
      rewrite IH by nia. cbn [strtol_digits]. rewrite Hdig by lia. f_equal. lia.
Qed.

Lemma pr_digits_head fuel n r :
  0 <= n -> exists d r', 0 <= d < base /\ pr_digits dig base (S fuel) n r = dig d :: r'.
Proof.
  revert n r. induction fuel as [|f IH]; intros n r Hn; cbn [pr_digits]; zcase (n <? base); eauto.
  - exists (n mod base), r. split; [apply Z.mod_pos_bound; lia|done].
  - apply (IH (n / base) (dig (n mod base) :: r)). apply Z.div_pos; lia.
Qed.

Lemma pr_digits_all (P : Z -> Prop) fuel n r :
  0 <= n -> (forall d, 0 <= d < base -> P (dig d)) -> Forall P r -> Forall P (pr_digits dig base fuel n r).
Proof.
  intros Hn HP. revert n r Hn. induction fuel as [|f IH]; intros n r Hn Hr; cbn [pr_digits]; [done|].
  zcase (n <? base).
  - constructor; [apply HP; lia|done].
  - apply IH; [apply Z.div_pos; lia|]. constructor; [|done]. apply HP, Z.mod_pos_bound. lia.
Qed.

Lemma strtol_pr_nat n r : 0 <= n -> strtol_digits base 0 (pr_nat dig base n ++ r) = strtol_digits base n r.
Proof.
  intros Hn. unfold pr_nat. rewrite pr_digits_app, app_nil_l. apply strtol_pr_digits. split; [done|].
  rewrite Nat2Z.inj_succ, Z2Nat.id by apply Z.log2_nonneg.
  destruct (Z.eq_dec n 0) as [->|]; [done|]. apply Z.log2_spec. lia.
Qed.
End Digits.

Lemma dec_digit_in d : 0 <= d < 10 -> digit_in 10 (dec_digit d) = Some d.
Proof.
  intros H. set (p z := bool_decide (digit_in 10 (dec_digit z) = Some z)).
  apply (bool_decide_unpack _), Is_true_true, (forall_below 10 p); [vm_compute; reflexivity|lia].
Qed.

Lemma strtol_digits_stop base n r :
  match r with [] => True | c :: _ => digit_in base c = None end -> strtol_digits base n r = n.
Proof. destruct r as [|c r]; cbn; [done|]. by intros ->. Qed.

Lemma isspace_dec_digit d : 0 <= d < 10 -> isspace (dec_digit d) = false.
Proof.
  intros. unfold isspace, dec_digit. zcase (d + 48 =? 32); [lia|].
  zcase (9 <=? d + 48); [|done]. zcase (d + 48 <=? 13); [lia|done].
Qed.

(** What [strtol] reads from a printed number followed by anything that is
    not a digit. *)
Lemma strtol_pr_dec z r : no_digit_head r -> strtol 10 (pr_dec z ++ r) = clamp_long z.
Proof.
  intros Hr. unfold strtol, pr_dec. zcase (z <? 0).
  - cbn [app skip_space]. change (isspace 45) with false. cbv beta iota.
    change (45 =? 45) with true. cbv beta iota.
    f_equal. replace (strtol_prefix 10 (pr_nat dec_digit 10 (- z) ++ r)) with (pr_nat dec_digit 10 (- z) ++ r)
      by (unfold strtol_prefix; cbn [Z.eqb Pos.eqb andb]; by repeat case_match).
    rewrite (strtol_pr_nat dec_digit 10), strtol_digits_stop; auto using dec_digit_in; lia.
  - destruct (pr_digits_head dec_digit 10 ltac:(lia) (Z.to_nat (Z.log2 z)) z r ltac:(lia)) as (d & r' & Hd & He).
    pose proof (strtol_pr_nat dec_digit 10 ltac:(lia) dec_digit_in z r ltac:(lia)) as Hs.
    unfold pr_nat in *. rewrite pr_digits_app, app_nil_l in *. rewrite He in *.
    cbn [skip_space]. rewrite isspace_dec_digit by lia.
    zcase (dec_digit d =? 45); [unfold dec_digit in *; lia|].
    zcase (dec_digit d =? 43); [unfold dec_digit in *; lia|].
    f_equal. replace (strtol_prefix 10 (dec_digit d :: r')) with (dec_digit d :: r')
      by (unfold strtol_prefix; cbn [Z.eqb Pos.eqb andb]; by repeat case_match).
    rewrite Hs. by apply strtol_digits_stop.
Qed.

Lemma clamp_long_id z : is_s 64 z -> clamp_long z = z.
Proof. unfold is_s, clamp_long. cbn. lia. Qed.

(** Decimal round trip: a 64-bit value printed with [%ld] and followed by
    a non-digit (a separator, a newline, the end) is read back by [atol]. *)
Theorem atol_pr_dec z r : is_s 64 z -> no_digit_head r -> atol (pr_dec z ++ r) = z.
Proof. intros. unfold atol. by rewrite strtol_pr_dec, clamp_long_id. Qed.

Lemma atol_pr_dec_witness : atol (pr_dec (-9223372036854775808) ++ str "|x") = -9223372036854775808.
Proof. apply atol_pr_dec; [unfold is_s; lia | reflexivity]. Defined.

Lemma atoi_pr_dec z r : is_s 64 z -> no_digit_head r -> atoi (pr_dec z ++ r) = s32 z.
Proof. intros. unfold atoi. by rewrite strtol_pr_dec, clamp_long_id. Qed.

Lemma s32_is_s z : is_s 32 z -> is_s 64 z.
Proof. unfold is_s. cbn. lia. Qed.

Lemma strtol_range base s : is_s 64 (strtol base s).
Proof.
  unfold strtol. destruct (skip_space s) as [|c s']; [done|].
  destruct (c =? 45); [|destruct (c =? 43)]; unfold clamp_long, is_s; cbn; lia.
Qed.

Lemma atol_range s : is_s 64 (atol s).
Proof. apply strtol_range. Qed.

Lemma atoi_range s : is_s 32 (atoi s).
Proof. by apply s_wrap_range. Qed.

Lemma atoi_pr_int z : is_s 32 z -> atoi (pr_dec z) = z.
Proof. intros H. rewrite <- (app_nil_r (pr_dec z)), atoi_pr_dec by (done || by apply s32_is_s). by apply s_wrap_id. Qed.

Lemma atol_pr_long z : is_s 64 z -> atol (pr_dec z) = z.
Proof. intros H. unfold atol. rewrite <- (app_nil_r (pr_dec z)), strtol_pr_dec by done. by apply clamp_long_id. Qed.

(** A bound on the length of a printed number. *)
Lemma length_pr_digits dig base fuel n acc : (length (pr_digits dig base fuel n acc) <= fuel + length acc)%nat.
Proof.
  revert n acc. induction fuel as [|f IH]; intros n acc; cbn [pr_digits]; [lia|].
  destruct (n <? base); [cbn; lia|]. etransitivity; [apply IH|]. cbn. lia.
Qed.

Lemma length_pr_digits_pow dig base fuel k n acc : 2 <= base -> (1 <= k)%nat -> 0 <= n < base ^ Z.of_nat k ->
  (length (pr_digits dig base fuel n acc) <= k + length acc)%nat.
Proof.
  intros Hb Hk. revert k n acc Hk. induction fuel as [|f IH]; intros k n acc Hk Hn; cbn [pr_digits]; [lia|].
  zcase (n <? base); [cbn; lia|]. destruct k as [|[|k]]; [lia|change (Z.of_nat 1) with 1 in Hn; rewrite Z.pow_1_r in Hn; lia|].
  etransitivity; [apply (IH (S k)); [lia|]|cbn; lia].
  rewrite (Nat2Z.inj_succ (S k)), Z.pow_succ_r in Hn by lia. split; [apply Z.div_pos; lia|apply Z.div_lt_upper_bound; lia].
Qed.

Lemma length_pr_02X k n : (2 <= k)%nat -> 0 <= n < 16 ^ Z.of_nat k -> (length (pr_02X n) <= k)%nat.
Proof.
  intros Hk Hn. unfold pr_02X, pad0. pose proof (length_pr_digits_pow hex_digit_u 16 (S (Z.to_nat (Z.log2 n))) k n [] ltac:(lia) ltac:(lia) Hn) as H.
  cbn [length] in H. rewrite length_app, length_replicate. unfold pr_nat. lia.
Qed.

Lemma length_pr_dec w z : 0 < w -> is_s w z -> (length (pr_dec z) <= Z.to_nat w + 2)%nat.
Proof.
  intros Hw [Hl Hh]. assert (forall n, 0 <= n <= 2 ^ (w - 1) -> (length (pr_nat dec_digit 10 n) <= Z.to_nat w + 1)%nat) as Hn.
  { intros n Hn. unfold pr_nat. pose proof (length_pr_digits dec_digit 10 (S (Z.to_nat (Z.log2 n))) n []) as H.
    assert (Z.log2 n <= w - 1) by (rewrite <- (Z.log2_pow2 (w - 1)) by lia; apply Z.log2_le_mono; lia).
    pose proof (Z.log2_nonneg n). cbn [length] in H. lia. }
  unfold pr_dec. zcase (z <? 0); cbn [length]; [specialize (Hn (- z))|specialize (Hn z)]; lia.
Qed.

(** An unsigned 32-bit id printed with [%u] survives [atoi] into a
    [uint32_t]: the conversion to [int] and back is the identity. *)
Lemma u32_s32 z : u32 (s32 z) = u32 z.
Proof. unfold u_wrap. apply (s_wrap_mod 32). lia. Qed.

Lemma atoi_pr_u32 z r : is_u 32 z -> no_digit_head r -> u32 (atoi (pr_dec z ++ r)) = z.
Proof.
  intros Hz Hr. rewrite atoi_pr_dec by (unfold is_s, is_u in *; cbn in *; lia || done).
  by rewrite u32_s32, u_wrap_id.
Qed.

(** Characters a printed number is made of. *)
Lemma pr_dec_chars (P : Z -> Prop) z :
  P 45 -> (forall d, 0 <= d < 10 -> P (dec_digit d)) -> Forall P (pr_dec z).
Proof.
  intros Hm Hd. unfold pr_dec, pr_nat. zcase (z <? 0).
  - constructor; [done|]. apply pr_digits_all; done || lia.
  - apply pr_digits_all; done || lia.
Qed.

Lemma pr_dec_lacks sep z : sep <> 45 -> ~ (48 <= sep <= 57) -> lacks sep (pr_dec z).
Proof. intros H1 H2. apply pr_dec_chars; [lia|]. unfold dec_digit. lia. Qed.

Lemma pr_dec_no_trim z : Forall (fun c => is_trim_space c = false) (pr_dec z).
Proof.
  apply pr_dec_chars; [done|]. intros d Hd. unfold is_trim_space, dec_digit.
  zcase (d + 48 =? 32); [lia|]. zcase (d + 48 =? 10); [lia|]. zcase (d + 48 =? 13); [lia|].
  zcase (d + 48 =? 9); [lia|done].
Qed.

(** ** Trimming *)

Definition all_space (s : bytes) : Prop := Forall (fun c => is_trim_space c = true) s.

(** Neither end is a space. *)
Definition tight (s : bytes) : Prop :=
  (forall c, head s = Some c -> is_trim_space c = false) /\
  (forall c, last s = Some c -> is_trim_space c = false).

Lemma skip_trim_app l s : all_space l -> skip_trim (l ++ s) = skip_trim s.
Proof. induction 1 as [|c l Hc Hl IH]; cbn; [done|]. by rewrite Hc. Qed.

Lemma skip_trim_id s : (forall c, head s = Some c -> is_trim_space c = false) -> skip_trim s = s.
Proof. destruct s as [|c s]; cbn; [done|]. intros H. by rewrite (H c). Qed.

Lemma skip_trim_all s : all_space s -> skip_trim s = [].
Proof. intros H. rewrite <- (app_nil_r s). by rewrite skip_trim_app. Qed.

Lemma head_reverse (s : bytes) : head (reverse s) = last s.
Proof. by rewrite <- (reverse_involutive s) at 2; rewrite last_reverse. Qed.

Lemma all_space_reverse s : all_space s -> all_space (reverse s).
Proof. unfold all_space. by rewrite Forall_reverse. Qed.

Lemma trim_right_spec s r : all_space r -> (forall c, last s = Some c -> is_trim_space c = false) ->
  trim_right (s ++ r) = s.
Proof.
  intros Hr Hs. unfold trim_right. rewrite reverse_app, skip_trim_app by (by apply all_space_reverse).
  rewrite skip_trim_id by (by rewrite head_reverse). by rewrite reverse_involutive.
Qed.

Lemma trim_left_spec l s : all_space l -> (forall c, head s = Some c -> is_trim_space c = false) ->
  trim_left true (l ++ s) = s.
Proof.
  intros Hl Hs. unfold trim_left. rewrite skip_trim_app, skip_trim_id by done.
  case_match eqn:E; [|done]. apply Nat.eqb_eq in E. rewrite length_app in E.
  destruct l; [done|cbn in E; lia].
Qed.

Lemma trim_right_all s : all_space s -> trim_right s = [].
Proof. intros. unfold trim_right. by rewrite skip_trim_all by (by apply all_space_reverse). Qed.

(** [trim] removes the spaces, tabs and line ends around a field and nothing
    else. *)
Theorem trim_spec l s r : all_space l -> all_space r -> tight s -> trim true (l ++ s ++ r) = s.
Proof.
  intros Hl Hr [Hh Ht]. unfold trim. destruct (decide (s = [])) as [->|Hne].
  - rewrite trim_right_all; [done|]. by apply Forall_app.
  - rewrite app_assoc, trim_right_spec.
    + by apply trim_left_spec.
    + done.
    + intros c. rewrite last_app. destruct (last s) as [c'|] eqn:E; [|by apply last_None in E].
      intros [= <-]. by apply Ht.
Qed.

Lemma trim_spec_witness : trim true (str " ab c" ++ [10]) = str "ab c".
Proof.
  apply (trim_spec [32] (str "ab c") [10]); [by repeat constructor..|].
  split; cbn; by intros c [= <-].
Defined.

Lemma no_space_tight s : Forall (fun c => is_trim_space c = false) s -> tight s.
Proof.
  intros H. split; intros c Hc; rewrite Forall_forall in H; apply H.
  - destruct s; [done|]. injection Hc as ->. apply list_elem_of_here.
  - apply last_Some in Hc as [s' ->]. apply elem_of_app. right. apply list_elem_of_here.
Qed.

Lemma trim_tight ok s : tight s -> trim ok s = s.
Proof.
  intros [Hh Ht]. unfold trim.
  pose proof (trim_right_spec s [] (List.Forall_nil _) Ht) as Hr. rewrite app_nil_r in Hr. rewrite Hr.
  unfold trim_left. rewrite skip_trim_id by done. by rewrite Nat.eqb_refl.
Qed.

Lemma trim_line_end ok s : tight s -> trim ok (s ++ [10]) = s.
Proof.
  intros Hs. unfold trim. rewrite trim_right_spec; [|by repeat constructor|apply Hs].
  unfold trim_left. rewrite skip_trim_id by apply Hs. by rewrite Nat.eqb_refl.
Qed.

(** ** Hexadecimal text *)

Lemma hex2bin_pair b : is_u 8 b ->
  length (pr_02x b) = 2%nat /\
  u8 (strtol 16 (cstr (pr_02x b))) = b.
Proof.
  intros H.
  set (p z := (Nat.eqb (length (pr_02x z)) 2) && (u8 (strtol 16 (cstr (pr_02x z))) =? z)).
  assert (p b = true) as Hp by (apply (forall_below 256 p); [vm_compute; reflexivity|done]).
  subst p. cbn beta in Hp. apply andb_true_iff in Hp as [Hl%Nat.eqb_eq Hv%Z.eqb_eq]. done.
Qed.

(** [hex2bin] reads back what [bin2hex] printed. *)
Theorem hex2bin_bin2hex b : is_bytes b -> hex2bin (bin2hex b) = b.
Proof.
  induction 1 as [|c b Hc Hb IH]; [done|]. cbn [bin2hex].
  destruct (hex2bin_pair c Hc) as [Hl Hv].
  destruct (pr_02x c) as [|x [|y [|]]] eqn:E; try done.
  cbn [app hex2bin]. rewrite Hv. by rewrite IH.
Qed.

Lemma hex2bin_bin2hex_witness : hex2bin (bin2hex [0; 15; 254]) = [0; 15; 254].
Proof. apply hex2bin_bin2hex. repeat constructor; cbn; lia. Defined.

(** ** Tokens and case *)

Lemma strspn_drop_suffix s set : exists pre, s = pre ++ strspn_drop s set /\ Forall (fun c => mem c set = true) pre.
Proof.
  induction s as [|c s (pre & Hs & Hpre)]; cbn; [by exists []|].
  destruct (mem c set) eqn:E; [|by exists []].
  exists (c :: pre). split; [by rewrite Hs at 1|by constructor].
Qed.

Lemma strspn_drop_head s set c r : strspn_drop s set = c :: r -> mem c set = false.
Proof.
  induction s as [|x s IH]; cbn; [done|]. destruct (mem x set) eqn:E; [done|].
  by intros [= <- <-].
Qed.

Lemma strpbrk_Some s set pre post : strpbrk s set = Some (pre, post) ->
  exists d, s = pre ++ d :: post /\ mem d set = true /\ Forall (fun c => mem c set = false) pre.
Proof.
  revert pre. induction s as [|c s IH]; intros pre; cbn; [done|]. destruct (mem c set) eqn:E.
  - intros [= <- <-]. exists c. split_and!; [done|done|constructor].
  - destruct (strpbrk s set) as [[pre' post']|] eqn:Hs; [|done]. intros [= <- <-].
    destruct (IH pre' eq_refl) as (d & -> & Hd & Hf). exists d. split_and!; [done|done|by constructor].
Qed.

Lemma strpbrk_None s set : strpbrk s set = None -> Forall (fun c => mem c set = false) s.
Proof.
  induction s as [|c s IH]; cbn; [constructor|]. destruct (mem c set) eqn:E; [done|].
  destruct (strpbrk s set) as [[]|]; [done|]. intros _. constructor; auto.
Qed.

(** A token is non-empty, holds no delimiter, and is followed in the string by
    a delimiter or the end. *)
Lemma strtok_r_token s delim tok rest : strtok_r s delim = (Some tok, rest) ->
  tok <> [] /\ Forall (fun c => mem c delim = false) tok /\
  exists pre, Forall (fun c => mem c delim = true) pre /\
    (s = pre ++ tok /\ rest = [] \/ exists d, mem d delim = true /\ s = pre ++ tok ++ d :: rest).
Proof.
  unfold strtok_r. destruct (strspn_drop_suffix s delim) as (pre & Hs & Hpre).
  destruct (strspn_drop s delim) as [|c r] eqn:E; [done|].
  pose proof (strspn_drop_head _ _ _ _ E) as Hc.
  destruct (strpbrk (c :: r) delim) as [[tok' rest']|] eqn:Hp; intros [= <- <-].
  - apply strpbrk_Some in Hp as (d & He & Hd & Hf). split_and!; [|done|].
    + intros ->. cbn in He. congruence.
    + exists pre. split; [done|]. right. exists d. split; [done|]. congruence.
  - split_and!; [done|by apply strpbrk_None|]. exists pre. split; [done|]. by left.
Qed.

Lemma toUppercase_idemp s : toUppercase (toUppercase s) = toUppercase s.
Proof.
  unfold toUppercase. rewrite <- list_fmap_compose. apply list_fmap_ext. intros _ c _. cbn.
  change (chr "a") with 97. change (chr "z") with 122.
  zcase (97 <=? c); cbn; [|zcase (97 <=? c); [lia|done]].
  zcase (c <=? 122); cbn; [zcase (97 <=? c - 32); cbn; [lia|done]|].
  zcase (97 <=? c); cbn; [|lia]. zcase (c <=? 122); [lia|done].
Qed.
