(* ===== verification/Lines.v ===== *)
(** * Text files of records

    The snapshots, mark files and the binlog are text: one line per record, its
    columns joined by ['|'].  They are written with [sprintf] and read with
    [fgets], [splitStr] and [trim] (src/src/common/shared_func.c).  A record
    type is an instance of [LineRecord]; the round trip is proved once. *)
From S2P Require Import Prelude CString.

(** [BAT_DATA_SEPERATOR_SPLITSYMBOL] of trackerd.h and dataserverd.h. *)
Definition BAT_DATA_SEPERATOR_SPLITSYMBOL : Z := chr "|".

(** ** Reading lines *)

(** [fgets]: at most [n] bytes, up to and with the first line end. *)
Fixpoint fgets_take (n : nat) (text : bytes) : bytes * bytes :=
  match n, text with
  | O, _ => ([], text)
  | _, [] => ([], [])
  | S n', c :: text' =>
      if c =? 10 then ([c], text') else let '(l, r) := fgets_take n' text' in (c :: l, r)
  end.

(** [fgets(sline, size, fp)] with [text] the rest of the file. *)
Definition fgets (size : nat) (text : bytes) : option (bytes * bytes) :=
  match text with
  | [] => None
  | _ => Some (fgets_take (size - 1) text)
  end.

Definition columns (n : Z) (sline : bytes) : list bytes :=
  splitStr (cstr sline) BAT_DATA_SEPERATOR_SPLITSYMBOL n.

(** [trim] of a column that has been set; [ok k] is the allocation that
    [trim_left] may need for column [k]. *)
Definition trimmed (ok : nat -> bool) (cols : list bytes) (k : nat) : bytes :=
  trim (ok k) (default [] (cols !! k)).

(** ** Writing lines *)

Definition pr_line (cols : list bytes) : bytes := join BAT_DATA_SEPERATOR_SPLITSYMBOL cols ++ [10].

(** The columns as they are read: the last one keeps the line end. *)
Fixpoint nl_last (cols : list bytes) : list bytes :=
  match cols with
  | [] => []
  | [c] => [c ++ [10]]
  | c :: cols' => c :: nl_last cols'
  end.

(** A column that survives: no separator, line end or NUL in it, no space at
    its ends. *)
Definition column_ok (c : bytes) : Prop :=
  lacks BAT_DATA_SEPERATOR_SPLITSYMBOL c /\ lacks 10 c /\ no_nul c /\ tight c.

(** A type of records kept as lines of [lr_count] columns. *)
Class LineRecord (A : Type) := {
  lr_count : nat;
  lr_columns : A -> list bytes;
  lr_read : (nat -> bytes) -> A;
  lr_valid : A -> Prop;
  lr_length a : length (lr_columns a) = lr_count;
  lr_columns_ok a : lr_valid a -> Forall column_ok (lr_columns a);
  lr_round_trip a f : lr_valid a -> (forall k c, lr_columns a !! k = Some c -> f k = c) -> lr_read f = a
}.

(** ** Lemmas *)

Lemma pr_dec_column z : column_ok (pr_dec z).
Proof.
  split_and!; [apply (pr_dec_lacks 124); lia|apply pr_dec_lacks; lia| |apply no_space_tight, pr_dec_no_trim].
  apply (pr_dec_chars (fun c => c <> 0)); [lia|]. unfold dec_digit. lia.
Qed.

#[export] Hint Resolve pr_dec_column : lfs.

Lemma fgets_take_line body n rest : lacks 10 body -> (length body < n)%nat ->
  fgets_take n (body ++ 10 :: rest) = (body ++ [10], rest).
Proof.
  intros Hb. revert n. induction Hb as [|c body Hc _ IH]; intros [|n] Hn; cbn in *; try lia; [done|].
  zcase (c =? 10); [done|]. by rewrite IH by lia.
Qed.

Lemma fgets_line size body rest : lacks 10 body -> (length body + 1 < size)%nat ->
  fgets size (body ++ 10 :: rest) = Some (body ++ [10], rest).
Proof.
  intros Hb Hn. unfold fgets. destruct (body ++ 10 :: rest) eqn:E; [by destruct body|].
  rewrite <- E, fgets_take_line by (done || lia). done.
Qed.

(** A call that reads something leaves a shorter rest. *)
Lemma fgets_rest size text l rest : (1 < size)%nat -> fgets size text = Some (l, rest) -> (length rest < length text)%nat.
Proof.
  intros Hs. unfold fgets. destruct text as [|c text]; [done|]. destruct (size - 1)%nat as [|n] eqn:E; [lia|].
  assert (forall n t, (length (fgets_take n t).2 <= length t)%nat) as Hle.
  { clear. induction n as [|n IH]; intros [|c t]; cbn; try lia. zcase (c =? 10); cbn; [lia|].
    specialize (IH t). destruct (fgets_take n t). cbn in *. lia. }
  cbn. zcase (c =? 10); [intros [= <- <-]; lia|]. specialize (Hle n text). destruct (fgets_take n text). intros [= <- <-]. cbn in *. lia.
Qed.

Lemma Forall_join (P : Z -> Prop) sep cols : P sep -> Forall (Forall P) cols -> Forall P (join sep cols).
Proof.
  intros Hs H. induction H as [|c cols Hc Hcols IH]; [constructor|]. destruct cols as [|c' cols]; [done|].
  change (Forall P (c ++ sep :: join sep (c' :: cols))). apply Forall_app. split; [done|by constructor].
Qed.

Lemma join_nl_last sep cols : cols <> [] -> join sep (nl_last cols) = join sep cols ++ [10].
Proof.
  induction cols as [|c cols IH]; [done|]. intros _. destruct cols as [|c' cols]; [done|].
  destruct cols as [|c'' cols]; [cbn; by rewrite <- app_assoc|].
  change (c ++ sep :: join sep (nl_last (c' :: c'' :: cols)) = (c ++ sep :: join sep (c' :: c'' :: cols)) ++ [10]).
  rewrite IH by done. by rewrite <- app_assoc.
Qed.

Lemma length_nl_last cols : length (nl_last cols) = length cols.
Proof. induction cols as [|c [|c' cols] IH]; [done|done|]. cbn [nl_last length] in *. by rewrite IH. Qed.

Lemma nl_last_lacks sep cols : sep <> 10 -> Forall (lacks sep) cols -> Forall (lacks sep) (nl_last cols).
Proof.
  intros Hs H. induction H as [|c cols Hc Hcols IH]; [constructor|]. destruct cols as [|c' cols].
  - constructor; [|constructor]. apply Forall_app. split; [done|]. by repeat constructor.
  - by constructor.
Qed.

Lemma nl_last_trim ok cols k c : Forall column_ok cols -> cols !! k = Some c -> trimmed ok (nl_last cols) k = c.
Proof.
  unfold trimmed. intros H. revert k ok. induction H as [|c0 cols Hc Hcols IH]; intros k ok Hk; [done|].
  destruct Hc as (_ & _ & _ & Ht). destruct cols as [|c' cols].
  - destruct k; [|done]. injection Hk as <-. by apply trim_line_end.
  - destruct k as [|k]; cbn [nl_last].
    + injection Hk as <-. by apply trim_tight.
    + by apply (IH k (fun k => ok (S k))).
Qed.

Lemma pr_line_no_nul cols : Forall column_ok cols -> no_nul (pr_line cols).
Proof.
  intros H. apply Forall_app. split; [|by repeat constructor]. apply Forall_join; [done|].
  eapply Forall_impl; [done|]. by intros c (_ & _ & ? & _).
Qed.

Lemma join_lacks_nl cols : Forall column_ok cols -> lacks 10 (join BAT_DATA_SEPERATOR_SPLITSYMBOL cols).
Proof.
  intros H. apply Forall_join; [done|]. eapply Forall_impl; [done|]. by intros c (_ & ? & _).
Qed.

(** The columns of a printed line. *)
Lemma columns_pr_line n cols : n = Z.of_nat (length cols) -> cols <> [] -> Forall column_ok cols ->
  columns n (pr_line cols) = nl_last cols.
Proof.
  intros -> Hne H. unfold columns. rewrite cstr_id by (by apply pr_line_no_nul). unfold pr_line.
  rewrite <- join_nl_last by done. apply splitStr_join.
  - by rewrite length_nl_last.
  - intros E. apply (f_equal length) in E. rewrite length_nl_last in E. by destruct cols.
  - apply nl_last_lacks; [done|]. eapply Forall_impl; [done|]. by intros c (? & _).
Qed.

(** Reading the next line of a file of printed lines. *)
Lemma fgets_pr_line size cols rest : Forall column_ok cols -> (length (pr_line cols) < size)%nat ->
  fgets size (pr_line cols ++ rest) = Some (pr_line cols, rest).
Proof.
  intros H Hl. unfold pr_line in *. rewrite <- app_assoc. cbn [app]. rewrite length_app in Hl.
  apply fgets_line; [by apply join_lacks_nl|cbn in Hl; lia].
Qed.

Lemma pr_line_cons cols : exists c r, pr_line cols = c :: r.
Proof. unfold pr_line. destruct (join _ cols); cbn; eauto. Qed.

Lemma cstr_pr_line cols : Forall column_ok cols -> cstr (pr_line cols) <> [].
Proof.
  intros H. rewrite cstr_id by (by apply pr_line_no_nul). destruct (pr_line_cons cols) as (c & r & ->). done.
Qed.

Section Records.
Context {A : Type} `{LineRecord A}.

Definition pr_record (a : A) : bytes := pr_line (lr_columns a).

(** What a reader gets from a line: [None] when the number of columns is wrong. *)
Definition read_record (ok : nat -> bool) (sline : bytes) : option A :=
  let cols := columns (Z.of_nat lr_count) sline in
  if negb (length cols =? lr_count)%nat then None else Some (lr_read (trimmed ok cols)).

(** A record that is printed and read again is the same. *)
Lemma read_pr_record ok a : lr_valid a -> (0 < lr_count)%nat -> read_record ok (pr_record a) = Some a.
Proof.
  intros Hv Hc. pose proof (lr_length a) as Hl. pose proof (lr_columns_ok a Hv) as Hok. unfold read_record, pr_record.
  rewrite columns_pr_line; [|by rewrite Hl| |done].
  - rewrite length_nl_last, Hl, Nat.eqb_refl. cbn [negb]. f_equal. apply lr_round_trip; [done|].
    intros k c Hk. by apply nl_last_trim.
  - intros E. rewrite E in Hl. cbn in Hl. lia.
Qed.

(** The loop over the lines of a file: every record updates the state, and the
    first line with another number of columns ends it.  Each line has at least
    one byte, so that the length of the file is enough fuel. *)
Fixpoint read_lines {S : Type} (upd : S -> A -> S) (size fuel : nat) (ok : nat -> bool) (s : S) (text : bytes) : outcome S :=
  match fgets size text with
  | None => Ret s
  | Some (sline, rest) =>
      match fuel with
      | O => Crash Diverged
      | Datatypes.S f =>
          match cstr sline with
          | [] => read_lines upd size f ok s rest
          | _ =>
              match read_record ok sline with
              | None => Ret s
              | Some r => read_lines upd size f ok (upd s r) rest
              end
          end
      end
  end.

(** A file of one record. *)
Lemma read_lines_one {S : Type} (upd : S -> A -> S) size ok s a : lr_valid a -> (0 < lr_count)%nat -> (length (pr_record a) < size)%nat ->
  read_lines upd size (length (pr_record a)) ok s (pr_record a) = Ret (upd s a).
Proof.
  intros Hv Hc Hl. pose proof (lr_columns_ok _ Hv) as Hcols. destruct (pr_line_cons (lr_columns a)) as (c & t & Ec). unfold pr_record in *.
  rewrite Ec. cbn [length read_lines]. rewrite <- Ec. rewrite <- (app_nil_r (pr_line _)), fgets_pr_line by done.
  destruct (cstr (pr_line _)) eqn:E; [by apply cstr_pr_line in E|]. clear E.
  change (pr_line (lr_columns a)) with (pr_record a). rewrite read_pr_record by done. by destruct t.
Qed.

(** The loop ends for every file. *)
Lemma read_lines_total {S : Type} (upd : S -> A -> S) size fuel ok s text : (1 < size)%nat -> (length text <= fuel)%nat ->
  exists s', read_lines upd size fuel ok s text = Ret s'.
Proof.
  intros Hs. revert s text. induction fuel as [|f IH]; intros s text Hf; cbn [read_lines].
  - destruct text; [|cbn in Hf; lia]. by exists s.
  - destruct (fgets size text) as [ [sline rest]|] eqn:E; [|by exists s]. apply fgets_rest in E; [|done].
    destruct (cstr sline); [apply IH; lia|]. destruct (read_record ok sline); [apply IH; lia|by exists s].
Qed.
End Records.
