(* ===== verification/Crc32.v ===== *)
(** * CRC-32

    src/src/common/crc32.c: the table-driven checksum of file contents, and
    its equivalence with the bit-by-bit definition of CRC-32 (reflected
    polynomial [0xEDB88320]). *)
From S2P Require Import Prelude.

Definition CRC32_BUFF_SIZE : Z := 16 * 1024.

Definition crc32_table : list Z :=
  [
    0x00000000; 0x77073096; 0xee0e612c; 0x990951ba; 0x076dc419; 0x706af48f; 0xe963a535; 0x9e6495a3;
    0x0edb8832; 0x79dcb8a4; 0xe0d5e91e; 0x97d2d988; 0x09b64c2b; 0x7eb17cbd; 0xe7b82d07; 0x90bf1d91;
    0x1db71064; 0x6ab020f2; 0xf3b97148; 0x84be41de; 0x1adad47d; 0x6ddde4eb; 0xf4d4b551; 0x83d385c7;
    0x136c9856; 0x646ba8c0; 0xfd62f97a; 0x8a65c9ec; 0x14015c4f; 0x63066cd9; 0xfa0f3d63; 0x8d080df5;
    0x3b6e20c8; 0x4c69105e; 0xd56041e4; 0xa2677172; 0x3c03e4d1; 0x4b04d447; 0xd20d85fd; 0xa50ab56b;
    0x35b5a8fa; 0x42b2986c; 0xdbbbc9d6; 0xacbcf940; 0x32d86ce3; 0x45df5c75; 0xdcd60dcf; 0xabd13d59;
    0x26d930ac; 0x51de003a; 0xc8d75180; 0xbfd06116; 0x21b4f4b5; 0x56b3c423; 0xcfba9599; 0xb8bda50f;
    0x2802b89e; 0x5f058808; 0xc60cd9b2; 0xb10be924; 0x2f6f7c87; 0x58684c11; 0xc1611dab; 0xb6662d3d;
    0x76dc4190; 0x01db7106; 0x98d220bc; 0xefd5102a; 0x71b18589; 0x06b6b51f; 0x9fbfe4a5; 0xe8b8d433;
    0x7807c9a2; 0x0f00f934; 0x9609a88e; 0xe10e9818; 0x7f6a0dbb; 0x086d3d2d; 0x91646c97; 0xe6635c01;
    0x6b6b51f4; 0x1c6c6162; 0x856530d8; 0xf262004e; 0x6c0695ed; 0x1b01a57b; 0x8208f4c1; 0xf50fc457;
    0x65b0d9c6; 0x12b7e950; 0x8bbeb8ea; 0xfcb9887c; 0x62dd1ddf; 0x15da2d49; 0x8cd37cf3; 0xfbd44c65;
    0x4db26158; 0x3ab551ce; 0xa3bc0074; 0xd4bb30e2; 0x4adfa541; 0x3dd895d7; 0xa4d1c46d; 0xd3d6f4fb;
    0x4369e96a; 0x346ed9fc; 0xad678846; 0xda60b8d0; 0x44042d73; 0x33031de5; 0xaa0a4c5f; 0xdd0d7cc9;
    0x5005713c; 0x270241aa; 0xbe0b1010; 0xc90c2086; 0x5768b525; 0x206f85b3; 0xb966d409; 0xce61e49f;
    0x5edef90e; 0x29d9c998; 0xb0d09822; 0xc7d7a8b4; 0x59b33d17; 0x2eb40d81; 0xb7bd5c3b; 0xc0ba6cad;
    0xedb88320; 0x9abfb3b6; 0x03b6e20c; 0x74b1d29a; 0xead54739; 0x9dd277af; 0x04db2615; 0x73dc1683;
    0xe3630b12; 0x94643b84; 0x0d6d6a3e; 0x7a6a5aa8; 0xe40ecf0b; 0x9309ff9d; 0x0a00ae27; 0x7d079eb1;
    0xf00f9344; 0x8708a3d2; 0x1e01f268; 0x6906c2fe; 0xf762575d; 0x806567cb; 0x196c3671; 0x6e6b06e7;
    0xfed41b76; 0x89d32be0; 0x10da7a5a; 0x67dd4acc; 0xf9b9df6f; 0x8ebeeff9; 0x17b7be43; 0x60b08ed5;
    0xd6d6a3e8; 0xa1d1937e; 0x38d8c2c4; 0x4fdff252; 0xd1bb67f1; 0xa6bc5767; 0x3fb506dd; 0x48b2364b;
    0xd80d2bda; 0xaf0a1b4c; 0x36034af6; 0x41047a60; 0xdf60efc3; 0xa867df55; 0x316e8eef; 0x4669be79;
    0xcb61b38c; 0xbc66831a; 0x256fd2a0; 0x5268e236; 0xcc0c7795; 0xbb0b4703; 0x220216b9; 0x5505262f;
    0xc5ba3bbe; 0xb2bd0b28; 0x2bb45a92; 0x5cb36a04; 0xc2d7ffa7; 0xb5d0cf31; 0x2cd99e8b; 0x5bdeae1d;
    0x9b64c2b0; 0xec63f226; 0x756aa39c; 0x026d930a; 0x9c0906a9; 0xeb0e363f; 0x72076785; 0x05005713;
    0x95bf4a82; 0xe2b87a14; 0x7bb12bae; 0x0cb61b38; 0x92d28e9b; 0xe5d5be0d; 0x7cdcefb7; 0x0bdbdf21;
    0x86d3d2d4; 0xf1d4e242; 0x68ddb3f8; 0x1fda836e; 0x81be16cd; 0xf6b9265b; 0x6fb077e1; 0x18b74777;
    0x88085ae6; 0xff0f6a70; 0x66063bca; 0x11010b5c; 0x8f659eff; 0xf862ae69; 0x616bffd3; 0x166ccf45;
    0xa00ae278; 0xd70dd2ee; 0x4e048354; 0x3903b3c2; 0xa7672661; 0xd06016f7; 0x4969474d; 0x3e6e77db;
    0xaed16a4a; 0xd9d65adc; 0x40df0b66; 0x37d83bf0; 0xa9bcae53; 0xdebb9ec5; 0x47b2cf7f; 0x30b5ffe9;
    0xbdbdf21c; 0xcabac28a; 0x53b39330; 0x24b4a3a6; 0xbad03605; 0xcdd70693; 0x54de5729; 0x23d967bf;
    0xb3667a2e; 0xc4614ab8; 0x5d681b02; 0x2a6f2b94; 0xb40bbe37; 0xc30c8ea1; 0x5a05df1b; 0x2d02ef8d
  ].

(** One round of the loop of [get_default_crc32_value]. *)
Definition crc32_round (crc b : Z) : outcome Z :=
  t ← get_or OutOfBounds (zlookup crc32_table (Z.land (Z.lxor crc b) 255));
  Ret (Z.lxor (Z.land (Z.shiftr crc 8) 0x00ffffff) t).

Fixpoint crc32_loop (crc : Z) (buf : bytes) : outcome Z :=
  match buf with
  | [] => Ret crc
  | b :: buf' => crc' ← crc32_round crc b; crc32_loop crc' buf'
  end.

(** [buf] is the array the pointer refers to; the loop reads its first [len]
    bytes. *)
Definition get_default_crc32_value (deft : Z) (buf : bytes) (len : Z) : outcome Z :=
  if Z.of_nat (length buf) <? len then Crash OutOfBounds
  else
    crc ← crc32_loop (Z.lxor deft 0xffffffff) (take (Z.to_nat len) buf);
    Ret (Z.lxor crc 0xffffffff).

Definition get_crc32_value (buf : bytes) (len : Z) : outcome Z :=
  get_default_crc32_value 0 buf len.

(** The successive results of [fread] on a file of content [data]: full
    buffers of [CRC32_BUFF_SIZE] bytes, then the rest. *)
Fixpoint fread_chunks (fuel : nat) (data : bytes) : list bytes :=
  match fuel with
  | O => []
  | S f =>
      match data with
      | [] => []
      | _ => take (Z.to_nat CRC32_BUFF_SIZE) data
             :: fread_chunks f (drop (Z.to_nat CRC32_BUFF_SIZE) data)
      end
  end.

Fixpoint file_crc32_loop (crc32 : Z) (chunks : list bytes) : outcome Z :=
  match chunks with
  | [] => Ret crc32
  | c :: chunks' =>
      crc32' ← get_default_crc32_value crc32 c (Z.of_nat (length c));
      file_crc32_loop crc32' chunks'
  end.

(** [None] stands for a file that [fopen] cannot open. *)
Definition get_file_crc32_value (file : option bytes) : outcome Z :=
  match file with
  | None => Ret 0
  | Some data => file_crc32_loop 0 (fread_chunks (S (length data)) data)
  end.

(** ** Reference definition: one bit at a time *)

Definition crc_bit (c : Z) : Z :=
  if Z.odd c then Z.lxor (Z.shiftr c 1) 0xedb88320 else Z.shiftr c 1.

Definition crc_byte (c b : Z) : Z := Nat.iter 8 crc_bit (Z.lxor c b).

Definition crc_ref (c : Z) (data : bytes) : Z := foldl crc_byte c data.

Definition crc32_ref (data : bytes) : Z :=
  Z.lxor (crc_ref 0xffffffff data) 0xffffffff.

(** ** The bit step is linear *)

Lemma crc_bit_lxor a b : crc_bit (Z.lxor a b) = Z.lxor (crc_bit a) (crc_bit b).
Proof.
  unfold crc_bit. rewrite <- !Z.bit0_odd, Z.lxor_spec, Z.shiftr_lxor.
  destruct (Z.testbit a 0), (Z.testbit b 0); cbn [xorb];
    apply bits_eq; intros i Hi; rewrite !Z.lxor_spec;
    repeat match goal with |- context [Z.testbit ?x i] => destruct (Z.testbit x i) end; done.
Qed.

Lemma iter_crc_bit_lxor n a b :
  Nat.iter n crc_bit (Z.lxor a b) = Z.lxor (Nat.iter n crc_bit a) (Nat.iter n crc_bit b).
Proof. induction n as [|n IH]; [done|]. by rewrite !Nat.iter_succ, IH, crc_bit_lxor. Qed.

(** [n] steps only shift a value whose low [n] bits are zero. *)
Lemma iter_crc_bit_high n x : Nat.iter n crc_bit (Z.shiftl x (Z.of_nat n)) = x.
Proof.
  revert x. induction n as [|n IH]; intros x; [by rewrite Z.shiftl_0_r|].
  rewrite Nat.iter_succ_r. replace (crc_bit (Z.shiftl x (Z.of_nat (S n)))) with (Z.shiftl x (Z.of_nat n)); [done|].
  unfold crc_bit. rewrite <- Z.bit0_odd, Z.shiftl_spec_low by lia.
  rewrite Z.shiftr_shiftl_l by lia. f_equal. lia.
Qed.

Lemma split_low_byte x : x = Z.lxor (Z.shiftl (Z.shiftr x 8) 8) (Z.land x 255).
Proof.
  apply bits_eq. intros i Hi. rewrite Z.lxor_spec, Z.land_spec, testbit_255 by lia.
  destruct (Z.le_gt_cases 8 i).
  - rewrite Z.shiftl_spec_high, Z.shiftr_spec by lia. zcase (i <? 8); [lia|].
    rewrite andb_false_r, xorb_false_r. f_equal. lia.
  - rewrite Z.shiftl_spec_low by lia. zcase (i <? 8); [|lia]. by rewrite andb_true_r, xorb_false_l.
Qed.

(** Every entry of the table is eight bit steps of its index. *)
Lemma crc32_table_spec i : 0 <= i < 256 -> zlookup crc32_table i = Some (Nat.iter 8 crc_bit i).
Proof.
  intros Hi. set (p z := bool_decide (zlookup crc32_table z = Some (Nat.iter 8 crc_bit z))).
  apply (bool_decide_unpack _), Is_true_true, (forall_below 256 p); [vm_compute; reflexivity|done].
Qed.

Lemma crc32_table_range i t : zlookup crc32_table i = Some t -> is_u 32 t.
Proof.
  intros Ht. pose proof (zlookup_Some _ _ _ Ht) as Hi. change (length crc32_table) with 256%nat in Hi.
  set (p z := match zlookup crc32_table z with Some t => (0 <=? t) && (t <? 2 ^ 32) | None => false end).
  assert (p i = true) as Hp by (apply (forall_below 256 p); [vm_compute; reflexivity|lia]).
  unfold p in Hp. rewrite Ht in Hp. zbool. unfold is_u. lia.
Qed.

Lemma crc32_round_spec crc b : is_u 32 crc -> is_u 8 b ->
  crc32_round crc b = Ret (crc_byte crc b) /\ is_u 32 (crc_byte crc b).
Proof.
  intros Hc Hb. unfold crc32_round.
  pose proof (land_255_byte (Z.lxor crc b)) as Hx.
  pose proof (crc32_table_spec _ Hx) as Ht. pose proof (crc32_table_range _ _ Ht) as Hr.
  rewrite Ht. cbn [get_or mbind outcome_bind].
  assert (Z.land (Z.shiftr crc 8) 0x00ffffff = Z.shiftr (Z.lxor crc b) 8) as Hs.
  { rewrite Z.shiftr_lxor. change 0x00ffffff with (2 ^ 24 - 1). rewrite land_mask_mod by lia.
    rewrite (Z.shiftr_div_pow2 b), (Z.div_small b) by (unfold is_u in *; lia).
    rewrite Z.lxor_0_r, Z.mod_small; [done|]. rewrite Z.shiftr_div_pow2 by lia. unfold is_u in *.
    split; [apply Z.div_pos; lia|apply Z.div_lt_upper_bound; lia]. }
  assert (crc_byte crc b = Z.lxor (Z.shiftr (Z.lxor crc b) 8) (Nat.iter 8 crc_bit (Z.land (Z.lxor crc b) 255))) as He.
  { unfold crc_byte. rewrite (split_low_byte (Z.lxor crc b)) at 1. rewrite iter_crc_bit_lxor. f_equal.
    exact (iter_crc_bit_high 8 _). }
  rewrite Hs, He. split; [done|]. apply is_u_lxor; [lia| |done].
  apply is_u_shiftr; [lia|lia|]. apply is_u_lxor; [lia|done|]. eapply is_u_mono; [|done]. lia.
Qed.

Lemma crc32_loop_spec crc buf : is_u 32 crc -> is_bytes buf ->
  crc32_loop crc buf = Ret (crc_ref crc buf) /\ is_u 32 (crc_ref crc buf).
Proof.
  intros Hc Hb. revert crc Hc. induction Hb as [|b buf Hb Hbuf IH]; intros crc Hc; cbn; [done|].
  destruct (crc32_round_spec crc b Hc Hb) as [-> Hr]. cbn. by apply IH.
Qed.

Lemma is_u_ffffffff : is_u 32 0xffffffff.
Proof. unfold is_u. lia. Qed.

Lemma lxor_cancel a m : Z.lxor (Z.lxor a m) m = a.
Proof. by rewrite Z.lxor_assoc, Z.lxor_nilpotent, Z.lxor_0_r. Qed.

Lemma get_default_crc32_value_spec deft buf : is_u 32 deft -> is_bytes buf ->
  get_default_crc32_value deft buf (Z.of_nat (length buf)) =
    Ret (Z.lxor (crc_ref (Z.lxor deft 0xffffffff) buf) 0xffffffff) /\
  is_u 32 (Z.lxor (crc_ref (Z.lxor deft 0xffffffff) buf) 0xffffffff).
Proof.
  intros Hd Hb. unfold get_default_crc32_value.
  zcase (Z.of_nat (length buf) <? Z.of_nat (length buf)); [lia|].
  rewrite Nat2Z.id, firstn_all.
  destruct (crc32_loop_spec (Z.lxor deft 0xffffffff) buf) as [-> Hr];
    [auto using is_u_ffffffff with lfs; apply is_u_lxor; auto using is_u_ffffffff; lia|done|].
  cbn. split; [done|]. apply is_u_lxor; auto using is_u_ffffffff; lia.
Qed.

(** The table-driven checksum of a buffer is its CRC-32 as the bit-by-bit
    definition gives it; in particular no table index is ever out of range and
    the value fits in 32 bits. *)
Theorem get_crc32_value_spec buf : is_bytes buf ->
  get_crc32_value buf (Z.of_nat (length buf)) = Ret (crc32_ref buf) /\ is_u 32 (crc32_ref buf).
Proof.
  intros Hb. unfold get_crc32_value, crc32_ref.
  apply (get_default_crc32_value_spec 0 buf); [unfold is_u; lia|done].
Qed.

Lemma get_crc32_value_spec_witness :
  get_crc32_value (str "123456789") 9 = Ret 0xcbf43926 /\ is_u 32 0xcbf43926.
Proof. apply (get_crc32_value_spec (str "123456789")). repeat constructor; cbn; lia. Defined.

Lemma crc_ref_app c a b : crc_ref c (a ++ b) = crc_ref (crc_ref c a) b.
Proof. apply foldl_app. Qed.

Lemma file_crc32_loop_spec done_ chunks : is_bytes done_ -> is_bytes (concat chunks) ->
  file_crc32_loop (crc32_ref done_) chunks = Ret (crc32_ref (done_ ++ concat chunks)).
Proof.
  revert done_. induction chunks as [|c chunks IH]; intros done_ Hd Hc; cbn.
  - by rewrite app_nil_r.
  - apply Forall_app in Hc as [Hc1 Hc2].
    destruct (get_default_crc32_value_spec (crc32_ref done_) c) as [-> _]; [|done|].
    { apply is_u_lxor; [lia| |apply is_u_ffffffff]. apply crc32_loop_spec; [apply is_u_ffffffff|done]. }
    cbn. unfold crc32_ref at 1. rewrite lxor_cancel, <- crc_ref_app.
    rewrite app_assoc. apply IH; [by apply Forall_app|done].
Qed.

Lemma concat_fread_chunks fuel data : (length data < fuel)%nat -> concat (fread_chunks fuel data) = data.
Proof.
  revert data. induction fuel as [|f IH]; intros data Hf; [lia|]. cbn [fread_chunks].
  destruct data as [|x data]; [done|]. cbn [concat]. rewrite IH.
  - apply take_drop.
  - rewrite length_drop. change (Z.to_nat CRC32_BUFF_SIZE) with (Z.to_nat 16384). cbn [length] in *. lia.
Qed.

(** The checksum of a file does not depend on the 16 KiB buffering: it is
    the CRC-32 of the whole content. *)
Theorem get_file_crc32_value_spec data : is_bytes data ->
  get_file_crc32_value (Some data) = Ret (crc32_ref data).
Proof.
  intros Hd. unfold get_file_crc32_value.
  change 0 with (crc32_ref []) at 1. rewrite file_crc32_loop_spec.
  - by rewrite app_nil_l, concat_fread_chunks by lia.
  - constructor.
  - by rewrite concat_fread_chunks by lia.
Qed.

Lemma get_file_crc32_value_spec_witness : get_file_crc32_value (Some (str "123456789")) = Ret 0xcbf43926.
Proof. apply (get_file_crc32_value_spec (str "123456789")). repeat constructor; cbn; lia. Defined.
