(* ===== verification/Base64.v ===== *)
(** * Base 64

    src/src/common/base64.c: the encoder and decoder of file names, with the
    alphabet tables of a [base64_context_st].  The buffer [dest] is a list of
    bytes, and a store outside of it is a crash: both functions return the buffer
    as they leave it, and [dest_len].  [base64_decode] stores a NUL at
    [dest[*dest_len]], which is outside the buffer when the length it computed is
    negative. *)
From S2P Require Import Prelude.

Definition BASE64_IGNORE : Z := -1.
Definition BASE64_PAD : Z := -2.

Record base64_context := mk_context {
  line_length : Z;
  line_separator : bytes;
  line_sep_len : Z;
  valueToChar : list Z;
  charToValue : list Z;
  pad_ch : Z
}.

Definition base64_set_line_length (context : base64_context) (length : Z) : base64_context :=
  mk_context (Z.quot length 4 * 4) (line_separator context) (line_sep_len context)
    (valueToChar context) (charToValue context) (pad_ch context).

(** [base64_set_line_separator]: the array has room for [size] bytes; [snprintf]
    returns the length that the whole text has. *)
Definition base64_set_line_separator (size : nat) (context : base64_context) (pLineSeparator : bytes) : base64_context :=
  mk_context (line_length context) (take (size - 1) pLineSeparator) (Z.of_nat (length pLineSeparator))
    (valueToChar context) (charToValue context) (pad_ch context).

(** The second loop of [base64_init_ex]: [charToValue[valueToChar[i]] = i]. *)
Fixpoint init_charToValue (i : Z) (v2c : list Z) (c2v : list Z) : outcome (list Z) :=
  match v2c with
  | [] => Ret c2v
  | c :: v2c' => c2v' ← zinsert c2v c i; init_charToValue (i + 1) v2c' c2v'
  end.

Definition base64_alphabet (chPlus chSplash : Z) : list Z :=
  ((fun i => u8 (chr "A" + i)) <$> seqZ 0 26) ++
  ((fun i => u8 (chr "a" + i)) <$> seqZ 0 26) ++
  ((fun i => u8 (chr "0" + i)) <$> seqZ 0 10) ++
  [chPlus; chSplash].

Definition base64_init_ex (nLineLength chPlus chSplash chPad : Z) : outcome base64_context :=
  let v2c := base64_alphabet chPlus chSplash in
  c2v ← init_charToValue 0 v2c (replicate 256 BASE64_IGNORE);
  c2v' ← zinsert c2v chPad BASE64_PAD;
  Ret (mk_context nLineLength [10] 1 v2c c2v' chPad).

Definition base64_get_encode_length (context : base64_context) (nSrcLen : Z) : Z :=
  let outputLength := Z.quot (nSrcLen + 2) 3 * 4 in
  if negb (line_length context =? 0) then
    let lines := Z.quot (outputLength + line_length context - 1) (line_length context) - 1 in
    if 0 <? lines then outputLength + lines * line_sep_len context else outputLength
  else outputLength.

Definition v2c (context : base64_context) (v : Z) : Z := default 0 (zlookup (valueToChar context) v).

(** The four characters of one group of three bytes. *)
Definition encode_group (context : base64_context) (r0 r1 r2 : Z) : bytes :=
  let combined := Z.lor (Z.lor (Z.shiftl r0 16) (Z.shiftl r1 8)) r2 in
  let c3 := Z.land combined 63 in
  let combined := Z.shiftr combined 6 in
  let c2 := Z.land combined 63 in
  let combined := Z.shiftr combined 6 in
  let c1 := Z.land combined 63 in
  let combined := Z.shiftr combined 6 in
  let c0 := Z.land combined 63 in
  [v2c context c0; v2c context c1; v2c context c2; v2c context c3].

(** The line break the loop inserts before a group, and the new [linePos]. *)
Definition encode_break (context : base64_context) (linePos : Z) : bytes * Z :=
  let linePos := linePos + 4 in
  if line_length context <? linePos
  then (if negb (line_length context =? 0)
        then take (Z.to_nat (line_sep_len context)) (line_separator context) else [], 4)
  else ([], linePos).

(** [*p++ = c] for the bytes [bs]. *)
Fixpoint put_bytes (dest : bytes) (p : Z) (bs : bytes) : outcome bytes :=
  match bs with
  | [] => Ret dest
  | c :: bs => dest ← zinsert dest p c; put_bytes dest (p + 1) bs
  end.

(** The inner loop over the groups of [src]; [pDest] is an index of [dest]. *)
Fixpoint encode_loop (context : base64_context) (dest : bytes) (pDest linePos : Z) (src : bytes) : outcome (bytes * Z * Z) :=
  match src with
  | r0 :: r1 :: r2 :: rest =>
      let '(sep, linePos) := encode_break context linePos in
      dest ← put_bytes dest pDest sep;
      let pDest := pDest + zlen sep in
      dest ← put_bytes dest pDest (encode_group context r0 r1 r2);
      encode_loop context dest (pDest + 4) linePos rest
  | _ => Ret (dest, pDest, linePos)
  end.

(** What follows the loops: the NUL, and the padding in place of the last [k]
    characters or their removal. *)
Definition encode_end (context : base64_context) (bPad : bool) (k : nat) (dest : bytes) (pDest : Z) : outcome (bytes * Z) :=
  dest ← zinsert dest pDest 0;
  if (k =? 0)%nat then Ret (dest, pDest)
  else if bPad then
    dest ← zinsert dest (pDest - 1) (pad_ch context);
    if (k =? 1)%nat then Ret (dest, pDest)
    else dest ← zinsert dest (pDest - 2) (pad_ch context); Ret (dest, pDest)
  else dest ← zinsert dest (pDest - Z.of_nat k) 0; Ret (dest, pDest - Z.of_nat k).

Definition base64_encode_ex (context : base64_context) (src dest : bytes) (bPad : bool) : outcome (bytes * Z) :=
  let nSrcLen := Z.of_nat (length src) in
  if nSrcLen <=? 0 then dest ← zinsert dest 0 0; Ret (dest, 0)
  else
    let lens0 := Z.to_nat (Z.quot nSrcLen 3 * 3) in
    '(dest, pDest, linePos) ← encode_loop context dest 0 0 (take lens0 src);
    match drop lens0 src with
    | [a] => '(dest, pDest, _) ← encode_loop context dest pDest linePos [a; 0; 0]; encode_end context bPad 2 dest pDest
    | [a; b] => '(dest, pDest, _) ← encode_loop context dest pDest linePos [a; b; 0]; encode_end context bPad 1 dest pDest
    | _ => encode_end context bPad 0 dest pDest
    end.

(** The state of the loop of [base64_decode]. *)
Record decode_state := mk_decode { cycle : Z; combined : Z; dummies : Z; dec_dest : bytes; dec_pos : Z }.

Definition decode_value (st : decode_state) (value : Z) : outcome decode_state :=
  if cycle st =? 0 then Ret (mk_decode 1 value (dummies st) (dec_dest st) (dec_pos st))
  else
    let comb := Z.lor (Z.shiftl (combined st) 6) value in
    if cycle st =? 1 then Ret (mk_decode 2 comb (dummies st) (dec_dest st) (dec_pos st))
    else if cycle st =? 2 then Ret (mk_decode 3 comb (dummies st) (dec_dest st) (dec_pos st))
    else
      let o0 := u8 (Z.shiftr comb 16) in
      let o1 := u8 (Z.shiftr (Z.land comb 0x0000ff00) 8) in
      let o2 := u8 (Z.land comb 0x000000ff) in
      dest ← put_bytes (dec_dest st) (dec_pos st) [o0; o1; o2];
      Ret (mk_decode 0 comb (dummies st) dest (dec_pos st + 3)).

Definition decode_char (context : base64_context) (st : decode_state) (c : Z) : outcome decode_state :=
  value ← get_or OutOfBounds (zlookup (charToValue context) c);
  if value =? BASE64_IGNORE then Ret st
  else if value =? BASE64_PAD
  then decode_value (mk_decode (cycle st) (combined st) (dummies st + 1) (dec_dest st) (dec_pos st)) 0
  else decode_value st value.

Fixpoint decode_loop (context : base64_context) (st : decode_state) (src : bytes) : outcome decode_state :=
  match src with
  | [] => Ret st
  | c :: src' => st' ← decode_char context st c; decode_loop context st' src'
  end.

Definition base64_decode (context : base64_context) (src dest : bytes) : outcome (bytes * Z) :=
  st ← decode_loop context (mk_decode 0 0 0 dest 0) src;
  if negb (cycle st =? 0) then dest ← zinsert (dec_dest st) 0 0; Ret (dest, 0)
  else
    let dest_len := dec_pos st - dummies st in
    dest ← zinsert (dec_dest st) dest_len 0;
    Ret (dest, dest_len).

(** [malloc_ok]: whether the allocation of a padded copy longer than the
    256-byte stack buffer succeeds. *)
Definition base64_decode_auto (malloc_ok : bool) (context : base64_context) (src dest : bytes) : outcome (bytes * Z) :=
  let nSrcLen := Z.of_nat (length src) in
  let nRemain := Z.rem nSrcLen 4 in
  if nRemain =? 0 then base64_decode context src dest
  else
    let nPadLen := 4 - nRemain in
    let nNewLen := nSrcLen + nPadLen in
    if (256 <? nNewLen) && negb malloc_ok then dest ← zinsert dest 0 0; Ret (dest, 0)
    else base64_decode context (src ++ replicate (Z.to_nat nPadLen) (pad_ch context)) dest.

(** ** Reference: the characters of an encoding *)

Fixpoint encode_groups (context : base64_context) (linePos : Z) (src : bytes) : bytes * Z :=
  match src with
  | r0 :: r1 :: r2 :: rest =>
      let '(sep, linePos) := encode_break context linePos in
      let '(out, linePos) := encode_groups context linePos rest in
      (sep ++ encode_group context r0 r1 r2 ++ out, linePos)
  | _ => ([], linePos)
  end.

(** The last [k] characters become padding. *)
Definition encode_finish (context : base64_context) (k : nat) (out : bytes) : bytes :=
  take (length out - k) out ++ replicate k (pad_ch context).

Definition base64_text (context : base64_context) (src : bytes) : bytes :=
  let lens0 := (3 * (length src / 3))%nat in
  let '(out, linePos) := encode_groups context 0 (take lens0 src) in
  match drop lens0 src with
  | [a] => encode_finish context 2 (out ++ fst (encode_groups context linePos [a; 0; 0]))
  | [a; b] => encode_finish context 1 (out ++ fst (encode_groups context linePos [a; b; 0]))
  | _ => out
  end.

(** ** What the encoder and the decoder need of the tables *)

Record context_ok (context : base64_context) : Prop := {
  ok_len : length (valueToChar context) = 64%nat;
  ok_inv : forall v c, zlookup (valueToChar context) v = Some c ->
    zlookup (charToValue context) c = Some v;
  ok_pad : zlookup (charToValue context) (pad_ch context) = Some BASE64_PAD;
  ok_sep : forall c, c ∈ take (Z.to_nat (line_sep_len context)) (line_separator context) ->
    zlookup (charToValue context) c = Some BASE64_IGNORE
}.

(** The context the data server uses: [base64_init_ex(&ctx, 0, '-', '_', '.')]. *)
Definition ds_context : base64_context :=
  match base64_init_ex 0 (chr "-") (chr "_") (chr ".") with
  | Ret c => c
  | Crash _ => mk_context 0 [] 0 [] [] 0
  end.

(** A separator that does not fit its array is cut off, but its length is kept: an
    encoder that breaks lines would copy bytes from behind the array. *)
Example long_separator :
  let c := base64_set_line_separator 4 ds_context (str "--BREAK--") in
  line_separator c = str "--B" /\ line_sep_len c = 9.
Proof. done. Qed.

(** ** One group *)

Lemma combine_bytes r0 r1 r2 : is_u 8 r0 -> is_u 8 r1 -> is_u 8 r2 ->
  Z.lor (Z.lor (Z.shiftl r0 16) (Z.shiftl r1 8)) r2 = r0 * 65536 + r1 * 256 + r2.
Proof.
  unfold is_u. intros H0 H1 H2.
  replace (Z.shiftl r0 16) with (Z.shiftl (Z.shiftl r0 8) 8) by (by rewrite Z.shiftl_shiftl).
  rewrite <- Z.shiftl_lor. rewrite lor_shiftl_add by (unfold is_u; lia).
  rewrite lor_shiftl_add by (unfold is_u; lia). lia.
Qed.

Lemma land_63 z : Z.land z 63 = z mod 64.
Proof. by apply (land_mask_mod z 6). Qed.

(** The sextets of a 24-bit group. *)
Definition sextet (n k : Z) : Z := (n / 2 ^ (6 * k)) mod 64.

Lemma sextet_range n k : 0 <= sextet n k < 64.
Proof. apply Z.mod_pos_bound. lia. Qed.

Lemma encode_group_sextets context r0 r1 r2 : is_u 8 r0 -> is_u 8 r1 -> is_u 8 r2 ->
  encode_group context r0 r1 r2 =
  let n := r0 * 65536 + r1 * 256 + r2 in
  [v2c context (sextet n 3); v2c context (sextet n 2); v2c context (sextet n 1); v2c context (sextet n 0)].
Proof.
  intros H0 H1 H2. unfold encode_group. rewrite combine_bytes, !land_63 by done.
  rewrite !Z.shiftr_shiftr by lia. rewrite !Z.shiftr_div_pow2 by lia.
  unfold sextet. cbn zeta. change (2 ^ (6 * 0)) with 1. by rewrite Z.div_1_r.
Qed.

Lemma recombine n : is_u 24 n ->
  Z.lor (Z.shiftl (Z.lor (Z.shiftl (Z.lor (Z.shiftl (sextet n 3) 6) (sextet n 2)) 6) (sextet n 1)) 6) (sextet n 0) = n.
Proof.
  intros Hn. rewrite !lor_shiftl_add by (lia || apply sextet_range).
  unfold is_u, sextet in *. change (2 ^ 24) with 16777216 in *.
  change (2 ^ (6 * 0)) with 1. change (2 ^ (6 * 1)) with 64. change (2 ^ (6 * 2)) with 4096.
  change (2 ^ (6 * 3)) with 262144. change (2 ^ 6) with 64. rewrite Z.div_1_r.
  Z.to_euclidean_division_equations. lia.
Qed.

Lemma split_bytes_of_group r0 r1 r2 : is_u 8 r0 -> is_u 8 r1 -> is_u 8 r2 ->
  let n := r0 * 65536 + r1 * 256 + r2 in
  is_u 24 n /\ u8 (Z.shiftr n 16) = r0 /\ u8 (Z.shiftr (Z.land n 0x0000ff00) 8) = r1 /\
  u8 (Z.land n 0x000000ff) = r2.
Proof.
  intros H0 H1 H2 n. unfold is_u in *. change (2 ^ 8) with 256 in *.
  rewrite Z.shiftr_land. change (Z.shiftr 0x0000ff00 8) with 255. rewrite !land_255.
  rewrite !Z.shiftr_div_pow2 by lia. unfold u_wrap.
  change (2 ^ 16) with 65536. change (2 ^ 8) with 256. change (2 ^ 24) with 16777216.
  subst n. Z.to_euclidean_division_equations. lia.
Qed.

(** ** Stores *)

Lemma put_bytes_spec (a b d : bytes) : (length d <= length b)%nat -> put_bytes (a ++ b) (zlen a) d = Ret ((a ++ d) ++ drop (length d) b).
Proof.
  revert a b. induction d as [|c d IH]; intros a b Hl; cbn [put_bytes length]; [by rewrite app_nil_r|].
  destruct b as [|x b]; cbn in Hl; [lia|]. unfold zlen. rewrite zinsert_Ret by (rewrite length_app; cbn; lia). cbn [mbind outcome_bind].
  rewrite Nat2Z.id, insert_app_r_alt by lia. rewrite Nat.sub_diag. cbn [insert list_insert drop].
  specialize (IH (a ++ [c]) b ltac:(lia)). rewrite <- app_assoc in IH. cbn [app] in IH. unfold zlen in IH. rewrite length_app in IH. cbn [length] in IH.
  replace (Z.of_nat (length a + 1)) with (Z.of_nat (length a) + 1) in IH by lia. rewrite IH. by rewrite <- !app_assoc.
Qed.

(** A buffer that begins with [a] and goes on with [b]. *)
Abbreviation at_pos cy cb d a b := (mk_decode cy cb d (a ++ b) (zlen a)).

Section Codec64.
Context (context : base64_context) (Hok : context_ok context).

Lemma v2c_value v : 0 <= v < 64 -> zlookup (charToValue context) (v2c context v) = Some v.
Proof.
  intros Hv. unfold v2c.
  destruct (zlookup_is_Some (valueToChar context) v) as [c Hc].
  { rewrite (ok_len _ Hok). lia. }
  rewrite Hc. by apply (ok_inv _ Hok).
Qed.

Lemma decode_char_value st v : 0 <= v < 64 ->
  decode_char context st (v2c context v) = decode_value st v.
Proof.
  intros Hv. unfold decode_char. rewrite v2c_value by done. cbn.
  unfold BASE64_IGNORE, BASE64_PAD. zcase (v =? -1); [lia|]. zcase (v =? -2); [lia|done].
Qed.

Lemma decode_char_pad st :
  decode_char context st (pad_ch context) =
  decode_value (mk_decode (cycle st) (combined st) (dummies st + 1) (dec_dest st) (dec_pos st)) 0.
Proof. unfold decode_char. by rewrite (ok_pad _ Hok). Qed.

Lemma decode_loop_app st a b :
  decode_loop context st (a ++ b) = (decode_loop context st a ≫= fun st' => decode_loop context st' b).
Proof.
  revert st. induction a as [|c a IH]; intros st; cbn; [done|].
  destruct (decode_char context st c); cbn; [apply IH|done].
Qed.

Lemma decode_sep st linePos : decode_loop context st (fst (encode_break context linePos)) = Ret st.
Proof.
  unfold encode_break. destruct (_ <? _); [|done]. destruct (negb _); [|done]. cbn [fst].
  pose proof (ok_sep _ Hok) as Hs. induction (take _ _) as [|c l IH]; [done|]. cbn.
  unfold decode_char. rewrite Hs by constructor. cbn. apply IH.
  intros c' Hc'. apply Hs. by constructor.
Qed.

Ltac dec_step := cbn [mbind outcome_bind decode_value cycle combined dummies dec_dest dec_pos Z.eqb Pos.eqb].

(** The end of a group: three bytes are stored. *)
Lemma decode_third cb d (a b : bytes) value n r0 r1 r2 : Z.lor (Z.shiftl cb 6) value = n ->
  u8 (Z.shiftr n 16) = r0 -> u8 (Z.shiftr (Z.land n 0x0000ff00) 8) = r1 -> u8 (Z.land n 0x000000ff) = r2 -> (3 <= length b)%nat ->
  decode_value (at_pos 3 cb d a b) value = Ret (at_pos 0 n d (a ++ [r0; r1; r2]) (drop 3 b)).
Proof.
  intros Hn H0 H1 H2 Hb. unfold decode_value. cbn [cycle combined dummies dec_dest dec_pos Z.eqb Pos.eqb]. cbv zeta. rewrite Hn, H0, H1, H2.
  rewrite put_bytes_spec by done. cbn [mbind outcome_bind length]. do 2 f_equal. unfold zlen. rewrite length_app. cbn. lia.
Qed.

Lemma decode_group cb d (a b : bytes) r0 r1 r2 : is_u 8 r0 -> is_u 8 r1 -> is_u 8 r2 -> (3 <= length b)%nat ->
  decode_loop context (at_pos 0 cb d a b) (encode_group context r0 r1 r2) =
  Ret (at_pos 0 (r0 * 65536 + r1 * 256 + r2) d (a ++ [r0; r1; r2]) (drop 3 b)).
Proof.
  intros H0 H1 H2 Hb. rewrite encode_group_sextets by done. cbn zeta.
  destruct (split_bytes_of_group r0 r1 r2 H0 H1 H2) as (Hn & Ho0 & Ho1 & Ho2).
  set (n := r0 * 65536 + r1 * 256 + r2) in *. cbn [decode_loop].
  do 3 (rewrite decode_char_value by apply sextet_range; dec_step). rewrite decode_char_value by apply sextet_range.
  rewrite (decode_third _ d a b _ n r0 r1 r2) by (done || by apply recombine). done.
Qed.

(** ** All the full groups *)

Lemma decode_groups n src linePos cb d (a b : bytes) :
  length src = (3 * n)%nat -> is_bytes src -> (length src <= length b)%nat ->
  exists cb', decode_loop context (at_pos 0 cb d a b) (fst (encode_groups context linePos src)) =
    Ret (at_pos 0 cb' d (a ++ src) (drop (length src) b)).
Proof.
  revert src linePos cb a b. induction n as [|n IH]; intros src linePos cb a b Hl Hb Hr.
  { destruct src; [|cbn in Hl; lia]. exists cb. by rewrite app_nil_r. }
  destruct src as [|r0 [|r1 [|r2 rest]]]; cbn in Hl; try lia.
  apply Forall_cons in Hb as [H0 Hb]. apply Forall_cons in Hb as [H1 Hb]. apply Forall_cons in Hb as [H2 Hb]. cbn [length] in Hr.
  cbn [encode_groups]. pose proof (decode_sep (at_pos 0 cb d a b) linePos) as Hsep.
  destruct (encode_break context linePos) as [sep lp]. cbn [fst] in Hsep.
  destruct (IH rest lp (r0 * 65536 + r1 * 256 + r2) (a ++ [r0; r1; r2]) (drop 3 b)) as [cb' Hcb]; [lia|done|rewrite length_drop; lia|].
  destruct (encode_groups context lp rest) as [o lp']. cbn [fst] in *.
  exists cb'. rewrite decode_loop_app, Hsep. cbn [mbind outcome_bind].
  rewrite decode_loop_app, decode_group by (done || lia).
  cbn [mbind outcome_bind]. rewrite Hcb. rewrite drop_drop, <- !app_assoc. done.
Qed.

(** The last, padded group: [k] of its characters replaced by the pad. *)
Lemma take_tail_group (sep g out : bytes) k : length g = 4%nat -> (k <= 4)%nat ->
  take (length (out ++ sep ++ g) - k) (out ++ sep ++ g) = out ++ sep ++ take (4 - k) g.
Proof.
  intros Hg Hk. rewrite !length_app, Hg. rewrite !take_app.
  rewrite (take_ge out) by lia. rewrite (take_ge sep) by lia. do 3 f_equal. lia.
Qed.

Lemma decode_tail1 cb d (l r : bytes) a : is_u 8 a -> (3 <= length r)%nat ->
  exists cb', decode_loop context (at_pos 0 cb d l r)
    (take 2 (encode_group context a 0 0) ++ replicate 2 (pad_ch context)) =
  Ret (at_pos 0 cb' (d + 2) (l ++ [a; 0; 0]) (drop 3 r)).
Proof.
  intros Ha Hr. assert (is_u 8 0) as H0 by (unfold is_u; lia).
  rewrite encode_group_sextets by done. cbn zeta.
  destruct (split_bytes_of_group a 0 0 Ha H0 H0) as (Hn & Ho0 & Ho1 & Ho2).
  set (n := a * 65536 + 0 * 256 + 0) in *.
  assert (sextet n 1 = 0) as Hs1 by (unfold sextet, n; change (2 ^ (6 * 1)) with 64; Z.to_euclidean_division_equations; lia).
  assert (sextet n 0 = 0) as Hs0 by (unfold sextet, n; change (2 ^ (6 * 0)) with 1; rewrite Z.div_1_r; Z.to_euclidean_division_equations; lia).
  pose proof (recombine n Hn) as Hc. rewrite Hs1, Hs0 in Hc.
  exists n. cbn [take replicate app decode_loop].
  do 2 (rewrite decode_char_value by apply sextet_range; dec_step). rewrite decode_char_pad. dec_step. rewrite decode_char_pad. cbn [cycle combined dummies dec_dest dec_pos].
  rewrite (decode_third _ _ l r _ n a 0 0) by done. cbn [mbind outcome_bind]. do 2 f_equal. lia.
Qed.

Lemma decode_tail2 cb d (l r : bytes) a b : is_u 8 a -> is_u 8 b -> (3 <= length r)%nat ->
  exists cb', decode_loop context (at_pos 0 cb d l r)
    (take 3 (encode_group context a b 0) ++ replicate 1 (pad_ch context)) =
  Ret (at_pos 0 cb' (d + 1) (l ++ [a; b; 0]) (drop 3 r)).
Proof.
  intros Ha Hb Hr. assert (is_u 8 0) as H0 by (unfold is_u; lia).
  rewrite encode_group_sextets by done. cbn zeta.
  destruct (split_bytes_of_group a b 0 Ha Hb H0) as (Hn & Ho0 & Ho1 & Ho2).
  set (n := a * 65536 + b * 256 + 0) in *.
  assert (sextet n 0 = 0) as Hs0 by (unfold sextet, n; change (2 ^ (6 * 0)) with 1; rewrite Z.div_1_r; Z.to_euclidean_division_equations; lia).
  pose proof (recombine n Hn) as Hc. rewrite Hs0 in Hc.
  exists n. cbn [take replicate app decode_loop].
  do 3 (rewrite decode_char_value by apply sextet_range; dec_step). rewrite decode_char_pad. cbn [cycle combined dummies dec_dest dec_pos].
  rewrite (decode_third _ _ l r _ n a b 0) by done. done.
Qed.

(** The groups that precede the last one, and what is left of the source. *)
Lemma split_source (src : bytes) : exists n, (length src / 3 = n)%nat /\ Z.to_nat (Z.quot (Z.of_nat (length src)) 3 * 3) = (3 * n)%nat /\
  (3 * n <= length src < 3 * n + 3)%nat.
Proof.
  exists (length src / 3)%nat. rewrite Z.quot_div_nonneg by lia. change 3 with (Z.of_nat 3) at 1 2. rewrite <- Nat2Z.inj_div.
  pose proof (Nat.div_mod_eq (length src) 3). pose proof (Nat.mod_upper_bound (length src) 3). lia.
Qed.

Lemma encode_tail_shape linePos a b c :
  fst (encode_groups context linePos [a; b; c]) = fst (encode_break context linePos) ++ encode_group context a b c.
Proof. cbn. by destruct (encode_break context linePos). Qed.

Lemma encode_finish_pad k (out sep g : bytes) : length g = 4%nat -> (k <= 4)%nat ->
  encode_finish context k (out ++ sep ++ g) = out ++ sep ++ take (4 - k) g ++ replicate k (pad_ch context).
Proof. intros. unfold encode_finish. rewrite take_tail_group by done. by rewrite <- !app_assoc. Qed.

(** The room that decoding [n] bytes takes: whole groups, and the NUL. *)
Definition decode_room (n : nat) : nat := Nat.max (3 * ((n + 2) / 3)) (n + 1).

(** The end of [base64_decode]: the buffer holds the bytes [src], [k] bytes of
    padding and what it held before. *)
Lemma decode_finish text src pad rest dest cb :
  decode_loop context (mk_decode 0 0 0 dest 0) text = Ret (at_pos 0 cb (zlen pad) (src ++ pad) rest) ->
  (1 <= length (pad ++ rest))%nat -> base64_decode context text dest = Ret (src ++ 0 :: drop 1 (pad ++ rest), zlen src).
Proof.
  intros Hl Hr. unfold base64_decode. rewrite Hl. cbn [mbind outcome_bind cycle negb Z.eqb dec_dest dec_pos dummies].
  replace (zlen (src ++ pad) - zlen pad) with (zlen src) by (unfold zlen; rewrite length_app; lia). rewrite <- app_assoc.
  unfold zlen. rewrite zinsert_Ret by (rewrite length_app; lia). cbn [mbind outcome_bind].
  rewrite Nat2Z.id, insert_app_r_alt, Nat.sub_diag by lia. destruct (pad ++ rest); [cbn in Hr; lia|done].
Qed.

Lemma decode_text src dest : is_bytes src -> (decode_room (length src) <= length dest)%nat ->
  exists pad, base64_decode context (base64_text context src) dest = Ret (src ++ 0 :: drop 1 (pad ++ drop (length (src ++ pad)) dest), zlen src) /\
    length (src ++ pad) = (3 * ((length src + 2) / 3))%nat.
Proof.
  intros Hb Hroom. unfold base64_text. destruct (split_source src) as (n & Hn & _ & Hr). rewrite Hn. unfold decode_room in *.
  assert (is_bytes (take (3 * n) src) /\ is_bytes (drop (3 * n) src)) as [Hb1 Hb2] by (apply Forall_app; by rewrite take_drop).
  assert (length (take (3 * n) src) = 3 * n)%nat as Hlf by (rewrite length_take; lia).
  assert (length (drop (3 * n) src) = length src - 3 * n)%nat as Hld by apply length_drop.
  destruct (decode_groups n (take (3 * n) src) 0 0 0 [] dest) as [cb Hg]; [lia|done|lia|]. cbn [app] in Hg. change (zlen (@nil Z)) with 0 in Hg.
  pose proof (take_drop (3 * n) src) as Hsrc. set (front := take (3 * n) src) in *.
  assert (3 <= length (drop (length front) dest) \/ length src = 3 * n)%nat as Hroom3.
  { rewrite length_drop. destruct (decide (length src = 3 * n)%nat); [by right|left]. assert ((length src + 2) / 3 = n + 1)%nat as E; [|lia].
    symmetry. apply (Nat.div_unique _ 3 _ (length src + 2 - 3 * (n + 1))); lia. }
  destruct (encode_groups context 0 front) as [out lp]. cbn [fst] in Hg.
  destruct (drop (3 * n) src) as [|a [|b [|c l] ] ]; cbn [length] in Hld; [| | |lia].
  - rewrite app_nil_r in Hsrc. clearbody front. subst front. exists []. rewrite app_nil_r. split.
    + apply (decode_finish _ src [] _ dest cb); [by rewrite app_nil_r|]. cbn. rewrite length_drop. lia.
    + assert ((length src + 2) / 3 = n)%nat as ->; [|lia]. symmetry. apply (Nat.div_unique _ 3 _ 2); lia.
  - apply Forall_cons in Hb2 as [Ha _]. destruct Hroom3 as [Hroom3|]; [|lia]. rewrite encode_tail_shape, encode_finish_pad by (done || lia).
    destruct (decode_tail1 cb 0 front (drop (length front) dest) a Ha Hroom3) as [cb' Ht]. exists [0; 0]. split.
    + rewrite <- Hsrc. replace (drop (length ((front ++ [a]) ++ [0; 0])) dest) with (drop 3 (drop (length front) dest)) by (rewrite drop_drop, !length_app; cbn; f_equal; lia).
      apply (decode_finish _ (front ++ [a]) [0; 0] _ dest cb'); [|cbn; lia]. rewrite decode_loop_app, Hg. cbn [mbind outcome_bind]. rewrite decode_loop_app, decode_sep. cbn [mbind outcome_bind].
      change (4 - 2)%nat with 2%nat. rewrite Ht. by rewrite <- (app_assoc front [a]).
    + rewrite length_app. cbn [length]. assert ((length src + 2) / 3 = n + 1)%nat as ->; [|lia]. symmetry. apply (Nat.div_unique _ 3 _ 0); lia.
  - apply Forall_cons in Hb2 as [Ha Hb2]. apply Forall_cons in Hb2 as [Hb' _]. destruct Hroom3 as [Hroom3|]; [|lia].
    rewrite encode_tail_shape, encode_finish_pad by (done || lia).
    destruct (decode_tail2 cb 0 front (drop (length front) dest) a b Ha Hb' Hroom3) as [cb' Ht]. exists [0]. split.
    + rewrite <- Hsrc. replace (drop (length ((front ++ [a; b]) ++ [0])) dest) with (drop 3 (drop (length front) dest)) by (rewrite drop_drop, !length_app; cbn; f_equal; lia).
      apply (decode_finish _ (front ++ [a; b]) [0] _ dest cb'); [|cbn; lia]. rewrite decode_loop_app, Hg. cbn [mbind outcome_bind]. rewrite decode_loop_app, decode_sep. cbn [mbind outcome_bind].
      change (4 - 1)%nat with 3%nat. rewrite Ht. by rewrite <- (app_assoc front [a; b]).
    + rewrite length_app. cbn [length]. assert ((length src + 2) / 3 = n + 1)%nat as ->; [|lia]. symmetry. apply (Nat.div_unique _ 3 _ 1); lia.
Qed.
End Codec64.

(** ** The data server's tables *)

(** [context_ok] as a computation. *)
Definition context_okb (context : base64_context) : bool :=
  bool_decide (length (valueToChar context) = 64%nat) &&
  forallb (fun v => match zlookup (valueToChar context) v with
                    | Some c => bool_decide (zlookup (charToValue context) c = Some v)
                    | None => true end) (seqZ 0 64) &&
  bool_decide (zlookup (charToValue context) (pad_ch context) = Some BASE64_PAD) &&
  forallb (fun c => bool_decide (zlookup (charToValue context) c = Some BASE64_IGNORE))
    (take (Z.to_nat (line_sep_len context)) (line_separator context)).

Lemma context_okb_ok context : context_okb context = true -> context_ok context.
Proof.
  unfold context_okb. rewrite !andb_true_iff, !bool_decide_eq_true. intros [[[Hl Hi] Hp] Hs].
  split; [done| |done|].
  - intros v c Hc. pose proof (zlookup_Some _ _ _ Hc) as Hv. rewrite Hl in Hv.
    pose proof (forall_below 64 _ Hi v ltac:(lia)) as Hx. cbn beta in Hx. rewrite Hc in Hx.
    by apply bool_decide_eq_true in Hx.
  - intros c Hc%list_elem_of_In. rewrite forallb_forall in Hs. by apply Hs, bool_decide_eq_true in Hc.
Qed.

Lemma ds_context_ok : context_ok ds_context.
Proof. apply context_okb_ok. vm_compute. reflexivity. Qed.

(** ** What the encoder writes *)

Lemma encode_loop_spec context n src linePos (a b : bytes) : (length src <= 3 * n)%nat ->
  (length (encode_groups context linePos src).1 <= length b)%nat ->
  encode_loop context (a ++ b) (zlen a) linePos src =
    let '(o, lp) := encode_groups context linePos src in Ret ((a ++ o) ++ drop (length o) b, zlen (a ++ o), lp).
Proof.
  revert src linePos a b. induction n as [|n IH]; intros src linePos a b Hn Hl.
  { destruct src; [|cbn in Hn; lia]. cbn. by rewrite app_nil_r. }
  destruct src as [|r0 [|r1 [|r2 rest] ] ]; [cbn; by rewrite app_nil_r..|]. cbn [encode_loop encode_groups length] in *.
  destruct (encode_break context linePos) as [sep lp]. specialize (IH rest lp). destruct (encode_groups context lp rest) as [o lp']. cbn [fst] in *.
  set (g := encode_group context r0 r1 r2) in *. assert (length g = 4%nat) as Hg by done. rewrite !length_app, Hg in Hl.
  rewrite put_bytes_spec by lia. cbn [mbind outcome_bind]. replace (zlen a + zlen sep) with (zlen (a ++ sep)) by (unfold zlen; rewrite length_app; lia).
  rewrite put_bytes_spec by (rewrite length_drop; lia). cbn [mbind outcome_bind]. replace (zlen (a ++ sep) + 4) with (zlen ((a ++ sep) ++ g)) by (unfold zlen; rewrite !length_app, Hg; lia).
  rewrite IH by (rewrite ?length_drop; lia). rewrite !drop_drop, !length_app. rewrite <- !app_assoc. do 4 f_equal; lia.
Qed.

Lemma insert_at (a b : bytes) x y : <[length a := y]> (a ++ x :: b) = a ++ y :: b.
Proof. by rewrite insert_app_r_alt, Nat.sub_diag by lia. Qed.

(** The end of the encoder, with padding. *)
Lemma encode_end_spec context k (a b : bytes) : (k <= 2)%nat -> (k <= length a)%nat -> (1 <= length b)%nat ->
  encode_end context true k (a ++ b) (zlen a) = Ret (encode_finish context k a ++ 0 :: drop 1 b, zlen a).
Proof.
  intros Hk Ha Hb. destruct b as [|x b]; [cbn in Hb; lia|]. unfold encode_end, zlen. rewrite zinsert_Ret by (rewrite length_app; cbn; lia).
  rewrite Nat2Z.id, insert_at. cbn [mbind outcome_bind drop]. unfold encode_finish.
  destruct k as [|[|[|k] ] ]; [| | |lia]; cbn [Nat.eqb replicate].
  - by rewrite Nat.sub_0_r, firstn_all, app_nil_r.
  - destruct a as [|y l _] using rev_ind; [cbn in Ha; lia|]. rewrite !length_app. cbn [length]. rewrite zinsert_Ret by (rewrite !length_app; cbn; lia).
    replace (Z.to_nat (Z.of_nat (length l + 1) - 1)) with (length l) by lia. rewrite <- !app_assoc. cbn [app]. rewrite insert_at. cbn [mbind outcome_bind].
    replace (length l + 1 - 1)%nat with (length l) by lia. by rewrite take_app_length.
  - destruct a as [|z l1 _] using rev_ind; [cbn in Ha; lia|]. rewrite length_app in Ha. destruct l1 as [|y l _] using rev_ind; [cbn in Ha; lia|].
    rewrite !length_app. cbn [length]. rewrite zinsert_Ret by (rewrite !length_app; cbn; lia). rewrite <- !app_assoc. cbn [app].
    replace (Z.to_nat (Z.of_nat (length l + 1 + 1) - 1)) with (length (l ++ [y])) by (rewrite length_app; cbn; lia).
    change (l ++ y :: z :: 0 :: b) with (l ++ [y] ++ z :: 0 :: b). rewrite (app_assoc l [y]), insert_at. cbn [mbind outcome_bind]. rewrite <- app_assoc. cbn [app].
    rewrite zinsert_Ret by (rewrite !length_app; cbn; lia). replace (Z.to_nat (Z.of_nat (length l + 1 + 1) - 2)) with (length l) by lia. rewrite insert_at. cbn [mbind outcome_bind].
    replace (length l + 1 + 1 - 2)%nat with (length l) by lia. by rewrite take_app_length.
Qed.

Lemma length_finish context k out : (k <= length out)%nat -> length (encode_finish context k out) = length out.
Proof. intros Hk. unfold encode_finish. rewrite length_app, length_take, length_replicate. lia. Qed.

Lemma encode_spec context src dest : (length (base64_text context src) < length dest)%nat ->
  base64_encode_ex context src dest true = Ret (base64_text context src ++ 0 :: drop (S (length (base64_text context src))) dest, zlen (base64_text context src)).
Proof.
  intros Hd. unfold base64_encode_ex, base64_text in *. destruct (split_source src) as (n & Hn & -> & Hr). rewrite Hn in *. zcase (Z.of_nat (length src) <=? 0).
  { destruct src; [|cbn in *; lia]. cbn in Hn. subst n. cbn in *. unfold zinsert. zcase (0 <? Z.of_nat (length dest)); [|lia]. cbn. by destruct dest; [cbn in *; lia|]. }
  assert (length (drop (3 * n) src) = length src - 3 * n)%nat as Hld by apply length_drop.
  pose proof (encode_loop_spec context n (take (3 * n) src) 0 [] dest) as Hl. cbn [app] in Hl. change (zlen (@nil Z)) with 0 in Hl.
  destruct (encode_groups context 0 (take (3 * n) src)) as [out lp]. cbn [fst] in *.
  assert (forall k a b c, (k <= 2)%nat -> (length (encode_finish context k (out ++ (encode_groups context lp [a; b; c]).1)) < length dest)%nat ->
    ('(dest, pDest, linePos) ← encode_loop context dest 0 0 (take (3 * n) src); '(dest, pDest, _) ← encode_loop context dest pDest linePos [a; b; c]; encode_end context true k dest pDest) =
    Ret (encode_finish context k (out ++ (encode_groups context lp [a; b; c]).1) ++ 0 :: drop (S (length (encode_finish context k (out ++ (encode_groups context lp [a; b; c]).1)))) dest,
         zlen (encode_finish context k (out ++ (encode_groups context lp [a; b; c]).1)))) as Htail.
  { intros k a b c Hk Hlt. pose proof (encode_loop_spec context 1 [a; b; c] lp out (drop (length out) dest)) as H2. rewrite encode_tail_shape in *. set (t := _ ++ encode_group context a b c) in *.
    assert (4 <= length t)%nat as Ht by (unfold t; rewrite length_app; cbn; lia). rewrite length_finish, length_app in Hlt by (rewrite length_app; lia).
    rewrite Hl by (rewrite ?length_take; lia). cbn [mbind outcome_bind]. rewrite H2 by (rewrite ?length_drop; cbn; lia).
    assert ((encode_groups context lp [a; b; c]).1 = t) as Eg by (unfold t; apply encode_tail_shape). destruct (encode_groups context lp [a; b; c]) as [o lp2]. cbn [fst] in Eg. subst o. cbn [mbind outcome_bind].
    rewrite encode_end_spec by (rewrite ?length_app, ?length_drop; lia). rewrite length_finish by (rewrite length_app; lia). unfold zlen at 2. rewrite length_finish by (rewrite length_app; lia).
    rewrite !drop_drop. unfold zlen. rewrite length_app. replace (S (length out + length t)) with (length out + (length t + 1))%nat by lia. done. }
  destruct (drop (3 * n) src) as [|a [|b [|c l] ] ]; cbn [length] in Hld; [| | |lia].
  - rewrite Hl by (rewrite ?length_take; lia). cbn [mbind outcome_bind]. rewrite encode_end_spec by (rewrite ?length_drop; lia). unfold encode_finish. cbn [replicate].
    rewrite Nat.sub_0_r, firstn_all, app_nil_r, drop_drop. by rewrite Nat.add_1_r.
  - by apply Htail; [lia|].
  - by apply Htail; [lia|].
Qed.

(** ** How long an encoding is *)

(** Lines of whole groups, or no lines; the separator fits its array. *)
Definition lines_ok (context : base64_context) : Prop :=
  line_length context = 0 \/ exists m, 0 < m /\ line_length context = 4 * m /\ line_sep_len context = zlen (line_separator context).

Lemma length_groups context n src linePos : line_length context = 0 -> length src = (3 * n)%nat ->
  zlen (encode_groups context linePos src).1 = 4 * Z.of_nat n.
Proof.
  intros Hz. revert src linePos. induction n as [|n IH]; intros src linePos Hl.
  - by destruct src; [|cbn in Hl; lia].
  - destruct src as [|r0 [|r1 [|r2 rest] ] ]; cbn in Hl; try lia. cbn [encode_groups]. unfold encode_break. rewrite Hz. cbn [negb Z.eqb].
    destruct (0 <? linePos + 4); match goal with |- context [encode_groups context ?lp rest] => specialize (IH rest lp ltac:(lia)); destruct (encode_groups context lp rest) end;
      unfold zlen in *; cbn [fst app length encode_group] in *; lia.
Qed.

(** With [4 * m] characters in a line, from a line with [j] groups: the number of
    breaks and the groups of the last line. *)
Lemma length_groups_lines context m n src j : 0 < m -> line_length context = 4 * m -> line_sep_len context = zlen (line_separator context) ->
  length src = (3 * n)%nat -> 0 <= j <= m ->
  zlen (encode_groups context (4 * j) src).1 = 4 * Z.of_nat n + line_sep_len context * (if decide (n = 0%nat) then 0 else (j + Z.of_nat n - 1) / m) /\
  exists j', (encode_groups context (4 * j) src).2 = 4 * j' /\ 0 <= j' <= m /\ j + Z.of_nat n = (if decide (n = 0%nat) then 0 else (j + Z.of_nat n - 1) / m) * m + j'.
Proof.
  intros Hm HL Hs. revert src j. induction n as [|n IH]; intros src j Hl Hj.
  - destruct src; [|cbn in Hl; lia]. rewrite decide_True by done. change (zlen (encode_groups context (4 * j) []).1) with 0. split; [lia|]. exists j. cbn [encode_groups snd]. lia.
  - destruct src as [|r0 [|r1 [|r2 rest] ] ]; cbn in Hl; try lia. cbn [encode_groups]. unfold encode_break. rewrite HL.
    destruct (decide (S n = 0%nat)) as [|_]; [lia|].
    assert (forall sep j1, (if 4 * m <? 4 * j + 4 then (if negb (4 * m =? 0) then take (Z.to_nat (line_sep_len context)) (line_separator context) else [], 4) else ([], 4 * j + 4)) = (sep, 4 * j1) -> 1 <= j1 <= m ->
      let '(out, lp) := encode_groups context (4 * j1) rest in forall breaks, zlen sep = line_sep_len context * breaks -> breaks * m + j1 = j + 1 ->
      zlen (sep ++ encode_group context r0 r1 r2 ++ out) = 4 * Z.of_nat (S n) + line_sep_len context * ((j + Z.of_nat (S n) - 1) / m) /\
      exists j', lp = 4 * j' /\ 0 <= j' <= m /\ j + Z.of_nat (S n) = (j + Z.of_nat (S n) - 1) / m * m + j') as Hgo.
    { intros sep j1 _ Hj1. destruct (IH rest j1 ltac:(lia) ltac:(lia)) as (I1 & j' & I2 & I3 & I4). destruct (encode_groups context (4 * j1) rest) as [out lp]. cbn [fst snd] in *. intros breaks Hsep Hbr.
      set (q := if decide (n = 0%nat) then 0 else (j1 + Z.of_nat n - 1) / m) in *.
      assert ((j + Z.of_nat (S n) - 1) / m = breaks + q) as Hq.
      { unfold q in *. destruct (decide (n = 0%nat)) as [->|].
        - assert (breaks = 0 \/ breaks = 1) as [-> | ->] by nia; symmetry; [apply (Z.div_unique_pos _ _ _ j)|apply (Z.div_unique_pos _ _ _ (j - m))]; lia.
        - replace (j + Z.of_nat (S n) - 1) with ((j1 + Z.of_nat n - 1) + breaks * m) by lia. rewrite Z.div_add by lia. lia. }
      rewrite Hq. split; [|exists j'; split_and!; [done|lia|lia|lia] ].
      unfold zlen in *. rewrite !length_app. cbn [length encode_group]. lia. }
    zcase (4 * m <? 4 * j + 4).
    + assert (j = m) as -> by lia. destruct (Z.eqb_spec (4 * m) 0); [lia|]. cbn [negb] in *. specialize (Hgo _ 1 eq_refl ltac:(lia)). change (4 * 1) with 4 in Hgo.
      destruct (encode_groups context 4 rest) as [out lp]. cbn [fst snd]. apply (Hgo 1); [|lia]. rewrite Hs, Z.mul_1_r. unfold zlen. rewrite take_ge by lia. done.
    + specialize (Hgo [] (j + 1)). replace (4 * (j + 1)) with (4 * j + 4) in Hgo by lia. specialize (Hgo eq_refl ltac:(lia)).
      destruct (encode_groups context (4 * j + 4) rest) as [out lp]. cbn [fst snd]. apply (Hgo 0); [change (zlen (@nil Z)) with 0; lia|lia].
Qed.

(** [base64_get_encode_length] is exact: the encoder writes that many characters
    and the NUL. *)
Theorem base64_encode_length context src : lines_ok context ->
  zlen (base64_text context src) = base64_get_encode_length context (zlen src).
Proof.
  intros Hlines. unfold base64_text. destruct (split_source src) as (n & -> & _ & Hr).
  assert (length (take (3 * n) src) = (3 * n)%nat) as Hf by (rewrite length_take; lia). assert (length (drop (3 * n) src) = length src - 3 * n)%nat as Hd by apply length_drop.
  assert (exists out lp, encode_groups context 0 (take (3 * n) src) = (out, lp) /\
    (length src = (3 * n)%nat -> zlen out = base64_get_encode_length context (zlen src)) /\
    ((3 * n < length src)%nat -> forall a b c, zlen (out ++ (encode_groups context lp [a; b; c]).1) = base64_get_encode_length context (zlen src))) as (out & lp & -> & H1 & H2).
  { destruct (encode_groups context 0 (take (3 * n) src)) as [out lp] eqn:E. exists out, lp. split; [done|]. unfold base64_get_encode_length. rewrite (Z.quot_div_nonneg (zlen src + 2) 3) by (unfold zlen; lia).
    assert (length src = (3 * n)%nat -> (zlen src + 2) / 3 = Z.of_nat n) as Q1 by (intros; unfold zlen; Z.to_euclidean_division_equations; lia).
    assert ((3 * n < length src)%nat -> (zlen src + 2) / 3 = Z.of_nat n + 1) as Q2 by (intros; unfold zlen; Z.to_euclidean_division_equations; lia).
    destruct Hlines as [Hz|(m & Hm & HL & Hs)].
    - rewrite Hz. cbn [negb Z.eqb]. pose proof (length_groups context n _ 0 Hz Hf) as G1. rewrite E in G1. cbn [fst] in G1. split; [intros; rewrite Q1 by done; lia|]. intros Hlt a b c. rewrite Q2 by done.
      pose proof (length_groups context 1 [a; b; c] lp Hz eq_refl) as G2. unfold zlen in *. rewrite length_app. lia.
    - rewrite HL. destruct (Z.eqb_spec (4 * m) 0); [lia|]. cbn [negb]. destruct (length_groups_lines context m n _ 0 Hm HL Hs Hf ltac:(lia)) as (G1 & j & G2 & G3 & G4). change (4 * 0) with 0 in *. rewrite E in *. cbn [fst snd] in *.
      assert (forall N, 1 <= N -> (N * 4 + 4 * m - 1) ÷ (4 * m) - 1 = (N - 1) / m) as Hlines.
      { intros N HN. rewrite Z.quot_div_nonneg by lia. replace (N * 4 + 4 * m - 1) with (4 * (N - 1) + 3 + 1 * (4 * m)) by lia. rewrite Z.div_add by lia.
        rewrite Z.add_simpl_r. symmetry. apply (Z.div_unique_pos _ _ _ (4 * ((N - 1) mod m) + 3)); pose proof (Z.mod_pos_bound (N - 1) m); pose proof (Z.div_mod (N - 1) m); lia. }
      split.
      + intros Hl. rewrite Q1 by done. destruct (decide (n = 0%nat)) as [->|Hn0].
        * zcase (0 <? (Z.of_nat 0 * 4 + 4 * m - 1) ÷ (4 * m) - 1); [|lia]. exfalso. rewrite Z.quot_small in * by lia. lia.
        * rewrite Hlines by lia. rewrite Z.add_0_l in *. pose proof (Z.div_pos (Z.of_nat n - 1) m). zcase (0 <? (Z.of_nat n - 1) / m); [lia|]. assert ((Z.of_nat n - 1) / m = 0) as Ez by lia. rewrite Ez in G1. lia.
      + intros Hlt a b c. rewrite Q2, Hlines by lia. subst lp. destruct (length_groups_lines context m 1 [a; b; c] j Hm HL Hs eq_refl G3) as (T1 & _). cbn [decide] in T1. rewrite decide_False in T1 by lia.
        unfold zlen in *. rewrite length_app. rewrite Z.add_simpl_r in *. replace (j + Z.of_nat 1 - 1) with j in T1 by lia.
        assert (Z.of_nat n / m = (if decide (n = 0%nat) then 0 else (0 + Z.of_nat n - 1) / m) + j / m) as Hq by (replace (Z.of_nat n) with (j + (if decide (n = 0%nat) then 0 else (0 + Z.of_nat n - 1) / m) * m) at 1 by lia; rewrite Z.div_add by lia; lia).
        pose proof (Z.div_pos (Z.of_nat n) m). zcase (0 <? Z.of_nat n / m); [nia|]. assert (Z.of_nat n / m = 0) as Ez by lia. rewrite Ez in Hq. nia. }
  destruct (drop (3 * n) src) as [|a [|b [|c l] ] ]; cbn [length] in Hd; [apply H1; lia| | |lia]; specialize (H2 ltac:(lia)).
  - rewrite <- (H2 a 0 0). unfold zlen. rewrite length_finish; [done|]. rewrite length_app, encode_tail_shape, length_app. cbn. lia.
  - rewrite <- (H2 a b 0). unfold zlen. rewrite length_finish; [done|]. rewrite length_app, encode_tail_shape, length_app. cbn. lia.
Qed.

Lemma base64_encode_length_witness :
  zlen (base64_text ds_context [1; 2; 3; 4; 5]) = base64_get_encode_length ds_context 5.
Proof. apply (base64_encode_length ds_context [1; 2; 3; 4; 5]). by left. Defined.

(** C29. Base 64 round trip, in buffers: with consistent alphabet tables and lines of
    whole groups (or no lines), the encoder in a buffer with room for
    [base64_get_encode_length] characters and a NUL writes exactly these, and
    leaves the rest of the buffer as it was; and the decoder in a buffer with room
    for the bytes in whole groups and a NUL gives back the bytes that were encoded,
    with their number and a NUL behind them, and leaves the rest of its buffer,
    behind the last group, as it was. *)
Theorem base64_roundtrip context src enc dest : context_ok context -> lines_ok context -> is_bytes src ->
  base64_get_encode_length context (zlen src) < zlen enc -> (decode_room (length src) <= length dest)%nat ->
  exists text enc' dest', base64_encode_ex context src enc true = Ret (enc', zlen text) /\ enc' = text ++ 0 :: drop (S (length text)) enc /\
    zlen text = base64_get_encode_length context (zlen src) /\
    base64_decode context text dest = Ret (dest', zlen src) /\ take (S (length src)) dest' = src ++ [0] /\
    length dest' = length dest /\ drop (decode_room (length src)) dest' = drop (decode_room (length src)) dest.
Proof.
  intros Hok Hlines Hb He Hd. pose proof (base64_encode_length context src Hlines) as Hlen.
  destruct (decode_text context Hok src dest Hb Hd) as (pad & Hdec & Hpad). exists (base64_text context src). eexists _, _.
  split; [apply encode_spec; unfold zlen in *; lia|]. split; [done|]. split; [done|]. split; [exact Hdec|]. rewrite length_app in Hpad. unfold decode_room in *.
  split_and!.
  - change (src ++ 0 :: drop 1 (pad ++ drop (length (src ++ pad)) dest)) with (src ++ [0] ++ drop 1 (pad ++ drop (length (src ++ pad)) dest)).
    rewrite app_assoc. rewrite take_app_length' by (rewrite length_app; cbn; lia). done.
  - rewrite length_app. cbn [length]. rewrite length_drop, length_app, length_drop, length_app. lia.
  - set (room := Nat.max _ _) in *. change (src ++ 0 :: drop 1 (pad ++ drop (length (src ++ pad)) dest)) with (src ++ [0] ++ drop 1 (pad ++ drop (length (src ++ pad)) dest)).
    rewrite app_assoc. rewrite drop_app_ge by (rewrite length_app; cbn; lia). rewrite drop_drop, length_app. cbn [length].
    rewrite drop_app_ge by lia. rewrite drop_drop, length_app. f_equal. lia.
Qed.

Lemma base64_roundtrip_witness :
  exists text enc' dest', base64_encode_ex ds_context [0; 255; 16; 3] (replicate 20 7) true = Ret (enc', zlen text) /\
    base64_decode ds_context text (replicate 20 7) = Ret (dest', 4) /\ take 5 dest' = [0; 255; 16; 3; 0] /\ drop 6 dest' = replicate 14 7.
Proof.
  destruct (base64_roundtrip ds_context [0; 255; 16; 3] (replicate 20 7) (replicate 20 7)) as (text & enc' & dest' & H1 & _ & _ & H2 & H3 & _ & H4);
    [exact ds_context_ok|by left|repeat constructor; cbn; lia|by vm_compute|by apply Nat.leb_le|]. exists text, enc', dest'. split_and!; [exact H1|exact H2|exact H3|exact H4].
Defined.

(** A string of pads only makes [dest_len] negative: the final NUL is stored
    before the buffer. *)
Lemma base64_decode_pads_only : base64_decode ds_context (str "....") (replicate 20 0) = Crash OutOfBounds.
Proof. vm_compute. reflexivity. Qed.
