(* ===== verification/Hash.v ===== *)
(** * Hash functions

    src/src/common/jenkins_hash.c, murmur3_hash.c, hash.c.  A key is its
    memory: a function from the offset to the byte stored there, defined past
    the key's [length] too, because the word-at-a-time readers load whole
    words.  A 32-bit load gives the bytes in the order of the machine
    ([le = true] for little endian), whatever the macros say. *)
From S2P Require Import Prelude.

Abbreviation memory := (nat -> Z).

Definition mem_of (b : bytes) : memory := fun i => default 0 (b !! i).

(** Loads of an aligned 32-bit and 16-bit word at byte offset [o]. *)
Definition load32 (le : bool) (k : memory) (o : nat) : Z :=
  if le then k o + k (o + 1)%nat * 2 ^ 8 + k (o + 2)%nat * 2 ^ 16 + k (o + 3)%nat * 2 ^ 24
  else k o * 2 ^ 24 + k (o + 1)%nat * 2 ^ 16 + k (o + 2)%nat * 2 ^ 8 + k (o + 3)%nat.

Definition load16 (le : bool) (k : memory) (o : nat) : Z :=
  if le then k o + k (o + 1)%nat * 2 ^ 8 else k o * 2 ^ 8 + k (o + 1)%nat.

(** ** MurmurHash3 *)

Definition rotl32 (x r : Z) : Z := Z.lor (u32 (Z.shiftl x r)) (Z.shiftr x (32 - r)).

Definition fmix32 (h : Z) : Z :=
  let h := Z.lxor h (Z.shiftr h 16) in
  let h := u32 (h * 0x85ebca6b) in
  let h := Z.lxor h (Z.shiftr h 13) in
  let h := u32 (h * 0xc2b2ae35) in
  let h := Z.lxor h (Z.shiftr h 16) in
  h.

Definition murmur_c1 : Z := 0xcc9e2d51.
Definition murmur_c2 : Z := 0x1b873593.

Definition murmur_k1 (k1 : Z) : Z :=
  let k1 := u32 (k1 * murmur_c1) in
  let k1 := rotl32 k1 15 in
  u32 (k1 * murmur_c2).

(** One round of the body loop. *)
Definition murmur_round (h1 k1 : Z) : Z :=
  let h1 := Z.lxor h1 (murmur_k1 k1) in
  let h1 := rotl32 h1 13 in
  u32 (h1 * 5 + 0xe6546b64).

Definition getblock32 (le : bool) (p : memory) (i : nat) : Z := load32 le p (4 * i).

(** [for (i = -nblocks; i; i++)] from the block [done_] on. *)
Fixpoint murmur_body (le : bool) (data : memory) (n : nat) (done_ : nat) (h1 : Z) : Z :=
  match n with
  | O => h1
  | S n' => murmur_body le data n' (S done_) (murmur_round h1 (getblock32 le data done_))
  end.

(** The [switch(length & 3)] with its fall-throughs. *)
Definition murmur_tail (data : memory) (o : nat) (rem : Z) (h1 : Z) : Z :=
  let k1 := 0 in
  let k1 := if rem =? 3 then Z.lxor k1 (Z.shiftl (data (o + 2)%nat) 16) else k1 in
  let k1 := if (rem =? 3) || (rem =? 2) then Z.lxor k1 (Z.shiftl (data (o + 1)%nat) 8) else k1 in
  if (rem =? 3) || (rem =? 2) || (rem =? 1) then
    let k1 := Z.lxor k1 (data o) in
    Z.lxor h1 (murmur_k1 k1)
  else h1.

Definition MurmurHash3_x86_32 (le : bool) (key : memory) (length : nat) : Z :=
  let nblocks := (length / 4)%nat in
  let h1 := murmur_body le key nblocks 0 0 in
  let h1 := murmur_tail key (nblocks * 4) (Z.land (Z.of_nat length) 3) h1 in
  let h1 := Z.lxor h1 (u32 (Z.of_nat length)) in
  fmix32 h1.

(** ** Jenkins' hash *)

Definition rot (x k : Z) : Z := Z.lxor (u32 (Z.shiftl x k)) (Z.shiftr x (32 - k)).

Abbreviation abc := (Z * Z * Z)%type.

(** One line of [mix]: [x -= z; x ^= rot(z,k); z += y]. *)
Definition mix_line (k x y z : Z) : Z * Z :=
  (Z.lxor (u32 (x - z)) (rot z k), u32 (z + y)).

Definition mix (s : abc) : abc :=
  let '(a, b, c) := s in
  let '(a, c) := mix_line 4 a b c in
  let '(b, a) := mix_line 6 b c a in
  let '(c, b) := mix_line 8 c a b in
  let '(a, c) := mix_line 16 a b c in
  let '(b, a) := mix_line 19 b c a in
  let '(c, b) := mix_line 4 c a b in
  (a, b, c).

Definition final_line (k x y : Z) : Z := u32 (Z.lxor x y - rot y k).

Definition final (s : abc) : abc :=
  let '(a, b, c) := s in
  let c := final_line 14 c b in
  let a := final_line 11 a c in
  let b := final_line 25 b a in
  let c := final_line 16 c b in
  let a := final_line 4 a c in
  let b := final_line 14 b a in
  let c := final_line 24 c b in
  (a, b, c).

Definition add3 (s : abc) (x y z : Z) : abc :=
  let '(a, b, c) := s in (u32 (a + x), u32 (b + y), u32 (c + z)).

(** The [while (length > 12)] loop, for the three ways of reading a block of
    12 bytes at offset [o]; [length] rounds are more than enough. *)
Fixpoint jenkins_loop (addblock : memory -> nat -> abc -> abc) (k : memory)
    (fuel o len : nat) (s : abc) : abc * nat * nat :=
  match fuel with
  | O => (s, o, len)
  | S f =>
      if Nat.ltb 12 len
      then jenkins_loop addblock k f (o + 12) (len - 12) (mix (addblock k o s))
      else (s, o, len)
  end.

Definition jenkins_init (length : nat) : Z := u32 (0xdeadbeef + u32 (Z.of_nat length)).

(** Little-endian build: 32-bit, 16-bit and byte readers. *)

Definition addblock32 (le : bool) (k : memory) (o : nat) (s : abc) : abc :=
  add3 s (load32 le k o) (load32 le k (o + 4)) (load32 le k (o + 8)).

Definition addblock16 (le : bool) (k : memory) (o : nat) (s : abc) : abc :=
  add3 s
    (load16 le k o + Z.shiftl (load16 le k (o + 2)) 16)
    (load16 le k (o + 4) + Z.shiftl (load16 le k (o + 6)) 16)
    (load16 le k (o + 8) + Z.shiftl (load16 le k (o + 10)) 16).

Definition add4 (x b0 s0 b1 s1 b2 s2 b3 s3 : Z) : Z :=
  u32 (u32 (u32 (u32 (x + Z.shiftl b0 s0) + Z.shiftl b1 s1) + Z.shiftl b2 s2) + Z.shiftl b3 s3).

Definition addblock8 (k : memory) (o : nat) (s : abc) : abc :=
  let '(a, b, c) := s in
  let kk i := k (o + i)%nat in
  (add4 a (kk 0%nat) 0 (kk 1%nat) 8 (kk 2%nat) 16 (kk 3%nat) 24,
   add4 b (kk 4%nat) 0 (kk 5%nat) 8 (kk 6%nat) 16 (kk 7%nat) 24,
   add4 c (kk 8%nat) 0 (kk 9%nat) 8 (kk 10%nat) 16 (kk 11%nat) 24).

(** The last block: [None] is [case 0 : return c]. *)
Definition tail32_le (le : bool) (k : memory) (o len : nat) (s : abc) : option abc :=
  let w i := load32 le k (o + 4 * i) in
  match len with
  | 12%nat => Some (add3 s (w 0%nat) (w 1%nat) (w 2%nat))
  | 11%nat => Some (add3 s (w 0%nat) (w 1%nat) (Z.land (w 2%nat) 0xffffff))
  | 10%nat => Some (add3 s (w 0%nat) (w 1%nat) (Z.land (w 2%nat) 0xffff))
  | 9%nat => Some (add3 s (w 0%nat) (w 1%nat) (Z.land (w 2%nat) 0xff))
  | 8%nat => Some (add3 s (w 0%nat) (w 1%nat) 0)
  | 7%nat => Some (add3 s (w 0%nat) (Z.land (w 1%nat) 0xffffff) 0)
  | 6%nat => Some (add3 s (w 0%nat) (Z.land (w 1%nat) 0xffff) 0)
  | 5%nat => Some (add3 s (w 0%nat) (Z.land (w 1%nat) 0xff) 0)
  | 4%nat => Some (add3 s (w 0%nat) 0 0)
  | 3%nat => Some (add3 s (Z.land (w 0%nat) 0xffffff) 0 0)
  | 2%nat => Some (add3 s (Z.land (w 0%nat) 0xffff) 0 0)
  | 1%nat => Some (add3 s (Z.land (w 0%nat) 0xff) 0 0)
  | _ => None
  end.

Definition tail16_le (le : bool) (k : memory) (o len : nat) (s : abc) : option abc :=
  let h i := load16 le k (o + 2 * i) in
  let k8 i := k (o + i)%nat in
  let w i := h (2 * i)%nat + Z.shiftl (h (2 * i + 1)%nat) 16 in
  match len with
  | 12%nat => Some (add3 s (w 0%nat) (w 1%nat) (w 2%nat))
  | 11%nat => Some (add3 (add3 s 0 0 (Z.shiftl (k8 10%nat) 16)) (w 0%nat) (w 1%nat) (h 4%nat))
  | 10%nat => Some (add3 s (w 0%nat) (w 1%nat) (h 4%nat))
  | 9%nat => Some (add3 (add3 s 0 0 (k8 8%nat)) (w 0%nat) (w 1%nat) 0)
  | 8%nat => Some (add3 s (w 0%nat) (w 1%nat) 0)
  | 7%nat => Some (add3 (add3 s 0 (Z.shiftl (k8 6%nat) 16) 0) (w 0%nat) (h 2%nat) 0)
  | 6%nat => Some (add3 s (w 0%nat) (h 2%nat) 0)
  | 5%nat => Some (add3 (add3 s 0 (k8 4%nat) 0) (w 0%nat) 0 0)
  | 4%nat => Some (add3 s (w 0%nat) 0 0)
  | 3%nat => Some (add3 (add3 s (Z.shiftl (k8 2%nat) 16) 0 0) (h 0%nat) 0 0)
  | 2%nat => Some (add3 s (h 0%nat) 0 0)
  | 1%nat => Some (add3 s (k8 0%nat) 0 0)
  | _ => None
  end.

(** Fall-through [case n:] entries run for every label up to [length]. *)
Definition addif (len lim : nat) (x v : Z) : Z := if Nat.leb lim len then u32 (x + v) else x.

Definition tail8_le (k : memory) (o len : nat) (s : abc) : option abc :=
  let '(a, b, c) := s in
  let k8 i := k (o + i)%nat in
  if Nat.eqb len 0 then None else
  let c := addif len 12 c (Z.shiftl (k8 11%nat) 24) in
  let c := addif len 11 c (Z.shiftl (k8 10%nat) 16) in
  let c := addif len 10 c (Z.shiftl (k8 9%nat) 8) in
  let c := addif len 9 c (k8 8%nat) in
  let b := addif len 8 b (Z.shiftl (k8 7%nat) 24) in
  let b := addif len 7 b (Z.shiftl (k8 6%nat) 16) in
  let b := addif len 6 b (Z.shiftl (k8 5%nat) 8) in
  let b := addif len 5 b (k8 4%nat) in
  let a := addif len 4 a (Z.shiftl (k8 3%nat) 24) in
  let a := addif len 3 a (Z.shiftl (k8 2%nat) 16) in
  let a := addif len 2 a (Z.shiftl (k8 1%nat) 8) in
  let a := addif len 1 a (k8 0%nat) in
  Some (a, b, c).

(** Common frame of the readers: loop, last block, [final]. *)
Definition jenkins_with (addblock : memory -> nat -> abc -> abc)
    (tail : memory -> nat -> nat -> abc -> option abc) (key : memory) (length : nat) : Z :=
  let i := jenkins_init length in
  let '(s, o, len) := jenkins_loop addblock key length 0 length (i, i, i) in
  match tail key o len s with
  | None => let '(_, _, c) := s in c
  | Some s' => let '(_, _, c) := final s' in c
  end.

(** [jenkins_hash] of the little-endian build on a little-endian machine;
    [align] is the low two bits of the key's address. *)
Definition jenkins_hash_le (le : bool) (align : Z) (key : memory) (length : nat) : Z :=
  if Z.land align 3 =? 0 then jenkins_with (addblock32 le) (tail32_le le) key length
  else if Z.land align 1 =? 0 then jenkins_with (addblock16 le) (tail16_le le) key length
  else jenkins_with addblock8 tail8_le key length.

(** Big-endian build: 32-bit and byte readers. *)

Definition tail32_be (le : bool) (k : memory) (o len : nat) (s : abc) : option abc :=
  let w i := load32 le k (o + 4 * i) in
  match len with
  | 12%nat => Some (add3 s (w 0%nat) (w 1%nat) (w 2%nat))
  | 11%nat => Some (add3 s (w 0%nat) (w 1%nat) (Z.land (w 2%nat) 0xffffff00))
  | 10%nat => Some (add3 s (w 0%nat) (w 1%nat) (Z.land (w 2%nat) 0xffff0000))
  | 9%nat => Some (add3 s (w 0%nat) (w 1%nat) (Z.land (w 2%nat) 0xff000000))
  | 8%nat => Some (add3 s (w 0%nat) (w 1%nat) 0)
  | 7%nat => Some (add3 s (w 0%nat) (Z.land (w 1%nat) 0xffffff00) 0)
  | 6%nat => Some (add3 s (w 0%nat) (Z.land (w 1%nat) 0xffff0000) 0)
  | 5%nat => Some (add3 s (w 0%nat) (Z.land (w 1%nat) 0xff000000) 0)
  | 4%nat => Some (add3 s (w 0%nat) 0 0)
  | 3%nat => Some (add3 s (Z.land (w 0%nat) 0xffffff00) 0 0)
  | 2%nat => Some (add3 s (Z.land (w 0%nat) 0xffff0000) 0 0)
  | 1%nat => Some (add3 s (Z.land (w 0%nat) 0xff000000) 0 0)
  | _ => None
  end.

Definition addblock8_be (k : memory) (o : nat) (s : abc) : abc :=
  let '(a, b, c) := s in
  let kk i := k (o + i)%nat in
  (add4 a (kk 0%nat) 24 (kk 1%nat) 16 (kk 2%nat) 8 (kk 3%nat) 0,
   add4 b (kk 4%nat) 24 (kk 5%nat) 16 (kk 6%nat) 8 (kk 7%nat) 0,
   add4 c (kk 8%nat) 24 (kk 9%nat) 16 (kk 10%nat) 8 (kk 11%nat) 0).

Definition tail8_be (k : memory) (o len : nat) (s : abc) : option abc :=
  let '(a, b, c) := s in
  let k8 i := k (o + i)%nat in
  if Nat.eqb len 0 then None else
  let c := addif len 12 c (k8 11%nat) in
  let c := addif len 11 c (Z.shiftl (k8 10%nat) 8) in
  let c := addif len 10 c (Z.shiftl (k8 9%nat) 16) in
  let c := addif len 9 c (Z.shiftl (k8 8%nat) 24) in
  let b := addif len 8 b (k8 7%nat) in
  let b := addif len 7 b (Z.shiftl (k8 6%nat) 8) in
  let b := addif len 6 b (Z.shiftl (k8 5%nat) 16) in
  let b := addif len 5 b (Z.shiftl (k8 4%nat) 24) in
  let a := addif len 4 a (k8 3%nat) in
  let a := addif len 3 a (Z.shiftl (k8 2%nat) 8) in
  let a := addif len 2 a (Z.shiftl (k8 1%nat) 16) in
  let a := addif len 1 a (Z.shiftl (k8 0%nat) 24) in
  Some (a, b, c).

Definition jenkins_hash_be (le : bool) (align : Z) (key : memory) (length : nat) : Z :=
  if Z.land align 3 =? 0 then jenkins_with (addblock32 le) (tail32_be le) key length
  else jenkins_with addblock8_be tail8_be key length.

(** ** hash.c *)

Inductive hashfunc_type := JENKINS_HASH | MURMUR3_HASH.

(** The build defines [ENDIAN_BIG] (AM_CFLAGS of src/src/common/Makefile.am),
    so [jenkins_hash] is its big-endian variant. *)
Definition jenkins_hash := jenkins_hash_be.

Definition get_hash_func (type : hashfunc_type) : bool -> Z -> memory -> nat -> Z :=
  match type with
  | JENKINS_HASH => jenkins_hash
  | MURMUR3_HASH => fun le _ key length => MurmurHash3_x86_32 le key length
  end.

(** [hash_init]: the function that [hash_func] is set to, [None] where it stays as it
    was, and the result. *)
Definition hash_init (type : option hashfunc_type) : option (bool -> Z -> memory -> nat -> Z) * Z :=
  match type with
  | Some type => (Some (get_hash_func type), LFS_OK)
  | None => (None, -1)
  end.

(** ** Test vectors *)

Example murmur_empty : MurmurHash3_x86_32 true (mem_of []) 0 = 0.
Proof. vm_compute. reflexivity. Qed.
Example murmur_hello : MurmurHash3_x86_32 true (mem_of (str "hello")) 5 = 0x248bfa47.
Proof. vm_compute. reflexivity. Qed.

(** ** MurmurHash3 *)

Lemma u32_u32_add x y : u32 (u32 x + y) = u32 (x + y).
Proof. apply Zplus_mod_idemp_l. Qed.

Lemma u32_add_u32 x y : u32 (x + u32 y) = u32 (x + y).
Proof. apply Zplus_mod_idemp_r. Qed.

Lemma u32_is z : is_u 32 (u32 z).
Proof. apply u_wrap_range. lia. Qed.

#[export] Hint Resolve u32_is : lfs.

(** [h ^= h >> r] is undone by xoring the successive shifts. *)
Lemma xorshift16_inv h : is_u 32 h ->
  Z.lxor (Z.lxor h (Z.shiftr h 16)) (Z.shiftr (Z.lxor h (Z.shiftr h 16)) 16) = h.
Proof.
  intros Hh. rewrite Z.shiftr_lxor, Z.shiftr_shiftr by lia.
  rewrite (Z.shiftr_div_pow2 h (16 + 16)), (Z.div_small h) by (unfold is_u in *; lia).
  rewrite Z.lxor_0_r. rewrite Z.lxor_assoc, Z.lxor_nilpotent. apply Z.lxor_0_r.
Qed.

Lemma xorshift13_inv h : is_u 32 h ->
  let y := Z.lxor h (Z.shiftr h 13) in
  Z.lxor (Z.lxor y (Z.shiftr y 13)) (Z.shiftr y 26) = h.
Proof.
  intros Hh. cbn zeta. rewrite !Z.shiftr_lxor, !Z.shiftr_shiftr by lia.
  rewrite (Z.shiftr_div_pow2 h (13 + 26)), (Z.div_small h) by (unfold is_u in *; lia).
  apply bits_eq. intros i Hi. rewrite !Z.lxor_spec, Z.bits_0. change (13 + 13) with 26.
  destruct (Z.testbit h i), (Z.testbit (Z.shiftr h 13) i), (Z.testbit (Z.shiftr h 26) i); done.
Qed.

(** An odd multiplier is invertible modulo [2^32]. *)
Lemma mul_inv m m' h : (m * m') mod 2 ^ 32 = 1 -> is_u 32 h -> u32 (u32 (h * m) * m') = h.
Proof.
  intros Hm Hh. unfold u_wrap. rewrite Zmult_mod_idemp_l, <- Z.mul_assoc.
  rewrite <- Zmult_mod_idemp_r, Hm, Z.mul_1_r. by apply Z.mod_small.
Qed.

Definition fmix32_inv (h : Z) : Z :=
  let h := Z.lxor h (Z.shiftr h 16) in
  let h := u32 (h * 0x7ed1b41d) in
  let h := Z.lxor (Z.lxor h (Z.shiftr h 13)) (Z.shiftr h 26) in
  let h := u32 (h * 0xa5cb9243) in
  Z.lxor h (Z.shiftr h 16).

Lemma is_u_xorshift h r : is_u 32 h -> 0 <= r -> is_u 32 (Z.lxor h (Z.shiftr h r)).
Proof. intros. apply is_u_lxor; [lia|done|]. by apply is_u_shiftr; [lia| |]. Qed.

Lemma fmix32_inv_spec h : is_u 32 h -> fmix32_inv (fmix32 h) = h.
Proof.
  intros Hh. unfold fmix32, fmix32_inv.
  pose proof (is_u_xorshift h 16 Hh ltac:(lia)) as H1.
  rewrite xorshift16_inv by apply u32_is.
  rewrite (mul_inv 0xc2b2ae35 0x7ed1b41d) by first [reflexivity | apply is_u_xorshift; [apply u32_is|lia]].
  rewrite xorshift13_inv by apply u32_is.
  rewrite (mul_inv 0x85ebca6b 0xa5cb9243) by first [reflexivity | done].
  by apply xorshift16_inv.
Qed.

(** The finalisation of MurmurHash3 loses no information: two different
    32-bit states give different hash values. *)
Theorem fmix32_injective a b : is_u 32 a -> is_u 32 b -> fmix32 a = fmix32 b -> a = b.
Proof. intros Ha Hb He. rewrite <- (fmix32_inv_spec a Ha), He. by apply fmix32_inv_spec. Qed.

Lemma fmix32_injective_witness : fmix32_inv (fmix32 7) = 7 /\ 7 = fmix32_inv (fmix32 7).
Proof.
  assert (7 = fmix32_inv (fmix32 7)) as H.
  { apply (fmix32_injective 7 (fmix32_inv (fmix32 7))); [unfold is_u; lia| |].
    - vm_compute. split; [discriminate|reflexivity].
    - vm_compute. reflexivity. }
  split; [symmetry|]; exact H.
Defined.

Lemma fmix32_range h : is_u 32 h -> is_u 32 (fmix32 h).
Proof. intros. apply is_u_xorshift; [apply u32_is|lia]. Qed.

Lemma murmur_body_range le data n d h : is_u 32 h -> is_u 32 (murmur_body le data n d h).
Proof. revert d h. induction n as [|n IH]; intros d h Hh; [done|]. apply IH, u32_is. Qed.

(** Every hash value is a [uint32_t]. *)
Lemma murmur_range le key length : is_u 32 (MurmurHash3_x86_32 le key length).
Proof.
  apply fmix32_range. apply is_u_lxor; [lia| |apply u32_is]. unfold murmur_tail.
  pose proof (murmur_body_range le key (length / 4) 0 0 ltac:(unfold is_u; lia)).
  destruct (_ || _ || _); [|done]. apply is_u_lxor; [lia|done|apply u32_is].
Qed.

(** ** Jenkins: [mix] is reversible *)

Definition abc_ok (s : abc) : Prop :=
  let '(a, b, c) := s in is_u 32 a /\ is_u 32 b /\ is_u 32 c.

Definition unmix_line (k x y z : Z) : Z * Z :=
  let z := u32 (z - y) in (u32 (Z.lxor x (rot z k) + z), z).

Definition unmix (s : abc) : abc :=
  let '(a, b, c) := s in
  let '(c, b) := unmix_line 4 c a b in
  let '(b, a) := unmix_line 19 b c a in
  let '(a, c) := unmix_line 16 a b c in
  let '(c, b) := unmix_line 8 c a b in
  let '(b, a) := unmix_line 6 b c a in
  let '(a, c) := unmix_line 4 a b c in
  (a, b, c).

Lemma mix_line_inv k x y z x' z' : is_u 32 x -> is_u 32 z ->
  mix_line k x y z = (x', z') -> unmix_line k x' y z' = (x, z).
Proof.
  intros Hx Hz [= <- <-]. unfold unmix_line.
  assert (u32 (u32 (z + y) - y) = z) as ->.
  { unfold u_wrap. rewrite Zminus_mod_idemp_l. replace (z + y - y) with z by lia. by apply u_wrap_id. }
  rewrite Z.lxor_assoc, Z.lxor_nilpotent, Z.lxor_0_r, u32_u32_add.
  replace (x - z + z) with x by lia. by rewrite u_wrap_id.
Qed.

Lemma rot_range x k : is_u 32 x -> 0 <= k <= 32 -> is_u 32 (rot x k).
Proof. intros. apply is_u_lxor; [lia|apply u32_is|]. apply is_u_shiftr; lia || done. Qed.

Lemma mix_line_range k x y z x' z' : is_u 32 z -> 0 <= k <= 32 ->
  mix_line k x y z = (x', z') -> is_u 32 x' /\ is_u 32 z'.
Proof.
  intros Hz Hk [= <- <-]. split; [|apply u32_is].
  apply is_u_lxor; [lia|apply u32_is|by apply rot_range].
Qed.

(** Run one line of [mix]: name its results, keep the range facts and the
    inverse equation. *)
Ltac mix_step :=
  match goal with
  | |- context [mix_line ?k ?x ?y ?z] =>
      let Ex := fresh "E" in let xn := fresh "x" in let zn := fresh "z" in
      destruct (mix_line k x y z) as [xn zn] eqn:Ex;
      let R := fresh "R" in
      pose proof (mix_line_range k x y z xn zn ltac:(assumption) ltac:(lia) Ex) as R;
      destruct R;
      apply mix_line_inv in Ex; [ | assumption | assumption ]
  end.

Lemma unmix_mix s : abc_ok s -> abc_ok (mix s) /\ unmix (mix s) = s.
Proof.
  destruct s as [[a b] c]. intros (Ha & Hb & Hc). unfold mix.
  do 6 mix_step. split; [done|]. unfold unmix.
  repeat match goal with H : unmix_line _ _ _ _ = _ |- _ => rewrite H; clear H end. done.
Qed.

(** As its comment says, [mix] is reversible: no information about
    [(a,b,c)] is lost, different states stay different. *)
Theorem mix_injective s s' : abc_ok s -> abc_ok s' -> mix s = mix s' -> s = s'.
Proof.
  intros Hs Hs' He. destruct (unmix_mix s Hs) as [_ <-], (unmix_mix s' Hs') as [_ H]. by rewrite He.
Qed.

Lemma mix_injective_witness : unmix (mix (1, 2, 3)) = (1, 2, 3).
Proof.
  apply mix_injective; [vm_compute; repeat split; discriminate || reflexivity..|].
  vm_compute. reflexivity.
Defined.

(** ** Jenkins: the readers agree *)

(** Drop the inner conversions of a chain of 32-bit additions. *)
Ltac u32_flat := repeat (rewrite u32_u32_add; rewrite <- ?Z.add_assoc).

Definition bytes_mem (k : memory) : Prop := forall i, is_u 8 (k i).

Lemma add4_sum x b0 s0 b1 s1 b2 s2 b3 s3 :
  add4 x b0 s0 b1 s1 b2 s2 b3 s3 =
  u32 (x + (Z.shiftl b0 s0 + Z.shiftl b1 s1 + Z.shiftl b2 s2 + Z.shiftl b3 s3)).
Proof. unfold add4. u32_flat. f_equal; lia. Qed.

Lemma addblock8_32 k o s : addblock8 k o s = addblock32 true k o s.
Proof.
  destruct s as [[a b] c]. unfold addblock8, addblock32, add3, load32. rewrite !add4_sum, !Z.shiftl_mul_pow2 by lia.
  rewrite Nat.add_0_r, <- !Nat.add_assoc. cbn [Nat.add].
  repeat apply (f_equal2 pair); apply (f_equal u32); lia.
Qed.

Lemma addblock16_32 k o s : addblock16 true k o s = addblock32 true k o s.
Proof.
  destruct s as [[a b] c]. unfold addblock16, addblock32, add3, load32, load16. rewrite !Z.shiftl_mul_pow2 by lia.
  rewrite <- !Nat.add_assoc. cbn [Nat.add]. repeat apply (f_equal2 pair); apply (f_equal u32); lia.
Qed.

Lemma addblock8_be_32 k o s : addblock8_be k o s = addblock32 false k o s.
Proof.
  destruct s as [[a b] c]. unfold addblock8_be, addblock32, add3, load32. rewrite !add4_sum, !Z.shiftl_mul_pow2 by lia.
  rewrite Nat.add_0_r, <- !Nat.add_assoc. cbn [Nat.add]. repeat apply (f_equal2 pair); apply (f_equal u32); lia.
Qed.

Lemma jenkins_loop_ext f g k fuel o len s :
  (forall o s, f k o s = g k o s) -> jenkins_loop f k fuel o len s = jenkins_loop g k fuel o len s.
Proof.
  intros H. revert o len s. induction fuel as [|n IH]; intros o len s; cbn [jenkins_loop]; [done|].
  destruct (Nat.ltb 12 len); [|done]. by rewrite H, IH.
Qed.

Lemma add3_ok s x y z : abc_ok (add3 s x y z).
Proof. destruct s as [[a b] c]. split_and!; apply u32_is. Qed.

(** The loop leaves at most 12 bytes and a state of 32-bit words. *)
Lemma jenkins_loop_spec le k fuel o len s s' o' len' :
  abc_ok s -> (len <= fuel)%nat ->
  jenkins_loop (addblock32 le) k fuel o len s = (s', o', len') -> abc_ok s' /\ (len' <= 12)%nat.
Proof.
  revert o len s. induction fuel as [|n IH]; intros o len s Hs Hf; cbn [jenkins_loop].
  - intros [= <- <- <-]. split; [done|lia].
  - destruct (Nat.ltb_spec 12 len).
    + apply IH; [|lia]. apply unmix_mix, add3_ok.
    + intros [= <- <- <-]. split; [done|lia].
Qed.

(** Masked loads keep the bytes of the key only. *)
Lemma load32_le_masks k o : bytes_mem k ->
  Z.land (load32 true k o) 0xffffff = k o + k (o + 1)%nat * 2 ^ 8 + k (o + 2)%nat * 2 ^ 16 /\
  Z.land (load32 true k o) 0xffff = k o + k (o + 1)%nat * 2 ^ 8 /\
  Z.land (load32 true k o) 0xff = k o.
Proof.
  intros Hk. pose proof (Hk o) as H0. pose proof (Hk (o + 1)%nat) as H1. pose proof (Hk (o + 2)%nat) as H2.
  pose proof (Hk (o + 3)%nat) as H3. unfold is_u in *. unfold load32.
  change 0xffffff with (2 ^ 24 - 1). change 0xffff with (2 ^ 16 - 1). change 0xff with (2 ^ 8 - 1).
  rewrite !land_mask_mod by lia.
  change (2 ^ 8) with 256 in *. change (2 ^ 16) with 65536. change (2 ^ 24) with 16777216.
  Z.to_euclidean_division_equations. lia.
Qed.

Lemma land_high_mask z m : 0 <= m <= 32 -> is_u 32 z -> Z.land z (2 ^ 32 - 2 ^ m) = z - z mod 2 ^ m.
Proof.
  intros Hm Hz. rewrite <- land_mask_mod by lia.
  enough (z = Z.land z (2 ^ 32 - 2 ^ m) + Z.land z (2 ^ m - 1)) by lia.
  rewrite Z.add_nocarry_lxor.
  - apply bits_eq. intros i Hi. rewrite Z.lxor_spec, !Z.land_spec.
    replace (2 ^ m - 1) with (Z.ones m) by (rewrite Z.ones_equiv; lia).
    replace (2 ^ 32 - 2 ^ m) with (Z.shiftl (Z.ones (32 - m)) m)
      by (rewrite Z.shiftl_mul_pow2, Z.ones_equiv by lia; rewrite Z.mul_pred_l, <- Z.pow_add_r by lia; f_equal; f_equal; lia).
    rewrite Z.shiftl_spec, !Z.testbit_ones by lia.
    destruct (Z.le_gt_cases 32 i).
    + by rewrite (is_u_testbit 32 z) by first [assumption|lia].
    + zcase (0 <=? i - m); zcase (i - m <? 32 - m); zcase (0 <=? i); zcase (i <? m); try lia; cbn;
        by rewrite ?andb_true_r, ?andb_false_r, ?xorb_false_r, ?xorb_false_l.
  - apply bits_eq. intros i Hi. rewrite !Z.land_spec, Z.bits_0.
    replace (2 ^ m - 1) with (Z.ones m) by (rewrite Z.ones_equiv; lia).
    rewrite (Z.testbit_ones m) by lia. zcase (0 <=? i); [|lia]. zcase (i <? m); cbn; [|by rewrite !andb_false_r].
    replace (2 ^ 32 - 2 ^ m) with (Z.shiftl (Z.ones (32 - m)) m)
      by (rewrite Z.shiftl_mul_pow2, Z.ones_equiv by lia; rewrite Z.mul_pred_l, <- Z.pow_add_r by lia; f_equal; f_equal; lia).
    rewrite Z.shiftl_spec_low by lia. by rewrite !andb_false_r.
Qed.

Lemma load32_be_masks k o : bytes_mem k ->
  Z.land (load32 false k o) 0xffffff00 = k o * 2 ^ 24 + k (o + 1)%nat * 2 ^ 16 + k (o + 2)%nat * 2 ^ 8 /\
  Z.land (load32 false k o) 0xffff0000 = k o * 2 ^ 24 + k (o + 1)%nat * 2 ^ 16 /\
  Z.land (load32 false k o) 0xff000000 = k o * 2 ^ 24.
Proof.
  intros Hk. pose proof (Hk o) as H0. pose proof (Hk (o + 1)%nat) as H1. pose proof (Hk (o + 2)%nat) as H2.
  pose proof (Hk (o + 3)%nat) as H3. unfold is_u in H0, H1, H2, H3. change (2 ^ 8) with 256 in *.
  assert (is_u 32 (load32 false k o)) by (unfold is_u, load32; lia).
  change 0xffffff00 with (2 ^ 32 - 2 ^ 8). change 0xffff0000 with (2 ^ 32 - 2 ^ 16).
  change 0xff000000 with (2 ^ 32 - 2 ^ 24). rewrite !land_high_mask by (lia || done).
  unfold load32. change (2 ^ 8) with 256 in *. change (2 ^ 16) with 65536. change (2 ^ 24) with 16777216.
  Z.to_euclidean_division_equations. lia.
Qed.

Lemma u32_add_0 x : is_u 32 x -> u32 (x + 0) = x.
Proof. intros. rewrite Z.add_0_r. by apply u_wrap_id. Qed.

(** Normalise the sums of one length of the last block. *)
Ltac tail_case k o :=
  cbn [tail32_le tail32_be tail8_le tail8_be tail16_le add3 addif Nat.leb Nat.eqb Nat.mul Nat.add];
  f_equal; repeat apply (f_equal2 pair);
  u32_flat; rewrite ?u32_add_0 by assumption; try done;
  unfold load32, load16; rewrite ?Z.shiftl_mul_pow2 by lia;
  rewrite <- ?Nat.add_assoc; cbn [Nat.add Nat.mul]; rewrite ?Nat.add_0_r;
  apply (f_equal u32); lia.

Lemma tail8_32 k o len s : bytes_mem k -> abc_ok s -> (len <= 12)%nat ->
  tail8_le k o len s = tail32_le true k o len s.
Proof.
  intros Hk Hs Hlen. destruct s as [[a b] c]. destruct Hs as (Ha & Hb & Hc).
  destruct (load32_le_masks k (o + 4 * 0) Hk) as (M01 & M02 & M03).
  destruct (load32_le_masks k (o + 4 * 1) Hk) as (M11 & M12 & M13).
  destruct (load32_le_masks k (o + 4 * 2) Hk) as (M21 & M22 & M23).
  unfold tail32_le. rewrite M01, M02, M03, M11, M12, M13, M21, M22, M23.
  do 13 (destruct len as [|len]; [first [done | tail_case k o]|]). lia.
Qed.

Lemma tail16_8 k o len s : abc_ok s -> (len <= 12)%nat ->
  tail16_le true k o len s = tail8_le k o len s.
Proof.
  intros Hs Hlen. destruct s as [[a b] c]. destruct Hs as (Ha & Hb & Hc).
  do 13 (destruct len as [|len]; [first [done | tail_case k o]|]). lia.
Qed.

Lemma tail8_be_32 k o len s : bytes_mem k -> abc_ok s -> (len <= 12)%nat ->
  tail8_be k o len s = tail32_be false k o len s.
Proof.
  intros Hk Hs Hlen. destruct s as [[a b] c]. destruct Hs as (Ha & Hb & Hc).
  destruct (load32_be_masks k (o + 4 * 0) Hk) as (M01 & M02 & M03).
  destruct (load32_be_masks k (o + 4 * 1) Hk) as (M11 & M12 & M13).
  destruct (load32_be_masks k (o + 4 * 2) Hk) as (M21 & M22 & M23).
  unfold tail32_be. rewrite M01, M02, M03, M11, M12, M13, M21, M22, M23.
  do 13 (destruct len as [|len]; [first [done | tail_case k o]|]). lia.
Qed.

Lemma jenkins_with_ext le f g t u k len :
  (forall o s, f k o s = addblock32 le k o s) -> (forall o s, g k o s = addblock32 le k o s) ->
  (forall o n s, abc_ok s -> (n <= 12)%nat -> t k o n s = u k o n s) ->
  jenkins_with f t k len = jenkins_with g u k len.
Proof.
  intros Hf Hg Ht. unfold jenkins_with.
  rewrite (jenkins_loop_ext f (addblock32 le)), (jenkins_loop_ext g (addblock32 le)) by done.
  destruct (jenkins_loop _ _ _ _ _ _) as [[s o] n] eqn:E.
  apply jenkins_loop_spec in E as [Hs Hn]; [by rewrite Ht| |lia].
  unfold jenkins_init. split_and!; apply u32_is.
Qed.

(** Built for its machine, [jenkins_hash] does not depend on how the key
    is aligned: the 32-bit reader, whose last load goes past the key and masks
    the rest off, the 16-bit reader and the byte reader compute the same value.
    [le = true] is the little-endian build on a little-endian machine,
    [le = false] the big-endian build on a big-endian one. *)
Theorem jenkins_readers_agree (le : bool) align align' key length : bytes_mem key ->
  (if le then jenkins_hash_le else jenkins_hash_be) le align key length =
  (if le then jenkins_hash_le else jenkins_hash_be) le align' key length.
Proof.
  intros Hk. destruct le.
  - assert (forall al, jenkins_hash_le true al key length = jenkins_with addblock8 tail8_le key length) as H.
    { intros al. unfold jenkins_hash_le. destruct (_ =? _); [|destruct (_ =? _); [|done]].
      - symmetry. apply (jenkins_with_ext true); auto using addblock8_32, tail8_32.
      - apply (jenkins_with_ext true); auto using addblock16_32, addblock8_32, tail16_8. }
    by rewrite !H.
  - assert (forall al, jenkins_hash_be false al key length = jenkins_with addblock8_be tail8_be key length) as H.
    { intros al. unfold jenkins_hash_be. destruct (_ =? _); [|done].
      symmetry. apply (jenkins_with_ext false); auto using addblock8_be_32, tail8_be_32. }
    by rewrite !H.
Qed.

Lemma jenkins_readers_agree_witness :
  jenkins_hash_le true 0 (fun i => Z.of_nat (i mod 7)) 7 = jenkins_hash_le true 1 (fun i => Z.of_nat (i mod 7)) 7.
Proof.
  apply (jenkins_readers_agree true). intros i. unfold is_u.
  pose proof (Nat.mod_upper_bound i 7 ltac:(lia)). lia.
Defined.

(** The configured build is the big-endian variant; on a little-endian machine
    it gives one key two hash values depending on its address, and with an
    aligned key the value depends on a byte that is not part of the key. *)
Lemma jenkins_big_endian_build_on_little_endian :
  jenkins_hash true 0 (mem_of (str "abc")) 3 <> jenkins_hash true 1 (mem_of (str "abc")) 3 /\
  jenkins_hash true 0 (mem_of (str "abc" ++ [1])) 3 <> jenkins_hash true 0 (mem_of (str "abc" ++ [2])) 3.
Proof. split; vm_compute; discriminate. Qed.
