(* ===== verification/Chains.v ===== *)
(** * Bucket chains

    Singly linked chains in a heap, and arrays of them: the shape that
    hash_table.c and the volume table of ts_cluster.c share.  A cell is any
    record with a [next] pointer, given by [nx]. *)
From S2P Require Import Prelude.

(** ** Lists of buckets *)

Lemma concat_lookup {A} (xss : list (list A)) i xs : xss !! i = Some xs ->
  concat xss ≡ₚ xs ++ concat (take i xss ++ drop (S i) xss).
Proof.
  intros H. rewrite <- (take_drop_middle _ _ _ H) at 1. rewrite !concat_app. cbn.
  by rewrite Permutation_app_swap_app.
Qed.

Lemma concat_insert {A} (xss : list (list A)) i xs ys : xss !! i = Some xs ->
  concat (<[i := ys]> xss) ≡ₚ ys ++ concat (take i xss ++ drop (S i) xss).
Proof.
  intros H. rewrite insert_take_drop by (by eapply lookup_lt_Some). rewrite !concat_app. cbn.
  by rewrite Permutation_app_swap_app.
Qed.

Lemma concat_push {A} (xss : list (list A)) i xs x : xss !! i = Some xs ->
  concat (<[i := x :: xs]> xss) ≡ₚ x :: concat xss.
Proof. intros H. by rewrite (concat_insert _ _ _ _ H), (concat_lookup _ _ _ H). Qed.

Lemma elem_of_concat {A} (xss : list (list A)) i xs x : xss !! i = Some xs -> x ∈ xs -> x ∈ concat xss.
Proof. intros H Hx. rewrite (concat_lookup _ _ _ H). apply elem_of_app. by left. Qed.

Lemma elem_of_concat_inv {A} (xss : list (list A)) x : x ∈ concat xss -> exists i xs, xss !! i = Some xs /\ x ∈ xs.
Proof.
  intros (xs & Hxs & Hx)%list_elem_of_In%in_concat. apply list_elem_of_In, list_elem_of_lookup in Hxs as [i Hi].
  exists i, xs. split; [done|]. by apply list_elem_of_In.
Qed.

Lemma concat_replicate_nil {A} n : concat (replicate n (@nil A)) = [].
Proof. by induction n. Qed.

(** ** Chains *)

Section Chains.
Context {D : Type} (nx : D -> option nat).

(** [chain c p xs]: following [next] from [p] visits the nodes [xs]. *)
Fixpoint chain (c : gmap nat D) (p : option nat) (xs : list (nat * D)) : Prop :=
  match xs with
  | [] => p = None
  | (l, d) :: xs' => p = Some l /\ c !! l = Some d /\ chain c (nx d) xs'
  end.
End Chains.

Section ChainLemmas.
Context {D : Type} {nx : D -> option nat}.
Implicit Types (c : gmap nat D) (xs : list (nat * D)).

Lemma chain_insert c p xs l d : chain nx c p xs -> l ∉ xs.*1 -> chain nx (<[l := d]> c) p xs.
Proof.
  revert p. induction xs as [|[l' d'] xs IH]; intros p; cbn; [done|].
  intros (-> & Hl & Hc) Hn. apply not_elem_of_cons in Hn as [Hne Hn].
  split_and!; [done|by rewrite lookup_insert_ne|by apply IH].
Qed.

Lemma chain_delete c p xs l : chain nx c p xs -> l ∉ xs.*1 -> chain nx (delete l c) p xs.
Proof.
  revert p. induction xs as [|[l' d'] xs IH]; intros p; cbn; [done|].
  intros (-> & Hl & Hc) Hn. apply not_elem_of_cons in Hn as [Hne Hn].
  split_and!; [done|by rewrite lookup_delete_ne|by apply IH].
Qed.

Lemma chain_ext c c' p xs : (forall l, l ∈ xs.*1 -> c' !! l = c !! l) -> chain nx c p xs -> chain nx c' p xs.
Proof.
  revert p. induction xs as [|[l d] xs IH]; intros p He; cbn; [done|].
  intros (-> & Hl & Hc). split_and!; [done| |].
  - rewrite He; [done|]. cbn. apply list_elem_of_here.
  - apply IH; [|done]. intros l' Hl'. apply He. cbn. by apply list_elem_of_further.
Qed.

Lemma chain_lookup c p xs x : chain nx c p xs -> x ∈ xs -> c !! x.1 = Some x.2.
Proof.
  revert p. induction xs as [|[l d] xs IH]; intros p; cbn; [by intros _ ?%not_elem_of_nil|].
  intros (-> & Hl & Hc) [->|Hx]%elem_of_cons; [done|by eapply IH].
Qed.

Lemma chain_length c p xs : chain nx c p xs -> NoDup xs.*1 -> (length xs <= size c)%nat.
Proof.
  intros Hc Hn. rewrite <- (length_fmap fst xs), <- size_dom, <- (size_list_to_set (C:=gset nat)) by done.
  apply subseteq_size. intros l Hl. apply elem_of_list_to_set, list_elem_of_fmap in Hl as ([l' d] & -> & Hx).
  apply elem_of_dom. exists d. by apply (chain_lookup _ _ _ _ Hc Hx).
Qed.

Lemma Forall2_chain_insert c tab xss l d :
  Forall2 (chain nx c) tab xss -> l ∉ (concat xss).*1 -> Forall2 (chain nx (<[l := d]> c)) tab xss.
Proof.
  induction 1 as [|p xs tab xss Hc Hcs IH]; intros Hn; [constructor|].
  cbn in Hn. rewrite fmap_app, not_elem_of_app in Hn. destruct Hn.
  constructor; [by apply chain_insert|by apply IH].
Qed.

Lemma Forall2_chain_ext c c' tab xss :
  (forall l, l ∈ (concat xss).*1 -> c' !! l = c !! l) ->
  Forall2 (chain nx c) tab xss -> Forall2 (chain nx c') tab xss.
Proof.
  intros He. induction 1 as [|p xs tab xss Hc Hcs IH]; [constructor|]. constructor.
  - eapply chain_ext; [|done]. intros l Hl. apply He. cbn. rewrite fmap_app, elem_of_app. by left.
  - apply IH. intros l Hl. apply He. cbn. rewrite fmap_app, elem_of_app. by right.
Qed.

(** Pushing a node whose location is not in the table yet. *)
Lemma buckets_push c tab xss i l d head xs :
  Forall2 (chain nx c) tab xss -> tab !! i = Some head -> xss !! i = Some xs -> l ∉ (concat xss).*1 ->
  nx d = head -> Forall2 (chain nx (<[l := d]> c)) (<[i := Some l]> tab) (<[i := (l, d) :: xs]> xss).
Proof.
  intros Hc Ht Hx Hl <-. apply Forall2_insert.
  - by apply Forall2_chain_insert.
  - cbn. split_and!; [done|by rewrite lookup_insert_eq|].
    pose proof (Forall2_lookup_lr _ _ _ _ _ _ Hc Ht Hx) as Hh.
    apply chain_insert; [done|]. intros Hin. apply Hl.
    rewrite (concat_lookup _ _ _ Hx), fmap_app, elem_of_app. by left.
Qed.

(** Unlinking the first node of a bucket. *)
Lemma buckets_pop c tab xss i l d xs : Forall2 (chain nx c) tab xss -> xss !! i = Some ((l, d) :: xs) ->
  chain nx c (nx d) xs -> l ∉ (xs ++ concat (take i xss ++ drop (S i) xss)).*1 ->
  Forall2 (chain nx (delete l c)) (<[i := nx d]> tab) (<[i := xs]> xss).
Proof.
  intros Hf Hx Hch Hlr. pose proof (Forall2_length _ _ _ Hf) as Hlen.
  rewrite fmap_app, not_elem_of_app in Hlr. destruct Hlr as [Hl1 Hl2].
  apply Forall2_same_length_lookup. rewrite !length_insert. split; [done|].
  intros j p ys. rewrite !list_lookup_insert, <- Hlen. case_decide as Hd; intros Hp1 Hy1.
  - simplify_eq. by apply chain_delete.
  - pose proof (Forall2_lookup_lr _ _ _ _ _ _ Hf Hp1 Hy1) as Hc. apply chain_delete; [done|].
    assert (i <> j) as Hij by (intros ->; apply Hd; split; [done|by eapply lookup_lt_Some]).
    intros (y & Hly & Hy)%list_elem_of_fmap. apply Hl2, list_elem_of_fmap. exists y. split; [done|].
    rewrite concat_app. apply elem_of_app. destruct (decide (j < i)%nat).
    + left. apply (elem_of_concat _ j ys); [|done]. by rewrite lookup_take_lt.
    + right. apply (elem_of_concat _ (j - S i) ys); [|done]. rewrite lookup_drop, <- Hy1. f_equal. lia.
Qed.


(** Changing a cell in place, its [next] kept. *)
Definition set_node (v : nat) (d : D) (x : nat * D) : nat * D := if decide (x.1 = v) then (v, d) else x.

Definition set_nodes (v : nat) (d : D) (xss : list (list (nat * D))) : list (list (nat * D)) :=
  (fun xs : list (nat * D) => set_node v d <$> xs) <$> xss.

Lemma chain_set c p xs v d d' : c !! v = Some d -> nx d' = nx d ->
  chain nx c p xs -> chain nx (<[v := d']> c) p (set_node v d' <$> xs).
Proof.
  intros Hv Hn. revert p. induction xs as [|[l e] xs IH]; intros p; cbn; [done|].
  intros (-> & Hl & Hc). unfold set_node at 1. cbn. case_decide as E.
  - subst l. rewrite lookup_insert_eq. simplify_eq. rewrite Hn. split_and!; [done|done|by apply IH].
  - rewrite lookup_insert_ne by done. split_and!; [done|done|by apply IH].
Qed.

Lemma Forall2_chain_set c tab xss v d d' : c !! v = Some d -> nx d' = nx d ->
  Forall2 (chain nx c) tab xss -> Forall2 (chain nx (<[v := d']> c)) tab (set_nodes v d' xss).
Proof. intros Hv Hn. induction 1; cbn; constructor; [by eapply chain_set|done]. Qed.

Lemma Forall2_chain_lookup c tab xss x : Forall2 (chain nx c) tab xss -> x ∈ concat xss -> c !! x.1 = Some x.2.
Proof.
  intros Hf (i & xs & Hi & Hx)%elem_of_concat_inv. destruct (Forall2_lookup_r _ _ _ _ _ Hf Hi) as (p & _ & Hc).
  by eapply chain_lookup.
Qed.
End ChainLemmas.
