(* ===== verification/HashTable.v ===== *)
(** * The chained hash table

    src/src/common/hash_table.c, hash_table.h.  The nodes live in a heap, so
    that sharing, freeing and the use of a freed node are visible: a read or a
    write of a location that is not allocated is [UseAfterFree].  Each call of
    [malloc] may fail, as the oracle of the heap says.  A [double] load factor
    is the exact dyadic rational it denotes. *)
From S2P Require Import Prelude Chains.

Abbreviation loc := nat.

Record hash_data := mk_hash_data {
  hd_key : bytes;
  hd_value : bytes;
  hd_hash_code : Z;
  hd_next : option loc
}.

Definition set_next (d : hash_data) (n : option loc) : hash_data :=
  mk_hash_data (hd_key d) (hd_value d) (hd_hash_code d) n.

(** A finite [double]: [dbl_num / 2 ^ dbl_exp]. *)
Record double := mk_double { dbl_num : Z; dbl_exp : nat }.

Definition dbl_leb (a b : double) : bool :=
  dbl_num a * 2 ^ Z.of_nat (dbl_exp b) <=? dbl_num b * 2 ^ Z.of_nat (dbl_exp a).

(** [(int)(n * d)] *)
Definition dbl_scale (n : Z) (d : double) : Z := Z.quot (n * dbl_num d) (2 ^ Z.of_nat (dbl_exp d)).

Definition dbl_0_10 : double := mk_double 3602879701896397 55.
Definition dbl_1_00 : double := mk_double 1 0.
Definition DEFAULT_LOAD_FACTOR : double := mk_double 3 2.
Definition DEFAULT_INITIAL_CAPACITY : Z := 2 ^ 4.
Definition MAXINUM_CAPACITY : Z := 2 ^ 30.

Record hash_table := mk_hash_table {
  ht_table : list (option loc);
  ht_item_count : Z;
  ht_capacity : Z;
  ht_load_factor : double;
  ht_threshold : Z
}.

(** ** The heap *)

Record heap := mk_heap {
  cells : gmap loc hash_data;
  brk : loc;
  malloc_oracle : nat -> bool;
  malloc_tick : nat
}.

Definition set_cells (h : heap) (c : gmap loc hash_data) : heap :=
  mk_heap c (brk h) (malloc_oracle h) (malloc_tick h).

Definition h_read (h : heap) (l : loc) : outcome hash_data := get_or UseAfterFree (cells h !! l).

Definition h_write (h : heap) (l : loc) (d : hash_data) : outcome heap :=
  match cells h !! l with
  | Some _ => Ret (set_cells h (<[l := d]> (cells h)))
  | None => Crash UseAfterFree
  end.

Definition h_free (h : heap) (l : loc) : outcome heap :=
  match cells h !! l with
  | Some _ => Ret (set_cells h (delete l (cells h)))
  | None => Crash UseAfterFree
  end.

(** One call of [malloc] for a buffer the model keeps by value. *)
Definition h_malloc (h : heap) : bool * heap :=
  (malloc_oracle h (malloc_tick h), mk_heap (cells h) (brk h) (malloc_oracle h) (S (malloc_tick h))).

(** A fresh node cell. *)
Definition h_new (h : heap) (d : hash_data) : loc * heap :=
  (brk h, mk_heap (<[brk h := d]> (cells h)) (S (brk h)) (malloc_oracle h) (malloc_tick h)).

Section HashTable.
(** The function pointer [pht->hash_func]; its value is an [uint32_t]. *)
Context (hash_func : bytes -> Z).

Definition INDEX_FOR (h length : Z) : Z := Z.land h (length - 1).

(** [_hash_table_resize]: the [while] loop over one old chain; each node is
    pushed on its new bucket. *)
Fixpoint rehash_chain (fuel : nat) (cap : Z) (h : heap) (tab : list (option loc)) (cnt : Z)
    (p : option loc) : outcome (heap * list (option loc) * Z) :=
  match p with
  | None => Ret (h, tab, cnt)
  | Some l =>
      match fuel with
      | O => Crash Diverged
      | S f =>
          d ← h_read h l;
          let i := INDEX_FOR (hash_func (hd_key d)) cap in
          head ← get_or OutOfBounds (zlookup tab i);
          h' ← h_write h l (set_next d head);
          tab' ← zinsert tab i (Some l);
          rehash_chain f cap h' tab' (cnt + 1) (hd_next d)
      end
  end.

Fixpoint rehash_table (cap : Z) (h : heap) (tab : list (option loc)) (cnt : Z)
    (old : list (option loc)) : outcome (heap * list (option loc) * Z) :=
  match old with
  | [] => Ret (h, tab, cnt)
  | p :: old' =>
      '(h', tab', cnt') ← rehash_chain (size (cells h)) cap h tab cnt p;
      rehash_table cap h' tab' cnt' old'
  end.

(** The allocation of the new bucket array fails for a negative
    [new_capacity], which becomes a huge [size_t]. *)
Definition _hash_table_resize (h : heap) (pht : hash_table) (new_capacity : Z) :
    outcome (heap * hash_table * Z) :=
  let '(ok, h) := h_malloc h in
  if negb ok || (new_capacity <? 0) then Ret (h, pht, ENOMEM)
  else
    '(h', tab, cnt) ← rehash_table new_capacity h (replicate (Z.to_nat new_capacity) None) 0 (ht_table pht);
    Ret (h', mk_hash_table tab cnt new_capacity (ht_load_factor pht)
               (dbl_scale new_capacity (ht_load_factor pht)), 0).

(** [key_len == phd->key_len && memcmp(key, phd->key, key_len) == 0] *)
Definition key_eqb (a b : bytes) : bool := bool_decide (a = b).

Fixpoint _bucket_find_entry (fuel : nat) (h : heap) (p : option loc) (key : bytes) : outcome (option loc) :=
  match p with
  | None => Ret None
  | Some l =>
      match fuel with
      | O => Crash Diverged
      | S f =>
          d ← h_read h l;
          if key_eqb key (hd_key d) then Ret (Some l)
          else _bucket_find_entry f h (hd_next d) key
      end
  end.

(** The search loop of [_bucket_add_entry] and [hash_table_delete]: the pair
    [(phd_pre, phd_bucket)] it ends with. *)
Fixpoint bucket_search (fuel : nat) (h : heap) (pre p : option loc) (key : bytes) :
    outcome (option loc * option loc) :=
  match p with
  | None => Ret (pre, None)
  | Some l =>
      match fuel with
      | O => Crash Diverged
      | S f =>
          d ← h_read h l;
          if key_eqb key (hd_key d) then Ret (pre, Some l)
          else bucket_search f h (Some l) (hd_next d) key
      end
  end.

(** [DELETE_NODE_FROM_HASHTABLE]: with a predecessor, only the local variable
    [phd_pre] is assigned; the predecessor's [next] is not. *)
Definition DELETE_NODE_FROM_HASHTABLE (h : heap) (pht : hash_table) (i : Z)
    (phd_pre : option loc) (phd_bucket : loc) : outcome (heap * hash_table) :=
  d ← h_read h phd_bucket;
  tab ← match phd_pre with
        | None => zinsert (ht_table pht) i (hd_next d)
        | Some _ => Ret (ht_table pht)
        end;
  h' ← h_free h phd_bucket;
  Ret (h', mk_hash_table tab (ht_item_count pht - 1) (ht_capacity pht)
             (ht_load_factor pht) (ht_threshold pht)).

Definition _bucket_add_entry (h : heap) (pht : hash_table) (i : Z) (key value : bytes) :
    outcome (heap * hash_table * Z) :=
  head ← get_or OutOfBounds (zlookup (ht_table pht) i);
  '(phd_pre, phd_bucket) ← bucket_search (S (size (cells h))) h None head key;
  '(h, pht) ← match phd_bucket with
              | Some l => DELETE_NODE_FROM_HASHTABLE h pht i phd_pre l
              | None => Ret (h, pht)
              end;
  let '(ok1, h) := h_malloc h in
  if negb ok1 then Ret (h, pht, ENOMEM) else
  let '(ok2, h) := h_malloc h in
  if negb ok2 then Ret (h, pht, -1) else
  let '(ok3, h) := h_malloc h in
  if negb ok3 then Ret (h, pht, -1) else
  head ← get_or OutOfBounds (zlookup (ht_table pht) i);
  let '(l, h) := h_new h (mk_hash_data key value (hash_func key) head) in
  tab ← zinsert (ht_table pht) i (Some l);
  Ret (h, mk_hash_table tab (ht_item_count pht + 1) (ht_capacity pht)
            (ht_load_factor pht) (ht_threshold pht), 0).

(** [while (capacity < target_capacity) capacity <<= 1]; 31 rounds reach any
    [int] target up to [MAXINUM_CAPACITY]. *)
Fixpoint grow_capacity (fuel : nat) (capacity target : Z) : outcome Z :=
  if capacity <? target then
    match fuel with
    | O => Crash Diverged
    | S f => grow_capacity f (s32 (Z.shiftl capacity 1)) target
    end
  else Ret capacity.

Definition hash_table_init (h : heap) (init_capacity : Z) (load_factor : double) :
    outcome (heap * (Z + hash_table)) :=
  if init_capacity <? 0 then Ret (h, inl EINVAL)
  else if dbl_num load_factor <? 0 then Ret (h, inl EINVAL)
  else
    let target_capacity :=
      if init_capacity =? 0 then DEFAULT_INITIAL_CAPACITY
      else if MAXINUM_CAPACITY <? init_capacity then MAXINUM_CAPACITY
      else init_capacity in
    let lf := if dbl_leb dbl_0_10 load_factor && dbl_leb load_factor dbl_1_00
              then load_factor else DEFAULT_LOAD_FACTOR in
    capacity ← grow_capacity 31 1 target_capacity;
    let '(ok, h) := h_malloc h in
    if negb ok then Ret (h, inl ENOMEM)
    else Ret (h, inr (mk_hash_table (replicate (Z.to_nat capacity) None) 0 capacity lf
                        (dbl_scale capacity lf))).

Definition hash_table_put (h : heap) (pht : hash_table) (key value : bytes) :
    outcome (heap * hash_table * Z) :=
  '(h, pht) ←
    (if ht_threshold pht <=? ht_item_count pht
     then '(h', pht', _) ← _hash_table_resize h pht (s32 (u32 (2 * ht_capacity pht))); Ret (h', pht')
     else Ret (h, pht));
  let i := INDEX_FOR (hash_func key) (ht_capacity pht) in
  '(h, pht, result) ← _bucket_add_entry h pht i key value;
  Ret (h, pht, if result =? 0 then LFS_OK else LFS_ERROR).

Definition hash_table_get (h : heap) (pht : hash_table) (key : bytes) : outcome (option loc) :=
  let i := INDEX_FOR (hash_func key) (ht_capacity pht) in
  head ← get_or OutOfBounds (zlookup (ht_table pht) i);
  _bucket_find_entry (S (size (cells h))) h head key.

Definition hash_table_delete (h : heap) (pht : hash_table) (key : bytes) :
    outcome (heap * hash_table * Z) :=
  let i := INDEX_FOR (hash_func key) (ht_capacity pht) in
  head ← get_or OutOfBounds (zlookup (ht_table pht) i);
  '(phd_pre, phd_bucket) ← bucket_search (S (size (cells h))) h None head key;
  match phd_bucket with
  | Some l => '(h, pht) ← DELETE_NODE_FROM_HASHTABLE h pht i phd_pre l; Ret (h, pht, LFS_OK)
  | None => Ret (h, pht, LFS_ERROR)
  end.

Definition hash_table_count (pht : hash_table) : Z := ht_item_count pht.

(** [hash_table_free]: every chain, then the bucket array. *)
Fixpoint free_chain (fuel : nat) (h : heap) (p : option loc) : outcome heap :=
  match p with
  | None => Ret h
  | Some l =>
      match fuel with
      | O => Crash Diverged
      | S f => d ← h_read h l; h' ← h_free h l; free_chain f h' (hd_next d)
      end
  end.

Fixpoint hash_table_free (h : heap) (tab : list (option loc)) : outcome heap :=
  match tab with
  | [] => Ret h
  | p :: tab' => h' ← free_chain (size (cells h)) h p; hash_table_free h' tab'
  end.

(** [hash_table_walk]: every entry is visited; the loop does nothing else. *)
Fixpoint walk_chain (fuel : nat) (h : heap) (p : option loc) : outcome (list loc) :=
  match p with
  | None => Ret []
  | Some l =>
      match fuel with
      | O => Crash Diverged
      | S f => d ← h_read h l; r ← walk_chain f h (hd_next d); Ret (l :: r)
      end
  end.

Fixpoint hash_table_walk (h : heap) (tab : list (option loc)) : outcome (list loc) :=
  match tab with
  | [] => Ret []
  | p :: tab' => r1 ← walk_chain (size (cells h)) h p; r2 ← hash_table_walk h tab'; Ret (r1 ++ r2)
  end.
End HashTable.

(** ** Representation *)

Abbreviation node := (loc * hash_data)%type.
Abbreviation chain := (Chains.chain hd_next).
Abbreviation item := (loc * (bytes * bytes))%type.

Definition item_of (x : node) : item := (x.1, (hd_key x.2, hd_value x.2)).

Definition items (xss : list (list node)) : list item := item_of <$> concat xss.

(** What the search loop returns on a chain. *)
Fixpoint search_list (pre : option loc) (xs : list node) (key : bytes) : option loc * option loc :=
  match xs with
  | [] => (pre, None)
  | (l, d) :: xs' => if key_eqb key (hd_key d) then (pre, Some l) else search_list (Some l) xs' key
  end.

Section Invariant.
Context (hash_func : bytes -> Z).

(** Every node is in the bucket of its key. *)
Definition indexed (cap : Z) (xss : list (list node)) : Prop :=
  forall i xs x, xss !! i = Some xs -> x ∈ xs ->
    INDEX_FOR (hash_func (hd_key x.2)) cap = Z.of_nat i.

(** The buckets hold exactly the items [P]. *)
Definition buckets (h : heap) (tab : list (option loc)) (cap : Z) (xss : list (list node)) (P : list item) : Prop :=
  Forall2 (chain (cells h)) tab xss /\ indexed cap xss /\ items xss ≡ₚ P.

(** Data invariant of a table that holds the items [P]: chains that reach
    distinct allocated nodes and all of them, one node per key, the item
    count, and a power of two of buckets. *)
Record table_inv (h : heap) (t : hash_table) (P : list item) : Prop := {
  ti_buckets : exists xss, buckets h (ht_table t) (ht_capacity t) xss P;
  ti_locs : NoDup P.*1;
  ti_keys : NoDup P.*2.*1;
  ti_count : ht_item_count t = Z.of_nat (length P);
  ti_cap : exists k, 0 <= k <= 30 /\ ht_capacity t = 2 ^ k;
  ti_len : Z.of_nat (length (ht_table t)) = ht_capacity t;
  ti_dom : dom (cells h) = list_to_set P.*1;
  ti_brk : forall l, l ∈ dom (cells h) -> (l < brk h)%nat
}.

(** The dictionary a table stands for. *)
Definition repr (h : heap) (t : hash_table) (m : gmap bytes bytes) : Prop :=
  exists P, table_inv h t P /\ m = list_to_map P.*2.
End Invariant.

(** ** Items *)

Lemma fst_items xss : (items xss).*1 = (concat xss).*1.
Proof. unfold items. rewrite <- list_fmap_compose. done. Qed.

Lemma INDEX_FOR_range hv k : 0 <= k -> 0 <= INDEX_FOR hv (2 ^ k) < 2 ^ k.
Proof. intros. unfold INDEX_FOR. rewrite land_mask_mod by lia. apply Z.mod_pos_bound. lia. Qed.

Section Proofs.
Context (hash_func : bytes -> Z).

Lemma indexed_push cap xss i xs l d : indexed hash_func cap xss -> xss !! i = Some xs ->
  INDEX_FOR (hash_func (hd_key d)) cap = Z.of_nat i -> indexed hash_func cap (<[i := (l, d) :: xs]> xss).
Proof.
  intros Hi Hx Hd j ys y Hj Hy. rewrite list_lookup_insert in Hj. case_decide as Hij.
  - destruct Hij as [<- Hlt]. injection Hj as <-. apply elem_of_cons in Hy as [->|Hy]; [done|]. by eapply Hi.
  - by eapply Hi.
Qed.

(** The bucket of a key, as a C index and as a list position. *)
Lemma bucket_of (tab : list (option loc)) k key : 0 <= k -> Z.of_nat (length tab) = 2 ^ k ->
  exists i, INDEX_FOR (hash_func key) (2 ^ k) = Z.of_nat i /\ (i < length tab)%nat.
Proof.
  intros Hk Hlen. pose proof (INDEX_FOR_range (hash_func key) k Hk) as Hr.
  exists (Z.to_nat (INDEX_FOR (hash_func key) (2 ^ k))). lia.
Qed.

(** ** Rehashing *)

(** [new]: the new buckets built so far; [old]: the nodes still to move. *)
Record rehashed (h h' : heap) (moved : list node) : Prop := {
  rh_frame : forall l, l ∉ moved.*1 -> cells h' !! l = cells h !! l;
  rh_dom : dom (cells h') = dom (cells h);
  rh_brk : brk h' = brk h;
  rh_oracle : malloc_oracle h' = malloc_oracle h;
  rh_tick : malloc_tick h' = malloc_tick h
}.

Lemma rehashed_refl h : rehashed h h [].
Proof. by split. Qed.

Lemma rehashed_trans h h1 h2 ys zs : rehashed h h1 ys -> rehashed h1 h2 zs -> rehashed h h2 (ys ++ zs).
Proof.
  intros [F1 D1 B1 O1 T1] [F2 D2 B2 O2 T2]. split; [|congruence..].
  intros l. rewrite fmap_app, not_elem_of_app. intros [H1 H2]. by rewrite F2, F1.
Qed.

Lemma rehashed_write h l d d' : cells h !! l = Some d ->
  rehashed h (set_cells h (<[l := d']> (cells h))) [(l, d)].
Proof.
  intros Hl. split; cbn; [|by rewrite dom_insert_lookup_L|done..].
  intros l' Hn. rewrite list_elem_of_singleton in Hn. by rewrite lookup_insert_ne.
Qed.

Lemma rehash_chain_spec fuel k h tab xss cnt p ys :
  0 <= k -> Z.of_nat (length tab) = 2 ^ k ->
  chain (cells h) p ys -> (length ys <= fuel)%nat ->
  Forall2 (chain (cells h)) tab xss -> indexed hash_func (2 ^ k) xss ->
  NoDup ((concat xss).*1 ++ ys.*1) ->
  exists h' tab' xss',
    rehash_chain hash_func fuel (2 ^ k) h tab cnt p = Ret (h', tab', cnt + Z.of_nat (length ys)) /\
    Forall2 (chain (cells h')) tab' xss' /\ length tab' = length tab /\
    indexed hash_func (2 ^ k) xss' /\ items xss' ≡ₚ items xss ++ (item_of <$> ys) /\ rehashed h h' ys.
Proof.
  intros Hk. revert fuel h tab xss cnt p. induction ys as [|[l d] ys IH];
    intros fuel h tab xss cnt p Hlen Hch Hf Htab Hidx Hnd.
  - cbn in Hch. subst p. exists h, tab, xss. rewrite Z.add_0_r, app_nil_r.
    split_and!; first [done | by destruct fuel | apply rehashed_refl].
  - destruct Hch as (-> & Hl & Hch). destruct fuel as [|fuel]; [cbn in Hf; lia|].
    destruct (bucket_of tab k (hd_key d) Hk Hlen) as (i & Hi & Hlt).
    destruct (lookup_lt_is_Some_2 tab i Hlt) as [head Hhead].
    destruct (Forall2_lookup_l _ _ _ _ _ Htab Hhead) as (xs & Hxs & _).
    cbn [fmap list_fmap fst] in Hnd. apply NoDup_app in Hnd as (Hn1 & Hn2 & Hn3).
    apply NoDup_cons in Hn3 as [Hly Hn3].
    assert (l ∉ (concat xss).*1) as Hlx by (intros Hin; apply (Hn2 l Hin); constructor).
    set (d' := set_next d head).
    destruct (IH fuel (set_cells h (<[l := d']> (cells h))) (<[i := Some l]> tab)
                (<[i := (l, d') :: xs]> xss) (cnt + 1) (hd_next d))
      as (h' & tab' & xss' & Hr & Hc' & Hl' & Hi' & Hp' & Hrh).
    { by rewrite length_insert. }
    { by apply chain_insert. }
    { cbn in Hf. lia. }
    { by eapply buckets_push. }
    { by apply indexed_push. }
    { apply (NoDup_Permutation_proper _ (l :: (concat xss).*1 ++ ys.*1)).
      - rewrite (concat_push _ _ _ _ Hxs). done.
      - apply NoDup_cons. split; [by rewrite not_elem_of_app|]. apply NoDup_app. split_and!; [done| |done].
        intros x Hx Hy. apply (Hn2 x Hx). by constructor. }
    exists h', tab', xss'. split_and!; try done.
    + cbn [rehash_chain]. unfold h_read at 1. rewrite Hl. cbn [get_or mbind outcome_bind].
      rewrite Hi, zlookup_nat, Hhead. cbn [get_or mbind outcome_bind]. unfold h_write. rewrite Hl.
      cbn [mbind outcome_bind]. rewrite zinsert_Ret by lia. cbn [mbind outcome_bind].
      rewrite Nat2Z.id. fold d'. rewrite Hr. do 2 f_equal. cbn [length]. lia.
    + by rewrite Hl', length_insert.
    + rewrite Hp'. unfold items at 1. rewrite (concat_push _ _ _ _ Hxs). cbn.
      change (item_of (l, d')) with (item_of (l, d)). by rewrite Permutation_middle.
    + eapply (rehashed_trans _ _ _ [(l, d)] ys); [by apply rehashed_write|done].
Qed.

Lemma rehash_table_spec k h tab xss cnt old oss :
  0 <= k -> Z.of_nat (length tab) = 2 ^ k ->
  Forall2 (chain (cells h)) old oss -> Forall2 (chain (cells h)) tab xss -> indexed hash_func (2 ^ k) xss ->
  NoDup ((concat xss).*1 ++ (concat oss).*1) ->
  exists h' tab' xss',
    rehash_table hash_func (2 ^ k) h tab cnt old = Ret (h', tab', cnt + Z.of_nat (length (concat oss))) /\
    Forall2 (chain (cells h')) tab' xss' /\ length tab' = length tab /\
    indexed hash_func (2 ^ k) xss' /\ items xss' ≡ₚ items xss ++ items oss /\ rehashed h h' (concat oss).
Proof.
  intros Hk Hlen Hold. revert h tab xss cnt Hlen Hold. induction old as [|p old IH] in oss |- *;
    intros h tab xss cnt Hlen Hold Htab Hidx Hnd.
  - apply Forall2_nil_inv_l in Hold as ->. exists h, tab, xss. cbn. rewrite Z.add_0_r, app_nil_r.
    by split_and!.
  - apply Forall2_cons_inv_l in Hold as (ys & oss' & Hch & Hold & ->).
    cbn [concat] in *. rewrite fmap_app in Hnd.
    assert (NoDup ((concat xss).*1 ++ ys.*1)) as Hnd1
      by (rewrite app_assoc in Hnd; by apply NoDup_app in Hnd as [? _]).
    destruct (rehash_chain_spec (size (cells h)) k h tab xss cnt p ys) as (h1 & tab1 & xss1 & Hr & Hc1 & Hl1 & Hi1 & Hp1 & Hrh1);
      try done.
    { apply (chain_length _ _ _ Hch). by apply NoDup_app in Hnd1 as (_ & _ & ?). }
    rewrite app_assoc in Hnd. pose proof Hnd as (_ & Hdis & _)%NoDup_app.
    destruct (IH oss' h1 tab1 xss1 (cnt + Z.of_nat (length ys))) as (h2 & tab2 & xss2 & Hr2 & Hc2 & Hl2 & Hi2 & Hp2 & Hrh2);
      try done.
    { by rewrite Hl1. }
    { apply (Forall2_chain_ext (cells h)); [|done]. intros l Hl. apply (rh_frame _ _ _ Hrh1).
      intros Hy. apply (Hdis l); [|done]. rewrite elem_of_app. by right. }
    { rewrite <- (fst_items xss1), Hp1, fmap_app, fst_items.
      change ((item_of <$> ys).*1) with (fst <$> (item_of <$> ys)). rewrite <- list_fmap_compose. exact Hnd. }
    exists h2, tab2, xss2. split_and!; try done.
    + cbn [rehash_table]. rewrite Hr. cbn [mbind outcome_bind]. rewrite Hr2. do 2 f_equal. rewrite length_app. lia.
    + congruence.
    + rewrite Hp2, Hp1. unfold items. cbn [concat]. rewrite fmap_app. by rewrite app_assoc.
    + by apply (rehashed_trans _ h1).
Qed.

(** ** Searching a chain *)

Lemma bucket_search_spec fuel h pre p ys key : chain (cells h) p ys -> (length ys <= fuel)%nat ->
  bucket_search fuel h pre p key = Ret (search_list pre ys key).
Proof.
  revert fuel pre p. induction ys as [|[l d] ys IH]; intros fuel pre p Hc Hf; cbn in Hc.
  - subst p. by destruct fuel.
  - destruct Hc as (-> & Hl & Hc). destruct fuel as [|fuel]; [cbn in Hf; lia|].
    cbn. unfold h_read. rewrite Hl. cbn. destruct (key_eqb key (hd_key d)); [done|].
    apply IH; [done|cbn in Hf; lia].
Qed.

Lemma bucket_find_spec fuel h p ys key pre : chain (cells h) p ys -> (length ys <= fuel)%nat ->
  _bucket_find_entry fuel h p key = Ret (search_list pre ys key).2.
Proof.
  revert fuel p pre. induction ys as [|[l d] ys IH]; intros fuel p pre Hc Hf; cbn in Hc.
  - subst p. by destruct fuel.
  - destruct Hc as (-> & Hl & Hc). destruct fuel as [|fuel]; [cbn in Hf; lia|].
    cbn. unfold h_read. rewrite Hl. cbn. destruct (key_eqb key (hd_key d)); [done|].
    apply IH; [done|cbn in Hf; lia].
Qed.

Lemma search_list_absent pre ys key : (forall x, x ∈ ys -> hd_key x.2 <> key) -> (search_list pre ys key).2 = None.
Proof.
  revert pre. induction ys as [|[l d] ys IH]; intros pre H; cbn; [done|].
  unfold key_eqb. rewrite bool_decide_false.
  - apply IH. intros x Hx. apply H. by constructor.
  - intros ->. apply (H (l, d)); [constructor|done].
Qed.

Lemma search_list_found pre ys1 l d ys2 : (forall x, x ∈ ys1 -> hd_key x.2 <> hd_key d) ->
  search_list pre (ys1 ++ (l, d) :: ys2) (hd_key d) =
  (match last ys1 with Some x => Some x.1 | None => pre end, Some l).
Proof.
  revert pre. induction ys1 as [|[l1 d1] ys1 IH]; intros pre H; cbn.
  - unfold key_eqb. by rewrite bool_decide_true.
  - unfold key_eqb. rewrite bool_decide_false.
    + rewrite IH; [|intros x Hx; apply H; by constructor]. rewrite last_cons.
      by destruct (last ys1).
    + intros He. apply (H (l1, d1)); [constructor|done].
Qed.

Lemma search_list_Some pre ys key l : (search_list pre ys key).2 = Some l ->
  exists d, (l, d) ∈ ys /\ hd_key d = key.
Proof.
  revert pre. induction ys as [|[l1 d1] ys IH]; intros pre; cbn; [done|].
  unfold key_eqb. case_bool_decide as E.
  - intros [= <-]. exists d1. by split; [constructor|].
  - intros (d & Hd & Hk)%IH. exists d. by split; [constructor|].
Qed.

(** ** The bucket of a key in a well-formed table *)

Record bucket_view (h : heap) (t : hash_table) (P : list item) (key : bytes) (i : nat)
    (head : option loc) (xs : list node) (xss : list (list node)) : Prop := {
  bv_index : INDEX_FOR (hash_func key) (ht_capacity t) = Z.of_nat i;
  bv_head : ht_table t !! i = Some head;
  bv_xs : xss !! i = Some xs;
  bv_buckets : buckets hash_func h (ht_table t) (ht_capacity t) xss P;
  bv_chain : chain (cells h) head xs;
  bv_fuel : (length xs <= S (size (cells h)))%nat;
  bv_sound : forall x, x ∈ xs -> item_of x ∈ P;
  bv_complete : forall it, it ∈ P -> it.2.1 = key -> exists x, x ∈ xs /\ item_of x = it
}.

Lemma table_inv_bucket h t P key : table_inv hash_func h t P ->
  exists i head xs xss, bucket_view h t P key i head xs xss.
Proof.
  intros [ [xss Hb] Hl Hk Hc [k [Hk0 Hcap]] Hlen Hdom Hbrk ].
  rewrite Hcap in Hlen. destruct (bucket_of (ht_table t) k key ltac:(lia) Hlen) as (i & Hi & Hlt).
  destruct (lookup_lt_is_Some_2 _ _ Hlt) as [head Hhead].
  pose proof Hb as (Hf & Hidx & Hp).
  destruct (Forall2_lookup_l _ _ _ _ _ Hf Hhead) as (xs & Hxs & Hch).
  assert (forall x, x ∈ concat xss -> item_of x ∈ P) as Hin.
  { intros x Hx. rewrite <- Hp. apply list_elem_of_fmap. eauto. }
  exists i, head, xs, xss. split; try done.
  - by rewrite Hcap.
  - apply Nat.le_le_succ_r, (chain_length _ _ _ Hch).
    rewrite <- Hp, fst_items, (concat_lookup _ _ _ Hxs), fmap_app in Hl. by apply NoDup_app in Hl as [? _].
  - intros x Hx. apply Hin. by eapply elem_of_concat.
  - intros it Hit Hkey. rewrite <- Hp in Hit. apply list_elem_of_fmap in Hit as (x & -> & Hx).
    exists x. split; [|done]. apply elem_of_concat_inv in Hx as (j & ys & Hj & Hx).
    pose proof (Hidx j ys x Hj Hx) as Hxi.
    change (hd_key x.2) with (item_of x).2.1 in Hxi. rewrite Hkey, Hcap, Hi in Hxi.
    assert (i = j) as -> by lia. congruence.
Qed.

Lemma item_key_inj (P : list item) it it' : NoDup P.*2.*1 -> it ∈ P -> it' ∈ P -> it.2.1 = it'.2.1 -> it = it'.
Proof.
  rewrite <- list_fmap_compose. intros Hn Hi Hi' He.
  apply list_elem_of_lookup in Hi as [i Hi]. apply list_elem_of_lookup in Hi' as [j Hj].
  assert (i = j) as <-; [|congruence].
  eapply (NoDup_lookup _ i j); [done|rewrite list_lookup_fmap, Hi|rewrite list_lookup_fmap, Hj]; [done|].
  cbn. by rewrite He.
Qed.

(** ** Resizing *)

Lemma table_inv_resize h t P : table_inv hash_func h t P ->
  exists h' t' r,
    _hash_table_resize hash_func h t (s32 (u32 (2 * ht_capacity t))) = Ret (h', t', r) /\
    table_inv hash_func h' t' P /\ malloc_oracle h' = malloc_oracle h.
Proof.
  intros Hinv. pose proof Hinv as [ [xss (Hf & Hidx & Hp)] Hl Hk Hc [k [Hk0 Hcap]] Hlen Hdom Hbrk ].
  unfold _hash_table_resize. destruct (h_malloc h) as [ok h1] eqn:Hm.
  assert (cells h1 = cells h /\ brk h1 = brk h /\ malloc_oracle h1 = malloc_oracle h) as (Hc1 & Hb1 & Ho1)
    by (unfold h_malloc in Hm; by injection Hm as _ <-).
  assert (table_inv hash_func h1 t P) as Hinv1.
  { split; try done; rewrite ?Hc1, ?Hb1; try done; eauto.
    exists xss. split_and!; [by rewrite Hc1|done..]. }
  destruct ok; cbn [negb orb]; [|by eauto 10].
  destruct (decide (k = 30)) as [->|Hk30].
  { rewrite Hcap. cbn. eauto 10. }
  assert (s32 (u32 (2 * ht_capacity t)) = 2 ^ (k + 1)) as ->.
  { rewrite Hcap, <- Z.pow_succ_r by lia.
    assert (0 < 2 ^ Z.succ k <= 2 ^ 30) by (split; [apply Z.pow_pos_nonneg; lia|apply Z.pow_le_mono_r; lia]).
    rewrite u_wrap_id, s_wrap_id; unfold is_u, is_s; lia. }
  pose proof (Z.pow_pos_nonneg 2 (k + 1) ltac:(lia) ltac:(lia)) as Hpos.
  zcase (2 ^ (k + 1) <? 0); [lia|].
  set (n := Z.to_nat (2 ^ (k + 1))).
  destruct (rehash_table_spec (k + 1) h1 (replicate n None) (replicate n []) 0 (ht_table t) xss)
    as (h2 & tab2 & xss2 & Hr & Hc2 & Hl2 & Hi2 & Hp2 & Hrh).
  { lia. }
  { rewrite length_replicate. lia. }
  { by rewrite Hc1. }
  { apply Forall2_replicate. done. }
  { intros i xs x Hx. apply lookup_replicate in Hx as [-> _]. by intros ?%not_elem_of_nil. }
  { rewrite concat_replicate_nil. cbn. by rewrite <- fst_items, Hp. }
  rewrite Hr. cbn [mbind outcome_bind]. do 3 eexists. split; [done|]. destruct Hrh as [Fr Dr Br Or Tr].
  unfold items at 2 in Hp2. rewrite concat_replicate_nil in Hp2. cbn in Hp2. rewrite Hp in Hp2. split; [|congruence]. split; cbn; try done.
  - exists xss2. split_and!; try done.
  - apply Permutation_length in Hp. unfold items in Hp. rewrite length_fmap in Hp. lia.
  - exists (k + 1). split; [lia|done].
  - rewrite Hl2, length_replicate. lia.
  - by rewrite Dr, Hc1.
  - intros l. rewrite Dr, Br, Hc1, Hb1. apply Hbrk.
Qed.

(** ** The dictionary *)

Lemma repr_lookup h t (P : list item) key v : table_inv hash_func h t P ->
  (list_to_map P.*2 : gmap bytes bytes) !! key = Some v <-> exists l, (l, (key, v)) ∈ P.
Proof.
  intros Hinv. rewrite <- elem_of_list_to_map by (apply (ti_keys _ _ _ _ Hinv)).
  rewrite list_elem_of_fmap. split.
  - intros ([l kv] & -> & Hin). by exists l.
  - intros [l Hin]. by exists (l, (key, v)).
Qed.

Lemma repr_absent h t (P : list item) key : table_inv hash_func h t P ->
  (list_to_map P.*2 : gmap bytes bytes) !! key = None -> forall it, it ∈ P -> it.2.1 <> key.
Proof.
  intros Hinv Hn [l [k v]] Hit Hk. cbn in Hk. subst k.
  assert ((list_to_map P.*2 : gmap bytes bytes) !! key = Some v) by (apply (repr_lookup h t P); eauto).
  congruence.
Qed.

Lemma table_inv_heap h h' t P : cells h' = cells h -> brk h' = brk h ->
  table_inv hash_func h t P -> table_inv hash_func h' t P.
Proof.
  intros Hc Hb [Hbk Hl Hk Hn Hcap Hlen Hdom Hbrk]. split; rewrite ?Hc, ?Hb; try done.
  destruct Hbk as (xss & ? & ? & ?). exists xss. by split_and!; rewrite ?Hc.
Qed.

(** Linking a fresh node at the head of the bucket of a key that is not in
    the table. *)
Lemma table_inv_push h t P key value i head xs xss :
  table_inv hash_func h t P -> bucket_view h t P key i head xs xss ->
  (forall it, it ∈ P -> it.2.1 <> key) ->
  table_inv hash_func
    (mk_heap (<[brk h := mk_hash_data key value (hash_func key) head]> (cells h)) (S (brk h))
       (malloc_oracle h) (malloc_tick h))
    (mk_hash_table (<[i := Some (brk h)]> (ht_table t)) (ht_item_count t + 1) (ht_capacity t)
       (ht_load_factor t) (ht_threshold t))
    ((brk h, (key, value)) :: P).
Proof.
  intros [_ Hl Hk Hn Hcap Hlen Hdom Hbrk] [Hi Hh Hx (Hf & Hidx & Hp) Hch _ _ _] Habs.
  assert (brk h ∉ P.*1) as Hfresh.
  { intros Hin. assert (brk h ∈ dom (cells h)) as Hd by (rewrite Hdom; by apply elem_of_list_to_set).
    specialize (Hbrk _ Hd). lia. }
  set (d := mk_hash_data key value (hash_func key) head).
  split; cbn.
  - exists (<[i := (brk h, d) :: xs]> xss). split_and!.
    + apply (buckets_push (cells h) (ht_table t) xss i (brk h) d head xs); try done.
      by rewrite <- fst_items, Hp.
    + by apply indexed_push.
    + unfold items in *. rewrite (concat_push _ _ _ _ Hx). cbn. by rewrite Hp.
  - apply NoDup_cons. by split.
  - apply NoDup_cons. split; [|done]. rewrite <- list_fmap_compose.
    intros (it & He & Hit)%list_elem_of_fmap. by apply (Habs it Hit).
  - lia.
  - done.
  - by rewrite length_insert.
  - rewrite dom_insert_L, Hdom. done.
  - intros l. rewrite dom_insert_L, elem_of_union, elem_of_singleton. intros [->|Hd]; [lia|].
    specialize (Hbrk _ Hd). lia.
Qed.

(** Unlinking the first node of a bucket. *)
Lemma table_inv_pop h t P l d i xs xss :
  table_inv hash_func h t P ->
  bucket_view h t P (hd_key d) i (Some l) ((l, d) :: xs) xss ->
  exists P', P ≡ₚ item_of (l, d) :: P' /\
  table_inv hash_func (set_cells h (delete l (cells h)))
    (mk_hash_table (<[i := hd_next d]> (ht_table t)) (ht_item_count t - 1) (ht_capacity t)
       (ht_load_factor t) (ht_threshold t)) P'.
Proof.
  intros [_ Hl Hk Hn Hcap Hlen Hdom Hbrk] [Hi Hh Hx (Hf & Hidx & Hp) Hch _ _ _].
  pose proof (concat_lookup _ _ _ Hx) as Hcat. cbn in Hch. destruct Hch as (_ & Hcl & Hch).
  set (rest := concat (take i xss ++ drop (S i) xss)) in *.
  exists (item_of <$> xs ++ rest).
  assert (P ≡ₚ item_of (l, d) :: (item_of <$> xs ++ rest)) as HP by (rewrite <- Hp; unfold items; by rewrite Hcat).
  split; [done|]. rewrite HP in Hl, Hk. cbn in Hl, Hk.
  apply NoDup_cons in Hl as [Hl1 Hl]. apply NoDup_cons in Hk as [_ Hk].
  assert (l ∉ (xs ++ rest).*1) as Hlr.
  { intros Hin. apply Hl1. change ((item_of <$> xs ++ rest).*1) with (fst <$> (item_of <$> xs ++ rest)).
    by rewrite <- list_fmap_compose. }
  assert (items (<[i := xs]> xss) ≡ₚ item_of <$> xs ++ rest) as Hit
    by (unfold items; by rewrite (concat_insert _ _ _ _ Hx)).
  split; cbn; try done.
  - exists (<[i := xs]> xss). split_and!; [by apply buckets_pop| |done].
    + intros j ys y Hj Hy. rewrite list_lookup_insert in Hj. case_decide as Hc.
      * destruct Hc as [<- _]. injection Hj as <-. eapply Hidx; [done|]. by constructor.
      * by eapply Hidx.
  - apply Permutation_length in HP. cbn in HP. lia.
  - by rewrite length_insert.
  - rewrite dom_delete_L, Hdom. 
    assert (list_to_set P.*1 =@{gset loc} {[l]} ∪ list_to_set (item_of <$> xs ++ rest).*1) as ->.
    { apply set_eq. intros l'. rewrite elem_of_union, elem_of_singleton, !elem_of_list_to_set, HP.
      cbn. apply elem_of_cons. }
    apply set_eq. intros l'. rewrite elem_of_difference, elem_of_union, elem_of_singleton, elem_of_list_to_set.
    split; [tauto|]. intros Hin. split; [by right|]. intros ->. done.
  - intros l'. rewrite dom_delete_L, elem_of_difference. intros [? _]. by apply Hbrk.
Qed.

(** ** Looking up *)

Lemma get_spec h t P key : table_inv hash_func h t P ->
  exists r, hash_table_get hash_func h t key = Ret r /\
    match r with
    | Some l => exists d, cells h !! l = Some d /\ hd_key d = key /\ item_of (l, d) ∈ P
    | None => forall it, it ∈ P -> it.2.1 <> key
    end.
Proof.
  intros Hinv. destruct (table_inv_bucket _ _ _ key Hinv) as (i & head & xs & xss & [Hi Hh Hx _ Hch Hfuel Hs Hcm]).
  unfold hash_table_get. rewrite Hi, zlookup_nat, Hh. cbn [get_or mbind outcome_bind].
  rewrite (bucket_find_spec _ _ _ _ _ None Hch Hfuel). eexists. split; [done|].
  destruct ((search_list None xs key).2) as [l|] eqn:Hsl.
  - apply search_list_Some in Hsl as (d & Hd & Hkd). exists d.
    pose proof (chain_lookup _ _ _ _ Hch Hd). by split_and!; [| |apply Hs].
  - intros it Hit Hk. destruct (Hcm it Hit Hk) as (x & Hx1 & <-).
    assert (forall ys pre, x ∈ ys -> (search_list pre ys key).2 <> None) as Hne; [|by apply (Hne xs None)].
    clear -Hk. induction ys as [|[l d] ys IH]; intros pre Hin; [by apply not_elem_of_nil in Hin|].
    cbn. unfold key_eqb. case_bool_decide as E; [done|].
    apply elem_of_cons in Hin as [->|Hin]; [by cbn in Hk|by apply IH].
Qed.

(** ** Adding a key that is not in the table *)

(** A failed allocation: the table is as before. *)
Ltac add_fails h :=
  do 3 eexists; split; [reflexivity|]; split; [reflexivity|]; right; split_and!;
  [by compute | by eapply (table_inv_heap h) | by eauto].

Lemma bucket_add_absent h t P key value i :
  table_inv hash_func h t P -> INDEX_FOR (hash_func key) (ht_capacity t) = i ->
  (forall it, it ∈ P -> it.2.1 <> key) ->
  exists h' t' r, _bucket_add_entry hash_func h t i key value = Ret (h', t', r) /\
    malloc_oracle h' = malloc_oracle h /\
    ((r = 0 /\ exists l, table_inv hash_func h' t' ((l, (key, value)) :: P)) \/
     (r <> 0 /\ table_inv hash_func h' t' P /\ exists n, malloc_oracle h n = false)).
Proof.
  intros Hinv <- Habs.
  destruct (table_inv_bucket _ _ _ key Hinv) as (i & head & xs & xss & Hv).
  pose proof Hv as [Hi Hh Hx _ Hch Hfuel Hs _].
  assert ((search_list None xs key).2 = None) as Hsl.
  { apply search_list_absent. intros x Hin. exact (Habs _ (Hs x Hin)). }
  unfold _bucket_add_entry. rewrite Hi, zlookup_nat, Hh. cbn [get_or mbind outcome_bind].
  rewrite (bucket_search_spec _ _ _ _ _ _ Hch Hfuel). cbn [mbind outcome_bind].
  destruct (search_list None xs key) as [pre b]. cbn in Hsl. subst b.
  unfold h_malloc. cbn [mbind outcome_bind malloc_oracle malloc_tick cells brk].
  set (n := malloc_tick h). set (o := malloc_oracle h).
  destruct (o n) eqn:E1; [|add_fails h].
  destruct (o (S n)) eqn:E2; [|add_fails h].
  destruct (o (S (S n))) eqn:E3; [|add_fails h].
  cbn [negb]. rewrite ?zlookup_nat, Hh. cbn [get_or mbind outcome_bind h_new brk cells malloc_oracle malloc_tick].
  rewrite zinsert_Ret by (apply lookup_lt_Some in Hh; lia). rewrite Nat2Z.id. cbn [mbind outcome_bind].
  do 3 eexists. split; [done|]. split; [done|]. left. split; [done|]. exists (brk h).
  eapply table_inv_heap; [| |by apply (table_inv_push h t P key value i head xs xss)]; done.
Qed.
End Proofs.

(** ** Theorems *)

Section Theorems.
Context (hash_func : bytes -> Z).

Lemma grow_capacity_spec fuel k target : 0 <= k -> 0 < target <= 2 ^ 30 -> (k = 0 \/ 2 ^ (k - 1) < target) ->
  k + Z.of_nat fuel = 31 ->
  exists k', 0 <= k' <= 30 /\ grow_capacity fuel (2 ^ k) target = Ret (2 ^ k') /\
    target <= 2 ^ k' /\ (k' = 0 \/ 2 ^ (k' - 1) < target).
Proof.
  revert k. induction fuel as [|fuel IH]; intros k Hk Ht Hm Hf; cbn.
  - exfalso. assert (k = 31) as -> by lia. destruct Hm; lia.
  - assert (k <= 30) as Hk30 by lia. zcase (2 ^ k <? target).
    + assert (k < 30) by (apply (Z.pow_lt_mono_r_iff 2); lia).
      assert (s32 (Z.shiftl (2 ^ k) 1) = 2 ^ (k + 1)) as ->.
      { rewrite Z.shiftl_mul_pow2, <- Z.pow_add_r by lia.
        assert (0 < 2 ^ (k + 1) <= 2 ^ 30) by (split; [apply Z.pow_pos_nonneg; lia|apply Z.pow_le_mono_r; lia]).
        apply s_wrap_id; unfold is_s; lia. }
      apply IH; try lia. right. by replace (k + 1 - 1) with k by lia.
    + exists k. split_and!; first [lia|done].
Qed.

Lemma bucket_NoDup h t P key i head xs xss :
  table_inv hash_func h t P -> bucket_view hash_func h t P key i head xs xss ->
  NoDup (item_of <$> xs).*2.*1 /\ NoDup xs.*1.
Proof.
  intros Hinv [_ _ Hx (_ & _ & Hp) _ _ _ _].
  pose proof (ti_keys _ _ _ _ Hinv) as Hn. pose proof (ti_locs _ _ _ _ Hinv) as Hn'.
  rewrite <- Hp in Hn, Hn'. rewrite fst_items in Hn'. unfold items in Hn.
  rewrite (concat_lookup _ _ _ Hx), !fmap_app in Hn. rewrite (concat_lookup _ _ _ Hx), fmap_app in Hn'.
  apply NoDup_app in Hn as [Hn _]. by apply NoDup_app in Hn' as [Hn' _].
Qed.

(** A search that runs into a freed node. *)
Lemma find_dangling h h' p ys l d zs fuel key : chain (cells h) p (ys ++ (l, d) :: zs) ->
  cells h' !! l = None -> (forall l', l' ∈ ys.*1 -> cells h' !! l' = cells h !! l') ->
  (forall x, x ∈ ys -> hd_key x.2 <> key) -> (length ys < fuel)%nat ->
  _bucket_find_entry fuel h' p key = Crash UseAfterFree.
Proof.
  intros Hch Hl He Hk Hf. revert fuel p Hch Hf. induction ys as [|[ly dy] ys IH]; intros fuel p Hch Hf;
    (destruct fuel as [|fuel]; [cbn in Hf; lia|]); destruct Hch as (-> & Hy & Hch); cbn; unfold h_read.
  - by rewrite Hl.
  - rewrite He by constructor. rewrite Hy. cbn. unfold key_eqb.
    rewrite bool_decide_false by (intros ->; apply (Hk (ly, dy)); [constructor|done]).
    apply IH; [| |done|cbn in Hf; lia].
    + intros l' Hl'. apply He. by constructor.
    + intros x Hx. apply Hk. by constructor.
Qed.

Lemma free_chain_spec fuel h p ys : chain (cells h) p ys -> NoDup ys.*1 -> (length ys <= fuel)%nat ->
  exists h', free_chain fuel h p = Ret h' /\
    forall l, cells h' !! l = if decide (l ∈ ys.*1) then None else cells h !! l.
Proof.
  revert fuel h p. induction ys as [|[l d] ys IH]; intros fuel h p Hc Hn Hf; cbn in Hc.
  - subst p. exists h. split; [by destruct fuel|]. intros l. by rewrite decide_False by (by intros ?%not_elem_of_nil).
  - destruct Hc as (-> & Hl & Hc). destruct fuel as [|fuel]; [cbn in Hf; lia|].
    cbn in Hn. apply NoDup_cons in Hn as [Hn1 Hn].
    destruct (IH fuel (set_cells h (delete l (cells h))) (hd_next d)) as (h' & Hr & Hq);
      [by apply chain_delete|done|cbn in Hf; lia|].
    exists h'. split.
    + cbn. unfold h_read. rewrite Hl. cbn. unfold h_free. by rewrite Hl.
    + intros l'. rewrite Hq. cbn [set_cells cells fmap list_fmap fst].
      destruct (decide (l = l')) as [->|Hne].
      * rewrite lookup_delete_eq. by rewrite (decide_True (P := l' ∈ l' :: ys.*1)) by constructor; case_decide.
      * rewrite lookup_delete_ne by done. apply decide_ext. rewrite elem_of_cons. naive_solver.
Qed.

Lemma free_table_spec h tab xss : Forall2 (chain (cells h)) tab xss -> NoDup (concat xss).*1 ->
  exists h', hash_table_free h tab = Ret h' /\
    forall l, cells h' !! l = if decide (l ∈ (concat xss).*1) then None else cells h !! l.
Proof.
  intros Hf. remember (cells h) as c eqn:Hc. revert h c Hc Hf. induction tab as [|p tab IH] in xss |- *;
    intros h c -> Hf Hn.
  - apply Forall2_nil_inv_l in Hf as ->. exists h. split; [done|]. intros l.
    by rewrite decide_False by (by intros ?%not_elem_of_nil).
  - apply Forall2_cons_inv_l in Hf as (ys & xss' & Hch & Hf & ->). cbn [concat] in *.
    rewrite fmap_app in Hn |- *. apply NoDup_app in Hn as (Hn1 & Hd & Hn2).
    destruct (free_chain_spec (size (cells h)) h p ys) as (h1 & Hr1 & Hc1); [done..|by eapply chain_length|].
    destruct (IH xss' h1 (cells h1)) as (h2 & Hr2 & Hc2); [done| |done|].
    { apply (Forall2_chain_ext (cells h)); [|done]. intros l Hl. rewrite Hc1, decide_False; [done|].
      intros Hy. by apply (Hd l). }
    exists h2. split; [cbn; rewrite Hr1; exact Hr2|]. intros l. rewrite Hc2, Hc1.
    repeat case_decide; try done; exfalso; rewrite elem_of_app in *; tauto.
Qed.

Lemma walk_chain_spec fuel h p ys : chain (cells h) p ys -> (length ys <= fuel)%nat -> walk_chain fuel h p = Ret ys.*1.
Proof.
  revert fuel p. induction ys as [|[l d] ys IH]; intros fuel p Hc Hf; cbn in Hc; [subst p; by destruct fuel|].
  destruct Hc as (-> & Hl & Hc). destruct fuel as [|fuel]; [cbn in Hf; lia|]. cbn [walk_chain]. unfold h_read. rewrite Hl.
  cbn [get_or mbind outcome_bind]. rewrite IH by (done || cbn in Hf; lia). done.
Qed.

(** A walk visits every entry once, bucket by bucket. *)
Lemma hash_table_walk_spec h tab xss : Forall2 (chain (cells h)) tab xss -> NoDup (concat xss).*1 ->
  hash_table_walk h tab = Ret (concat xss).*1.
Proof.
  induction 1 as [|p ys tab xss Hc _ IH]; intros Hn; [done|]. cbn [concat] in *. rewrite fmap_app in *.
  apply NoDup_app in Hn as (Hn1 & _ & Hn2). cbn [hash_table_walk].
  rewrite (walk_chain_spec _ h p ys Hc) by (by eapply chain_length). cbn [mbind outcome_bind]. by rewrite IH.
Qed.

Lemma replicate_inv h k lf th : 0 <= k <= 30 -> cells h = ∅ ->
  table_inv hash_func h (mk_hash_table (replicate (Z.to_nat (2 ^ k)) None) 0 (2 ^ k) lf th) [].
Proof.
  intros Hk Hc. pose proof (Z.pow_pos_nonneg 2 k ltac:(lia) ltac:(lia)).
  split; cbn; rewrite ?Hc; try done; try apply NoDup_nil; eauto.
  - exists (replicate (Z.to_nat (2 ^ k)) []). split_and!.
    + by apply Forall2_replicate.
    + intros j xs x [-> _]%lookup_replicate. by intros ?%not_elem_of_nil.
    + unfold items. by rewrite concat_replicate_nil.
  - rewrite length_replicate. lia.
Qed.

Lemma init_repr h init_capacity lf :
  is_s 32 init_capacity -> cells h = ∅ ->
  exists h' r, hash_table_init h init_capacity lf = Ret (h', r) /\ malloc_oracle h' = malloc_oracle h /\
    match r with
    | inl e => (e = EINVAL /\ (init_capacity < 0 \/ dbl_num lf < 0)) \/
               (e = ENOMEM /\ malloc_oracle h (malloc_tick h) = false)
    | inr t => repr hash_func h' t ∅ /\
        let target := if init_capacity =? 0 then DEFAULT_INITIAL_CAPACITY
                      else Z.min init_capacity MAXINUM_CAPACITY in
        target <= ht_capacity t /\ (ht_capacity t = 1 \/ ht_capacity t < 2 * target)
    end.
Proof.
  intros Hs Hc. unfold hash_table_init. zcase (init_capacity <? 0); [by eexists h, _; split; [done|]; split; [done|]; left; auto|].
  zcase (dbl_num lf <? 0); [by eexists h, _; split; [done|]; split; [done|]; left; auto|].
  set (tg := if init_capacity =? 0 then _ else _).
  assert (tg = (if init_capacity =? 0 then DEFAULT_INITIAL_CAPACITY else Z.min init_capacity MAXINUM_CAPACITY)
          /\ 0 < tg <= 2 ^ 30) as [Htg Hr].
  { unfold tg, MAXINUM_CAPACITY, DEFAULT_INITIAL_CAPACITY. zcase (init_capacity =? 0); [done|].
    zcase (2 ^ 30 <? init_capacity); lia. }
  rewrite <- Htg. clearbody tg.
  destruct (grow_capacity_spec 31 0 tg) as (k & Hk & Hg & Hle & Hmin); [lia|lia|by left|done|].
  change (2 ^ 0) with 1 in Hg. rewrite Hg. cbn [mbind outcome_bind]. unfold h_malloc.
  destruct (malloc_oracle h (malloc_tick h)) eqn:Em; cbn [negb]; [|by do 2 eexists; split; [done|]; split; [done|]; right].
  do 2 eexists. split; [done|]. split; [done|]. split; [exists []; split; [by apply replicate_inv|done]|].
  cbn. split; [lia|]. destruct (decide (k = 0)) as [->|Hk0]; [by left|right].
  rewrite (pow2_half k) by lia. lia.
Qed.

(** [hash_table_init] on any [int] capacity: it never loops past the
    capacity bound, an argument error or a failed allocation is reported, and
    otherwise the table stands for the empty dictionary and has the least
    power of two of buckets that is at least the requested number (16 when 0
    is requested, and at most [MAXINUM_CAPACITY]). *)
Theorem hash_table_init_spec h init_capacity lf :
  is_s 32 init_capacity -> cells h = ∅ ->
  exists h' r, hash_table_init h init_capacity lf = Ret (h', r) /\
    match r with
    | inl e => (e = EINVAL /\ (init_capacity < 0 \/ dbl_num lf < 0)) \/
               (e = ENOMEM /\ malloc_oracle h (malloc_tick h) = false)
    | inr t => repr hash_func h' t ∅ /\
        let target := if init_capacity =? 0 then DEFAULT_INITIAL_CAPACITY
                      else Z.min init_capacity MAXINUM_CAPACITY in
        target <= ht_capacity t /\ (ht_capacity t = 1 \/ ht_capacity t < 2 * target)
    end.
Proof.
  intros Hs Hc. destruct (init_repr h init_capacity lf Hs Hc) as (h' & r & He & _ & Hr). by exists h', r.
Qed.

Lemma get_repr h t m key : repr hash_func h t m ->
  exists r, hash_table_get hash_func h t key = Ret r /\
    (hd_value <$> (r ≫= fun l => cells h !! l)) = m !! key.
Proof.
  intros (P & Hinv & ->). destruct (get_spec _ _ _ _ key Hinv) as (r & Hr & Hcase). exists r. split; [done|].
  destruct r as [l|]; cbn.
  - destruct Hcase as (d & Hd & <- & Hin). rewrite Hd. cbn. symmetry. apply (repr_lookup hash_func h t P _ _ Hinv).
    by exists l.
  - symmetry. apply not_elem_of_list_to_map. rewrite <- list_fmap_compose.
    intros (it & He & Hit)%list_elem_of_fmap. by apply (Hcase it Hit).
Qed.

(** [hash_table_get] is the lookup of the dictionary the table stands
    for: it ends, never touches freed memory, and returns a node with the key
    and its value exactly when the key is there. *)
Theorem hash_table_get_spec h t m key : repr hash_func h t m ->
  exists r, hash_table_get hash_func h t key = Ret r /\
    (hd_value <$> (r ≫= fun l => cells h !! l)) = m !! key.
Proof. apply get_repr. Qed.

Lemma put_repr h t m key value : repr hash_func h t m -> m !! key = None ->
  exists h' t' r, hash_table_put hash_func h t key value = Ret (h', t', r) /\
    malloc_oracle h' = malloc_oracle h /\
    ((r = LFS_OK /\ repr hash_func h' t' (<[key := value]> m)) \/
     (r = LFS_ERROR /\ repr hash_func h' t' m /\ exists n, malloc_oracle h n = false)).
Proof.
  intros (P & Hinv & ->) Hno. unfold hash_table_put.
  set (pre := if ht_threshold t <=? ht_item_count t then _ else _).
  assert (exists h1 t1, pre = Ret (h1, t1) /\ table_inv hash_func h1 t1 P /\ malloc_oracle h1 = malloc_oracle h)
    as (h1 & t1 & -> & Hinv1 & Ho).
  { unfold pre. destruct (ht_threshold t <=? ht_item_count t); [|by eauto].
    destruct (table_inv_resize _ _ _ _ Hinv) as (h1 & t1 & r & -> & ? & ?). by eauto. }
  cbn [mbind outcome_bind].
  destruct (bucket_add_absent hash_func h1 t1 P key value _ Hinv1 eq_refl (repr_absent _ _ _ _ _ Hinv Hno))
    as (h2 & t2 & r & -> & Ho2 & Hcase). cbn [mbind outcome_bind]. do 3 eexists. split; [done|].
  split; [congruence|].
  destruct Hcase as [ [-> [l Hinv2]] | (Hr & Hinv2 & n & Hn) ].
  - left. split; [done|]. eexists. split; [done|]. done.
  - right. zcase (r =? 0); [done|]. split_and!; [done|by eexists|exists n; congruence].
Qed.

(** C27. [hash_table_put] of a key that is not in the table, the resize it may
    do included: it inserts the pair and returns [LFS_OK], or an allocation
    failed, it returns [LFS_ERROR] and the dictionary is unchanged. *)
Theorem hash_table_put_spec h t m key value : repr hash_func h t m -> m !! key = None ->
  exists h' t' r, hash_table_put hash_func h t key value = Ret (h', t', r) /\
    ((r = LFS_OK /\ repr hash_func h' t' (<[key := value]> m)) \/
     (r = LFS_ERROR /\ repr hash_func h' t' m /\ exists n, malloc_oracle h n = false)).
Proof.
  intros Hr Hno. destruct (put_repr h t m key value Hr Hno) as (h' & t' & r & He & _ & Hc). by exists h', t', r.
Qed.

(** [hash_table_delete] of a key whose node is the first of its bucket
    removes exactly that key; of a key that is not in the table it returns
    [LFS_ERROR] and changes nothing. *)
Theorem hash_table_delete_spec h t m key : repr hash_func h t m ->
  (forall i l, INDEX_FOR (hash_func key) (ht_capacity t) = Z.of_nat i -> ht_table t !! i = Some (Some l) ->
     (hd_key <$> cells h !! l) = Some key \/ m !! key = None) ->
  exists h' t' r, hash_table_delete hash_func h t key = Ret (h', t', r) /\
    r = (if decide (is_Some (m !! key)) then LFS_OK else LFS_ERROR) /\ repr hash_func h' t' (delete key m).
Proof.
  intros (P & Hinv & ->) Hfst.
  destruct (table_inv_bucket _ _ _ _ key Hinv) as (i & head & xs & xss & Hv).
  pose proof Hv as [Hi Hh Hx _ Hch Hfuel Hs Hcm].
  unfold hash_table_delete. rewrite Hi, zlookup_nat, Hh. cbn [get_or mbind outcome_bind].
  rewrite (bucket_search_spec _ _ _ _ _ _ Hch Hfuel). cbn [mbind outcome_bind].
  case_decide as Hk.
  - destruct Hk as [v Hk]. pose proof Hk as [l0 Hin]%(repr_lookup _ _ _ _ _ _ Hinv).
    destruct (Hcm _ Hin eq_refl) as (x & Hxin & _).
    destruct xs as [|[l d] xs]; [by apply not_elem_of_nil in Hxin|].
    cbn in Hch. destruct Hch as (-> & Hl & Hch).
    destruct (Hfst i l Hi Hh) as [Hkey|Hkey]; [|congruence]. rewrite Hl in Hkey. injection Hkey as Hkey. subst key.
    assert (search_list None ((l, d) :: xs) (hd_key d) = (None, Some l)) as ->
      by (apply (search_list_found None []); by intros y ?%not_elem_of_nil).
    cbn [mbind outcome_bind].
    unfold DELETE_NODE_FROM_HASHTABLE, h_read, h_free. rewrite Hl. cbn [get_or mbind outcome_bind].
    rewrite zinsert_Ret by (apply lookup_lt_Some in Hh; lia). rewrite Nat2Z.id. cbn [mbind outcome_bind].
    destruct (table_inv_pop hash_func h t P l d i xs xss Hinv Hv) as (P' & HP & Hinv').
    do 3 eexists. split_and!; [done..|]. exists P'. split; [done|].
    pose proof (ti_keys _ _ _ _ Hinv) as Hnd.
    rewrite (list_to_map_proper P.*2 _ Hnd (fmap_Permutation snd _ _ HP)). rewrite HP in Hnd.
    cbn in *. apply NoDup_cons in Hnd as [Hnk _]. rewrite delete_insert_eq. apply delete_id.
    by apply not_elem_of_list_to_map.
  - assert ((list_to_map P.*2 : gmap bytes bytes) !! key = None) as Hno by (by apply eq_None_not_Some).
    pose proof (search_list_absent None xs key) as Hsl. destruct (search_list None xs key) as [pre b].
    cbn in Hsl. rewrite Hsl by (intros x Hin; exact (repr_absent _ _ _ _ _ Hinv Hno _ (Hs x Hin))).
    do 3 eexists. split_and!; [done..|]. rewrite delete_id by done. by exists P.
Qed.

(** Deleting a key whose node is not the first of its bucket: the call
    returns [LFS_OK], but the predecessor still links to the freed node, so
    that the next lookup of that key reads freed memory. *)
Theorem hash_table_delete_inner_dangling h t m key v i l :
  repr hash_func h t m -> m !! key = Some v ->
  INDEX_FOR (hash_func key) (ht_capacity t) = Z.of_nat i -> ht_table t !! i = Some (Some l) ->
  (hd_key <$> cells h !! l) <> Some key ->
  exists h' t', hash_table_delete hash_func h t key = Ret (h', t', LFS_OK) /\
    hash_table_get hash_func h' t' key = Crash UseAfterFree.
Proof.
  intros (P & Hinv & ->) Hk Hi0 Hh0 Hne.
  destruct (table_inv_bucket _ _ _ _ key Hinv) as (j & head & xs & xss & Hv).
  pose proof Hv as [Hi Hh Hx _ Hch Hfuel Hs Hcm]. assert (j = i) as -> by lia.
  rewrite Hh in Hh0. injection Hh0 as ->.
  pose proof Hk as [l0 Hin]%(repr_lookup _ _ _ _ _ _ Hinv).
  destruct (Hcm _ Hin eq_refl) as ([l1 d] & Hxin & Hit). cbn in Hit. injection Hit as <- Hkd _.
  apply list_elem_of_split in Hxin as (ys & zs & ->). subst key.
  pose proof (bucket_NoDup _ _ _ _ _ _ _ _ Hinv Hv) as [Hnk Hnl].
  assert (forall x, x ∈ ys -> hd_key x.2 <> hd_key d) as Hys.
  { intros x Hxy He. rewrite !fmap_app in Hnk. apply NoDup_app in Hnk as (_ & Hd & _).
    apply (Hd (hd_key d)); [|constructor]. rewrite <- He. rewrite <- !list_fmap_compose.
    apply list_elem_of_fmap. by exists x. }
  destruct ys as [|[ly dy] ys].
  { cbn in Hch. destruct Hch as ([= ->] & Hl & _). by rewrite Hl in Hne. }
  assert (exists q, (search_list None (((ly, dy) :: ys) ++ (l1, d) :: zs) (hd_key d)) = (Some q, Some l1)) as [q Hq].
  { rewrite search_list_found by done. destruct (last ((ly, dy) :: ys)) eqn:E; [by eexists|].
    apply last_None in E. done. }
  unfold hash_table_delete. rewrite Hi, zlookup_nat, Hh. cbn [get_or mbind outcome_bind].
  rewrite (bucket_search_spec _ _ _ _ _ _ Hch Hfuel), Hq. cbn [mbind outcome_bind].
  pose proof (chain_lookup _ _ _ (l1, d) Hch) as Hl1. cbn [fst snd] in Hl1.
  specialize (Hl1 ltac:(apply elem_of_app; right; constructor)).
  unfold DELETE_NODE_FROM_HASHTABLE, h_read, h_free. rewrite Hl1. cbn [get_or mbind outcome_bind].
  do 2 eexists. split; [done|].
  unfold hash_table_get. cbn [ht_table ht_capacity set_cells cells]. rewrite Hi, zlookup_nat, Hh.
  cbn [get_or mbind outcome_bind].
  apply (find_dangling h _ _ ((ly, dy) :: ys) l1 d zs); cbn [cells set_cells]; try done.
  - by rewrite lookup_delete_eq.
  - intros l' Hl'. rewrite lookup_delete_ne; [done|]. intros <-.
    rewrite fmap_app in Hnl. apply NoDup_app in Hnl as (_ & Hd & _). apply (Hd l1 Hl'). constructor.
  - assert (l1 ∈ dom (cells h)) as Hdom by (by apply elem_of_dom).
    pose proof (chain_length _ _ _ Hch Hnl) as Hsz.
    rewrite map_size_delete, Hl1. rewrite length_app in Hsz. cbn in *. lia.
Qed.

Lemma free_repr h t m : repr hash_func h t m ->
  exists h', hash_table_free h (ht_table t) = Ret h' /\ cells h' = ∅.
Proof.
  intros (P & [ [xss (Hf & _ & Hp)] Hl _ _ _ _ Hdom _ ] & _).
  destruct (free_table_spec h (ht_table t) xss) as (h' & Hr & Hc); [done|by rewrite <- fst_items, Hp|].
  exists h'. split; [done|]. apply map_eq. intros l. rewrite Hc, lookup_empty. case_decide as Hin; [done|].
  apply not_elem_of_dom. rewrite Hdom, <- Hp, fst_items. by rewrite elem_of_list_to_set.
Qed.
(** [hash_table_free] ends without touching freed memory and releases
    every node. *)
Theorem hash_table_free_spec h t m : repr hash_func h t m ->
  exists h', hash_table_free h (ht_table t) = Ret h' /\ cells h' = ∅.
Proof. apply free_repr. Qed.
End Theorems.

(** ** Instances of the theorems *)

(** Keys are hashed by their length here, so that collisions are easy to make. *)
Definition len_hash (k : bytes) : Z := Z.of_nat (length k).

Definition empty_heap : heap := mk_heap ∅ 0 (fun _ => true) 0.

(** "port" = "22122" and "host" = "a" in one bucket of a table of four. *)
Definition demo_puts : outcome (heap * hash_table) :=
  '(h, t) ← hash_table_init empty_heap 4 DEFAULT_LOAD_FACTOR;
  match t with
  | inr t =>
      '(h, t, _) ← hash_table_put len_hash h t (str "port") (str "22122");
      '(h, t, _) ← hash_table_put len_hash h t (str "host") (str "a");
      Ret (h, t)
  | inl _ => Crash NullDeref
  end.

Definition demo : heap * hash_table :=
  match demo_puts with Ret x => x | Crash _ => (empty_heap, mk_hash_table [] 0 0 dbl_1_00 0) end.

Definition demo_map : gmap bytes bytes := <[str "host" := str "a"]> (<[str "port" := str "22122"]> ∅).

Definition init4 : heap * hash_table :=
  match hash_table_init empty_heap 4 DEFAULT_LOAD_FACTOR with
  | Ret (h, inr t) => (h, t)
  | _ => demo
  end.

Lemma init4_repr : repr len_hash init4.1 init4.2 ∅.
Proof. exists []. split; [|done]. apply (replicate_inv len_hash init4.1 2 DEFAULT_LOAD_FACTOR 3); [lia|done]. Qed.

(** The representation invariant of a concrete table, by computation. *)
Lemma demo_repr : repr len_hash demo.1 demo.2 demo_map.
Proof.
  set (d1 := mk_hash_data (str "port") (str "22122") 4 None).
  set (d2 := mk_hash_data (str "host") (str "a") 4 (Some 0%nat)).
  exists [item_of (1%nat, d2); item_of (0%nat, d1)]. split; [|done].
  split.
  - exists [ [(1%nat, d2); (0%nat, d1)]; []; []; [] ]. split_and!.
    + repeat constructor.
    + intros i xs x Hi Hx. destruct i as [|[|[|[|i]]]]; cbn in Hi; try discriminate Hi; injection Hi as <-;
        repeat (apply elem_of_cons in Hx as [->|Hx]; [reflexivity|]); by apply not_elem_of_nil in Hx.
    + reflexivity.
  - refine (bool_decide_unpack _ _). by vm_compute.
  - refine (bool_decide_unpack _ _). by vm_compute.
  - reflexivity.
  - exists 2. split; [lia|reflexivity].
  - reflexivity.
  - refine (bool_decide_unpack _ _). by vm_compute.
  - change (set_Forall (fun l => l < brk demo.1)%nat (dom (cells demo.1))).
    refine (bool_decide_unpack _ _). by vm_compute.
Qed.

Lemma hash_table_init_spec_witness :
  exists h' r, hash_table_init empty_heap 5 DEFAULT_LOAD_FACTOR = Ret (h', r) /\
    match r with inl _ => False | inr t => repr len_hash h' t ∅ /\ ht_capacity t = 8 end.
Proof.
  destruct (hash_table_init_spec len_hash empty_heap 5 DEFAULT_LOAD_FACTOR ltac:(unfold is_s; lia) eq_refl)
    as (h' & r & He & Hr). exists h', r. split; [done|]. vm_compute in He. injection He as <- <-.
  destruct Hr as [Hr _]. split; [exact Hr|reflexivity].
Defined.

Lemma hash_table_get_spec_witness : exists r, hash_table_get len_hash demo.1 demo.2 (str "port") = Ret r /\
  (hd_value <$> (r ≫= fun l => cells demo.1 !! l)) = demo_map !! str "port".
Proof. exact (hash_table_get_spec len_hash _ _ _ (str "port") demo_repr). Defined.

Lemma hash_table_put_spec_witness :
  exists h' t' r, hash_table_put len_hash init4.1 init4.2 (str "a") (str "b") = Ret (h', t', r) /\
    ((r = LFS_OK /\ repr len_hash h' t' (<[str "a" := str "b"]> ∅)) \/
     (r = LFS_ERROR /\ repr len_hash h' t' ∅ /\ exists n, malloc_oracle init4.1 n = false)).
Proof. exact (hash_table_put_spec len_hash _ _ _ (str "a") (str "b") init4_repr eq_refl). Defined.

Lemma hash_table_delete_spec_witness :
  exists h' t' r, hash_table_delete len_hash demo.1 demo.2 (str "host") = Ret (h', t', r) /\
    r = LFS_OK /\ repr len_hash h' t' (delete (str "host") demo_map).
Proof.
  apply (hash_table_delete_spec len_hash demo.1 demo.2 demo_map (str "host") demo_repr).
  intros i l Hi Hl. left. assert (i = 0%nat) as -> by (change (0 = Z.of_nat i) in Hi; lia).
  change (ht_table demo.2 !! 0%nat) with (Some (Some 1%nat)) in Hl. injection Hl as <-. reflexivity.
Defined.

Lemma hash_table_delete_inner_dangling_witness :
  exists h' t', hash_table_delete len_hash demo.1 demo.2 (str "port") = Ret (h', t', LFS_OK) /\
    hash_table_get len_hash h' t' (str "port") = Crash UseAfterFree.
Proof.
  apply (hash_table_delete_inner_dangling len_hash demo.1 demo.2 demo_map (str "port") (str "22122") 0 1 demo_repr);
    [reflexivity..|]. vm_compute. discriminate.
Defined.

Lemma hash_table_free_spec_witness : exists h', hash_table_free demo.1 (ht_table demo.2) = Ret h' /\ cells h' = ∅.
Proof. exact (hash_table_free_spec len_hash _ _ _ demo_repr). Defined.
