(* ===== verification/CfgFile.v ===== *)
(** * Configuration files

    src/src/common/cfg_file_opt.c, with [getFileContent] of shared_func.c.  The
    reader is written against the interface [Dictionary] (what the code uses
    of hash_table.h) and its theorems use only [DictionaryLaws]; the hash table
    of HashTable.v discharges them. *)
From S2P Require Import Prelude CString HashTable.

(** ** Reading a file *)

(** What a system call returned: a value, or a failure that left [errno]. *)
Inductive sys (A : Type) :=
| SysOk (a : A)
| SysErr (e : Z).
Arguments SysOk {A} a.
Arguments SysErr {A} e.

(** The calls [getFileContent] makes, in their order. *)
Record file_calls := mk_file_calls {
  fc_open : sys unit;
  fc_seek_end : sys Z;
  fc_malloc : sys unit;
  fc_seek_set : sys unit;
  fc_read : sys bytes
}.

(** [errno != 0 ? errno : dflt] *)
Definition errno_or (e dflt : Z) : Z := if e =? 0 then dflt else e.

(** The error code, or the buffer: the file's bytes and a NUL. *)
Definition getFileContent (f : file_calls) : Z + bytes :=
  match fc_open f with
  | SysErr e => inl (errno_or e ENOENT)
  | SysOk _ =>
  match fc_seek_end f with
  | SysErr e => inl (errno_or e EIO)
  | SysOk file_size =>
  match fc_malloc f with
  | SysErr e => inl (errno_or e ENOMEM)
  | SysOk _ =>
  match fc_seek_set f with
  | SysErr e => inl (errno_or e EIO)
  | SysOk _ =>
  match fc_read f with
  | SysErr e => inl (errno_or e EIO)
  | SysOk buff => if Z.of_nat (length buff) =? file_size then inr (buff ++ [0]) else inl EIO
  end end end end end.

(** A readable file with this content. *)
Definition readable (c : bytes) : file_calls :=
  mk_file_calls (SysOk tt) (SysOk (Z.of_nat (length c))) (SysOk tt) (SysOk tt) (SysOk c).

(** ** The dictionary the reader fills *)

Class Dictionary (M T : Type) := {
  dict_malloc : M -> bool * M;
  dict_init : M -> Z -> double -> outcome (M * (Z + T));
  dict_put : M -> T -> bytes -> bytes -> outcome (M * T * Z);
  dict_get : M -> T -> bytes -> outcome (option bytes);
  dict_free : M -> T -> outcome M
}.

(** [dict_plenty]: no allocation fails; [dict_fresh]: the store is empty. *)
Class DictionaryLaws (M T : Type) `{Dictionary M T} := {
  dict_repr : M -> T -> gmap bytes bytes -> Prop;
  dict_fresh : M -> Prop;
  dict_plenty : M -> Prop;
  dict_malloc_repr m t d : dict_repr m t d -> dict_repr (dict_malloc m).2 t d;
  dict_malloc_plenty m : dict_plenty m -> (dict_malloc m).1 = true /\ dict_plenty (dict_malloc m).2;
  dict_init_ok m cap lf : dict_fresh m -> dict_plenty m -> is_s 32 cap -> 0 <= cap -> 0 <= dbl_num lf ->
    exists m' t, dict_init m cap lf = Ret (m', inr t) /\ dict_repr m' t ∅ /\ dict_plenty m';
  dict_put_ok m t d k v : dict_repr m t d -> dict_plenty m -> d !! k = None ->
    exists m' t', dict_put m t k v = Ret (m', t', LFS_OK) /\ dict_repr m' t' (<[k := v]> d) /\ dict_plenty m';
  dict_get_ok m t d k : dict_repr m t d -> dict_get m t k = Ret (d !! k);
  dict_free_ok m t d : dict_repr m t d -> exists m', dict_free m t = Ret m' /\ dict_fresh m'
}.

(** ** The reader *)

(** The pair of a trimmed line: none for a comment, an empty line, or a line
    without [=]. *)
Definition cfg_entry (pline : bytes) : option (bytes * bytes) :=
  match pline with
  | [] => None
  | c :: _ => if c =? chr "#" then None else strchr pline (chr "=")
  end.

Section Reader.
Context {M T : Type} `{Dictionary M T}.

(** [trim(pline)], with the buffer [trim_left] allocates when it has
    something to remove. *)
Definition cfg_trim (m : M) (pline : bytes) : M * bytes :=
  let r := trim_right pline in
  if (length (skip_trim r) =? length r)%nat then (m, trim true pline)
  else let '(ok, m) := dict_malloc m in (m, trim ok pline).

(** The body of the [while] for one line; [None] when [malloc] fails. *)
Definition cfg_line (m : M) (pht : T) (pline : bytes) : outcome (M * T * bool) :=
  let '(m, pline) := cfg_trim m pline in
  match cfg_entry pline with
  | None => Ret (m, pht, true)
  | Some (name, value) =>
      let '(ok, m) := dict_malloc m in
      if negb ok then Ret (m, pht, false)
      else '(m, pht, _) ← dict_put m pht name value; Ret (m, pht, true)
  end.

Fixpoint cfg_loop (fuel : nat) (m : M) (pht : T) (pline : bytes) : outcome (M * T * Z) :=
  match fuel with
  | O => Crash Diverged
  | S f =>
      match strchr pline 10 with
      | Some (line, next) =>
          '(m, pht, go) ← cfg_line m pht line;
          if go : bool then cfg_loop f m pht next else Ret (m, pht, -1)
      | None =>
          '(m, pht, go) ← cfg_line m pht pline;
          Ret (m, pht, if go : bool then 0 else -1)
      end
  end.

(** Each round consumes a line end, so that one round per byte and one more
    are enough. *)
Definition _read_cfg_file (m : M) (pht : T) (f : file_calls) : outcome (M * T * Z) :=
  match getFileContent f with
  | inl e => Ret (m, pht, e)
  | inr pcont => cfg_loop (S (length (cstr pcont))) m pht (cstr pcont)
  end.

Definition cfg_init (m : M) (f : file_calls) : outcome (M * (Z + T)) :=
  '(m, r) ← dict_init m 0 (mk_double 0 0);
  match r with
  | inl e => Ret (m, inl e)
  | inr pht =>
      '(m, pht, ret) ← _read_cfg_file m pht f;
      if ret =? 0 then Ret (m, inr pht)
      else m ← dict_free m pht; Ret (m, inl ret)
  end.

Definition cfg_destroy (m : M) (pht : T) : outcome M := dict_free m pht.

Definition cfg_get_strvalue (m : M) (pht : T) (name : bytes) : outcome (option bytes) := dict_get m pht name.

Definition cfg_get_intvalue (m : M) (pht : T) (name : bytes) (dvalue : Z) : outcome Z :=
  svalue ← cfg_get_strvalue m pht name;
  match svalue with
  | None => Ret dvalue
  | Some s => Ret (atoi s)
  end.
End Reader.

(** ** The text format *)

(** The entries of a file: one per line that has one. *)
Fixpoint cfg_lines (fuel : nat) (c : bytes) : list bytes :=
  match fuel with
  | O => []
  | S f => match strchr c 10 with
           | Some (line, next) => line :: cfg_lines f next
           | None => [c]
           end
  end.

Definition cfg_entries (c : bytes) : list (bytes * bytes) :=
  omap (fun l => cfg_entry (trim true l)) (cfg_lines (S (length c)) c).

(** A line as it is written: an entry or a comment. *)
Inductive cfg_item :=
| Entry (k v : bytes)
| Comment (text : bytes).

Definition cfg_print (i : cfg_item) : bytes :=
  match i with
  | Entry k v => k ++ [chr "="] ++ v ++ [10]
  | Comment t => [chr "#"] ++ t ++ [10]
  end.

Definition cfg_render (its : list cfg_item) : bytes := concat (cfg_print <$> its).

Definition item_entry (i : cfg_item) : option (bytes * bytes) :=
  match i with Entry k v => Some (k, v) | Comment _ => None end.

(** What a line may hold so that it reads back: no line end or NUL, a key
    without [=] that does not look like a comment, nothing [trim] removes. *)
Definition item_ok (i : cfg_item) : Prop :=
  match i with
  | Entry k v => lacks (chr "=") k /\ k <> [] /\ head k <> Some (chr "#") /\ lacks 10 (k ++ v) /\ no_nul (k ++ v) /\
                 tight (k ++ [chr "="] ++ v)
  | Comment t => lacks 10 t /\ no_nul t
  end.

(** ** Lemmas on the text *)

Lemma skip_trim_length s : (length (skip_trim s) <= length s)%nat.
Proof. induction s as [|c s IH]; cbn; [done|]. destruct (is_trim_space c); cbn; lia. Qed.

Lemma skip_trim_snoc s c : is_trim_space c = false -> exists s', skip_trim (s ++ [c]) = s' ++ [c].
Proof.
  intros Hc. induction s as [|x s IH]; cbn; [rewrite Hc; by exists []|].
  destruct (is_trim_space x); [done|]. by exists (x :: s).
Qed.

Lemma trim_head ok c s : is_trim_space c = false -> exists s', trim ok (c :: s) = c :: s'.
Proof.
  intros Hc. unfold trim, trim_right. rewrite reverse_cons.
  destruct (skip_trim_snoc (reverse s) c Hc) as [s' ->]. rewrite reverse_snoc.
  unfold trim_left. cbn [skip_trim]. rewrite Hc, Nat.eqb_refl. eauto.
Qed.

Lemma cfg_lines_cons line rest fuel : lacks 10 line ->
  cfg_lines (S fuel) (line ++ 10 :: rest) = line :: cfg_lines fuel rest.
Proof. intros. cbn. by rewrite strchr_app. Qed.

Lemma cfg_line_of i : item_ok i -> exists l, cfg_print i = l ++ [10] /\ lacks 10 l /\ no_nul l /\
  cfg_entry (trim true l) = item_entry i.
Proof.
  destruct i as [k v|t]; cbn [item_ok cfg_print item_entry].
  - intros (Heq & Hne & Hh & [Hl1 Hl2]%Forall_app & [Hn1 Hn2]%Forall_app & Ht).
    exists (k ++ [chr "="] ++ v). split_and!.
    + by rewrite <- !app_assoc.
    + apply Forall_app; split; [done|]. by constructor.
    + apply Forall_app; split; [done|]. by constructor.
    + rewrite trim_tight by done. unfold cfg_entry. destruct k as [|c k]; [done|]. cbn [app].
      zcase (c =? chr "#"); [by subst c|]. by apply (strchr_app (c :: k)).
  - intros [Hl Hn]. exists (chr "#" :: t). split_and!; [done|by constructor|by constructor|].
    destruct (trim_head true (chr "#") t eq_refl) as [s' ->]. done.
Qed.

Lemma no_nul_render its : Forall item_ok its -> no_nul (cfg_render its).
Proof.
  induction 1 as [|i its Hi _ IH]; [constructor|]. cbn. apply Forall_app. split; [|done].
  destruct (cfg_line_of i Hi) as (l & -> & _ & Hn & _). apply Forall_app. split; [done|]. by repeat constructor.
Qed.

Lemma entries_render fuel its : Forall item_ok its -> (length (cfg_render its) < fuel)%nat ->
  omap (fun l => cfg_entry (trim true l)) (cfg_lines fuel (cfg_render its)) = omap item_entry its.
Proof.
  intros Hok. revert fuel. induction Hok as [|i its Hi _ IH]; intros fuel Hf.
  - destruct fuel; [cbn in Hf; lia|]. done.
  - destruct fuel as [|fuel]; [lia|].
    destruct (cfg_line_of i Hi) as (l & Hp & Hl & _ & He).
    cbn [cfg_render fmap list_fmap concat] in *. fold (cfg_render its) in *. rewrite Hp in Hf |- *.
    rewrite <- app_assoc in Hf |- *. cbn [app] in *. rewrite cfg_lines_cons by done. rewrite length_app in Hf. cbn in Hf.
    change (omap item_entry (i :: its)) with
      (match item_entry i with Some y => y :: omap item_entry its | None => omap item_entry its end).
    rewrite <- He. rewrite <- (IH fuel) by lia. done.
Qed.

Lemma strchr_length s c pre post : strchr s c = Some (pre, post) -> (length s = S (length pre + length post))%nat.
Proof. intros [-> _]%strchr_Some. rewrite length_app. cbn. lia. Qed.

(** ** Lemmas on the reader *)

Section ReaderProofs.
Context {M T : Type} `{DictionaryLaws M T}.

Lemma cfg_trim_ok (m : M) (t : T) (d : gmap bytes bytes) pline : dict_repr m t d -> dict_plenty m ->
  exists m', cfg_trim m pline = (m', trim true pline) /\ dict_repr m' t d /\ dict_plenty m'.
Proof.
  intros Hr Hp. unfold cfg_trim. destruct (Nat.eqb _ _); [by eauto|].
  pose proof (dict_malloc_repr _ _ _ Hr) as Hr'. pose proof (dict_malloc_plenty _ Hp) as [Hok Hp'].
  destruct (dict_malloc m) as [ok m']. cbn in *. subst ok. eauto.
Qed.

Definition insert_entry (e : option (bytes * bytes)) (d : gmap bytes bytes) : gmap bytes bytes :=
  match e with Some (k, v) => <[k := v]> d | None => d end.

Lemma cfg_line_ok (m : M) (t : T) (d : gmap bytes bytes) pline : dict_repr m t d -> dict_plenty m ->
  (forall k v, cfg_entry (trim true pline) = Some (k, v) -> d !! k = None) ->
  exists m' t', cfg_line m t pline = Ret (m', t', true) /\
    dict_repr m' t' (insert_entry (cfg_entry (trim true pline)) d) /\ dict_plenty m'.
Proof.
  intros Hr Hp Hk. unfold cfg_line. destruct (cfg_trim_ok m t d pline Hr Hp) as (m1 & -> & Hr1 & Hp1).
  destruct (cfg_entry (trim true pline)) as [[k v]|] eqn:He; [|by eauto].
  pose proof (dict_malloc_repr _ _ _ Hr1) as Hr2. pose proof (dict_malloc_plenty _ Hp1) as [Hok Hp2].
  destruct (dict_malloc m1) as [ok m2]. cbn in *. subst ok. cbn.
  destruct (dict_put_ok m2 t d k v Hr2 Hp2 (Hk k v eq_refl)) as (m3 & t3 & -> & ? & ?). cbn. eauto.
Qed.

Lemma list_to_map_snoc_fresh (es : list (bytes * bytes)) (d : gmap bytes bytes) k v :
  k ∉ es.*1 -> list_to_map es ∪ <[k := v]> d = <[k := v]> (list_to_map es ∪ d).
Proof. intros Hn. by rewrite insert_union_r by (by apply not_elem_of_list_to_map). Qed.

Lemma cfg_loop_ok (fuel : nat) (m : M) (t : T) (d : gmap bytes bytes) (c : bytes) : dict_repr m t d -> dict_plenty m ->
  (length c < fuel)%nat ->
  let es := omap (fun l => cfg_entry (trim true l)) (cfg_lines fuel c) in
  NoDup es.*1 -> (forall k, k ∈ es.*1 -> d !! k = None) ->
  exists m' t', cfg_loop fuel m t c = Ret (m', t', 0) /\ dict_repr m' t' (list_to_map es ∪ d) /\ dict_plenty m'.
Proof.
  revert m t d c. induction fuel as [|fuel IH]; intros m t d c Hr Hp Hf es Hn Hd; [lia|].
  subst es. cbn [cfg_lines cfg_loop] in *. destruct (strchr c 10) as [[line next]|] eqn:Hs.
  - apply strchr_length in Hs. cbn [omap list_omap] in *.
    destruct (cfg_line_ok m t d line Hr Hp) as (m1 & t1 & -> & Hr1 & Hp1).
    { intros k v He. rewrite He in Hd. apply Hd. cbn. constructor. }
    cbn [mbind outcome_bind]. destruct (cfg_entry (trim true line)) as [[k v]|] eqn:He; cbn [insert_entry] in Hr1.
    + cbn in Hn. apply NoDup_cons in Hn as [Hkn Hn].
      destruct (IH m1 t1 (<[k := v]> d) next Hr1 Hp1 ltac:(lia) Hn) as (m2 & t2 & Hl & Hr2 & Hp2).
      { intros k' Hk'. rewrite lookup_insert_ne by (by intros ->). apply Hd. cbn. by constructor. }
      exists m2, t2. split_and!; [done| |done]. cbn [list_to_map]. rewrite list_to_map_snoc_fresh in Hr2 by done.
      cbn. rewrite <- insert_union_l. exact Hr2.
    + apply IH; [done|done|lia|done|done].
  - cbn [omap list_omap] in *. destruct (cfg_line_ok m t d c Hr Hp) as (m1 & t1 & -> & Hr1 & Hp1).
    { intros k v He. rewrite He in Hd. apply Hd. cbn. constructor. }
    cbn [mbind outcome_bind]. exists m1, t1. split_and!; [done| |done].
    destruct (cfg_entry (trim true c)) as [[k v]|]; cbn in *.
    + rewrite <- insert_union_l, (left_id_L ∅ (∪)). exact Hr1.
    + rewrite (left_id_L ∅ (∪)). exact Hr1.
Qed.

Lemma cfg_init_readable (m : M) c : dict_fresh m -> dict_plenty m -> no_nul c -> NoDup (cfg_entries c).*1 ->
  exists m' t, cfg_init m (readable c) = Ret (m', inr t) /\ dict_repr m' t (list_to_map (cfg_entries c)).
Proof.
  intros Hf Hp Hn Hd. unfold cfg_init.
  destruct (dict_init_ok m 0 (mk_double 0 0) Hf Hp) as (m1 & t1 & -> & Hr1 & Hp1); [unfold is_s; lia|done|done|].
  cbn [mbind outcome_bind]. unfold _read_cfg_file, getFileContent, readable.
  cbn [fc_open fc_seek_end fc_malloc fc_seek_set fc_read]. rewrite Z.eqb_refl, cstr_app_nul by done.
  destruct (cfg_loop_ok (S (length c)) m1 t1 ∅ c Hr1 Hp1 ltac:(lia) Hd) as (m2 & t2 & -> & Hr2 & _); [done|].
  cbn. exists m2, t2. split; [done|]. by rewrite (right_id_L ∅ (∪)) in Hr2.
Qed.
End ReaderProofs.

(** ** The hash table is such a dictionary *)

Section Instances.
Context (hash_func : bytes -> Z).

(** The table with its function pointer. *)
Record cfg_table := mk_cfg_table { ct_table : hash_table }.

#[export] Instance hash_dictionary : Dictionary heap cfg_table := {
  dict_malloc := h_malloc;
  dict_init h cap lf :=
    '(h, r) ← hash_table_init h cap lf;
    Ret (h, match r with inl e => inl e | inr t => inr (mk_cfg_table t) end);
  dict_put h t k v := '(h, t, r) ← hash_table_put hash_func h (ct_table t) k v; Ret (h, mk_cfg_table t, r);
  dict_get h t k :=
    r ← hash_table_get hash_func h (ct_table t) k;
    match r with
    | None => Ret None
    | Some l => d ← h_read h l; Ret (Some (hd_value d))
    end;
  dict_free h t := hash_table_free h (ht_table (ct_table t))
}.

Lemma repr_malloc h t m : repr hash_func h t m -> repr hash_func (h_malloc h).2 t m.
Proof. intros (P & Hi & ->). exists P. split; [|done]. by eapply (table_inv_heap _ h). Qed.

#[export] Program Instance hash_dictionary_laws : DictionaryLaws heap cfg_table := {
  dict_repr h t m := repr hash_func h (ct_table t) m;
  dict_fresh h := cells h = ∅;
  dict_plenty h := forall n, malloc_oracle h n = true
}.
Next Obligation. intros m t d Hr. by apply repr_malloc. Qed.
Next Obligation. intros m Hp. cbn. by split. Qed.
Next Obligation.
  intros m cap lf Hf Hp Hs Hc Hlf. destruct (init_repr hash_func m cap lf Hs Hf) as (h' & r & He & Ho & Hr).
  cbn. rewrite He. destruct r as [e|t].
  - exfalso. destruct Hr as [ [_ Hr] | [_ Hr] ]; [lia|]. by rewrite Hp in Hr.
  - cbn. do 2 eexists. split; [done|]. split; [apply Hr|]. intros n. by rewrite Ho.
Qed.
Next Obligation.
  intros m t d k v Hr Hp Hk. destruct (put_repr hash_func m (ct_table t) d k v Hr Hk) as (h' & t' & r & He & Ho & Hc).
  cbn. rewrite He. destruct Hc as [ [-> Hc] | (_ & _ & n & Hn) ]; [|by rewrite Hp in Hn].
  cbn. do 2 eexists. split; [done|]. split; [done|]. intros n. by rewrite Ho.
Qed.
Next Obligation.
  intros m t d k Hr. destruct (get_repr hash_func m (ct_table t) d k Hr) as (r & He & <-). cbn. rewrite He. cbn.
  destruct r as [l|]; [|done]. unfold h_read. cbn. destruct (cells m !! l) as [x|] eqn:Hl; [done|].
  exfalso. destruct Hr as (P & Hi & _). destruct (get_spec hash_func m (ct_table t) P k Hi) as (r & He' & Hr).
  rewrite He in He'. injection He' as <-. destruct Hr as (d' & Hd & _). congruence.
Qed.
Next Obligation. intros m t d Hr. by destruct (free_repr hash_func m (ct_table t) d Hr) as (h' & ? & ?); eauto. Qed.
End Instances.

(** ** Theorems *)

(** Reading a configuration file into the hash table, for any hash
    function: when its keys are distinct and no allocation fails, [cfg_init]
    succeeds, and afterwards [cfg_get_strvalue] of any name is the value the
    file gives it, or NULL when the file has no such line; [cfg_destroy] then
    releases every node. *)
Theorem cfg_init_get_strvalue hash_func h c :
  cells h = ∅ -> (forall n, malloc_oracle h n = true) -> no_nul c -> NoDup (cfg_entries c).*1 ->
  let _ := hash_dictionary hash_func in
  exists h' t, cfg_init h (readable c) = Ret (h', inr t) /\
    (forall name, cfg_get_strvalue h' t name = Ret ((list_to_map (cfg_entries c) : gmap bytes bytes) !! name)) /\
    exists h'', cfg_destroy h' t = Ret h'' /\ cells h'' = ∅.
Proof.
  intros Hf Hp Hn Hd D.
  destruct (cfg_init_readable (H0 := hash_dictionary_laws hash_func) h c Hf Hp Hn Hd) as (h' & t & He & Hr).
  exists h', t. split_and!; [done| |].
  - intros name. apply (dict_get_ok (DictionaryLaws := hash_dictionary_laws hash_func) _ _ _ _ Hr).
  - apply (dict_free_ok (DictionaryLaws := hash_dictionary_laws hash_func) _ _ _ Hr).
Qed.

(** Checks the items of a concrete file. *)
Ltac items_ok :=
  repeat (apply Forall_cons; split); try apply Forall_nil; cbn [item_ok]; unfold lacks, no_nul;
  repeat match goal with |- _ /\ _ => split end;
  try (refine (bool_decide_unpack _ _); by vm_compute);
  apply no_space_tight; refine (bool_decide_unpack _ _); by vm_compute.

Definition cfg_demo : list cfg_item :=
  [Comment (str "tracker"); Entry (str "port") (str "22122"); Entry (str "host") (str "a=b"); Comment []].

Lemma cfg_init_get_strvalue_witness :
  let _ := hash_dictionary len_hash in
  exists h' t, cfg_init empty_heap (readable (cfg_render cfg_demo)) = Ret (h', inr t) /\
    (forall name, cfg_get_strvalue h' t name =
       Ret ((list_to_map (cfg_entries (cfg_render cfg_demo)) : gmap bytes bytes) !! name)) /\
    exists h'', cfg_destroy h' t = Ret h'' /\ cells h'' = ∅.
Proof.
  apply (cfg_init_get_strvalue len_hash empty_heap (cfg_render cfg_demo)); [done|done| |].
  - apply (bool_decide_unpack (Forall (fun c => c <> 0) _)). by vm_compute.
  - refine (bool_decide_unpack _ _). by vm_compute.
Defined.

(** The text format round-trips: the entries of a rendered file, comments
    included, are the entries it was rendered from, in order. *)
Theorem cfg_entries_render its : Forall item_ok its -> cfg_entries (cfg_render its) = omap item_entry its.
Proof. intros Hok. apply entries_render; [done|lia]. Qed.

Lemma cfg_entries_render_witness :
  cfg_entries (cfg_render cfg_demo) = [(str "port", str "22122"); (str "host", str "a=b")].
Proof.
  apply (cfg_entries_render cfg_demo). unfold cfg_demo. items_ok.
Defined.

(** An integer option: [cfg_get_intvalue] returns the number a line of the
    file gives to the name, and the default for a name without a line. *)
Theorem cfg_get_intvalue_spec hash_func h its name z dvalue :
  cells h = ∅ -> (forall n, malloc_oracle h n = true) -> Forall item_ok its -> NoDup (omap item_entry its).*1 ->
  is_s 32 z -> Entry name (pr_dec z) ∈ its \/ (name ∉ (omap item_entry its).*1 /\ z = dvalue) ->
  let _ := hash_dictionary hash_func in
  exists h' t, cfg_init h (readable (cfg_render its)) = Ret (h', inr t) /\ cfg_get_intvalue h' t name dvalue = Ret z.
Proof.
  intros Hf Hp Hok Hd Hz Hname D.
  assert (cfg_entries (cfg_render its) = omap item_entry its) as He by (apply entries_render; [done|lia]).
  destruct (cfg_init_readable (H0 := hash_dictionary_laws hash_func) h (cfg_render its) Hf Hp) as (h' & t & Hi & Hr);
    [by apply no_nul_render|by rewrite He|].
  exists h', t. split; [done|]. unfold cfg_get_intvalue, cfg_get_strvalue.
  rewrite (dict_get_ok (DictionaryLaws := hash_dictionary_laws hash_func) _ _ _ _ Hr), He.
  cbn [mbind outcome_bind]. destruct Hname as [Hin|[Hn ->]].
  - rewrite (proj1 (elem_of_list_to_map (omap item_entry its) name (pr_dec z) Hd)).
    + rewrite <- (app_nil_r (pr_dec z)), atoi_pr_dec by (done || by apply s32_is_s). by rewrite s_wrap_id.
    + apply list_elem_of_omap. by exists (Entry name (pr_dec z)).
  - by rewrite not_elem_of_list_to_map_1.
Qed.

Lemma cfg_get_intvalue_spec_witness :
  let _ := hash_dictionary len_hash in
  exists h' t, cfg_init empty_heap (readable (cfg_render [Comment (str "c"); Entry (str "port") (pr_dec 22122)])) = Ret (h', inr t) /\
    cfg_get_intvalue h' t (str "port") 80 = Ret 22122.
Proof.
  apply (cfg_get_intvalue_spec len_hash empty_heap _ (str "port") 22122 80); [done|done| | |unfold is_s; lia|].
  - items_ok.
  - refine (bool_decide_unpack _ _). by vm_compute.
  - left. apply list_elem_of_further, list_elem_of_here.
Defined.
