(* ===== verification/SockOpt.v ===== *)
(** * Sockets

    The first half of src/src/common/sock_opt.c (the options, the address and the
    mode of a socket) and [server_sockets] of ts_func.c and ds_func.c, which makes
    the socket that a server listens to.  What the system calls answer is an
    argument. *)
From S2P Require Import Prelude Codec CString.

(** ** The state *)

Inductive opt :=
| SO_REUSEADDR | SO_LINGER (seconds : Z) | SO_SNDTIMEO (seconds : Z) | SO_RCVTIMEO (seconds : Z) | TCP_NODELAY
| SO_KEEPALIVE | TCP_KEEPIDLE (seconds : Z) | TCP_KEEPINTVL (seconds : Z) | TCP_KEEPCNT (count : Z).

(** A socket: its options in the order they were set, the address and port it is
    bound to, the length of the queue when it listens, whether it is non-blocking,
    and whether it is open. *)
Record socket := mk_socket { so_opts : list opt; so_addr : option (Z * Z); so_backlog : option Z; so_noblock : bool; so_open : bool }.

(** What the calls answer; [inet_aton] gives the address of a text. *)
Record sock_env := mk_sockenv {
  sk_socket : Z;
  sk_setsockopt : opt -> bool;
  sk_aton : bytes -> option Z;
  sk_bind : Z * Z -> bool;
  sk_listen : bool;
  sk_getfl : Z;
  sk_setfl : bool
}.

Definition INADDR_ANY : Z := 0.
Definition INADDR_NONE : Z := 2 ^ 32 - 1.

(** ** Operations *)

Definition set_opt (s : socket) (o : opt) : socket := mk_socket (so_opts s ++ [o]) (so_addr s) (so_backlog s) (so_noblock s) (so_open s).
Definition close_socket (s : socket) : socket := mk_socket (so_opts s) (so_addr s) (so_backlog s) (so_noblock s) false.

(** The options up to the first that cannot be set. *)
Fixpoint set_opts (e : sock_env) (os : list opt) (s : socket) : socket * Z :=
  match os with
  | [] => (s, 0)
  | o :: os => if sk_setsockopt e o then set_opts e os (set_opt s o) else (s, -1)
  end.

Definition keepalive_opts (idle_seconds : Z) : list opt := [SO_KEEPALIVE; TCP_KEEPIDLE idle_seconds; TCP_KEEPINTVL 10; TCP_KEEPCNT 3].

Definition set_sock_keepalive (e : sock_env) (idle_seconds : Z) (s : socket) : socket * Z := set_opts e (keepalive_opts idle_seconds) s.

Definition set_sock_opt (e : sock_env) (timeout : Z) (s : socket) : socket * Z :=
  let '(s, ret) := set_opts e [SO_LINGER timeout; SO_SNDTIMEO timeout; SO_RCVTIMEO timeout; TCP_NODELAY] s in
  if negb (ret =? 0) then (s, ret) else set_sock_keepalive e (s32 (2 * timeout + 1)) s.

(** [htons]: the port is cut to 16 bits.  A host that is null or empty is any
    address. *)
Definition socket_bind (e : sock_env) (bind_host : option bytes) (port : Z) (s : socket) : socket * Z :=
  let go ip :=
    let a := (ip, u_wrap 16 port) in
    if sk_bind e a then (mk_socket (so_opts s) (Some a) (so_backlog s) (so_noblock s) (so_open s), 0) else (s, -2) in
  match bind_host with
  | None | Some [] => go INADDR_ANY
  | Some host => match sk_aton e host with None => (s, -1) | Some ip => go ip end
  end.

Definition set_noblock (e : sock_env) (s : socket) : socket * Z :=
  if sk_getfl e <? 0 then (s, sk_getfl e)
  else if negb (sk_setfl e) then (s, -1)
  else (mk_socket (so_opts s) (so_addr s) (so_backlog s) true (so_open s), 0).

(** The socket, when one could be made, and the result.  Options that cannot be set
    are only logged. *)
Definition server_sockets (e : sock_env) (backlog : Z) (bind_host : option bytes) (port timeout : Z) : option socket * Z :=
  let sfd := sk_socket e in
  if sfd <? 0 then (None, -1)
  else
    let '(s, _) := set_opts e [SO_REUSEADDR] (mk_socket [] None None false true) in
    let '(s, _) := set_sock_opt e timeout s in
    let '(s, ret) := socket_bind e bind_host port s in
    if negb (ret =? 0) then (Some (close_socket s), -2)
    else if negb (sk_listen e) then (Some (close_socket s), -3)
    else
      let s := mk_socket (so_opts s) (so_addr s) (Some backlog) (so_noblock s) (so_open s) in
      let '(s, ret) := set_noblock e s in
      if negb (ret =? 0) then (Some (close_socket s), -4) else (Some s, sfd).

(** [get_name] is [getsockname] or [getpeername], [ntop] prints the address; the
    text written to [buff], if any, and the result. *)
Definition get_ipaddr (get_name : option (Z * Z)) (ntop : Z -> option bytes) (buff : bytes) : outcome (bytes * Z) :=
  let put s := if (length s <? length buff)%nat then Ret (s ++ [0] ++ drop (S (length s)) buff) else Crash OutOfBounds in
  match get_name with
  | None => b ← put []; Ret (b, INADDR_NONE)
  | Some (addr_len, s_addr) =>
      if 0 <? addr_len then
        match ntop s_addr with None => b ← put []; Ret (b, s_addr) | Some s => b ← put s; Ret (b, s_addr) end
      else b ← put []; Ret (b, s_addr)
  end.

(** ** Lemmas *)

(** Options change nothing but the list of options. *)
Definition same_but_opts (s s' : socket) : Prop := so_addr s' = so_addr s /\ so_backlog s' = so_backlog s /\ so_noblock s' = so_noblock s /\ so_open s' = so_open s.

Lemma set_opts_spec e os s : exists os1 os2, os = os1 ++ os2 /\ same_but_opts s (set_opts e os s).1 /\ so_opts (set_opts e os s).1 = so_opts s ++ os1 /\
  Forall (fun o => sk_setsockopt e o = true) os1 /\ (((set_opts e os s).2 = 0 /\ os2 = []) \/ ((set_opts e os s).2 = -1 /\ exists o, head os2 = Some o /\ sk_setsockopt e o = false)).
Proof.
  revert s. induction os as [|o os IH]; intros s; cbn [set_opts].
  - exists [], []. split_and!; [done|done|by rewrite app_nil_r|done|by left].
  - destruct (sk_setsockopt e o) eqn:E.
    + destruct (IH (set_opt s o)) as (os1 & os2 & -> & Hs & Ho & Hf & Hr). exists (o :: os1), os2. split_and!; [done|done| |by constructor|done].
      rewrite Ho. cbn. by rewrite <- app_assoc.
    + exists [], (o :: os). split_and!; [done|done|by rewrite app_nil_r|done|]. right. split; [done|]. by exists o.
Qed.

Lemma set_opts_all e os s : (forall o, o ∈ os -> sk_setsockopt e o = true) -> set_opts e os s = (mk_socket (so_opts s ++ os) (so_addr s) (so_backlog s) (so_noblock s) (so_open s), 0).
Proof.
  revert s. induction os as [|o os IH]; intros s H; cbn [set_opts]; [rewrite app_nil_r; by destruct s|]. rewrite H by set_solver. rewrite IH by set_solver. cbn. by rewrite <- app_assoc.
Qed.

Lemma set_opts_same e os s : same_but_opts s (set_opts e os s).1.
Proof. by destruct (set_opts_spec e os s) as (? & ? & _ & ? & _). Qed.

Lemma same_but_opts_trans s1 s2 s3 : same_but_opts s1 s2 -> same_but_opts s2 s3 -> same_but_opts s1 s3.
Proof. unfold same_but_opts. naive_solver congruence. Qed.

Lemma set_sock_opt_same e t s : same_but_opts s (set_sock_opt e t s).1.
Proof.
  unfold set_sock_opt, set_sock_keepalive. pose proof (set_opts_same e [SO_LINGER t; SO_SNDTIMEO t; SO_RCVTIMEO t; TCP_NODELAY] s) as H. destruct (set_opts e _ s) as [s1 r]. cbn in H.
  destruct (negb (r =? 0)); [done|]. eapply same_but_opts_trans; [exact H|]. apply set_opts_same.
Qed.

(** The address a server is bound to. *)
Definition address (e : sock_env) (bind_host : option bytes) : option Z := match bind_host with None | Some [] => Some INADDR_ANY | Some h => sk_aton e h end.

Lemma socket_bind_spec e host port s : socket_bind e host port s =
  match address e host with
  | Some ip => if sk_bind e (ip, u_wrap 16 port) then (mk_socket (so_opts s) (Some (ip, u_wrap 16 port)) (so_backlog s) (so_noblock s) (so_open s), 0) else (s, -2)
  | None => (s, -1)
  end.
Proof. unfold socket_bind, address. destruct host as [ [|x h]|]; [done| |done]. by destruct (sk_aton e (x :: h)). Qed.

(** ** Theorems *)

(** The result of [server_sockets] when its calls are looked at one after the
    other, the options left aside. *)
Definition sockets_result (e : sock_env) (host : option bytes) (port : Z) : Z :=
  if sk_socket e <? 0 then -1
  else match address e host with
       | None => -2
       | Some ip => if negb (sk_bind e (ip, u_wrap 16 port)) then -2 else if negb (sk_listen e) then -3
                    else if (sk_getfl e <? 0) || negb (sk_setfl e) then -4 else sk_socket e
       end.

(** C19. The socket of a server: the result is determined by the calls that make,
    bind, listen and change the mode, in this order, and not by the socket options.
    When they all succeed it is the descriptor of a socket that is open, bound to
    the address and the port (modulo 65536), listens with the given queue and does
    not block; otherwise it is the negative number of the first call that failed,
    and a socket that was made is closed again. *)
Theorem server_sockets_spec e backlog host port timeout :
  let '(s, r) := server_sockets e backlog host port timeout in
  r = sockets_result e host port /\
  if 0 <=? r then exists s' ip, s = Some s' /\ address e host = Some ip /\ so_open s' = true /\ so_addr s' = Some (ip, u_wrap 16 port) /\ so_backlog s' = Some backlog /\ so_noblock s' = true
  else forall s', s = Some s' -> so_open s' = false.
Proof.
  unfold server_sockets, sockets_result. destruct (Z.ltb_spec (sk_socket e) 0) as [|Hs]; [by split|].
  pose proof (set_opts_same e [SO_REUSEADDR] (mk_socket [] None None false true)) as H1. destruct (set_opts e [SO_REUSEADDR] _) as [s1 r1]. cbn [fst] in H1.
  pose proof (set_sock_opt_same e timeout s1) as H2. destruct (set_sock_opt e timeout s1) as [s2 r2]. cbn [fst] in H2. pose proof (same_but_opts_trans _ _ _ H1 H2) as (Ha & Hb & Hn & Ho). clear H1 H2. cbn in Ha, Hb, Hn, Ho.
  rewrite socket_bind_spec. destruct (address e host) as [ip|] eqn:Eh; [|by split; [|intros s' [= <-] ] ].
  destruct (sk_bind e (ip, u_wrap 16 port)); [|by split; [|intros s' [= <-] ] ]. cbn [Z.eqb negb].
  destruct (sk_listen e); cbn [negb]; [|by split; [|intros s' [= <-] ] ]. unfold set_noblock. destruct (Z.ltb_spec (sk_getfl e) 0) as [Hg|Hg]; cbn [orb].
  - destruct (Z.eqb_spec (sk_getfl e) 0); [lia|]. by split; [|intros s' [= <-] ].
  - destruct (sk_setfl e); cbn [negb Z.eqb orb]; [|by split; [|intros s' [= <-] ] ]. split; [done|]. destruct (Z.leb_spec 0 (sk_socket e)); [|lia]. eexists _, ip. by split_and!.
Qed.

(** Every option of a listening socket, when all can be set: the timeouts are that
    of the configuration, and a dead peer is noticed after twice the timeout and
    three more probes. *)
Theorem server_options e backlog host port timeout s : (forall o, sk_setsockopt e o = true) -> server_sockets e backlog host port timeout = (Some s, sk_socket e) -> 0 <= sk_socket e ->
  so_opts s = [SO_REUSEADDR; SO_LINGER timeout; SO_SNDTIMEO timeout; SO_RCVTIMEO timeout; TCP_NODELAY; SO_KEEPALIVE; TCP_KEEPIDLE (s32 (2 * timeout + 1)); TCP_KEEPINTVL 10; TCP_KEEPCNT 3].
Proof.
  intros Ho Hs Hp. unfold server_sockets in Hs. destruct (Z.ltb_spec (sk_socket e) 0) as [|_]; [lia|]. unfold set_sock_opt, set_sock_keepalive in Hs. rewrite !set_opts_all in Hs by (intros; apply Ho).
  cbn [Z.eqb negb so_opts so_addr so_backlog so_noblock so_open app keepalive_opts] in Hs. rewrite ?set_opts_all in Hs by (intros; apply Ho). rewrite socket_bind_spec in Hs.
  destruct (address e host) as [ip|]; cbn in Hs; [|congruence || (injection Hs; intros; lia)]. destruct (sk_bind e (ip, u_wrap 16 port)); cbn in Hs; [|injection Hs; intros; lia].
  destruct (sk_listen e); cbn in Hs; [|injection Hs; intros; lia]. unfold set_noblock in Hs. destruct (Z.ltb_spec (sk_getfl e) 0).
  - destruct (Z.eqb_spec (sk_getfl e) 0); cbn in Hs; [lia|]. injection Hs; intros; lia.
  - destruct (sk_setfl e); cbn in Hs; [|injection Hs; intros; lia]. by injection Hs as <-.
Qed.

Definition demo_sock : sock_env := mk_sockenv 7 (fun _ => true) (fun _ => Some 16777343) (fun _ => true) true 2 true.

Lemma server_options_witness : exists s, server_sockets demo_sock 1024 None 2985 60 = (Some s, 7) /\
  so_opts s = [SO_REUSEADDR; SO_LINGER 60; SO_SNDTIMEO 60; SO_RCVTIMEO 60; TCP_NODELAY; SO_KEEPALIVE; TCP_KEEPIDLE 121; TCP_KEEPINTVL 10; TCP_KEEPCNT 3].
Proof. eexists. split; [reflexivity|]. apply (server_options demo_sock 1024 None 2985 60); done. Defined.

(** The calls that matter succeed. *)
Definition sock_fine (e : sock_env) (host : option bytes) (port ip : Z) : Prop :=
  0 <= sk_socket e /\ address e host = Some ip /\ sk_bind e (ip, u_wrap 16 port) = true /\ sk_listen e = true /\ 0 <= sk_getfl e /\ sk_setfl e = true.

Lemma server_sockets_fine e backlog host port timeout ip : sock_fine e host port ip -> exists s, server_sockets e backlog host port timeout = (Some s, sk_socket e) /\
  so_open s = true /\ so_addr s = Some (ip, u_wrap 16 port) /\ so_backlog s = Some backlog /\ so_noblock s = true.
Proof.
  intros (H1 & H2 & H3 & H4 & H5 & H6). unfold server_sockets. destruct (Z.ltb_spec (sk_socket e) 0) as [|_]; [lia|].
  pose proof (set_opts_same e [SO_REUSEADDR] (mk_socket [] None None false true)) as G1. destruct (set_opts e [SO_REUSEADDR] _) as [s1 r1]. cbn [fst] in G1.
  pose proof (set_sock_opt_same e timeout s1) as G2. destruct (set_sock_opt e timeout s1) as [s2 r2]. cbn [fst] in G2. pose proof (same_but_opts_trans _ _ _ G1 G2) as (_ & _ & _ & Ho).
  rewrite socket_bind_spec, H2, H3, H4. cbn [Z.eqb negb]. unfold set_noblock. destruct (Z.ltb_spec (sk_getfl e) 0); [lia|]. rewrite H6. cbn. eexists. by split_and!.
Qed.
