(* ===== verification/ListH.v ===== *)
(** * Circular doubly linked lists

    src/src/common/list.h.  The [struct list_head]s live in a heap; a
    [container_of] is the identity on locations.  [is_list h head xs] says that
    [head] is the sentinel of a well-formed list whose entries are [xs]. *)
From S2P Require Import Prelude.

Abbreviation lloc := nat.

Record list_head := mk_list_head { lh_next : option lloc; lh_prev : option lloc }.

Abbreviation links := (gmap lloc list_head).

Definition LIST_POISON1 : option lloc := None.
Definition LIST_POISON2 : option lloc := None.

Definition get_next (h : links) (l : lloc) : outcome lloc :=
  d ← get_or UseAfterFree (h !! l); get_or NullDeref (lh_next d).

Definition get_prev (h : links) (l : lloc) : outcome lloc :=
  d ← get_or UseAfterFree (h !! l); get_or NullDeref (lh_prev d).

Definition set_lnext (h : links) (l : lloc) (v : option lloc) : outcome links :=
  d ← get_or UseAfterFree (h !! l); Ret (<[l := mk_list_head v (lh_prev d)]> h).

Definition set_lprev (h : links) (l : lloc) (v : option lloc) : outcome links :=
  d ← get_or UseAfterFree (h !! l); Ret (<[l := mk_list_head (lh_next d) v]> h).

Definition INIT_LIST_HEAD (h : links) (p : lloc) : outcome links :=
  h ← set_lnext h p (Some p); set_lprev h p (Some p).

Definition __list_add (h : links) (new prev next : lloc) : outcome links :=
  h ← set_lprev h next (Some new);
  h ← set_lnext h new (Some next);
  h ← set_lprev h new (Some prev);
  set_lnext h prev (Some new).

Definition list_add (h : links) (new head : lloc) : outcome links :=
  n ← get_next h head; __list_add h new head n.

Definition list_add_tail (h : links) (new head : lloc) : outcome links :=
  p ← get_prev h head; __list_add h new p head.

Definition __list_del (h : links) (prev next : lloc) : outcome links :=
  h ← set_lprev h next (Some prev);
  set_lnext h prev (Some next).

Definition list_del (h : links) (entry : lloc) : outcome links :=
  p ← get_prev h entry;
  n ← get_next h entry;
  h ← __list_del h p n;
  h ← set_lnext h entry LIST_POISON1;
  set_lprev h entry LIST_POISON2.

Definition list_del_init (h : links) (entry : lloc) : outcome links :=
  p ← get_prev h entry;
  n ← get_next h entry;
  h ← __list_del h p n;
  INIT_LIST_HEAD h entry.

Definition list_move (h : links) (l head : lloc) : outcome links :=
  p ← get_prev h l;
  n ← get_next h l;
  h ← __list_del h p n;
  list_add h l head.

Definition list_move_tail (h : links) (l head : lloc) : outcome links :=
  p ← get_prev h l;
  n ← get_next h l;
  h ← __list_del h p n;
  list_add_tail h l head.

Definition list_is_last (h : links) (l head : lloc) : outcome bool :=
  n ← get_next h l; Ret (n =? head)%nat.

Definition list_empty (h : links) (head : lloc) : outcome bool :=
  n ← get_next h head; Ret (n =? head)%nat.

Definition list_empty_careful (h : links) (head : lloc) : outcome bool :=
  next ← get_next h head;
  p ← get_prev h head;
  Ret ((next =? head)%nat && (next =? p)%nat).

Definition __list_splice (h : links) (l head : lloc) : outcome links :=
  first ← get_next h l;
  last ← get_prev h l;
  at_ ← get_next h head;
  h ← set_lprev h first (Some head);
  h ← set_lnext h head (Some first);
  h ← set_lnext h last (Some at_);
  set_lprev h at_ (Some last).

Definition list_splice (h : links) (l head : lloc) : outcome links :=
  e ← list_empty h l;
  if e : bool then Ret h else __list_splice h l head.

Definition list_splice_init (h : links) (l head : lloc) : outcome links :=
  e ← list_empty h l;
  if e : bool then Ret h else h ← __list_splice h l head; INIT_LIST_HEAD h l.

(** [list_for_each]: the entries from [pos] to the sentinel. *)
Fixpoint list_for_each (fuel : nat) (h : links) (pos head : lloc) : outcome (list lloc) :=
  if (pos =? head)%nat then Ret []
  else match fuel with
       | O => Crash Diverged
       | S f => n ← get_next h pos; rest ← list_for_each f h n head; Ret (pos :: rest)
       end.

(** [list_for_each_prev] with a [break] at the first entry that satisfies [p]. *)
Fixpoint list_find_prev (fuel : nat) (h : links) (p : lloc -> outcome bool) (pos head : lloc) : outcome (option lloc) :=
  if (pos =? head)%nat then Ret None
  else match fuel with
       | O => Crash Diverged
       | S f =>
           b ← p pos;
           if b : bool then Ret (Some pos) else n ← get_prev h pos; list_find_prev f h p n head
       end.

(** ** Well-formed lists *)

Definition link (h : links) (a b : lloc) : Prop :=
  (h !! a ≫= lh_next) = Some b /\ (h !! b ≫= lh_prev) = Some a.

Fixpoint path (h : links) (l : list lloc) : Prop :=
  match l with
  | a :: (b :: _) as l' => link h a b /\ path h l'
  | _ => True
  end.

Definition is_list (h : links) (head : lloc) (xs : list lloc) : Prop :=
  path h (head :: xs ++ [head]) /\ NoDup (head :: xs).

(** ** Paths *)

Lemma path_cons h a b l : path h (a :: b :: l) <-> link h a b /\ path h (b :: l).
Proof. done. Qed.

Lemma path_app h l x y r : path h (l ++ x :: y :: r) <-> path h (l ++ [x]) /\ link h x y /\ path h (y :: r).
Proof.
  induction l as [|a l IH]; [cbn; tauto|]. destruct l as [|b l]; cbn [app] in *.
  - rewrite !path_cons. cbn. tauto.
  - rewrite !path_cons, IH. tauto.
Qed.

Lemma path_frame h h' l :
  (forall a, a ∈ removelast l -> (h' !! a ≫= lh_next) = (h !! a ≫= lh_next)) ->
  (forall b, b ∈ tail l -> (h' !! b ≫= lh_prev) = (h !! b ≫= lh_prev)) ->
  path h l -> path h' l.
Proof.
  induction l as [|a [|b l] IH]; [done|done|]. intros Hn Hp [ [H1 H2] H3 ]. split.
  - split; [rewrite Hn; [done|]|rewrite Hp; [done|]]; cbn; constructor.
  - apply IH; [| |done].
    + intros x Hx. apply Hn. cbn [removelast] in *. by constructor.
    + intros x Hx. apply Hp. cbn [tail] in *. by constructor.
Qed.

(** ** Updates of one field *)

Definition nexts (h : links) (l : lloc) : option lloc := h !! l ≫= lh_next.
Definition prevs (h : links) (l : lloc) : option lloc := h !! l ≫= lh_prev.

Record only_next (h h' : links) (l : lloc) (v : option lloc) : Prop := {
  on_next : forall x, nexts h' x = if decide (x = l) then v else nexts h x;
  on_prev : forall x, prevs h' x = prevs h x;
  on_dom : dom h' = dom h
}.

Record only_prev (h h' : links) (l : lloc) (v : option lloc) : Prop := {
  op_next : forall x, nexts h' x = nexts h x;
  op_prev : forall x, prevs h' x = if decide (x = l) then v else prevs h x;
  op_dom : dom h' = dom h
}.

Lemma set_lnext_spec h l v : l ∈ dom h -> exists h', set_lnext h l v = Ret h' /\ only_next h h' l v.
Proof.
  intros [d Hd]%elem_of_dom. unfold set_lnext. rewrite Hd. eexists. split; [done|]. split.
  - intros x. unfold nexts. case_decide as E; [subst x; by rewrite lookup_insert_eq|by rewrite lookup_insert_ne].
  - intros x. unfold prevs. destruct (decide (x = l)) as [->|]; [by rewrite lookup_insert_eq, Hd|by rewrite lookup_insert_ne].
  - by rewrite dom_insert_lookup_L.
Qed.

Lemma set_lprev_spec h l v : l ∈ dom h -> exists h', set_lprev h l v = Ret h' /\ only_prev h h' l v.
Proof.
  intros [d Hd]%elem_of_dom. unfold set_lprev. rewrite Hd. eexists. split; [done|]. split.
  - intros x. unfold nexts. destruct (decide (x = l)) as [->|]; [by rewrite lookup_insert_eq, Hd|by rewrite lookup_insert_ne].
  - intros x. unfold prevs. case_decide as E; [subst x; by rewrite lookup_insert_eq|by rewrite lookup_insert_ne].
  - by rewrite dom_insert_lookup_L.
Qed.

(** What a sequence of link updates did: new [next]s and [prev]s. *)
Record upd (h h' : links) (N P : gmap lloc (option lloc)) : Prop := {
  up_next : forall x, nexts h' x = default (nexts h x) (N !! x);
  up_prev : forall x, prevs h' x = default (prevs h x) (P !! x);
  up_dom : dom h' = dom h
}.

Lemma upd_refl h : upd h h ∅ ∅.
Proof. by split; intros; rewrite ?lookup_empty. Qed.

Lemma upd_next h h' h'' N P l v : upd h h' N P -> only_next h' h'' l v -> upd h h'' (<[l := v]> N) P.
Proof.
  intros [Hn Hp Hd] [Hn' Hp' Hd']. split; [| |congruence].
  - intros x. rewrite Hn'. case_decide as E; [subst x; by rewrite lookup_insert_eq|].
    rewrite lookup_insert_ne by done. apply Hn.
  - intros x. by rewrite Hp'.
Qed.

Lemma upd_prev h h' h'' N P l v : upd h h' N P -> only_prev h' h'' l v -> upd h h'' N (<[l := v]> P).
Proof.
  intros [Hn Hp Hd] [Hn' Hp' Hd']. split; [| |congruence].
  - intros x. by rewrite Hn'.
  - intros x. rewrite Hp'. case_decide as E; [subst x; by rewrite lookup_insert_eq|].
    rewrite lookup_insert_ne by done. apply Hp.
Qed.

Lemma bind_lnext {B} h h1 N P l v (k : links -> outcome B) (Q : B -> Prop) : upd h h1 N P -> l ∈ dom h ->
  (forall h2, upd h h2 (<[l := v]> N) P -> exists b, k h2 = Ret b /\ Q b) ->
  exists b, (set_lnext h1 l v ≫= k) = Ret b /\ Q b.
Proof.
  intros Hu Hl Hk. destruct (set_lnext_spec h1 l v) as (h2 & -> & Ho); [by rewrite (up_dom _ _ _ _ Hu)|].
  apply Hk. by eapply upd_next.
Qed.

Lemma bind_lprev {B} h h1 N P l v (k : links -> outcome B) (Q : B -> Prop) : upd h h1 N P -> l ∈ dom h ->
  (forall h2, upd h h2 N (<[l := v]> P) -> exists b, k h2 = Ret b /\ Q b) ->
  exists b, (set_lprev h1 l v ≫= k) = Ret b /\ Q b.
Proof.
  intros Hu Hl Hk. destruct (set_lprev_spec h1 l v) as (h2 & -> & Ho); [by rewrite (up_dom _ _ _ _ Hu)|].
  apply Hk. by eapply upd_prev.
Qed.

Lemma last_lnext h h1 N P l v (Q : links -> Prop) : upd h h1 N P -> l ∈ dom h ->
  (forall h2, upd h h2 (<[l := v]> N) P -> Q h2) -> exists b, set_lnext h1 l v = Ret b /\ Q b.
Proof.
  intros Hu Hl Hk. destruct (set_lnext_spec h1 l v) as (h2 & -> & Ho); [by rewrite (up_dom _ _ _ _ Hu)|].
  eexists. split; [done|]. apply Hk. by eapply upd_next.
Qed.

Lemma last_lprev h h1 N P l v (Q : links -> Prop) : upd h h1 N P -> l ∈ dom h ->
  (forall h2, upd h h2 N (<[l := v]> P) -> Q h2) -> exists b, set_lprev h1 l v = Ret b /\ Q b.
Proof.
  intros Hu Hl Hk. destruct (set_lprev_spec h1 l v) as (h2 & -> & Ho); [by rewrite (up_dom _ _ _ _ Hu)|].
  eexists. split; [done|]. apply Hk. by eapply upd_prev.
Qed.

(** Runs a block of link updates; the locations' allocation is left to
    [auto].  [h'] is the last heap and [Hu] its updates. *)
Ltac run_links h' Hu :=
  repeat (first [eapply bind_lprev | eapply bind_lnext]; [eassumption || apply upd_refl|auto|intros ? ?]);
  first [eapply last_lprev | eapply last_lnext]; [eassumption || apply upd_refl|auto|intros h' Hu].

(** ** Splitting a list at a position *)

Definition before (head : lloc) (xs : list lloc) : lloc := default head (last xs).
Definition after (head : lloc) (ys : list lloc) : lloc := default head (list.head ys).

Lemma before_snoc (head : lloc) (xs : list lloc) : exists l : list lloc, head :: xs = l ++ [before head xs] /\ (xs = [] /\ l = [] \/ exists l' : list lloc, l = head :: l' /\ xs = l' ++ [before head xs]).
Proof.
  unfold before. destruct xs as [|x xs _] using rev_ind; cbn; [by exists []; eauto|].
  rewrite last_snoc. exists (head :: xs). split; [done|]. right. by exists xs.
Qed.

Lemma after_cons (head : lloc) (ys : list lloc) : exists l : list lloc, ys ++ [head] = after head ys :: l /\ (ys = [] /\ l = [] \/ exists l' : list lloc, l = l' ++ [head] /\ ys = after head ys :: l').
Proof. unfold after. destruct ys as [|y ys]; cbn; [by exists []; eauto|]. exists (ys ++ [head]). split; [done|]. right. by exists ys. Qed.

Lemma is_list_split h head xs ys : is_list h head (xs ++ ys) <->
  path h (head :: xs) /\ link h (before head xs) (after head ys) /\ path h (ys ++ [head]) /\ NoDup (head :: xs ++ ys).
Proof.
  unfold is_list. destruct (before_snoc head xs) as (l1 & H1 & _). destruct (after_cons head ys) as (l2 & H2 & _).
  rewrite <- app_assoc. change (head :: xs ++ ys ++ [head]) with ((head :: xs) ++ ys ++ [head]).
  rewrite H1, H2, <- app_assoc. cbn [app]. rewrite path_app. tauto.
Qed.

(** A segment is kept by updates of [next]s outside all but its last node
    and of [prev]s outside all but its first. *)
Lemma upd_path h h' N P l : upd h h' N P -> path h l ->
  (forall a, a ∈ removelast l -> N !! a = None) -> (forall b, b ∈ tail l -> P !! b = None) -> path h' l.
Proof.
  intros [Hn Hp _] Hl HN HP. apply (path_frame h); [| |done].
  - intros a Ha. specialize (Hn a). rewrite HN in Hn by done. exact Hn.
  - intros b Hb. specialize (Hp b). rewrite HP in Hp by done. exact Hp.
Qed.

Lemma link_dom h a b : link h a b -> a ∈ dom h /\ b ∈ dom h.
Proof.
  intros [H1 H2]. split; apply elem_of_dom; destruct (h !! a) eqn:E1, (h !! b) eqn:E2; cbn in *; try done.
Qed.

Lemma get_next_link h a b : link h a b -> get_next h a = Ret b.
Proof. intros [H _]. unfold get_next. destruct (h !! a); cbn in *; [|done]. by rewrite H. Qed.

Lemma get_prev_link h a b : link h a b -> get_prev h b = Ret a.
Proof. intros [_ H]. unfold get_prev. destruct (h !! b); cbn in *; [|done]. by rewrite H. Qed.

(** Membership in cons and append cells as propositional logic. *)
Ltac mem := rewrite ?elem_of_cons, ?elem_of_app, ?elem_of_cons, ?elem_of_nil in *; tauto.

(** ** Insertion *)

Record cut (head : lloc) (xs ys : list lloc) (p n : lloc) : Prop := {
  cut_p : p = head /\ xs = [] \/ p ∈ xs;
  cut_n : n = head /\ ys = [] \/ n ∈ ys;
  cut_p_once : forall a, a ∈ removelast (head :: xs) -> a <> p;
  cut_n_once : forall b, b ∈ tail (ys ++ [head]) -> b <> n;
  cut_p_ys : p ∉ ys;
  cut_n_xs : n ∉ xs;
  cut_removelast : forall a, a ∈ removelast (head :: xs) -> a ∈ head :: xs;
  cut_tail : forall b, b ∈ tail (ys ++ [head]) -> b ∈ head :: ys
}.

Lemma before_snoc_eq head l p : before head (l ++ [p]) = p /\ removelast (head :: l ++ [p]) = head :: l.
Proof. unfold before. rewrite last_snoc. split; [done|]. exact (removelast_last (head :: l) p). Qed.

Lemma cut_intro head xs ys : NoDup (head :: xs ++ ys) -> cut head xs ys (before head xs) (after head ys).
Proof.
  intros Hnd. apply NoDup_cons in Hnd as [Hh Hnd]. apply NoDup_app in Hnd as (Hnx & Hdis & Hny).
  rewrite not_elem_of_app in Hh. destruct Hh as [Hhx Hhy].
  assert ((before head xs = head /\ xs = [] /\ removelast (head :: xs) = []) \/
          (before head xs ∈ xs /\ forall a, a ∈ removelast (head :: xs) <-> a ∈ head :: xs /\ a <> before head xs)) as Hp.
  { destruct xs as [|p l _] using rev_ind; [by left|right]. destruct (before_snoc_eq head l p) as [-> ->].
    apply NoDup_app in Hnx as (_ & Hlp & _). split; [mem|]. intros a.
    assert (a ∈ l -> a <> p) by (intros Ha ->; apply (Hlp p Ha); constructor).
    assert (head <> p) by (intros ->; apply Hhx; mem). destruct (decide (a = head)) as [->|]; mem. }
  assert ((after head ys = head /\ ys = [] /\ tail (ys ++ [head]) = []) \/
          (after head ys ∈ ys /\ forall a, a ∈ tail (ys ++ [head]) <-> a ∈ head :: ys /\ a <> after head ys)) as Hn.
  { destruct ys as [|n l]; [by left|right]. unfold after. cbn [tail app list.head default].
    apply NoDup_cons in Hny as [Hln _]. split; [constructor|]. intros a. cbn.
    assert (a ∈ l -> a <> n) by (by intros Ha ->).
    assert (head <> n) by (intros ->; apply Hhy; mem). destruct (decide (a = head)) as [->|]; mem. }
  set (p := before head xs) in *. set (n := after head ys) in *. clearbody p n.
  destruct Hp as [(-> & -> & _)|(Hp & Hpa)], Hn as [(-> & -> & _)|(Hn & Hna)];
    split; cbn [removelast tail app]; try (by intros a ?%not_elem_of_nil); try mem; try (intros a; rewrite ?Hpa, ?Hna; tauto);
    first [by apply Hdis | by intros ?; apply (Hdis n)].
Qed.

(** The two outer segments survive when the [next]s outside them, except at
    [p], and the [prev]s outside them, except at [n], are all that changes. *)
Lemma upd_outer h h' head xs ys p n new N P : cut head xs ys p n -> upd h h' N P ->
  path h (head :: xs) -> path h (ys ++ [head]) ->
  (forall a, N !! a <> None -> a = p \/ a = new) -> (forall b, P !! b <> None -> b = n \/ b = new) ->
  new ∉ head :: xs ++ ys -> path h' (head :: xs) /\ path h' (ys ++ [head]).
Proof.
  intros [_ _ Hpo Hno Hpy Hnx Hrl Htl] Hu H1 H2 HN HP Hnew. rewrite elem_of_cons, elem_of_app in Hnew.
  assert (forall a, a <> p -> a <> new -> N !! a = None) as HN'
    by (intros a ? ?; destruct (N !! a) eqn:E; [|done]; destruct (HN a); by rewrite ?E).
  assert (forall b, b <> n -> b <> new -> P !! b = None) as HP'
    by (intros b ? ?; destruct (P !! b) eqn:E; [|done]; destruct (HP b); by rewrite ?E).
  split; eapply upd_path; try done.
  - intros a Ha. apply HN'; [by apply Hpo|]. intros ->. apply Hrl in Ha. mem.
  - cbn [tail]. intros b Hb. apply HP'; intros ->; [by apply Hnx|mem].
  - intros a Ha. rewrite removelast_last in Ha. apply HN'; intros ->; [by apply Hpy|mem].
  - intros b Hb. apply HP'; [by apply Hno|]. intros ->. apply Htl in Hb. mem.
Qed.

Lemma NoDup_insert (head : lloc) xs ys new : NoDup (head :: xs ++ ys) -> new ∉ head :: xs ++ ys ->
  NoDup (head :: xs ++ new :: ys).
Proof.
  intros Hnd Hn. apply (NoDup_Permutation_proper _ (new :: head :: xs ++ ys)).
  - rewrite <- Permutation_middle. by rewrite Permutation_swap.
  - by constructor.
Qed.

(** Evaluates the updates recorded by [run_links] at a location. *)
Ltac upd_at H := first [rewrite (up_next _ _ _ _ H) | rewrite (up_prev _ _ _ _ H)];
  repeat first [rewrite lookup_insert_eq | rewrite lookup_insert_ne by congruence]; cbn.

(** The support of a map of updates. *)
Ltac support := intros ?; repeat (rewrite lookup_insert; case_decide; [by auto|]); by rewrite lookup_empty.

Lemma list_add_between h head xs ys new : is_list h head (xs ++ ys) -> new ∈ dom h -> new ∉ head :: xs ++ ys ->
  exists h', __list_add h new (before head xs) (after head ys) = Ret h' /\
    is_list h' head (xs ++ new :: ys) /\ dom h' = dom h.
Proof.
  intros Hl Hnew Hnin. apply is_list_split in Hl as (Hp1 & Hlk & Hp2 & Hnd).
  pose proof (link_dom _ _ _ Hlk) as [Hd1 Hd2]. pose proof (cut_intro _ _ _ Hnd) as Hcut.
  destruct (after_cons head ys) as (l2 & Hy & _).
  pose proof (is_list_split h head xs (new :: ys)) as Hs.
  set (p := before head xs) in *. set (n := after head ys) in *.
  assert (new <> p /\ new <> n) as [Hnp Hnn].
  { destruct (cut_p _ _ _ _ _ Hcut), (cut_n _ _ _ _ _ Hcut); split; intros ->; mem. }
  unfold __list_add. run_links h' Hu. split; [|apply Hu].
  destruct (upd_outer _ _ _ _ _ _ _ new _ _ Hcut Hu Hp1 Hp2) as [Hq1 Hq2]; [support|support|done|].
  apply is_list_split. fold p. change (after head (new :: ys)) with new. split_and!; [done| | |by apply NoDup_insert].
  - split; [change (nexts h' p = Some new)|change (prevs h' new = Some p)]; by upd_at Hu.
  - cbn [app]. rewrite Hy in Hq2 |- *. split; [|done].
    split; [change (nexts h' new = Some n)|change (prevs h' n = Some new)]; by upd_at Hu.
Qed.

Lemma is_list_mid h head xs e ys : is_list h head (xs ++ e :: ys) ->
  link h (before head xs) e /\ link h e (after head ys) /\ path h (head :: xs) /\ path h (ys ++ [head]) /\
  NoDup (head :: xs ++ ys) /\ e ∉ head :: xs ++ ys.
Proof.
  intros (Hp1 & Hl1 & Hp2 & Hnd)%is_list_split. destruct (after_cons head ys) as (l2 & Hy & _).
  cbn [app] in Hp2. rewrite Hy in Hp2 |- *. destruct Hp2 as [Hl2 Hp2].
  assert (NoDup (e :: head :: xs ++ ys)) as Hn.
  { eapply NoDup_Permutation_proper; [|exact Hnd]. rewrite <- Permutation_middle. apply Permutation_swap. }
  apply NoDup_cons in Hn as [Hn1 Hn2]. by split_and!.
Qed.

(** The neighbours of [e] point to each other: [e] is out. *)
Lemma unlinked h h' head xs e ys N P : is_list h head (xs ++ e :: ys) -> upd h h' N P ->
  nexts h' (before head xs) = Some (after head ys) -> prevs h' (after head ys) = Some (before head xs) ->
  (forall a, N !! a <> None -> a = before head xs \/ a = e) ->
  (forall b, P !! b <> None -> b = after head ys \/ b = e) -> is_list h' head (xs ++ ys).
Proof.
  intros (_ & _ & Hp1 & Hp2 & Hnd & He)%is_list_mid Hu Hn Hp HN HP.
  destruct (upd_outer _ _ _ _ _ _ _ e _ _ (cut_intro _ _ _ Hnd) Hu Hp1 Hp2) as [Hq1 Hq2]; [done..|].
  apply is_list_split. by split_and!.
Qed.

Lemma mid_neq h head xs e ys : is_list h head (xs ++ e :: ys) -> e <> before head xs /\ e <> after head ys.
Proof.
  intros (_ & _ & _ & _ & Hnd & He)%is_list_mid. pose proof (cut_intro _ _ _ Hnd) as Hcut.
  destruct (cut_p _ _ _ _ _ Hcut), (cut_n _ _ _ _ _ Hcut); split; intros Heq; rewrite <- Heq in *; mem.
Qed.

Lemma list_del_between h head xs e ys : is_list h head (xs ++ e :: ys) ->
  exists h', list_del h e = Ret h' /\ is_list h' head (xs ++ ys) /\ dom h' = dom h.
Proof.
  intros Hl. pose proof (is_list_mid _ _ _ _ _ Hl) as (Hl1 & Hl2 & _). destruct (mid_neq _ _ _ _ _ Hl) as [Hne1 Hne2].
  pose proof (link_dom _ _ _ Hl1) as [? ?]. pose proof (link_dom _ _ _ Hl2) as [? ?].
  unfold list_del, __list_del. rewrite (get_prev_link _ _ _ Hl1), (get_next_link _ _ _ Hl2). cbn [mbind outcome_bind].
  change (exists h', (set_lprev h (after head ys) (Some (before head xs)) ≫= fun h =>
    set_lnext h (before head xs) (Some (after head ys))) ≫= (fun h => set_lnext h e LIST_POISON1 ≫= fun h =>
    set_lprev h e LIST_POISON2) = Ret h' /\ is_list h' head (xs ++ ys) /\ dom h' = dom h).
  rewrite outcome_assoc. run_links h' Hu. split; [|apply Hu].
  apply (unlinked h h' head xs e ys _ _ Hl Hu); [by upd_at Hu|by upd_at Hu|support|support].
Qed.

Lemma list_del_init_between h head xs e ys : is_list h head (xs ++ e :: ys) ->
  exists h', list_del_init h e = Ret h' /\ is_list h' head (xs ++ ys) /\ is_list h' e [] /\ dom h' = dom h.
Proof.
  intros Hl. pose proof (is_list_mid _ _ _ _ _ Hl) as (Hl1 & Hl2 & _). destruct (mid_neq _ _ _ _ _ Hl) as [Hne1 Hne2].
  pose proof (link_dom _ _ _ Hl1) as [? ?]. pose proof (link_dom _ _ _ Hl2) as [? ?].
  unfold list_del_init, __list_del, INIT_LIST_HEAD.
  rewrite (get_prev_link _ _ _ Hl1), (get_next_link _ _ _ Hl2). cbn [mbind outcome_bind].
  change (exists h', (set_lprev h (after head ys) (Some (before head xs)) ≫= fun h =>
    set_lnext h (before head xs) (Some (after head ys))) ≫= (fun h => set_lnext h e (Some e) ≫= fun h =>
    set_lprev h e (Some e)) = Ret h' /\ is_list h' head (xs ++ ys) /\ is_list h' e [] /\ dom h' = dom h).
  rewrite outcome_assoc. run_links h' Hu. split_and!; [| |apply Hu].
  - apply (unlinked h h' head xs e ys _ _ Hl Hu); [by upd_at Hu|by upd_at Hu|support|support].
  - split; [|apply NoDup_singleton]. split; [|done].
    split; [change (nexts h' e = Some e)|change (prevs h' e = Some e)]; by upd_at Hu.
Qed.

(** ** The operations on a list *)

Lemma INIT_LIST_HEAD_spec h p : p ∈ dom h ->
  exists h', INIT_LIST_HEAD h p = Ret h' /\ is_list h' p [] /\ upd h h' {[p := Some p]} {[p := Some p]}.
Proof.
  intros Hp. unfold INIT_LIST_HEAD. run_links h' Hu. split; [|exact Hu]. split; [|apply NoDup_singleton].
  split; [|done]. split; [change (nexts h' p = Some p)|change (prevs h' p = Some p)]; by upd_at Hu.
Qed.

Lemma list_first h head xs : is_list h head xs -> get_next h head = Ret (after head xs).
Proof. intros Hl. change xs with ([] ++ xs) in Hl. apply is_list_split in Hl as (_ & Hl & _). by apply get_next_link. Qed.

Lemma list_last h head xs : is_list h head xs -> get_prev h head = Ret (before head xs).
Proof. intros Hl. rewrite <- (app_nil_r xs) in Hl. apply is_list_split in Hl as (_ & Hl & _). by eapply get_prev_link. Qed.

Lemma list_add_head h head xs new : is_list h head xs -> new ∈ dom h -> new ∉ head :: xs ->
  exists h', list_add h new head = Ret h' /\ is_list h' head (new :: xs) /\ dom h' = dom h.
Proof.
  intros Hl Hn Hni. unfold list_add. rewrite (list_first _ _ _ Hl).
  exact (list_add_between h head [] xs new Hl Hn Hni).
Qed.

Lemma list_add_after h head xs x ys new : is_list h head (xs ++ x :: ys) -> new ∈ dom h -> new ∉ head :: xs ++ x :: ys ->
  exists h', list_add h new x = Ret h' /\ is_list h' head (xs ++ x :: new :: ys) /\ dom h' = dom h.
Proof.
  intros Hl Hn Hni. pose proof (is_list_mid _ _ _ _ _ Hl) as (_ & Hx & _). unfold list_add.
  rewrite (get_next_link _ _ _ Hx). cbn [mbind outcome_bind].
  pose proof (list_add_between h head (xs ++ [x]) ys new) as Hb. unfold before in Hb. rewrite last_snoc in Hb. cbn in Hb.
  rewrite <- !app_assoc in Hb. by apply Hb.
Qed.

Lemma list_add_tail_spec h head xs new : is_list h head xs -> new ∈ dom h -> new ∉ head :: xs ->
  exists h', list_add_tail h new head = Ret h' /\ is_list h' head (xs ++ [new]) /\ dom h' = dom h.
Proof.
  intros Hl Hn Hni. unfold list_add_tail. rewrite (list_last _ _ _ Hl).
  pose proof (list_add_between h head xs [] new) as Hb. rewrite app_nil_r in Hb. by apply Hb.
Qed.

Lemma list_empty_spec h head xs : is_list h head xs -> list_empty h head = Ret (bool_decide (xs = [])).
Proof.
  intros Hl. unfold list_empty. rewrite (list_first _ _ _ Hl). cbn [mbind outcome_bind]. f_equal.
  destruct Hl as [_ Hnd]. unfold after. destruct xs as [|x xs].
  - cbn. by rewrite Nat.eqb_refl.
  - rewrite bool_decide_false by done. cbn. apply Nat.eqb_neq. intros ->. apply NoDup_cons in Hnd as [Hn _]. apply Hn. constructor.
Qed.

Lemma list_for_each_from h head xs ys fuel : is_list h head (xs ++ ys) -> (length ys <= fuel)%nat ->
  list_for_each fuel h (after head ys) head = Ret ys.
Proof.
  revert xs ys. induction fuel as [|fuel IH]; intros xs ys Hl Hf.
  - destruct ys; [|cbn in Hf; lia]. cbn. by rewrite Nat.eqb_refl.
  - destruct ys as [|y ys]; [cbn; by rewrite Nat.eqb_refl|]. cbn.
    pose proof (is_list_mid _ _ _ _ _ Hl) as (_ & Hy & _ & _ & _ & Hn).
    rewrite (proj2 (Nat.eqb_neq y head)) by (intros ->; apply Hn; constructor).
    rewrite (get_next_link _ _ _ Hy). cbn. rewrite (IH (xs ++ [y])); [done| |cbn in Hf; lia].
    by rewrite <- app_assoc.
Qed.

(** [list_for_each_prev] with a [break]: the last entry that satisfies the
    test. *)
Lemma list_find_prev_from h head xs ys fuel p (q : lloc -> bool) : is_list h head (xs ++ ys) ->
  (length xs <= fuel)%nat -> (forall x, x ∈ xs -> p x = Ret (q x)) ->
  list_find_prev fuel h p (before head xs) head = Ret (last (base.filter (fun x => q x = true) xs)).
Proof.
  revert xs ys. induction fuel as [|fuel IH]; intros xs ys Hl Hf Hp.
  - destruct xs; [|cbn in Hf; lia]. cbn. by rewrite Nat.eqb_refl.
  - destruct xs as [|x xs _] using rev_ind; [cbn; by rewrite Nat.eqb_refl|].
    unfold before. rewrite last_snoc. change (default head (Some x)) with x. cbn [list_find_prev]. rewrite <- app_assoc in Hl. cbn [app] in Hl.
    pose proof (is_list_mid _ _ _ _ _ Hl) as (Hx & _ & _ & _ & _ & Hn).
    rewrite (proj2 (Nat.eqb_neq x head)) by (intros ->; apply Hn; constructor).
    rewrite Hp by (apply elem_of_app; right; constructor). cbn [mbind outcome_bind]. rewrite filter_app.
    destruct (q x) eqn:Hq.
    + rewrite (filter_cons_True _ x []) by done. by rewrite filter_nil, last_snoc.
    + rewrite (filter_cons_False _ x []) by (by rewrite Hq). rewrite filter_nil, app_nil_r.
      rewrite (get_prev_link _ _ _ Hx). cbn [mbind outcome_bind]. apply (IH xs (x :: ys)); [done| |].
      * rewrite length_app in Hf. cbn in Hf. lia.
      * intros y Hy. apply Hp, elem_of_app. by left.
Qed.

Lemma __list_del_between h head xs e ys : is_list h head (xs ++ e :: ys) ->
  exists h', __list_del h (before head xs) (after head ys) = Ret h' /\ is_list h' head (xs ++ ys) /\ dom h' = dom h.
Proof.
  intros Hl. pose proof (is_list_mid _ _ _ _ _ Hl) as (Hl1 & Hl2 & _). destruct (mid_neq _ _ _ _ _ Hl) as [Hne1 Hne2].
  pose proof (link_dom _ _ _ Hl1) as [? ?]. pose proof (link_dom _ _ _ Hl2) as [? ?].
  unfold __list_del. run_links h' Hu. split; [|apply Hu].
  apply (unlinked h h' head xs e ys _ _ Hl Hu); [by upd_at Hu|by upd_at Hu|support|support].
Qed.

(** Moving an entry of a list: to the front with [list_move], to the back
    with [list_move_tail]; the other entries keep their order. *)
Theorem list_move_spec h head xs e ys : is_list h head (xs ++ e :: ys) ->
  (exists h', list_move h e head = Ret h' /\ is_list h' head (e :: xs ++ ys)) /\
  (exists h', list_move_tail h e head = Ret h' /\ is_list h' head (xs ++ ys ++ [e])).
Proof.
  intros Hl. pose proof (is_list_mid _ _ _ _ _ Hl) as (Hl1 & Hl2 & _ & _ & _ & He).
  destruct (__list_del_between _ _ _ _ _ Hl) as (h1 & Hd & Hl' & Hdom).
  pose proof (link_dom _ _ _ Hl1) as [_ Hed]. rewrite <- Hdom in Hed.
  unfold list_move, list_move_tail. rewrite (get_prev_link _ _ _ Hl1), (get_next_link _ _ _ Hl2).
  cbn [mbind outcome_bind]. rewrite Hd. cbn [mbind outcome_bind]. split.
  - destruct (list_add_head h1 head (xs ++ ys) e Hl' Hed He) as (h' & ? & ? & _). eauto.
  - destruct (list_add_tail_spec h1 head (xs ++ ys) e Hl' Hed He) as (h' & ? & Hq & _).
    rewrite <- app_assoc in Hq. eauto.
Qed.

(** The list with sentinel 0 and entries 1, 2, 3. *)
Definition links_demo : links :=
  list_to_map [(0, mk_list_head (Some 1) (Some 3)); (1, mk_list_head (Some 2) (Some 0));
               (2, mk_list_head (Some 3) (Some 1)); (3, mk_list_head (Some 0) (Some 2));
               (4, mk_list_head (Some 4) (Some 4))]%nat.

Lemma links_demo_list : is_list links_demo 0 [1; 2; 3]%nat.
Proof. split; [repeat split|]. refine (bool_decide_unpack _ _). by vm_compute. Qed.

Lemma list_move_spec_witness :
  (exists h', list_move links_demo 2 0 = Ret h' /\ is_list h' 0 [2; 1; 3]%nat) /\
  (exists h', list_move_tail links_demo 2 0 = Ret h' /\ is_list h' 0 [1; 3; 2]%nat).
Proof. exact (list_move_spec links_demo 0 [1]%nat 2 [3]%nat links_demo_list). Defined.

(** The heap bounds the length of its lists: a walk with one unit of fuel per
    allocated node always ends. *)
Lemma path_dom h a l x : path h (a :: l) -> x ∈ l -> x ∈ dom h.
Proof.
  revert a. induction l as [|b l IH]; intros a Hp Hx; [by apply not_elem_of_nil in Hx|].
  destruct Hp as [Hl Hp]. apply elem_of_cons in Hx as [->|Hx]; [by apply (link_dom _ _ _ Hl)|by eapply IH].
Qed.

Lemma list_length_links h head xs : is_list h head xs -> (length xs <= size h)%nat.
Proof.
  intros [Hp Hn]. apply NoDup_cons in Hn as [_ Hn].
  rewrite <- size_dom, <- (size_list_to_set (C:=gset lloc) xs) by done. apply subseteq_size.
  intros x Hx%elem_of_list_to_set. eapply path_dom; [done|]. apply elem_of_app. by left.
Qed.

(** A list is not changed by updates of other nodes. *)
Lemma is_list_frame h h' head xs : is_list h head xs ->
  (forall l, l ∈ head :: xs -> nexts h' l = nexts h l /\ prevs h' l = prevs h l) -> is_list h' head xs.
Proof.
  intros [Hp Hn] Hf. split; [|done].
  assert (forall a, a ∈ removelast (head :: xs ++ [head]) \/ a ∈ tail (head :: xs ++ [head]) -> a ∈ head :: xs) as Hin.
  { intros a. change (head :: xs ++ [head]) with ((head :: xs) ++ [head]). rewrite removelast_last.
    cbn [tail app]. intros; mem. }
  apply (path_frame h); [| |done].
  - intros a Ha. apply (Hf a), Hin. by left.
  - intros b Hb. apply (Hf b), Hin. by right.
Qed.

Lemma is_list_dom h head xs : is_list h head xs -> forall l, l ∈ head :: xs -> l ∈ dom h.
Proof.
  intros [Hp _] l Hl. eapply path_dom; [done|]. mem.
Qed.
