(* ===== verification/Hlist.v ===== *)
(** * Lists with a single head pointer

    The second half of src/src/common/list.h.  A node points to the next node and
    to the pointer that points to it: the [first] of the head or the [next] of the
    node before.  [is_hlist m h xs] says that the list of head [h] is well formed
    and has the nodes [xs].  The iteration macros of the first half that allow
    the entries to be removed are here as well. *)
From S2P Require Import Prelude ListH.

Abbreviation hloc := nat.

(** The address of a pointer to a node: [&h->first] or [&n->next]. *)
Abbreviation haddr := (nat + hloc)%type.
Definition first_of (h : nat) : haddr := inl h.
Definition next_of (n : hloc) : haddr := inr n.

(** The pointers to nodes by their addresses, and the [pprev]s of the nodes. *)
Record hmem := mk_hmem { hm_ptr : gmap haddr (option hloc); hm_pprev : gmap hloc (option haddr) }.

Definition get_ptr (m : hmem) (a : haddr) : outcome (option hloc) := get_or UseAfterFree (hm_ptr m !! a).
Definition get_pprev (m : hmem) (n : hloc) : outcome (option haddr) := get_or UseAfterFree (hm_pprev m !! n).
Definition set_ptr (m : hmem) (a : haddr) (v : option hloc) : outcome hmem := _ ← get_ptr m a; Ret (mk_hmem (<[a := v]> (hm_ptr m)) (hm_pprev m)).
Definition set_pprev (m : hmem) (n : hloc) (v : option haddr) : outcome hmem := _ ← get_pprev m n; Ret (mk_hmem (hm_ptr m) (<[n := v]> (hm_pprev m))).

(** [if(n) n->pprev = v;] *)
Definition set_pprev_opt (m : hmem) (n : option hloc) (v : option haddr) : outcome hmem :=
  match n with None => Ret m | Some n => set_pprev m n v end.

Definition INIT_HLIST_HEAD (m : hmem) (h : nat) : outcome hmem := set_ptr m (first_of h) None.
Definition INIT_HLIST_NODE (m : hmem) (n : hloc) : outcome hmem := m ← set_ptr m (next_of n) None; set_pprev m n None.

Definition hlist_unhashed (m : hmem) (n : hloc) : outcome bool := p ← get_pprev m n; Ret (bool_decide (p = None)).
Definition hlist_empty (m : hmem) (h : nat) : outcome bool := f ← get_ptr m (first_of h); Ret (bool_decide (f = None)).

Definition __hlist_del (m : hmem) (n : hloc) : outcome hmem :=
  next ← get_ptr m (next_of n);
  pprev ← get_pprev m n;
  a ← get_or NullDeref pprev;
  m ← set_ptr m a next;
  set_pprev_opt m next pprev.

Definition hlist_del (m : hmem) (n : hloc) : outcome hmem :=
  m ← __hlist_del m n;
  m ← set_ptr m (next_of n) None;
  set_pprev m n None.

Definition hlist_del_init (m : hmem) (n : hloc) : outcome hmem :=
  p ← get_pprev m n;
  match p with
  | None => Ret m
  | Some _ => m ← __hlist_del m n; INIT_HLIST_NODE m n
  end.

Definition hlist_add_head (m : hmem) (n : hloc) (h : nat) : outcome hmem :=
  first ← get_ptr m (first_of h);
  m ← set_ptr m (next_of n) first;
  m ← set_pprev_opt m first (Some (next_of n));
  m ← set_ptr m (first_of h) (Some n);
  set_pprev m n (Some (first_of h)).

Definition hlist_add_before (m : hmem) (n next : hloc) : outcome hmem :=
  p ← get_pprev m next;
  m ← set_pprev m n p;
  m ← set_ptr m (next_of n) (Some next);
  m ← set_pprev m next (Some (next_of n));
  a ← get_or NullDeref p;
  set_ptr m a (Some n).

(** [next] is put behind [n]. *)
Definition hlist_add_after (m : hmem) (n next : hloc) : outcome hmem :=
  nn ← get_ptr m (next_of n);
  m ← set_ptr m (next_of next) nn;
  m ← set_ptr m (next_of n) (Some next);
  m ← set_pprev m next (Some (next_of n));
  set_pprev_opt m nn (Some (next_of next)).

(** [hlist_for_each]: the nodes from [pos] on. *)
Fixpoint hlist_for_each (fuel : nat) (m : hmem) (pos : option hloc) : outcome (list hloc) :=
  match pos with
  | None => Ret []
  | Some n => match fuel with
              | O => Crash Diverged
              | S f => nx ← get_ptr m (next_of n); rest ← hlist_for_each f m nx; Ret (n :: rest)
              end
  end.

(** [hlist_for_each_safe] with a body that may remove and free the node: the next
    one is read before. *)
Fixpoint hlist_for_each_safe (fuel : nat) (body : hmem -> hloc -> outcome hmem) (m : hmem) (pos : option hloc) : outcome hmem :=
  match pos with
  | None => Ret m
  | Some p => match fuel with
              | O => Crash Diverged
              | S f => n ← get_ptr m (next_of p); m ← body m p; hlist_for_each_safe f body m n
              end
  end.

(** [list_for_each_safe], the same for the lists of [ListH]: [n] is read before the
    body, and its successor after it. *)
Fixpoint list_for_each_safe (fuel : nat) (body : links -> lloc -> outcome links) (h : links) (pos n head : lloc) : outcome links :=
  if (pos =? head)%nat then Ret h
  else match fuel with
       | O => Crash Diverged
       | S f => h ← body h pos; n' ← get_next h n; list_for_each_safe f body h n n' head
       end.

Definition list_safe (body : links -> lloc -> outcome links) (h : links) (head : lloc) : outcome links :=
  pos ← get_next h head; n ← get_next h pos; list_for_each_safe (size h) body h pos n head.

(** [free] of an entry. *)
Definition free_entry (h : links) (l : lloc) : outcome links := _ ← get_or UseAfterFree (h !! l); Ret (delete l h).

(** ** Well-formed lists *)

(** From the pointer at [a] the nodes are [xs], and the pointer behind them is at
    [b]. *)
Fixpoint hpath (m : hmem) (a : haddr) (xs : list hloc) (b : haddr) : Prop :=
  match xs with
  | [] => a = b
  | x :: xs => hm_ptr m !! a = Some (Some x) /\ hm_pprev m !! x = Some (Some a) /\ hpath m (next_of x) xs b
  end.

(** The address of the pointer behind [xs]. *)
Fixpoint hend (a : haddr) (xs : list hloc) : haddr := match xs with [] => a | x :: xs => hend (next_of x) xs end.

Definition hseg (m : hmem) (a : haddr) (xs : list hloc) : Prop := hpath m a xs (hend a xs) /\ hm_ptr m !! hend a xs = Some None.

Definition is_hlist (m : hmem) (h : nat) (xs : list hloc) : Prop := hseg m (first_of h) xs /\ NoDup xs.

(** Every node has its [pprev], and the other way round. *)
Definition is_hnode (m : hmem) (n : hloc) : Prop := is_Some (hm_ptr m !! next_of n) /\ is_Some (hm_pprev m !! n).

(** ** Lemmas *)

Lemma hend_app a xs ys : hend a (xs ++ ys) = hend (hend a xs) ys.
Proof. revert a. by induction xs; intros; cbn. Qed.

Lemma hend_snoc a xs x : hend a (xs ++ [x]) = next_of x.
Proof. by rewrite hend_app. Qed.

Lemma hend_in a xs : hend a xs = a \/ exists x, x ∈ xs /\ hend a xs = next_of x.
Proof.
  induction xs as [|x xs _] using rev_ind; [by left|]. right. exists x. rewrite hend_snoc. split; [set_solver|done].
Qed.

Lemma hpath_end m a xs b : hpath m a xs b -> b = hend a xs.
Proof. revert a. induction xs as [|x xs IH]; intros a; cbn; [done|]. intros (_ & _ & H). by apply IH. Qed.

Lemma hpath_app m a xs ys b : hpath m a (xs ++ ys) b <-> hpath m a xs (hend a xs) /\ hpath m (hend a xs) ys b.
Proof. revert a. induction xs as [|x xs IH]; intros a; cbn; [naive_solver|]. rewrite IH. naive_solver. Qed.

Lemma hseg_app m a xs ys : hseg m a (xs ++ ys) <-> hpath m a xs (hend a xs) /\ hseg m (hend a xs) ys.
Proof. unfold hseg. rewrite hpath_app, hend_app. naive_solver. Qed.

Lemma hseg_cons m a x xs : hseg m a (x :: xs) <-> hm_ptr m !! a = Some (Some x) /\ hm_pprev m !! x = Some (Some a) /\ hseg m (next_of x) xs.
Proof. unfold hseg. cbn. naive_solver. Qed.

(** What is read at the head of a segment. *)
Lemma hseg_first m a xs : hseg m a xs -> hm_ptr m !! a = Some (head xs).
Proof. destruct xs as [|x xs]; [by intros [_ H]|]. by intros [H _]%hseg_cons. Qed.

(** The addresses of the pointers to [xs]. *)
Fixpoint haddrs (a : haddr) (xs : list hloc) : list haddr := match xs with [] => [] | x :: xs => a :: haddrs (next_of x) xs end.

Lemma haddrs_in a xs b : b ∈ haddrs a xs -> b = a \/ exists x, x ∈ xs /\ b = next_of x.
Proof.
  revert a. induction xs as [|x xs IH]; intros a; cbn; [set_solver|]. intros [->|[->|(y & Hy & ->)]%IH]%elem_of_cons; [by left| |]; right; [exists x|exists y]; set_solver.
Qed.

Lemma hend_fresh a xs : NoDup xs -> (forall x, x ∈ xs -> a <> next_of x) -> hend a xs ∉ haddrs a xs.
Proof.
  revert a. induction xs as [|x xs IH]; intros a Hn Ha; cbn; [set_solver|]. apply NoDup_cons in Hn as [Hx Hn]. rewrite not_elem_of_cons. split.
  - destruct (hend_in (next_of x) xs) as [->|(y & Hy & ->)]; intros E; symmetry in E; eapply Ha, E; set_solver.
  - apply IH; [done|]. intros y Hy [= ->]. done.
Qed.

Lemma hpath_frame m m' a xs b : hpath m a xs b -> (forall c, c ∈ haddrs a xs -> hm_ptr m' !! c = hm_ptr m !! c) -> (forall x, x ∈ xs -> hm_pprev m' !! x = hm_pprev m !! x) -> hpath m' a xs b.
Proof.
  revert a. induction xs as [|x xs IH]; intros a; cbn; [done|]. intros (H1 & H2 & H3) Hp Hq.
  rewrite Hp, Hq by set_solver. split_and!; [done|done|]. apply IH; [done| |]; intros; [apply Hp|apply Hq]; set_solver.
Qed.

(** A segment whose first pointer moves from [b] to [c]. *)
Lemma hseg_move m m' b c ys : hseg m b ys -> hm_ptr m' !! c = Some (head ys) -> NoDup ys -> (forall y, y ∈ ys -> hm_ptr m' !! next_of y = hm_ptr m !! next_of y) ->
  (forall y, y ∈ ys -> hm_pprev m' !! y = if decide (Some y = head ys) then Some (Some c) else hm_pprev m !! y) -> hseg m' c ys.
Proof.
  destruct ys as [|y ys]; [done|]. rewrite !hseg_cons. cbn [head]. intros (H1 & H2 & H3 & H4) Hc Hn Hp Hq. apply NoDup_cons in Hn as [Hy Hn].
  split_and!; [done|rewrite Hq by set_solver; by rewrite decide_True|]. split.
  - eapply hpath_frame; [exact H3| |].
    + intros d [->|(z & Hz & ->)]%haddrs_in; apply Hp; set_solver.
    + intros z Hz. rewrite Hq by set_solver. rewrite decide_False; [done|]. intros [= ->]. done.
  - destruct (hend_in (next_of y) ys) as [E|(z & Hz & E)]; rewrite E in *; rewrite Hp; set_solver.
Qed.

(** *** A node in, a node out *)

Section Middle.
Context (m m' : hmem) (a : haddr) (xs ys : list hloc) (n : hloc).
Hypothesis (Ha : forall x, x ∈ n :: xs ++ ys -> a <> next_of x) (Hn : NoDup (n :: xs ++ ys)).

Lemma middle_facts : NoDup xs /\ NoDup ys /\ n ∉ xs /\ n ∉ ys /\ (forall x, x ∈ xs -> x ∉ ys) /\ hend a xs <> next_of n /\ (forall y, y ∈ ys -> next_of y <> hend a xs) /\ hend a xs ∉ haddrs a xs.
Proof.
  apply NoDup_cons in Hn as [Hx (H1 & H2 & H3)%NoDup_app]. split_and!; [done|done|set_solver|set_solver|done| | |].
  - destruct (hend_in a xs) as [->|(y & Hy & ->)]; [apply Ha; set_solver|intros [= ->]; set_solver].
  - intros y Hy. destruct (hend_in a xs) as [->|(z & Hz & ->)]; [intros E; symmetry in E; eapply Ha, E; set_solver|intros [= ->]; set_solver].
  - apply hend_fresh; [done|]. intros x H. apply Ha. set_solver.
Qed.

(** Everything but the pointer behind [xs], the links of [n] and the [pprev] of the
    first of [ys] stays. *)
Hypothesis (Hp : forall b, b <> hend a xs -> b <> next_of n -> hm_ptr m' !! b = hm_ptr m !! b).
Hypothesis (Hq : forall x, x <> n -> Some x <> head ys -> hm_pprev m' !! x = hm_pprev m !! x).

Lemma front_kept : hpath m a xs (hend a xs) -> hpath m' a xs (hend a xs).
Proof.
  destruct middle_facts as (H1 & H2 & H3 & H4 & H5 & H6 & H7 & H8). intros H. eapply hpath_frame; [exact H| |].
  - intros c Hc. apply Hp; [by intros ->|]. apply haddrs_in in Hc as [->|(x & Hx & ->)]; [apply Ha; set_solver|]. intros [= ->]. done.
  - intros x Hx. apply Hq; [by intros ->|]. intros E. destruct ys as [|y ys']; [done|]. injection E as ->. eapply H5; [exact Hx|set_solver].
Qed.

Lemma back_kept b c : hseg m b ys -> (b = hend a xs \/ b = next_of n) -> hm_ptr m' !! c = Some (head ys) -> (forall y, head ys = Some y -> hm_pprev m' !! y = Some (Some c)) -> hseg m' c ys.
Proof.
  destruct middle_facts as (H1 & H2 & H3 & H4 & H5 & H6 & H7 & H8). intros Hs Hb Hc Hy. eapply hseg_move; [exact Hs|done|done| |].
  - intros y Hi. apply Hp; [by apply H7|]. intros [= ->]. done.
  - intros y Hi. case_decide as E; [by apply Hy|]. apply Hq; [|done]. intros ->. done.
Qed.

Lemma node_in : hseg m a (xs ++ ys) -> hm_ptr m' !! hend a xs = Some (Some n) -> hm_ptr m' !! next_of n = Some (head ys) -> hm_pprev m' !! n = Some (Some (hend a xs)) ->
  (forall y, head ys = Some y -> hm_pprev m' !! y = Some (Some (next_of n))) -> hseg m' a (xs ++ n :: ys).
Proof. intros [H1 H2]%hseg_app Hx Hn1 Hn2 Hy. apply hseg_app. split; [by apply front_kept|]. apply hseg_cons. split_and!; [done|done|]. eapply back_kept; [exact H2|by left|done|done]. Qed.

Lemma node_out : hseg m a (xs ++ n :: ys) -> hm_ptr m' !! hend a xs = Some (head ys) -> (forall y, head ys = Some y -> hm_pprev m' !! y = Some (Some (hend a xs))) -> hseg m' a (xs ++ ys).
Proof. intros [H1 (H2 & H3 & H4)%hseg_cons]%hseg_app Hx Hy. apply hseg_app. split; [by apply front_kept|]. eapply back_kept; [exact H4|by right|done|done]. Qed.
End Middle.

(** *** The operations *)

Lemma set_ptr_ok m a v : is_Some (hm_ptr m !! a) -> set_ptr m a v = Ret (mk_hmem (<[a := v]> (hm_ptr m)) (hm_pprev m)).
Proof. intros [x H]. unfold set_ptr, get_ptr. by rewrite H. Qed.

Lemma set_pprev_ok m n v : is_Some (hm_pprev m !! n) -> set_pprev m n v = Ret (mk_hmem (hm_ptr m) (<[n := v]> (hm_pprev m))).
Proof. intros [x H]. unfold set_pprev, get_pprev. by rewrite H. Qed.

(** The [pprev]s after [set_pprev_opt]. *)
Definition put_pprev (p : gmap hloc (option haddr)) (n : option hloc) (v : option haddr) : gmap hloc (option haddr) := match n with None => p | Some n => <[n := v]> p end.

Lemma set_pprev_opt_ok m n v : (forall x, n = Some x -> is_Some (hm_pprev m !! x)) -> set_pprev_opt m n v = Ret (mk_hmem (hm_ptr m) (put_pprev (hm_pprev m) n v)).
Proof. destruct n as [n|]; cbn; [intros H; by rewrite set_pprev_ok by auto|]. by destruct m. Qed.

Lemma put_pprev_lookup p n v x : put_pprev p n v !! x = if decide (Some x = n) then Some v else p !! x.
Proof. destruct n as [n|]; cbn; [|by rewrite decide_False]. destruct (decide (x = n)) as [->|]; [by rewrite lookup_insert_eq, decide_True|]. rewrite lookup_insert_ne by done. by rewrite decide_False by congruence. Qed.

Lemma hseg_head_pprev m a xs x : hseg m a xs -> head xs = Some x -> hm_pprev m !! x = Some (Some a).
Proof. destruct xs as [|y xs]; [done|]. intros (_ & H & _)%hseg_cons [= ->]. done. Qed.

Lemma get_ptr_first m a xs : hseg m a xs -> get_ptr m a = Ret (head xs).
Proof. intros H. unfold get_ptr. by rewrite (hseg_first m a xs H). Qed.

(** The memory has the same nodes and heads. *)
Definition same_cells (m m' : hmem) : Prop := dom (hm_ptr m') = dom (hm_ptr m) /\ dom (hm_pprev m') = dom (hm_pprev m).

Lemma same_cells_hnode m m' n : same_cells m m' -> is_hnode m n -> is_hnode m' n.
Proof. intros [H1 H2] [H3 H4]. split; apply elem_of_dom; [rewrite H1|rewrite H2]; by apply elem_of_dom. Qed.

Lemma first_not_next h x : first_of h <> next_of x.
Proof. done. Qed.

Ltac hcells := split; cbn [hm_ptr hm_pprev]; rewrite ?dom_insert_lookup_L by (rewrite ?lookup_insert_is_Some; eauto); reflexivity.

Lemma dom_put_pprev p n v : (forall x, n = Some x -> is_Some (p !! x)) -> dom (put_pprev p n v) = dom p.
Proof. destruct n; cbn; [|done]. intros H. apply dom_insert_lookup_L. auto. Qed.

(** What an insertion in the middle writes, in any order. *)
Lemma insert_memory m a xs n ys v w : hseg m a (xs ++ ys) -> NoDup (n :: xs ++ ys) -> (forall x, x ∈ n :: xs ++ ys -> a <> next_of x) -> is_hnode m n ->
  (forall b, v !! b = if decide (b = hend a xs) then Some (Some n) else if decide (b = next_of n) then Some (head ys) else hm_ptr m !! b) ->
  (forall x, w !! x = if decide (x = n) then Some (Some (hend a xs)) else if decide (Some x = head ys) then Some (Some (next_of n)) else hm_pprev m !! x) ->
  hseg (mk_hmem v w) a (xs ++ n :: ys) /\ same_cells m (mk_hmem v w).
Proof.
  intros Hs Hn Ha [Hn1 Hn2] Hv Hw. pose proof (middle_facts a xs ys n Ha Hn) as (H1 & H2 & H3 & H4 & H5 & H6 & H7 & H8). split.
  - apply (node_in m); cbn [hm_ptr hm_pprev]; [done|done| | |done| | | |].
    + intros b Hb1 Hb2. rewrite Hv. by rewrite !decide_False.
    + intros x Hx1 Hx2. rewrite Hw. by rewrite !decide_False.
    + rewrite Hv. by rewrite decide_True.
    + rewrite Hv. rewrite decide_False by done. by rewrite decide_True.
    + rewrite Hw. by rewrite decide_True.
    + intros y Hy. rewrite Hw. rewrite decide_False; [by rewrite decide_True|]. intros ->. destruct ys; [done|]. injection Hy as ->. set_solver.
  - apply hseg_app in Hs as [Hs1 Hs2]. split; cbn [hm_ptr hm_pprev]; apply set_eq; intros x; rewrite !elem_of_dom.
    + rewrite Hv. case_decide as E; [subst x; rewrite (hseg_first _ _ _ Hs2); naive_solver|]. case_decide as E'; [subst x; naive_solver|done].
    + rewrite Hw. case_decide as E; [subst x; naive_solver|]. case_decide as E'; [|done]. symmetry in E'. rewrite (hseg_head_pprev _ _ _ _ Hs2 E'). naive_solver.
Qed.

Ltac hlookup := repeat first [rewrite lookup_insert_eq | rewrite lookup_insert_ne by (done || congruence) | rewrite put_pprev_lookup | case_decide; simplify_eq]; try done; try congruence; eauto.

Lemma hlist_intro m m' h xs : hseg m' (first_of h) xs /\ same_cells m m' -> NoDup xs -> is_hlist m' h xs /\ same_cells m m'.
Proof. unfold is_hlist. tauto. Qed.

Lemma hlist_add_head_ok m h xs n : is_hlist m h xs -> is_hnode m n -> n ∉ xs ->
  exists m', hlist_add_head m n h = Ret m' /\ is_hlist m' h (n :: xs) /\ same_cells m m'.
Proof.
  intros [Hs Hd] Hn Hx. pose proof Hn as [Hn1 Hn2]. unfold hlist_add_head. rewrite (get_ptr_first _ _ _ Hs). cbn [mbind outcome_bind].
  rewrite set_ptr_ok by done. cbn [mbind outcome_bind]. rewrite set_pprev_opt_ok by (intros x E; cbn [hm_pprev]; rewrite (hseg_head_pprev _ _ _ _ Hs E); eauto). cbn [mbind outcome_bind].
  rewrite set_ptr_ok by (cbn [hm_ptr]; rewrite lookup_insert_ne by done; rewrite (hseg_first _ _ _ Hs); eauto). cbn [mbind outcome_bind].
  rewrite set_pprev_ok by (cbn [hm_pprev]; hlookup). eexists. split; [reflexivity|]. cbn [hm_ptr hm_pprev].
  assert (NoDup (n :: xs)) as Hd' by (by apply NoDup_cons). apply hlist_intro; [|done].
  apply (insert_memory m (first_of h) [] n xs); [done|done|done|done| |]; intros b; cbn [hend]; hlookup.
Qed.

Lemma hlist_add_before_ok m h xs x ys n : is_hlist m h (xs ++ x :: ys) -> is_hnode m n -> n ∉ xs ++ x :: ys ->
  exists m', hlist_add_before m n x = Ret m' /\ is_hlist m' h (xs ++ n :: x :: ys) /\ same_cells m m'.
Proof.
  intros [Hs Hd] Hn Hx. pose proof Hn as [Hn1 Hn2]. pose proof Hs as [Hs1 Hs2]%hseg_app. pose proof (hseg_head_pprev _ _ _ _ Hs2 eq_refl) as Hpx.
  assert (n <> x) as Hnx by set_solver. assert (NoDup (n :: xs ++ x :: ys)) as Hd' by (by apply NoDup_cons).
  pose proof (middle_facts (first_of h) xs (x :: ys) n (fun x _ => first_not_next h x) Hd') as (_ & _ & _ & _ & _ & He & _).
  unfold hlist_add_before, get_pprev. rewrite Hpx. cbn [mbind outcome_bind get_or].
  rewrite set_pprev_ok by done. cbn [mbind outcome_bind]. rewrite set_ptr_ok by done. cbn [mbind outcome_bind].
  rewrite set_pprev_ok by (cbn [hm_pprev]; rewrite lookup_insert_ne by done; eauto). cbn [mbind outcome_bind get_or].
  rewrite set_ptr_ok by (cbn [hm_ptr]; rewrite lookup_insert_ne by done; rewrite (hseg_first _ _ _ Hs2); eauto). eexists. split; [reflexivity|]. cbn [hm_ptr hm_pprev].
  apply hlist_intro; [|by rewrite <- Permutation_middle].
  apply (insert_memory m (first_of h) xs n (x :: ys)); [done|done|done|done| |]; intros b; cbn [head]; hlookup.
Qed.

Lemma hlist_add_after_ok m h xs x ys n : is_hlist m h (xs ++ x :: ys) -> is_hnode m n -> n ∉ xs ++ x :: ys ->
  exists m', hlist_add_after m x n = Ret m' /\ is_hlist m' h (xs ++ x :: n :: ys) /\ same_cells m m'.
Proof.
  intros [Hs Hd] Hn Hx. pose proof Hn as [Hn1 Hn2]. pose proof Hs as [Hs1 (_ & _ & Hs2)%hseg_cons]%hseg_app.
  assert (n <> x) as Hnx by set_solver. assert (NoDup (n :: (xs ++ [x]) ++ ys)) as Hd' by (rewrite <- app_assoc; by apply NoDup_cons).
  unfold hlist_add_after. rewrite (get_ptr_first _ _ _ Hs2). cbn [mbind outcome_bind]. rewrite set_ptr_ok by done. cbn [mbind outcome_bind].
  rewrite set_ptr_ok by (cbn [hm_ptr]; rewrite lookup_insert_ne by (intros [= ->]; done); rewrite (hseg_first _ _ _ Hs2); eauto). cbn [mbind outcome_bind].
  rewrite set_pprev_ok by done. cbn [mbind outcome_bind].
  rewrite set_pprev_opt_ok by (intros y E; cbn [hm_pprev]; apply lookup_insert_is_Some; right; rewrite (hseg_head_pprev _ _ _ _ Hs2 E); split; [|eauto]; intros ->; destruct ys; [done|]; injection E as ->; set_solver).
  eexists. split; [reflexivity|]. cbn [hm_ptr hm_pprev]. apply hlist_intro.
  - replace (xs ++ x :: n :: ys) with ((xs ++ [x]) ++ n :: ys) by (by rewrite <- app_assoc).
    apply (insert_memory m (first_of h) (xs ++ [x]) n ys); [by rewrite <- app_assoc|done|done|done| |]; intros b; rewrite hend_snoc; hlookup.
    exfalso. destruct ys as [|y ys]; [done|]. set_solver.
  - replace (xs ++ x :: n :: ys) with ((xs ++ [x]) ++ n :: ys) by (by rewrite <- app_assoc). by rewrite <- Permutation_middle.
Qed.

(** After a removal the node is as [INIT_HLIST_NODE] makes it. *)
Lemma hlist_del_ok m h xs x ys : is_hlist m h (xs ++ x :: ys) ->
  exists m', hlist_del m x = Ret m' /\ is_hlist m' h (xs ++ ys) /\ hlist_unhashed m' x = Ret true /\ same_cells m m'.
Proof.
  intros [Hs Hd]. pose proof Hs as [Hs1 Hs2]%hseg_app. pose proof Hs2 as (Hs3 & Hs4 & Hs5)%hseg_cons.
  assert (NoDup (x :: xs ++ ys)) as Hd' by (by rewrite Permutation_middle).
  pose proof (middle_facts (first_of h) xs ys x (fun x _ => first_not_next h x) Hd') as (_ & _ & _ & Hxy & _ & He & _).
  assert (forall y, head ys = Some y -> y <> x) as Hyx by (intros y E ->; destruct ys; [done|]; injection E as ->; set_solver).
  unfold hlist_del, __hlist_del. rewrite (get_ptr_first _ _ _ Hs5). unfold get_pprev. rewrite Hs4. cbn [mbind outcome_bind get_or].
  rewrite set_ptr_ok by (rewrite Hs3; eauto). cbn [mbind outcome_bind].
  rewrite set_pprev_opt_ok by (intros y E; cbn [hm_pprev]; rewrite (hseg_head_pprev _ _ _ _ Hs5 E); eauto). cbn [mbind outcome_bind].
  rewrite set_ptr_ok by (cbn [hm_ptr]; rewrite lookup_insert_ne by done; rewrite (hseg_first _ _ _ Hs5); eauto). cbn [mbind outcome_bind].
  rewrite set_pprev_ok by (cbn [hm_pprev]; rewrite put_pprev_lookup; case_decide; eauto). eexists. split; [reflexivity|]. cbn [hm_ptr hm_pprev]. split_and!.
  - split; [|by apply NoDup_cons in Hd' as [_ ?]].
    apply (node_out m _ (first_of h) xs ys x); cbn [hm_ptr hm_pprev]; [done|done| | |done| |].
    + intros b Hb1 Hb2. by rewrite !lookup_insert_ne by congruence.
    + intros y Hy1 Hy2. rewrite lookup_insert_ne by congruence. rewrite put_pprev_lookup. by rewrite decide_False.
    + rewrite lookup_insert_ne by congruence. by rewrite lookup_insert_eq.
    + intros y Hy. rewrite lookup_insert_ne by (intros ->; by eapply Hyx). rewrite put_pprev_lookup. by rewrite decide_True.
  - unfold hlist_unhashed, get_pprev. cbn [hm_pprev]. by rewrite lookup_insert_eq.
  - split; cbn [hm_ptr hm_pprev].
    + rewrite !dom_insert_lookup_L; [done|rewrite Hs3; eauto|rewrite lookup_insert_ne by done; rewrite (hseg_first _ _ _ Hs5); eauto].
    + rewrite dom_insert_lookup_L by (rewrite put_pprev_lookup; case_decide; eauto). apply dom_put_pprev. intros y E. rewrite (hseg_head_pprev _ _ _ _ Hs5 E). eauto.
Qed.

Lemma hpath_pprev m a xs b x : hpath m a xs b -> x ∈ xs -> x ∈ dom (hm_pprev m).
Proof.
  revert a. induction xs as [|y xs IH]; intros a; [set_solver|]. cbn. intros (_ & H & H') [->|Hx]%elem_of_cons; [by apply elem_of_dom|by eapply IH].
Qed.

Lemma hlist_length m h xs : is_hlist m h xs -> (length xs <= size (hm_pprev m))%nat.
Proof.
  intros [ [H _] Hd]. rewrite <- (size_dom (D := gset hloc)), <- (size_list_to_set (C := gset hloc)) by done. apply subseteq_size. intros x Hx%elem_of_list_to_set. by eapply hpath_pprev.
Qed.

Lemma hlist_for_each_ok m a xs fuel : hseg m a xs -> (length xs <= fuel)%nat -> hlist_for_each fuel m (head xs) = Ret xs.
Proof.
  revert a fuel. induction xs as [|x xs IH]; intros a fuel Hs Hf; [by destruct fuel|]. apply hseg_cons in Hs as (_ & _ & Hs). destruct fuel as [|f]; cbn in Hf; [lia|].
  cbn [head hlist_for_each]. rewrite (get_ptr_first _ _ _ Hs). cbn [mbind outcome_bind]. by rewrite (IH (next_of x)) by (done || lia).
Qed.

(** ** Sequences of operations *)

Inductive hop := HAddHead (n : hloc) | HAddBefore (n x : hloc) | HAddAfter (x n : hloc) | HDel (x : hloc).

Definition run_hop (h : nat) (o : hop) (m : hmem) : outcome hmem :=
  match o with
  | HAddHead n => hlist_add_head m n h
  | HAddBefore n x => hlist_add_before m n x
  | HAddAfter x n => hlist_add_after m x n
  | HDel x => hlist_del m x
  end.

Fixpoint run_hops (h : nat) (os : list hop) (m : hmem) : outcome hmem :=
  match os with [] => Ret m | o :: os => m ← run_hop h o m; run_hops h os m end.

(** The same on lists: a new node is not in the list. *)
Inductive hop_spec : hop -> list hloc -> list hloc -> Prop :=
| spec_add_head n xs : n ∉ xs -> hop_spec (HAddHead n) xs (n :: xs)
| spec_add_before n x xs ys : n ∉ xs ++ x :: ys -> hop_spec (HAddBefore n x) (xs ++ x :: ys) (xs ++ n :: x :: ys)
| spec_add_after n x xs ys : n ∉ xs ++ x :: ys -> hop_spec (HAddAfter x n) (xs ++ x :: ys) (xs ++ x :: n :: ys)
| spec_del x xs ys : hop_spec (HDel x) (xs ++ x :: ys) (xs ++ ys).

Inductive hops_spec : list hop -> list hloc -> list hloc -> Prop :=
| hops_nil xs : hops_spec [] xs xs
| hops_cons o os xs ys zs : hop_spec o xs ys -> hops_spec os ys zs -> hops_spec (o :: os) xs zs.

Definition new_node (o : hop) : option hloc := match o with HAddHead n | HAddBefore n _ | HAddAfter _ n => Some n | HDel _ => None end.

Lemma run_hop_ok h o m xs ys : is_hlist m h xs -> (forall n, new_node o = Some n -> is_hnode m n) -> hop_spec o xs ys ->
  exists m', run_hop h o m = Ret m' /\ is_hlist m' h ys /\ same_cells m m'.
Proof.
  intros Hl Hn Hs. destruct Hs as [n xs H|n x xs ys H|n x xs ys H|x xs ys]; cbn in *.
  - apply hlist_add_head_ok; auto.
  - apply hlist_add_before_ok; auto.
  - apply hlist_add_after_ok; auto.
  - destruct (hlist_del_ok m h xs x ys Hl) as (m' & H1 & H2 & _ & H3). by exists m'.
Qed.

(** *** Freeing the entries *)

(** The entries [ds] are freed already in [g]; the head is still there. *)
Lemma free_from h head ds xs fuel g n : is_list h head (ds ++ xs) -> (length xs <= fuel)%nat -> (forall l, g !! l = if decide (l ∈ ds) then None else h !! l) ->
  match xs with [] => True | _ :: ys => n = after head ys end ->
  exists h', list_for_each_safe fuel free_entry g (after head xs) n head = Ret h' /\ (forall l, h' !! l = if decide (l ∈ ds ++ xs) then None else h !! l).
Proof.
  revert ds fuel g n. induction xs as [|x ys IH]; intros ds fuel g n Hl Hf Hg Hn.
  - exists g. split; [|by rewrite app_nil_r]. change (after head []) with head. destruct fuel; cbn; by rewrite Nat.eqb_refl.
  - destruct fuel as [|f]; cbn in Hf; [lia|]. pose proof Hl as [_ Hd]. apply NoDup_cons in Hd as [Hh Hd]. apply NoDup_app in Hd as (Hd1 & Hd2 & Hd3). apply NoDup_cons in Hd3 as [Hx Hy].
    change (after head (x :: ys)) with x. cbn [list_for_each_safe]. destruct (Nat.eqb_spec x head) as [->|Hxh]; [set_solver|].
    assert (is_Some (h !! x)) as [d Hd] by (apply elem_of_dom; eapply is_list_dom; [exact Hl|set_solver]).
    assert (g !! x = Some d) as Hgx by (by rewrite Hg, decide_False by set_solver). assert (free_entry g x = Ret (delete x g)) as -> by (unfold free_entry; by rewrite Hgx). cbn [mbind outcome_bind]. subst n.
    assert (after head ys ∈ head :: ds ++ x :: ys /\ after head ys ∉ ds ++ [x]) as [Ha1 Ha2] by (destruct ys as [|y ys]; cbn; set_solver).
    assert (exists n', get_next h (after head ys) = Ret n' /\ match ys with [] => True | _ :: zs => n' = after head zs end) as (n' & Hn' & Hm).
    { replace (ds ++ x :: ys) with ((ds ++ [x]) ++ ys) in Hl by (by rewrite <- app_assoc). destruct ys as [|y zs].
      - eexists. split; [apply (list_first _ _ _ Hl)|done].
      - eexists. split; [|reflexivity]. change (after head (y :: zs)) with y. apply get_next_link, (is_list_mid _ _ _ _ _ Hl). }
    assert (get_next (delete x g) (after head ys) = Ret n') as ->.
    { rewrite <- Hn'. unfold get_next. rewrite lookup_delete_ne by set_solver. by rewrite Hg, decide_False by set_solver. }
    cbn [mbind outcome_bind]. destruct (IH (ds ++ [x]) f (delete x g) n') as (h' & H1 & H2); [by rewrite <- app_assoc|lia| |done|].
    + intros l. destruct (decide (l = x)) as [->|Hlx]; [rewrite lookup_delete_eq, decide_True; [done|set_solver]|].
      rewrite lookup_delete_ne by done. rewrite Hg. destruct (decide (l ∈ ds)), (decide (l ∈ ds ++ [x])); set_solver.
    + exists h'. split; [done|]. intros l. rewrite H2, <- app_assoc. done.
Qed.

(** ** Theorems *)

(** The operations refine those on lists: any sequence of insertions at the head,
    before a node and behind a node and of removals succeeds, and afterwards an
    iteration sees the nodes in the order that the same operations on a list
    give. *)
Theorem hlist_refines h os m xs ys : is_hlist m h xs -> (forall o n, o ∈ os -> new_node o = Some n -> is_hnode m n) -> hops_spec os xs ys ->
  exists m' f, run_hops h os m = Ret m' /\ is_hlist m' h ys /\ get_ptr m' (first_of h) = Ret f /\ hlist_for_each (size (hm_pprev m')) m' f = Ret ys.
Proof.
  intros Hl Hn Hs. revert m Hl Hn. induction Hs as [xs|o os xs ys zs Ho _ IH]; intros m Hl Hn; cbn [run_hops].
  - exists m, (head xs). split_and!; [done|done|by apply get_ptr_first, Hl|]. eapply hlist_for_each_ok; [apply Hl|by eapply hlist_length].
  - destruct (run_hop_ok h o m xs ys Hl) as (m1 & -> & Hl1 & Hc); [intros n; apply Hn; set_solver|done|]. cbn [mbind outcome_bind]. apply IH; [done|].
    intros o' n' Ho' En. eapply same_cells_hnode; [exact Hc|]. eapply Hn; [|exact En]. set_solver.
Qed.

(** Freeing every entry is safe with [list_for_each_safe] (it is not with
    [list_for_each]): exactly the entries are freed. *)
Theorem safe_iteration_frees h head xs : is_list h head xs -> exists h', list_safe free_entry h head = Ret h' /\ (forall l, h' !! l = if decide (l ∈ xs) then None else h !! l).
Proof.
  intros Hl. unfold list_safe. rewrite (list_first h head xs Hl). cbn [mbind outcome_bind].
  assert (exists n, get_next h (after head xs) = Ret n /\ match xs with [] => True | _ :: ys => n = after head ys end) as (n & -> & Hn).
  { destruct xs as [|x ys]; eexists; [by split; [apply (list_first _ _ _ Hl)|]|]. split; [|reflexivity]. change (after head (x :: ys)) with x.
    apply get_next_link, (is_list_mid _ _ [] _ _ Hl). }
  cbn [mbind outcome_bind]. apply (free_from h head [] xs); [done|by eapply list_length_links|done|done].
Qed.

Lemma safe_iteration_frees_witness : exists h', list_safe free_entry links_demo 0 = Ret h' /\ h' !! 1%nat = None /\ h' !! 3%nat = None /\ is_Some (h' !! 0%nat).
Proof.
  destruct (safe_iteration_frees links_demo 0 [1; 2; 3]%nat links_demo_list) as (h' & H1 & H2). exists h'. split; [exact H1|]. rewrite !H2.
  split_and!; [by vm_compute|by vm_compute|]. by eexists.
Defined.

(** *** A concrete list *)

Definition hdemo : hmem :=
  mk_hmem (list_to_map [(first_of 0, Some 1%nat); (next_of 1, Some 2%nat); (next_of 2, None); (next_of 3, None)])
          (list_to_map [(1%nat, Some (first_of 0)); (2%nat, Some (next_of 1)); (3%nat, None)]).

Lemma hdemo_list : is_hlist hdemo 0 [1; 2]%nat.
Proof. split; [|refine (bool_decide_unpack _ _); by vm_compute]. split; [|done]. by split_and!. Qed.

Lemma hlist_refines_witness : exists m' f, run_hops 0 [HAddBefore 3 2; HDel 1; HAddAfter 2 1] hdemo = Ret m' /\ get_ptr m' (first_of 0) = Ret f /\
  hlist_for_each (size (hm_pprev m')) m' f = Ret [3; 2; 1]%nat.
Proof.
  destruct (hlist_refines 0 [HAddBefore 3 2; HDel 1; HAddAfter 2 1] hdemo [1; 2]%nat [3; 2; 1]%nat hdemo_list) as (m' & f & H1 & _ & H2 & H3); [| |by exists m', f].
  - intros o n Ho En. repeat (apply elem_of_cons in Ho as [->|Ho]); [..|by apply elem_of_nil in Ho]; simplify_eq/=; split; by eexists.
  - eapply hops_cons; [apply (spec_add_before 3 2 [1%nat] []); set_solver|]. eapply hops_cons; [apply (spec_del 1 [] [3; 2]%nat)|].
    eapply hops_cons; [apply (spec_add_after 1 2 [3%nat] []); set_solver|]. constructor.
Defined.
