(* ===== verification/TsQueue.v ===== *)
(** * The connection queue

    src/src/trackerserver/ts_queue.c (ds_queue.c holds the same [init_queue]
    and [queue_active]).  The queue is a circular list with a mutex.  The
    emptiness test at the start of a pop is made before the mutex is taken, so
    a pop is two steps, and other threads run between them; every other
    operation is one step under the mutex (the unlocked test reads one pointer,
    which each locked operation writes once). *)
From S2P Require Import Prelude ListH.

Definition init_queue (h : links) (cq_head : lloc) : outcome links := INIT_LIST_HEAD h cq_head.

Definition queue_active (h : links) (cq_head : lloc) : outcome bool :=
  e ← list_empty h cq_head; Ret (negb e).

Definition queue_walk (h : links) (cq_head : lloc) : outcome Z :=
  a ← queue_active h cq_head;
  if negb a then Ret 0
  else
    first ← get_next h cq_head;
    xs ← list_for_each (size h) h first cq_head;
    Ret (Z.of_nat (length xs)).

Definition conn_item_queue_push (h : links) (cq_head conn_item : lloc) : outcome links :=
  list_add_tail h conn_item cq_head.

(** The part of a pop under the mutex: the loop stops at the first entry. *)
Definition conn_item_pop_locked (h : links) (cq_head : lloc) : outcome (links * option lloc) :=
  plist ← get_next h cq_head;
  if (plist =? cq_head)%nat then Ret (h, None)
  else h ← list_del_init h plist; Ret (h, Some plist).

Definition conn_item_queue_pop (h : links) (cq_head : lloc) : outcome (links * option lloc) :=
  a ← queue_active h cq_head;
  if negb a then Ret (h, None) else conn_item_pop_locked h cq_head.

(** ** Threads *)

(** A thread is idle, or has found the queue active and not yet locked it. *)
Inductive pc := PIdle | PChecked.

(** The links, the program counters, the items no queue holds, and the
    history: the items pushed and the items popped, in order. *)
Record qstate := mk_qstate {
  qs_links : links;
  qs_pc : nat -> pc;
  qs_owned : list lloc;
  qs_pushed : list lloc;
  qs_popped : list lloc
}.

Definition set_pc (f : nat -> pc) (t : nat) (p : pc) : nat -> pc :=
  fun t' => if decide (t' = t) then p else f t'.

Inductive qstep (q : lloc) : qstate -> qstate -> Prop :=
| q_push st x own1 own2 h' :
    qs_owned st = own1 ++ x :: own2 ->
    conn_item_queue_push (qs_links st) q x = Ret h' ->
    qstep q st (mk_qstate h' (qs_pc st) (own1 ++ own2) (qs_pushed st ++ [x]) (qs_popped st))
| q_check st t a :
    qs_pc st t = PIdle ->
    queue_active (qs_links st) q = Ret a ->
    qstep q st (mk_qstate (qs_links st) (set_pc (qs_pc st) t (if a : bool then PChecked else PIdle))
                  (qs_owned st) (qs_pushed st) (qs_popped st))
| q_pop st t h' :
    qs_pc st t = PChecked ->
    conn_item_pop_locked (qs_links st) q = Ret (h', None) ->
    qstep q st (mk_qstate h' (set_pc (qs_pc st) t PIdle) (qs_owned st) (qs_pushed st) (qs_popped st))
| q_pop_item st t h' x :
    qs_pc st t = PChecked ->
    conn_item_pop_locked (qs_links st) q = Ret (h', Some x) ->
    qstep q st (mk_qstate h' (set_pc (qs_pc st) t PIdle) (x :: qs_owned st) (qs_pushed st) (qs_popped st ++ [x])).

(** A new queue and the items [items] in the hands of the threads. *)
Definition qinit (q : lloc) (items : list lloc) (st : qstate) : Prop :=
  is_list (qs_links st) q [] /\ qs_owned st = items /\ qs_pushed st = [] /\ qs_popped st = [] /\
  NoDup (q :: items) /\ Forall (fun x => x ∈ dom (qs_links st)) items.

(** The queue holds what was pushed and not popped, oldest first; an item is
    in one place only. *)
Definition queue_inv (q : lloc) (items : list lloc) (st : qstate) : Prop :=
  exists xs, is_list (qs_links st) q xs /\ qs_pushed st = qs_popped st ++ xs /\
    qs_owned st ++ xs ≡ₚ items /\ NoDup (q :: items) /\
    Forall (fun x => x ∈ dom (qs_links st)) items.

(** ** Lemmas *)

Lemma queue_active_spec h q xs : is_list h q xs -> queue_active h q = Ret (negb (bool_decide (xs = []))).
Proof. intros Hl. unfold queue_active. by rewrite (list_empty_spec _ _ _ Hl). Qed.

Lemma pop_locked_spec h q xs : is_list h q xs ->
  match xs with
  | [] => conn_item_pop_locked h q = Ret (h, None)
  | x :: xs' => exists h', conn_item_pop_locked h q = Ret (h', Some x) /\ is_list h' q xs' /\ dom h' = dom h
  end.
Proof.
  intros Hl. unfold conn_item_pop_locked. rewrite (list_first _ _ _ Hl). cbn [mbind outcome_bind].
  destruct xs as [|x xs]; [by rewrite Nat.eqb_refl|]. change (after q (x :: xs)) with x.
  destruct (list_del_init_between h q [] x xs Hl) as (h' & -> & Hl' & _ & Hd).
  rewrite (proj2 (Nat.eqb_neq x q)); [by eauto|].
  intros ->. destruct Hl as [_ [Hn _]%NoDup_cons]. apply Hn. constructor.
Qed.

Lemma qinit_inv q items st : qinit q items st -> queue_inv q items st.
Proof.
  intros (Hl & Ho & Hp & Hq & Hn & Hd). exists []. rewrite Ho, Hp, Hq, !app_nil_r. by split_and!.
Qed.

Lemma push_ok q items st x own1 own2 : queue_inv q items st -> qs_owned st = own1 ++ x :: own2 ->
  exists h', conn_item_queue_push (qs_links st) q x = Ret h' /\
    queue_inv q items (mk_qstate h' (qs_pc st) (own1 ++ own2) (qs_pushed st ++ [x]) (qs_popped st)).
Proof.
  intros (xs & Hl & Hp & Hperm & Hn & Hd) Ho. unfold conn_item_queue_push. rewrite Ho in Hperm.
  assert (NoDup (q :: x :: own1 ++ own2 ++ xs)) as Hn'.
  { eapply NoDup_Permutation_proper; [|exact Hn]. rewrite <- Hperm, <- app_assoc. cbn.
    by rewrite <- Permutation_middle. }
  apply NoDup_cons in Hn' as [Hq [Hx _]%NoDup_cons]. rewrite !elem_of_cons, !elem_of_app in *.
  destruct (list_add_tail_spec (qs_links st) q xs x Hl) as (h' & -> & Hl' & Hdom).
  { rewrite Forall_forall in Hd. apply Hd. rewrite <- Hperm. mem. }
  { rewrite elem_of_cons. intros [->|?]; tauto. }
  exists h'. split; [done|]. exists (xs ++ [x]). cbn. split_and!; [done| | |done|by rewrite Hdom].
  - by rewrite Hp, app_assoc.
  - rewrite <- Hperm. rewrite <- !app_assoc. cbn. apply Permutation_app_head.
    rewrite (Permutation_app_comm xs [x]). cbn. by rewrite <- Permutation_middle.
Qed.

Lemma queue_step_inv q items st st' : queue_inv q items st -> qstep q st st' -> queue_inv q items st'.
Proof.
  intros Hi Hs. inversion Hs as [? x own1 own2 h' Ho Hr|? t a Hpc Hr|? t h' Hpc Hr|? t h' x Hpc Hr]; subst.
  - destruct (push_ok _ _ _ _ _ _ Hi Ho) as (h'' & Hr' & Hi'). rewrite Hr in Hr'. by injection Hr' as <-.
  - exact Hi.
  - destruct Hi as (xs & Hl & Hi). pose proof (pop_locked_spec _ _ _ Hl) as Hp. destruct xs as [|x xs].
    + rewrite Hr in Hp. injection Hp as ->. by exists [].
    + destruct Hp as (h'' & Hp & _). congruence.
  - destruct Hi as (xs & Hl & Hpp & Hperm & Hi). pose proof (pop_locked_spec _ _ _ Hl) as Hp. destruct xs as [|y xs].
    + congruence.
    + destruct Hp as (h'' & Hp & Hl' & Hdom). rewrite Hr in Hp. injection Hp as -> ->.
      exists xs. cbn. rewrite Hdom. split_and!; [done| | |tauto..].
      * by rewrite Hpp, <- app_assoc.
      * rewrite <- Hperm. by rewrite <- Permutation_middle.
Qed.

(** ** Theorems *)

(** C28. In every interleaving of pushes and pops by any number of threads,
    the unlocked test of a pop included, the queue is first in first out and
    loses or duplicates nothing: what was pushed is what was popped followed by
    what the queue still holds, and no item is in two places. *)
Theorem queue_fifo q items st st' : qinit q items st -> star (qstep q) st st' ->
  exists xs, is_list (qs_links st') q xs /\ qs_pushed st' = qs_popped st' ++ xs /\
    NoDup (qs_owned st' ++ xs) /\ qs_owned st' ++ xs ≡ₚ items.
Proof.
  intros Hi Hr.
  assert (queue_inv q items st') as (xs & Hl & Hp & Hperm & Hn & _).
  { eapply star_invariant; [|by apply qinit_inv|done]. intros s s'. apply queue_step_inv. }
  exists xs. split_and!; [done|done| |done]. rewrite Hperm. by apply NoDup_cons in Hn as [_ ?].
Qed.

(** No operation of a thread fails, in any state an interleaving reaches:
    pushing an item the thread holds, testing, popping under the mutex (also
    when another thread emptied the queue after the test) and counting all
    return, and the count is the number of items in the queue. *)
Theorem queue_never_fails q items st st' : qinit q items st -> star (qstep q) st st' ->
  (forall x, x ∈ qs_owned st' -> exists h, conn_item_queue_push (qs_links st') q x = Ret h) /\
  (exists a, queue_active (qs_links st') q = Ret a) /\
  (exists h r, conn_item_pop_locked (qs_links st') q = Ret (h, r)) /\
  queue_walk (qs_links st') q = Ret (Z.of_nat (length (qs_pushed st') - length (qs_popped st'))).
Proof.
  intros Hi Hr.
  assert (queue_inv q items st') as Hinv.
  { eapply star_invariant; [|by apply qinit_inv|done]. intros s s'. apply queue_step_inv. }
  split.
  { intros x (l1 & l2 & Ho)%list_elem_of_split. destruct (push_ok _ _ _ _ _ _ Hinv Ho) as (h & ? & _). eauto. }
  destruct Hinv as (xs & Hl & Hp & _). pose proof (queue_active_spec _ _ _ Hl) as Ha. split_and!; [by eauto| |].
  - pose proof (pop_locked_spec _ _ _ Hl) as Hq. destruct xs; [by eauto|]. destruct Hq as (? & ? & _). eauto.
  - unfold queue_walk. rewrite Ha. cbn [mbind outcome_bind]. rewrite negb_involutive, Hp, length_app.
    rewrite Nat.add_comm, Nat.add_sub. case_bool_decide as E; [by subst xs|].
    rewrite (list_first _ _ _ Hl). cbn [mbind outcome_bind].
    rewrite (list_for_each_from _ _ [] xs _ Hl); [done|]. by eapply list_length_links.
Qed.

(** A queue at 0, the items 1 and 2, and two threads that test before either
    pops. *)
Definition q_links : links := list_to_map ((fun i => (i, mk_list_head (Some i) (Some i))) <$> [0; 1; 2]%nat).

Definition q_start : qstate := mk_qstate q_links (fun _ => PIdle) [1; 2]%nat [] [].

Definition q_pushed1 : qstate :=
  mk_qstate (match conn_item_queue_push q_links 0 1 with Ret h => h | Crash _ => ∅ end)
    (fun _ => PIdle) [2]%nat [1]%nat [].

Lemma q_start_init : qinit 0 [1; 2]%nat q_start.
Proof.
  split_and!; [ | reflexivity | reflexivity | reflexivity | | ].
  - split; [split; [split; reflexivity|exact I]|apply NoDup_singleton].
  - refine (bool_decide_unpack _ _). by vm_compute.
  - refine (bool_decide_unpack _ _). by vm_compute.
Qed.

Lemma q_run : exists st', star (qstep 0) q_start st' /\ qs_popped st' = [1]%nat /\ qs_owned st' = [1; 2]%nat.
Proof.
  eexists. split.
  - eapply star_step; [apply (q_push 0 q_start 1 [] [2]%nat); reflexivity|].
    eapply star_step; [apply (q_check 0 q_pushed1 0 true); reflexivity|].
    eapply star_step; [apply (q_check 0 _ 1 true); reflexivity|].
    eapply star_step; [eapply (q_pop_item 0 _ 0); reflexivity|].
    eapply star_step; [eapply (q_pop 0 _ 1); reflexivity|]. apply star_refl.
  - split; reflexivity.
Qed.

Lemma queue_fifo_witness : exists st' xs, qs_popped st' = [1]%nat /\
  is_list (qs_links st') 0 xs /\ qs_pushed st' = qs_popped st' ++ xs /\
  NoDup (qs_owned st' ++ xs) /\ qs_owned st' ++ xs ≡ₚ [1; 2]%nat.
Proof.
  destruct q_run as (st' & Hr & Hp & _). exists st'.
  destruct (queue_fifo 0 [1; 2]%nat q_start st' q_start_init Hr) as (xs & Hx). exists xs. split; [exact Hp|exact Hx].
Defined.

Lemma queue_never_fails_witness : exists st', qs_popped st' = [1]%nat /\
  (forall x, x ∈ qs_owned st' -> exists h, conn_item_queue_push (qs_links st') 0 x = Ret h) /\
  (exists a, queue_active (qs_links st') 0 = Ret a) /\
  (exists h r, conn_item_pop_locked (qs_links st') 0 = Ret (h, r)) /\
  queue_walk (qs_links st') 0 = Ret (Z.of_nat (length (qs_pushed st') - length (qs_popped st'))).
Proof.
  destruct q_run as (st' & Hr & Hp & _). exists st'. split; [exact Hp|].
  exact (queue_never_fails 0 [1; 2]%nat q_start st' q_start_init Hr).
Defined.
