(* ===== verification/SchedTimer.v ===== *)
(** * Timers

    src/src/common/sched_timer.c.  Timers wait in a circular list ordered by
    deadline; worker threads pop the expired ones, run their callbacks outside
    the mutex and free them. *)
From Stdlib Require Import Sorted.
From S2P Require Import Prelude ListH.

(** [callback] is a function pointer, NULL or the name of a function; an
    argument is a pointer, 0 when NULL. *)
Record timer := mk_timer {
  deadline : Z;
  callback : option Z;
  argv : list Z
}.

Definition TIMER_MAX_ARG : nat := 8.

(** The sentinel [timer_list] is location 0. *)
Definition timer_list : lloc := 0%nat.

(** The list nodes, the timers they are embedded in, and the next fresh
    location (locations are not reused, so that a location names a timer for
    good). *)
Record tstate := mk_tstate {
  tm_links : links;
  tm_timers : gmap lloc timer;
  tm_brk : lloc
}.

Definition set_links (st : tstate) (h : links) : tstate := mk_tstate h (tm_timers st) (tm_brk st).

Definition get_timer (st : tstate) (t : lloc) : outcome timer := get_or UseAfterFree (tm_timers st !! t).

(** [timer_alloc] and the assignments of [sched_timer] to the new timer. *)
Definition timer_alloc (malloc_ok : bool) (st : tstate) (t : timer) : outcome (tstate * lloc) :=
  if malloc_ok then
    let l := tm_brk st in
    Ret (mk_tstate (<[l := mk_list_head None None]> (tm_links st)) (<[l := t]> (tm_timers st)) (S l), l)
  else Crash AssertFailed.

Definition timer_free (st : tstate) (t : lloc) : outcome tstate :=
  _ ← get_timer st t;
  Ret (mk_tstate (delete t (tm_links st)) (delete t (tm_timers st)) (tm_brk st)).

Definition timer_add (st : tstate) (t : lloc) : outcome tstate :=
  tm ← get_timer st t;
  h ← INIT_LIST_HEAD (tm_links st) t;
  pos ← get_prev h timer_list;
  find ← list_find_prev (size h) h
           (fun p => tmp ← get_timer st p; Ret (deadline tmp <=? deadline tm)) pos timer_list;
  h ← list_add h t (default timer_list find);
  Ret (set_links st h).

Definition __timer_remove (st : tstate) (t : lloc) : outcome tstate :=
  h ← list_del (tm_links st) t; Ret (set_links st h).

Definition __timer_peek (st : tstate) : outcome (option lloc) :=
  e ← list_empty (tm_links st) timer_list;
  if e : bool then Ret None else n ← get_next (tm_links st) timer_list; Ret (Some n).

(** The variadic arguments up to the NULL that ends them. *)
Fixpoint timer_args (i : nat) (ap : list Z) : outcome (list Z) :=
  match ap with
  | [] => Crash OutOfBounds
  | arg :: ap' =>
      if arg =? 0 then Ret []
      else if (TIMER_MAX_ARG <=? i)%nat then Crash AssertFailed
      else rest ← timer_args (S i) ap'; Ret (arg :: rest)
  end.

(** [now] is what [nowus] returned. *)
Definition sched_timer (malloc_ok : bool) (now : Z) (st : tstate) (usec : Z) (cb : option Z) (ap : list Z) :
    outcome tstate :=
  args ← timer_args 0 ap;
  '(st, t) ← timer_alloc malloc_ok st (mk_timer (s64 (now + usec)) cb args);
  timer_add st t.

(** The locked part of a round of [sched_yielded]: the timer taken off the
    list, if the first one has expired at [now]. *)
Definition timer_take (now : Z) (st : tstate) : outcome (tstate * option lloc) :=
  t ← __timer_peek st;
  match t with
  | None => Ret (st, None)
  | Some t =>
      tm ← get_timer st t;
      if now <? deadline tm then Ret (st, None)
      else st ← __timer_remove st t; Ret (st, Some t)
  end.

Section Yield.
(** The state outside this file, and the callbacks, which may add timers. *)
Context {W : Type} (run : Z -> list Z -> W -> tstate -> outcome (W * tstate)) (nowus : W -> Z * W).

(** [sched_yielded]: the loop; the result is the number of timers run. *)
Fixpoint sched_yielded (fuel : nat) (w : W) (st : tstate) (n : nat) : outcome (W * tstate * nat) :=
  match fuel with
  | O => Crash Diverged
  | S f =>
      let '(now, w) := nowus w in
      '(st, t) ← timer_take now st;
      match t with
      | None => Ret (w, st, n)
      | Some t =>
          tm ← get_timer st t;
          '(w, st) ← match callback tm with
                     | Some cb => run cb (argv tm) w st
                     | None => Ret (w, st)
                     end;
          st ← timer_free st t;
          sched_yielded f w st (S n)
      end
  end.
End Yield.

Definition timer_init (h : links) : outcome links := INIT_LIST_HEAD h timer_list.

(** ** The invariant *)

(** The deadline of a timer, 0 when it is freed. *)
Definition ddl (st : tstate) (t : lloc) : Z :=
  match tm_timers st !! t with Some tm => deadline tm | None => 0 end.

Definition by_deadline (st : tstate) (a b : lloc) : Prop := ddl st a <= ddl st b.

(** [xs]: the waiting timers, earliest deadline first.  [ys]: the timers taken
    off the list whose callbacks run. *)
Record timer_inv (st : tstate) (xs ys : list lloc) : Prop := {
  tv_list : is_list (tm_links st) timer_list xs;
  tv_sorted : StronglySorted (by_deadline st) xs;
  tv_timers : forall t, t ∈ dom (tm_timers st) <-> t ∈ xs ++ ys;
  tv_nodes : dom (tm_links st) = {[timer_list]} ∪ dom (tm_timers st);
  tv_nodup : NoDup (xs ++ ys);
  tv_sentinel : timer_list ∉ dom (tm_timers st);
  tv_brk : forall t, t ∈ dom (tm_links st) -> (t < tm_brk st)%nat
}.

(** ** Sorted lists *)

(** A sorted list splits at any deadline. *)
Lemma sorted_split st xs d : StronglySorted (by_deadline st) xs ->
  exists xs1 xs2, xs = xs1 ++ xs2 /\ Forall (fun x => ddl st x <= d) xs1 /\ Forall (fun x => d < ddl st x) xs2.
Proof.
  induction 1 as [|x xs Hs IH Hf]; [by exists [], []|].
  destruct (Z.le_gt_cases (ddl st x) d) as [Hle|Hgt].
  - destruct IH as (xs1 & xs2 & -> & H1 & H2). exists (x :: xs1), xs2. split_and!; [done|by constructor|done].
  - exists [], (x :: xs). split_and!; [done|constructor|]. constructor; [lia|].
    eapply Forall_impl; [exact Hf|]. unfold by_deadline. intros y Hy. lia.
Qed.

Lemma sorted_insert st xs1 xs2 t : StronglySorted (by_deadline st) (xs1 ++ xs2) ->
  Forall (fun x => ddl st x <= ddl st t) xs1 -> Forall (fun x => ddl st t < ddl st x) xs2 ->
  StronglySorted (by_deadline st) (xs1 ++ t :: xs2).
Proof.
  induction xs1 as [|x xs1 IH]; intros Hs H1 H2; cbn in *.
  - constructor; [done|]. eapply Forall_impl; [exact H2|]. unfold by_deadline. intros; lia.
  - apply StronglySorted_inv in Hs as [Hs Hf]. apply Forall_cons in H1 as [Hx H1].
    constructor; [by apply IH|]. apply Forall_app in Hf as [? ?]. apply Forall_app. split; [done|]. by constructor.
Qed.

Lemma sorted_ext st st' xs : (forall x, x ∈ xs -> ddl st' x = ddl st x) ->
  StronglySorted (by_deadline st) xs -> StronglySorted (by_deadline st') xs.
Proof.
  intros He. induction 1 as [|x xs Hs IH Hf]; constructor.
  - apply IH. intros y Hy. apply He. by constructor.
  - rewrite Forall_forall in *. intros y Hy. unfold by_deadline. rewrite !He by by constructor. by apply Hf.
Qed.

Lemma last_filter_split st xs1 xs2 d :
  Forall (fun x => ddl st x <= d) xs1 -> Forall (fun x => d < ddl st x) xs2 ->
  base.filter (fun x => (ddl st x <=? d) = true) (xs1 ++ xs2) = xs1.
Proof.
  intros H1 H2. induction H1 as [|x xs1 Hx _ IH]; cbn [app].
  - induction H2 as [|x xs2 Hx _ IH]; [done|]. rewrite filter_cons_False; [done|]. rewrite Z.leb_le. lia.
  - rewrite filter_cons_True by (rewrite Z.leb_le; lia). by rewrite IH.
Qed.

(** ** Adding a timer *)

Lemma is_list_alloc h xs l d : is_list h timer_list xs -> l ∉ dom h -> is_list (<[l := d]> h) timer_list xs.
Proof.
  intros Hl Hn. apply (is_list_frame h); [done|]. intros x Hx%(is_list_dom _ _ _ Hl).
  unfold nexts, prevs. by rewrite lookup_insert_ne by (by intros ->).
Qed.

Lemma timer_add_sorted st xs t tm : is_list (tm_links st) timer_list xs -> StronglySorted (by_deadline st) xs ->
  tm_timers st !! t = Some tm -> t ∈ dom (tm_links st) -> t ∉ timer_list :: xs ->
  (forall x, x ∈ xs -> x ∈ dom (tm_timers st)) ->
  exists h xs1 xs2, timer_add st t = Ret (set_links st h) /\ xs = xs1 ++ xs2 /\
    Forall (fun x => ddl st x <= deadline tm) xs1 /\ Forall (fun x => deadline tm < ddl st x) xs2 /\
    is_list h timer_list (xs1 ++ t :: xs2) /\ dom h = dom (tm_links st).
Proof.
  intros Hl Hs Ht Hd Hn Hx. unfold timer_add.
  assert (get_timer st t = Ret tm) as -> by (unfold get_timer; by rewrite Ht). cbn [mbind outcome_bind].
  destruct (INIT_LIST_HEAD_spec (tm_links st) t Hd) as (h1 & -> & _ & Hu). cbn [mbind outcome_bind].
  assert (is_list h1 timer_list xs) as Hl1.
  { apply (is_list_frame (tm_links st)); [done|]. intros l Hlin.
    rewrite (up_next _ _ _ _ Hu), (up_prev _ _ _ _ Hu), !lookup_singleton_ne by (intros ->; done). done. }
  rewrite (list_last _ _ _ Hl1). cbn [mbind outcome_bind].
  destruct (sorted_split st xs (deadline tm) Hs) as (xs1 & xs2 & -> & H1 & H2).
  pose proof (list_find_prev_from h1 timer_list (xs1 ++ xs2) [] (size h1)
    (fun p => tmp ← get_timer st p; Ret (deadline tmp <=? deadline tm)) (fun x => ddl st x <=? deadline tm)) as Hf.
  rewrite app_nil_r, last_filter_split in Hf by done. rewrite Hf; [|done|by eapply list_length_links|]; clear Hf.
  - cbn [mbind outcome_bind].
    assert (exists h, list_add h1 t (default timer_list (last xs1)) = Ret h /\
              is_list h timer_list (xs1 ++ t :: xs2) /\ dom h = dom h1) as (h2 & -> & Hl2 & Hd2).
    { assert (t ∈ dom h1) as Hd1 by (by rewrite (up_dom _ _ _ _ Hu)).
      destruct xs1 as [|x xs1 _] using rev_ind; cbn.
      - by apply list_add_head.
      - rewrite last_snoc. cbn. rewrite <- !app_assoc in *. cbn [app] in *. by apply list_add_after. }
    exists h2, xs1, xs2. split_and!; try done. rewrite Hd2. apply Hu.
  - intros x Hin. apply Hx, elem_of_dom in Hin as [d Hin]. unfold get_timer, ddl. by rewrite Hin.
Qed.

Lemma sched_timer_inv now st xs ys usec cb ap args : timer_inv st xs ys -> timer_args 0 ap = Ret args ->
  let t := tm_brk st in let tm := mk_timer (s64 (now + usec)) cb args in
  exists st' xs1 xs2, sched_timer true now st usec cb ap = Ret st' /\
    xs = xs1 ++ xs2 /\ timer_inv st' (xs1 ++ t :: xs2) ys /\ tm_timers st' = <[t := tm]> (tm_timers st) /\
    Forall (fun x => ddl st x <= deadline tm) xs1 /\ Forall (fun x => deadline tm < ddl st x) xs2.
Proof.
  intros [Hl Hs Ht Hnd Hn Hse Hb] Ha t tm. unfold sched_timer. rewrite Ha. cbn [mbind outcome_bind timer_alloc]. fold t tm.
  set (st1 := mk_tstate _ _ _).
  assert (t ∉ dom (tm_links st)) as Hfr by (intros Hin%Hb; unfold t in Hin; lia).
  assert (t ∉ dom (tm_timers st)) as Hfr' by (rewrite Hnd in Hfr; set_solver).
  assert (t <> timer_list) as Htl by (intros E; apply Hfr; rewrite Hnd, E; set_solver).
  assert (t ∉ xs ++ ys) as Htx by (by rewrite <- Ht).
  assert (forall x, x ∈ xs -> ddl st1 x = ddl st x) as Hddl.
  { intros x Hx. unfold ddl. cbn. rewrite lookup_insert_ne; [done|]. intros <-. mem. }
  destruct (timer_add_sorted st1 xs t tm) as (h & xs1 & xs2 & -> & -> & H1 & H2 & Hl' & Hd).
  { by apply is_list_alloc. }
  { by apply (sorted_ext st). }
  { by apply lookup_insert_eq. }
  { cbn. rewrite dom_insert_L. set_solver. }
  { mem. }
  { intros x Hx. cbn. rewrite dom_insert_L, elem_of_union, Ht. mem. }
  assert (ddl st1 t = deadline tm) as Hdt by (unfold ddl; cbn; by rewrite lookup_insert_eq).
  exists (set_links st1 h), xs1, xs2. split_and!; try done.
  - split; cbn [set_links tm_links tm_timers tm_brk st1]; rewrite ?Hd; cbn [tm_links st1].
    + done.
    + apply (sorted_ext st1); [done|]. apply sorted_insert; rewrite ?Hdt; [|done|done].
      by apply (sorted_ext st).
    + intros x. rewrite dom_insert_L, elem_of_union, elem_of_singleton, Ht. mem.
    + rewrite !dom_insert_L, Hnd. set_solver.
    + eapply NoDup_Permutation_proper; [|apply (NoDup_cons_2 t ((xs1 ++ xs2) ++ ys) Htx Hn)].
      rewrite <- !app_assoc. cbn. by rewrite <- Permutation_middle.
    + rewrite dom_insert_L, elem_of_union, elem_of_singleton. by intros [<-|?].
    + intros x. rewrite dom_insert_L, elem_of_union, elem_of_singleton.
      intros [->|Hx]; [unfold t; lia|]. specialize (Hb x Hx). lia.
  - rewrite Forall_forall in *. intros x Hx. rewrite <- Hddl by mem. by apply H1.
  - rewrite Forall_forall in *. intros x Hx. rewrite <- Hddl by mem. by apply H2.
Qed.

(** ** Taking and freeing timers *)

Lemma peek_spec st xs ys : timer_inv st xs ys -> __timer_peek st = Ret (list.head xs).
Proof.
  intros [Hl _ _ _ _ _ _]. unfold __timer_peek. rewrite (list_empty_spec _ _ _ Hl). cbn [mbind outcome_bind].
  case_bool_decide as E; [by subst xs|]. rewrite (list_first _ _ _ Hl). cbn. by destruct xs.
Qed.

Lemma get_timer_inv st xs ys t : timer_inv st xs ys -> t ∈ xs ++ ys ->
  exists tm, get_timer st t = Ret tm /\ tm_timers st !! t = Some tm /\ ddl st t = deadline tm.
Proof.
  intros Hi Ht. apply (tv_timers _ _ _ Hi), elem_of_dom in Ht as [tm Ht]. exists tm.
  unfold get_timer, ddl. by rewrite Ht.
Qed.

Lemma timer_take_none now st xs ys : timer_inv st xs ys -> Forall (fun x => now < ddl st x) xs ->
  timer_take now st = Ret (st, None).
Proof.
  intros Hi Hx. unfold timer_take. rewrite (peek_spec _ _ _ Hi). cbn [mbind outcome_bind].
  destruct xs as [|x xs]; [done|]. cbn [list.head]. apply Forall_cons in Hx as [Hx _].
  destruct (get_timer_inv _ _ _ x Hi) as (tm & -> & _ & Hd); [constructor|]. cbn [mbind outcome_bind].
  zcase (now <? deadline tm); [done|lia].
Qed.

Lemma timer_take_some now st x xs ys : timer_inv st (x :: xs) ys -> ddl st x <= now ->
  exists h, timer_take now st = Ret (set_links st h, Some x) /\ timer_inv (set_links st h) xs (x :: ys).
Proof.
  intros Hi Hx. unfold timer_take. rewrite (peek_spec _ _ _ Hi). cbn [mbind outcome_bind list.head].
  destruct (get_timer_inv _ _ _ x Hi) as (tm & -> & _ & Hd); [constructor|]. cbn [mbind outcome_bind].
  zcase (now <? deadline tm); [lia|]. unfold __timer_remove. destruct Hi as [Hl Hs Ht Hnd Hn Hse Hb].
  destruct (list_del_between _ _ [] x xs Hl) as (h & -> & Hl' & Hdom). cbn [mbind outcome_bind].
  exists h. split; [done|]. split; cbn; rewrite ?Hdom; try done.
  - apply StronglySorted_inv in Hs as [Hs _]. by apply (sorted_ext st).
  - intros t. rewrite Ht. mem.
  - eapply NoDup_Permutation_proper; [|exact Hn]. cbn. by rewrite <- Permutation_middle.
Qed.

Lemma timer_free_inv st xs ys1 t ys2 : timer_inv st xs (ys1 ++ t :: ys2) ->
  exists st', timer_free st t = Ret st' /\ timer_inv st' xs (ys1 ++ ys2) /\ tm_timers st' = delete t (tm_timers st).
Proof.
  intros Hi. destruct (get_timer_inv _ _ _ t Hi) as (tm & Hg & _); [mem|]. unfold timer_free. rewrite Hg.
  cbn [mbind outcome_bind]. eexists. split; [done|]. split; [|done]. destruct Hi as [Hl Hs Ht Hnd Hn Hse Hb].
  assert (NoDup (t :: xs ++ ys1 ++ ys2)) as Hn'.
  { eapply NoDup_Permutation_proper; [|exact Hn]. rewrite <- Permutation_middle, <- Permutation_middle. done. }
  apply NoDup_cons in Hn' as [Htn Hn'].
  assert (t <> timer_list) as Htl.
  { intros ->. apply Hse, Ht. mem. }
  split; cbn.
  - apply (is_list_frame (tm_links st)); [done|]. intros l Hlin. unfold nexts, prevs.
    rewrite lookup_delete_ne; [done|]. intros <-. mem.
  - apply (sorted_ext st); [|done]. intros x Hx. unfold ddl. cbn. rewrite lookup_delete_ne; [done|]. intros <-. mem.
  - intros x. rewrite dom_delete_L, elem_of_difference, elem_of_singleton, Ht.
    destruct (decide (x = t)) as [->|]; mem.
  - rewrite !dom_delete_L, Hnd. set_solver.
  - done.
  - rewrite dom_delete_L, elem_of_difference. tauto.
  - intros x. rewrite dom_delete_L, elem_of_difference. intros [Hx _]. by apply Hb.
Qed.

(** ** Runs of the worker threads *)

(** The timers in the hands of the workers, and the callbacks started so far:
    the timer and the time at which it was taken. *)
Record trun := mk_trun { tr_st : tstate; tr_busy : list lloc; tr_fired : list (lloc * timer * Z) }.

Inductive tstep : trun -> trun -> Prop :=
| t_add r now usec cb ap st' :
    sched_timer true now (tr_st r) usec cb ap = Ret st' ->
    tstep r (mk_trun st' (tr_busy r) (tr_fired r))
| t_take r now st' t tm :
    timer_take now (tr_st r) = Ret (st', Some t) -> get_timer st' t = Ret tm ->
    tstep r (mk_trun st' (t :: tr_busy r) (tr_fired r ++ [(t, tm, now)]))
| t_free r b1 t b2 st' :
    tr_busy r = b1 ++ t :: b2 -> timer_free (tr_st r) t = Ret st' ->
    tstep r (mk_trun st' (b1 ++ b2) (tr_fired r)).

Definition no_timers : tstate := mk_tstate {[timer_list := mk_list_head (Some timer_list) (Some timer_list)]} ∅ 1.

Definition tr_init : trun := mk_trun no_timers [] [].

Definition fired_locs (r : trun) : list lloc := (tr_fired r).*1.*1.

Definition run_inv (r : trun) : Prop :=
  exists xs, timer_inv (tr_st r) xs (tr_busy r) /\
    Forall (fun f => deadline f.1.2 <= f.2) (tr_fired r) /\ NoDup (fired_locs r) /\
    Forall (fun t => t ∉ xs /\ (t < tm_brk (tr_st r))%nat) (fired_locs r).

Lemma no_timers_inv : timer_inv no_timers [] [].
Proof.
  split.
  - split; [split; [split; reflexivity|exact I]|apply NoDup_singleton].
  - constructor.
  - intros t. cbn. set_solver.
  - cbn. set_solver.
  - constructor.
  - cbn. set_solver.
  - intros t Ht. cbn [no_timers tm_links] in Ht. rewrite dom_singleton_L, elem_of_singleton in Ht. subst t. cbn. unfold timer_list. lia.
Qed.

Lemma fired_step_locs r st' b t tm now : fired_locs (mk_trun st' b (tr_fired r ++ [(t, tm, now)])) = fired_locs r ++ [t].
Proof. unfold fired_locs. cbn. by rewrite !fmap_app. Qed.

Lemma timer_take_brk now st st' t : timer_take now st = Ret (st', t) -> tm_brk st' = tm_brk st.
Proof.
  unfold timer_take, __timer_remove. destruct (__timer_peek st) as [ [p|]|]; cbn; [|congruence|congruence].
  destruct (get_timer st p) as [tm|]; cbn; [|congruence]. destruct (now <? deadline tm); [congruence|].
  destruct (list_del (tm_links st) p); cbn; [|congruence]. by intros [= <- _].
Qed.

Lemma run_inv_take r now st' t tm : run_inv r ->
  timer_take now (tr_st r) = Ret (st', Some t) -> get_timer st' t = Ret tm ->
  run_inv (mk_trun st' (t :: tr_busy r) (tr_fired r ++ [(t, tm, now)])).
Proof.
  intros (xs & Hi & Hd & Hn & Hf) Hr Hg.
  pose proof (timer_take_brk _ _ _ _ Hr) as Hbrk. unfold run_inv. rewrite fired_step_locs. cbn [tr_st tr_busy tr_fired].
  destruct xs as [|x xs]; [by rewrite (timer_take_none _ _ _ _ Hi) in Hr|].
  destruct (Z.le_gt_cases (ddl (tr_st r) x) now) as [Hle|Hgt].
  2:{ rewrite (timer_take_none _ _ _ _ Hi) in Hr; [done|]. constructor; [lia|].
      pose proof (tv_sorted _ _ _ Hi) as [_ Hs]%StronglySorted_inv.
      eapply Forall_impl; [exact Hs|]. unfold by_deadline. intros; lia. }
  destruct (timer_take_some now _ _ _ _ Hi Hle) as (h & Hr' & Hi'). rewrite Hr in Hr'. injection Hr' as -> ->.
  exists xs. split; [done|]. rewrite Forall_forall in Hf.
  assert (x ∉ fired_locs r) as Hxf by (intros Hx; apply Hf in Hx as [Hx _]; apply Hx; constructor).
  pose proof (tv_nodup _ _ _ Hi) as [Hxn _]%NoDup_cons. change (x ∉ xs ++ tr_busy r) in Hxn.
  rewrite not_elem_of_app in Hxn. split_and!.
  - apply Forall_app. split; [done|]. constructor; [|done]. cbn.
    destruct (get_timer_inv _ _ _ x Hi') as (tm' & Hg' & _ & Hd'); [mem|]. rewrite Hg in Hg'. injection Hg' as <-.
    change (ddl (set_links (tr_st r) h) x) with (ddl (tr_st r) x) in Hd'. lia.
  - apply NoDup_app. split_and!; [done| |apply NoDup_singleton]. intros y Hy ->%list_elem_of_singleton. by apply Hxf.
  - apply Forall_app. split.
    + apply Forall_forall. intros y Hy. apply Hf in Hy as [Hy1 Hy2]. split; [mem|done].
    + constructor; [|constructor]. split; [mem|].
      apply (tv_brk _ _ _ Hi). rewrite (tv_nodes _ _ _ Hi), elem_of_union, (tv_timers _ _ _ Hi). right. mem.
Qed.

Lemma run_inv_step r r' : run_inv r -> tstep r r' -> run_inv r'.
Proof.
  intros Hinv Hs. inversion Hs as [? now usec cb ap st' Hr|? now st' t tm Hr Hg|? b1 t b2 st' Hb Hr]; subst.
  - destruct Hinv as (xs & Hi & Hd & Hn & Hf).
    destruct (timer_args 0 ap) as [args|] eqn:Ha; [|by unfold sched_timer in Hr; rewrite Ha in Hr].
    destruct (sched_timer_inv now _ _ _ usec cb ap args Hi Ha) as (st'' & xs1 & xs2 & Hr' & -> & Hi' & Ht & _).
    rewrite Hr in Hr'. injection Hr' as <-.
    assert (tm_brk (tr_st r) < tm_brk st')%nat as Hbrk.
    { apply (tv_brk _ _ _ Hi'). rewrite (tv_nodes _ _ _ Hi'), Ht, dom_insert_L. set_solver. }
    eexists. split_and!; [done..|]. cbn. eapply Forall_impl; [exact Hf|]. cbn.
    intros t [Ht1 Ht2]. split; [|lia]. rewrite elem_of_app, elem_of_cons in *. intros [?|[->|?]]; [tauto|lia|tauto].
  - by eapply run_inv_take.
  - destruct Hinv as (xs & Hi & Hd & Hn & Hf). rewrite Hb in Hi.
    destruct (timer_free_inv _ _ _ _ _ Hi) as (st'' & Hr' & Hi' & _). rewrite Hr in Hr'. injection Hr' as <-.
    exists xs. split_and!; try done. cbn. unfold timer_free in Hr. destruct (get_timer (tr_st r) t); [|done].
    cbn in Hr. injection Hr as <-. exact Hf.
Qed.

(** ** Theorems *)

(** In every run of the timer threads, with callbacks that schedule further
    timers: no callback starts before the deadline of its timer, no timer
    starts twice, and the waiting timers stay a well-formed list sorted by
    deadline. *)
Theorem timers_never_early r : star tstep tr_init r ->
  Forall (fun f => deadline f.1.2 <= f.2) (tr_fired r) /\ NoDup (fired_locs r) /\
  exists xs, is_list (tm_links (tr_st r)) timer_list xs /\ StronglySorted (by_deadline (tr_st r)) xs.
Proof.
  intros Hr. assert (run_inv r) as (xs & Hi & Hd & Hn & _).
  { apply (star_invariant tstep run_inv tr_init); [exact run_inv_step| |done].
    exists []. split_and!; [exact no_timers_inv|constructor|constructor|constructor]. }
  split_and!; [done|done|]. exists xs. by split; [apply Hi|apply Hi].
Qed.

(** [sched_timer] puts the new timer behind every waiting timer whose
    deadline is not later and before the others: equal deadlines fire in the
    order in which they were scheduled. *)
Theorem sched_timer_stable now st xs ys usec cb ap args : timer_inv st xs ys -> timer_args 0 ap = Ret args ->
  exists st' xs1 xs2, sched_timer true now st usec cb ap = Ret st' /\ xs = xs1 ++ xs2 /\
    timer_inv st' (xs1 ++ tm_brk st :: xs2) ys /\
    Forall (fun x => ddl st x <= s64 (now + usec)) xs1 /\ Forall (fun x => s64 (now + usec) < ddl st x) xs2.
Proof.
  intros Hi Ha. destruct (sched_timer_inv now st xs ys usec cb ap args Hi Ha) as (st' & xs1 & xs2 & ? & ? & ? & _ & ? & ?).
  by exists st', xs1, xs2.
Qed.

(** The calls a list of timers makes, in order. *)
Definition calls_of (st : tstate) (xs : list lloc) : list (Z * list Z) :=
  omap (fun t => tm ← tm_timers st !! t; cb ← callback tm; Some (cb, argv tm)) xs.

Lemma calls_of_ext st st' xs : (forall y, y ∈ xs -> tm_timers st' !! y = tm_timers st !! y) ->
  calls_of st' xs = calls_of st xs.
Proof.
  unfold calls_of. induction xs as [|x xs IH]; intros H; [done|]. cbn. rewrite H by constructor.
  rewrite IH by (intros y Hy; apply H; by constructor). done.
Qed.

Lemma calls_of_cons st x xs : calls_of st (x :: xs) = calls_of st [x] ++ calls_of st xs.
Proof. unfold calls_of. cbn. by destruct (_ ≫= _). Qed.

(** One [sched_yielded] at time [now], with callbacks that leave the timers
    alone: it ends, runs the callbacks of exactly the expired timers in the
    order of their deadlines, frees them, and keeps the others. *)
Theorem sched_yielded_spec now st xs1 xs2 ys calls n fuel :
  timer_inv st (xs1 ++ xs2) ys ->
  Forall (fun x => ddl st x <= now) xs1 -> Forall (fun x => now < ddl st x) xs2 -> (length xs1 < fuel)%nat ->
  exists st', sched_yielded (fun cb args w s => Ret (w ++ [(cb, args)], s)) (fun w => (now, w)) fuel calls st n =
      Ret (calls ++ calls_of st xs1, st', (n + length xs1)%nat) /\
    timer_inv st' xs2 ys.
Proof.
  revert st calls n fuel. induction xs1 as [|x xs1 IH]; intros st calls n fuel Hi H1 H2 Hf;
    (destruct fuel as [|fuel]; [lia|]); cbn [sched_yielded app] in *.
  - rewrite (timer_take_none _ _ _ _ Hi H2). cbn [mbind outcome_bind]. exists st.
    by rewrite app_nil_r, Nat.add_0_r.
  - apply Forall_cons in H1 as [Hx H1].
    destruct (timer_take_some now _ _ _ _ Hi Hx) as (h & -> & Hi'). cbn [mbind outcome_bind].
    destruct (get_timer_inv _ _ _ x Hi') as (tm & -> & Ht & _); [mem|]. cbn [mbind outcome_bind].
    destruct (timer_free_inv _ _ [] x ys Hi') as (st2 & Hfree & Hi2 & Ht2).
    assert (forall y, y ∈ xs1 ++ xs2 -> tm_timers st2 !! y = tm_timers st !! y) as Hsame.
    { intros y Hy. rewrite Ht2. cbn. apply lookup_delete_ne. intros <-.
      pose proof (tv_nodup _ _ _ Hi) as [Hn _]%NoDup_cons.
      change (x ∉ (xs1 ++ xs2) ++ ys) in Hn. rewrite not_elem_of_app in Hn. tauto. }
    assert (forall y, y ∈ xs1 ++ xs2 -> ddl st2 y = ddl st y) as Hd by (intros; unfold ddl; by rewrite Hsame).
    assert (calls_of st2 xs1 = calls_of st xs1) as Hc.
    { apply calls_of_ext. intros y Hy. apply Hsame. mem. }
    rewrite Forall_forall in H1, H2. cbn [tm_timers set_links] in Ht.
    destruct (IH st2 (calls ++ calls_of st [x]) (S n) fuel) as (st' & Hr & Hi3).
    + exact Hi2.
    + apply Forall_forall. intros y Hy. rewrite Hd by mem. by apply H1.
    + apply Forall_forall. intros y Hy. rewrite Hd by mem. by apply H2.
    + cbn in Hf. lia.
    + exists st'. split; [|done].
      rewrite Hc in Hr. replace (n + length (x :: xs1))%nat with (S n + length xs1)%nat by (cbn; lia).
      assert (calls_of st (x :: xs1) = calls_of st [x] ++ calls_of st xs1) as -> by apply calls_of_cons.
      rewrite app_assoc, <- Hr.
      unfold calls_of. cbn [omap list_omap]. rewrite Ht. cbn.
      destruct (callback tm) as [cb|]; cbn; rewrite Hfree; cbn; [done|]. by rewrite app_nil_r.
Qed.

(** Two timers, the later one scheduled first. *)
Definition two_timers : tstate :=
  match (st ← sched_timer true 1000 no_timers 50 (Some 7) [3; 0]; sched_timer true 1001 st 10 (Some 8) [0]) with
  | Ret st => st
  | Crash _ => no_timers
  end.

Lemma two_timers_inv : timer_inv two_timers [2; 1]%nat [].
Proof.
  split.
  - split; [repeat split|]. refine (bool_decide_unpack _ _). by vm_compute.
  - repeat constructor. unfold by_deadline. by vm_compute.
  - intros t. change (dom (tm_timers two_timers)) with (dom (tm_timers two_timers) : gset lloc).
    assert (dom (tm_timers two_timers) = {[1; 2]}%nat) as ->
      by (refine (bool_decide_unpack (_ =@{gset lloc} _) _); by vm_compute).
    cbn. set_solver.
  - refine (bool_decide_unpack (_ =@{gset lloc} _) _). by vm_compute.
  - refine (bool_decide_unpack _ _). by vm_compute.
  - refine (bool_decide_unpack _ _). by vm_compute.
  - change (set_Forall (fun l => l < tm_brk two_timers)%nat (dom (tm_links two_timers))).
    refine (bool_decide_unpack _ _). by vm_compute.
Qed.

Lemma timers_never_early_witness : exists r, fired_locs r = [2]%nat /\
  Forall (fun f => deadline f.1.2 <= f.2) (tr_fired r) /\ NoDup (fired_locs r) /\
  exists xs, is_list (tm_links (tr_st r)) timer_list xs /\ StronglySorted (by_deadline (tr_st r)) xs.
Proof.
  assert (exists r, star tstep tr_init r /\ fired_locs r = [2]%nat) as (r & Hr & Hf).
  { eexists. split.
    - eapply star_step; [eapply (t_add _ 1000 50 (Some 7) [3; 0]); reflexivity|].
      eapply star_step; [eapply (t_add _ 1001 10 (Some 8) [0]); reflexivity|].
      eapply star_step; [eapply (t_take _ 1011); reflexivity|]. apply star_refl.
    - reflexivity. }
  exists r. split; [exact Hf|]. exact (timers_never_early r Hr).
Defined.

Lemma sched_timer_stable_witness : exists st' xs1 xs2,
  sched_timer true 1005 two_timers 6 None [0] = Ret st' /\ [2; 1]%nat = xs1 ++ xs2 /\
  timer_inv st' (xs1 ++ 3%nat :: xs2) [] /\
  Forall (fun x => ddl two_timers x <= s64 (1005 + 6)) xs1 /\ Forall (fun x => s64 (1005 + 6) < ddl two_timers x) xs2.
Proof. exact (sched_timer_stable 1005 two_timers [2; 1]%nat [] 6 None [0] [] two_timers_inv eq_refl). Defined.

Lemma sched_yielded_spec_witness :
  exists st', sched_yielded (fun cb args w s => Ret (w ++ [(cb, args)], s)) (fun w => (1020, w)) 2 [] two_timers 0 =
      Ret ([(8, [])], st', 1%nat) /\ timer_inv st' [1]%nat [].
Proof.
  apply (sched_yielded_spec 1020 two_timers [2]%nat [1]%nat [] [] 0 2 two_timers_inv).
  - by repeat constructor.
  - by repeat constructor.
  - cbn. lia.
Defined.
