(* ===== verification/Periodic.v ===== *)
(** * Periodic tasks

    The tasks that the servers run from their timers: the callbacks of
    src/src/dataserver/dataserverd.c and [snapshot_schedtimer_cb] of
    src/src/trackerserver/trackerd.c, the start and the end of the timer threads
    (src/src/common/sched_timer.c).  Every callback does its work and schedules
    itself again. *)
From S2P Require Import Prelude ListH SchedTimer.
From Stdlib Require Import Sorted.

(** ** The timer threads *)

(** [task_nr], [is_exit] and the threads that have not been joined. *)
Record timer_pool := mk_tpool { tp_nr : Z; tp_exit : bool; tp_threads : nat }.

(** Both asserted calls succeed or the program ends; [create] answers for
    [pthread_create]. *)
Definition sched_timer_init (nprocs : Z) (mutex_ok : bool) (create : nat -> bool) (h : links) : outcome (links * timer_pool) :=
  h ← timer_init h;
  if negb mutex_ok then Crash AssertFailed
  else
    let task_nr := if nprocs <? 4 then 4 else nprocs in
    if forallb create (seq 0 (Z.to_nat task_nr)) then Ret (h, mk_tpool task_nr false (Z.to_nat task_nr)) else Crash AssertFailed.

(** [while(!is_exit) sched_yielded();]: a round, or the end of the thread. *)
Definition do_timer_fn {A} (p : timer_pool) (yielded : outcome A) : outcome (option A) := if tp_exit p then Ret None else a ← yielded; Ret (Some a).

(** Every thread is joined: it ends after its round. *)
Definition sched_timer_exit (p : timer_pool) : timer_pool := mk_tpool (tp_nr p) true 0.

(** ** The tasks *)

(** The callbacks, as numbers. *)
Definition mnt_block_stat_snapshot_cb : Z := 1.
Definition block_vfs_statistics_cb : Z := 2.
Definition local_binlog_flush_cb : Z := 3.
Definition remote_binlog_flush_cb : Z := 4.
Definition snapshot_schedtimer_cb : Z := 5.

(** The intervals of the configuration, in seconds. *)
Definition ds_interval (block_snapshot_interval block_vfs_interval binlog_flush_interval : Z) (cb : Z) : Z :=
  if cb =? mnt_block_stat_snapshot_cb then block_snapshot_interval else if cb =? block_vfs_statistics_cb then block_vfs_interval else binlog_flush_interval.

(** The tasks in the order in which [main] schedules them. *)
Definition ds_tasks : list Z := [mnt_block_stat_snapshot_cb; block_vfs_statistics_cb; local_binlog_flush_cb; remote_binlog_flush_cb].
Definition ts_tasks : list Z := [snapshot_schedtimer_cb].

Section Tasks.
Context (interval : Z -> Z).

(** [interval * (1000 * 1000)] is an [int]. *)
Definition usec_of (cb : Z) : Z := s32 (interval cb * (1000 * 1000)).

(** [sched_timer(interval * (1000 * 1000), cb, NULL)], the last thing a callback
    does. *)
Definition task_again (now : Z) (cb : Z) (st : tstate) : outcome tstate := sched_timer true now st (usec_of cb) (Some cb) [0].

(** The timers, the latest time that was read, the tasks that [main] has not yet
    scheduled, the timers whose callbacks have not yet scheduled the next one, the
    timers to be freed, and the calls so far, the latest first. *)
Record prun := mk_prun { pr_st : tstate; pr_now : Z; pr_todo : list Z; pr_running : list lloc; pr_ending : list lloc; pr_calls : list (Z * Z) }.

(** Any number of timer threads, and the main thread; the clock does not go back. *)
Inductive pstep : prun -> prun -> Prop :=
| p_main st n cb todo run fin calls now st' : n <= now < 2 ^ 62 -> task_again now cb st = Ret st' ->
    pstep (mk_prun st n (cb :: todo) run fin calls) (mk_prun st' now todo run fin calls)
| p_call st n todo run fin calls now st' t tm cb : n <= now < 2 ^ 62 -> timer_take now st = Ret (st', Some t) -> get_timer st' t = Ret tm -> callback tm = Some cb ->
    pstep (mk_prun st n todo run fin calls) (mk_prun st' now todo (t :: run) fin ((cb, now) :: calls))
| p_again st n todo r1 t r2 fin calls now tm cb st' : n <= now < 2 ^ 62 -> get_timer st t = Ret tm -> callback tm = Some cb -> task_again now cb st = Ret st' ->
    pstep (mk_prun st n todo (r1 ++ t :: r2) fin calls) (mk_prun st' now todo (r1 ++ r2) (t :: fin) calls)
| p_free st n todo run f1 t f2 calls st' : timer_free st t = Ret st' ->
    pstep (mk_prun st n todo run (f1 ++ t :: f2) calls) (mk_prun st' n todo run (f1 ++ f2) calls).

Definition pr_start (tasks : list Z) : prun := mk_prun no_timers 0 tasks [] [] [].

(** ** Lemmas *)

Lemma timer_inv_perm st xs ys ys' : ys ≡ₚ ys' -> timer_inv st xs ys -> timer_inv st xs ys'.
Proof.
  intros Hp [H1 H2 H3 H4 H5 H6 H7]. split; try done.
  - intros t. rewrite H3. by rewrite !elem_of_app, Hp.
  - by rewrite <- Hp.
Qed.

(** The callbacks of some timers. *)
Definition cbs (st : tstate) (l : list lloc) : list (option Z) := (fun t => tm_timers st !! t ≫= callback) <$> l.

Lemma cbs_ext st st' l : (forall t, t ∈ l -> tm_timers st' !! t = tm_timers st !! t) -> cbs st' l = cbs st l.
Proof. intros H. apply list_fmap_ext. intros i t Ht. rewrite H; [done|]. by eapply list_elem_of_lookup_2. Qed.

Lemma cbs_app st l k : cbs st (l ++ k) = cbs st l ++ cbs st k.
Proof. apply fmap_app. Qed.

(** The calls of a task are at least as far apart as the timer is told. *)
Fixpoint spaced (calls : list (Z * Z)) : Prop :=
  match calls with [] => True | (cb, t) :: rest => (forall t', (cb, t') ∈ rest -> t' + usec_of cb <= t) /\ spaced rest end.

(** Where the timers of the tasks are. *)
Record pinv (tasks : list Z) (p : prun) (xs : list lloc) : Prop := {
  pv_timers : timer_inv (pr_st p) xs (pr_running p ++ pr_ending p);
  pv_tasks : cbs (pr_st p) (xs ++ pr_running p) ++ (Some <$> pr_todo p) ≡ₚ Some <$> tasks;
  pv_now : 0 <= pr_now p < 2 ^ 62;
  pv_past : forall cb t, (cb, t) ∈ pr_calls p -> t <= pr_now p;
  pv_next : forall x cb t, x ∈ xs -> tm_timers (pr_st p) !! x ≫= callback = Some cb -> (cb, t) ∈ pr_calls p -> t + usec_of cb <= ddl (pr_st p) x;
  pv_spaced : spaced (pr_calls p)
}.

Lemma usec_range cb : - 2 ^ 31 <= usec_of cb < 2 ^ 31.
Proof. unfold usec_of. pose proof (s_wrap_range 32 (interval cb * (1000 * 1000)) ltac:(lia)) as H. unfold is_s in H. lia. Qed.

(** Up to 2147 seconds the product is the interval in microseconds. *)
Lemma usec_small cb : 0 <= interval cb <= 2147 -> usec_of cb = interval cb * 1000000.
Proof. intros H. unfold usec_of. rewrite s_wrap_id by (unfold is_s; lia). lia. Qed.

Lemma spaced_lookup calls i j cb t t' : spaced calls -> (i < j)%nat -> calls !! i = Some (cb, t) -> calls !! j = Some (cb, t') -> t' + usec_of cb <= t.
Proof.
  revert i j. induction calls as [|[c u] calls IH]; intros i j Hsp Hij Hi Hj; [done|]; destruct Hsp as [Hh Hs]. destruct j as [|j]; [lia|]. destruct i as [|i]; [|apply (IH i j); [done|lia|done|done]].
  injection Hi as -> ->. apply Hh. by eapply list_elem_of_lookup_2.
Qed.

Lemma fresh_timer st xs ys : timer_inv st xs ys -> tm_brk st ∉ xs ++ ys.
Proof.
  intros Hi Hin. apply (tv_timers _ _ _ Hi) in Hin. assert (tm_brk st ∈ dom (tm_links st)) as Hd by (rewrite (tv_nodes _ _ _ Hi); set_solver). apply (tv_brk _ _ _ Hi) in Hd. lia.
Qed.

(** A task is scheduled: one more timer waits. *)
Lemma task_again_inv now cb st st' xs ys : 0 <= now < 2 ^ 62 -> timer_inv st xs ys -> task_again now cb st = Ret st' ->
  exists xs1 xs2, xs = xs1 ++ xs2 /\ timer_inv st' (xs1 ++ tm_brk st :: xs2) ys /\ tm_brk st ∉ xs ++ ys /\
    tm_timers st' = <[tm_brk st := mk_timer (now + usec_of cb) (Some cb) []]> (tm_timers st).
Proof.
  intros Hn Hi Hr. destruct (sched_timer_inv now st xs ys (usec_of cb) (Some cb) [0] [] Hi eq_refl) as (st1 & xs1 & xs2 & H1 & H2 & H3 & H4 & _).
  unfold task_again in Hr. rewrite Hr in H1. injection H1 as <-. exists xs1, xs2. split_and!; [done|done|by eapply fresh_timer|]. rewrite H4. pose proof (usec_range cb).
  by rewrite s_wrap_id by (unfold is_s; lia).
Qed.

Lemma lookup_other (m : gmap lloc timer) l (k : list lloc) tm x : l ∉ k -> x ∈ k -> <[l := tm]> m !! x = m !! x.
Proof. intros Hl Hx. apply lookup_insert_ne. by intros ->. Qed.

(** The callbacks and deadlines after that. *)
Lemma again_cbs st st' l tm k1 k2 r : l ∉ k1 ++ k2 ++ r -> tm_timers st' = <[l := tm]> (tm_timers st) -> cbs st' ((k1 ++ l :: k2) ++ r) ≡ₚ callback tm :: cbs st ((k1 ++ k2) ++ r).
Proof.
  intros Hl Ht. assert (forall k, (forall x, x ∈ k -> x ∈ k1 ++ k2 ++ r) -> cbs st' k = cbs st k) as He.
  { intros k Hk. apply cbs_ext. intros x Hx. rewrite Ht. eapply lookup_other; [exact Hl|by apply Hk]. }
  rewrite !cbs_app. change (cbs st' (l :: k2)) with ((tm_timers st' !! l ≫= callback) :: cbs st' k2). rewrite !He by set_solver. rewrite Ht, lookup_insert_eq. cbn [mbind option_bind].
  rewrite <- Permutation_middle. done.
Qed.

Lemma pinv_again tasks st n n' todo todo' run run' fin fin' calls now cb st' xs : pinv tasks (mk_prun st n todo run fin calls) xs -> n <= now < 2 ^ 62 -> task_again now cb st = Ret st' ->
  n' = now -> (run' ++ fin' ≡ₚ run ++ fin) -> (forall x, x ∈ run' -> x ∈ run) -> (cbs st run ++ (Some <$> todo) ≡ₚ Some cb :: cbs st run' ++ (Some <$> todo')) ->
  exists xs', pinv tasks (mk_prun st' n' todo' run' fin' calls) xs'.
Proof.
  intros [H1 H2 H3 H4 H5 H6] Hn Hr -> Hp Hsub Hc. cbn in *. destruct (task_again_inv now cb st st' xs _ ltac:(lia) H1 Hr) as (xs1 & xs2 & -> & Hi & Hf & Ht). exists (xs1 ++ tm_brk st :: xs2).
  assert (tm_brk st ∉ xs1 ++ xs2 ++ run') as Hf' by set_solver.
  split; cbn.
  - eapply timer_inv_perm; [symmetry; exact Hp|exact Hi].
  - rewrite (again_cbs st st' _ _ xs1 xs2 run' Hf' Ht). cbn [callback app]. rewrite <- H2, !cbs_app, <- !app_assoc, Hc. by rewrite <- !Permutation_middle.
  - lia.
  - intros c t Hin. specialize (H4 c t Hin). lia.
  - intros x c t Hx Hcb Hin. unfold ddl. rewrite Ht in *. destruct (decide (x = tm_brk st)) as [->|Hne].
    + rewrite lookup_insert_eq in *. cbn in *. injection Hcb as <-. specialize (H4 _ _ Hin). lia.
    + rewrite lookup_insert_ne in * by done. apply (H5 x c t); [set_solver|done|done].
  - done.
Qed.

Lemma take_cases now st st' t xs ys : timer_inv st xs ys -> timer_take now st = Ret (st', Some t) ->
  exists xs', xs = t :: xs' /\ ddl st t <= now /\ tm_timers st' = tm_timers st /\ timer_inv st' xs' (t :: ys).
Proof.
  intros Hi Hr. destruct xs as [|x xs]; [by rewrite (timer_take_none _ _ _ _ Hi) in Hr by constructor|]. destruct (Z.le_gt_cases (ddl st x) now) as [Hx|Hx].
  - destruct (timer_take_some now st x xs ys Hi Hx) as (h & Hr' & Hi'). rewrite Hr in Hr'. injection Hr' as -> ->. by exists xs.
  - rewrite (timer_take_none _ _ _ _ Hi) in Hr; [done|]. pose proof (tv_sorted _ _ _ Hi) as Hs. apply StronglySorted_inv in Hs as [_ Hs]. constructor; [done|].
    eapply Forall_impl; [exact Hs|]. unfold by_deadline. intros y Hy. lia.
Qed.

Lemma pinv_call tasks st n todo run fin calls now st' t tm cb xs : NoDup tasks -> pinv tasks (mk_prun st n todo run fin calls) xs -> n <= now < 2 ^ 62 ->
  timer_take now st = Ret (st', Some t) -> get_timer st' t = Ret tm -> callback tm = Some cb -> exists xs', pinv tasks (mk_prun st' now todo (t :: run) fin ((cb, now) :: calls)) xs'.
Proof.
  intros Hnd [H1 H2 H3 H4 H5 H6] Hn Hr Hg Hcb. cbn in *. destruct (take_cases _ _ _ _ _ _ H1 Hr) as (xs' & -> & Hd & Ht & Hi). exists xs'.
  assert (tm_timers st !! t ≫= callback = Some cb) as Hc.
  { unfold get_timer in Hg. rewrite Ht in Hg. destruct (tm_timers st !! t) as [tm'|]; cbn in Hg; [|done]. injection Hg as ->. done. }
  assert (forall k, cbs st' k = cbs st k) as He by (intros k; apply cbs_ext; intros; by rewrite Ht).
  assert (Some cb ∉ cbs st (xs' ++ run)) as Hu.
  { assert (NoDup (Some <$> tasks)) as Hn2 by (by apply (NoDup_fmap_2 Some)). rewrite <- H2 in Hn2. cbn in Hn2. apply NoDup_cons in Hn2 as [Hn2 _]. rewrite Hc in Hn2. set_solver. }
  split; cbn.
  - exact Hi.
  - rewrite He, <- H2. rewrite !cbs_app. cbn. by rewrite <- !Permutation_middle.
  - lia.
  - intros c u [[= -> ->]|Hin]%elem_of_cons; [lia|]. specialize (H4 c u Hin). lia.
  - intros x c u Hx Hcx Hin. unfold ddl in *. rewrite Ht in *. apply elem_of_cons in Hin as [[= -> ->]|Hin]; [|apply (H5 x c u); [set_solver|done|done]].
    exfalso. apply Hu. rewrite cbs_app. apply elem_of_app. left. apply list_elem_of_fmap. by exists x.
  - split; [|done]. intros u Hin. specialize (H5 t cb u ltac:(set_solver) Hc Hin). lia.
Qed.

Lemma pinv_free tasks st n todo run f1 t f2 calls st' xs : pinv tasks (mk_prun st n todo run (f1 ++ t :: f2) calls) xs -> timer_free st t = Ret st' ->
  pinv tasks (mk_prun st' n todo run (f1 ++ f2) calls) xs.
Proof.
  intros [H1 H2 H3 H4 H5 H6] Hr. cbn in *. rewrite app_assoc in H1. destruct (timer_free_inv _ _ _ _ _ H1) as (st1 & Hr' & Hi & Ht). rewrite Hr in Hr'. injection Hr' as <-.
  assert (t ∉ xs ++ run) as Hn. { pose proof (tv_nodup _ _ _ H1) as Hn. rewrite <- Permutation_middle, <- Permutation_middle in Hn. apply NoDup_cons in Hn as [Hn _]. set_solver. }
  assert (forall x, x ∈ xs ++ run -> tm_timers st' !! x = tm_timers st !! x) as He by (intros x Hx; rewrite Ht; apply lookup_delete_ne; by intros ->).
  split; cbn; try done.
  - by rewrite app_assoc.
  - by rewrite (cbs_ext st st').
  - intros x c u Hx. unfold ddl. rewrite He by set_solver. by apply H5.
Qed.

Lemma pinv_step tasks p p' : NoDup tasks -> (exists xs, pinv tasks p xs) -> pstep p p' -> exists xs, pinv tasks p' xs.
Proof.
  intros Hnd [xs Hi] Hs. destruct Hs as [st n cb todo run fin calls now st' Hn Hr|st n todo run fin calls now st' t tm cb Hn Hr Hg Hcb|st n todo r1 t r2 fin calls now tm cb st' Hn Hg Hcb Hr|st n todo run f1 t f2 calls st' Hr].
  - eapply pinv_again; [exact Hi|exact Hn|exact Hr|done|done|done|]. cbn. by rewrite <- Permutation_middle.
  - by eapply pinv_call.
  - eapply pinv_again; [exact Hi|exact Hn|exact Hr|done| |set_solver|].
    + rewrite <- app_assoc. cbn. by rewrite <- !app_assoc, <- Permutation_middle.
    + rewrite !cbs_app, <- !app_assoc. cbn. unfold get_timer in Hg. destruct (tm_timers st !! t) as [tm'|]; cbn in Hg; [|done]. injection Hg as ->. cbn. rewrite Hcb. by rewrite <- Permutation_middle.
  - exists xs. by eapply pinv_free.
Qed.

Lemma pinv_start tasks : pinv tasks (pr_start tasks) [].
Proof. split; cbn; try done; try exact no_timers_inv; set_solver. Qed.

(** ** Theorems *)

(** C26. Whatever the threads do, a task is neither lost nor doubled: every task is not
    yet scheduled, waits in one timer or runs, in exactly one place; and two calls
    of a task whose interval is at most 2147 seconds are never closer together than
    this interval (from 2148 seconds on the product overflows, see
    [long_interval_spins]). *)
Theorem tasks_periodic tasks p : NoDup tasks -> star pstep (pr_start tasks) p ->
  (forall i j cb t t', (i < j)%nat -> pr_calls p !! i = Some (cb, t) -> pr_calls p !! j = Some (cb, t') -> 0 <= interval cb <= 2147 -> t' + interval cb * 1000000 <= t) /\
  exists xs, is_list (tm_links (pr_st p)) timer_list xs /\ cbs (pr_st p) (xs ++ pr_running p) ++ (Some <$> pr_todo p) ≡ₚ Some <$> tasks.
Proof.
  intros Hnd Hs. assert (exists xs, pinv tasks p xs) as [xs [H1 H2 _ _ _ H6]].
  { eapply (star_invariant _ (fun p => exists xs, pinv tasks p xs)); [|exists []; apply pinv_start|exact Hs]. intros a b. by apply pinv_step. }
  split; [|exists xs; split; [apply H1|done] ]. intros i j cb t t' Hij Hi Hj Hv. rewrite <- usec_small by done. by eapply spaced_lookup.
Qed.

(** From 2148 seconds on the interval overflows: the next deadline has passed when it
    is set. *)
Theorem long_interval_spins now cb st xs ys : 2148 <= interval cb <= 4294 -> 0 <= now < 2 ^ 62 -> timer_inv st xs ys ->
  exists st', task_again now cb st = Ret st' /\ ddl st' (tm_brk st) < now.
Proof.
  intros Hv Hn Hi. destruct (sched_timer_inv now st xs ys (usec_of cb) (Some cb) [0] [] Hi eq_refl) as (st1 & xs1 & xs2 & H1 & _ & _ & H4 & _). exists st1. split; [done|].
  unfold ddl. rewrite H4, lookup_insert_eq. cbn. assert (usec_of cb = interval cb * 1000000 - 2 ^ 32) as ->.
  { unfold usec_of, s_wrap. rewrite <- (Z.mod_unique_pos (interval cb * (1000 * 1000) + 2 ^ (32 - 1)) (2 ^ 32) 1 (interval cb * 1000000 + 2 ^ 31 - 2 ^ 32)); lia. }
  rewrite s_wrap_id by (unfold is_s; lia). lia.
Qed.
End Tasks.

(** ** Witnesses *)

Lemma tasks_periodic_witness : exists p, star (pstep (fun _ => 30)) (pr_start ts_tasks) p /\ pr_calls p = [(5, 31000000)] /\
  exists xs, is_list (tm_links (pr_st p)) timer_list xs /\ cbs (pr_st p) (xs ++ pr_running p) ++ (Some <$> pr_todo p) ≡ₚ Some <$> ts_tasks.
Proof.
  destruct (sched_timer_inv 0 no_timers [] [] 30000000 (Some 5) [0] [] no_timers_inv eq_refl) as (st1 & xs1 & xs2 & H1 & H2 & H3 & H4 & _).
  symmetry in H2. apply app_eq_nil in H2 as [-> ->]. cbn [app] in H3.
  assert (ddl st1 1 = 30000000) as Hd by (unfold ddl; rewrite H4; by vm_compute).
  destruct (timer_take_some 31000000 st1 1%nat [] [] H3) as (h & H5 & H6); [lia|].
  set (p := mk_prun (set_links st1 h) 31000000 [] [1%nat] [] [(5, 31000000)]).
  assert (star (pstep (fun _ => 30)) (pr_start ts_tasks) p) as Hs.
  { eapply star_step; [apply (p_main (fun _ => 30) no_timers 0 5 [] [] [] [] 0 st1); [lia|exact H1]|].
    eapply star_step; [|apply star_refl]. eapply p_call; [lia|exact H5|unfold get_timer; cbn [tm_timers set_links]; by rewrite H4|done]. }
  exists p. split_and!; [exact Hs|done|]. apply (tasks_periodic (fun _ => 30) ts_tasks p); [|exact Hs]. apply NoDup_singleton.
Defined.

Lemma long_interval_spins_witness : exists st', task_again (fun _ => 3600) 1000 1 no_timers = Ret st' /\ ddl st' 1 < 1000.
Proof. apply (long_interval_spins (fun _ => 3600) 1000 1 no_timers [] [] ltac:(lia) ltac:(lia) no_timers_inv). Defined.
