(* ===== verification/Datasevr.v ===== *)
(** * Data server blocks and volumes

    src/src/trackerserver/ts_types.h and ts_datasevr.c.  Blocks and volumes are
    heap objects: a block is shared by its volume, the load skip list and the
    handlers. *)
From S2P Require Import Prelude.

(** [other_server n]: an [int] that is neither enumerator, which the loader of
    the snapshot may store. *)
Inductive datasevr_type := master_server | slave_server | other_server (n : Z).

Inductive datasevr_state := init | wait_sync | syncing | on_line | active | off_line | deleted.

(** The values of the enumeration. *)
Definition state_code (st : datasevr_state) : Z :=
  match st with
  | init => 0 | wait_sync => 1 | syncing => 2 | on_line => 3 | active => 4 | off_line => 5 | deleted => 6
  end.

#[export] Instance datasevr_type_eq_dec : EqDecision datasevr_type.
Proof. solve_decision. Defined.

#[export] Instance datasevr_state_eq_dec : EqDecision datasevr_state.
Proof. solve_decision. Defined.

Abbreviation bloc := nat.
Abbreviation vloc := nat.

Record datasevr_block := mk_block {
  parent_volume_id : Z;
  block_id : Z;
  state : datasevr_state;
  map_info : bytes;
  ip_addr : bytes;
  type : datasevr_type;
  port : Z;
  curr_conns : Z;
  weight : Z;
  heart_beat_interval : Z;
  total_mb : Z;
  free_mb : Z;
  reg_time : Z;
  started_time : Z;
  last_sync_sequence : Z;
  last_heartbeat_time : Z;
  last_statreporttimestamp : Z
}.

Definition LFS_DATASERVER_MAP_INFO_SIZE : nat := 33.
Definition IP_ADDRESS_SIZE : nat := 16.

(** [memset(dblk, 0, ...)] *)
Definition zero_block : datasevr_block :=
  mk_block 0 0 init (replicate LFS_DATASERVER_MAP_INFO_SIZE 0) (replicate IP_ADDRESS_SIZE 0) master_server 0 0 0 0 0 0 0 0 0 0 0.

Record datasevr_volume := mk_volume {
  next : option vloc;
  volume_id : Z;
  block_count : Z;
  slave_block_count : Z;
  allocs_size : Z;
  master_block_index : Z;
  last_read_block_index : Z;
  check_master_failed_count : Z;
  blocks : option (list (option bloc))
}.

Definition LFS_MAX_BLOCKS_EACH_VOLUME : Z := 3.

Record store := mk_store {
  st_blocks : gmap bloc datasevr_block;
  st_volumes : gmap vloc datasevr_volume;
  st_brk : nat;
  st_oracle : nat -> bool;
  st_tick : nat
}.

Definition s_malloc (s : store) : bool * store :=
  (st_oracle s (st_tick s), mk_store (st_blocks s) (st_volumes s) (st_brk s) (st_oracle s) (S (st_tick s))).

Definition get_block (s : store) (b : bloc) : outcome datasevr_block := get_or UseAfterFree (st_blocks s !! b).
Definition get_volume (s : store) (v : vloc) : outcome datasevr_volume := get_or UseAfterFree (st_volumes s !! v).

Definition put_block (s : store) (b : bloc) (d : datasevr_block) : store :=
  mk_store (<[b := d]> (st_blocks s)) (st_volumes s) (st_brk s) (st_oracle s) (st_tick s).
Definition put_volume (s : store) (v : vloc) (d : datasevr_volume) : store :=
  mk_store (st_blocks s) (<[v := d]> (st_volumes s)) (st_brk s) (st_oracle s) (st_tick s).

Definition set_vnext (d : datasevr_volume) (n : option vloc) : datasevr_volume :=
  mk_volume n (volume_id d) (block_count d) (slave_block_count d) (allocs_size d) (master_block_index d)
    (last_read_block_index d) (check_master_failed_count d) (blocks d).

Definition set_volume_id (d : datasevr_volume) (i : Z) : datasevr_volume :=
  mk_volume (next d) i (block_count d) (slave_block_count d) (allocs_size d) (master_block_index d)
    (last_read_block_index d) (check_master_failed_count d) (blocks d).

Definition set_blocks (d : datasevr_volume) (n a : Z) (bs : list (option bloc)) : datasevr_volume :=
  mk_volume (next d) (volume_id d) n (slave_block_count d) a (master_block_index d)
    (last_read_block_index d) (check_master_failed_count d) (Some bs).

Definition set_master (d : datasevr_volume) (i : Z) : datasevr_volume :=
  mk_volume (next d) (volume_id d) (block_count d) (slave_block_count d) (allocs_size d) i
    (last_read_block_index d) (check_master_failed_count d) (blocks d).

Definition set_last_read (d : datasevr_volume) (i : Z) : datasevr_volume :=
  mk_volume (next d) (volume_id d) (block_count d) (slave_block_count d) (allocs_size d) (master_block_index d)
    i (check_master_failed_count d) (blocks d).

(** ** Operations *)

Definition block_new (s : store) : store * option bloc :=
  let '(ok, s) := s_malloc s in
  if ok then
    let b := st_brk s in
    (mk_store (<[b := zero_block]> (st_blocks s)) (st_volumes s) (S b) (st_oracle s) (st_tick s), Some b)
  else (s, None).

Definition block_free (s : store) (b : option bloc) : outcome store :=
  match b with
  | None => Ret s
  | Some b =>
      _ ← get_block s b;
      Ret (mk_store (delete b (st_blocks s)) (st_volumes s) (st_brk s) (st_oracle s) (st_tick s))
  end.

(** [volume_new]: when the block array cannot be allocated the volume itself is
    not released, see [volume_free]. *)
Definition volume_new (s : store) : store * option vloc :=
  let '(ok, s) := s_malloc s in
  if negb ok then (s, None) else
  let v := st_brk s in
  let s := mk_store (st_blocks s) (<[v := mk_volume None 0 0 0 0 0 0 0 None]> (st_volumes s)) (S v)
             (st_oracle s) (st_tick s) in
  let '(ok, s) := s_malloc s in
  if negb ok then (s, None)
  else
    (put_volume s v (mk_volume None 0 0 0 LFS_MAX_BLOCKS_EACH_VOLUME (-1) 0 0
       (Some (replicate (Z.to_nat LFS_MAX_BLOCKS_EACH_VOLUME) None))), Some v).

(** The loop of [volume_free] runs only when [dv->blocks] is NULL, over
    [block_count] entries of that null array. *)
Definition volume_free (s : store) (v : option vloc) : outcome store :=
  match v with
  | None => Ret s
  | Some v =>
      dv ← get_volume s v;
      match blocks dv with
      | Some _ => Ret s
      | None => if 0 <? block_count dv then Crash NullDeref else Ret s
      end
  end.

Definition __datasevrvolume_resize (s : store) (v : vloc) : outcome (store * Z) :=
  dv ← get_volume s v;
  match blocks dv with
  | None => Crash AssertFailed
  | Some old_blocks =>
      let new_size := allocs_size dv + LFS_MAX_BLOCKS_EACH_VOLUME in
      let '(ok, s) := s_malloc s in
      if negb ok then Ret (s, LFS_ERROR)
      else
        let copied := take (Z.to_nat (block_count dv)) old_blocks in
        let new_blocks := copied ++ replicate (Z.to_nat new_size - length copied) None in
        Ret (put_volume s v (set_blocks dv (block_count dv) new_size new_blocks), LFS_OK)
  end.

Definition __datasevrvolume_insert (s : store) (v : vloc) (dblk : bloc) : outcome (store * Z) :=
  dv ← get_volume s v;
  '(s, ret) ← (if allocs_size dv <=? block_count dv then __datasevrvolume_resize s v else Ret (s, LFS_OK));
  if negb (ret =? LFS_OK) then Ret (s, ret)
  else
    dv ← get_volume s v;
    bs ← get_or NullDeref (blocks dv);
    bs ← zinsert bs (block_count dv) (Some dblk);
    Ret (put_volume s v (set_blocks dv (block_count dv + 1) (allocs_size dv) bs), LFS_OK).

Definition do_block_insert (s : store) (v : vloc) (dblk : bloc) : outcome (store * Z) :=
  __datasevrvolume_insert s v dblk.

(** The loop of [do_block_find] over the first [block_count] entries. *)
Fixpoint block_find_loop (s : store) (bid : Z) (bs : list (option bloc)) : outcome (option bloc) :=
  match bs with
  | [] => Ret None
  | None :: bs' => block_find_loop s bid bs'
  | Some b :: bs' =>
      d ← get_block s b;
      if block_id d =? bid then Ret (Some b) else block_find_loop s bid bs'
  end.

Definition do_block_find (s : store) (v : option vloc) (bid : Z) : outcome (option bloc) :=
  match v with
  | None => Ret None
  | Some v =>
      dv ← get_volume s v;
      match blocks dv with
      | None => Ret None
      | Some bs => block_find_loop s bid (take (Z.to_nat (block_count dv)) bs)
      end
  end.

(** ** The volume invariant *)

(** The blocks of a volume, in the order of insertion. *)
Definition volume_blocks (s : store) (dv : datasevr_volume) (bs : list bloc) : Prop :=
  exists arr, blocks dv = Some arr /\ Z.of_nat (length arr) = allocs_size dv /\
    block_count dv = Z.of_nat (length bs) /\ block_count dv <= allocs_size dv /\
    take (length bs) arr = Some <$> bs /\ Forall (fun b => is_Some (st_blocks s !! b)) bs.

Definition id_of (s : store) (b : bloc) : option Z := block_id <$> st_blocks s !! b.

(** ** Lemmas *)

Lemma get_volume_put s v d : get_volume (put_volume s v d) v = Ret d.
Proof. unfold get_volume. cbn. by rewrite lookup_insert_eq. Qed.

Lemma take_snoc_insert {A} (arr : list A) (bs : list A) x : (length bs < length arr)%nat -> take (length bs) arr = bs ->
  take (S (length bs)) (<[length bs := x]> arr) = bs ++ [x].
Proof.
  intros Hl Ht. rewrite (take_S_r _ _ x) by (by apply list_lookup_insert_eq).
  by rewrite take_insert_ge, Ht by lia.
Qed.

Lemma volume_blocks_store s s' dv bs : (forall b, b ∈ bs -> is_Some (st_blocks s !! b) -> is_Some (st_blocks s' !! b)) ->
  volume_blocks s dv bs -> volume_blocks s' dv bs.
Proof.
  intros Hs (arr & Ha & Hl & Hc & Hle & Ht & Hf). exists arr. split_and!; try done.
  rewrite Forall_forall in *. intros b Hb. by apply Hs; [|apply Hf].
Qed.

(** Insertion, with the resize it may need. *)
Lemma insert_spec s v dv bs b : st_volumes s !! v = Some dv -> volume_blocks s dv bs -> 0 <= allocs_size dv ->
  is_Some (st_blocks s !! b) ->
  exists s' r, do_block_insert s v b = Ret (s', r) /\ st_blocks s' = st_blocks s /\
    ((r = LFS_OK /\ exists dv', st_volumes s' = <[v := dv']> (st_volumes s) /\ volume_blocks s' dv' (bs ++ [b]) /\
        next dv' = next dv /\ volume_id dv' = volume_id dv /\ master_block_index dv' = master_block_index dv /\
        allocs_size dv <= allocs_size dv') \/
     (r = LFS_ERROR /\ st_volumes s' = st_volumes s /\ st_oracle s (st_tick s) = false /\ allocs_size dv <= block_count dv)) /\
    st_brk s' = st_brk s.
Proof.
  intros Hv (arr & Ha & Hl & Hc & Hle & Ht & Hf) Hpos Hb.
  assert (length (Some <$> bs) = length bs) as Hlen by apply length_fmap.
  assert (get_volume s v = Ret dv) as Hg by (unfold get_volume; by rewrite Hv).
  unfold do_block_insert, __datasevrvolume_insert. rewrite Hg. cbn [mbind outcome_bind].
  zcase (allocs_size dv <=? block_count dv).
  - unfold __datasevrvolume_resize. rewrite Hg. cbn [mbind outcome_bind]. rewrite Ha.
    unfold s_malloc. destruct (st_oracle s (st_tick s)) eqn:Eo; cbn [negb].
    + cbn [mbind outcome_bind negb]. change (LFS_OK =? LFS_OK) with true. cbn [negb].
      rewrite get_volume_put. cbn [mbind outcome_bind blocks set_blocks get_or block_count allocs_size].
      rewrite Hc, Nat2Z.id, Ht. set (cp := Some <$> bs) in *.
      set (n := (Z.to_nat (allocs_size dv + LFS_MAX_BLOCKS_EACH_VOLUME) - length cp)%nat).
      assert (length (cp ++ replicate n None) = Z.to_nat (allocs_size dv + LFS_MAX_BLOCKS_EACH_VOLUME)) as Hcp.
      { rewrite length_app, length_replicate. unfold n, LFS_MAX_BLOCKS_EACH_VOLUME. lia. }
      rewrite zinsert_Ret by (rewrite Hcp; unfold LFS_MAX_BLOCKS_EACH_VOLUME; lia). cbn [mbind outcome_bind].
      do 2 eexists. split; [done|]. split; [done|]. split; [|done]. left. split; [done|].
      eexists. split; [cbn; by rewrite insert_insert_eq|]. split; [|by cbn; unfold LFS_MAX_BLOCKS_EACH_VOLUME; split_and!; try lia].
      eexists. split; [done|]. cbn. rewrite length_insert, Hcp, Nat2Z.id, length_app. cbn [length].
      unfold LFS_MAX_BLOCKS_EACH_VOLUME in *. split_and!; [lia|lia|lia| |].
      * rewrite Nat.add_1_r, fmap_app. rewrite <- Hlen. apply take_snoc_insert; [rewrite Hcp; fold cp; lia|]. by rewrite take_app_length.
      * apply Forall_app. split; [done|]. by constructor.
    + cbn. do 2 eexists. split; [done|]. split; [done|]. split; [|done]. by right.
  - cbn [mbind outcome_bind negb]. change (LFS_OK =? LFS_OK) with true. cbn [negb].
    rewrite Hg. cbn [mbind outcome_bind]. rewrite Ha. cbn [get_or mbind outcome_bind].
    rewrite zinsert_Ret by lia. cbn [mbind outcome_bind].
    do 2 eexists. split; [done|]. split; [done|]. split; [|done]. left. split; [done|].
    eexists. split; [done|]. split; [|cbn; split_and!; try done; lia].
    eexists. split; [done|]. cbn. rewrite length_insert, length_app, Hc, Nat2Z.id. cbn [length].
    split_and!; [lia|lia|lia| |].
    + rewrite Nat.add_1_r, fmap_app, <- Hlen. apply take_snoc_insert; [lia|]. by rewrite Hlen.
    + apply Forall_app. split; [done|]. by constructor.
Qed.

Lemma block_find_loop_spec s bid bs : Forall (fun b => is_Some (st_blocks s !! b)) bs ->
  block_find_loop s bid (Some <$> bs) = Ret (list.head (base.filter (fun b => id_of s b = Some bid) bs)).
Proof.
  induction 1 as [|b bs [d Hd] _ IH]; [done|]. cbn [fmap list_fmap block_find_loop]. unfold get_block. rewrite Hd.
  cbn [get_or mbind outcome_bind]. zcase (block_id d =? bid).
  - rewrite filter_cons_True; [done|]. unfold id_of. rewrite Hd. cbn. by f_equal.
  - rewrite filter_cons_False; [done|]. unfold id_of. rewrite Hd. cbn. congruence.
Qed.

Lemma find_spec s v dv bs bid : st_volumes s !! v = Some dv -> volume_blocks s dv bs ->
  do_block_find s (Some v) bid = Ret (list.head (base.filter (fun b => id_of s b = Some bid) bs)).
Proof.
  intros Hv (arr & Ha & Hl & Hc & Hle & Ht & Hf). unfold do_block_find, get_volume. rewrite Hv. cbn [get_or mbind outcome_bind].
  rewrite Ha, Hc, Nat2Z.id, Ht. by apply block_find_loop_spec.
Qed.
