(* ===== verification/Cluster.v ===== *)
(** * The volume table of the tracker

    src/src/trackerserver/ts_cluster.c: a chained hash table of volumes that
    grows one bucket at a time while it is used.  While it grows, a volume is
    in the old array until its bucket has been moved, and in the new array
    afterwards.  Insertion, lookup and the move of a bucket are each what the code
    does while it holds the lock of the bucket; [__cluster_expand] takes no such
    lock, and its statements are steps of their own in the runs. *)
From S2P Require Import Prelude Chains Datasevr.

Record datasevr_cluster := mk_cluster {
  old_volume_count : Z;
  primary_volume_count : Z;
  curr_volume_id : Z;
  hash_size : Z;
  expand_bucket : Z;
  is_started_expanding : bool;
  expanding : bool;
  old_volumes : option (list (option vloc));
  primary_volumes : list (option vloc)
}.

Definition hashsize (n : Z) : Z := Z.shiftl 1 n.
Definition hashmask (n : Z) : Z := hashsize n - 1.

Definition DEFAULT_CLUSTER_HASH_POWER : Z := 2.

(** [__cluster_init]; the skip list is created with it, see Wlc.v. *)
Definition __cluster_init (malloc_ok : bool) (init_hashsize : Z) : Z + datasevr_cluster :=
  let hs := if init_hashsize =? 0 then DEFAULT_CLUSTER_HASH_POWER else init_hashsize in
  if malloc_ok
  then inr (mk_cluster 0 0 0 hs 0 false false None (replicate (Z.to_nat (hashsize hs)) None))
  else inl LFS_ERROR.

(** [__cluster_lock_init]: the power of two of the number of locks; a shift by
    64 or more (or a negative one) is undefined. *)
Definition __cluster_lock_init (hs work_threads : Z) : outcome Z :=
  if work_threads =? 0 then Crash AssertFailed
  else
    let lkc := s32 (hashsize hs / work_threads) in
    if (0 <=? lkc) && (lkc <? 64) then Ret lkc else Crash OutOfBounds.

(** The index of the lock that [cluster_lock], [cluster_trylock] and
    [cluster_unlock] use. *)
Definition cluster_lock_index (cluster_lock_hashpower hv : Z) : Z := Z.land hv (hashmask cluster_lock_hashpower).

Definition __cluster_start_expand (cl : datasevr_cluster) : datasevr_cluster :=
  if is_started_expanding cl then cl
  else mk_cluster (old_volume_count cl) (primary_volume_count cl) (curr_volume_id cl) (hash_size cl)
         (expand_bucket cl) true (expanding cl) (old_volumes cl) (primary_volumes cl).

Definition set_primary (cl : datasevr_cluster) (n : Z) (p : list (option vloc)) : datasevr_cluster :=
  mk_cluster (old_volume_count cl) n (curr_volume_id cl) (hash_size cl) (expand_bucket cl)
    (is_started_expanding cl) (expanding cl) (old_volumes cl) p.

Definition set_old (cl : datasevr_cluster) (n : Z) (o : list (option vloc)) : datasevr_cluster :=
  mk_cluster (old_volume_count cl) n (curr_volume_id cl) (hash_size cl) (expand_bucket cl)
    (is_started_expanding cl) (expanding cl) (Some o) (primary_volumes cl).

(** During an expansion the bucket of the old array is computed with the mask
    of the new one. *)
Definition do_cluster_insert (s : store) (cl : datasevr_cluster) (v : vloc) : outcome (store * datasevr_cluster * Z) :=
  dv ← get_volume s v;
  let oldbukt := Z.land (volume_id dv) (hashmask (hash_size cl)) in
  '(s, cl) ←
    (if expanding cl && (expand_bucket cl <=? oldbukt) then
       olds ← get_or NullDeref (old_volumes cl);
       head ← get_or OutOfBounds (zlookup olds oldbukt);
       olds ← zinsert olds oldbukt (Some v);
       Ret (put_volume s v (set_vnext dv head), set_old cl (primary_volume_count cl + 1) olds)
     else
       let i := Z.land (volume_id dv) (hashmask (hash_size cl)) in
       head ← get_or OutOfBounds (zlookup (primary_volumes cl) i);
       prim ← zinsert (primary_volumes cl) i (Some v);
       Ret (put_volume s v (set_vnext dv head), set_primary cl (primary_volume_count cl + 1) prim));
  let cl := if negb (expanding cl) && (hashsize (hash_size cl) / 2 <? primary_volume_count cl)
            then __cluster_start_expand cl else cl in
  Ret (s, cl, LFS_OK).

Fixpoint volume_chain_find (fuel : nat) (s : store) (ite : option vloc) (vid : Z) : outcome (option vloc) :=
  match ite with
  | None => Ret None
  | Some v =>
      match fuel with
      | O => Crash Diverged
      | S f =>
          dv ← get_volume s v;
          if volume_id dv =? vid then Ret (Some v) else volume_chain_find f s (next dv) vid
      end
  end.

Definition do_cluster_find (s : store) (cl : datasevr_cluster) (vid : Z) : outcome (option vloc) :=
  let oldbkt := Z.land vid (hashmask (hash_size cl - 1)) in
  ite ← (if expanding cl && (expand_bucket cl <=? oldbkt) then
           olds ← get_or NullDeref (old_volumes cl); get_or OutOfBounds (zlookup olds oldbkt)
         else get_or OutOfBounds (zlookup (primary_volumes cl) (Z.land vid (hashmask (hash_size cl)))));
  volume_chain_find (size (st_volumes s)) s ite vid.

(** The statements of [__cluster_expand], which the maintenance thread executes
    without the lock of any bucket.  Fresh memory holds [uninit]; the null pointer
    of a failed allocation is the empty array. *)
Inductive expand_stmt :=
| SaveArray | SaveCount | Allocate
| Clear | ResetBucket | ResetCount | GrowSize | SetExpanding
| RestoreArray | RestoreCount.

Definition exec_stmt (uninit : list (option vloc)) (malloc_ok : bool) (cl : datasevr_cluster) (st : expand_stmt) : datasevr_cluster :=
  let '(mk_cluster oc pc vid hs eb ise ex olds prims) := cl in
  match st with
  | SaveArray => mk_cluster oc pc vid hs eb ise ex (Some prims) prims
  | SaveCount => mk_cluster pc pc vid hs eb ise ex olds prims
  | Allocate => mk_cluster oc pc vid hs eb ise ex olds (if malloc_ok then uninit else [])
  | Clear => mk_cluster oc pc vid hs eb ise ex olds (replicate (Z.to_nat (hashsize (hs + 1))) None)
  | ResetBucket => mk_cluster oc pc vid hs 0 ise ex olds prims
  | ResetCount => mk_cluster oc 0 vid hs eb ise ex olds prims
  | GrowSize => mk_cluster oc pc vid (hs + 1) eb ise ex olds prims
  | SetExpanding => mk_cluster oc pc vid hs eb ise true olds prims
  | RestoreArray => mk_cluster oc pc vid hs eb ise ex olds (default [] olds)
  | RestoreCount => mk_cluster oc oc vid hs eb ise ex olds prims
  end.

(** When the allocation fails the old array stays in use. *)
Definition expand_stmts (malloc_ok : bool) : list expand_stmt :=
  [SaveArray; SaveCount; Allocate] ++
  (if malloc_ok then [Clear; ResetBucket; ResetCount; GrowSize; SetExpanding] else [RestoreArray; RestoreCount]).

Definition __cluster_expand (malloc_ok : bool) (cl : datasevr_cluster) : datasevr_cluster :=
  foldl (exec_stmt [] malloc_ok) cl (expand_stmts malloc_ok).
Arguments __cluster_expand : simpl never.

(** The [for] loop that moves one old bucket. *)
Fixpoint migrate_chain (fuel : nat) (s : store) (hs : Z) (prim : list (option vloc)) (count : Z) (it : option vloc) :
    outcome (store * list (option vloc) * Z) :=
  match it with
  | None => Ret (s, prim, count)
  | Some v =>
      match fuel with
      | O => Crash Diverged
      | S f =>
          dv ← get_volume s v;
          let bucket := s32 (Z.land (volume_id dv) (hashmask hs)) in
          head ← get_or OutOfBounds (zlookup prim bucket);
          prim ← zinsert prim bucket (Some v);
          migrate_chain f (put_volume s v (set_vnext dv head)) hs prim (count + 1) (next dv)
      end
  end.

(** One round of the maintenance thread that got the lock of the bucket. *)
Definition cluster_migrate_bucket (s : store) (cl : datasevr_cluster) : outcome (store * datasevr_cluster) :=
  olds ← get_or NullDeref (old_volumes cl);
  it ← get_or OutOfBounds (zlookup olds (expand_bucket cl));
  '(s, prim, count) ← migrate_chain (size (st_volumes s)) s (hash_size cl) (primary_volumes cl) (primary_volume_count cl) it;
  olds ← zinsert olds (expand_bucket cl) None;
  let b := expand_bucket cl + 1 in
  if b =? hashsize (hash_size cl - 1) then
    Ret (s, mk_cluster 0 count (curr_volume_id cl) (hash_size cl) b (is_started_expanding cl) false None prim)
  else
    Ret (s, mk_cluster (old_volume_count cl) count (curr_volume_id cl) (hash_size cl) b
              (is_started_expanding cl) true (Some olds) prim).

(** ** The invariant *)

Abbreviation vnode := (vloc * datasevr_volume)%type.
Abbreviation vchain := (Chains.chain next).

Definition vitem (x : vnode) : vloc * Z := (x.1, volume_id x.2).
Definition vitems (xss : list (list vnode)) : list (vloc * Z) := vitem <$> concat xss.

(** Where a volume has to be. *)
Definition placed (ok : nat -> Z -> Prop) (xss : list (list vnode)) : Prop :=
  forall i xs x, xss !! i = Some xs -> x ∈ xs -> ok i (volume_id x.2).

Definition prim_ok (cl : datasevr_cluster) (i : nat) (vid : Z) : Prop :=
  vid mod 2 ^ hash_size cl = Z.of_nat i /\
  (expanding cl = true -> vid mod 2 ^ (hash_size cl - 1) < expand_bucket cl).

Definition old_ok (cl : datasevr_cluster) (i : nat) (vid : Z) : Prop :=
  vid mod 2 ^ (hash_size cl - 1) = Z.of_nat i /\ expand_bucket cl <= Z.of_nat i.

(** [P]: the volumes of the cluster with their ids. *)
Record cluster_inv (s : store) (cl : datasevr_cluster) (P : list (vloc * Z)) : Prop := {
  ci_tables : exists pss oss,
    Forall2 (vchain (st_volumes s)) (primary_volumes cl) pss /\ placed (prim_ok cl) pss /\
    placed (old_ok cl) oss /\ vitems oss ++ vitems pss ≡ₚ P /\
    (if expanding cl
     then exists olds, old_volumes cl = Some olds /\ Forall2 (vchain (st_volumes s)) olds oss /\
          Z.of_nat (length olds) = 2 ^ (hash_size cl - 1) /\
          0 <= expand_bucket cl < 2 ^ (hash_size cl - 1) /\ 1 <= hash_size cl
     else oss = []);
  ci_locs : NoDup P.*1;
  ci_ids : NoDup P.*2;
  ci_size : 0 <= hash_size cl <= 31;
  ci_len : Z.of_nat (length (primary_volumes cl)) = 2 ^ hash_size cl
}.

(** ** Lemmas *)

Lemma hashmask_mod a n : 0 <= n -> Z.land a (hashmask n) = a mod 2 ^ n.
Proof. intros. unfold hashmask, hashsize. rewrite Z.shiftl_1_l. by apply land_mask_mod. Qed.

Lemma vitems_fst xss : (vitems xss).*1 = (concat xss).*1.
Proof. unfold vitems. by rewrite <- list_fmap_compose. Qed.

Lemma chain_find_spec fuel s p xs vid : vchain (st_volumes s) p xs -> (length xs <= fuel)%nat ->
  exists r, volume_chain_find fuel s p vid = Ret r /\
    match r with
    | Some v => exists d, (v, d) ∈ xs /\ volume_id d = vid
    | None => forall x, x ∈ xs -> volume_id x.2 <> vid
    end.
Proof.
  revert fuel p. induction xs as [|[v d] xs IH]; intros fuel p Hc Hf; cbn in Hc.
  - subst p. exists None. split; [by destruct fuel|]. by intros x ?%not_elem_of_nil.
  - destruct Hc as (-> & Hv & Hc). destruct fuel as [|fuel]; [cbn in Hf; lia|].
    cbn. unfold get_volume. rewrite Hv. cbn. zcase (volume_id d =? vid).
    + exists (Some v). split; [done|]. exists d. split; [constructor|done].
    + destruct (IH fuel (next d) Hc) as (r & Hr & Hcase); [cbn in Hf; lia|]. exists r. split; [done|].
      destruct r as [v'|].
      * destruct Hcase as (d' & ? & ?). exists d'. split; [by constructor|done].
      * intros x [->|Hx]%elem_of_cons; [done|by apply Hcase].
Qed.

Lemma mod_bucket {A} (tab : list A) vid k : 0 <= k -> Z.of_nat (length tab) = 2 ^ k ->
  exists i, vid mod 2 ^ k = Z.of_nat i /\ (i < length tab)%nat.
Proof.
  intros Hk Hl. pose proof (Z.mod_pos_bound vid (2 ^ k)). exists (Z.to_nat (vid mod 2 ^ k)). lia.
Qed.

(** The chain of a bucket of a well-formed array. *)
Lemma bucket_chain s (tab : list (option vloc)) xss i : Forall2 (vchain (st_volumes s)) tab xss -> NoDup (concat xss).*1 ->
  (i < length tab)%nat ->
  exists p xs, tab !! i = Some p /\ xss !! i = Some xs /\ vchain (st_volumes s) p xs /\
    (length xs <= size (st_volumes s))%nat.
Proof.
  intros Hf Hn Hi. destruct (lookup_lt_is_Some_2 tab i Hi) as [p Hp].
  destruct (Forall2_lookup_l _ _ _ _ _ Hf Hp) as (xs & Hx & Hc). exists p, xs. split_and!; try done.
  apply (chain_length _ _ _ Hc). rewrite (concat_lookup _ _ _ Hx), fmap_app in Hn. by apply NoDup_app in Hn as [? _].
Qed.

Lemma items_NoDup (P : list (vloc * Z)) oss pss : vitems oss ++ vitems pss ≡ₚ P -> NoDup P.*1 ->
  NoDup ((concat oss).*1 ++ (concat pss).*1).
Proof. intros Hp Hn. rewrite <- Hp, fmap_app, !vitems_fst in Hn. done. Qed.

Lemma elem_of_vitems v d xss : (v, d) ∈ concat xss -> (v, volume_id d) ∈ vitems xss.
Proof. intros Hin. apply list_elem_of_fmap. by exists (v, d). Qed.

Lemma placed_bucket ok xss i xs : placed ok xss -> xss !! i = Some xs ->
  (forall j vid, ok j vid -> ok i vid -> j = i) ->
  forall x, x ∈ concat xss -> ok i (volume_id x.2) -> x ∈ xs.
Proof.
  intros Hpl Hx Huniq x (j & ys & Hj & Hin)%elem_of_concat_inv Hok.
  rewrite (Huniq j (volume_id x.2)) in Hj; [congruence|by eapply Hpl|done].
Qed.

(** The lookup in the array a volume id belongs to. *)
Lemma find_in ok s tab xss i vid : Forall2 (vchain (st_volumes s)) tab xss -> placed ok xss -> NoDup (concat xss).*1 ->
  (i < length tab)%nat -> ok i vid -> (forall j vid, ok j vid -> ok i vid -> j = i) ->
  exists r, (ite ← get_or OutOfBounds (zlookup tab (Z.of_nat i)); volume_chain_find (size (st_volumes s)) s ite vid) = Ret r /\
    match r with
    | Some v => (v, vid) ∈ vitems xss
    | None => forall v, (v, vid) ∉ vitems xss
    end.
Proof.
  intros Hf Hpl Hn Hi Hok Hu. destruct (bucket_chain _ _ _ _ Hf Hn Hi) as (p & xs & Hp & Hx & Hc & Hl).
  rewrite zlookup_nat, Hp. cbn [get_or mbind outcome_bind].
  destruct (chain_find_spec _ _ _ _ vid Hc Hl) as (r & Hr & Hcase). exists r. split; [done|]. destruct r as [v|].
  - destruct Hcase as (d & Hd & <-). apply elem_of_vitems. by eapply elem_of_concat.
  - intros v (x & He & Hin)%list_elem_of_fmap. injection He as _ Hv. apply (Hcase x); [|done].
    eapply placed_bucket; [done|done|done|done|]. by rewrite <- Hv.
Qed.

Lemma not_in_items ok xss vid : placed ok xss -> (forall i, ~ ok i vid) -> forall v, (v, vid) ∉ vitems xss.
Proof.
  intros Hpl Hno v (x & He & Hin)%list_elem_of_fmap. injection He as _ Hv.
  apply elem_of_concat_inv in Hin as (i & xs & Hi & Hx). apply (Hno i). rewrite Hv. by eapply Hpl.
Qed.

Lemma cluster_find_inv s cl P vid : cluster_inv s cl P ->
  exists r, do_cluster_find s cl vid = Ret r /\
    match r with Some v => (v, vid) ∈ P | None => forall v, (v, vid) ∉ P end.
Proof.
  intros [(pss & oss & Hf & Hpp & Hpo & Hp & Hold) Hl Hi Hs Hlen].
  pose proof (items_NoDup _ _ _ Hp Hl) as Hn. apply NoDup_app in Hn as (Hno & _ & Hnp).
  unfold do_cluster_find. rewrite (hashmask_mod vid (hash_size cl)) by lia.
  destruct (mod_bucket (primary_volumes cl) vid (hash_size cl) ltac:(lia) Hlen) as (i & Hvi & Hli).
  destruct (expanding cl) eqn:Ee; cbn [andb].
  - destruct Hold as (olds & Ho & Hfo & Hlo & Heb & Hh1). rewrite Ho. rewrite hashmask_mod by lia.
    destruct (mod_bucket olds vid (hash_size cl - 1) ltac:(lia) Hlo) as (j & Hvj & Hlj).
    zcase (expand_bucket cl <=? vid mod 2 ^ (hash_size cl - 1)).
    + cbn [get_or mbind outcome_bind].
      destruct (find_in (old_ok cl) s olds oss j vid Hfo Hpo Hno Hlj) as (r & Hr & Hcase);
        [by split; [|lia]|unfold old_ok; intros; lia|].
      rewrite Hvj. cbn [get_or mbind outcome_bind] in *. exists r. split; [done|]. destruct r as [v|].
      * rewrite <- Hp. apply elem_of_app. by left.
      * intros v. rewrite <- Hp, elem_of_app. intros [Hin|Hin]; [by apply (Hcase v)|].
        revert Hin. apply (not_in_items (prim_ok cl)); [done|]. intros i' [_ Hlt]. specialize (Hlt Ee). lia.
    + destruct (find_in (prim_ok cl) s (primary_volumes cl) pss i vid Hf Hpp Hnp Hli) as (r & Hr & Hcase);
        [by split; [|lia]|unfold prim_ok; intros; lia|].
      rewrite Hvi. exists r. split; [done|]. destruct r as [v|].
      * rewrite <- Hp. apply elem_of_app. by right.
      * intros v. rewrite <- Hp, elem_of_app. intros [Hin|Hin]; [|by apply (Hcase v)].
        revert Hin. apply (not_in_items (old_ok cl)); [done|]. intros i' [? ?]. lia.
  - subst oss. destruct (find_in (prim_ok cl) s (primary_volumes cl) pss i vid Hf Hpp Hnp Hli) as (r & Hr & Hcase);
      [split; [done|congruence]|unfold prim_ok; intros; lia|].
    rewrite Hvi. exists r. split; [done|]. cbn in Hp. destruct r as [v|].
    + by rewrite <- Hp.
    + intros v. by rewrite <- Hp.
Qed.

(** ** Inserting a volume *)

Lemma mod_split vid k : 0 <= k -> vid mod 2 ^ (k + 1) = vid mod 2 ^ k + (if Z.testbit vid k then 2 ^ k else 0).
Proof.
  intros Hk. rewrite Z.pow_add_r, Z.rem_mul_r by lia. pose proof (Z.testbit_spec' vid k Hk) as Hb.
  change (2 ^ 1) with 2. rewrite <- Hb. destruct (Z.testbit vid k); cbn [Z.b2z]; lia.
Qed.

Lemma placed_push ok xss i xs v d : placed ok xss -> xss !! i = Some xs -> ok i (volume_id d) ->
  placed ok (<[i := (v, d) :: xs]> xss).
Proof.
  intros Hp Hx Hd j ys y Hj Hy. rewrite list_lookup_insert in Hj. case_decide as Hij.
  - destruct Hij as [<- _]. injection Hj as <-. apply elem_of_cons in Hy as [->|Hy]; [done|by eapply Hp].
  - by eapply Hp.
Qed.

Lemma vitems_push xss i xs v d : xss !! i = Some xs -> vitems (<[i := (v, d) :: xs]> xss) ≡ₚ (v, volume_id d) :: vitems xss.
Proof. intros Hx. unfold vitems. by rewrite (concat_push _ _ _ _ Hx). Qed.

(** Pushing a volume on bucket [i] of an array. *)
Lemma array_push ok s (tab : list (option vloc)) xss i v dv :
  Forall2 (vchain (st_volumes s)) tab xss -> placed ok xss -> (i < length tab)%nat -> v ∉ (concat xss).*1 ->
  ok i (volume_id dv) ->
  exists head xss', tab !! i = Some head /\ zlookup tab (Z.of_nat i) = Some head /\
    zinsert tab (Z.of_nat i) (Some v) = Ret (<[i := Some v]> tab) /\
    Forall2 (vchain (<[v := set_vnext dv head]> (st_volumes s))) (<[i := Some v]> tab) xss' /\
    placed ok xss' /\ vitems xss' ≡ₚ (v, volume_id dv) :: vitems xss.
Proof.
  intros Hf Hpl Hi Hv Hok. destruct (lookup_lt_is_Some_2 tab i Hi) as [head Hh].
  destruct (Forall2_lookup_l _ _ _ _ _ Hf Hh) as (xs & Hx & Hc).
  exists head, (<[i := (v, set_vnext dv head) :: xs]> xss). split_and!.
  - done.
  - by rewrite zlookup_nat.
  - rewrite zinsert_Ret by lia. by rewrite Nat2Z.id.
  - by eapply buckets_push.
  - by apply placed_push.
  - exact (vitems_push xss i xs v (set_vnext dv head) Hx).
Qed.

Lemma start_expand_inv s cl P b : cluster_inv s cl P -> cluster_inv s (if b : bool then __cluster_start_expand cl else cl) P.
Proof.
  intros Hi. destruct b; [|done]. unfold __cluster_start_expand. destruct (is_started_expanding cl) eqn:E; [done|].
  destruct Hi as [(pss & oss & H) Hl Hids Hs Hlen]. split; try done. exists pss, oss. exact H.
Qed.

Lemma cluster_insert_inv s cl P v dv : cluster_inv s cl P -> st_volumes s !! v = Some dv ->
  v ∉ P.*1 -> volume_id dv ∉ P.*2 -> (expanding cl = true -> Z.testbit (volume_id dv) (hash_size cl - 1) = false) ->
  exists s' cl', do_cluster_insert s cl v = Ret (s', cl', LFS_OK) /\ cluster_inv s' cl' ((v, volume_id dv) :: P) /\
    exists n, s' = put_volume s v (set_vnext dv n).
Proof.
  intros Hinv Hv Hnv Hnid Hbit. pose proof Hinv as [(pss & oss & Hf & Hpp & Hpo & Hp & Hold) Hl Hi Hs Hlen].
  assert (v ∉ (concat oss).*1 /\ v ∉ (concat pss).*1) as [Hvo Hvp].
  { rewrite <- Hp, fmap_app, !vitems_fst, not_elem_of_app in Hnv. done. }
  set (vid := volume_id dv) in *. pose proof (mod_split vid (hash_size cl - 1)) as Hms. rewrite Z.sub_add in Hms.
  unfold do_cluster_insert. assert (get_volume s v = Ret dv) as -> by (unfold get_volume; by rewrite Hv).
  cbn [mbind outcome_bind]. fold vid. rewrite hashmask_mod by lia.
  assert (NoDup ((v, vid) :: P).*1 /\ NoDup ((v, vid) :: P).*2) as [Hnl Hnd] by (split; by constructor).
  destruct (mod_bucket (primary_volumes cl) vid (hash_size cl) ltac:(lia) Hlen) as (i & Hvi & Hli).
  destruct (expanding cl && (expand_bucket cl <=? vid mod 2 ^ hash_size cl)) eqn:Ecase.
  - apply andb_true_iff in Ecase as [Ee Hge]. apply Z.leb_le in Hge. rewrite Ee in Hold.
    destruct Hold as (olds & Ho & Hfo & Hlo & Heb & Hh1). rewrite Ho. cbn [get_or mbind outcome_bind].
    rewrite (Hbit Ee), Z.add_0_r in Hms by lia.
    destruct (mod_bucket olds vid (hash_size cl - 1) ltac:(lia) Hlo) as (j & Hvj & Hlj).
    assert (j = i) as -> by lia.
    destruct (array_push (old_ok cl) s olds oss i v dv Hfo Hpo Hlj Hvo) as (head & oss' & _ & Hz & Hzi & Hf' & Hp' & Hit);
      [split; fold vid; lia|].
    rewrite Hvi, Hz. cbn [get_or mbind outcome_bind]. rewrite Hzi. cbn [mbind outcome_bind].
    do 2 eexists. split; [done|]. split; [|by eexists].
    apply start_expand_inv. split; cbn; try done. exists pss, oss'. rewrite Ee. split_and!; try done.
    + by apply Forall2_chain_insert.
    + rewrite Hit, <- Hp. done.
    + eexists. split; [done|]. split_and!; try done. by rewrite length_insert. all: lia.
  - assert (prim_ok cl i vid) as Hpok.
    { split; [done|]. intros Ee. rewrite Ee in *. cbn in Ecase. apply Z.leb_gt in Ecase.
      destruct Hold as (_ & _ & _ & _ & Heb & Hh1). rewrite (Hbit eq_refl), Z.add_0_r in Hms by lia. lia. }
    destruct (array_push (prim_ok cl) s (primary_volumes cl) pss i v dv Hf Hpp Hli Hvp Hpok)
      as (head & pss' & _ & Hz & Hzi & Hf' & Hp' & Hit).
    rewrite Hvi, Hz. cbn [get_or mbind outcome_bind]. rewrite Hzi. cbn [mbind outcome_bind].
    do 2 eexists. split; [done|]. split; [|by eexists].
    apply start_expand_inv. split; cbn; try done; [|by rewrite length_insert].
    exists pss', oss. split_and!; try done.
    + rewrite Hit, <- Permutation_middle, Hp. done.
    + destruct (expanding cl); [|done]. destruct Hold as (olds & Ho & Hfo & ?). exists olds. split_and!; try done; try lia.
      by apply Forall2_chain_insert.
Qed.

(** The insertion that the wrong mask sends past the old array. *)
Lemma cluster_insert_overrun s cl P v dv : cluster_inv s cl P -> st_volumes s !! v = Some dv ->
  expanding cl = true -> Z.testbit (volume_id dv) (hash_size cl - 1) = true ->
  do_cluster_insert s cl v = Crash OutOfBounds.
Proof.
  intros [(pss & oss & _ & _ & _ & _ & Hold) _ _ Hs _] Hv Ee Hb. rewrite Ee in Hold.
  destruct Hold as (olds & Ho & _ & Hlo & Heb & Hh1).
  unfold do_cluster_insert. assert (get_volume s v = Ret dv) as -> by (unfold get_volume; by rewrite Hv).
  cbn [mbind outcome_bind]. rewrite hashmask_mod by lia. rewrite Ee.
  pose proof (mod_split (volume_id dv) (hash_size cl - 1) ltac:(lia)) as Hms. rewrite Z.sub_add, Hb in Hms.
  pose proof (Z.mod_pos_bound (volume_id dv) (2 ^ (hash_size cl - 1)) ltac:(lia)).
  zcase (expand_bucket cl <=? volume_id dv mod 2 ^ hash_size cl); [|lia]. cbn [andb]. rewrite Ho.
  cbn [get_or mbind outcome_bind]. destruct (zlookup olds _) eqn:Hz; [|done]. apply zlookup_Some in Hz. lia.
Qed.

(** ** Growing *)

(** What the statements do together, whatever the fresh memory held. *)
Lemma cluster_expand_eq uninit ok cl : foldl (exec_stmt uninit ok) cl (expand_stmts ok) =
  if ok then
    mk_cluster (primary_volume_count cl) 0 (curr_volume_id cl) (hash_size cl + 1) 0 (is_started_expanding cl) true
      (Some (primary_volumes cl)) (replicate (Z.to_nat (hashsize (hash_size cl + 1))) None)
  else
    mk_cluster (primary_volume_count cl) (primary_volume_count cl) (curr_volume_id cl) (hash_size cl)
      (expand_bucket cl) (is_started_expanding cl) (expanding cl) (Some (primary_volumes cl)) (primary_volumes cl).
Proof. by destruct cl, ok. Qed.

Lemma cluster_expand_inv s cl P ok : cluster_inv s cl P -> expanding cl = false -> (ok = true -> hash_size cl < 31) ->
  cluster_inv s (__cluster_expand ok cl) P.
Proof.
  intros [(pss & oss & Hf & Hpp & Hpo & Hp & Hold) Hl Hi Hs Hlen] Ee Hok. rewrite Ee in Hold. subst oss.
  unfold __cluster_expand. rewrite cluster_expand_eq. destruct ok.
  - specialize (Hok eq_refl). unfold hashsize. rewrite Z.shiftl_1_l.
    pose proof (Z.pow_pos_nonneg 2 (hash_size cl + 1) ltac:(lia) ltac:(lia)).
    pose proof (Z.pow_pos_nonneg 2 (hash_size cl) ltac:(lia) ltac:(lia)).
    split; cbn [hash_size primary_volumes expanding old_volumes expand_bucket]; try done; try lia.
    + exists (replicate (Z.to_nat (2 ^ (hash_size cl + 1))) []), pss. split_and!.
      * by apply Forall2_replicate.
      * intros i xs x [-> _]%lookup_replicate. by intros ?%not_elem_of_nil.
      * intros i xs x Hx Hin. destruct (Hpp i xs x Hx Hin) as [Hm _]. split; cbn; [|lia].
        by rewrite Z.add_simpl_r.
      * unfold vitems at 2. rewrite concat_replicate_nil. cbn. rewrite app_nil_r. exact Hp.
      * eexists. split; [done|]. rewrite Z.add_simpl_r. split_and!; [done|done|lia|lia|lia].
    + rewrite length_replicate. lia.
  - split; cbn; try done. exists pss, []. split_and!; [done|exact Hpp|done|done|by rewrite Ee].
Qed.

Record moved (s s' : store) (ys : list vnode) : Prop := {
  mv_frame : forall v, v ∉ ys.*1 -> st_volumes s' !! v = st_volumes s !! v;
  mv_blocks : st_blocks s' = st_blocks s
}.

Lemma migrate_chain_spec ok hs fuel s prim pss count it ys :
  0 <= hs <= 31 -> Z.of_nat (length prim) = 2 ^ hs ->
  vchain (st_volumes s) it ys -> (length ys <= fuel)%nat ->
  Forall2 (vchain (st_volumes s)) prim pss -> placed ok pss ->
  (forall y, y ∈ ys -> ok (Z.to_nat (volume_id y.2 mod 2 ^ hs)) (volume_id y.2)) ->
  NoDup ((concat pss).*1 ++ ys.*1) ->
  exists s' prim' pss', migrate_chain fuel s hs prim count it = Ret (s', prim', count + Z.of_nat (length ys)) /\
    Forall2 (vchain (st_volumes s')) prim' pss' /\ length prim' = length prim /\ placed ok pss' /\
    vitems pss' ≡ₚ vitems pss ++ (vitem <$> ys) /\ moved s s' ys.
Proof.
  intros Hhs. revert fuel s prim pss count it. induction ys as [|[v d] ys IH];
    intros fuel s prim pss count it Hlen Hc Hf Hp Hpl Hok Hnd.
  - cbn in Hc. subst it. exists s, prim, pss. rewrite Z.add_0_r, app_nil_r.
    split_and!; first [done | by destruct fuel | by split].
  - destruct Hc as (-> & Hv & Hc). destruct fuel as [|fuel]; [cbn in Hf; lia|].
    destruct (mod_bucket prim (volume_id d) hs ltac:(lia) Hlen) as (i & Hi & Hlt).
    cbn [fmap list_fmap fst] in Hnd. apply NoDup_app in Hnd as (Hn1 & Hn2 & Hn3). apply NoDup_cons in Hn3 as [Hvy Hn3].
    assert (v ∉ (concat pss).*1) as Hvp by (intros Hin; apply (Hn2 v Hin); constructor).
    pose proof (Hok (v, d) ltac:(constructor)) as Hokv. cbn [snd] in Hokv. rewrite Hi, Nat2Z.id in Hokv.
    destruct (array_push ok s prim pss i v d Hp Hpl Hlt Hvp Hokv) as (head & pss1 & _ & Hz & Hzi & Hf1 & Hp1 & Hit1).
    destruct (IH fuel (put_volume s v (set_vnext d head)) (<[i := Some v]> prim) pss1 (count + 1) (next d))
      as (s' & prim' & pss' & Hr & Hf' & Hl' & Hp' & Hit' & Hm).
    { by rewrite length_insert. }
    { cbn. by apply chain_insert. }
    { cbn in Hf. lia. }
    { done. }
    { done. }
    { intros y Hy. apply Hok. by constructor. }
    { rewrite <- vitems_fst, Hit1. cbn. rewrite vitems_fst. apply NoDup_cons. split.
      - by rewrite not_elem_of_app.
      - apply NoDup_app. split_and!; [done| |done]. intros x Hx Hy. apply (Hn2 x Hx). by constructor. }
    exists s', prim', pss'. split_and!; try done.
    + cbn [migrate_chain]. unfold get_volume. rewrite Hv. cbn [get_or mbind outcome_bind].
      rewrite hashmask_mod by lia. rewrite Hi.
      assert (s32 (Z.of_nat i) = Z.of_nat i) as ->.
      { apply s_wrap_id; [lia|]. unfold is_s. pose proof (Z.pow_le_mono_r 2 hs 31). lia. }
      rewrite Hz. cbn [get_or mbind outcome_bind]. rewrite Hzi. cbn [mbind outcome_bind]. rewrite Hr.
      do 2 f_equal. cbn [length]. lia.
    + by rewrite Hl', length_insert.
    + rewrite Hit', Hit1. cbn. by rewrite Permutation_middle.
    + destruct Hm as [Hm1 Hm2]. split; [|by rewrite Hm2]. cbn. intros w Hw.
      rewrite Hm1 by (intros ?; apply Hw; by constructor). cbn. rewrite lookup_insert_ne; [done|].
      intros <-. apply Hw. constructor.
Qed.

Lemma vitems_clear oss b ys : oss !! b = Some ys -> vitems oss ≡ₚ (vitem <$> ys) ++ vitems (<[b := []]> oss).
Proof. intros Hb. unfold vitems. rewrite (concat_lookup _ _ _ Hb), (concat_insert _ _ _ _ Hb), fmap_app. done. Qed.

(** Emptying bucket [b] keeps the other chains of the old array. *)
Lemma clear_bucket s s' (olds : list (option vloc)) oss b ys : Forall2 (vchain (st_volumes s)) olds oss ->
  oss !! b = Some ys -> NoDup (concat oss).*1 -> moved s s' ys ->
  Forall2 (vchain (st_volumes s')) (<[b := None]> olds) (<[b := []]> oss).
Proof.
  intros Hf Hb Hn [Hm _]. apply (Forall2_chain_ext (st_volumes s)).
  - intros v Hv. apply Hm. intros Hy. rewrite (concat_insert _ _ _ _ Hb) in Hv.
    rewrite (concat_lookup _ _ _ Hb), fmap_app in Hn. apply NoDup_app in Hn as (_ & Hn & _). by apply (Hn v).
  - by apply Forall2_insert.
Qed.

Lemma placed_old_clear cl oss b cl' : placed (old_ok cl) oss -> Z.of_nat b = expand_bucket cl ->
  hash_size cl' = hash_size cl -> expand_bucket cl' = expand_bucket cl + 1 -> placed (old_ok cl') (<[b := []]> oss).
Proof.
  intros Hp Hb Hh He i xs x Hi Hx. rewrite list_lookup_insert in Hi. case_decide as Hc.
  - injection Hi as <-. by apply not_elem_of_nil in Hx.
  - destruct (Hp i xs x Hi Hx) as [H1 H2]. unfold old_ok. rewrite Hh, He. split; [done|].
    destruct (decide (i = b)) as [->|]; [|lia]. exfalso. apply Hc. split; [done|]. by eapply lookup_lt_Some.
Qed.

(** The old array is empty once every bucket has been moved. *)
Lemma placed_old_done cl oss : placed (old_ok cl) oss -> Z.of_nat (length oss) <= expand_bucket cl -> concat oss = [].
Proof.
  intros Hp Hl. apply elem_of_nil_inv. intros x (i & xs & Hi & Hx)%elem_of_concat_inv.
  destruct (Hp i xs x Hi Hx) as [_ Hge]. apply lookup_lt_Some in Hi. lia.
Qed.

Lemma cluster_migrate_inv s cl P : cluster_inv s cl P -> expanding cl = true ->
  exists s' cl', cluster_migrate_bucket s cl = Ret (s', cl') /\ cluster_inv s' cl' P /\ st_blocks s' = st_blocks s /\
    hash_size cl' = hash_size cl /\ expand_bucket cl' = expand_bucket cl + 1 /\
    expanding cl' = negb (expand_bucket cl' =? 2 ^ (hash_size cl - 1)).
Proof.
  intros [(pss & oss & Hf & Hpp & Hpo & Hp & Hold) Hl Hi Hs Hlen] Ee. rewrite Ee in Hold.
  destruct Hold as (olds & Ho & Hfo & Hlo & Heb & Hh1).
  pose proof (items_NoDup _ _ _ Hp Hl) as Hn. apply NoDup_app in Hn as (Hno & Hdis & Hnp).
  set (b := Z.to_nat (expand_bucket cl)). assert (Z.of_nat b = expand_bucket cl) as Hb by (unfold b; lia).
  destruct (bucket_chain s olds oss b Hfo Hno ltac:(lia)) as (it & ys & Hit & Hys & Hc & Hfuel).
  set (cl1 := mk_cluster 0 0 0 (hash_size cl) (Z.of_nat b + 1) true true None []).
  destruct (migrate_chain_spec (prim_ok cl1) (hash_size cl) (size (st_volumes s)) s (primary_volumes cl) pss
    (primary_volume_count cl) it ys) as (s' & prim' & pss' & Hr & Hf' & Hl' & Hp' & Hitems & Hm); try done.
  { intros i xs x Hx Hin. destruct (Hpp i xs x Hx Hin) as [H1 H2]. split; [done|]. specialize (H2 Ee). cbn. lia. }
  { intros y Hy. destruct (Hpo b ys y Hys Hy) as [H1 _]. split; cbn; [|lia].
    pose proof (Z.mod_pos_bound (volume_id y.2) (2 ^ hash_size cl)). lia. }
  { assert (forall v, v ∈ ys.*1 -> v ∈ (concat oss).*1) as Hin.
    { intros v Hv. rewrite (concat_lookup _ _ _ Hys), fmap_app. apply elem_of_app. by left. }
    rewrite (concat_lookup _ _ _ Hys), fmap_app in Hno. apply NoDup_app in Hno as [Hno _].
    apply NoDup_app. split_and!; [done| |done]. intros v Hv Hy. apply (Hdis v); [by apply Hin|done]. }
  assert (vitems (<[b := []]> oss) ++ vitems pss' ≡ₚ P) as HP.
  { rewrite Hitems, <- Hp, (vitems_clear _ _ _ Hys). rewrite <- app_assoc.
    rewrite (Permutation_app_comm (vitem <$> ys)). by rewrite <- app_assoc. }
  pose proof (clear_bucket _ _ _ _ _ _ Hfo Hys Hno Hm) as Hfo'.
  pose proof (Forall2_length _ _ _ Hfo) as Hlen2.
  unfold cluster_migrate_bucket. rewrite Ho. cbn [get_or mbind outcome_bind].
  rewrite <- Hb, zlookup_nat, Hit. cbn [get_or mbind outcome_bind]. rewrite Hr. cbn [mbind outcome_bind].
  rewrite zinsert_Ret by lia. rewrite Nat2Z.id. cbn [mbind outcome_bind]. unfold hashsize. rewrite Z.shiftl_1_l.
  pose proof (placed_old_clear cl oss b cl1 Hpo Hb eq_refl ltac:(cbn; lia)) as Hpo'.
  zcase (Z.of_nat b + 1 =? 2 ^ (hash_size cl - 1)).
  - do 2 eexists. split; [done|]. split_and!; [|apply Hm|done|done|by rewrite E, Z.eqb_refl].
    split; cbn; try done; [|lia]. exists pss', []. split_and!; try done.
    + intros i xs x Hx Hin. destruct (Hp' i xs x Hx Hin) as [H1 _]. split; [done|]. cbn. congruence.
    + assert (concat (<[b := []]> oss) = []) as Hnil.
      { apply (placed_old_done cl1); [done|]. rewrite length_insert. cbn. lia. }
      unfold vitems at 1 in HP. rewrite Hnil in HP. exact HP.
  - do 2 eexists. split; [done|]. split_and!; [|apply Hm|done|done|].
    + split; cbn; try done; [|lia]. exists pss', (<[b := []]> oss). split_and!; try done.
      eexists. split; [done|]. rewrite length_insert. split_and!; first [done|lia].
    + cbn. symmetry. apply negb_true_iff. by apply Z.eqb_neq.
Qed.

Lemma migrate_last s cl s' cl' : cluster_migrate_bucket s cl = Ret (s', cl') -> expanding cl' = false -> old_volumes cl' = None /\ old_volume_count cl' = 0.
Proof.
  unfold cluster_migrate_bucket. intros H He. apply bind_Ret in H as (olds & _ & H). apply bind_Ret in H as (it & _ & H). apply bind_Ret in H as ([ [s1 prim] count] & _ & H).
  apply bind_Ret in H as (olds' & _ & H). destruct (_ =? _); injection H as _ <-; done.
Qed.

(** ** Changes of volumes that leave the table alone *)

Lemma vitems_set s tab xss v d d' : Forall2 (vchain (st_volumes s)) tab xss -> st_volumes s !! v = Some d ->
  volume_id d' = volume_id d -> vitems (set_nodes v d' xss) = vitems xss.
Proof.
  intros Hf Hv Hid. unfold vitems, set_nodes. rewrite <- concat_map. change (List.map (set_node v d')) with (fmap (M := list) (set_node v d')).
  rewrite <- list_fmap_compose. apply list_fmap_ext.
  intros i x Hx. unfold compose, set_node, vitem. case_decide as E; [|done]. cbn. rewrite Hid, <- E. f_equal.
  apply list_elem_of_lookup_2 in Hx. pose proof (Forall2_chain_lookup _ _ _ _ Hf Hx) as Hl.
  rewrite E, Hv in Hl. by injection Hl as <-.
Qed.

Lemma placed_set ok s tab xss v d d' : Forall2 (vchain (st_volumes s)) tab xss -> st_volumes s !! v = Some d ->
  volume_id d' = volume_id d -> placed ok xss -> placed ok (set_nodes v d' xss).
Proof.
  intros Hf Hv Hid Hpl i xs x Hi Hx. unfold set_nodes in Hi. rewrite list_lookup_fmap in Hi. destruct (xss !! i) as [ys|] eqn:Hy; [|done].
  injection Hi as <-. apply list_elem_of_fmap in Hx as (y & -> & Hin). unfold set_node. case_decide as E; [|by eapply Hpl].
  cbn. rewrite Hid. pose proof (Forall2_chain_lookup _ _ _ y Hf ltac:(by eapply elem_of_concat)) as Hl.
  rewrite E, Hv in Hl. injection Hl as ->. by eapply Hpl.
Qed.

Lemma cluster_inv_volume s cl P v d d' : cluster_inv s cl P -> st_volumes s !! v = Some d ->
  next d' = next d -> volume_id d' = volume_id d -> cluster_inv (put_volume s v d') cl P.
Proof.
  intros [(pss & oss & Hf & Hpp & Hpo & Hp & Hold) Hl Hi Hs Hlen] Hv Hn Hid. split; try done.
  destruct (expanding cl) eqn:Ee.
  - destruct Hold as (olds & Ho & Hfo & Hrest).
    exists (set_nodes v d' pss), (set_nodes v d' oss). split_and!.
    + by eapply Forall2_chain_set.
    + by eapply placed_set.
    + by eapply placed_set.
    + by rewrite (vitems_set _ _ _ _ _ _ Hf Hv Hid), (vitems_set _ _ _ _ _ _ Hfo Hv Hid).
    + exists olds. split_and!; try tauto. by eapply Forall2_chain_set.
  - subst oss. exists (set_nodes v d' pss), []. split_and!; try done.
    + by eapply Forall2_chain_set.
    + by eapply placed_set.
    + by rewrite (vitems_set _ _ _ _ _ _ Hf Hv Hid).
Qed.

Lemma cluster_inv_new s s' cl P : cluster_inv s cl P ->
  (forall v d, st_volumes s !! v = Some d -> st_volumes s' !! v = Some d) -> cluster_inv s' cl P.
Proof.
  intros [(pss & oss & Hf & Hpp & Hpo & Hp & Hold) Hl Hi Hs Hlen] He. split; try done.
  assert (forall tab xss, Forall2 (vchain (st_volumes s)) tab xss -> Forall2 (vchain (st_volumes s')) tab xss) as Hk.
  { intros tab xss Hc. apply (Forall2_chain_ext (st_volumes s)); [|done]. intros v Hv.
    apply list_elem_of_fmap in Hv as (x & -> & Hx). rewrite (Forall2_chain_lookup _ _ _ _ Hc Hx).
    by apply He, (Forall2_chain_lookup _ _ _ _ Hc). }
  exists pss, oss. split_and!; try done; [by apply Hk|]. destruct (expanding cl); [|done].
  destruct Hold as (olds & Ho & Hfo & Hrest). exists olds. split_and!; try tauto. by apply Hk.
Qed.

(** ** Runs *)

(** The state with the abstract table: volume ids to volumes. *)
Record cworld := mk_cworld { cw_store : store; cw_cluster : datasevr_cluster; cw_map : gmap Z vloc }.

(** Changes of volumes that leave the table alone. *)
Inductive dstep : cworld -> cworld -> Prop :=
| cs_volume w v d d' :
    st_volumes (cw_store w) !! v = Some d -> next d' = next d -> volume_id d' = volume_id d ->
    dstep w (mk_cworld (put_volume (cw_store w) v d') (cw_cluster w) (cw_map w))
| cs_new w s' :
    (forall v d, st_volumes (cw_store w) !! v = Some d -> st_volumes s' !! v = Some d) ->
    dstep w (mk_cworld s' (cw_cluster w) (cw_map w)).

Inductive cstep : cworld -> cworld -> Prop :=
| cs_insert w v dv s' cl' r :
    st_volumes (cw_store w) !! v = Some dv -> (forall vid, cw_map w !! vid <> Some v) ->
    cw_map w !! volume_id dv = None ->
    do_cluster_insert (cw_store w) (cw_cluster w) v = Ret (s', cl', r) ->
    cstep w (mk_cworld s' cl' (<[volume_id dv := v]> (cw_map w)))
| cs_migrate w s' cl' :
    expanding (cw_cluster w) = true ->
    cluster_migrate_bucket (cw_store w) (cw_cluster w) = Ret (s', cl') ->
    cstep w (mk_cworld s' cl' (cw_map w)).

(** Where the maintenance thread is in [__cluster_expand]: what the fresh memory
    holds, whether the allocation succeeds, and how many statements are done. *)
Abbreviation expand_pc := (option (list (option vloc) * bool * nat)).

Record xworld := mk_xworld { xw_world : cworld; xw_pc : expand_pc }.

(** An expansion is a sequence of steps, and the data of the volumes may change
    in between; insertions are in the runs only when no expansion is being set
    up, see [window_insert_lost]. *)
Inductive xstep : xworld -> xworld -> Prop :=
| xs_table w w' : cstep w w' -> xstep (mk_xworld w None) (mk_xworld w' None)
| xs_data w w' pc : dstep w w' -> xstep (mk_xworld w pc) (mk_xworld w' pc)
| xs_begin w uninit ok :
    expanding (cw_cluster w) = false -> (ok = true -> hash_size (cw_cluster w) < 31) ->
    xstep (mk_xworld w None) (mk_xworld w (Some (uninit, ok, 0%nat)))
| xs_stmt w uninit ok k st :
    expand_stmts ok !! k = Some st ->
    xstep (mk_xworld w (Some (uninit, ok, k)))
      (mk_xworld (mk_cworld (cw_store w) (exec_stmt uninit ok (cw_cluster w) st) (cw_map w))
         (if (S k =? length (expand_stmts ok))%nat then None else Some (uninit, ok, S k))).

(** What a lookup gives at each point: the volume, or nothing between [memset]
    and the assignment to [expanding]; a null array is left, and nothing is said
    of an array that has not been cleared yet. *)
Definition seen (pc : expand_pc) (m : gmap Z vloc) (vid : Z) : option (outcome (option vloc)) :=
  match pc with
  | Some (_, true, 3%nat) => None
  | Some (_, true, S (S (S (S _)))) => Some (Ret None)
  | Some (_, false, 3%nat) => Some (Crash OutOfBounds)
  | _ => Some (Ret (m !! vid))
  end.

Definition world_inv (w : cworld) : Prop :=
  exists P, cluster_inv (cw_store w) (cw_cluster w) P /\ forall vid v, cw_map w !! vid = Some v <-> (v, vid) ∈ P.

Lemma world_inv_insert w v dv s' cl' r : world_inv w -> st_volumes (cw_store w) !! v = Some dv ->
  (forall vid, cw_map w !! vid <> Some v) -> cw_map w !! volume_id dv = None ->
  do_cluster_insert (cw_store w) (cw_cluster w) v = Ret (s', cl', r) ->
  world_inv (mk_cworld s' cl' (<[volume_id dv := v]> (cw_map w))).
Proof.
  intros (P & Hi & HM) Hv Hnv Hno Hr.
  assert (v ∉ P.*1) as Hp1.
  { intros ([v' vid] & -> & Hin)%list_elem_of_fmap. by apply HM, Hnv in Hin. }
  assert (volume_id dv ∉ P.*2) as Hp2.
  { intros ([v' vid] & He & Hin)%list_elem_of_fmap. cbn in He. subst vid. apply HM in Hin. congruence. }
  destruct (expanding (cw_cluster w) && Z.testbit (volume_id dv) (hash_size (cw_cluster w) - 1)) eqn:Eb.
  { apply andb_true_iff in Eb as [Ee Eb]. rewrite (cluster_insert_overrun _ _ _ _ _ Hi Hv Ee Eb) in Hr. done. }
  destruct (cluster_insert_inv _ _ _ _ _ Hi Hv Hp1 Hp2) as (s1 & cl1 & Hr' & Hi' & _).
  { intros Ee. by rewrite Ee in Eb. }
  rewrite Hr in Hr'. injection Hr' as -> -> _. eexists. split; [exact Hi'|]. cbn.
  intros vid u. rewrite lookup_insert, elem_of_cons, <- HM. case_decide as E; split.
  - intros [= <-]. left. by rewrite E.
  - intros [ [= -> _] | Hu ]; [done|]. rewrite <- E in Hu. congruence.
  - by right.
  - intros [ [= _ ->] | Hu ]; [done|done].
Qed.

Lemma world_inv_data w w' : world_inv w -> dstep w w' -> world_inv w'.
Proof.
  intros (P & Hi & HM) Hs. inversion Hs as [? v d d' Hv Hn Hid|? s' He]; subst; exists P; (split; [|done]).
  - by eapply cluster_inv_volume.
  - by eapply cluster_inv_new.
Qed.

Lemma world_inv_step w w' : world_inv w -> cstep w w' -> world_inv w'.
Proof.
  intros Hw Hs. inversion Hs as [? v dv s' cl' r Hv Hnv Hno Hr|? s' cl' Ee Hr]; subst.
  - by eapply world_inv_insert.
  - destruct Hw as (P & Hi & HM). destruct (cluster_migrate_inv _ _ _ Hi Ee) as (s1 & cl1 & Hr' & Hi' & _).
    rewrite Hr in Hr'. injection Hr' as <- <-. by exists P.
Qed.

(** In the middle of an expansion: the table as it was before it. *)
Definition xinv (x : xworld) : Prop :=
  match xw_pc x with
  | None => world_inv (xw_world x)
  | Some (uninit, ok, k) => exists cl0, world_inv (mk_cworld (cw_store (xw_world x)) cl0 (cw_map (xw_world x))) /\
      expanding cl0 = false /\ (ok = true -> hash_size cl0 < 31) /\ (k < length (expand_stmts ok))%nat /\
      cw_cluster (xw_world x) = foldl (exec_stmt uninit ok) cl0 (take k (expand_stmts ok))
  end.

Lemma dstep_cluster w w' : dstep w w' -> cw_cluster w' = cw_cluster w /\ cw_map w' = cw_map w /\
  forall cl, dstep (mk_cworld (cw_store w) cl (cw_map w)) (mk_cworld (cw_store w') cl (cw_map w)).
Proof.
  intros Hs. inversion Hs as [? v d d' Hv Hn Hid|? s' He]; subst; (split; [done|]; split; [done|]); intros cl.
  - by eapply (cs_volume (mk_cworld (cw_store w) cl (cw_map w))).
  - by apply (cs_new (mk_cworld (cw_store w) cl (cw_map w))).
Qed.

Lemma xinv_step x x' : xinv x -> xstep x x' -> xinv x'.
Proof.
  intros Hx Hs. inversion Hs as [w w' Hc|w w' pc Hd|w uninit ok Ee Hok|w uninit ok k st Hst]; subst; unfold xinv in *; cbn [xw_pc xw_world cw_store cw_map] in *.
  - by eapply world_inv_step.
  - destruct pc as [ [ [uninit ok] k]|]; [|by eapply world_inv_data]. destruct (dstep_cluster _ _ Hd) as (-> & -> & Hd').
    destruct Hx as (cl0 & Hw & Hrest). exists cl0. split; [|done]. eapply world_inv_data; [exact Hw|apply Hd'].
  - exists (cw_cluster w). split_and!; [by destruct w|done|done|destruct ok; cbn; lia|done].
  - destruct Hx as (cl0 & Hw & Ee & Hok & Hk & Hcl). pose proof (take_S_r _ _ _ Hst) as Ht. rewrite Hcl.
    assert (exec_stmt uninit ok (foldl (exec_stmt uninit ok) cl0 (take k (expand_stmts ok))) st = foldl (exec_stmt uninit ok) cl0 (take (S k) (expand_stmts ok))) as ->
      by (rewrite Ht, foldl_snoc; done).
    destruct (Nat.eqb_spec (S k) (length (expand_stmts ok))) as [E|E].
    + rewrite E, firstn_all. destruct Hw as (P & Hi & HM). exists P. split; [|done]. cbn [cw_store cw_cluster].
      rewrite cluster_expand_eq. pose proof (cluster_expand_inv _ _ _ ok Hi Ee Hok) as H. unfold __cluster_expand in H. by rewrite cluster_expand_eq in H.
    + exists cl0. split_and!; try done. lia.
Qed.

Lemma find_world w vid : world_inv w -> do_cluster_find (cw_store w) (cw_cluster w) vid = Ret (cw_map w !! vid).
Proof.
  intros (P & Hi & HM). destruct (cluster_find_inv _ _ _ vid Hi) as (r & -> & Hcase). f_equal. destruct r as [v|].
  - symmetry. by apply HM.
  - symmetry. apply eq_None_not_Some. intros [v Hv]. apply HM in Hv. by apply (Hcase v).
Qed.

(** An array that has just been cleared holds no volume, for the mask of the old
    and of the new size. *)
Lemma find_cleared s cl vid h : expanding cl = false -> 0 <= hash_size cl <= h -> primary_volumes cl = replicate (Z.to_nat (hashsize h)) None ->
  do_cluster_find s cl vid = Ret None.
Proof.
  intros Ee Hh Hp. unfold do_cluster_find. rewrite Ee, Hp. cbn [andb]. rewrite hashmask_mod by lia. unfold hashsize. rewrite Z.shiftl_1_l.
  pose proof (Z.mod_pos_bound vid (2 ^ hash_size cl) ltac:(lia)). pose proof (Z.pow_le_mono_r 2 (hash_size cl) h ltac:(lia) ltac:(lia)).
  rewrite <- (Z2Nat.id (vid mod _)), zlookup_nat by lia. rewrite lookup_replicate_2 by lia. cbn [get_or mbind outcome_bind]. by destruct (size _).
Qed.

Lemma find_expanding s cl0 m uninit ok k vid r : world_inv (mk_cworld s cl0 m) -> expanding cl0 = false ->
  (k < length (expand_stmts ok))%nat -> seen (Some (uninit, ok, k)) m vid = Some r ->
  do_cluster_find s (foldl (exec_stmt uninit ok) cl0 (take k (expand_stmts ok))) vid = r.
Proof.
  intros Hw Ee Hk Hs. pose proof (find_world _ vid Hw) as Hf. cbn [cw_store cw_cluster cw_map] in Hf. destruct Hw as (P & [_ _ _ Hsz _] & _). cbn [cw_cluster] in Hsz.
  destruct cl0 as [oc pc vid0 hs eb ise ex olds prims]. cbn [expanding hash_size] in *. subst ex. destruct ok; cbn [length app expand_stmts] in Hk.
  - destruct k as [|[|[|[|k] ] ] ]; cbn [seen] in Hs; try (injection Hs as <-; exact Hf); [done|]. injection Hs as <-.
    destruct k as [|[|[|[|k] ] ] ]; [..|lia]; apply (find_cleared _ _ _ (hs + 1)); cbn; (done || lia).
  - destruct k as [|[|[|[|[|k] ] ] ] ]; cbn [seen] in Hs; try (injection Hs as <-; exact Hf); [|lia]. injection Hs as <-.
    unfold do_cluster_find. cbn. by destruct (Z.land _ _).
Qed.

(** ** Theorems *)


(** An insertion succeeds, with [LFS_OK], exactly when the table is not
    growing or the bit that the growth adds to the mask is clear in the id;
    otherwise it writes past the end of the old array. *)
Theorem do_cluster_insert_spec s cl P v dv : cluster_inv s cl P -> st_volumes s !! v = Some dv ->
  v ∉ P.*1 -> volume_id dv ∉ P.*2 ->
  if expanding cl && Z.testbit (volume_id dv) (hash_size cl - 1)
  then do_cluster_insert s cl v = Crash OutOfBounds
  else exists s' cl', do_cluster_insert s cl v = Ret (s', cl', LFS_OK) /\
         cluster_inv s' cl' ((v, volume_id dv) :: P).
Proof.
  intros Hi Hv H1 H2. destruct (expanding cl && _) eqn:Eb.
  - apply andb_true_iff in Eb as [Ee Eb]. by eapply cluster_insert_overrun.
  - destruct (cluster_insert_inv s cl P v dv Hi Hv H1 H2) as (s' & cl' & ? & ? & _); [|by eauto].
    intros Ee. by rewrite Ee in Eb.
Qed.

Fixpoint migrate_rounds (n : nat) (s : store) (cl : datasevr_cluster) : outcome (store * datasevr_cluster) :=
  match n with
  | O => Ret (s, cl)
  | S n => '(s, cl) ← cluster_migrate_bucket s cl; migrate_rounds n s cl
  end.

(** C25. An expansion ends: after one round for each old bucket that is left the
    table is no longer growing, has lost nothing, and no longer refers to the
    old array, whose count is zero. *)
Theorem expansion_completes n s cl P : cluster_inv s cl P -> expanding cl = true ->
  Z.of_nat n = 2 ^ (hash_size cl - 1) - expand_bucket cl ->
  exists s' cl', migrate_rounds n s cl = Ret (s', cl') /\ cluster_inv s' cl' P /\ expanding cl' = false /\
    hash_size cl' = hash_size cl /\ old_volumes cl' = None /\ old_volume_count cl' = 0.
Proof.
  revert s cl. induction n as [|n IH]; intros s cl Hi Ee Hn.
  - destruct (ci_tables _ _ _ Hi) as (pss & oss & _ & _ & _ & _ & Hold). rewrite Ee in Hold.
    destruct Hold as (olds & _ & _ & _ & ? & _). lia.
  - cbn [migrate_rounds]. destruct (cluster_migrate_inv _ _ _ Hi Ee) as (s1 & cl1 & Hm & Hi1 & _ & Hh & Hb & He1).
    pose proof (migrate_last _ _ _ _ Hm) as Hlast. rewrite Hm. cbn [mbind outcome_bind]. rewrite Hb in He1. zcase (expand_bucket cl + 1 =? 2 ^ (hash_size cl - 1)).
    + assert (n = 0%nat) as -> by lia. destruct (Hlast He1). cbn. eauto 10.
    + destruct (IH s1 cl1 Hi1 He1) as (s2 & cl2 & Hr & Hi2 & Hf & Hh2 & Ho2 & Hc2); [rewrite Hh, Hb; lia|].
      exists s2, cl2. split_and!; [done|done|done|congruence|done|done].
Qed.

(** The lock of a volume is the lock of its old bucket, which the move of
    that bucket takes, as long as there are no more locks than old buckets. *)
Theorem cluster_lock_covers_bucket power hs vid : 0 <= power <= hs - 1 ->
  cluster_lock_index power vid = cluster_lock_index power (Z.land vid (hashmask (hs - 1))).
Proof.
  intros Hp. unfold cluster_lock_index. rewrite !hashmask_mod by lia.
  replace (hs - 1) with (power + (hs - 1 - power)) by lia. rewrite Z.pow_add_r by lia.
  symmetry. apply Z.mod_mod_divide. by exists (2 ^ (hs - 1 - power)); lia.
Qed.

Lemma cluster_lock_covers_bucket_witness :
  cluster_lock_index 1 13 = cluster_lock_index 1 (Z.land 13 (hashmask (3 - 1))).
Proof. apply (cluster_lock_covers_bucket 1 3 13). lia. Defined.

(** ** Instances *)

Definition demo_volume (vid : Z) : datasevr_volume := mk_volume None vid 0 0 3 (-1) 0 0 None.

(** Volumes 1..6 with ids 10, 11, 12, 13, 16, 20, not yet in the table. *)
Definition demo_store : store :=
  mk_store ∅ (list_to_map (zip (seq 1 6) (demo_volume <$> [10; 11; 12; 13; 16; 20]))) 7 (fun _ => true) 0.

Definition demo_cluster : datasevr_cluster :=
  match __cluster_init true 0 with inr cl => cl | inl _ => mk_cluster 0 0 0 0 0 false false None [] end.

Lemma init_world_inv s : world_inv (mk_cworld s demo_cluster ∅).
Proof.
  exists []. split; [|split; [done|by intros ?%not_elem_of_nil]].
  split; cbn; try done; try constructor; try lia.
  exists [ []; []; []; [] ], []. split_and!; try done; try (by intros i xs x Hi; rewrite lookup_nil in Hi).
  - by repeat constructor.
  - intros i xs x Hi Hx. destruct i as [|[|[|[|i]]]]; cbn in Hi; try discriminate Hi; injection Hi as <-;
      by apply not_elem_of_nil in Hx.
Qed.

Definition at_stmt (w : cworld) (uninit : list (option vloc)) (ok : bool) (k : nat) : cworld :=
  mk_cworld (cw_store w) (foldl (exec_stmt uninit ok) (cw_cluster w) (take k (expand_stmts ok))) (cw_map w).

Lemma expand_run w uninit ok k : expanding (cw_cluster w) = false -> (ok = true -> hash_size (cw_cluster w) < 31) -> (k <= length (expand_stmts ok))%nat ->
  star xstep (mk_xworld w None) (mk_xworld (at_stmt w uninit ok k) (if (k =? length (expand_stmts ok))%nat then None else Some (uninit, ok, k))).
Proof.
  intros He Hs. induction k as [|k IH]; intros Hk.
  - eapply star_step; [by apply (xs_begin _ uninit ok)|]. assert (0 =? length (expand_stmts ok) = false)%nat as -> by (by destruct ok). destruct w. apply star_refl.
  - eapply star_trans; [apply IH; lia|]. destruct (Nat.eqb_spec k (length (expand_stmts ok))) as [E|E]; [lia|].
    destruct (lookup_lt_is_Some_2 (expand_stmts ok) k ltac:(lia)) as [st Hst]. eapply star_step; [by eapply (xs_stmt _ uninit ok k st)|].
    unfold at_stmt. cbn [cw_store cw_cluster cw_map]. rewrite (take_S_r _ _ _ Hst), foldl_snoc. apply star_refl.
Qed.

(** Two volumes are inserted, the table is expanded statement by statement, and
    a bucket is moved. *)
Lemma demo_run : exists x5 x, star xstep (mk_xworld (mk_cworld demo_store demo_cluster ∅) None) x5 /\ star xstep (mk_xworld (mk_cworld demo_store demo_cluster ∅) None) x /\
  xw_pc x5 = Some ([], true, 5%nat) /\ xw_pc x = None /\ expanding (cw_cluster (xw_world x)) = true /\
  cw_map (xw_world x5) !! 12 = Some 3%nat /\ cw_map (xw_world x) !! 12 = Some 3%nat.
Proof.
  assert (exists w2, star xstep (mk_xworld (mk_cworld demo_store demo_cluster ∅) None) (mk_xworld w2 None) /\ expanding (cw_cluster w2) = false /\ hash_size (cw_cluster w2) < 31 /\ cw_map w2 !! 12 = Some 3%nat /\
    exists w3, cstep (at_stmt w2 [] true 8) w3 /\ expanding (cw_cluster w3) = true /\ cw_map w3 !! 12 = Some 3%nat) as (w2 & H2 & He & Hh & Hm & w3 & H3 & He3 & Hm3).
  { eexists. split.
    - eapply star_step; [apply xs_table; eapply (cs_insert _ 1); [reflexivity|done|done|vm_compute; reflexivity]|].
      eapply star_step; [apply xs_table; eapply (cs_insert _ 3); [reflexivity| |done|vm_compute; reflexivity]|]; [|apply star_refl].
      intros vid. cbn. rewrite lookup_insert. case_decide; [done|]. by rewrite lookup_empty.
    - split_and!; [reflexivity|reflexivity|reflexivity|]. eexists. split; [eapply cs_migrate; [reflexivity|vm_compute; reflexivity]|]. split; reflexivity. }
  exists (mk_xworld (at_stmt w2 [] true 5) (Some ([], true, 5%nat))), (mk_xworld w3 None). split_and!; [| |done|done|done|done|done].
  - eapply star_trans; [exact H2|]. exact (expand_run w2 [] true 5 He (fun _ => Hh) ltac:(cbn; lia)).
  - eapply star_trans; [exact H2|]. eapply star_trans; [exact (expand_run w2 [] true 8 He (fun _ => Hh) ltac:(cbn; lia))|]. eapply star_step; [apply xs_table; exact H3|apply star_refl].
Qed.


(** The table with the volume 10, growing from 4 to 8 buckets. *)
Definition growing : store * datasevr_cluster :=
  match do_cluster_insert demo_store demo_cluster 1 with
  | Ret (s, cl, _) => (s, __cluster_expand true cl)
  | Crash _ => (demo_store, demo_cluster)
  end.

Lemma growing_inv : cluster_inv growing.1 growing.2 [(1%nat, 10)].
Proof.
  destruct (init_world_inv demo_store) as (P & Hi & HM).
  assert (P = []) as ->.
  { apply elem_of_nil_inv. intros [v vid] Hin. apply HM in Hin. cbn [cw_map] in Hin. by rewrite lookup_empty in Hin. }
  destruct (cluster_insert_inv _ _ _ 1%nat (demo_volume 10) Hi) as (s' & cl' & Hr & Hi' & _);
    [reflexivity|by apply not_elem_of_nil|by apply not_elem_of_nil|done|].
  unfold growing. cbn [cw_store cw_cluster] in Hr. rewrite Hr. cbn [fst snd].
  assert (expanding cl' = false /\ hash_size cl' = 2) as [He Hh].
  { vm_compute in Hr. by injection Hr as _ <-. }
  apply cluster_expand_inv; [exact Hi'|done|intros; rewrite Hh; lia].
Qed.

Lemma do_cluster_insert_spec_witness :
  do_cluster_insert growing.1 growing.2 3 = Crash OutOfBounds /\
  exists s' cl', do_cluster_insert growing.1 growing.2 2 = Ret (s', cl', LFS_OK) /\
    cluster_inv s' cl' [(2%nat, 11); (1%nat, 10)].
Proof.
  split.
  - apply (do_cluster_insert_spec growing.1 growing.2 [(1%nat, 10)] 3 (demo_volume 12) growing_inv);
      [reflexivity| |]; refine (bool_decide_unpack _ _); by vm_compute.
  - apply (do_cluster_insert_spec growing.1 growing.2 [(1%nat, 10)] 2 (demo_volume 11) growing_inv);
      [reflexivity| |]; refine (bool_decide_unpack _ _); by vm_compute.
Defined.

Lemma expansion_completes_witness :
  exists s' cl', migrate_rounds 4 growing.1 growing.2 = Ret (s', cl') /\ cluster_inv s' cl' [(1%nat, 10)] /\
    expanding cl' = false /\ hash_size cl' = hash_size growing.2 /\ old_volumes cl' = None /\ old_volume_count cl' = 0.
Proof. exact (expansion_completes 4 growing.1 growing.2 [(1%nat, 10)] growing_inv eq_refl eq_refl). Defined.

(** With one work thread there are 16 locks for 4 buckets, and two volumes of
    one bucket have different locks; with a large initial table the number of
    locks is a shift by more than the width of the type. *)
Lemma cluster_lock_init_one_thread : __cluster_lock_init 2 1 = Ret 4 /\
  Z.land 4 (hashmask 2) = Z.land 8 (hashmask 2) /\ cluster_lock_index 4 4 <> cluster_lock_index 4 8.
Proof. by vm_compute. Qed.

Lemma cluster_lock_init_large : __cluster_lock_init 9 4 = Crash OutOfBounds.
Proof. by vm_compute. Qed.

(** A volume that is inserted while [__cluster_expand] is under way, here before
    the assignment of [expanding], is not found when it is done. *)
Lemma window_insert_lost : exists s cl,
  do_cluster_insert demo_store (foldl (exec_stmt [] true) demo_cluster (take 7 (expand_stmts true))) 1 = Ret (s, cl, LFS_OK) /\
  do_cluster_find s (foldl (exec_stmt [] true) cl (drop 7 (expand_stmts true))) 10 = Ret None.
Proof. do 2 eexists. split; by vm_compute. Qed.
