(* ===== verification/Wlc.v ===== *)
(** * The load skip list

    src/src/trackerserver/ts_wlc.c: the data servers ordered by weighted load
    ([wlc]), then block id, as a skip list of up to 16 levels.  Nodes live in a
    heap; [forward] pointers are read at every level the code reads them, and
    an index outside a node's levels, or a freed node, is a crash. *)
From Stdlib Require Import Sorted.
From S2P Require Import Prelude Datasevr.

Abbreviation nloc := nat.

Record wlc_skiplist_node := mk_wnode {
  n_dblk : option bloc;
  n_wlc : Z;
  n_backward : option nloc;
  n_level : list (option nloc)
}.

Record wlc_skiplist := mk_wlc {
  w_nodes : gmap nloc wlc_skiplist_node;
  w_brk : nloc;
  w_header : nloc;
  w_tail : option nloc;
  w_length : Z;
  w_level : nat
}.

Abbreviation nodes := (gmap nloc wlc_skiplist_node).

Definition WLC_SKIPLIST_MAX_LEVEL : nat := 16.

(** ** Memory *)

Definition get_node (c : nodes) (x : nloc) : outcome wlc_skiplist_node := get_or UseAfterFree (c !! x).

Definition get_fwd (c : nodes) (x : nloc) (i : nat) : outcome (option nloc) :=
  d ← get_node c x; get_or OutOfBounds (n_level d !! i).

Definition set_fwd (c : nodes) (x : nloc) (i : nat) (f : option nloc) : outcome nodes :=
  d ← get_node c x;
  lv ← zinsert (n_level d) (Z.of_nat i) f;
  Ret (<[x := mk_wnode (n_dblk d) (n_wlc d) (n_backward d) lv]> c).

Definition set_backward (c : nodes) (x : nloc) (b : option nloc) : outcome nodes :=
  d ← get_node c x; Ret (<[x := mk_wnode (n_dblk d) (n_wlc d) b (n_level d)]> c).

(** ** Creation *)

(** The result of [malloc] is not checked. *)
Definition wlcsl_node_new (malloc_ok : bool) (c : nodes) (brk : nloc) (level : nat) (wlc : Z) (dblk : option bloc) :
    outcome (nodes * nloc) :=
  if malloc_ok then Ret (<[brk := mk_wnode dblk wlc None (replicate level None)]> c, S brk) else Crash NullDeref.

Definition wlcsl_create (malloc_ok : bool) : outcome wlc_skiplist :=
  '(c, brk) ← wlcsl_node_new malloc_ok ∅ 0 WLC_SKIPLIST_MAX_LEVEL 0 None;
  Ret (mk_wlc c brk 0 None 0 1).

(** [(random() & 0xFFFF) < 0.25 * 0xFFFF]; the list is what [random] returns. *)
Fixpoint random_level_loop (level : nat) (randoms : list Z) : outcome nat :=
  match randoms with
  | [] => Crash Diverged
  | r :: rs =>
      if 4 * Z.land r 65535 <? 65535 then random_level_loop (S level) rs
      else Ret (Nat.min level WLC_SKIPLIST_MAX_LEVEL)
  end.

Definition wlcsl_random_level (randoms : list Z) : outcome nat := random_level_loop 1 randoms.

(** ** Searching *)

Section Search.
Context (c : nodes) (pred : nloc -> outcome bool).

(** The [while] loop at level [i]. *)
Fixpoint search_level (fuel : nat) (x : nloc) (i : nat) : outcome nloc :=
  f ← get_fwd c x i;
  match f with
  | None => Ret x
  | Some y =>
      b ← pred y;
      if b : bool then
        match fuel with
        | O => Crash Diverged
        | S fuel' => search_level fuel' y i
        end
      else Ret x
  end.

(** The [for] loop over the levels [n - 1], ..., 0: the last node and the
    [update] array. *)
Fixpoint search_down (n : nat) (x : nloc) : outcome (nloc * list nloc) :=
  match n with
  | O => Ret (x, [])
  | S i =>
      x ← search_level (size c) x i;
      '(y, update) ← search_down i x;
      Ret (y, update ++ [x])
  end.
End Search.

(** [x->wlc < wlc || (x->wlc == wlc && test(x->dblk->block_id))] *)
Definition before_test (blks : gmap bloc datasevr_block) (c : nodes) (wlc : Z) (test : Z -> bool) (x : nloc) : outcome bool :=
  d ← get_node c x;
  if n_wlc d <? wlc then Ret true
  else if n_wlc d =? wlc then
    b ← get_or NullDeref (n_dblk d);
    blk ← get_or UseAfterFree (blks !! b);
    Ret (test (block_id blk))
  else Ret false.

(** ** Insertion *)

(** The loop that links node [x] at the levels [i], [i + 1], ... of [update]. *)
Fixpoint splice (c : nodes) (x : nloc) (i : nat) (update : list nloc) : outcome nodes :=
  match update with
  | [] => Ret c
  | u :: update' =>
      f ← get_fwd c u i;
      c ← set_fwd c x i f;
      c ← set_fwd c u i (Some x);
      splice c x (S i) update'
  end.

Definition wlcsl_insert (blks : gmap bloc datasevr_block) (malloc_ok : bool) (randoms : list Z) (sl : wlc_skiplist)
    (wlc : Z) (dblk : bloc) : outcome (wlc_skiplist * nloc) :=
  blk ← get_or UseAfterFree (blks !! dblk);
  let c := w_nodes sl in
  '(_, update) ← search_down c (before_test blks c wlc (fun b => b <? block_id blk)) (w_level sl) (w_header sl);
  level ← wlcsl_random_level randoms;
  let update := update ++ replicate (level - w_level sl) (w_header sl) in
  let x := w_brk sl in
  '(c, brk) ← wlcsl_node_new malloc_ok c x level wlc (Some dblk);
  c ← splice c x 0 (take level update);
  u0 ← get_or OutOfBounds (update !! 0%nat);
  c ← set_backward c x (if (u0 =? w_header sl)%nat then None else Some u0);
  f ← get_fwd c x 0;
  '(c, tail) ← match f with
               | Some y => c ← set_backward c y (Some x); Ret (c, w_tail sl)
               | None => Ret (c, Some x)
               end;
  Ret (mk_wlc c brk (w_header sl) tail (w_length sl + 1) (Nat.max level (w_level sl)), x).

(** ** Deletion *)

Fixpoint unsplice (c : nodes) (x : nloc) (i : nat) (update : list nloc) : outcome nodes :=
  match update with
  | [] => Ret c
  | u :: update' =>
      f ← get_fwd c u i;
      c ← (if bool_decide (f = Some x) then g ← get_fwd c x i; set_fwd c u i g else Ret c);
      unsplice c x (S i) update'
  end.

(** [while (level > 1 && header->level[level - 1].forward == NULL) level--] *)
Fixpoint shrink_level (c : nodes) (header : nloc) (level : nat) : outcome nat :=
  match level with
  | S ((S _) as top) =>
      f ← get_fwd c header top;
      match f with
      | None => shrink_level c header top
      | Some _ => Ret level
      end
  | _ => Ret level
  end.

Definition wlcsl_node_delete (sl : wlc_skiplist) (x : nloc) (update : list nloc) : outcome wlc_skiplist :=
  c ← unsplice (w_nodes sl) x 0 update;
  f ← get_fwd c x 0;
  d ← get_node c x;
  '(c, tail) ← match f with
               | Some y => c ← set_backward c y (n_backward d); Ret (c, w_tail sl)
               | None => Ret (c, n_backward d)
               end;
  level ← shrink_level c (w_header sl) (w_level sl);
  Ret (mk_wlc c (w_brk sl) (w_header sl) tail (w_length sl - 1) level).

Definition wlcsl_node_free (sl : wlc_skiplist) (x : nloc) : outcome wlc_skiplist :=
  _ ← get_node (w_nodes sl) x;
  Ret (mk_wlc (delete x (w_nodes sl)) (w_brk sl) (w_header sl) (w_tail sl) (w_length sl) (w_level sl)).

(** [x->wlc == wlc && x->dblk->block_id == block_id] for the node found. *)
Definition is_target (blks : gmap bloc datasevr_block) (c : nodes) (wlc bid : Z) (f : option nloc) : outcome bool :=
  match f with
  | None => Ret false
  | Some x =>
      d ← get_node c x;
      if n_wlc d =? wlc then
        b ← get_or NullDeref (n_dblk d);
        blk ← get_or UseAfterFree (blks !! b);
        Ret (block_id blk =? bid)
      else Ret false
  end.

(** [wlcsl_delete] with [node == NULL], as its callers use it. *)
Definition wlcsl_delete (blks : gmap bloc datasevr_block) (sl : wlc_skiplist) (wlc : Z) (dblk : bloc) :
    outcome (wlc_skiplist * Z) :=
  blk ← get_or UseAfterFree (blks !! dblk);
  let c := w_nodes sl in
  '(x, update) ← search_down c (before_test blks c wlc (fun b => negb (b =? block_id blk))) (w_level sl) (w_header sl);
  f ← get_fwd c x 0;
  t ← is_target blks c wlc (block_id blk) f;
  match f with
  | Some x => if t : bool
              then sl ← wlcsl_node_delete sl x update; sl ← wlcsl_node_free sl x; Ret (sl, 1)
              else Ret (sl, 0)
  | None => Ret (sl, 0)
  end.

Definition wlcsl_find (blks : gmap bloc datasevr_block) (sl : wlc_skiplist) (wlc : Z) (dblk : bloc) : outcome (option nloc) :=
  blk ← get_or UseAfterFree (blks !! dblk);
  let c := w_nodes sl in
  '(x, _) ← search_down c (before_test blks c wlc (fun b => negb (b =? block_id blk))) (w_level sl) (w_header sl);
  f ← get_fwd c x 0;
  t ← is_target blks c wlc (block_id blk) f;
  Ret (if t : bool then f else None).

(** ** The operations of the tracker *)

Record wlc_ctx := mk_wlc_ctx { wc_dblk : bloc; old_wlc : Z; new_wlc : Z }.

Definition cluster_wlc_block_add (blks : gmap bloc datasevr_block) (malloc_ok : bool) (randoms : list Z)
    (sl : wlc_skiplist) (wctx : wlc_ctx) : outcome (wlc_skiplist * Z) :=
  if old_wlc wctx =? new_wlc wctx then Ret (sl, LFS_OK)
  else
    node ← wlcsl_find blks sl (old_wlc wctx) (wc_dblk wctx);
    sl ← match node with
         | Some n =>
             d ← get_node (w_nodes sl) n;
             b ← get_or NullDeref (n_dblk d);
             '(sl, _) ← wlcsl_delete blks sl (n_wlc d) b; Ret sl
         | None => Ret sl
         end;
    '(sl, _) ← wlcsl_insert blks malloc_ok randoms sl (new_wlc wctx) (wc_dblk wctx);
    Ret (sl, LFS_OK).

Definition set_off_line (d : datasevr_block) : datasevr_block :=
  mk_block (parent_volume_id d) (block_id d) off_line (map_info d) (ip_addr d) (type d) (port d) (curr_conns d)
    (weight d) (heart_beat_interval d) (total_mb d) (free_mb d) (reg_time d) (started_time d)
    (last_sync_sequence d) (last_heartbeat_time d) (last_statreporttimestamp d).

(** The walk of [cluster_wlc_write_block_get] at time [now]: a server without a
    recent heartbeat is marked and removed, and the walk goes on from its
    node. *)
Fixpoint write_block_walk (fuel : nat) (now interval : Z) (blks : gmap bloc datasevr_block) (sl : wlc_skiplist) (x : nloc) :
    outcome (gmap bloc datasevr_block * wlc_skiplist * option bloc) :=
  f ← get_fwd (w_nodes sl) x 0;
  match f with
  | None => Ret (blks, sl, None)
  | Some x =>
      d ← get_node (w_nodes sl) x;
      b ← get_or NullDeref (n_dblk d);
      blk ← get_or UseAfterFree (blks !! b);
      if interval <? now - last_heartbeat_time blk then
        let blks := <[b := set_off_line blk]> blks in
        '(sl, _) ← wlcsl_delete blks sl (n_wlc d) b;
        match fuel with
        | O => Crash Diverged
        | S f => write_block_walk f now interval blks sl x
        end
      else Ret (blks, sl, Some b)
  end.

Definition cluster_wlc_write_block_get (now interval : Z) (blks : gmap bloc datasevr_block) (sl : wlc_skiplist) :
    outcome (gmap bloc datasevr_block * wlc_skiplist * option bloc) :=
  write_block_walk (size (w_nodes sl)) now interval blks sl (w_header sl).

(** [wlcsl_free]: the nodes of level 0. *)
Fixpoint wlcsl_free_loop (fuel : nat) (c : nodes) (node : option nloc) : outcome nodes :=
  match node with
  | None => Ret c
  | Some x =>
      match fuel with
      | O => Crash Diverged
      | S f => next ← get_fwd c x 0; wlcsl_free_loop f (delete x c) next
      end
  end.

Definition wlcsl_free (sl : wlc_skiplist) : outcome nodes :=
  node ← get_fwd (w_nodes sl) (w_header sl) 0;
  wlcsl_free_loop (size (w_nodes sl)) (delete (w_header sl) (w_nodes sl)) node.

(** ** The invariant *)

Definition fwd (c : nodes) (i : nat) (x : nloc) : option (option nloc) := c !! x ≫= fun d => n_level d !! i.
Definition ht (c : nodes) (x : nloc) : nat := match c !! x with Some d => length (n_level d) | None => 0 end.
Definition bwd (c : nodes) (x : nloc) : option nloc := c !! x ≫= n_backward.

(** Following [forward] of level [i] from [a] visits exactly [xs]. *)
Fixpoint lpath (c : nodes) (i : nat) (a : nloc) (xs : list nloc) : Prop :=
  match xs with
  | [] => fwd c i a = Some None
  | x :: xs' => fwd c i a = Some (Some x) /\ lpath c i x xs'
  end.

(** The [backward] pointers of a list whose first node has [b] before it. *)
Fixpoint bpath (c : nodes) (b : option nloc) (xs : list nloc) : Prop :=
  match xs with
  | [] => True
  | x :: xs' => bwd c x = b /\ bpath c (Some x) xs'
  end.

(** The load and the block id of a node. *)
Definition key_of (blks : gmap bloc datasevr_block) (c : nodes) (x : nloc) : option (Z * Z) :=
  d ← c !! x; b ← n_dblk d; blk ← blks !! b; Some (n_wlc d, block_id blk).

Definition key_le (k k' : option (Z * Z)) : Prop :=
  match k, k' with
  | Some (w, b), Some (w', b') => w < w' \/ (w = w' /\ b <= b')
  | _, _ => False
  end.

Definition tall (c : nodes) (i : nat) (xs : list nloc) : list nloc := base.filter (fun x => (i < ht c x)%nat) xs.

(** [xs]: the nodes in order. *)
Record skip_inv (blks : gmap bloc datasevr_block) (sl : wlc_skiplist) (xs : list nloc) : Prop := {
  sk_nodup : NoDup (w_header sl :: xs);
  sk_paths : forall i, (i < WLC_SKIPLIST_MAX_LEVEL)%nat ->
    lpath (w_nodes sl) i (w_header sl) (tall (w_nodes sl) i xs);
  sk_header : ht (w_nodes sl) (w_header sl) = WLC_SKIPLIST_MAX_LEVEL;
  sk_heights : Forall (fun x => (1 <= ht (w_nodes sl) x <= w_level sl)%nat) xs;
  sk_level : (1 <= w_level sl <= WLC_SKIPLIST_MAX_LEVEL)%nat;
  sk_keys : Forall (fun x => is_Some (key_of blks (w_nodes sl) x)) xs;
  sk_sorted : StronglySorted (fun x y => key_le (key_of blks (w_nodes sl) x) (key_of blks (w_nodes sl) y)) xs;
  sk_back : bpath (w_nodes sl) None xs;
  sk_tail : w_tail sl = last xs;
  sk_length : w_length sl = Z.of_nat (length xs);
  sk_dom : dom (w_nodes sl) = list_to_set (w_header sl :: xs);
  sk_brk : forall x, x ∈ dom (w_nodes sl) -> (x < w_brk sl)%nat
}.

(** ** Paths *)

Lemma last_def_cons (a x : nloc) pre : default a (last (x :: pre)) = default x (last pre).
Proof. rewrite last_cons. by destruct (last pre). Qed.

Lemma last_def_in (x : nloc) pre : default x (last pre) ∈ x :: pre.
Proof.
  destruct (last pre) as [z|] eqn:E; cbn; [|constructor]. apply last_Some in E as [l' ->].
  apply list_elem_of_further, elem_of_app. right. constructor.
Qed.

Lemma lpath_app c i a xs ys : lpath c i a (xs ++ ys) -> lpath c i (default a (last xs)) ys.
Proof.
  revert a. induction xs as [|x xs IH]; intros a; [done|]. cbn [app lpath]. intros [_ Hp].
  rewrite last_def_cons. by apply IH.
Qed.

Lemma lpath_frame c c' i a xs : (forall x, x ∈ a :: xs -> fwd c' i x = fwd c i x) -> lpath c i a xs -> lpath c' i a xs.
Proof.
  revert a. induction xs as [|x xs IH]; intros a Hf; cbn.
  - intros Hn. rewrite Hf; [done|constructor].
  - intros [Hn Hp]. split; [rewrite Hf; [done|constructor]|]. apply IH; [|done].
    intros y Hy. apply Hf. by constructor.
Qed.

(** Linking [n] behind the last node of [pre]. *)
Lemma lpath_insert c c' i a pre post n : NoDup (a :: pre ++ post) -> lpath c i a (pre ++ post) ->
  let p := default a (last pre) in
  fwd c' i p = Some (Some n) -> fwd c' i n = fwd c i p ->
  (forall x, x ∈ a :: pre ++ post -> x <> p -> fwd c' i x = fwd c i x) ->
  lpath c' i a (pre ++ n :: post).
Proof.
  revert a. induction pre as [|x pre IH]; intros a Hnd Hp p Hpn Hn Hf; subst p.
  - cbn in *. split; [done|]. apply NoDup_cons in Hnd as [Ha _].
    assert (forall y, y ∈ post -> fwd c' i y = fwd c i y) as Hpost.
    { intros y Hy. apply Hf; [by constructor|]. by intros ->. }
    destruct post as [|y post]; cbn in *; [by rewrite Hn|]. destruct Hp as [Hp1 Hp2]. split; [by rewrite Hn|].
    by eapply lpath_frame.
  - cbn [app lpath] in *. destruct Hp as [Hp1 Hp2]. rewrite last_def_cons in Hpn, Hn, Hf.
    apply NoDup_cons in Hnd as [Ha Hnd].
    pose proof (last_def_in x pre) as Hin.
    split; [rewrite Hf; [done|constructor|]|].
    + intros ->. rewrite elem_of_cons, elem_of_app in *. tauto.
    + apply IH; [done|done|done|done|]. intros y Hy. apply Hf. by constructor.
Qed.

(** Unlinking [n] from behind the last node of [pre]. *)
Lemma lpath_delete c c' i a pre post n : NoDup (a :: pre ++ n :: post) -> lpath c i a (pre ++ n :: post) ->
  let p := default a (last pre) in
  fwd c' i p = fwd c i n -> (forall x, x ∈ a :: pre ++ post -> x <> p -> fwd c' i x = fwd c i x) ->
  lpath c' i a (pre ++ post).
Proof.
  revert a. induction pre as [|x pre IH]; intros a Hnd Hp p Hpn Hf; subst p.
  - cbn in *. destruct Hp as [_ Hp]. apply NoDup_cons in Hnd as [Ha Hnd]. rewrite not_elem_of_cons in Ha.
    destruct post as [|y post]; cbn in *; [by rewrite Hpn|]. destruct Hp as [Hp1 Hp2]. split; [by rewrite Hpn|].
    eapply lpath_frame; [|done]. intros z Hz. apply Hf; [by constructor|]. intros ->. tauto.
  - cbn [app lpath] in *. destruct Hp as [Hp1 Hp2]. rewrite last_def_cons in Hpn, Hf.
    apply NoDup_cons in Hnd as [Ha Hnd].
    pose proof (last_def_in x pre) as Hin.
    split; [rewrite Hf; [done|constructor|]|].
    + intros ->. rewrite elem_of_cons, elem_of_app in *. tauto.
    + apply IH; [done|done|done|]. intros y Hy. apply Hf. by constructor.
Qed.

(** ** Searching *)

Lemma get_fwd_Ret c x i f : fwd c i x = Some f -> get_fwd c x i = Ret f.
Proof. unfold fwd, get_fwd, get_node. destruct (c !! x) as [d|]; cbn; [|done]. by intros ->. Qed.

Lemma search_level_spec c pred fuel x i pre post : lpath c i x (pre ++ post) ->
  (forall y, y ∈ pre -> pred y = Ret true) -> (forall y, list.head post = Some y -> pred y = Ret false) ->
  (length pre <= fuel)%nat -> search_level c pred fuel x i = Ret (default x (last pre)).
Proof.
  revert fuel x. induction pre as [|y pre IH]; intros fuel x Hp Hpre Hpost Hf; cbn [app lpath] in Hp.
  - assert (exists f, get_fwd c x i = Ret f /\ f = list.head post) as (f & Hg & ->).
    { destruct post as [|y post]; cbn in Hp; eexists; (split; [apply get_fwd_Ret; apply Hp|done]). }
    destruct fuel; cbn; rewrite Hg; cbn; destruct post as [|y post]; cbn; [done|by rewrite Hpost|done|by rewrite Hpost].
  - destruct Hp as [Hp1 Hp2]. destruct fuel as [|fuel]; [cbn in Hf; lia|]. cbn [search_level].
    rewrite (get_fwd_Ret _ _ _ _ Hp1). cbn. rewrite Hpre by constructor. cbn. rewrite last_def_cons.
    apply IH; [done| |done|cbn in Hf; lia]. intros z Hz. apply Hpre. by constructor.
Qed.

Lemma elem_of_tall c i xs x : x ∈ tall c i xs <-> (i < ht c x)%nat /\ x ∈ xs.
Proof. unfold tall; by rewrite list_elem_of_filter. Qed.

Lemma tall_app c i xs ys : tall c i (xs ++ ys) = tall c i xs ++ tall c i ys.
Proof. apply filter_app. Qed.

Lemma length_tall c i xs : (length (tall c i xs) <= length xs)%nat.
Proof. apply length_filter. Qed.

(** The predecessor of the position behind [pre] at level [i]. *)
Definition pred_at (c : nodes) (hdr : nloc) (pre : list nloc) (i : nat) : nloc := default hdr (last (tall c i pre)).

Lemma search_from c pred fuel hdr pre post x i : lpath c i hdr (tall c i (pre ++ post)) ->
  (forall y, y ∈ pre -> pred y = Ret true) -> (forall y, list.head (tall c i post) = Some y -> pred y = Ret false) ->
  (length pre <= fuel)%nat -> x = hdr \/ (x ∈ pre /\ (i < ht c x)%nat) ->
  search_level c pred fuel x i = Ret (pred_at c hdr pre i).
Proof.
  intros Hp Hpre Hpost Hf Hx. rewrite tall_app in Hp. unfold pred_at. pose proof (length_tall c i pre) as Hl.
  assert (forall y, y ∈ tall c i pre -> pred y = Ret true) as Ht by (intros y [_ Hy]%elem_of_tall; by apply Hpre).
  destruct Hx as [->|[Hx Hi]].
  - apply (search_level_spec _ _ _ _ _ _ (tall c i post)); [done|done|done|lia].
  - assert (x ∈ tall c i pre) as (q1 & q2 & Hq)%list_elem_of_split by (by apply elem_of_tall).
    rewrite Hq in Hp, Ht, Hl |- *. rewrite <- app_assoc in Hp. apply lpath_app in Hp. cbn [app lpath] in Hp. destruct Hp as [_ Hp].
    assert (default hdr (last (q1 ++ x :: q2)) = default x (last q2)) as ->.
    { rewrite last_app, last_cons. by destruct (last q2). }
    apply (search_level_spec _ _ _ _ _ _ (tall c i post)); [done| |done|].
    + intros y Hy. apply Ht, elem_of_app. right. by constructor.
    + rewrite length_app in Hl. cbn in Hl. lia.
Qed.

Lemma search_down_spec c pred hdr pre post n x : (forall i, (i < n)%nat -> lpath c i hdr (tall c i (pre ++ post))) ->
  (forall y, y ∈ pre -> pred y = Ret true) ->
  (forall i y, (i < n)%nat -> list.head (tall c i post) = Some y -> pred y = Ret false) ->
  (length pre <= size c)%nat -> x = hdr \/ (x ∈ pre /\ (n <= ht c x)%nat) ->
  search_down c pred n x = Ret (if decide (n = 0%nat) then x else pred_at c hdr pre 0, pred_at c hdr pre <$> seq 0 n).
Proof.
  revert x. induction n as [|n IH]; intros x Hp Hpre Hpost Hf Hx; [done|]. cbn [search_down].
  rewrite (search_from c pred _ hdr pre post x n); [|by apply Hp; lia|done|by intros; eapply Hpost; [|done]; lia|done|].
  2:{ destruct Hx as [?|[? ?]]; [by left|right]. split; [done|lia]. }
  cbn [mbind outcome_bind]. rewrite IH; try done.
  - cbn [mbind outcome_bind]. rewrite seq_S, fmap_app. cbn. repeat case_decide; subst; try done; lia.
  - intros i Hi. apply Hp. lia.
  - intros i y Hi. apply Hpost. lia.
  - unfold pred_at. pose proof (last_def_in hdr (tall c n pre)) as Hin. apply elem_of_cons in Hin as [Hin|Hin]; [by left|].
    right. apply elem_of_tall in Hin as [? ?]. split; [done|lia].
Qed.

(** ** Updates of nodes *)

(** What the updates below never change. *)
Definition kinfo (d : wlc_skiplist_node) : option bloc * Z * nat := (n_dblk d, n_wlc d, length (n_level d)).

Definition same_info (c c' : nodes) : Prop := forall y, kinfo <$> c' !! y = kinfo <$> c !! y.

Lemma same_info_ht c c' y : same_info c c' -> ht c' y = ht c y.
Proof. intros H. specialize (H y). unfold ht. destruct (c' !! y), (c !! y); cbn in H; try done. by injection H. Qed.

Lemma same_info_key blks c c' y : same_info c c' -> key_of blks c' y = key_of blks c y.
Proof.
  intros H. specialize (H y). unfold key_of. destruct (c' !! y) as [d'|], (c !! y) as [d|]; cbn in H; try done.
  injection H as H1 H2 _. cbn. by rewrite H1, H2.
Qed.

Lemma same_info_dom c c' : same_info c c' -> dom c' = dom c.
Proof.
  intros H. apply set_eq. intros y. rewrite !elem_of_dom. specialize (H y).
  destruct (c' !! y), (c !! y); cbn in H; try done; split; intros [? ?]; eauto.
Qed.

Lemma same_info_trans c c1 c2 : same_info c c1 -> same_info c1 c2 -> same_info c c2.
Proof. intros H1 H2 y. by rewrite H2, H1. Qed.

Lemma tall_ext c c' i xs : (forall x, x ∈ xs -> ht c' x = ht c x) -> tall c' i xs = tall c i xs.
Proof.
  unfold tall. induction xs as [|x xs IH]; intros H; [done|]. pose proof (H x ltac:(constructor)) as Hx.
  assert (base.filter (fun y => (i < ht c' y)%nat) xs = base.filter (fun y => (i < ht c y)%nat) xs) as Hr
    by (apply IH; intros y Hy; apply H; by constructor).
  destruct (decide (i < ht c x)%nat).
  - rewrite !filter_cons_True by (rewrite ?Hx; done). by rewrite Hr.
  - rewrite !filter_cons_False by (rewrite ?Hx; done). by rewrite Hr.
Qed.

Lemma same_info_tall c c' i xs : same_info c c' -> tall c' i xs = tall c i xs.
Proof. intros H. apply tall_ext. intros x _. by apply same_info_ht. Qed.

Lemma fwd_is_Some c x j : (j < ht c x)%nat -> is_Some (fwd c j x).
Proof. unfold ht, fwd. destruct (c !! x) as [d|]; cbn; [|lia]. apply lookup_lt_is_Some_2. Qed.

Lemma set_fwd_spec c x j f : (j < ht c x)%nat -> exists c', set_fwd c x j f = Ret c' /\ same_info c c' /\
  (forall y, bwd c' y = bwd c y) /\
  forall k y, fwd c' k y = if decide (y = x /\ k = j) then Some f else fwd c k y.
Proof.
  unfold ht. intros Hj. unfold set_fwd, get_node. destruct (c !! x) as [d|] eqn:Hx; [|lia]. cbn.
  rewrite zinsert_Ret by lia. rewrite Nat2Z.id. cbn. eexists. split; [done|]. split_and!.
  - intros y. destruct (decide (y = x)) as [->|Hne]; [|by rewrite lookup_insert_ne].
    rewrite lookup_insert_eq, Hx. cbn. unfold kinfo. cbn. by rewrite length_insert.
  - intros y. unfold bwd. destruct (decide (y = x)) as [->|Hne]; [|by rewrite lookup_insert_ne].
    by rewrite lookup_insert_eq, Hx.
  - intros k y. unfold fwd. destruct (decide (y = x)) as [->|Hne].
    + rewrite lookup_insert_eq, Hx. cbn. rewrite list_lookup_insert. case_decide as Hd1; case_decide as Hd2; try done; naive_solver.
    + rewrite lookup_insert_ne by done. rewrite decide_False by tauto. done.
Qed.

Lemma set_backward_spec c x b : x ∈ dom c -> exists c', set_backward c x b = Ret c' /\ same_info c c' /\
  (forall y, bwd c' y = if decide (y = x) then b else bwd c y) /\ forall k y, fwd c' k y = fwd c k y.
Proof.
  intros [d Hx]%elem_of_dom. unfold set_backward, get_node. rewrite Hx. cbn. eexists. split; [done|]. split_and!.
  - intros y. destruct (decide (y = x)) as [->|Hne]; [|by rewrite lookup_insert_ne]. by rewrite lookup_insert_eq, Hx.
  - intros y. unfold bwd. case_decide as E; [subst y; by rewrite lookup_insert_eq|by rewrite lookup_insert_ne].
  - intros k y. unfold fwd. destruct (decide (y = x)) as [->|Hne]; [by rewrite lookup_insert_eq, Hx|by rewrite lookup_insert_ne].
Qed.

(** The [update] entry of level [k] for a loop that starts at level [i]. *)
Definition upd_at (U : list nloc) (i k : nat) : option nloc := if decide (i <= k)%nat then U !! (k - i)%nat else None.

Lemma upd_at_cons u U i k : upd_at (u :: U) i k = if decide (k = i) then Some u else upd_at U (S i) k.
Proof.
  unfold upd_at. repeat case_decide; subst; try lia; [by rewrite Nat.sub_diag| |done].
  destruct (k - i)%nat as [|m] eqn:E; [lia|]. cbn. f_equal. lia.
Qed.

Lemma splice_spec c x i U : (forall k u, upd_at U i k = Some u -> u <> x /\ (k < ht c u)%nat /\ (k < ht c x)%nat) ->
  exists c', splice c x i U = Ret c' /\ same_info c c' /\ (forall y, bwd c' y = bwd c y) /\
    forall k y, fwd c' k y = match upd_at U i k with
                             | Some u => if decide (y = x) then fwd c k u
                                         else if decide (y = u) then Some (Some x) else fwd c k y
                             | None => fwd c k y
                             end.
Proof.
  revert c i. induction U as [|u U IH]; intros c i HU.
  - exists c. split_and!; try done. intros k y. unfold upd_at. by case_decide.
  - cbn [splice]. destruct (HU i u) as (Hux & Hu & Hx); [by rewrite upd_at_cons, decide_True|].
    destruct (fwd_is_Some _ _ _ Hu) as [f Hf]. rewrite (get_fwd_Ret _ _ _ _ Hf). cbn [mbind outcome_bind].
    destruct (set_fwd_spec c x i f Hx) as (c1 & -> & Hi1 & Hb1 & Hf1). cbn [mbind outcome_bind].
    destruct (set_fwd_spec c1 u i (Some x)) as (c2 & -> & Hi2 & Hb2 & Hf2); [by rewrite (same_info_ht _ _ _ Hi1)|].
    cbn [mbind outcome_bind]. pose proof (same_info_trans _ _ _ Hi1 Hi2) as Hi12.
    destruct (IH c2 (S i)) as (c3 & -> & Hi3 & Hb3 & Hf3).
    { intros k w Hk. rewrite !(same_info_ht _ _ _ Hi12). apply HU. rewrite upd_at_cons. case_decide; [|done].
      unfold upd_at in Hk. case_decide; [lia|done]. }
    exists c3. split_and!; [done|by eapply same_info_trans|intros; by rewrite Hb3, Hb2, Hb1|].
    assert (forall k y, k <> i -> fwd c2 k y = fwd c k y) as Hoth.
    { intros k y Hk. rewrite Hf2, Hf1, !decide_False by tauto. done. }
    intros k y. rewrite Hf3, upd_at_cons. destruct (decide (k = i)) as [->|E].
    + assert (upd_at U (S i) i = None) as -> by (unfold upd_at; by rewrite decide_False by lia).
      rewrite Hf2, Hf1, Hf. repeat case_decide; naive_solver.
    + destruct (upd_at U (S i) k); rewrite !Hoth by done; done.
Qed.

Lemma unsplice_spec c x i U : (forall k u, upd_at U i k = Some u -> u <> x /\ (k < ht c u)%nat) ->
  (forall k u, upd_at U i k = Some u -> fwd c k u = Some (Some x) -> (k < ht c x)%nat) ->
  exists c', unsplice c x i U = Ret c' /\ same_info c c' /\ (forall y, bwd c' y = bwd c y) /\
    forall k y, fwd c' k y = match upd_at U i k with
                             | Some u => if decide (y = u /\ fwd c k u = Some (Some x)) then fwd c k x else fwd c k y
                             | None => fwd c k y
                             end.
Proof.
  revert c i. induction U as [|u U IH]; intros c i HU HX.
  - exists c. split_and!; try done. intros k y. unfold upd_at. by case_decide.
  - cbn [unsplice]. assert (upd_at (u :: U) i i = Some u) as Hat by (by rewrite upd_at_cons, decide_True).
    destruct (HU i u Hat) as (Hux & Hu).
    destruct (fwd_is_Some _ _ _ Hu) as [f Hf]. rewrite (get_fwd_Ret _ _ _ _ Hf). cbn [mbind outcome_bind].
    set (step := if bool_decide (f = Some x) then _ else _).
    assert (exists c1, step = Ret c1 /\ same_info c c1 /\ (forall y, bwd c1 y = bwd c y) /\
      forall k y, fwd c1 k y = if decide (k = i /\ y = u /\ f = Some x) then fwd c i x else fwd c k y)
      as (c1 & -> & Hi1 & Hb1 & Hf1).
    { unfold step. case_bool_decide as E.
      - subst f. destruct (fwd_is_Some c x i (HX i u Hat Hf)) as [g Hg]. rewrite (get_fwd_Ret _ _ _ _ Hg). cbn [mbind outcome_bind].
        destruct (set_fwd_spec c u i g Hu) as (c1 & -> & ? & ? & Hf1). exists c1. split_and!; try done.
        intros k y. rewrite Hf1, Hg. repeat case_decide; try done; tauto.
      - exists c. split_and!; try done. intros k y. rewrite decide_False by tauto. done. }
    cbn [mbind outcome_bind].
    assert (forall k y, k <> i -> fwd c1 k y = fwd c k y) as Hoth by (intros k y Hk; rewrite Hf1, decide_False by tauto; done).
    assert (forall k, upd_at U (S i) k <> None -> k <> i) as Hki by (intros k Hk ->; apply Hk; unfold upd_at; by rewrite decide_False by lia).
    destruct (IH c1 (S i)) as (c2 & -> & Hi2 & Hb2 & Hf2).
    { intros k w Hk. rewrite !(same_info_ht _ _ _ Hi1). apply HU. rewrite upd_at_cons, decide_False; [done|].
      apply Hki. by rewrite Hk. }
    { intros k w Hk. assert (k <> i) as Hne by (apply Hki; by rewrite Hk). rewrite Hoth by done.
      rewrite !(same_info_ht _ _ _ Hi1). apply HX. by rewrite upd_at_cons, decide_False. }
    exists c2. split_and!; [done|by eapply same_info_trans|intros; by rewrite Hb2, Hb1|].
    intros k y. rewrite Hf2, upd_at_cons. destruct (decide (k = i)) as [->|E].
    + assert (upd_at U (S i) i = None) as -> by (unfold upd_at; by rewrite decide_False by lia).
      rewrite Hf1, Hf. repeat case_decide; try done; naive_solver.
    + destruct (upd_at U (S i) k); rewrite !Hoth by done; done.
Qed.

(** ** The backward pointers *)

Lemma bpath_frame c c' b xs : (forall x, x ∈ xs -> bwd c' x = bwd c x) -> bpath c b xs -> bpath c' b xs.
Proof.
  revert b. induction xs as [|x xs IH]; intros b Hf; cbn; [done|]. intros [H1 H2]. split.
  - rewrite Hf; [done|constructor].
  - apply IH; [|done]. intros y Hy. apply Hf. by constructor.
Qed.

Lemma bpath_app c b xs ys : bpath c b (xs ++ ys) <-> bpath c b xs /\ bpath c (match last xs with Some x => Some x | None => b end) ys.
Proof.
  revert b. induction xs as [|x xs IH]; intros b; [cbn; tauto|]. cbn [app bpath]. rewrite IH, last_cons.
  destruct (last xs); tauto.
Qed.

Lemma bpath_insert c c' pre post n : bpath c None (pre ++ post) -> bwd c' n = last pre ->
  (forall y, list.head post = Some y -> bwd c' y = Some n) ->
  (forall x, x ∈ pre ++ post -> list.head post <> Some x -> bwd c' x = bwd c x) -> NoDup (pre ++ post) ->
  bpath c' None (pre ++ n :: post).
Proof.
  intros [Hp1 Hp2]%bpath_app Hn Hh Hf [_ [Hdis Hnd]]%NoDup_app. apply bpath_app. split.
  - eapply bpath_frame; [|done]. intros x Hx. apply Hf; [apply elem_of_app; by left|].
    intros He. apply (Hdis x Hx). by apply head_Some_elem_of in He.
  - cbn. split; [rewrite Hn; by destruct (last pre)|]. destruct post as [|y post]; [done|]. cbn in *.
    split; [by apply Hh|]. destruct Hp2 as [_ Hp2]. eapply bpath_frame; [|done]. intros x Hx.
    apply Hf; [apply elem_of_app; right; by constructor|]. intros [= ->]. by apply NoDup_cons in Hnd as [? _].
Qed.

Lemma bpath_delete c c' pre post n : bpath c None (pre ++ n :: post) ->
  (forall y, list.head post = Some y -> bwd c' y = bwd c n) ->
  (forall x, x ∈ pre ++ post -> list.head post <> Some x -> bwd c' x = bwd c x) -> NoDup (pre ++ post) ->
  bpath c' None (pre ++ post).
Proof.
  intros [Hp1 [Hn Hp2]]%bpath_app Hh Hf [_ [Hdis Hnd]]%NoDup_app. apply bpath_app. split.
  - eapply bpath_frame; [|done]. intros x Hx. apply Hf; [apply elem_of_app; by left|].
    intros He. apply (Hdis x Hx). by apply head_Some_elem_of in He.
  - destruct post as [|y post]; [done|]. cbn in *.
    split; [rewrite (Hh y eq_refl); exact Hn|]. destruct Hp2 as [_ Hp2]. eapply bpath_frame; [|done]. intros x Hx.
    apply Hf; [apply elem_of_app; right; by constructor|]. intros [= ->]. by apply NoDup_cons in Hnd as [? _].
Qed.

(** ** Sorted lists *)

Section Sorted.
Context {A : Type} (R : A -> A -> Prop).

Lemma sorted_mid pre t post : StronglySorted R (pre ++ t :: post) ->
  (forall x, x ∈ pre -> R x t) /\ (forall y, y ∈ post -> R t y) /\ StronglySorted R (pre ++ post).
Proof.
  induction pre as [|p pre IH]; cbn; intros [Hs Hf]%StronglySorted_inv; rewrite Forall_forall in Hf.
  - split_and!; [by intros x ?%not_elem_of_nil|done|done].
  - destruct (IH Hs) as (H1 & H2 & H3). split_and!; [|done|].
    + intros x [->|Hx]%elem_of_cons; [|by apply H1]. apply Hf, elem_of_app. right. constructor.
    + constructor; [done|]. apply Forall_forall. intros y Hy. apply Hf. rewrite elem_of_app, elem_of_cons in *. tauto.
Qed.

Lemma sorted_key_ext (R' : A -> A -> Prop) xs : (forall x y, x ∈ xs -> y ∈ xs -> R x y -> R' x y) ->
  StronglySorted R xs -> StronglySorted R' xs.
Proof.
  intros He. induction 1 as [|x xs Hs IH Hf]; constructor.
  - apply IH. intros y z Hy Hz. apply He; by constructor.
  - rewrite Forall_forall in *. intros y Hy. apply He; [constructor|by constructor|by apply Hf].
Qed.
End Sorted.

(** ** Keys *)

Definition key_test (wlc : Z) (test : Z -> bool) (k : option (Z * Z)) : bool :=
  match k with
  | Some (w, b) => (w <? wlc) || ((w =? wlc) && test b)
  | None => false
  end.

Lemma before_test_key blks c wlc test x : is_Some (key_of blks c x) ->
  before_test blks c wlc test x = Ret (key_test wlc test (key_of blks c x)).
Proof.
  unfold key_of, before_test, get_node. intros [ [w b] Hk]. destruct (c !! x) as [d|]; [|done]. cbn in *.
  destruct (n_dblk d) as [bl|]; [|done]. cbn in *. destruct (blks !! bl) as [blk|]; [|done]. cbn in *.
  injection Hk as -> ->. zcase (w <? wlc); [done|]. zcase (w =? wlc); [done|done].
Qed.

(** A sorted list splits where a new key goes. *)
Lemma key_split blks c wlc bid xs :
  StronglySorted (fun x y => key_le (key_of blks c x) (key_of blks c y)) xs ->
  Forall (fun x => is_Some (key_of blks c x)) xs ->
  exists pre post, xs = pre ++ post /\
    (forall x, x ∈ pre -> key_test wlc (fun b => b <? bid) (key_of blks c x) = true) /\
    (forall x, x ∈ post -> key_test wlc (fun b => b <? bid) (key_of blks c x) = false).
Proof.
  induction 1 as [|x xs Hs IH Hf]; intros Hk.
  - exists [], []. split_and!; [done|by intros ? ?%not_elem_of_nil..].
  - apply Forall_cons in Hk as [ [ [w b] Hx ] Hk]. destruct (IH Hk) as (pre & post & -> & H1 & H2).
    destruct (key_test wlc (fun b => b <? bid) (key_of blks c x)) eqn:E.
    + exists (x :: pre), post. split_and!; [done| |done]. intros y [->|Hy]%elem_of_cons; [done|by apply H1].
    + exists [], (x :: pre ++ post). split_and!; [done|by intros ? ?%not_elem_of_nil|].
      intros y [->|Hy]%elem_of_cons; [done|]. rewrite Forall_forall in Hf, Hk. specialize (Hf y Hy).
      destruct (Hk y Hy) as [ [w' b'] Hky]. rewrite Hx, Hky in *. cbn in *.
      apply orb_false_iff in E as [E1 E2]. apply Z.ltb_ge in E1. apply orb_false_iff.
      split; [apply Z.ltb_ge; lia|]. apply andb_false_iff in E2. apply andb_false_iff. rewrite !Z.eqb_neq, !Z.ltb_ge in *. lia.
Qed.

Lemma key_sorted_insert blks c c' wlc bid pre post n :
  StronglySorted (fun x y => key_le (key_of blks c x) (key_of blks c y)) (pre ++ post) ->
  Forall (fun x => is_Some (key_of blks c x)) (pre ++ post) ->
  (forall x, x ∈ pre -> key_test wlc (fun b => b <? bid) (key_of blks c x) = true) ->
  (forall x, x ∈ post -> key_test wlc (fun b => b <? bid) (key_of blks c x) = false) ->
  (forall x, x ∈ pre ++ post -> key_of blks c' x = key_of blks c x) -> key_of blks c' n = Some (wlc, bid) ->
  StronglySorted (fun x y => key_le (key_of blks c' x) (key_of blks c' y)) (pre ++ n :: post).
Proof.
  induction pre as [|x pre IH]; intros Hs Hk H1 H2 He Hn.
  - cbn in *. constructor.
    + eapply sorted_key_ext; [|exact Hs]. intros x y Hx Hy. cbn. by rewrite !He.
    + apply Forall_forall. intros y Hy. rewrite Hn, He by done. rewrite Forall_forall in Hk.
      destruct (Hk y Hy) as [ [w b] Hky]. specialize (H2 y Hy). rewrite Hky in *. cbn in *.
      apply orb_false_iff in H2 as [E1 E2]. apply Z.ltb_ge in E1. apply andb_false_iff in E2.
      rewrite Z.eqb_neq, Z.ltb_ge in E2. lia.
  - cbn in *. apply StronglySorted_inv in Hs as [Hs Hf]. apply Forall_cons in Hk as [ [ [w b] Hkx ] Hk].
    constructor.
    + apply IH; try done; intros y Hy; [apply H1|apply He]; by constructor.
    + rewrite Forall_app in Hf. destruct Hf as [Hf1 Hf2]. rewrite (He x) by constructor.
      apply Forall_app. split; [|constructor].
      * rewrite Forall_forall in *. intros y Hy. rewrite He by (apply list_elem_of_further, elem_of_app; by left). by apply Hf1.
      * rewrite Hn, Hkx. specialize (H1 x ltac:(constructor)). rewrite Hkx in H1. cbn in *.
        apply orb_true_iff in H1 as [E|E]; zbool; lia.
      * rewrite Forall_forall in *. intros y Hy. rewrite He by (apply list_elem_of_further, elem_of_app; by right). by apply Hf2.
Qed.

Lemma random_level_range l rs n : random_level_loop l rs = Ret n -> (1 <= l)%nat -> (1 <= n <= WLC_SKIPLIST_MAX_LEVEL)%nat.
Proof.
  revert l. induction rs as [|r rs IH]; intros l; cbn; [done|]. destruct (4 * Z.land r 65535 <? 65535).
  - intros H Hl. apply (IH _ H). lia.
  - intros [= <-] Hl. unfold WLC_SKIPLIST_MAX_LEVEL. lia.
Qed.

(** ** Insertion *)

Lemma tall_zero c xs : Forall (fun x => (1 <= ht c x)%nat) xs -> tall c 0 xs = xs.
Proof.
  unfold tall. induction 1 as [|x xs Hx _ IH]; [done|]. rewrite filter_cons_True by lia. by rewrite IH.
Qed.

Lemma tall_none c i xs : Forall (fun x => (ht c x <= i)%nat) xs -> tall c i xs = [].
Proof. unfold tall. induction 1 as [|x xs Hx _ IH]; [done|]. by rewrite filter_cons_False by lia. Qed.

Lemma skip_heights_ge blks sl xs : skip_inv blks sl xs -> Forall (fun x => (1 <= ht (w_nodes sl) x)%nat) xs.
Proof. intros Hi. eapply Forall_impl; [apply (sk_heights _ _ _ Hi)|]. cbn. lia. Qed.

Lemma pred_at_high blks sl pre post i : skip_inv blks sl (pre ++ post) -> (w_level sl <= i)%nat ->
  pred_at (w_nodes sl) (w_header sl) pre i = w_header sl.
Proof.
  intros Hi Hle. unfold pred_at. rewrite tall_none; [done|].
  pose proof (sk_heights _ _ _ Hi) as [H _]%Forall_app. eapply Forall_impl; [exact H|]. cbn. lia.
Qed.

Lemma pred_at_ok blks sl pre post i : skip_inv blks sl (pre ++ post) -> (i < WLC_SKIPLIST_MAX_LEVEL)%nat ->
  let u := pred_at (w_nodes sl) (w_header sl) pre i in u ∈ w_header sl :: pre /\ (i < ht (w_nodes sl) u)%nat.
Proof.
  intros Hi Hlt u. pose proof (last_def_in (w_header sl) (tall (w_nodes sl) i pre)) as Hin. fold u in Hin.
  change (u ∈ w_header sl :: tall (w_nodes sl) i pre) in Hin. apply elem_of_cons in Hin as [->|Hin].
  - split; [constructor|]. by rewrite (sk_header _ _ _ Hi).
  - apply elem_of_tall in Hin as [? ?]. split; [by constructor|done].
Qed.

Lemma skip_size blks sl xs : skip_inv blks sl xs -> (length xs <= size (w_nodes sl))%nat.
Proof.
  intros Hi. rewrite <- size_dom, (sk_dom _ _ _ Hi), size_list_to_set by apply (sk_nodup _ _ _ Hi). cbn. lia.
Qed.

(** The search runs to the end of [pre] at every level, when the test holds on
    [pre] and fails at the first node of each level behind it. *)
Lemma skip_search blks sl pre post test wlc : skip_inv blks sl (pre ++ post) ->
  (forall x, x ∈ pre -> key_test wlc test (key_of blks (w_nodes sl) x) = true) ->
  (forall i x, list.head (tall (w_nodes sl) i post) = Some x -> key_test wlc test (key_of blks (w_nodes sl) x) = false) ->
  search_down (w_nodes sl) (before_test blks (w_nodes sl) wlc test) (w_level sl) (w_header sl) =
  Ret (pred_at (w_nodes sl) (w_header sl) pre 0, pred_at (w_nodes sl) (w_header sl) pre <$> seq 0 (w_level sl)).
Proof.
  intros Hi Hpre Hpost. pose proof (sk_level _ _ _ Hi) as Hlv. pose proof (sk_keys _ _ _ Hi) as Hk. rewrite Forall_forall in Hk.
  rewrite (search_down_spec _ _ (w_header sl) pre post).
  - by rewrite decide_False by lia.
  - intros i Hlt. apply (sk_paths _ _ _ Hi). lia.
  - intros y Hy. rewrite before_test_key by (apply Hk, elem_of_app; by left). by rewrite Hpre.
  - intros i y _ Hy. rewrite before_test_key; [by rewrite (Hpost i)|]. apply Hk, elem_of_app. right.
    apply head_Some_elem_of, elem_of_tall in Hy. tauto.
  - pose proof (skip_size _ _ _ Hi) as Hl. rewrite length_app in Hl. lia.
  - by left.
Qed.

Lemma update_extend blks sl pre post L : skip_inv blks sl (pre ++ post) ->
  take L ((pred_at (w_nodes sl) (w_header sl) pre <$> seq 0 (w_level sl)) ++ replicate (L - w_level sl) (w_header sl)) =
  pred_at (w_nodes sl) (w_header sl) pre <$> seq 0 L.
Proof.
  intros Hi. destruct (decide (L <= w_level sl)%nat) as [Hle|Hgt].
  - rewrite take_app_le by (rewrite length_fmap, length_seq; lia). rewrite <- fmap_take. f_equal.
    by rewrite take_seq, Nat.min_l.
  - rewrite take_ge by (rewrite length_app, length_fmap, length_seq, length_replicate; lia).
    replace L with (w_level sl + (L - w_level sl))%nat at 2 by lia. rewrite seq_app, fmap_app. f_equal.
    apply list_eq_same_length with (L - w_level sl)%nat; rewrite ?length_replicate, ?length_fmap, ?length_seq; [done|done|].
    intros i x y Hlt Hx Hy. apply lookup_replicate in Hx as [-> _]. rewrite list_lookup_fmap, lookup_seq_lt in Hy by lia.
    cbn in Hy. injection Hy as <-. symmetry. apply (pred_at_high blks sl pre post); [done|lia].
Qed.

Lemma upd_at_pred f L k u : upd_at (f <$> seq 0 L) 0 k = Some u <-> (k < L)%nat /\ u = f k.
Proof.
  unfold upd_at. rewrite decide_True by lia. rewrite Nat.sub_0_r, list_lookup_fmap.
  destruct (decide (k < L)%nat).
  - rewrite lookup_seq_lt by done. cbn. naive_solver.
  - rewrite lookup_seq_ge by lia. cbn. split; [done|lia].
Qed.

Section Insert.
Context (blks : gmap bloc datasevr_block) (sl : wlc_skiplist) (pre post : list nloc) (L : nat) (wlc : Z) (dblk : bloc).
Context (Hi : skip_inv blks sl (pre ++ post)) (HL : (1 <= L <= WLC_SKIPLIST_MAX_LEVEL)%nat).

Abbreviation c := (w_nodes sl).
Abbreviation hdr := (w_header sl).
Abbreviation n := (w_brk sl).
Abbreviation c1 := (<[w_brk sl := mk_wnode (Some dblk) wlc None (replicate L None)]> (w_nodes sl)).

Lemma new_fresh x : x ∈ hdr :: pre ++ post -> x <> n.
Proof using Hi.
  intros Hx ->. assert (n ∈ dom c) as Hd by (rewrite (sk_dom _ _ _ Hi); by apply elem_of_list_to_set).
  exact (Nat.lt_irrefl _ (sk_brk _ _ _ Hi _ Hd)).
Qed.

Lemma c1_old x : x <> n -> c1 !! x = c !! x.
Proof. intros. by rewrite lookup_insert_ne. Qed.

Lemma c1_ht x : ht c1 x = if decide (x = n) then L else ht c x.
Proof.
  unfold ht. case_decide as E.
  - subst x. rewrite lookup_insert_eq. cbn. apply length_replicate.
  - by rewrite c1_old.
Qed.

Lemma c1_tall i xs : (forall x, x ∈ xs -> x <> n) -> tall c1 i xs = tall c i xs.
Proof. intros H. apply tall_ext. intros x Hx. rewrite c1_ht. by rewrite decide_False by by apply H. Qed.

(** The new list at level [i]. *)
Lemma tall_new i : tall c1 i (pre ++ n :: post) =
  tall c i pre ++ (if decide (i < L)%nat then [n] else []) ++ tall c i post.
Proof.
  rewrite tall_app, c1_tall by (intros x Hx; apply new_fresh, list_elem_of_further, elem_of_app; by left). f_equal.
  unfold tall at 1. pose proof (c1_ht n) as Hn. rewrite decide_True in Hn by done.
  assert (base.filter (fun y => (i < ht c1 y)%nat) post = tall c i post) as Hp.
  { apply c1_tall. intros x Hx. apply new_fresh, list_elem_of_further, elem_of_app. by right. }
  case_decide.
  - rewrite filter_cons_True by (by rewrite Hn). by rewrite Hp.
  - rewrite filter_cons_False by (by rewrite Hn). by rewrite Hp.
Qed.

Lemma insert_splice : exists c2, splice c1 n 0 (pred_at c hdr pre <$> seq 0 L) = Ret c2 /\ same_info c1 c2 /\
  (forall y, bwd c2 y = bwd c1 y) /\
  (forall i y, y <> n -> fwd c2 i y =
     if decide ((i < L)%nat /\ y = pred_at c hdr pre i) then Some (Some n) else fwd c i y) /\
  (forall i, (i < L)%nat -> fwd c2 i n = fwd c i (pred_at c hdr pre i)).
Proof.
  assert (forall k, (k < L)%nat -> pred_at c hdr pre k <> n /\ (k < ht c (pred_at c hdr pre k))%nat) as Hpa.
  { intros k Hk. destruct (pred_at_ok blks sl pre post k Hi) as [Hin Hh]; [lia|]. split; [|done].
    apply new_fresh. rewrite elem_of_cons, elem_of_app in *. tauto. }
  destruct (splice_spec c1 n 0 (pred_at c hdr pre <$> seq 0 L)) as (c2 & Hr & Hsi & Hb & Hf).
  { intros k u [Hk ->]%upd_at_pred. destruct (Hpa k Hk) as [Hne Hh]. rewrite !c1_ht, decide_False, decide_True by done.
    split_and!; [done|done|lia]. }
  exists c2. split_and!; [done|done|done| |].
  - intros i y Hy. rewrite Hf. destruct (upd_at (pred_at c hdr pre <$> seq 0 L) 0 i) as [u|] eqn:E.
    + apply upd_at_pred in E as [Hk ->]. rewrite decide_False by done. unfold fwd at 1. rewrite c1_old by done.
      repeat case_decide; try done; tauto.
    + unfold fwd at 1. rewrite c1_old by done. rewrite decide_False; [done|]. intros [Hk ->].
      assert (upd_at (pred_at c hdr pre <$> seq 0 L) 0 i = Some (pred_at c hdr pre i)) by (by apply upd_at_pred). congruence.
  - intros i Hk. rewrite Hf. assert (upd_at (pred_at c hdr pre <$> seq 0 L) 0 i = Some (pred_at c hdr pre i)) as -> by (by apply upd_at_pred).
    rewrite decide_True by done. unfold fwd. rewrite c1_old; [done|]. by apply Hpa.
Qed.

Lemma insert_paths c4 : same_info c1 c4 ->
  (forall i y, y <> n -> fwd c4 i y =
     if decide ((i < L)%nat /\ y = pred_at c hdr pre i) then Some (Some n) else fwd c i y) ->
  (forall i, (i < L)%nat -> fwd c4 i n = fwd c i (pred_at c hdr pre i)) ->
  forall i, (i < WLC_SKIPLIST_MAX_LEVEL)%nat -> lpath c4 i hdr (tall c4 i (pre ++ n :: post)).
Proof.
  intros Hsi Hf Hfn i Hlt. rewrite (same_info_tall _ _ _ _ Hsi), tall_new.
  pose proof (sk_paths _ _ _ Hi i Hlt) as Hp. rewrite tall_app in Hp.
  assert (forall x, x ∈ hdr :: tall c i pre ++ tall c i post -> x <> n) as Hfr.
  { intros x Hx. apply new_fresh. rewrite elem_of_cons, elem_of_app, !elem_of_tall in *. tauto. }
  assert (NoDup (hdr :: tall c i pre ++ tall c i post)) as Hnd.
  { rewrite <- tall_app. pose proof (sk_nodup _ _ _ Hi) as [H1 H2]%NoDup_cons. constructor; [|by apply NoDup_filter].
    rewrite elem_of_tall. tauto. }
  case_decide as E; cbn [app].
  - apply (lpath_insert c); [done|done| | |].
    + rewrite Hf; [by rewrite decide_True|]. apply Hfr. pose proof (last_def_in hdr (tall c i pre)).
      rewrite elem_of_cons, elem_of_app in *. tauto.
    + by apply Hfn.
    + intros x Hx Hne. rewrite Hf by by apply Hfr. rewrite decide_False by (intros [_ ?]; done). done.
  - eapply lpath_frame; [|done]. intros x Hx. rewrite Hf by by apply Hfr. rewrite decide_False by tauto. done.
Qed.
End Insert.

Lemma c1_key blks sl pre post L wlc dblk x : skip_inv blks sl (pre ++ post) -> x ∈ pre ++ post ->
  key_of blks (<[w_brk sl := mk_wnode (Some dblk) wlc None (replicate L None)]> (w_nodes sl)) x = key_of blks (w_nodes sl) x.
Proof.
  intros Hi Hx. unfold key_of. rewrite lookup_insert_ne; [done|].
  apply not_eq_sym, (new_fresh blks sl pre post Hi). by constructor.
Qed.

(** The last links: [backward] pointers and the tail. *)
Lemma insert_backward c2 hdr n (pre post : list nloc) : n ∈ dom c2 ->
  fwd c2 0 n = Some (list.head post) -> (forall y, y ∈ post -> y ∈ dom c2 /\ y <> n) -> hdr ∉ pre -> last (pre ++ post) <> None \/ pre ++ post = [] ->
  forall otail, otail = last (pre ++ post) ->
  exists c4, (c3 ← set_backward c2 n (if (default hdr (last pre) =? hdr)%nat then None else Some (default hdr (last pre)));
    f ← get_fwd c3 n 0;
    match f with
    | Some y => c ← set_backward c3 y (Some n); Ret (c, otail)
    | None => Ret (c3, Some n)
    end) = Ret (c4, last (pre ++ n :: post)) /\ same_info c2 c4 /\ (forall k y, fwd c4 k y = fwd c2 k y) /\
    bwd c4 n = last pre /\ (forall y, list.head post = Some y -> bwd c4 y = Some n) /\
    (forall x, x <> n -> list.head post <> Some x -> bwd c4 x = bwd c2 x).
Proof.
  intros Hn Hf Hpost Hh _ otail ->.
  assert ((if (default hdr (last pre) =? hdr)%nat then None else Some (default hdr (last pre))) = last pre) as ->.
  { destruct (last pre) as [p|] eqn:E; cbn; [|by rewrite Nat.eqb_refl].
    rewrite (proj2 (Nat.eqb_neq p hdr)); [done|]. intros ->. apply Hh. apply last_Some in E as [l ->].
    apply elem_of_app. right. constructor. }
  destruct (set_backward_spec c2 n (last pre) Hn) as (c3 & -> & Hi3 & Hb3 & Hf3). cbn [mbind outcome_bind].
  rewrite (get_fwd_Ret _ _ _ (list.head post)) by (by rewrite Hf3). cbn [mbind outcome_bind].
  destruct post as [|y post]; cbn [list.head].
  - exists c3. rewrite last_snoc. split_and!; try done.
    + by rewrite Hb3, decide_True.
    + intros x Hx _. by rewrite Hb3, decide_False.
  - destruct (Hpost y) as [Hy Hyn]; [constructor|].
    destruct (set_backward_spec c3 y (Some n)) as (c4 & -> & Hi4 & Hb4 & Hf4); [by rewrite (same_info_dom _ _ Hi3)|].
    cbn [mbind outcome_bind]. exists c4. split_and!.
    + rewrite !last_app, !last_cons. by destruct (last post).
    + by eapply same_info_trans.
    + intros k z. by rewrite Hf4, Hf3.
    + by rewrite Hb4, decide_False, Hb3, decide_True.
    + intros z [= <-]. by rewrite Hb4, decide_True.
    + intros x Hx Hxy. rewrite Hb4, decide_False by (by intros ->). by rewrite Hb3, decide_False.
Qed.

(** The list with the new node linked in. *)
Lemma insert_keeps_inv blks sl pre post L wlc dblk blk c4 : skip_inv blks sl (pre ++ post) ->
  (1 <= L <= WLC_SKIPLIST_MAX_LEVEL)%nat -> blks !! dblk = Some blk ->
  (forall x, x ∈ pre -> key_test wlc (fun b => b <? block_id blk) (key_of blks (w_nodes sl) x) = true) ->
  (forall x, x ∈ post -> key_test wlc (fun b => b <? block_id blk) (key_of blks (w_nodes sl) x) = false) ->
  same_info (<[w_brk sl := mk_wnode (Some dblk) wlc None (replicate L None)]> (w_nodes sl)) c4 ->
  (forall i y, y <> w_brk sl -> fwd c4 i y =
     if decide ((i < L)%nat /\ y = pred_at (w_nodes sl) (w_header sl) pre i) then Some (Some (w_brk sl)) else fwd (w_nodes sl) i y) ->
  (forall i, (i < L)%nat -> fwd c4 i (w_brk sl) = fwd (w_nodes sl) i (pred_at (w_nodes sl) (w_header sl) pre i)) ->
  bwd c4 (w_brk sl) = last pre -> (forall y, list.head post = Some y -> bwd c4 y = Some (w_brk sl)) ->
  (forall x, x ∈ pre ++ post -> list.head post <> Some x -> bwd c4 x = bwd (w_nodes sl) x) ->
  skip_inv blks (mk_wlc c4 (S (w_brk sl)) (w_header sl) (last (pre ++ w_brk sl :: post)) (w_length sl + 1)
                   (Nat.max L (w_level sl))) (pre ++ w_brk sl :: post).
Proof.
  intros Hi HLr Hblk Hpre Hpost Hi14 Hf Hfn Hbn Hbh Hbo.
  pose proof (fun x => same_info_key blks _ _ x Hi14) as Hkey. pose proof (fun x => same_info_ht _ _ x Hi14) as Hht.
  assert (forall x, x ∈ pre ++ post -> key_of blks c4 x = key_of blks (w_nodes sl) x) as Hold.
  { intros x Hx. rewrite Hkey. by apply (c1_key blks sl pre post). }
  assert (key_of blks c4 (w_brk sl) = Some (wlc, block_id blk)) as Hnew.
  { rewrite Hkey. unfold key_of. rewrite lookup_insert_eq. cbn. by rewrite Hblk. }
  pose proof (new_fresh blks sl pre post Hi) as Hfresh. pose proof (sk_level _ _ _ Hi) as Hlv.
  pose proof (sk_nodup _ _ _ Hi) as [Hhd Hnd]%NoDup_cons.
  split; cbn [w_nodes w_header w_level w_tail w_length w_brk].
  - constructor; [|].
    + rewrite elem_of_app, elem_of_cons. rewrite elem_of_app in Hhd. intros [?|[He|?]]; [tauto| |tauto].
      by apply (Hfresh (w_header sl)); [constructor|].
    + apply (NoDup_Permutation_proper _ (w_brk sl :: pre ++ post)); [by rewrite Permutation_middle|].
      constructor; [|done]. intros Hin. by apply (Hfresh (w_brk sl)); [constructor|].
  - by apply (insert_paths blks sl pre post L wlc dblk Hi HLr).
  - rewrite Hht, c1_ht, decide_False by (apply Hfresh; constructor). apply (sk_header _ _ _ Hi).
  - pose proof (sk_heights _ _ _ Hi) as Hhs. rewrite Forall_forall in Hhs |- *. intros x Hx.
    rewrite Hht, c1_ht. case_decide as E; [lia|]. assert (x ∈ pre ++ post) as Hxin.
    { rewrite elem_of_app, elem_of_cons in *. tauto. }
    specialize (Hhs x Hxin). cbn in Hhs. lia.
  - lia.
  - apply Forall_forall. intros x Hx. rewrite elem_of_app, elem_of_cons in Hx.
    destruct (decide (x = w_brk sl)) as [->|]; [by rewrite Hnew|]. assert (x ∈ pre ++ post) as Hxin by (rewrite elem_of_app; tauto).
    rewrite Hold by done. pose proof (sk_keys _ _ _ Hi) as Hks. rewrite Forall_forall in Hks. by apply Hks.
  - eapply (key_sorted_insert blks (w_nodes sl)); [apply (sk_sorted _ _ _ Hi)|apply (sk_keys _ _ _ Hi)|done|done|done|done].
  - by apply (bpath_insert (w_nodes sl)); [apply (sk_back _ _ _ Hi)|..].
  - done.
  - rewrite (sk_length _ _ _ Hi), !length_app. cbn. lia.
  - rewrite (same_info_dom _ _ Hi14), dom_insert_L, (sk_dom _ _ _ Hi). apply set_eq. intros x.
    rewrite elem_of_union, elem_of_singleton, !elem_of_list_to_set, !elem_of_cons, !elem_of_app, elem_of_cons. tauto.
  - intros x. rewrite (same_info_dom _ _ Hi14), dom_insert_L, elem_of_union, elem_of_singleton.
    intros [->|Hx]; [lia|]. apply (sk_brk _ _ _ Hi) in Hx. lia.
Qed.

Lemma wlcsl_insert_inv blks sl xs randoms L wlc dblk blk : skip_inv blks sl xs ->
  blks !! dblk = Some blk -> wlcsl_random_level randoms = Ret L ->
  exists sl' pre post, wlcsl_insert blks true randoms sl wlc dblk = Ret (sl', w_brk sl) /\ xs = pre ++ post /\
    skip_inv blks sl' (pre ++ w_brk sl :: post) /\
    key_of blks (w_nodes sl') (w_brk sl) = Some (wlc, block_id blk) /\
    (forall x, x ∈ xs -> key_of blks (w_nodes sl') x = key_of blks (w_nodes sl) x) /\
    (forall x, x ∈ pre -> key_test wlc (fun b => b <? block_id blk) (key_of blks (w_nodes sl) x) = true) /\
    (forall x, x ∈ post -> key_test wlc (fun b => b <? block_id blk) (key_of blks (w_nodes sl) x) = false).
Proof.
  intros Hi Hblk HL. assert (1 <= L <= WLC_SKIPLIST_MAX_LEVEL)%nat as HLr by (eapply random_level_range; [exact HL|lia]).
  destruct (key_split blks (w_nodes sl) wlc (block_id blk) xs (sk_sorted _ _ _ Hi) (sk_keys _ _ _ Hi)) as (pre & post & -> & Hpre & Hpost).
  unfold wlcsl_insert. rewrite Hblk. cbn [get_or mbind outcome_bind].
  rewrite (skip_search blks sl pre post); [|done|done|].
  2:{ intros i x Hx. apply Hpost. apply head_Some_elem_of, elem_of_tall in Hx. tauto. }
  cbn [mbind outcome_bind]. rewrite HL. cbn [mbind outcome_bind wlcsl_node_new].
  rewrite (update_extend blks sl pre post L Hi).
  destruct (insert_splice blks sl pre post L wlc dblk Hi HLr) as (c2 & -> & Hi2 & Hb2 & Hf2 & Hfn2). cbn [mbind outcome_bind].
  pose proof (skip_heights_ge _ _ _ Hi) as Hge. pose proof (sk_level _ _ _ Hi) as Hlv.
  assert (((pred_at (w_nodes sl) (w_header sl) pre <$> seq 0 (w_level sl)) ++ replicate (L - w_level sl) (w_header sl)) !! 0%nat
          = Some (default (w_header sl) (last pre))) as ->.
  { rewrite lookup_app_l by (rewrite length_fmap, length_seq; lia). rewrite list_lookup_fmap, lookup_seq_lt by lia.
    cbn. unfold pred_at. rewrite tall_zero; [done|]. by apply Forall_app in Hge as [? _]. }
  cbn [get_or mbind outcome_bind].
  assert (fwd c2 0 (w_brk sl) = Some (list.head post)) as Hf0.
  { rewrite Hfn2 by lia. pose proof (sk_paths _ _ _ Hi 0%nat ltac:(unfold WLC_SKIPLIST_MAX_LEVEL; lia)) as Hp.
    rewrite tall_app in Hp. apply lpath_app in Hp. rewrite (tall_zero _ post) in Hp by (by apply Forall_app in Hge as [_ ?]).
    unfold pred_at. destruct post; apply Hp. }
  assert (forall y, y ∈ w_header sl :: pre ++ post -> y ∈ dom (w_nodes sl)) as Hdom.
  { intros y Hy. rewrite (sk_dom _ _ _ Hi). by apply elem_of_list_to_set. }
  pose proof (sk_nodup _ _ _ Hi) as [Hhd Hnd]%NoDup_cons.
  destruct (insert_backward c2 (w_header sl) (w_brk sl) pre post) with (otail := w_tail sl) as (c4 & Hr4 & Hi4 & Hf4 & Hbn & Hbh & Hbo).
  { rewrite (same_info_dom _ _ Hi2), dom_insert_L. set_solver. }
  { done. }
  { intros y Hy. rewrite (same_info_dom _ _ Hi2), dom_insert_L. split.
    - apply elem_of_union_r, Hdom, list_elem_of_further, elem_of_app. by right.
    - apply (new_fresh blks sl pre post Hi), list_elem_of_further, elem_of_app. by right. }
  { intros Hin. apply Hhd, elem_of_app. by left. }
  { destruct (pre ++ post) eqn:E; [by right|left]. rewrite last_cons. by destruct (last _). }
  { apply (sk_tail _ _ _ Hi). }
  destruct (set_backward c2 _ _) as [c3|]; [|discriminate Hr4]. cbn [mbind outcome_bind] in Hr4 |- *.
  destruct (get_fwd c3 _ 0) as [f|]; [|discriminate Hr4]. cbn [mbind outcome_bind] in Hr4 |- *. rewrite Hr4.
  cbn [mbind outcome_bind]. pose proof (same_info_trans _ _ _ Hi2 Hi4) as Hi14.
  pose proof (fun x => same_info_key blks _ _ x Hi14) as Hkey. pose proof (fun x => same_info_ht _ _ x Hi14) as Hht.
  assert (forall x, x ∈ pre ++ post -> key_of blks c4 x = key_of blks (w_nodes sl) x) as Hold.
  { intros x Hx. rewrite Hkey. by apply (c1_key blks sl pre post). }
  assert (key_of blks c4 (w_brk sl) = Some (wlc, block_id blk)) as Hnew.
  { rewrite Hkey. unfold key_of. rewrite lookup_insert_eq. cbn. by rewrite Hblk. }
  pose proof (new_fresh blks sl pre post Hi) as Hfresh.
  eexists _, pre, post. split; [done|]. split; [done|]. split; [|by split_and!].
  apply (insert_keeps_inv blks sl pre post L wlc dblk blk c4); try done.
  - intros i y Hy. rewrite Hf4. by apply Hf2.
  - intros i Hlt. rewrite Hf4. by apply Hfn2.
  - intros x Hx Hne. rewrite Hbo, Hb2; [|by apply Hfresh; constructor|done]. unfold bwd.
    rewrite lookup_insert_ne; [done|]. by apply not_eq_sym, Hfresh; constructor.
Qed.

(** ** Deletion *)

Lemma head_tall_cons c i t post : list.head (tall c i (t :: post)) =
  if decide (i < ht c t)%nat then Some t else list.head (tall c i post).
Proof.
  unfold tall. case_decide; [by rewrite filter_cons_True|by rewrite filter_cons_False].
Qed.

Lemma lpath_head c i a xs : lpath c i a xs -> fwd c i a = Some (list.head xs).
Proof. destruct xs; cbn; [done|tauto]. Qed.

(** The first node of each level behind the target stops the search: the
    target itself, or a node that is not a taller one of the same load. *)
Lemma delete_stops blks sl pre t post wlc bid : skip_inv blks sl (pre ++ t :: post) ->
  key_of blks (w_nodes sl) t = Some (wlc, bid) ->
  (forall y b, y ∈ post -> key_of blks (w_nodes sl) y = Some (wlc, b) -> (ht (w_nodes sl) y <= ht (w_nodes sl) t)%nat) ->
  forall i x, list.head (tall (w_nodes sl) i (t :: post)) = Some x ->
  key_test wlc (fun b => negb (b =? bid)) (key_of blks (w_nodes sl) x) = false.
Proof.
  intros Hi Ht Hh i x Hx. rewrite head_tall_cons in Hx. case_decide as E.
  - injection Hx as <-. rewrite Ht. cbn. rewrite Z.ltb_irrefl, Z.eqb_refl, Z.eqb_refl. done.
  - apply head_Some_elem_of, elem_of_tall in Hx as [Hix Hx].
    pose proof (sk_sorted _ _ _ Hi) as Hs. pose proof (sk_keys _ _ _ Hi) as Hk. rewrite Forall_forall in Hk.
    destruct (Hk x) as [ [w b] Hkx ]; [rewrite elem_of_app, elem_of_cons; tauto|]. rewrite Hkx. cbn.
    assert (key_le (Some (wlc, bid)) (Some (w, b))) as Hle.
    { rewrite <- Ht, <- Hkx. by apply (sorted_mid _ _ _ _ Hs). }
    cbn in Hle. zcase (w <? wlc); [lia|]. zcase (w =? wlc); [|done]. subst w. specialize (Hh x b Hx Hkx). lia.
Qed.

Section Delete.
Context (blks : gmap bloc datasevr_block) (sl : wlc_skiplist) (pre : list nloc) (t : nloc) (post : list nloc).
Context (Hi : skip_inv blks sl (pre ++ t :: post)).

Abbreviation c := (w_nodes sl).
Abbreviation hdr := (w_header sl).

Lemma del_nodup : NoDup (hdr :: pre ++ post) /\ t ∉ hdr :: pre ++ post.
Proof.
  pose proof (sk_nodup _ _ _ Hi) as Hn.
  assert (NoDup (t :: hdr :: pre ++ post)) as [? ?]%NoDup_cons; [|done].
  eapply NoDup_Permutation_proper; [|exact Hn]. rewrite <- Permutation_middle. apply Permutation_swap.
Qed.

Lemma del_height : (1 <= ht c t <= w_level sl)%nat.
Proof.
  pose proof (sk_heights _ _ _ Hi) as Hh. rewrite Forall_forall in Hh. apply Hh, elem_of_app. right. constructor.
Qed.

Lemma tall_split i : tall c i (pre ++ t :: post) = tall c i pre ++ (if decide (i < ht c t)%nat then [t] else []) ++ tall c i post.
Proof.
  rewrite tall_app. f_equal. unfold tall at 1. case_decide; [by rewrite filter_cons_True|by rewrite filter_cons_False].
Qed.

(** What the predecessor of the target points to. *)
Lemma pred_fwd i : (i < WLC_SKIPLIST_MAX_LEVEL)%nat ->
  fwd c i (pred_at c hdr pre i) = Some (if decide (i < ht c t)%nat then Some t else list.head (tall c i post)).
Proof.
  intros Hlt. pose proof (sk_paths _ _ _ Hi i Hlt) as Hp. rewrite tall_split in Hp. apply lpath_app, lpath_head in Hp.
  unfold pred_at. rewrite Hp. f_equal. by case_decide.
Qed.

Lemma pred_ne i : (i < WLC_SKIPLIST_MAX_LEVEL)%nat -> pred_at c hdr pre i <> t /\ (i < ht c (pred_at c hdr pre i))%nat.
Proof.
  intros Hlt. destruct (pred_at_ok blks sl pre (t :: post) i Hi Hlt) as [Hin Hh]. split; [|done].
  intros He. rewrite He in Hin. destruct del_nodup as [_ Hn]. apply Hn. rewrite elem_of_cons, elem_of_app in *. tauto.
Qed.

Lemma delete_unsplice : exists c2, unsplice c t 0 (pred_at c hdr pre <$> seq 0 (w_level sl)) = Ret c2 /\ same_info c c2 /\
  (forall y, bwd c2 y = bwd c y) /\
  (forall i y, (i < WLC_SKIPLIST_MAX_LEVEL)%nat -> fwd c2 i y =
     if decide ((i < ht c t)%nat /\ y = pred_at c hdr pre i) then fwd c i t else fwd c i y).
Proof.
  pose proof (sk_level _ _ _ Hi) as Hlv. pose proof del_height as Hht. destruct del_nodup as [_ Htn].
  assert (forall i, (i < WLC_SKIPLIST_MAX_LEVEL)%nat -> fwd c i (pred_at c hdr pre i) = Some (Some t) <-> (i < ht c t)%nat) as Hiff.
  { intros i Hlt. rewrite pred_fwd by done. case_decide; [tauto|]. split; [|tauto]. intros [= He].
    apply head_Some_elem_of, elem_of_tall in He as [? _]. lia. }
  destruct (unsplice_spec c t 0 (pred_at c hdr pre <$> seq 0 (w_level sl))) as (c2 & Hr & Hsi & Hb & Hf).
  { intros k u [Hk ->]%upd_at_pred. apply pred_ne. lia. }
  { intros k u [Hk ->]%upd_at_pred Hfk. apply Hiff; [lia|done]. }
  exists c2. split_and!; [done..|]. intros i y Hlt. rewrite Hf.
  destruct (upd_at (pred_at c hdr pre <$> seq 0 (w_level sl)) 0 i) as [u|] eqn:E.
  - apply upd_at_pred in E as [Hk ->]. pose proof (Hiff i Hlt). repeat case_decide; first [done | tauto].
  - rewrite decide_False; [done|]. intros [Hk _].
    assert (upd_at (pred_at c hdr pre <$> seq 0 (w_level sl)) 0 i = Some (pred_at c hdr pre i)) as E'
      by (apply upd_at_pred; split; [lia|done]). congruence.
Qed.

(** The node behind the target. *)
Lemma del_next c2 : (forall i y, (i < WLC_SKIPLIST_MAX_LEVEL)%nat -> fwd c2 i y =
     if decide ((i < ht c t)%nat /\ y = pred_at c hdr pre i) then fwd c i t else fwd c i y) ->
  fwd c2 0 t = Some (list.head post).
Proof.
  intros Hf2. assert (0 < WLC_SKIPLIST_MAX_LEVEL)%nat as H0 by (unfold WLC_SKIPLIST_MAX_LEVEL; lia).
  rewrite Hf2 by done. destruct (pred_ne 0 H0) as [Hne _]. rewrite decide_False by (intros [_ ?]; congruence).
  pose proof (sk_paths _ _ _ Hi 0%nat H0) as Hp. rewrite tall_zero in Hp by (by eapply skip_heights_ge).
  rewrite cons_middle, app_assoc in Hp. apply lpath_app, lpath_head in Hp. by rewrite last_snoc in Hp.
Qed.

Lemma delete_paths c3 : (forall x, x ∈ hdr :: pre ++ post -> ht c3 x = ht c x) ->
  (forall i y, (i < WLC_SKIPLIST_MAX_LEVEL)%nat -> y ∈ hdr :: pre ++ post -> fwd c3 i y =
     if decide ((i < ht c t)%nat /\ y = pred_at c hdr pre i) then fwd c i t else fwd c i y) ->
  forall i, (i < WLC_SKIPLIST_MAX_LEVEL)%nat -> lpath c3 i hdr (tall c i (pre ++ post)).
Proof.
  intros Hh Hf i Hlt. pose proof (sk_paths _ _ _ Hi i Hlt) as Hp. rewrite tall_split in Hp. rewrite tall_app.
  assert (forall x, x ∈ hdr :: tall c i pre ++ tall c i post -> x ∈ hdr :: pre ++ post) as Hin.
  { intros x. rewrite !elem_of_cons, !elem_of_app, !elem_of_tall. tauto. }
  pose proof (last_def_in hdr (tall c i pre)) as Hlast.
  case_decide as E; cbn [app] in Hp.
  - apply (lpath_delete c c3 i hdr (tall c i pre) (tall c i post) t); [|done| |].
    + pose proof (sk_nodup _ _ _ Hi) as [H1 H2]%NoDup_cons.
      assert (tall c i pre ++ t :: tall c i post = tall c i (pre ++ t :: post)) as -> by (rewrite tall_split, decide_True; done).
      constructor; [rewrite elem_of_tall; tauto|by apply NoDup_filter].
    + rewrite Hf; [by rewrite decide_True|done|]. apply Hin. rewrite elem_of_cons, elem_of_app in *. tauto.
    + intros x Hx Hne. rewrite Hf by (done || by apply Hin). rewrite decide_False; [done|]. intros [_ ?]. done.
  - eapply lpath_frame; [|done]. intros x Hx. rewrite Hf by (done || by apply Hin). rewrite decide_False by tauto. done.
Qed.
End Delete.

Lemma shrink_level_spec c hdr xs level : (1 <= level <= WLC_SKIPLIST_MAX_LEVEL)%nat ->
  (forall i, (i < WLC_SKIPLIST_MAX_LEVEL)%nat -> lpath c i hdr (tall c i xs)) ->
  Forall (fun x => (ht c x <= level)%nat) xs ->
  exists level', shrink_level c hdr level = Ret level' /\ (1 <= level' <= level)%nat /\
    Forall (fun x => (ht c x <= level')%nat) xs.
Proof.
  intros Hl Hp. induction level as [|level IH]; [lia|]. intros Hh. destruct level as [|top].
  - exists 1%nat. by split.
  - cbn [shrink_level]. pose proof (Hp (S top) ltac:(lia)) as Ht. rewrite (get_fwd_Ret _ _ _ _ (lpath_head _ _ _ _ Ht)).
    cbn [mbind outcome_bind]. destruct (list.head (tall c (S top) xs)) as [y|] eqn:E.
    + exists (S (S top)). split_and!; [done|lia|lia|done].
    + destruct IH as (l' & Hr & Hl' & Hh'); [lia| |exists l'; split_and!; [done|lia|lia|done]].
      apply Forall_forall. intros x Hx. destruct (decide (S top < ht c x)%nat) as [Hlt|]; [|lia].
      assert (x ∈ tall c (S top) xs) as Hin by (by apply elem_of_tall).
      apply head_None in E. rewrite E in Hin. by apply not_elem_of_nil in Hin.
Qed.

Lemma is_target_key blks c wlc bid x w b : key_of blks c x = Some (w, b) ->
  is_target blks c wlc bid (Some x) = Ret ((w =? wlc) && (b =? bid)).
Proof.
  unfold key_of, is_target, get_node. destruct (c !! x) as [d|]; [|done]. cbn.
  destruct (n_dblk d) as [bl|]; [|done]. cbn. destruct (blks !! bl) as [blk|]; [|done]. cbn.
  intros [= -> ->]. by destruct (w =? wlc).
Qed.

Lemma fwd_head blks sl pre post : skip_inv blks sl (pre ++ post) ->
  get_fwd (w_nodes sl) (pred_at (w_nodes sl) (w_header sl) pre 0) 0 = Ret (list.head post).
Proof.
  intros Hi. pose proof (skip_heights_ge _ _ _ Hi) as Hge. apply Forall_app in Hge as [_ Hge].
  pose proof (sk_paths _ _ _ Hi 0%nat ltac:(unfold WLC_SKIPLIST_MAX_LEVEL; lia)) as Hp.
  rewrite tall_app in Hp. apply lpath_app, lpath_head in Hp. rewrite (tall_zero _ post Hge) in Hp. by apply get_fwd_Ret.
Qed.

(** [t] is where a search for its key looks for it. *)
Record reachable_key (blks : gmap bloc datasevr_block) (sl : wlc_skiplist) (pre : list nloc) (t : nloc) (post : list nloc)
    (wlc bid : Z) : Prop := {
  rk_key : key_of blks (w_nodes sl) t = Some (wlc, bid);
  rk_pre : forall x, x ∈ pre -> key_of blks (w_nodes sl) x <> Some (wlc, bid);
  rk_post : forall y b, y ∈ post -> key_of blks (w_nodes sl) y = Some (wlc, b) -> (ht (w_nodes sl) y <= ht (w_nodes sl) t)%nat
}.

Lemma reachable_search blks sl pre t post wlc bid : skip_inv blks sl (pre ++ t :: post) ->
  reachable_key blks sl pre t post wlc bid ->
  search_down (w_nodes sl) (before_test blks (w_nodes sl) wlc (fun b => negb (b =? bid))) (w_level sl) (w_header sl) =
  Ret (pred_at (w_nodes sl) (w_header sl) pre 0, pred_at (w_nodes sl) (w_header sl) pre <$> seq 0 (w_level sl)) /\
  get_fwd (w_nodes sl) (pred_at (w_nodes sl) (w_header sl) pre 0) 0 = Ret (Some t) /\
  is_target blks (w_nodes sl) wlc bid (Some t) = Ret true.
Proof.
  intros Hi [Hk Hpre Hpost]. split_and!.
  - apply (skip_search blks sl pre (t :: post)); [done| |by eapply delete_stops].
    intros x Hx. pose proof (sk_keys _ _ _ Hi) as Hks. rewrite Forall_forall in Hks.
    destruct (Hks x) as [ [w b] Hkx ]; [apply elem_of_app; by left|]. specialize (Hpre x Hx). rewrite Hkx in *. cbn.
    assert (key_le (Some (w, b)) (Some (wlc, bid))) as Hle.
    { rewrite <- Hk, <- Hkx. by apply (sorted_mid _ _ _ _ (sk_sorted _ _ _ Hi)). }
    cbn in Hle. zcase (w <? wlc); [done|]. zcase (w =? wlc); [|lia]. zcase (b =? bid); [|done]. by subst.
  - by rewrite (fwd_head blks sl pre (t :: post)).
  - rewrite (is_target_key _ _ _ _ _ _ _ Hk). by rewrite !Z.eqb_refl.
Qed.

(** The list with the target unlinked and freed. *)
Lemma delete_keeps_inv blks sl pre t post c3 level : skip_inv blks sl (pre ++ t :: post) ->
  same_info (w_nodes sl) c3 -> (1 <= level <= w_level sl)%nat ->
  Forall (fun x => (ht (w_nodes sl) x <= level)%nat) (pre ++ post) ->
  (forall i, (i < WLC_SKIPLIST_MAX_LEVEL)%nat -> lpath c3 i (w_header sl) (tall (w_nodes sl) i (pre ++ post))) ->
  bpath c3 None (pre ++ post) ->
  skip_inv blks (mk_wlc (delete t c3) (w_brk sl) (w_header sl) (last (pre ++ post)) (w_length sl - 1) level) (pre ++ post).
Proof.
  intros Hi Hsi Hlv Hhs Hp Hb. destruct (del_nodup blks sl pre t post Hi) as [Hnd Htn].
  assert (forall x, x ∈ w_header sl :: pre ++ post -> delete t c3 !! x = c3 !! x) as Hdel.
  { intros x Hx. apply lookup_delete_ne. by intros <-. }
  assert (forall x, x ∈ w_header sl :: pre ++ post -> ht (delete t c3) x = ht (w_nodes sl) x) as Hht.
  { intros x Hx. rewrite <- (same_info_ht _ _ x Hsi). unfold ht. by rewrite Hdel. }
  assert (forall x, x ∈ pre ++ post -> key_of blks (delete t c3) x = key_of blks (w_nodes sl) x) as Hkey.
  { intros x Hx. rewrite <- (same_info_key blks _ _ x Hsi). unfold key_of. rewrite Hdel by by constructor. done. }
  assert (forall x, x ∈ pre ++ post -> x ∈ pre ++ t :: post) as Hsub by (intros x; rewrite !elem_of_app, elem_of_cons; tauto).
  assert (forall i, tall (delete t c3) i (pre ++ post) = tall (w_nodes sl) i (pre ++ post)) as Htall.
  { intros i. apply tall_ext. intros x Hx. by rewrite Hht by by constructor. }
  split; cbn [w_nodes w_header w_level w_tail w_length w_brk].
  - done.
  - intros i Hlt. rewrite Htall. eapply lpath_frame; [|by apply Hp]. intros x Hx. unfold fwd. rewrite Hdel; [done|].
    rewrite elem_of_cons, elem_of_tall in Hx. rewrite elem_of_cons. tauto.
  - rewrite Hht by constructor. apply (sk_header _ _ _ Hi).
  - pose proof (skip_heights_ge _ _ _ Hi) as Hge. rewrite Forall_forall in *. intros x Hx.
    rewrite Hht by by constructor. specialize (Hge x (Hsub x Hx)). specialize (Hhs x Hx). lia.
  - pose proof (sk_level _ _ _ Hi). lia.
  - pose proof (sk_keys _ _ _ Hi) as Hk. rewrite Forall_forall in *. intros x Hx. rewrite Hkey by done. by apply Hk, Hsub.
  - destruct (sorted_mid _ _ _ _ (sk_sorted _ _ _ Hi)) as (_ & _ & Hs). eapply sorted_key_ext; [|exact Hs].
    intros x y Hx Hy. cbn. by rewrite !Hkey.
  - eapply bpath_frame; [|exact Hb]. intros x Hx. unfold bwd. by rewrite Hdel by by constructor.
  - done.
  - rewrite (sk_length _ _ _ Hi), !length_app. cbn. lia.
  - rewrite dom_delete_L, (same_info_dom _ _ Hsi), (sk_dom _ _ _ Hi). apply set_eq. intros x.
    rewrite elem_of_difference, elem_of_singleton, !elem_of_list_to_set, !elem_of_cons, !elem_of_app, elem_of_cons.
    rewrite elem_of_cons, elem_of_app in Htn. destruct (decide (x = t)) as [->|]; tauto.
  - intros x. rewrite dom_delete_L, (same_info_dom _ _ Hsi), elem_of_difference. intros [Hx _]. by apply (sk_brk _ _ _ Hi).
Qed.

(** The [backward] pointer behind the target and the tail. *)
Lemma delete_backward c2 pre t post : t ∈ dom c2 -> bpath c2 None (pre ++ t :: post) -> NoDup (pre ++ t :: post) ->
  fwd c2 0 t = Some (list.head post) -> (forall y, y ∈ post -> y ∈ dom c2) ->
  forall otail, otail = last (pre ++ t :: post) ->
  exists c3, (f ← get_fwd c2 t 0; d ← get_node c2 t;
    match f with
    | Some y => c ← set_backward c2 y (n_backward d); Ret (c, otail)
    | None => Ret (c2, n_backward d)
    end) = Ret (c3, last (pre ++ post)) /\ same_info c2 c3 /\ (forall k y, fwd c3 k y = fwd c2 k y) /\
    bpath c3 None (pre ++ post).
Proof.
  intros [d Hd]%elem_of_dom Hb Hnd Hf Hpost otail ->. rewrite (get_fwd_Ret _ _ _ _ Hf). cbn [mbind outcome_bind].
  unfold get_node. rewrite Hd. cbn [get_or mbind outcome_bind].
  assert (NoDup (pre ++ post)) as Hnd'.
  { apply (NoDup_Permutation_proper _ (t :: pre ++ post)) in Hnd; [|by rewrite Permutation_middle]. by apply NoDup_cons in Hnd as [_ ?]. }
  assert (n_backward d = last pre) as Hbt.
  { apply bpath_app in Hb as [_ [Hb _] ]. unfold bwd in Hb. rewrite Hd in Hb. cbn in Hb. rewrite Hb. by destruct (last pre). }
  destruct post as [|y post]; cbn [list.head].
  - exists c2. rewrite app_nil_r, Hbt. split_and!; try done. by apply bpath_app in Hb as [? _].
  - destruct (set_backward_spec c2 y (n_backward d)) as (c3 & -> & Hi3 & Hb3 & Hf3); [apply Hpost; constructor|].
    cbn [mbind outcome_bind]. exists c3. split_and!; [|done|done|].
    + rewrite !last_app, !last_cons. by destruct (last post).
    + eapply (bpath_delete c2 c3 pre (y :: post) t); [done| | |done].
      * intros z [= <-]. rewrite Hb3, decide_True by done. unfold bwd. by rewrite Hd.
      * intros x Hx Hne. rewrite Hb3, decide_False; [done|]. intros ->. done.
Qed.

Lemma wlcsl_delete_inv blks sl pre t post wlc dblk blk : skip_inv blks sl (pre ++ t :: post) ->
  blks !! dblk = Some blk -> reachable_key blks sl pre t post wlc (block_id blk) ->
  exists sl', wlcsl_delete blks sl wlc dblk = Ret (sl', 1) /\ skip_inv blks sl' (pre ++ post) /\
    w_header sl' = w_header sl /\ t ∉ dom (w_nodes sl') /\
    (forall x, x ∈ pre ++ post -> key_of blks (w_nodes sl') x = key_of blks (w_nodes sl) x).
Proof.
  intros Hi Hblk Hrk. destruct (reachable_search _ _ _ _ _ _ _ Hi Hrk) as (Hs & Hg & Ht).
  destruct (del_nodup blks sl pre t post Hi) as [Hnd Htn]. pose proof (sk_level _ _ _ Hi) as Hlv.
  unfold wlcsl_delete. rewrite Hblk. cbn [get_or mbind outcome_bind]. rewrite Hs. cbn [mbind outcome_bind].
  rewrite Hg. cbn [mbind outcome_bind]. rewrite Ht. cbn [mbind outcome_bind]. unfold wlcsl_node_delete.
  destruct (delete_unsplice blks sl pre t post Hi) as (c2 & -> & Hi2 & Hb2 & Hf2). cbn [mbind outcome_bind].
  assert (forall y, y ∈ w_header sl :: pre ++ t :: post -> y ∈ dom c2) as Hdom.
  { intros y Hy. rewrite (same_info_dom _ _ Hi2), (sk_dom _ _ _ Hi). by apply elem_of_list_to_set. }
  pose proof (sk_nodup _ _ _ Hi) as [_ Hndt]%NoDup_cons.
  pose proof (del_next blks sl pre t post Hi c2 Hf2) as Hft.
  destruct (delete_backward c2 pre t post) with (otail := w_tail sl) as (c3 & Hr3 & Hi3 & Hf3 & Hb3); try done.
  { apply Hdom. rewrite elem_of_cons, elem_of_app, elem_of_cons. tauto. }
  { eapply bpath_frame; [|apply (sk_back _ _ _ Hi)]. done. }
  { intros y Hy. apply Hdom. rewrite elem_of_cons, elem_of_app, elem_of_cons. tauto. }
  { apply (sk_tail _ _ _ Hi). }
  destruct (get_fwd c2 t 0) as [f|]; [|discriminate Hr3]. cbn [mbind outcome_bind] in Hr3 |- *.
  destruct (get_node c2 t) as [d|]; [|discriminate Hr3]. cbn [mbind outcome_bind] in Hr3 |- *. rewrite Hr3.
  cbn [mbind outcome_bind]. pose proof (same_info_trans _ _ _ Hi2 Hi3) as Hi13.
  assert (forall i, (i < WLC_SKIPLIST_MAX_LEVEL)%nat -> lpath c3 i (w_header sl) (tall (w_nodes sl) i (pre ++ post))) as Hp3.
  { apply (delete_paths blks sl pre t post Hi).
    - intros x _. by apply same_info_ht.
    - intros i y Hlt _. rewrite Hf3. by apply Hf2. }
  assert (Forall (fun x => (ht (w_nodes sl) x <= w_level sl)%nat) (pre ++ post)) as Hhs.
  { pose proof (sk_heights _ _ _ Hi) as Hh. rewrite Forall_forall in *. intros x Hx.
    destruct (Hh x); [rewrite elem_of_app, elem_of_cons in *; tauto|lia]. }
  destruct (shrink_level_spec c3 (w_header sl) (pre ++ post) (w_level sl) Hlv) as (level & -> & Hlr & Hhl).
  { intros i Hlt. rewrite (same_info_tall _ _ _ _ Hi13). by apply Hp3. }
  { eapply Forall_impl; [exact Hhs|]. intros x. cbn beta. by rewrite (same_info_ht _ _ x Hi13). }
  cbn [mbind outcome_bind]. unfold wlcsl_node_free, get_node. cbn [w_nodes].
  assert (t ∈ dom c3) as [dt Hdt]%elem_of_dom.
  { rewrite (same_info_dom _ _ Hi3). apply Hdom. rewrite elem_of_cons, elem_of_app, elem_of_cons. tauto. }
  rewrite Hdt. cbn [get_or mbind outcome_bind]. eexists. split; [done|]. cbn. split_and!.
  - apply (delete_keeps_inv blks sl pre t post c3 level); try done.
    eapply Forall_impl; [exact Hhl|]. intros x. cbn beta. by rewrite (same_info_ht _ _ x Hi13).
  - done.
  - rewrite dom_delete_L. set_solver.
  - intros x Hx. unfold key_of. rewrite lookup_delete_ne; [exact (same_info_key blks _ _ x Hi13)|].
    intros <-. rewrite elem_of_cons in Htn. tauto.
Qed.

(** ** Looking for a key that is not there *)

Lemma absent_split blks sl xs wlc : skip_inv blks sl xs ->
  exists pre post, xs = pre ++ post /\
    (forall x, x ∈ pre -> exists w b, key_of blks (w_nodes sl) x = Some (w, b) /\ w <= wlc) /\
    (forall x, x ∈ post -> exists w b, key_of blks (w_nodes sl) x = Some (w, b) /\ wlc < w).
Proof.
  intros Hi. pose proof (sk_sorted _ _ _ Hi) as Hs. pose proof (sk_keys _ _ _ Hi) as Hk. clear Hi.
  induction Hs as [|x xs Hs IH Hf].
  - exists [], []. split_and!; [done|by intros ? ?%not_elem_of_nil..].
  - apply Forall_cons in Hk as [ [ [w b] Hx ] Hk]. destruct (IH Hk) as (pre & post & -> & H1 & H2).
    destruct (Z.le_gt_cases w wlc) as [Hle|Hgt].
    + exists (x :: pre), post. split_and!; [done| |done]. intros y [->|Hy]%elem_of_cons; [by eauto|by apply H1].
    + exists [], (x :: pre ++ post). split_and!; [done|by intros ? ?%not_elem_of_nil|].
      intros y [->|Hy]%elem_of_cons; [exists w, b; split; [done|lia]|]. rewrite Forall_forall in Hf, Hk.
      destruct (Hk y Hy) as [ [w' b'] Hky]. specialize (Hf y Hy). rewrite Hx, Hky in Hf. cbn in Hf.
      exists w', b'. split; [done|lia].
Qed.

Lemma absent_search blks sl xs wlc bid : skip_inv blks sl xs ->
  (forall x, x ∈ xs -> key_of blks (w_nodes sl) x <> Some (wlc, bid)) ->
  exists y update f, search_down (w_nodes sl) (before_test blks (w_nodes sl) wlc (fun b => negb (b =? bid))) (w_level sl) (w_header sl) =
      Ret (y, update) /\ get_fwd (w_nodes sl) y 0 = Ret f /\ is_target blks (w_nodes sl) wlc bid f = Ret false.
Proof.
  intros Hi Habs. destruct (absent_split blks sl xs wlc Hi) as (pre & post & -> & H1 & H2).
  do 3 eexists. split_and!; [apply (skip_search blks sl pre post _ _ Hi)|by apply (fwd_head blks)|].
  - intros x Hx. destruct (H1 x Hx) as (w & b & Hk & Hle). specialize (Habs x ltac:(apply elem_of_app; by left)).
    rewrite Hk in *. cbn. zcase (w <? wlc); [done|]. assert (w = wlc) as -> by lia. rewrite Z.eqb_refl.
    zcase (b =? bid); [by subst|done].
  - intros i x Hx. apply head_Some_elem_of, elem_of_tall in Hx as [_ Hx]. destruct (H2 x Hx) as (w & b & Hk & Hlt).
    rewrite Hk. cbn. zcase (w <? wlc); [lia|]. zcase (w =? wlc); [lia|done].
  - destruct post as [|y post]; [done|]. cbn [list.head]. destruct (H2 y) as (w & b & Hk & Hlt); [constructor|].
    rewrite (is_target_key _ _ _ _ _ _ _ Hk). zcase (w =? wlc); [lia|done].
Qed.

(** ** Theorems *)

(** C40. Inserting a server into the load list, whatever height the random numbers
    give its node, as long as there is memory: it ends without touching a freed node,
    the skip list stays well formed at every level (forward pointers, back
    pointers, tail, length, order), the new node stands behind exactly the servers with a
    smaller (load, id) and before the others, and every other server keeps its
    place and its load. *)
Theorem wlcsl_insert_spec blks sl xs randoms L wlc dblk blk : skip_inv blks sl xs ->
  blks !! dblk = Some blk -> wlcsl_random_level randoms = Ret L ->
  exists sl' pre post, wlcsl_insert blks true randoms sl wlc dblk = Ret (sl', w_brk sl) /\ xs = pre ++ post /\
    skip_inv blks sl' (pre ++ w_brk sl :: post) /\
    key_of blks (w_nodes sl') (w_brk sl) = Some (wlc, block_id blk) /\
    (forall x, x ∈ xs -> key_of blks (w_nodes sl') x = key_of blks (w_nodes sl) x) /\
    (forall x, x ∈ xs -> x ∈ pre <-> key_test wlc (fun b => b <? block_id blk) (key_of blks (w_nodes sl) x) = true).
Proof.
  intros Hi Hb HL. destruct (wlcsl_insert_inv blks sl xs randoms L wlc dblk blk Hi Hb HL) as (sl' & pre & post & H1 & H2 & H3 & H4 & H5 & H6 & H7).
  exists sl', pre, post. split_and!; [done..|]. intros x Hx. split; [by apply H6|]. intros Ht. rewrite H2 in Hx. apply elem_of_app in Hx as [Hx|Hx]; [done|]. by rewrite (H7 x Hx) in Ht.
Qed.

(** [wlcsl_find] returns the node of the server when it is in the list and
    no server of the same load and a larger id has a taller node, and NULL when
    it is not in the list. *)
Theorem wlcsl_find_spec blks sl xs wlc dblk blk : skip_inv blks sl xs -> blks !! dblk = Some blk ->
  (forall pre t post, xs = pre ++ t :: post -> reachable_key blks sl pre t post wlc (block_id blk) ->
     wlcsl_find blks sl wlc dblk = Ret (Some t)) /\
  ((forall x, x ∈ xs -> key_of blks (w_nodes sl) x <> Some (wlc, block_id blk)) -> wlcsl_find blks sl wlc dblk = Ret None).
Proof.
  intros Hi Hb. unfold wlcsl_find. rewrite Hb. cbn [get_or mbind outcome_bind]. split.
  - intros pre t post -> Hrk. destruct (reachable_search _ _ _ _ _ _ _ Hi Hrk) as (-> & Hg & Ht). cbn [mbind outcome_bind].
    rewrite Hg. cbn [mbind outcome_bind]. by rewrite Ht.
  - intros Habs. destruct (absent_search _ _ _ _ _ Hi Habs) as (y & u & f & -> & Hg & Ht). cbn [mbind outcome_bind].
    rewrite Hg. cbn [mbind outcome_bind]. by rewrite Ht.
Qed.

(** [wlcsl_delete] under the same condition removes exactly the server's
    node and frees it; the list stays well formed. *)
Theorem wlcsl_delete_spec blks sl pre t post wlc dblk blk : skip_inv blks sl (pre ++ t :: post) ->
  blks !! dblk = Some blk -> reachable_key blks sl pre t post wlc (block_id blk) ->
  exists sl', wlcsl_delete blks sl wlc dblk = Ret (sl', 1) /\ skip_inv blks sl' (pre ++ post) /\ t ∉ dom (w_nodes sl').
Proof.
  intros Hi Hb Hrk. destruct (wlcsl_delete_inv _ _ _ _ _ _ _ _ Hi Hb Hrk) as (sl' & ? & ? & _ & ? & _). by exists sl'.
Qed.

(** The keys depend on the blocks' ids only. *)
Lemma key_of_blocks blks blks' c x : (forall b, block_id <$> blks' !! b = block_id <$> blks !! b) ->
  key_of blks' c x = key_of blks c x.
Proof.
  intros H. unfold key_of. destruct (c !! x) as [d|]; [|done]. cbn. destruct (n_dblk d) as [b|]; [|done]. cbn.
  specialize (H b). destruct (blks' !! b), (blks !! b); cbn in *; congruence.
Qed.

Lemma skip_inv_blocks blks blks' sl xs : (forall b, block_id <$> blks' !! b = block_id <$> blks !! b) ->
  skip_inv blks sl xs -> skip_inv blks' sl xs.
Proof.
  intros H [H1 H2 H3 H4 H5 H6 H7 H8 H9 H10 H11 H12]. split; try done.
  - eapply Forall_impl; [exact H6|]. intros x. cbn. by rewrite (key_of_blocks _ _ _ x H).
  - eapply sorted_key_ext; [|exact H7]. intros x y _ _. cbn. by rewrite !(key_of_blocks _ _ _ _ H).
Qed.

Lemma reachable_key_blocks blks blks' sl pre t post wlc bid : (forall b, block_id <$> blks' !! b = block_id <$> blks !! b) ->
  reachable_key blks sl pre t post wlc bid -> reachable_key blks' sl pre t post wlc bid.
Proof.
  intros Hid [H1 H2 H3]. split.
  - by rewrite (key_of_blocks _ _ _ _ Hid).
  - intros x Hx. rewrite (key_of_blocks _ _ _ _ Hid). by apply H2.
  - intros y b' Hy. rewrite (key_of_blocks _ _ _ _ Hid). by apply H3.
Qed.

Lemma key_of_Some blks c x w b : key_of blks c x = Some (w, b) ->
  exists d bl blk, c !! x = Some d /\ n_wlc d = w /\ n_dblk d = Some bl /\ blks !! bl = Some blk /\ block_id blk = b.
Proof.
  unfold key_of. destruct (c !! x) as [d|]; [|done]. cbn. destruct (n_dblk d) as [bl|] eqn:E; [|done]. cbn.
  destruct (blks !! bl) as [blk|] eqn:Eb; [|done]. cbn. intros [= <- <-]. by exists d, bl, blk.
Qed.

Lemma wlc_block_add_inv blks randoms L sl xs wctx blk : skip_inv blks sl xs ->
  blks !! wc_dblk wctx = Some blk -> wlcsl_random_level randoms = Ret L -> old_wlc wctx <> new_wlc wctx ->
  (forall rest, (exists pre t post, xs = pre ++ t :: post /\ rest = pre ++ post /\
                   reachable_key blks sl pre t post (old_wlc wctx) (block_id blk)) \/
                (rest = xs /\ forall x, x ∈ xs -> key_of blks (w_nodes sl) x <> Some (old_wlc wctx, block_id blk)) ->
   exists sl' xs', cluster_wlc_block_add blks true randoms sl wctx = Ret (sl', LFS_OK) /\ skip_inv blks sl' xs' /\
     (key_of blks (w_nodes sl') <$> xs') ≡ₚ Some (new_wlc wctx, block_id blk) :: (key_of blks (w_nodes sl) <$> rest)).
Proof.
  intros Hi Hb HL Hne rest Hcase. unfold cluster_wlc_block_add. rewrite (proj2 (Z.eqb_neq _ _) Hne).
  assert (exists sl1, (node ← wlcsl_find blks sl (old_wlc wctx) (wc_dblk wctx);
     match node with
     | Some n => d ← get_node (w_nodes sl) n; b ← get_or NullDeref (n_dblk d);
                 '(sl, _) ← wlcsl_delete blks sl (n_wlc d) b; Ret sl
     | None => Ret sl
     end) = Ret sl1 /\ skip_inv blks sl1 rest /\
     (forall x, x ∈ rest -> key_of blks (w_nodes sl1) x = key_of blks (w_nodes sl) x)) as (sl1 & Hr1 & Hi1 & Hk1).
  { unfold wlcsl_find. rewrite Hb. cbn [get_or mbind outcome_bind].
    destruct Hcase as [(pre & t & post & -> & -> & Hrk)|[-> Habs]].
    - destruct (reachable_search _ _ _ _ _ _ _ Hi Hrk) as (-> & Hg & Ht). cbn [mbind outcome_bind].
      rewrite Hg. cbn [mbind outcome_bind]. rewrite Ht. cbn [mbind outcome_bind]. unfold get_node.
      destruct (key_of_Some _ _ _ _ _ (rk_key _ _ _ _ _ _ _ Hrk)) as (d & bl & blk' & -> & Hw & Hd & Hbl & Hid).
      cbn [get_or mbind outcome_bind]. rewrite Hd, Hw. cbn [get_or mbind outcome_bind].
      rewrite <- Hid in Hrk. destruct (wlcsl_delete_inv _ _ _ _ _ _ _ _ Hi Hbl Hrk) as (sl1 & -> & Hi1 & _ & _ & Hk1).
      by exists sl1.
    - destruct (absent_search _ _ _ _ _ Hi Habs) as (y & u & f & -> & Hg & Ht). cbn [mbind outcome_bind].
      rewrite Hg. cbn [mbind outcome_bind]. rewrite Ht. by exists sl. }
  destruct (wlcsl_find _ _ _ _) as [node|]; [|discriminate Hr1]. cbn [mbind outcome_bind] in Hr1 |- *. rewrite Hr1.
  cbn [mbind outcome_bind].
  destruct (wlcsl_insert_inv blks sl1 rest randoms L (new_wlc wctx) _ blk Hi1 Hb HL)
    as (sl2 & pre & post & -> & -> & Hi2 & Hkn & Hko & _).
  cbn [mbind outcome_bind]. do 2 eexists. split; [done|]. split; [exact Hi2|].
  rewrite fmap_app, fmap_cons, Hkn, <- Permutation_middle, <- fmap_app. constructor.
  apply reflexive_eq, list_fmap_ext. intros i x Hx. apply list_elem_of_lookup_2 in Hx. by rewrite Hko, Hk1.
Qed.

(** A change of load: when the server is in the list under its old load
    (and can be found there) [cluster_wlc_block_add] moves it to the new load
    and leaves every other server as it was; when it is not in the list it is
    added. *)
Theorem cluster_wlc_block_add_spec blks randoms L sl xs wctx blk : skip_inv blks sl xs ->
  blks !! wc_dblk wctx = Some blk -> wlcsl_random_level randoms = Ret L -> old_wlc wctx <> new_wlc wctx ->
  (forall rest, (exists pre t post, xs = pre ++ t :: post /\ rest = pre ++ post /\
                   reachable_key blks sl pre t post (old_wlc wctx) (block_id blk)) \/
                (rest = xs /\ forall x, x ∈ xs -> key_of blks (w_nodes sl) x <> Some (old_wlc wctx, block_id blk)) ->
   exists sl' xs', cluster_wlc_block_add blks true randoms sl wctx = Ret (sl', LFS_OK) /\ skip_inv blks sl' xs' /\
     (key_of blks (w_nodes sl') <$> xs') ≡ₚ Some (new_wlc wctx, block_id blk) :: (key_of blks (w_nodes sl) <$> rest)).
Proof. apply wlc_block_add_inv. Qed.

Lemma write_block_get_inv blks sl xs now interval : skip_inv blks sl xs ->
  match xs with
  | [] => cluster_wlc_write_block_get now interval blks sl = Ret (blks, sl, None)
  | x :: _ => forall d b blk, w_nodes sl !! x = Some d -> n_dblk d = Some b -> blks !! b = Some blk ->
      now - last_heartbeat_time blk <= interval ->
      cluster_wlc_write_block_get now interval blks sl = Ret (blks, sl, Some b) /\
      forall y, y ∈ xs -> key_le (key_of blks (w_nodes sl) x) (key_of blks (w_nodes sl) y)
  end.
Proof.
  intros Hi. pose proof (fwd_head blks sl [] xs Hi) as Hf. change (pred_at _ _ [] 0) with (w_header sl) in Hf.
  unfold cluster_wlc_write_block_get. destruct xs as [|x xs].
  - destruct (size (w_nodes sl)); cbn; by rewrite Hf.
  - intros d b blk Hx Hd Hb Hfresh. split.
    + destruct (size (w_nodes sl)); cbn; rewrite Hf; cbn; unfold get_node; rewrite Hx; cbn; rewrite Hd; cbn; rewrite Hb; cbn;
        (zcase (interval <? now - last_heartbeat_time blk); [lia|done]).
    + intros y [->|Hy]%elem_of_cons.
      * unfold key_of. rewrite Hx. cbn. rewrite Hd. cbn. rewrite Hb. cbn. lia.
      * pose proof (sk_sorted _ _ _ Hi) as [_ Hs]%StronglySorted_inv. rewrite Forall_forall in Hs. by apply Hs.
Qed.

(** The server for a write: with a recent heartbeat of the first server of
    the list, [cluster_wlc_write_block_get] returns that server, its load is
    the least of all, and nothing changes; with an empty list it returns
    NULL. *)
Theorem cluster_wlc_write_block_get_spec blks sl xs now interval : skip_inv blks sl xs ->
  match xs with
  | [] => cluster_wlc_write_block_get now interval blks sl = Ret (blks, sl, None)
  | x :: _ => forall d b blk, w_nodes sl !! x = Some d -> n_dblk d = Some b -> blks !! b = Some blk ->
      now - last_heartbeat_time blk <= interval ->
      cluster_wlc_write_block_get now interval blks sl = Ret (blks, sl, Some b) /\
      forall y, y ∈ xs -> key_le (key_of blks (w_nodes sl) x) (key_of blks (w_nodes sl) y)
  end.
Proof. apply write_block_get_inv. Qed.

(** When the first server of the list has no recent heartbeat, its node is
    deleted and freed, and the walk then reads the freed node. *)
Theorem write_block_get_stale_head blks sl x xs now interval d b blk : skip_inv blks sl (x :: xs) ->
  w_nodes sl !! x = Some d -> n_dblk d = Some b -> blks !! b = Some blk ->
  reachable_key blks sl [] x xs (n_wlc d) (block_id blk) -> interval < now - last_heartbeat_time blk ->
  cluster_wlc_write_block_get now interval blks sl = Crash UseAfterFree.
Proof.
  intros Hi Hx Hd Hb Hrk Hstale. pose proof (fwd_head blks sl [] (x :: xs) Hi) as Hf. change (pred_at _ _ [] 0) with (w_header sl) in Hf.
  unfold cluster_wlc_write_block_get. pose proof (skip_size _ _ _ Hi) as Hsz. cbn in Hsz.
  destruct (size (w_nodes sl)) as [|fuel]; [lia|]. cbn [write_block_walk]. rewrite Hf. cbn [mbind outcome_bind list.head].
  unfold get_node at 1. rewrite Hx. cbn [get_or mbind outcome_bind]. rewrite Hd. cbn [get_or mbind outcome_bind]. rewrite Hb.
  cbn [get_or mbind outcome_bind]. zcase (interval <? now - last_heartbeat_time blk); [|lia].
  set (blks' := <[b := set_off_line blk]> blks).
  assert (forall b', block_id <$> blks' !! b' = block_id <$> blks !! b') as Hid.
  { intros b'. unfold blks'. rewrite lookup_insert. case_decide as E'; [subst b'; by rewrite Hb|done]. }
  assert (blks' !! b = Some (set_off_line blk)) as Hb' by (apply lookup_insert_eq).
  destruct (wlcsl_delete_inv blks' sl [] x xs (n_wlc d) b (set_off_line blk)) as (sl' & -> & _ & _ & Hgone & _).
  - by apply (skip_inv_blocks blks).
  - done.
  - by apply (reachable_key_blocks blks).
  - cbn [mbind outcome_bind]. apply not_elem_of_dom in Hgone.
    destruct fuel; cbn; unfold get_fwd, get_node; by rewrite Hgone.
Qed.

(** ** Instances *)

Definition demo_block (bid hb : Z) : datasevr_block :=
  mk_block 0 bid on_line [] [] master_server 0 0 1 0 0 0 0 0 0 hb 0.

Definition wdemo_blocks : gmap bloc datasevr_block :=
  {[ 0%nat := demo_block 7 1000; 1%nat := demo_block 9 1000; 2%nat := demo_block 8 1000 ]}.

(** The block 0 (id 7) with load 5 and one level, the block 1 (id 9) with load
    3 and two levels. *)
Definition wdemo : wlc_skiplist :=
  match (sl ← wlcsl_create true;
         '(sl, _) ← wlcsl_insert wdemo_blocks true [65535] sl 5 0;
         wlcsl_insert wdemo_blocks true [0; 65535] sl 3 1) with
  | Ret (sl, _) => sl
  | Crash _ => mk_wlc ∅ 0 0 None 0 0
  end.

Lemma wdemo_inv : skip_inv wdemo_blocks wdemo [2; 1]%nat.
Proof.
  split.
  - refine (bool_decide_unpack _ _). by vm_compute.
  - intros i Hi. unfold WLC_SKIPLIST_MAX_LEVEL in Hi.
    do 16 (destruct i as [|i]; [vm_compute; repeat split; reflexivity|]). exfalso. lia.
  - reflexivity.
  - refine (bool_decide_unpack _ _). by vm_compute.
  - vm_compute. lia.
  - repeat constructor; vm_compute; eauto.
  - repeat constructor.
  - vm_compute. repeat split.
  - reflexivity.
  - reflexivity.
  - refine (bool_decide_unpack (_ =@{gset nloc} _) _). by vm_compute.
  - change (set_Forall (fun x => x < w_brk wdemo)%nat (dom (w_nodes wdemo))).
    refine (bool_decide_unpack _ _). by vm_compute.
Qed.

Lemma wdemo_reachable : reachable_key wdemo_blocks wdemo [2]%nat 1 [] 5 7.
Proof.
  split; [reflexivity| |by intros ? ? ?%not_elem_of_nil].
  intros x Hx. apply list_elem_of_singleton in Hx as ->. vm_compute. discriminate.
Qed.

Lemma wlcsl_insert_spec_witness : exists sl' pre post,
  wlcsl_insert wdemo_blocks true [65535] wdemo 5 2 = Ret (sl', w_brk wdemo) /\ [2; 1]%nat = pre ++ post /\
  skip_inv wdemo_blocks sl' (pre ++ w_brk wdemo :: post) /\ key_of wdemo_blocks (w_nodes sl') (w_brk wdemo) = Some (5, 8).
Proof.
  destruct (wlcsl_insert_spec wdemo_blocks wdemo [2; 1]%nat [65535] 1 5 2 (demo_block 8 1000) wdemo_inv eq_refl eq_refl) as (sl' & pre & post & H1 & H2 & H3 & H4 & _).
  exists sl', pre, post. exact (conj H1 (conj H2 (conj H3 H4))).
Defined.

Lemma wlcsl_find_spec_witness :
  wlcsl_find wdemo_blocks wdemo 5 0 = Ret (Some 1%nat) /\ wlcsl_find wdemo_blocks wdemo 4 0 = Ret None.
Proof.
  split.
  - apply (wlcsl_find_spec wdemo_blocks wdemo [2; 1]%nat 5 0 (demo_block 7 1000) wdemo_inv eq_refl) with (pre := [2]%nat) (post := []);
      [reflexivity|exact wdemo_reachable].
  - apply (wlcsl_find_spec wdemo_blocks wdemo [2; 1]%nat 4 0 (demo_block 7 1000) wdemo_inv eq_refl).
    intros x Hx. repeat (apply elem_of_cons in Hx as [->|Hx]; [vm_compute; discriminate|]). by apply not_elem_of_nil in Hx.
Defined.

Lemma wlcsl_delete_spec_witness : exists sl', wlcsl_delete wdemo_blocks wdemo 5 0 = Ret (sl', 1) /\
  skip_inv wdemo_blocks sl' [2]%nat /\ 1%nat ∉ dom (w_nodes sl').
Proof.
  exact (wlcsl_delete_spec wdemo_blocks wdemo [2]%nat 1 [] 5 0 (demo_block 7 1000) wdemo_inv eq_refl wdemo_reachable).
Defined.

Lemma cluster_wlc_block_add_spec_witness : exists sl' xs',
  cluster_wlc_block_add wdemo_blocks true [65535] wdemo (mk_wlc_ctx 0 5 1) = Ret (sl', LFS_OK) /\
  skip_inv wdemo_blocks sl' xs' /\ (key_of wdemo_blocks (w_nodes sl') <$> xs') ≡ₚ [Some (1, 7); Some (3, 9)].
Proof.
  apply (cluster_wlc_block_add_spec wdemo_blocks [65535] 1 wdemo [2; 1]%nat (mk_wlc_ctx 0 5 1) (demo_block 7 1000) wdemo_inv
    eq_refl eq_refl) with (rest := [2]%nat); [done|].
  left. exists [2]%nat, 1%nat, []. split_and!; [done|done|exact wdemo_reachable].
Defined.

Lemma cluster_wlc_write_block_get_spec_witness :
  cluster_wlc_write_block_get 1010 30 wdemo_blocks wdemo = Ret (wdemo_blocks, wdemo, Some 1%nat) /\
  forall y, y ∈ [2; 1]%nat -> key_le (key_of wdemo_blocks (w_nodes wdemo) 2) (key_of wdemo_blocks (w_nodes wdemo) y).
Proof.
  eapply (cluster_wlc_write_block_get_spec wdemo_blocks wdemo [2; 1]%nat 1010 30 wdemo_inv); [reflexivity..|].
  cbn. lia.
Defined.

Lemma write_block_get_stale_head_witness : cluster_wlc_write_block_get 1031 30 wdemo_blocks wdemo = Crash UseAfterFree.
Proof.
  eapply (write_block_get_stale_head wdemo_blocks wdemo 2 [1]%nat 1031 30); [exact wdemo_inv|reflexivity..| |cbn; lia].
  split; [reflexivity|by intros ? ?%not_elem_of_nil|].
  intros y b Hy. apply list_elem_of_singleton in Hy as ->. vm_compute. discriminate.
Defined.

(** Two servers of equal load, the one with the larger id on a taller node:
    the search steps over the other one and does not find it, and a change of
    its load adds a second node for it. *)
Definition wtwins : wlc_skiplist :=
  match (sl ← wlcsl_create true;
         '(sl, _) ← wlcsl_insert wdemo_blocks true [65535] sl 5 0;
         wlcsl_insert wdemo_blocks true [0; 65535] sl 5 1) with
  | Ret (sl, _) => sl
  | Crash _ => mk_wlc ∅ 0 0 None 0 0
  end.

Lemma wlcsl_find_misses_twin :
  key_of wdemo_blocks (w_nodes wtwins) 1 = Some (5, 7) /\ wlcsl_find wdemo_blocks wtwins 5 0 = Ret None /\
  match cluster_wlc_block_add wdemo_blocks true [65535] wtwins (mk_wlc_ctx 0 5 6) with
  | Ret (sl, _) => w_length sl = 3
  | Crash _ => False
  end.
Proof. by vm_compute. Qed.
