(* ===== verification/ClusterDatasevr.v ===== *)
(** * Registering and finding data servers

    src/src/trackerserver/ts_cluster_datasevr.c: the volume table (Cluster.v)
    and the blocks of a volume (Datasevr.v) together.  A client-visible name is
    hashed with the function [hash_func] of hash.c. *)
From S2P Require Import Prelude Chains Datasevr Cluster.

Definition set_type (d : datasevr_block) (t : datasevr_type) : datasevr_block :=
  mk_block (parent_volume_id d) (block_id d) (state d) (map_info d) (ip_addr d) t (port d) (curr_conns d)
    (weight d) (heart_beat_interval d) (total_mb d) (free_mb d) (reg_time d) (started_time d)
    (last_sync_sequence d) (last_heartbeat_time d) (last_statreporttimestamp d).

(** The end of [__do_insert]: the first block of a volume becomes its master. *)
Definition __do_insert_block (s : store) (v : vloc) (dblk : bloc) : outcome (store * Z) :=
  vol ← get_volume s v;
  s ← (if (block_count vol =? 0) || (master_block_index vol =? -1)
       then d ← get_block s dblk;
            Ret (put_block (put_volume s v (set_master vol 0)) dblk (set_type d master_server))
       else Ret s);
  do_block_insert s v dblk.

Definition __do_insert (s : store) (cl : datasevr_cluster) (dv : option vloc) (dblk : bloc) :
    outcome (store * datasevr_cluster * Z) :=
  '(s, cl, dv) ←
    match dv with
    | Some v => Ret (s, cl, Some v)
    | None =>
        let '(s, v) := volume_new s in
        match v with
        | None => Ret (s, cl, None)
        | Some v =>
            d ← get_block s dblk;
            vol ← get_volume s v;
            '(s, cl, _) ← do_cluster_insert (put_volume s v (set_volume_id vol (parent_volume_id d))) cl v;
            Ret (s, cl, Some v)
        end
    end;
  match dv with
  | None => Ret (s, cl, LFS_ERROR)
  | Some v =>
      '(s, ret) ← __do_insert_block s v dblk;
      Ret (s, cl, ret)
  end.

(** The result of [__do_insert] is not used. *)
Definition cluster_datasevrblock_insert (s : store) (cl : datasevr_cluster) (dblk : bloc) :
    outcome (store * datasevr_cluster * Z) :=
  d ← get_block s dblk;
  dv ← do_cluster_find s cl (parent_volume_id d);
  '(s, cl, _) ← __do_insert s cl dv dblk;
  Ret (s, cl, LFS_OK).

Definition cluster_datasevrblock_byid_find (s : store) (cl : datasevr_cluster) (vid bid : Z) : outcome (option bloc) :=
  dv ← do_cluster_find s cl vid; do_block_find s dv bid.

Section Names.
Context (hash_func : bytes -> Z).

Definition cluster_datasevrvolume_find (s : store) (cl : datasevr_cluster) (vn : bytes) : outcome (option vloc) :=
  do_cluster_find s cl (hash_func vn).

Definition cluster_datasevrblock_find (s : store) (cl : datasevr_cluster) (vn bip : bytes) : outcome (option bloc) :=
  cluster_datasevrblock_byid_find s cl (hash_func vn) (hash_func bip).

(** The debug message reads the block it found. *)
Definition cluster_datasevrmasterblock_get (s : store) (cl : datasevr_cluster) (vn : bytes) : outcome (option bloc) :=
  dv ← do_cluster_find s cl (hash_func vn);
  match dv with
  | None => Ret None
  | Some v =>
      vol ← get_volume s v;
      if 0 <=? master_block_index vol then
        bs ← get_or NullDeref (blocks vol);
        e ← get_or OutOfBounds (zlookup bs (master_block_index vol));
        b ← get_or NullDeref e;
        _ ← get_block s b;
        Ret (Some b)
      else Ret None
  end.

(** The loop of [cluster_readdatasevrblock_get] from index [i]: the first block
    that is neither the master nor the last one read, has a recent heartbeat
    and is synchronised up to [sequence].  [now i] is the clock at entry [i]. *)
Fixpoint read_block_loop (s : store) (vol : datasevr_volume) (now : Z -> Z) (interval sequence i : Z) (bs : list (option bloc)) :
    outcome (option (Z * bloc)) :=
  match bs with
  | [] => Ret None
  | e :: bs' =>
      if (i =? master_block_index vol) || (i =? last_read_block_index vol) then
        read_block_loop s vol now interval sequence (i + 1) bs'
      else
        match e with
        | None => read_block_loop s vol now interval sequence (i + 1) bs'
        | Some b =>
            d ← get_block s b;
            if (now i - last_heartbeat_time d <=? interval) && (sequence <=? last_sync_sequence d) then Ret (Some (i, b))
            else read_block_loop s vol now interval sequence (i + 1) bs'
        end
  end.

(** When no slave qualifies the entry at [master_block_index] is taken, without
    a test of the index. *)
Definition cluster_readdatasevrblock_get (s : store) (cl : datasevr_cluster) (now : Z -> Z) (interval : Z) (vn : bytes) (sequence : Z) :
    outcome (store * option bloc) :=
  dv ← do_cluster_find s cl (hash_func vn);
  match dv with
  | None => Ret (s, None)
  | Some v =>
      vol ← get_volume s v;
      match blocks vol with
      | None => Ret (s, None)
      | Some bs =>
          r ← read_block_loop s vol now interval sequence 0 (take (Z.to_nat (block_count vol)) bs);
          match r with
          | Some (i, b) => Ret (put_volume s v (set_last_read vol i), Some b)
          | None => e ← get_or OutOfBounds (zlookup bs (master_block_index vol)); Ret (s, e)
          end
      end
  end.
End Names.

(** ** The membership a tracker state stands for *)

(** A volume whose blocks are [bs]: the first one is the master. *)
Definition volume_ok (s : store) (dv : datasevr_volume) (bs : list bloc) : Prop :=
  volume_blocks s dv bs /\ LFS_MAX_BLOCKS_EACH_VOLUME <= allocs_size dv /\ master_block_index dv = (if decide (bs = []) then -1 else 0).

(** [M]: the blocks of every volume, in the order in which they registered. *)
Definition members (s : store) (cl : datasevr_cluster) (M : gmap Z (list bloc)) : Prop :=
  exists P, cluster_inv s cl P /\
    (forall v vid, (v, vid) ∈ P -> exists dv bs, st_volumes s !! v = Some dv /\ M !! vid = Some bs /\ volume_ok s dv bs) /\
    (forall vid bs, M !! vid = Some bs -> exists v, (v, vid) ∈ P) /\
    (forall v dv, st_volumes s !! v = Some dv -> (v < st_brk s)%nat).

(** ** Lemmas *)

Lemma cluster_member s cl P v vid : cluster_inv s cl P -> (v, vid) ∈ P ->
  exists dv, st_volumes s !! v = Some dv /\ volume_id dv = vid.
Proof.
  intros [(pss & oss & Hf & _ & _ & Hp & Hold) _ _ _ _] Hin.
  assert (forall tab xss, Forall2 (vchain (st_volumes s)) tab xss -> (v, vid) ∈ vitems xss ->
            exists dv, st_volumes s !! v = Some dv /\ volume_id dv = vid) as Hk.
  { intros tab xss Hc ([v' d] & He & Hx)%list_elem_of_fmap. injection He as -> ->. exists d. split; [|done].
    apply (Forall2_chain_lookup _ _ _ _ Hc Hx). }
  rewrite <- Hp in Hin. apply elem_of_app in Hin as [Hin|Hin]; [|by eapply Hk].
  destruct (expanding cl).
  - destruct Hold as (olds & _ & Hfo & _). by eapply Hk.
  - subst oss. by apply not_elem_of_nil in Hin.
Qed.

Lemma members_find s cl M vid : members s cl M ->
  match M !! vid with
  | None => do_cluster_find s cl vid = Ret None
  | Some bs => exists v dv, do_cluster_find s cl vid = Ret (Some v) /\ st_volumes s !! v = Some dv /\
      volume_id dv = vid /\ volume_ok s dv bs
  end.
Proof.
  intros (P & Hi & Hv & Hd & _). destruct (cluster_find_inv s cl P vid Hi) as (r & Hr & Hcase).
  destruct (M !! vid) as [bs|] eqn:Hm.
  - destruct r as [v|]; [|by destruct (Hd vid bs Hm) as [v Hin%Hcase] ].
    destruct (Hv v vid Hcase) as (dv & bs' & Hdv & Hm' & Hok). assert (bs' = bs) as -> by congruence.
    destruct (cluster_member _ _ _ _ _ Hi Hcase) as (dv' & Hdv' & Hid). exists v, dv. split_and!; try done. congruence.
  - destruct r as [v|]; [|done]. destruct (Hv v vid Hcase) as (dv & bs' & _ & Hm' & _). congruence.
Qed.

Lemma block_find_members s cl M vid bid : members s cl M ->
  cluster_datasevrblock_byid_find s cl vid bid =
  Ret (bs ← M !! vid; list.head (base.filter (fun b => id_of s b = Some bid) bs)).
Proof.
  intros Hm. pose proof (members_find s cl M vid Hm) as Hf. unfold cluster_datasevrblock_byid_find.
  destruct (M !! vid) as [bs|]; cbn.
  - destruct Hf as (v & dv & -> & Hdv & _ & Hok). cbn [mbind outcome_bind]. by apply (find_spec s v dv bs), Hok.
  - by rewrite Hf.
Qed.

Lemma volume_ok_store s s' dv bs : (forall b, is_Some (st_blocks s !! b) -> is_Some (st_blocks s' !! b)) ->
  volume_ok s dv bs -> volume_ok s' dv bs.
Proof. intros Hs (H1 & H2 & H3). split_and!; [|done|done]. eapply volume_blocks_store; [|done]. intros b _. apply Hs. Qed.


(** ** Registration *)

(** Adding a block to a volume of the cluster; the array may have to grow. *)
Lemma insert_block_ok s v dv bs b d : st_volumes s !! v = Some dv -> volume_ok s dv bs -> st_blocks s !! b = Some d ->
  exists s' r, __do_insert_block s v b = Ret (s', r) /\ st_brk s' = st_brk s /\
    ((exists dv', r = LFS_OK /\ st_volumes s' = <[v := dv']> (st_volumes s) /\ volume_ok s' dv' (bs ++ [b]) /\
        next dv' = next dv /\ volume_id dv' = volume_id dv /\
        st_blocks s' = <[b := (if decide (bs = []) then set_type d master_server else d)]> (st_blocks s)) \/
     (r = LFS_ERROR /\ bs <> [] /\ st_volumes s' = st_volumes s /\ st_blocks s' = st_blocks s /\
        st_oracle s (st_tick s) = false)).
Proof.
  intros Hv (Hb & Ha & Hm) Hd. unfold __do_insert_block.
  assert (get_volume s v = Ret dv) as -> by (unfold get_volume; by rewrite Hv). cbn [mbind outcome_bind].
  pose proof Hb as (arr & Harr & Hl & Hc & Hle & Ht & Hf).
  unfold LFS_MAX_BLOCKS_EACH_VOLUME in Ha.
  assert ((block_count dv =? 0) || (master_block_index dv =? -1) = bool_decide (bs = [])) as ->.
  { rewrite Hm, Hc. by destruct bs. }
  case_bool_decide as Hbs.
  - subst bs. assert (get_block s b = Ret d) as -> by (unfold get_block; by rewrite Hd). cbn [mbind outcome_bind].
    set (s1 := put_block _ _ _).
    destruct (insert_spec s1 v (set_master dv 0) [] b) as (s' & r & -> & Hs & Hr & Hbrk);
      [cbn; by rewrite lookup_insert_eq|by exists arr|cbn; lia|cbn; by rewrite lookup_insert_eq|].
    exists s', r. split; [done|]. split; [done|].
    destruct Hr as [(-> & dv' & Hsv & Hok & Hn & Hid & Hmi & Hal)|(-> & _ & _ & Hbad)]; [left|cbn in *; lia].
    exists dv'. split_and!; try done; cbn in *.
    + by rewrite Hsv, insert_insert_eq.
    + unfold volume_ok, LFS_MAX_BLOCKS_EACH_VOLUME. split_and!; [done|lia|done].
  - cbn [mbind outcome_bind].
    destruct (insert_spec s v dv bs b Hv Hb ltac:(lia) ltac:(by rewrite Hd)) as (s' & r & -> & Hs & Hr & Hbrk).
    exists s', r. split; [done|]. split; [done|]. rewrite (decide_False (P := bs = [])) by done.
    destruct Hr as [(-> & dv' & Hsv & Hok & Hn & Hid & Hmi & Hal)|(-> & Hsv & Ho & _)]; [left|by right].
    exists dv'. split_and!; try done.
    + unfold volume_ok, LFS_MAX_BLOCKS_EACH_VOLUME. split_and!; [done|lia|].
      rewrite Hmi, Hm, !decide_False; try done. by destruct bs.
    + by rewrite Hs, insert_id.
Qed.

(** A volume of the cluster gets a new list of blocks. *)
Lemma members_update s s' cl M P v vid dv dv' bs' :
  cluster_inv s cl P -> (v, vid) ∈ P ->
  (forall w wid, (w, wid) ∈ P -> w <> v -> exists d bs, st_volumes s !! w = Some d /\ M !! wid = Some bs /\ volume_ok s d bs) ->
  (forall wid bs, M !! wid = Some bs -> wid = vid \/ exists w, (w, wid) ∈ P) ->
  (forall w d, st_volumes s !! w = Some d -> (w < st_brk s)%nat) ->
  st_volumes s !! v = Some dv -> st_volumes s' = <[v := dv']> (st_volumes s) -> st_brk s' = st_brk s ->
  next dv' = next dv -> volume_id dv' = volume_id dv -> volume_ok s' dv' bs' ->
  (forall b, is_Some (st_blocks s !! b) -> is_Some (st_blocks s' !! b)) ->
  members s' cl (<[vid := bs']> M).
Proof.
  intros Hi Hin Ho Hd Hbrk Hv Hs' Hb' Hn Hid Hok Hbs.
  assert (forall w wid, (w, wid) ∈ P -> w <> v -> wid <> vid) as Hne.
  { intros w wid Hw Hwv ->. pose proof (ci_ids _ _ _ Hi) as Hnd.
    apply list_elem_of_lookup in Hw as [i Hw], Hin as [j Hin].
    assert (i = j) as <- by (eapply NoDup_lookup; [exact Hnd| |]; rewrite list_lookup_fmap; [by rewrite Hw|by rewrite Hin]).
    congruence. }
  exists P. split_and!.
  - apply (cluster_inv_new (put_volume s v dv')); [by eapply cluster_inv_volume|]. intros w d Hw. by rewrite Hs'.
  - intros w wid Hw. destruct (decide (w = v)) as [->|Hwv].
    + assert (wid = vid) as ->.
      { destruct (cluster_member _ _ _ _ _ Hi Hw) as (d1 & H1 & <-), (cluster_member _ _ _ _ _ Hi Hin) as (d2 & H2 & <-). congruence. }
      exists dv', bs'. by rewrite Hs', !lookup_insert_eq.
    + destruct (Ho w wid Hw Hwv) as (d & bs & H1 & H2 & H3). exists d, bs.
      rewrite Hs', lookup_insert_ne by done. pose proof (Hne w wid Hw Hwv). rewrite lookup_insert_ne by done.
      split_and!; try done. by eapply volume_ok_store.
  - intros wid bs. rewrite lookup_insert. case_decide as E; [subst wid; by exists v|].
    intros Hm. destruct (Hd _ _ Hm) as [->|?]; done.
  - intros w d. rewrite Hs', Hb', lookup_insert. case_decide as E; [subst w; intros _; by eapply Hbrk|apply Hbrk].
Qed.

(** Registering with a volume that exists. *)
Lemma members_add s cl M P v vid dv bs b d :
  cluster_inv s cl P -> (v, vid) ∈ P ->
  (forall w wid, (w, wid) ∈ P -> w <> v -> exists d bs, st_volumes s !! w = Some d /\ M !! wid = Some bs /\ volume_ok s d bs) ->
  (forall wid bs, M !! wid = Some bs -> wid = vid \/ exists w, (w, wid) ∈ P) ->
  (forall w d, st_volumes s !! w = Some d -> (w < st_brk s)%nat) ->
  st_volumes s !! v = Some dv -> volume_ok s dv bs -> st_blocks s !! b = Some d ->
  exists s' r, __do_insert_block s v b = Ret (s', r) /\ st_brk s' = st_brk s /\
    ((members s' cl (<[vid := bs ++ [b]]> M) /\
        st_blocks s' = <[b := (if decide (bs = []) then set_type d master_server else d)]> (st_blocks s)) \/
     (bs <> [] /\ members s' cl (<[vid := bs]> M) /\ st_blocks s' = st_blocks s /\ exists n, st_oracle s n = false)).
Proof.
  intros Hi Hin Ho Hd Hbrk Hv Hok Hb.
  destruct (insert_block_ok s v dv bs b d Hv Hok Hb) as (s' & r & Hr & Hb' & Hcase). exists s', r. split; [done|]. split; [done|].
  destruct Hcase as [(dv' & _ & Hs & Hok' & Hn & Hid & Hbl)|(_ & Hne & Hs & Hbl & Hor)]; [left|right].
  - split; [|done]. eapply (members_update s s' cl M P v vid dv dv'); eauto.
    intros b'. rewrite Hbl, lookup_insert. destruct (decide (b = b')); [by eexists|done].
  - split_and!; [done| |done|by eexists].
    eapply (members_update s s' cl M P v vid dv dv); eauto; [by rewrite insert_id| |by rewrite Hbl].
    eapply volume_ok_store; [|done]. by rewrite Hbl.
Qed.

Definition fresh_volume : datasevr_volume :=
  mk_volume None 0 0 0 LFS_MAX_BLOCKS_EACH_VOLUME (-1) 0 0 (Some (replicate (Z.to_nat LFS_MAX_BLOCKS_EACH_VOLUME) None)).

Lemma volume_new_cases s : exists s1 r, volume_new s = (s1, r) /\ st_blocks s1 = st_blocks s /\ st_oracle s1 = st_oracle s /\
  match r with
  | Some v => v = st_brk s /\ st_volumes s1 = <[v := fresh_volume]> (st_volumes s) /\ st_brk s1 = S v
  | None => (st_brk s <= st_brk s1)%nat /\ (exists n, st_oracle s n = false) /\
      (st_volumes s1 = st_volumes s \/ exists d, st_volumes s1 = <[st_brk s := d]> (st_volumes s) /\ st_brk s1 = S (st_brk s))
  end.
Proof.
  unfold volume_new, s_malloc. cbn. destruct (st_oracle s (st_tick s)) eqn:E1; cbn.
  - destruct (st_oracle s (S (st_tick s))) eqn:E2; cbn; do 2 eexists; (split; [done|]); split_and!; try done; cbn.
    + by rewrite insert_insert_eq.
    + lia.
    + by eexists.
    + right. by eexists.
  - do 2 eexists. split; [done|]. split_and!; try done; cbn; eauto.
Qed.

(** The store may gain objects that are not in the cluster. *)
Lemma members_store s s1 cl M : members s cl M -> st_blocks s1 = st_blocks s ->
  (forall v d, st_volumes s !! v = Some d -> st_volumes s1 !! v = Some d) ->
  (forall v d, st_volumes s1 !! v = Some d -> (v < st_brk s1)%nat) -> members s1 cl M.
Proof.
  intros (P & Hi & Hv & Hd & _) Hb1 Hext Hbrk. exists P. split_and!; [by eapply cluster_inv_new| |done|done].
  intros w wid Hin. destruct (Hv w wid Hin) as (dw & bs & H1 & H2 & H3). exists dw, bs. split_and!; [by apply Hext|done|].
  eapply volume_ok_store; [|done]. by rewrite Hb1.
Qed.

(** [volume_new] has failed, possibly after it allocated the volume. *)
Lemma members_leak s s1 cl M : members s cl M -> st_blocks s1 = st_blocks s -> (st_brk s <= st_brk s1)%nat ->
  (st_volumes s1 = st_volumes s \/ exists d, st_volumes s1 = <[st_brk s := d]> (st_volumes s) /\ st_brk s1 = S (st_brk s)) ->
  members s1 cl M.
Proof.
  intros Hm Hb1 Hk1 Hs1. pose proof Hm as (_ & _ & _ & _ & Hbrk). apply (members_store s); [done|done| |]; intros w dw Hw;
    (destruct Hs1 as [Hs1|(dd & Hs1 & Hk)]; rewrite Hs1 in *; [by eauto using Nat.lt_le_trans|]).
  - rewrite lookup_insert_ne; [done|]. specialize (Hbrk w dw Hw). lia.
  - rewrite lookup_insert in Hw. case_decide as E; [lia|]. specialize (Hbrk w dw Hw). lia.
Qed.

(** The state after a registration: the block is the last one of its volume, or
    an allocation has failed and the membership is unchanged. *)
Definition registered (s : store) (M : gmap Z (list bloc)) (b : bloc) (d : datasevr_block) (s' : store) (cl' : datasevr_cluster) : Prop :=
  let bs := default [] (M !! parent_volume_id d) in
  (st_brk s <= st_brk s')%nat /\
  ((members s' cl' (<[parent_volume_id d := bs ++ [b]]> M) /\
      st_blocks s' = <[b := (if decide (bs = []) then set_type d master_server else d)]> (st_blocks s)) \/
   (members s' cl' M /\ st_blocks s' = st_blocks s /\ exists n, st_oracle s n = false)).

(** Registering the first block of a volume. *)
Lemma insert_new_volume s cl M b d : members s cl M -> st_blocks s !! b = Some d -> M !! parent_volume_id d = None ->
  (expanding cl = true -> Z.testbit (parent_volume_id d) (hash_size cl - 1) = false) ->
  exists s' cl' r, __do_insert s cl None b = Ret (s', cl', r) /\ registered s M b d s' cl'.
Proof.
  intros Hm Hb HM Hbit. unfold registered. rewrite HM. cbn [default]. pose proof Hm as (P & Hi & Hv & Hd & Hbrk).
  set (vid := parent_volume_id d) in *. unfold __do_insert.
  destruct (volume_new_cases s) as (s1 & rv & -> & Hb1 & Ho1 & Hcase). destruct rv as [v|]; cycle 1.
  { destruct Hcase as (Hk1 & Hor & Hs1). cbn [mbind outcome_bind]. do 3 eexists. split; [done|]. split; [done|]. right. split_and!; [|done|done].
    by apply (members_leak s s1). }
  destruct Hcase as (-> & Hs1 & Hk1).
  assert (get_block s1 b = Ret d) as -> by (unfold get_block; by rewrite Hb1, Hb). cbn [mbind outcome_bind].
  assert (get_volume s1 (st_brk s) = Ret fresh_volume) as -> by (unfold get_volume; by rewrite Hs1, lookup_insert_eq).
  cbn [mbind outcome_bind]. fold vid. set (dv := set_volume_id fresh_volume vid). set (s2 := put_volume s1 _ dv).
  assert (forall v d, st_volumes s !! v = Some d -> st_volumes s2 !! v = Some d) as Hext.
  { intros w dw Hw. cbn. rewrite Hs1, !lookup_insert_ne; [done| |]; specialize (Hbrk w dw Hw); lia. }
  destruct (cluster_insert_inv s2 cl P (st_brk s) dv) as (s3 & cl3 & -> & Hi3 & n & ->).
  { by eapply cluster_inv_new. }
  { cbn. by rewrite lookup_insert_eq. }
  { intros ([w wid] & Hw & Hin)%list_elem_of_fmap. cbn in Hw. subst w.
    destruct (cluster_member _ _ _ _ _ Hi Hin) as (dw & Hw & _). specialize (Hbrk _ _ Hw). lia. }
  { intros ([w wid] & Hw & Hin)%list_elem_of_fmap. cbn in Hw. subst wid. destruct (Hv _ _ Hin) as (? & ? & _ & HM' & _). cbn in HM'. fold vid in HM'. congruence. }
  { done. }
  cbn [mbind outcome_bind]. change (volume_id dv) with vid in Hi3. set (s3 := put_volume s2 _ _) in *.
  destruct (members_add s3 cl3 M _ (st_brk s) vid (set_vnext dv n) [] b d Hi3) as (s' & ret & -> & Hk & Hcase).
  { apply list_elem_of_here. }
  { intros w wid [[= -> ->]|Hin]%elem_of_cons Hne; [done|]. destruct (Hv w wid Hin) as (dw & bs & H1 & H2 & H3).
    exists dw, bs. split_and!; [|done|eapply volume_ok_store; [|done]; cbn; by rewrite Hb1].
    unfold s3. cbn [put_volume st_volumes]. rewrite lookup_insert_ne by done. by apply Hext. }
  { intros wid bs HM'. right. destruct (Hd wid bs HM') as [w Hin]. exists w. by apply list_elem_of_further. }
  { intros w dw. unfold s3, s2. cbn. rewrite Hk1, Hs1, !insert_insert_eq, lookup_insert. case_decide as E; [lia|].
    intros Hw%Hbrk. lia. }
  { unfold s3. cbn. by rewrite lookup_insert_eq. }
  { split_and!; [|done|done]. by exists (replicate 3 None). }
  { cbn. by rewrite Hb1. }
  cbn [mbind outcome_bind]. do 3 eexists. split; [done|]. split; [rewrite Hk; cbn; lia|]. left. cbn in Hcase. rewrite Hb1 in Hcase.
  destruct Hcase as [?|(? & _)]; done.
Qed.

Lemma block_insert_members s cl M b d : members s cl M -> st_blocks s !! b = Some d ->
  (M !! parent_volume_id d = None -> expanding cl = true -> Z.testbit (parent_volume_id d) (hash_size cl - 1) = false) ->
  exists s' cl', cluster_datasevrblock_insert s cl b = Ret (s', cl', LFS_OK) /\ registered s M b d s' cl'.
Proof.
  intros Hm Hb Hbit. pose proof Hm as (P & Hi & Hv & Hd & Hbrk).
  unfold cluster_datasevrblock_insert. assert (get_block s b = Ret d) as -> by (unfold get_block; by rewrite Hb).
  cbn [mbind outcome_bind]. destruct (cluster_find_inv s cl P (parent_volume_id d) Hi) as (r & -> & Hr).
  cbn [mbind outcome_bind]. destruct r as [v|].
  - destruct (Hv v _ Hr) as (dv & bs & Hdv & HM & Hok). unfold __do_insert. cbn [mbind outcome_bind].
    destruct (members_add s cl M P v _ dv bs b d Hi Hr ltac:(eauto) ltac:(eauto) Hbrk Hdv Hok Hb)
      as (s' & ret & -> & Hk & Hcase). cbn [mbind outcome_bind]. exists s', cl. split; [done|].
    unfold registered. rewrite HM. cbn [default]. split; [lia|].
    destruct Hcase as [?|(_ & ? & ? & ?)]; [by left|right]. split_and!; try done. by rewrite insert_id in *.
  - assert (M !! parent_volume_id d = None) as HM.
    { apply eq_None_not_Some. intros [bs HM]. destruct (Hd _ bs HM) as [v Hin]. by apply (Hr v). }
    destruct (insert_new_volume s cl M b d Hm Hb HM (Hbit HM)) as (s' & cl' & r & -> & ?). by eauto.
Qed.

(** The volume that the wrong mask sends past the old array. *)
Lemma insert_new_volume_overrun s cl M b d s1 v : members s cl M -> st_blocks s !! b = Some d ->
  expanding cl = true -> Z.testbit (parent_volume_id d) (hash_size cl - 1) = true -> volume_new s = (s1, Some v) ->
  __do_insert s cl None b = Crash OutOfBounds.
Proof.
  intros (P & Hi & _ & _ & Hbrk) Hb He Hbit Hn. destruct (volume_new_cases s) as (s1' & rv & Hn' & Hb1 & _ & Hcase).
  rewrite Hn' in Hn. injection Hn as -> ->. destruct Hcase as (-> & Hs1 & _). unfold __do_insert. rewrite Hn'.
  assert (get_block s1 b = Ret d) as -> by (unfold get_block; by rewrite Hb1, Hb). cbn [mbind outcome_bind].
  assert (get_volume s1 (st_brk s) = Ret fresh_volume) as -> by (unfold get_volume; by rewrite Hs1, lookup_insert_eq).
  cbn [mbind outcome_bind]. set (dv := set_volume_id _ _).
  rewrite (cluster_insert_overrun _ cl P _ dv); [done| |cbn; by rewrite lookup_insert_eq|done|done].
  eapply cluster_inv_new; [done|]. intros w dw Hw. cbn. rewrite Hs1, !lookup_insert_ne; [done| |]; specialize (Hbrk w dw Hw); lia.
Qed.

(** A registration that returns. *)
Lemma block_insert_returns s cl M b d s' cl' r : members s cl M -> st_blocks s !! b = Some d ->
  cluster_datasevrblock_insert s cl b = Ret (s', cl', r) -> registered s M b d s' cl'.
Proof.
  intros Hm Hb Hr. destruct (decide (M !! parent_volume_id d = None /\ expanding cl = true /\
    Z.testbit (parent_volume_id d) (hash_size cl - 1) = true)) as [(HM & He & Hbit)|Hno].
  - unfold cluster_datasevrblock_insert in Hr. assert (get_block s b = Ret d) as E by (unfold get_block; by rewrite Hb).
    rewrite E in Hr. cbn [mbind outcome_bind] in Hr. pose proof (members_find s cl M (parent_volume_id d) Hm) as Hf.
    rewrite HM in Hf. rewrite Hf in Hr. cbn [mbind outcome_bind] in Hr.
    destruct (volume_new_cases s) as (s1 & rv & Hn & Hb1 & _ & Hcase). destruct rv as [v|].
    { by rewrite (insert_new_volume_overrun s cl M b d s1 v Hm Hb He Hbit Hn) in Hr. }
    unfold __do_insert in Hr. rewrite Hn in Hr. cbn in Hr. injection Hr as <- <- <-.
    destruct Hcase as (Hk & Hor & Hs1). split; [done|]. right. split_and!; [|done|done]. by apply (members_leak s s1).
  - destruct (block_insert_members s cl M b d Hm Hb) as (s2 & cl2 & Hr' & Hreg).
    { intros HM He. destruct (Z.testbit _ _) eqn:E; [|done]. exfalso. by apply Hno. }
    rewrite Hr in Hr'. by injection Hr' as -> -> _.
Qed.

(** ** Objects outside the cluster *)

Lemma members_blocks s s' cl M : members s cl M -> st_volumes s' = st_volumes s -> (st_brk s <= st_brk s')%nat ->
  (forall b, is_Some (st_blocks s !! b) -> is_Some (st_blocks s' !! b)) -> members s' cl M.
Proof.
  intros (P & Hi & Hv & Hd & Hbrk) Hs Hk Hb. exists P. split_and!; [|intros w wid Hin|done|].
  - eapply cluster_inv_new; [done|]. intros w d. by rewrite Hs.
  - destruct (Hv w wid Hin) as (dw & bs & H1 & H2 & H3). exists dw, bs. rewrite Hs. split_and!; try done.
    by eapply volume_ok_store.
  - intros w d. rewrite Hs. intros Hw%Hbrk. lia.
Qed.

Lemma put_block_members s cl M b d : members s cl M -> members (put_block s b d) cl M.
Proof.
  intros Hm. eapply members_blocks; [done|done|done|]. intros b' Hb'. cbn. rewrite lookup_insert. by case_decide.
Qed.

Lemma insert_returns_ok s cl b s' cl' r : cluster_datasevrblock_insert s cl b = Ret (s', cl', r) -> r = LFS_OK.
Proof.
  unfold cluster_datasevrblock_insert. intros H. bind_inv H. destruct (do_cluster_find _ _ _); cbn in H; [|done].
  destruct (__do_insert _ _ _ _) as [ [ [? ?] ?]|]; cbn in H; [|done]. by simplify_eq.
Qed.

Lemma block_new_members s cl M s1 ob : members s cl M -> block_new s = (s1, ob) -> members s1 cl M.
Proof.
  intros Hm Hb. unfold block_new, s_malloc in Hb. destruct (st_oracle s (st_tick s)); simplify_eq.
  - eapply members_blocks; [done|done|cbn; lia|]. intros b Hb. cbn. rewrite lookup_insert. by case_decide.
  - by eapply members_blocks.
Qed.

(** The blocks of a volume are allocated. *)
Lemma members_allocated s cl M vid bs b : members s cl M -> M !! vid = Some bs -> b ∈ bs -> is_Some (st_blocks s !! b).
Proof.
  intros (P & _ & Hv & Hd & _) HM Hb. destruct (Hd vid bs HM) as [v Hin].
  destruct (Hv v vid Hin) as (dv & bs' & _ & HM' & (arr & _ & _ & _ & _ & _ & Hf) & _).
  assert (bs' = bs) as -> by congruence. rewrite Forall_forall in Hf. by apply Hf.
Qed.

Lemma do_cluster_insert_frame s cl v s' cl' r : do_cluster_insert s cl v = Ret (s', cl', r) ->
  expanding cl' = expanding cl /\ st_oracle s' = st_oracle s.
Proof.
  unfold do_cluster_insert. intros H. bind_inv H.
  destruct (expanding cl && _); cbn [mbind outcome_bind] in H; ret_inv H; simplify_eq.
  all: repeat lazymatch goal with E : mbind _ _ = Ret _ |- _ => ret_inv E; simplify_eq | E : (if _ then _ else _) = Ret _ |- _ => ret_inv E; simplify_eq end.
  all: cbn; try by case_match.
  all: split; [|done]. all: unfold __cluster_start_expand; by repeat case_match.
Qed.

Lemma insert_block_frame s v b s' r : __do_insert_block s v b = Ret (s', r) -> st_oracle s' = st_oracle s.
Proof.
  unfold __do_insert_block, do_block_insert, __datasevrvolume_insert, __datasevrvolume_resize, s_malloc.
  intros H. ret_inv H; simplify_eq; try done.
  all: repeat lazymatch goal with E : mbind _ _ = Ret _ |- _ => ret_inv E; simplify_eq | E : (if _ then _ else _) = Ret _ |- _ => ret_inv E; simplify_eq end.
  all: done.
Qed.

(** A registration neither starts a migration nor changes the memory to come. *)
Lemma insert_frame s cl b s' cl' r : cluster_datasevrblock_insert s cl b = Ret (s', cl', r) ->
  expanding cl' = expanding cl /\ st_oracle s' = st_oracle s.
Proof.
  unfold cluster_datasevrblock_insert, __do_insert. intros H.
  destruct (get_block s b) as [d|]; cbn [mbind outcome_bind] in H; [|done].
  destruct (do_cluster_find _ _ _) as [ [v|]|]; cbn [mbind outcome_bind] in H; [| |done].
  - destruct (__do_insert_block s v b) as [ [s1 r1]|] eqn:E; cbn [mbind outcome_bind] in H; [|done]. simplify_eq.
    split; [done|by eapply insert_block_frame].
  - destruct (volume_new_cases s) as (s1 & rv & Hn & _ & Ho & _). rewrite Hn in H.
    destruct rv as [v|]; cbn [mbind outcome_bind] in H; [|by simplify_eq].
    destruct (get_block s1 b) as [d1|]; cbn [mbind outcome_bind] in H; [|done].
    destruct (get_volume s1 v) as [vol|]; cbn [mbind outcome_bind] in H; [|done].
    destruct (do_cluster_insert _ _ _) as [ [ [s2 cl2] r2]|] eqn:Ei; cbn [mbind outcome_bind] in H; [|done].
    destruct (__do_insert_block s2 v b) as [ [s3 r3]|] eqn:Eb; cbn [mbind outcome_bind] in H; [|done]. simplify_eq.
    destruct (do_cluster_insert_frame _ _ _ _ _ _ Ei) as [-> Ho2]. split; [done|].
    by rewrite (insert_block_frame _ _ _ _ _ Eb), Ho2.
Qed.

(** ** Reading *)

(** What the tracker requires of a slave it sends a reader to. *)
Definition readable (s : store) (vol : datasevr_volume) (now : Z -> Z) (interval sequence i : Z) (b : bloc) : bool :=
  negb ((i =? master_block_index vol) || (i =? last_read_block_index vol)) &&
  match st_blocks s !! b with
  | Some d => (now i - last_heartbeat_time d <=? interval) && (sequence <=? last_sync_sequence d)
  | None => false
  end.

(** The block that a reader is sent to, with what becomes of the volume [v]: the
    first slave of [bs] that is readable, which then is the one read last, or the
    master [m]. *)
Definition chosen (s s' : store) (v : vloc) (vol : datasevr_volume) (now : Z -> Z) (interval sequence : Z) (m : bloc) (bs : list bloc) (b : bloc) : Prop :=
  let ok i b := readable s vol now interval sequence (Z.of_nat (S i)) b in
  (exists i, bs !! i = Some b /\ ok i b = true /\ (forall j b', (j < i)%nat -> bs !! j = Some b' -> ok j b' = false) /\
     s' = put_volume s v (set_last_read vol (Z.of_nat (S i)))) \/
  (b = m /\ (forall i b', bs !! i = Some b' -> ok i b' = false) /\ s' = s).

Lemma read_block_loop_spec s vol now interval sequence i bs : Forall (fun b => is_Some (st_blocks s !! b)) bs ->
  exists r, read_block_loop s vol now interval sequence i (Some <$> bs) = Ret r /\
    match r with
    | Some (j, b) => exists k, j = i + Z.of_nat k /\ bs !! k = Some b /\ readable s vol now interval sequence j b = true /\
        forall k' b', (k' < k)%nat -> bs !! k' = Some b' -> readable s vol now interval sequence (i + Z.of_nat k') b' = false
    | None => forall k b, bs !! k = Some b -> readable s vol now interval sequence (i + Z.of_nat k) b = false
    end.
Proof.
  intros Hf. revert i. induction Hf as [|b bs [d Hd] _ IH]; intros i; [by exists None|].
  destruct (IH (i + 1)) as (r & Hr & Hcase). cbn [fmap list_fmap read_block_loop].
  assert (forall r', r' = r -> readable s vol now interval sequence i b = false -> match r' with
      | Some (j, b') => exists k, j = i + Z.of_nat k /\ (b :: bs) !! k = Some b' /\ readable s vol now interval sequence j b' = true /\
          forall k' b', (k' < k)%nat -> (b :: bs) !! k' = Some b' -> readable s vol now interval sequence (i + Z.of_nat k') b' = false
      | None => forall k b', (b :: bs) !! k = Some b' -> readable s vol now interval sequence (i + Z.of_nat k) b' = false end) as Hskip.
  { intros r' -> Hno. destruct r as [ [j b']|].
    - destruct Hcase as (k & -> & Hk & Hrd & Hbef). exists (S k). split_and!; [lia|done|done|]. intros [|k'] b1 Hlt Hk'; [injection Hk' as <-; by rewrite Z.add_0_r|].
      replace (i + Z.of_nat (S k')) with (i + 1 + Z.of_nat k') by lia. apply Hbef; [lia|done].
    - intros [|k] b' Hk; cbn in Hk; [injection Hk as <-; by rewrite Z.add_0_r|].
      specialize (Hcase k b' Hk). by replace (i + Z.of_nat (S k)) with (i + 1 + Z.of_nat k) by lia. }
  unfold readable in Hskip at 1. rewrite Hd in Hskip.
  destruct ((i =? master_block_index vol) || (i =? last_read_block_index vol)) eqn:Eskip.
  - exists r. split; [done|]. by apply Hskip.
  - unfold get_block. rewrite Hd. cbn [get_or mbind outcome_bind].
    destruct ((now i - last_heartbeat_time d <=? interval) && (sequence <=? last_sync_sequence d)) eqn:Eok.
    + exists (Some (i, b)). split; [done|]. exists 0%nat. split_and!; [lia|done| |lia]. unfold readable. by rewrite Eskip, Hd.
    + exists r. split; [done|]. by apply Hskip.
Qed.

(** The index of the last block read is not part of the membership. *)
Lemma members_set_last_read s cl M vid v vol i : members s cl M -> do_cluster_find s cl vid = Ret (Some v) ->
  st_volumes s !! v = Some vol -> members (put_volume s v (set_last_read vol i)) cl M.
Proof.
  intros Hm Hf Hv. pose proof Hm as (P & Hi & Hvs & Hd & Hbrk).
  destruct (cluster_find_inv s cl P vid Hi) as (r & Hr & Hin). rewrite Hf in Hr. injection Hr as <-.
  destruct (Hvs v vid Hin) as (vol' & bs & Hv' & HM & Hok). assert (vol' = vol) as -> by congruence.
  rewrite <- (insert_id M vid bs) by done. eapply (members_update s _ cl M P v vid vol); eauto.
Qed.

Lemma readdatasevrblock_members hash_func s cl M now interval vn sequence s' ob : members s cl M ->
  cluster_readdatasevrblock_get hash_func s cl now interval vn sequence = Ret (s', ob) ->
  members s' cl M /\ st_blocks s' = st_blocks s.
Proof.
  intros Hm Hr. unfold cluster_readdatasevrblock_get in Hr.
  destruct (do_cluster_find s cl (hash_func vn)) as [ [v|]|] eqn:Hf; cbn [mbind outcome_bind] in Hr; [|by simplify_eq|done].
  unfold get_volume in Hr. destruct (st_volumes s !! v) as [vol|] eqn:Hv; cbn [get_or mbind outcome_bind] in Hr; [|done].
  destruct (blocks vol); [|by simplify_eq].
  destruct (read_block_loop _ _ _ _ _ _ _) as [ [ [i b]|]|]; cbn [mbind outcome_bind] in Hr; [| |done].
  - simplify_eq. split; [|done]. by eapply members_set_last_read.
  - destruct (zlookup _ _); cbn in Hr; [|done]. by simplify_eq.
Qed.

(** ** Theorems *)

Lemma find_congr s s' cl cl' M M' vid bid : members s cl M -> members s' cl' M' -> M' !! vid = M !! vid ->
  (forall b, id_of s' b = id_of s b) ->
  cluster_datasevrblock_byid_find s' cl' vid bid = cluster_datasevrblock_byid_find s cl vid bid.
Proof.
  intros H1 H2 HM Hid. rewrite (block_find_members _ _ _ _ _ H1), (block_find_members _ _ _ _ _ H2), HM. f_equal.
  destruct (M !! vid); [|done]. cbn. f_equal. apply list_filter_iff. intros b. by rewrite Hid.
Qed.

(** While memory lasts, a data server whose (volume, block) pair is new is
    found under it once it has been registered, every other pair is looked up
    as before, and the block is made the master exactly when it is the first of
    its volume.  (The volume must not be one that the wrong mask of
    [do_cluster_insert] sends past the old array.) *)
Theorem register_then_find s cl M b d : members s cl M -> st_blocks s !! b = Some d -> (forall n, st_oracle s n = true) ->
  (M !! parent_volume_id d = None -> expanding cl = true -> Z.testbit (parent_volume_id d) (hash_size cl - 1) = false) ->
  cluster_datasevrblock_byid_find s cl (parent_volume_id d) (block_id d) = Ret None ->
  exists s' cl' d', cluster_datasevrblock_insert s cl b = Ret (s', cl', LFS_OK) /\
    members s' cl' (<[parent_volume_id d := default [] (M !! parent_volume_id d) ++ [b]]> M) /\
    st_blocks s' !! b = Some d' /\
    type d' = (if decide (default [] (M !! parent_volume_id d) = []) then master_server else type d) /\
    forall vid bid, cluster_datasevrblock_byid_find s' cl' vid bid =
      if decide (vid = parent_volume_id d /\ bid = block_id d) then Ret (Some b)
      else cluster_datasevrblock_byid_find s cl vid bid.
Proof.
  intros Hm Hb Hor Hbit Hnew. destruct (block_insert_members s cl M b d Hm Hb Hbit) as (s' & cl' & Hi & Hreg).
  destruct Hreg as [_ [ [Hm' Hbl]|(_ & _ & n & Hn)] ]; [|by rewrite Hor in Hn].
  exists s', cl'. eexists. split; [done|]. split; [done|]. rewrite Hbl. split; [by rewrite lookup_insert_eq|].
  split; [by case_decide|]. intros vid bid.
  assert (forall b', id_of s' b' = id_of s b') as Hid.
  { intros b'. unfold id_of. rewrite Hbl, lookup_insert. destruct (decide (b = b')) as [<-|]; [|done]. rewrite Hb. by case_decide. }
  destruct (decide (vid = parent_volume_id d)) as [->|Hv]; cycle 1.
  { rewrite decide_False by tauto. eapply find_congr; [done|done|by rewrite lookup_insert_ne|done]. }
  rewrite (block_find_members _ _ _ _ _ Hm) in Hnew. rewrite (block_find_members _ _ _ _ _ Hm), (block_find_members _ _ _ _ _ Hm'), lookup_insert_eq.
  cbn [mbind option_bind]. rewrite filter_app.
  rewrite !(list_filter_iff (fun b0 => id_of s' b0 = Some bid) (fun b0 => id_of s b0 = Some bid)) by (intros b'; by rewrite Hid).
  assert (id_of s b = Some (block_id d)) as Hb' by (unfold id_of; by rewrite Hb).
  destruct (decide (bid = block_id d)) as [->|Hne].
  - rewrite decide_True by done. rewrite filter_cons_True, filter_nil by done. injection Hnew as Hnew.
    destruct (M !! parent_volume_id d) as [bs|]; [|done]. change (list.head (base.filter (fun b0 => id_of s b0 = Some (block_id d)) bs) = None) in Hnew.
    cbn [default from_option id]. by destruct (base.filter (fun b0 => id_of s b0 = Some (block_id d)) bs).
  - rewrite decide_False by tauto. rewrite filter_cons_False, filter_nil, app_nil_r by congruence.
    by destruct (M !! parent_volume_id d).
Qed.

Lemma read_block_get_inv hash_func s cl M now interval vn sequence m bs : members s cl M ->
  M !! hash_func vn = Some (m :: bs) ->
  exists s' v vol b, cluster_readdatasevrblock_get hash_func s cl now interval vn sequence = Ret (s', Some b) /\
    members s' cl M /\ st_blocks s' = st_blocks s /\
    do_cluster_find s cl (hash_func vn) = Ret (Some v) /\ st_volumes s !! v = Some vol /\
    chosen s s' v vol now interval sequence m bs b.
Proof.
  intros Hm HM. pose proof (members_find s cl M (hash_func vn) Hm) as Hf. rewrite HM in Hf.
  destruct Hf as (v & vol & Hfind & Hv & Hvid & Hok). pose proof Hok as ((arr & Ha & Hl & Hc & Hle & Ht & Hfa) & Hal & Hmi).
  unfold cluster_readdatasevrblock_get. rewrite Hfind. cbn [mbind outcome_bind].
  assert (get_volume s v = Ret vol) as -> by (unfold get_volume; by rewrite Hv). cbn [mbind outcome_bind].
  rewrite Ha, Hc, Nat2Z.id, Ht. cbn [decide] in Hmi. rewrite decide_False in Hmi by done.
  destruct (read_block_loop_spec s vol now interval sequence 0 (m :: bs) Hfa) as (r & -> & Hr). cbn [mbind outcome_bind].
  destruct r as [ [j b]|].
  - destruct Hr as (k & -> & Hk & Hrd & Hbef). destruct k as [|k].
    { exfalso. unfold readable in Hrd. by rewrite Hmi in Hrd. }
    exists (put_volume s v (set_last_read vol (0 + Z.of_nat (S k)))), v, vol, b. split; [done|]. split_and!; try done.
    + by eapply members_set_last_read.
    + left. exists k. split_and!; [done|done| |done]. intros j b' Hj Hb. apply (Hbef (S j) b'); [lia|done].
  - assert (zlookup arr 0 = Some (Some m)) as Hz.
    { destruct arr as [|e arr]; cbn in Ht; [done|]. by injection Ht as -> _. }
    rewrite Hmi, Hz. cbn [get_or mbind outcome_bind]. exists s, v, vol, m. split_and!; try done. right. split; [done|].
    split; [|done]. intros i b' Hi. exact (Hr (S i) b' Hi).
Qed.

(** A reader of a registered volume is always given one of its blocks: a
    slave with a recent heartbeat that is synchronised up to the requested
    sequence and was not the last one read, or else, when there is no such
    slave, the master; the membership does not change. *)
Theorem readdatasevrblock_spec hash_func s cl M now interval vn sequence m bs : members s cl M ->
  M !! hash_func vn = Some (m :: bs) ->
  exists s' v vol b, cluster_readdatasevrblock_get hash_func s cl now interval vn sequence = Ret (s', Some b) /\
    members s' cl M /\ st_blocks s' = st_blocks s /\
    do_cluster_find s cl (hash_func vn) = Ret (Some v) /\ st_volumes s !! v = Some vol /\
    chosen s s' v vol now interval sequence m bs b.
Proof. apply read_block_get_inv. Qed.

(** ** Instances *)

(** Three blocks of volume 10: the second one is up to date, the third is behind. *)
Definition demo_block (bid seq : Z) : datasevr_block :=
  mk_block 10 bid on_line [] [] slave_server 8000 0 0 0 0 0 0 0 seq 100 0.
Definition demo_blocks : store :=
  mk_store (<[0%nat := demo_block 1 9]> (<[1%nat := demo_block 2 7]> (<[2%nat := demo_block 3 4]> ∅))) ∅ 3 (fun _ => true) 0.

Definition run_insert (w : store * datasevr_cluster) (b : bloc) : store * datasevr_cluster :=
  match cluster_datasevrblock_insert w.1 w.2 b with Ret (s, cl, _) => (s, cl) | Crash _ => w end.

Lemma members_init s : st_volumes s = ∅ -> members s demo_cluster ∅.
Proof.
  intros Hs. destruct (init_world_inv s) as (P & Hi & HM). cbn in Hi, HM. exists P. split_and!; [done| | |].
  - intros v vid Hin%HM. by rewrite lookup_empty in Hin.
  - intros vid bs Hm. by rewrite lookup_empty in Hm.
  - intros v d. by rewrite Hs, lookup_empty.
Qed.

(** One registration of a run that finds memory. *)
Lemma run_insert_members w M b d : members w.1 w.2 M -> st_blocks w.1 !! b = Some d -> (forall n, st_oracle w.1 n = true) ->
  expanding w.2 = false ->
  members (run_insert w b).1 (run_insert w b).2 (<[parent_volume_id d := default [] (M !! parent_volume_id d) ++ [b]]> M).
Proof.
  intros Hm Hb Ho He. destruct (block_insert_members w.1 w.2 M b d Hm Hb) as (s' & cl' & Hr & Hreg); [congruence|].
  unfold run_insert. rewrite Hr. destruct Hreg as [_ [ [? _]|(_ & _ & n & Hn)] ]; [done|by rewrite Ho in Hn].
Qed.

Definition demo_two : store * datasevr_cluster := run_insert (run_insert (demo_blocks, demo_cluster) 0%nat) 1%nat.

Lemma demo_two_members : members demo_two.1 demo_two.2 (<[10 := [0%nat; 1%nat]]> ∅).
Proof.
  pose proof (run_insert_members (demo_blocks, demo_cluster) ∅ 0 (demo_block 1 9) (members_init demo_blocks eq_refl) eq_refl
                (fun _ => eq_refl) eq_refl) as H1.
  eapply (run_insert_members _ _ 1 (demo_block 2 7)) in H1; [|by vm_compute|by intros n; vm_compute|by vm_compute].
  cbn [parent_volume_id demo_block] in H1. rewrite lookup_insert_eq, lookup_empty, insert_insert_eq in H1. exact H1.
Qed.

Lemma register_then_find_witness :
  exists s' cl' d', cluster_datasevrblock_insert demo_two.1 demo_two.2 2 = Ret (s', cl', LFS_OK) /\
    members s' cl' (<[10 := [0%nat; 1%nat] ++ [2%nat]]> (<[10 := [0%nat; 1%nat]]> ∅)) /\
    st_blocks s' !! 2%nat = Some d' /\ type d' = slave_server /\
    forall vid bid, cluster_datasevrblock_byid_find s' cl' vid bid =
      if decide (vid = 10 /\ bid = 3) then Ret (Some 2%nat)
      else cluster_datasevrblock_byid_find demo_two.1 demo_two.2 vid bid.
Proof.
  refine (register_then_find demo_two.1 demo_two.2 _ 2 (demo_block 3 4) demo_two_members _ _ _ _).
  - reflexivity.
  - intros n. reflexivity.
  - intros H. discriminate H.
  - reflexivity.
Defined.

Lemma readdatasevrblock_spec_witness :
  exists s' v vol b, cluster_readdatasevrblock_get (fun _ => 10) demo_two.1 demo_two.2 (fun _ => 110) 30 [] 5 = Ret (s', Some b) /\
    members s' demo_two.2 (<[10 := [0%nat; 1%nat]]> ∅) /\ st_blocks s' = st_blocks demo_two.1 /\
    do_cluster_find demo_two.1 demo_two.2 10 = Ret (Some v) /\ st_volumes demo_two.1 !! v = Some vol /\
    chosen demo_two.1 s' v vol (fun _ => 110) 30 5 0%nat [1%nat] b.
Proof.
  exact (readdatasevrblock_spec (fun _ => 10) demo_two.1 demo_two.2 _ (fun _ => 110) 30 [] 5 0%nat [1%nat] demo_two_members eq_refl).
Defined.
