(* ===== verification/TsConn.v ===== *)
(** * Connections of the tracker

    src/src/trackerserver/ts_conn.c and the [conn] structure of trackerd.h: a
    connection owns a read and a write buffer; [rcurr] and [wcurr] are offsets
    into them.  libevent is outside the program: its calls return what the
    arguments [ev_..] say. *)
From S2P Require Import Prelude ListH TsQueue.

Inductive conn_states := conn_parse_cmd | conn_read | conn_nread | conn_write | conn_waiting | conn_closed.

#[export] Instance conn_states_eq_dec : EqDecision conn_states.
Proof. solve_decision. Defined.

Record conn := mk_conn {
  sfd : Z;
  cstate : conn_states;
  writeto : conn_states;
  event_flags : Z;
  rbuff : bytes;
  rcurr : Z;
  rsize : Z;
  rbytes : Z;
  rlbytes : Z;
  wbuff : bytes;
  wcurr : Z;
  wsize : Z;
  wbytes : Z;
  wused : Z
}.

Definition EV_READ : Z := 2.
Definition EV_WRITE : Z := 4.
Definition EV_PERSIST : Z := 16.

Definition with_state (c : conn) (st : conn_states) : conn :=
  mk_conn (sfd c) st (writeto c) (event_flags c) (rbuff c) (rcurr c) (rsize c) (rbytes c) (rlbytes c)
    (wbuff c) (wcurr c) (wsize c) (wbytes c) (wused c).

Definition with_writeto (c : conn) (st : conn_states) : conn :=
  mk_conn (sfd c) (cstate c) st (event_flags c) (rbuff c) (rcurr c) (rsize c) (rbytes c) (rlbytes c)
    (wbuff c) (wcurr c) (wsize c) (wbytes c) (wused c).

Definition with_flags (c : conn) (f : Z) : conn :=
  mk_conn (sfd c) (cstate c) (writeto c) f (rbuff c) (rcurr c) (rsize c) (rbytes c) (rlbytes c)
    (wbuff c) (wcurr c) (wsize c) (wbytes c) (wused c).

Definition with_read (c : conn) (b : bytes) (cur size n : Z) : conn :=
  mk_conn (sfd c) (cstate c) (writeto c) (event_flags c) b cur size n (rlbytes c)
    (wbuff c) (wcurr c) (wsize c) (wbytes c) (wused c).

Definition with_write (c : conn) (b : bytes) (n : Z) : conn :=
  mk_conn (sfd c) (cstate c) (writeto c) (event_flags c) (rbuff c) (rcurr c) (rsize c) (rbytes c) (rlbytes c)
    b (wcurr c) (wsize c) n (wused c).

Definition with_sent (c : conn) (cur used : Z) : conn :=
  mk_conn (sfd c) (cstate c) (writeto c) (event_flags c) (rbuff c) (rcurr c) (rsize c) (rbytes c) (rlbytes c)
    (wbuff c) cur (wsize c) (wbytes c) used.

(** ** Buffers *)

(** Copying [d] into the buffer [b] at offset [off]. *)
Definition buf_write (b : bytes) (off : Z) (d : bytes) : outcome bytes :=
  if (0 <=? off) && (off + Z.of_nat (length d) <=? Z.of_nat (length b))
  then Ret (take (Z.to_nat off) b ++ d ++ drop (Z.to_nat off + length d) b)
  else Crash OutOfBounds.

(** The [n] bytes at offset [off]. *)
Definition buf_read (b : bytes) (off : Z) (n : nat) : outcome bytes :=
  if (0 <=? off) && (off + Z.of_nat n <=? Z.of_nat (length b))
  then Ret (take n (drop (Z.to_nat off) b))
  else Crash OutOfBounds.

(** The C string that starts at a place: reading on past the end of the memory
    that follows is undefined. *)
Fixpoint c_string (b : bytes) : outcome bytes :=
  match b with
  | [] => Crash OutOfBounds
  | c :: b' => if c =? 0 then Ret [] else s ← c_string b'; Ret (c :: s)
  end.

Definition buf_string (b : bytes) (off : Z) : outcome bytes :=
  if 0 <=? off then c_string (drop (Z.to_nat off) b) else Crash OutOfBounds.

(** [strcmp(a, b) == 0] *)
Fixpoint strcmp_eq (a b : bytes) : outcome bool :=
  match a, b with
  | x :: a', y :: b' => if x =? y then if x =? 0 then Ret true else strcmp_eq a' b' else Ret false
  | _, _ => Crash OutOfBounds
  end.

(** ** Operations *)

Definition __set_conn_state (c : conn) (st : conn_states) : conn :=
  if decide (st = cstate c) then c else with_state c st.

Definition set_conn_state := __set_conn_state.

Definition __conn_clean (c : conn) : conn :=
  mk_conn (sfd c) (cstate c) (writeto c) (event_flags c) (rbuff c) 0 (rsize c) 0 0 (wbuff c) 0 (wsize c) 0 0.

Definition __conn_reset (c : conn) : conn :=
  mk_conn (sfd c) (cstate c) (writeto c) (event_flags c) (replicate (Z.to_nat (rsize c)) 0) 0 (rsize c) 0 0
    (replicate (Z.to_nat (wsize c)) 0) 0 (wsize c) 0 0.

Definition __update_conn_event (ev_del ev_add : bool) (c : conn) (new_ev_flags : Z) : conn * Z :=
  if event_flags c =? new_ev_flags then (c, 0)
  else if negb ev_del then (c, LFS_ERROR)
  else
    let c := with_flags c new_ev_flags in
    if negb ev_add then (c, LFS_ERROR) else (c, LFS_OK).

Definition __del_conn_event (ev_del : bool) (c : conn) : Z := if ev_del then LFS_OK else LFS_ERROR.

(** [conns] and [ctxs.curr_conns]. *)
Record conn_table := mk_conn_table { conns : list (option conn); cx_curr_conns : Z }.

(** What [conn_close] does to the connection. *)
Definition conn_shut (c : conn) : conn := __set_conn_state (__conn_clean c) conn_closed.

(** The closed connection stays in [conns], to be used again for its fd. *)
Definition conn_close (t : conn_table) (c : conn) : outcome conn_table :=
  let c := conn_shut c in
  l ← zinsert (conns t) (sfd c) (Some c);
  Ret (mk_conn_table l (u32 (cx_curr_conns t - 1))).

Definition conn_free (t : conn_table) (c : conn) : outcome conn_table :=
  if (0 <=? sfd c) && (sfd c <? Z.of_nat (length (conns t)))
  then l ← zinsert (conns t) (sfd c) None; Ret (mk_conn_table l (cx_curr_conns t))
  else Crash AssertFailed.

(** What [conn_new] does to an existing connection of the fd. *)
Definition conn_renew (c : conn) (init_state : conn_states) (flags : Z) : conn :=
  mk_conn (sfd c) init_state (writeto c) flags (rbuff c) 0 (rsize c) 0 (rlbytes c) (wbuff c) 0 (wsize c) 0 0.

(** [junk] is the memory that [malloc] returns: the structure's fields and the
    contents of the two buffers.  [mal1], [mal2], [mal3]: the three calls
    succeed. *)
Definition conn_new (mal1 mal2 mal3 ev_add : bool) (junk : conn) (t : conn_table) (fd : Z) (init_state : conn_states)
    (default_buff_size flags : Z) : outcome (conn_table * option conn) :=
  slot ← get_or AssertFailed (zlookup (conns t) fd);
  match slot with
  | Some c =>
      let c := conn_renew c init_state flags in
      l ← zinsert (conns t) fd (Some c);
      Ret (mk_conn_table l (cx_curr_conns t), if ev_add then Some c else None)
  | None =>
      if negb mal1 then Ret (t, None)
      else
        let c := mk_conn fd (cstate junk) (writeto junk) (event_flags junk)
                   (take (Z.to_nat default_buff_size) (rbuff junk)) 0 default_buff_size 0 (rlbytes junk)
                   (take (Z.to_nat default_buff_size) (wbuff junk)) 0 default_buff_size 0 0 in
        if negb (mal2 && mal3) then t ← conn_free t c; Ret (t, None)
        else
          let c := conn_renew c init_state flags in
          l ← zinsert (conns t) fd (Some c);
          Ret (mk_conn_table l (cx_curr_conns t), if ev_add then Some c else None)
  end.

(** ** The pool of connection items *)

Definition CONN_ITEMS_PER_ALLOC : nat := 64.

Definition zero_item (h : links) (x : lloc) : links := <[x := mk_list_head None None]> h.

(** The loop that puts new items into the pool. *)
Fixpoint push_items (h : links) (q : lloc) (items : list lloc) : outcome links :=
  match items with
  | [] => Ret h
  | x :: items' => h ← conn_item_queue_push (zero_item h x) q x; push_items h q items'
  end.

(** New items are at [brk ..]; the loop leaves out the last one. *)
Definition conn_item_new (malloc_ok : bool) (h : links) (freecitems brk : lloc) : outcome (links * lloc * option lloc) :=
  '(h, item) ← conn_item_queue_pop h freecitems;
  match item with
  | Some x => Ret (zero_item h x, brk, Some x)
  | None =>
      if negb malloc_ok then Ret (h, brk, None)
      else
        h ← push_items h freecitems (seq (brk + 1) (CONN_ITEMS_PER_ALLOC - 2));
        Ret (zero_item h brk, (brk + CONN_ITEMS_PER_ALLOC)%nat, Some brk)
  end.

Definition conn_item_free (h : links) (freecitems : lloc) (item : option lloc) : outcome links :=
  match item with
  | None => Ret h
  | Some x => conn_item_queue_push (zero_item h x) freecitems x
  end.

(** ** Lemmas *)

Lemma zero_item_list h q xs x : is_list h q xs -> x ∉ q :: xs -> is_list (zero_item h x) q xs.
Proof.
  intros [Hp Hn] Hx. split; [|done].
  assert (forall y, y ∈ q :: xs -> zero_item h x !! y = h !! y) as He.
  { intros y Hy. unfold zero_item. rewrite lookup_insert_ne; [done|]. by intros ->. }
  apply (path_frame h); [| |done].
  - intros a Ha. rewrite He; [done|]. change (q :: xs ++ [q]) with ((q :: xs) ++ [q]) in Ha. by rewrite removelast_last in Ha.
  - intros b Hb. rewrite He; [done|]. cbn in Hb. rewrite elem_of_app, list_elem_of_singleton in Hb. rewrite elem_of_cons. tauto.
Qed.

Lemma push_items_spec h q xs items : is_list h q xs -> NoDup items -> (forall x, x ∈ items -> x ∉ q :: xs) ->
  exists h', push_items h q items = Ret h' /\ is_list h' q (xs ++ items) /\ dom h' = list_to_set items ∪ dom h.
Proof.
  revert h xs. induction items as [|x items IH]; intros h xs Hl Hn Ho; cbn [push_items].
  - exists h. rewrite app_nil_r. split_and!; [done|done|set_solver].
  - apply NoDup_cons in Hn as [Hx Hn]. pose proof (Ho x (list_elem_of_here _ _)) as Hxq.
    destruct (list_add_tail_spec (zero_item h x) q xs x) as (h1 & Hr & Hl1 & Hd1);
      [by apply zero_item_list|apply elem_of_dom; unfold zero_item; by rewrite lookup_insert_eq|done|].
    unfold conn_item_queue_push. rewrite Hr. cbn [mbind outcome_bind].
    destruct (IH h1 (xs ++ [x]) Hl1 Hn) as (h2 & -> & Hl2 & Hd2).
    { intros y Hy. specialize (Ho y (list_elem_of_further _ _ _ Hy)). revert Ho. rewrite !elem_of_cons, elem_of_app, list_elem_of_singleton.
      intros Ho [?|[?|?]]; try tauto. by subst y. }
    exists h2. rewrite <- app_assoc in Hl2. split_and!; [done|done|]. rewrite Hd2, Hd1. unfold zero_item. rewrite dom_insert_L. set_solver.
Qed.

(** Reading and writing at a place of a buffer. *)
Lemma buf_write_at a b d r off : length b = length d -> off = Z.of_nat (length a) ->
  buf_write (a ++ b ++ r) off d = Ret (a ++ d ++ r).
Proof.
  intros Hl ->. unfold buf_write. rewrite !length_app, Hl.
  rewrite (proj2 (Z.leb_le _ _)), (proj2 (Z.leb_le _ _)) by lia. cbn [andb]. rewrite Nat2Z.id.
  rewrite take_app_length, <- Hl, <- length_app, (app_assoc a b r), drop_app_length. done.
Qed.

Lemma buf_read_at a d r off n : off = Z.of_nat (length a) -> n = length d -> buf_read (a ++ d ++ r) off n = Ret d.
Proof.
  intros -> ->. unfold buf_read. rewrite !length_app.
  rewrite (proj2 (Z.leb_le _ _)), (proj2 (Z.leb_le _ _)) by lia. cbn [andb]. rewrite Nat2Z.id.
  by rewrite drop_app_length, take_app_length.
Qed.

Lemma c_string_ends s r : exists m, c_string (s ++ 0 :: r) = Ret m.
Proof.
  induction s as [|c s [m IH] ]; cbn [app c_string]; [by exists []|].
  destruct (c =? 0); [by exists []|]. rewrite IH. by exists (c :: m).
Qed.

Lemma c_string_nul s r : no_nul s -> c_string (s ++ 0 :: r) = Ret s.
Proof.
  induction 1 as [|x s Hx _ IH]; [done|]. cbn [app c_string]. rewrite (proj2 (Z.eqb_neq _ _) Hx), IH. done.
Qed.

Lemma buf_string_at a s r off : off = Z.of_nat (length a) -> no_nul s -> buf_string (a ++ s ++ 0 :: r) off = Ret s.
Proof.
  intros -> Hs. unfold buf_string. rewrite (proj2 (Z.leb_le _ _)) by lia. rewrite Nat2Z.id, drop_app_length. by apply c_string_nul.
Qed.

Lemma strcmp_eq_nul s s' r r' : no_nul s -> no_nul s' -> strcmp_eq (s ++ 0 :: r) (s' ++ 0 :: r') = Ret (bool_decide (s = s')).
Proof.
  intros Hs. revert s'. induction Hs as [|x s Hx _ IH]; intros s' Hs'; destruct Hs' as [|y s' Hy Hs']; cbn [app strcmp_eq].
  - done.
  - by rewrite (proj2 (Z.eqb_neq 0 y)).
  - by rewrite (proj2 (Z.eqb_neq x 0)).
  - zcase (x =? y).
    + subst y. rewrite (proj2 (Z.eqb_neq x 0)) by done. rewrite IH by done. f_equal.
      apply bool_decide_ext. split; congruence.
    + f_equal. symmetry. apply bool_decide_eq_false. congruence.
Qed.

Definition zeros (n : nat) : bytes := replicate n 0.

Lemma zeros_split n m : (n <= m)%nat -> zeros m = zeros n ++ zeros (m - n).
Proof. intros. unfold zeros. rewrite <- replicate_add. f_equal. lia. Qed.

(** Writing into the zeroed rest of a buffer. *)
Lemma buf_write_zeros a n d k off : off = Z.of_nat (length a + k) -> (k + length d <= n)%nat ->
  buf_write (a ++ zeros n) off d = Ret (a ++ zeros k ++ d ++ zeros (n - k - length d)).
Proof.
  intros -> Hn. rewrite (zeros_split k n), (zeros_split (length d) (n - k)) by lia. rewrite (app_assoc a (zeros k)).
  rewrite buf_write_at by (rewrite ?length_app; unfold zeros; rewrite ?length_replicate; lia). by rewrite <- app_assoc.
Qed.

(** A string in a field of [n] bytes. *)
Definition pad (n : nat) (s : bytes) : bytes := s ++ zeros (n - length s).

Lemma length_pad n s : (length s <= n)%nat -> length (pad n s) = n.
Proof. intros. unfold pad. rewrite length_app. unfold zeros. rewrite length_replicate. lia. Qed.

Lemma pad_nul n s : (length s < n)%nat -> pad n s = s ++ 0 :: zeros (n - length s - 1).
Proof. intros. unfold pad. rewrite (zeros_split 1 (n - length s)) by lia. done. Qed.

(** The pool: a queue of items below [brk]. *)
Definition pool (h : links) (freecitems brk : lloc) (xs : list lloc) : Prop :=
  is_list h freecitems xs /\ (forall x, x ∈ dom h -> (x < brk)%nat).

(** ** Theorems *)

(** [conn_item_new] never hands out an item that is in the pool: it takes
    the oldest item of the pool, and when the pool is empty it allocates 64
    items, returns the first and puts the next 62 into the pool; without memory
    it returns NULL. *)
Theorem conn_item_new_spec ok h q brk xs : pool h q brk xs ->
  exists h' brk' r, conn_item_new ok h q brk = Ret (h', brk', r) /\
    match r with
    | Some x => exists ys, pool h' q brk' ys /\ x ∉ q :: ys /\ x ∈ dom h' /\
        match xs with
        | x' :: xs' => x = x' /\ ys = xs'
        | [] => ok = true /\ x = brk /\ ys = seq (brk + 1) 62 /\ brk' = (brk + 64)%nat
        end
    | None => xs = [] /\ ok = false /\ pool h' q brk' xs
    end.
Proof.
  intros [Hl Hb]. unfold conn_item_new, conn_item_queue_pop. rewrite (queue_active_spec _ _ _ Hl). cbn [mbind outcome_bind].
  destruct xs as [|x xs]; [rewrite bool_decide_true by done|rewrite bool_decide_false by done]; cbn [negb mbind outcome_bind].
  - destruct ok; cbn [negb]; [|by do 3 eexists].
    assert (q < brk)%nat by (eapply Hb, is_list_dom; [done|constructor]).
    destruct (push_items_spec h q [] (seq (brk + 1) 62) Hl) as (h1 & Hr & Hl1 & Hd1).
    { apply NoDup_ListNoDup, seq_NoDup. }
    { intros y Hy%elem_of_seq. rewrite list_elem_of_singleton. lia. }
    change (CONN_ITEMS_PER_ALLOC - 2)%nat with 62%nat. rewrite Hr. cbn [mbind outcome_bind]. do 3 eexists. split; [done|].
    assert (brk ∉ q :: seq (brk + 1) 62) as Hni.
    { rewrite elem_of_cons, elem_of_seq. lia. }
    exists (seq (brk + 1) 62). split_and!; try done.
    + split; [by apply zero_item_list|]. intros y. unfold zero_item. rewrite dom_insert_L, Hd1, !elem_of_union, elem_of_singleton, elem_of_list_to_set, elem_of_seq.
      unfold CONN_ITEMS_PER_ALLOC. intros [->|[?|?%Hb]]; lia.
    + apply elem_of_dom. unfold zero_item. by rewrite lookup_insert_eq.
  - destruct (pop_locked_spec h q (x :: xs) Hl) as (h1 & -> & Hl1 & Hd1). cbn [mbind outcome_bind]. do 3 eexists. split; [done|].
    assert (x ∈ dom h) as Hx by (eapply is_list_dom; [done|do 2 constructor]).
    assert (x ∉ q :: xs) as Hni.
    { destruct Hl as [_ Hn]. rewrite !NoDup_cons in Hn. destruct Hn as [H1 [H2 _]].
      rewrite elem_of_cons in *. intros [->|?]; tauto. }
    exists xs. split_and!; try done.
    + split; [by apply zero_item_list|]. intros y. unfold zero_item. rewrite dom_insert_L, Hd1, elem_of_union, elem_of_singleton. intros [->|?]; by apply Hb.
    + apply elem_of_dom. unfold zero_item. by rewrite lookup_insert_eq.
Qed.

(** An empty queue at location 0. *)
Definition demo_pool : links := <[0%nat := mk_list_head (Some 0%nat) (Some 0%nat)]> ∅.

Lemma conn_item_new_spec_witness :
  pool demo_pool 0 1 [] /\
  exists h' brk' r, conn_item_new true demo_pool 0 1 = Ret (h', brk', r) /\
    match r with
    | Some x => exists ys, pool h' 0 brk' ys /\ x ∉ 0%nat :: ys /\ x ∈ dom h' /\
        (true = true /\ x = 1%nat /\ ys = seq 2 62 /\ brk' = 65%nat)
    | None => @nil lloc = [] /\ true = false /\ pool h' 0 brk' []
    end.
Proof.
  assert (pool demo_pool 0 1 []) as Hp.
  { split; [split; [by repeat constructor|apply NoDup_singleton]|]. intros x [d Hd]%elem_of_dom. unfold demo_pool in Hd.
    rewrite lookup_insert in Hd. case_decide; [lia|by rewrite lookup_empty in Hd]. }
  split; [exact Hp|]. exact (conn_item_new_spec true demo_pool 0 1 [] Hp).
Defined.
