(* ===== verification/Protocol.v ===== *)
(** * The protocol

    src/src/include/lfs_protocol.h: the commands and the states of the
    responses, and the header in front of every message, which both sides copy
    to and from memory as it is. *)
From S2P Require Import Prelude TsConn.

Definition PROTOCOL_CMD_DATASERVER_REGISTER : Z := 1.
Definition PROTOCOL_CMD_DATASERVER_FULLSYNC : Z := 2.
Definition PROTOCOL_CMD_DATASERVER_HEARTBEAT : Z := 3.
Definition PROTOCOL_CMD_DATASERVER_SYNCREPORT : Z := 4.
Definition PROTOCOL_CMD_DATASERVER_STATREPORT : Z := 5.
Definition PROTOCOL_CMD_DATASERVER_QUITED : Z := 15.
Definition PROTOCOL_CMD_WRITE_TRACKER_REQ : Z := 16.
Definition PROTOCOL_CMD_READ_TRACKER_REQ : Z := 17.
Definition PROTOCOL_CMD_ASYNC_COPY_FILE : Z := 49.
Definition PROTOCOL_CMD_FULL_SYNC_GET_MASTER_BINLOG_METE : Z := 54.
Definition PROTOCOL_CMD_FULL_SYNC_COPY_MASTER_BINLOG : Z := 55.
Definition PROTOCOL_CMD_FULL_SYNC_COPY_MASTER_DATA : Z := 56.
Definition PROTOCOL_CMD_TEST : Z := 153.

Definition PROTOCOL_RESP_STATUS_SUCCESS : Z := 0.
Definition PROTOCOL_RESP_STATUS_ERROR : Z := 1.
Definition PROTOCOL_RESP_STATUS_ERROR_MEMORY : Z := 2.
Definition PROTOCOL_RESP_STATUS_ERROR_PACKAGESIZE_OVERFLOW : Z := 11.
Definition PROTOCOL_RESP_STATUS_ERROR_NONEDATASEVERBLOCKS : Z := 12.
Definition PROTOCOL_RESP_STATUS_ERROR_NONEDATASEVERVOLUME : Z := 13.
Definition PROTOCOL_RESP_STATUS_ERROR_UNREGISTER : Z := 14.
Definition PROTOCOL_RESP_STATUS_SYNCSETTING_WAITING : Z := 15.
Definition PROTOCOL_RESP_STATUS_ERROR_NO_WRITE_DATASERVER : Z := 64.
Definition PROTOCOL_RESP_STATUS_ERROR_NO_READ_DATASERVER : Z := 65.

(** The size of [protocol_header], of which the first ten bytes are used. *)
Definition sizeof_protocol_header : Z := 16.

(** A [uint64_t] in memory, little endian. *)
Definition le64 (n : Z) : bytes := (fun k => Z.land (Z.shiftr n (8 * k)) 255) <$> [0; 1; 2; 3; 4; 5; 6; 7].

Definition header_bytes (body_len cmd st : Z) : bytes := le64 body_len ++ [u8 cmd; u8 st].

(** The [body_len] of the header in the buffer, little endian. *)
Definition header_body_len (b : bytes) : outcome Z :=
  f ← buf_read b 0 8; Ret (foldr (fun x n => x + 256 * n) 0 f).

Lemma le64_decode n r : 0 <= n < 2 ^ 64 -> header_body_len (le64 n ++ r) = Ret n.
Proof.
  intros Hn. unfold header_body_len. pose proof (buf_read_at [] (le64 n) r 0 8 eq_refl eq_refl) as Hb. cbn [app] in Hb. rewrite Hb.
  cbn [mbind outcome_bind]. f_equal. unfold le64. cbn [fmap list_fmap foldr]. rewrite !land_255, !Z.shiftr_div_pow2 by lia. unfold u_wrap.
  change (2 ^ (8 * 0)) with 1. change (2 ^ (8 * 1)) with 256. change (2 ^ (8 * 2)) with (256 * 256).
  change (2 ^ (8 * 3)) with (256 * 256 * 256). change (2 ^ (8 * 4)) with (256 * 256 * 256 * 256).
  change (2 ^ (8 * 5)) with (256 * 256 * 256 * 256 * 256). change (2 ^ (8 * 6)) with (256 * 256 * 256 * 256 * 256 * 256).
  change (2 ^ (8 * 7)) with (256 * 256 * 256 * 256 * 256 * 256 * 256). change (2 ^ 8) with 256.
  rewrite <- !Z.div_div, Z.div_1_r by lia. change (2 ^ 64) with 18446744073709551616 in Hn. Z.div_mod_to_equations. lia.
Qed.
