(* ===== verification/Snapshot.v ===== *)
(** * The snapshot of the tracker

    src/src/trackerserver/ts_snapshot.c: the tracker writes one line of eleven
    columns for every registered block to a temporary file, renames it over
    volume_blocks.dat, and reads that file when it starts.  What the operating
    system answers is an argument ([flush_env]); the cluster does not change
    during a flush. *)
From S2P Require Import Prelude CString Lines Chains Datasevr Cluster ClusterDatasevr TsConn.

Definition VOLUME_BLOCK_BINLOG_DATAFILEDS : Z := 11.

(** [sizeof(buff)] in [__snapshot_flush]. *)
Definition snapshot_buff_size : nat := 16 + 16 + 64.

(** The [int] an enumeration is printed as and read from. *)
Definition int_of_type (t : datasevr_type) : Z :=
  match t with
  | master_server => 0
  | slave_server => 1
  | other_server n => n
  end.

Definition type_of_int (n : Z) : datasevr_type :=
  if n =? 0 then master_server else if n =? 1 then slave_server else other_server n.

(** ** Writing *)

(** The columns of a block. *)
Definition snapshot_columns (d : datasevr_block) (m ip : bytes) : list bytes :=
  [ pr_dec (parent_volume_id d); pr_dec (block_id d); m; ip; pr_dec (int_of_type (type d)); pr_dec (port d);
    pr_dec (weight d); pr_dec (heart_beat_interval d); pr_dec (reg_time d); pr_dec (started_time d);
    pr_dec (last_sync_sequence d) ].

(** The [sprintf]: the text and its NUL must fit the buffer. *)
Definition snapshot_line (d : datasevr_block) : outcome bytes :=
  m ← c_string (map_info d);
  ip ← c_string (ip_addr d);
  let line := pr_line (snapshot_columns d m ip) in
  if (length line <? snapshot_buff_size)%nat then Ret line else Crash OutOfBounds.

(** The answers of the operating system during one flush: [write_n k len]
    is the result of the [k]-th [write], of [len] bytes; an [errno] goes with each
    failure. *)
Record flush_env := mk_flush_env {
  open_ok : bool;
  lock_ok : Z -> bool;
  write_n : nat -> Z -> Z;
  write_errno : nat -> Z;
  fsync_ok : bool;
  fsync_errno : Z;
  rename_ok : bool;
  rename_errno : Z
}.

(** The temporary file, the number of calls of [write] and [ret]. *)
Record flush_state := mk_flush { fl_out : bytes; fl_writes : nat; fl_ret : Z }.

(** The body of [if(blks[j])]; [true] when the loop goes on. *)
Definition flush_block (e : flush_env) (s : store) (st : flush_state) (b : bloc) : outcome (flush_state * bool) :=
  d ← get_block s b;
  line ← snapshot_line d;
  let n := write_n e (fl_writes st) (Z.of_nat (length line)) in
  let out := fl_out st ++ take (Z.to_nat n) line in
  if negb (n =? Z.of_nat (length line))
  then Ret (mk_flush out (S (fl_writes st)) (errno_or_eio (write_errno e (fl_writes st))), false)
  else Ret (mk_flush out (S (fl_writes st)) (fl_ret st), true).

(** A failed [write] leaves the loop over the blocks of the volume only. *)
Fixpoint flush_blocks (e : flush_env) (s : store) (st : flush_state) (blks : list (option bloc)) : outcome flush_state :=
  match blks with
  | [] => Ret st
  | None :: blks' => flush_blocks e s st blks'
  | Some b :: blks' =>
      '(st, go_on) ← flush_block e s st b;
      if go_on : bool then flush_blocks e s st blks' else Ret st
  end.

(** The loop over [block_count] entries; the array must have that many. *)
Definition flush_volume (e : flush_env) (s : store) (st : flush_state) (dv : datasevr_volume) : outcome flush_state :=
  match blocks dv with
  | None => Ret st
  | Some blks =>
      if block_count dv <=? Z.of_nat (length blks)
      then flush_blocks e s st (take (Z.to_nat (block_count dv)) blks)
      else Crash OutOfBounds
  end.

Fixpoint flush_chain (fuel : nat) (e : flush_env) (s : store) (st : flush_state) (it : option vloc) : outcome flush_state :=
  match it with
  | None => Ret st
  | Some v =>
      match fuel with
      | O => Crash Diverged
      | S f =>
          dv ← get_volume s v;
          st ← flush_volume e s st dv;
          flush_chain f e s st (next dv)
      end
  end.

(** Buckets [i], [i + 1], ... ([n] of them); one whose lock is taken is left out. *)
Fixpoint flush_buckets (n : nat) (e : flush_env) (s : store) (prim : list (option vloc)) (i : Z) (st : flush_state) : outcome flush_state :=
  match n with
  | O => Ret st
  | S n' =>
      st ← (if lock_ok e i
            then it ← get_or OutOfBounds (zlookup prim i); flush_chain (size (st_volumes s)) e s st it
            else Ret st);
      flush_buckets n' e s prim (i + 1) st
  end.

(** volume_blocks.dat and volume_blocks.dat.tmp. *)
Record snapshot_files := mk_files { sf_dat : option bytes; sf_tmp : option bytes }.

Definition __snapshot_flush (e : flush_env) (s : store) (cl : datasevr_cluster) (fs : snapshot_files) : outcome snapshot_files :=
  if negb (open_ok e) then Ret fs
  else
    st ← flush_buckets (Z.to_nat (hashsize (hash_size cl))) e s (primary_volumes cl) 0 (mk_flush [] 0 LFS_OK);
    let ret := if (fl_ret st =? 0) && negb (fsync_ok e) then errno_or_eio (fsync_errno e) else fl_ret st in
    Ret (if (ret =? 0) && rename_ok e then mk_files (Some (fl_out st)) None
         else mk_files (sf_dat fs) (Some (fl_out st))).

(** ** Reading *)

Definition sline_size : nat := 256.

(** What is not determined by the line: a column that [splitStr] did not set (an
    uninitialised pointer, or one that an earlier line left), and the
    allocations of [trim]. *)
Record line_env := mk_line_env { le_stale : nat -> outcome bytes; le_trim : nat -> bool }.

Definition load_field (e : line_env) (cols : list bytes) (k : nat) : outcome bytes :=
  match cols !! k with
  | Some c => Ret (trim (le_trim e k) c)
  | None => t ← le_stale e k; Ret (trim (le_trim e k) t)
  end.

(** The assignments to the new block [d]. *)
Definition load_block (e : line_env) (cols : list bytes) (d : datasevr_block) : outcome datasevr_block :=
  f0 ← load_field e cols 0;
  f1 ← load_field e cols 1;
  f2 ← load_field e cols 2;
  mi ← buf_write (map_info d) 0 (take (LFS_DATASERVER_MAP_INFO_SIZE - 1) f2 ++ [0]);
  f3 ← load_field e cols 3;
  ip ← buf_write (ip_addr d) 0 (take (IP_ADDRESS_SIZE - 1) f3 ++ [0]);
  f4 ← load_field e cols 4;
  f5 ← load_field e cols 5;
  f6 ← load_field e cols 6;
  f7 ← load_field e cols 7;
  f8 ← load_field e cols 8;
  f9 ← load_field e cols 9;
  f10 ← load_field e cols 10;
  Ret (mk_block (u32 (atoi f0)) (u32 (atoi f1)) off_line mi ip (type_of_int (atoi f4)) (atoi f5) (curr_conns d)
    (atoi f6) (atoi f7) (total_mb d) (free_mb d) (atol f8) (atol f9) (atol f10) (last_heartbeat_time d)
    (last_statreporttimestamp d)).

(** One round of the [while]; [false] when it is left. *)
Definition load_line (e : line_env) (s : store) (cl : datasevr_cluster) (sline : bytes) : outcome (store * datasevr_cluster * bool) :=
  match cstr sline with
  | [] => Ret (s, cl, true)
  | _ =>
      let cols := columns VOLUME_BLOCK_BINLOG_DATAFILEDS sline in
      let col_count := Z.of_nat (length cols) in
      if negb (col_count =? VOLUME_BLOCK_BINLOG_DATAFILEDS) && negb (col_count =? VOLUME_BLOCK_BINLOG_DATAFILEDS - 8)
      then Ret (s, cl, false)
      else
        let '(s, blk) := block_new s in
        match blk with
        | None => _ ← match cols !! 3%nat with Some c => Ret c | None => le_stale e 3 end; Ret (s, cl, false)
        | Some b =>
            d ← get_block s b;
            d ← load_block e cols d;
            '(s, cl, ret) ← cluster_datasevrblock_insert (put_block s b d) cl b;
            Ret (s, cl, ret =? 0)
        end
  end.

(** [env n] belongs to line [n]. *)
Fixpoint load_lines (fuel : nat) (env : nat -> line_env) (n : nat) (s : store) (cl : datasevr_cluster) (text : bytes) :
    outcome (store * datasevr_cluster) :=
  match fgets sline_size text with
  | None => Ret (s, cl)
  | Some (sline, rest) =>
      match fuel with
      | O => Crash Diverged
      | S f =>
          '(s, cl, go_on) ← load_line (env n) s cl sline;
          if go_on : bool then load_lines f env (S n) s cl rest else Ret (s, cl)
      end
  end.

(** The result is [LFS_OK] on every path.  A line has at least one byte. *)
Definition __snapshot_data_load (fopen_ok : bool) (env : nat -> line_env) (s : store) (cl : datasevr_cluster) (text : bytes) :
    outcome (store * datasevr_cluster * Z) :=
  if negb fopen_ok then Ret (s, cl, LFS_OK)
  else '(s, cl) ← load_lines (length text) env 0 s cl text; Ret (s, cl, LFS_OK).

(** [chdir_ret] is the result of [chdir]. *)
Definition snapshot_load (chdir_ret : Z) (fopen_ok : bool) (env : nat -> line_env) (s : store) (cl : datasevr_cluster) (fs : snapshot_files) :
    outcome (store * datasevr_cluster * Z) :=
  if negb (chdir_ret =? 0) then Ret (s, cl, chdir_ret)
  else match sf_dat fs with
       | None => Ret (s, cl, LFS_OK)
       | Some text => __snapshot_data_load fopen_ok env s cl text
       end.

(** ** What a snapshot keeps *)

(** A block that a snapshot can hold: [m] and [ip] are its two strings. *)
Record savable (d : datasevr_block) (m ip : bytes) : Prop := {
  sv_ids : is_u 32 (parent_volume_id d) /\ is_u 32 (block_id d);
  sv_type : is_s 32 (int_of_type (type d)) /\ type_of_int (int_of_type (type d)) = type d;
  sv_ints : is_s 32 (port d) /\ is_s 32 (weight d) /\ is_s 32 (heart_beat_interval d);
  sv_longs : is_s 64 (reg_time d) /\ is_s 64 (started_time d) /\ is_s 64 (last_sync_sequence d);
  sv_map_info : c_string (map_info d) = Ret m /\ column_ok m /\ (length m < LFS_DATASERVER_MAP_INFO_SIZE)%nat;
  sv_ip_addr : c_string (ip_addr d) = Ret ip /\ column_ok ip /\ (length ip < IP_ADDRESS_SIZE)%nat;
  sv_fits : (length (pr_line (snapshot_columns d m ip)) < snapshot_buff_size)%nat
}.

(** The block that a restarted tracker has for it. *)
Definition restored (d : datasevr_block) (m ip : bytes) : datasevr_block :=
  mk_block (parent_volume_id d) (block_id d) off_line (pad LFS_DATASERVER_MAP_INFO_SIZE m) (pad IP_ADDRESS_SIZE ip) (type d)
    (port d) 0 (weight d) (heart_beat_interval d) 0 0 (reg_time d) (started_time d) (last_sync_sequence d) 0 0.

(** ** Lemmas: one line *)

Lemma snapshot_columns_ok d m ip : column_ok m -> column_ok ip -> Forall column_ok (snapshot_columns d m ip).
Proof. intros. unfold snapshot_columns. repeat (apply Forall_cons; split); auto using pr_dec_column. Qed.

Lemma snapshot_line_ok d m ip : savable d m ip -> snapshot_line d = Ret (pr_line (snapshot_columns d m ip)).
Proof.
  intros [_ _ _ _ [Hm _] [Hip _] Hf]. unfold snapshot_line. rewrite Hm, Hip. cbn [mbind outcome_bind].
  by rewrite (proj2 (Nat.ltb_lt _ _)).
Qed.

Lemma load_field_nl e cols k c : Forall column_ok cols -> cols !! k = Some c -> load_field e (nl_last cols) k = Ret c.
Proof.
  intros Hok Hk. unfold load_field. destruct (nl_last cols !! k) as [t|] eqn:E.
  - pose proof (nl_last_trim (le_trim e) cols k c Hok Hk) as Ht. unfold trimmed in Ht. rewrite E in Ht. by f_equal.
  - apply lookup_ge_None in E. rewrite length_nl_last in E. apply lookup_lt_Some in Hk. lia.
Qed.

Lemma buf_write_field n t : (length t < n)%nat -> buf_write (replicate n 0) 0 (take (n - 1) t ++ [0]) = Ret (pad n t).
Proof.
  intros Hl. rewrite take_ge by lia. change (replicate n 0) with ([] ++ zeros n).
  rewrite (buf_write_zeros [] n (t ++ [0]) 0) by (rewrite ?length_app; cbn; lia). f_equal. cbn [app zeros replicate].
  rewrite length_app, pad_nul by done. cbn [length]. rewrite <- app_assoc. cbn [app]. do 3 f_equal. lia.
Qed.

Lemma load_block_saved e d m ip : savable d m ip ->
  load_block e (nl_last (snapshot_columns d m ip)) zero_block = Ret (restored d m ip).
Proof.
  intros [ [H1 H2] [H3 H3'] (H4 & H5 & H6) (H7 & H8 & H9) (_ & Hm & Hlm) (_ & Hi & Hli) _].
  pose proof (snapshot_columns_ok d m ip Hm Hi) as Hok. unfold load_block.
  rewrite (load_field_nl _ _ 0 _ Hok eq_refl), (load_field_nl _ _ 1 _ Hok eq_refl), (load_field_nl _ _ 2 _ Hok eq_refl),
    (load_field_nl _ _ 3 _ Hok eq_refl), (load_field_nl _ _ 4 _ Hok eq_refl), (load_field_nl _ _ 5 _ Hok eq_refl),
    (load_field_nl _ _ 6 _ Hok eq_refl), (load_field_nl _ _ 7 _ Hok eq_refl), (load_field_nl _ _ 8 _ Hok eq_refl),
    (load_field_nl _ _ 9 _ Hok eq_refl), (load_field_nl _ _ 10 _ Hok eq_refl).
  cbn [mbind outcome_bind map_info ip_addr zero_block]. rewrite buf_write_field by done. cbn [mbind outcome_bind].
  rewrite buf_write_field by done. cbn [mbind outcome_bind].
  assert (forall z, is_u 32 z -> u32 (atoi (pr_dec z)) = z) as Hu.
  { intros z Hz. rewrite <- (app_nil_r (pr_dec z)). by apply atoi_pr_u32. }
  unfold restored. by rewrite !Hu, !atoi_pr_int, !atol_pr_long, H3'.
Qed.

(** ** Lemmas: loading a file *)

(** A saved block with its two strings. *)
Abbreviation saved := (datasevr_block * bytes * bytes)%type.
Implicit Types (x : saved) (xs : list saved).

Definition saved_line x : bytes := pr_line (snapshot_columns x.1.1 x.1.2 x.2).
Definition restore x : datasevr_block := restored x.1.1 x.1.2 x.2.
Definition savable_all xs : Prop := Forall (fun x => savable x.1.1 x.1.2 x.2) xs.

(** The first block of a volume is its master, whatever its type was. *)
Definition first_master (ds : list datasevr_block) : list datasevr_block :=
  match ds with
  | [] => []
  | d :: ds' => set_type d master_server :: ds'
  end.

(** The blocks of volume [vid] once [xs] have been loaded. *)
Definition reloaded (vid : Z) xs : list datasevr_block :=
  first_master (restore <$> base.filter (fun x => parent_volume_id x.1.1 = vid) xs).

(** The volumes [M] hold the blocks [xs]. *)
Definition loaded (s : store) (M : gmap Z (list bloc)) xs : Prop :=
  forall vid, Forall2 (fun b d => st_blocks s !! b = Some d /\ (b < st_brk s)%nat) (default [] (M !! vid)) (reloaded vid xs) /\
    M !! vid <> Some [].

Definition loading (s : store) (cl : datasevr_cluster) (M : gmap Z (list bloc)) xs : Prop :=
  members s cl M /\ expanding cl = false /\ (forall n, st_oracle s n = true) /\ loaded s M xs.

Lemma first_master_snoc ds d : first_master (ds ++ [d]) = first_master ds ++ [if decide (ds = []) then set_type d master_server else d].
Proof. destruct ds; [done|]. cbn. by rewrite decide_False. Qed.

Lemma first_master_nil ds : first_master ds = [] <-> ds = [].
Proof. by destruct ds. Qed.

Lemma reloaded_snoc vid xs x : reloaded vid (xs ++ [x]) =
  if decide (parent_volume_id x.1.1 = vid)
  then reloaded vid xs ++ [if decide (reloaded vid xs = []) then set_type (restore x) master_server else restore x]
  else reloaded vid xs.
Proof.
  unfold reloaded. rewrite filter_app. case_decide as Hd.
  - rewrite filter_cons_True, filter_nil by done. rewrite fmap_app. cbn [fmap list_fmap]. rewrite first_master_snoc.
    do 2 f_equal. apply decide_ext. symmetry. apply first_master_nil.
  - by rewrite filter_cons_False, filter_nil, app_nil_r.
Qed.

Lemma loaded_snoc s s' M xs x b : loaded s M xs -> b = st_brk s -> (st_brk s < st_brk s')%nat ->
  let bs := default [] (M !! parent_volume_id x.1.1) in
  st_blocks s' = <[b := (if decide (bs = []) then set_type (restore x) master_server else restore x)]> (<[b := restore x]> (<[b := zero_block]> (st_blocks s))) ->
  loaded s' (<[parent_volume_id x.1.1 := bs ++ [b]]> M) (xs ++ [x]).
Proof.
  intros Hl -> Hk bs Hs vid. set (pvid := parent_volume_id x.1.1) in *. rewrite reloaded_snoc. fold pvid.
  assert (forall vid, Forall2 (fun b d => st_blocks s' !! b = Some d /\ (b < st_brk s')%nat) (default [] (M !! vid)) (reloaded vid xs)) as Hold.
  { intros v. destruct (Hl v) as [Hf _]. eapply Forall2_impl; [done|]. intros b d [Hb Hlt]. split; [|lia].
    rewrite Hs, !lookup_insert_ne by lia. done. }
  destruct (decide (pvid = vid)) as [Hv|Hv].
  - rewrite <- Hv, lookup_insert_eq. cbn [default]. split; [|intros [= E]; by destruct bs].
    apply Forall2_app; [apply Hold|]. constructor; [|constructor]. rewrite Hs, lookup_insert_eq. split; [|lia]. f_equal.
    apply decide_ext. specialize (Hold pvid). fold bs in Hold. apply Forall2_length in Hold.
    split; intros E; rewrite E in Hold; by destruct bs, (reloaded pvid xs).
  - rewrite lookup_insert_ne by done. split; [apply Hold|apply Hl].
Qed.

Lemma load_line_saved e s cl M xs x : loading s cl M xs -> savable x.1.1 x.1.2 x.2 ->
  exists s' cl' M', load_line e s cl (saved_line x) = Ret (s', cl', true) /\ loading s' cl' M' (xs ++ [x]).
Proof.
  intros (Hm & He & Ho & Hl) Hx. pose proof Hx as [_ _ _ _ (_ & Hc1 & _) (_ & Hc2 & _) _].
  pose proof (snapshot_columns_ok x.1.1 _ _ Hc1 Hc2) as Hcols. unfold load_line, saved_line.
  destruct (cstr (pr_line _)) eqn:E; [by apply cstr_pr_line in E|]. clear E.
  rewrite (columns_pr_line VOLUME_BLOCK_BINLOG_DATAFILEDS) by done. rewrite length_nl_last. cbn [length snapshot_columns].
  change (negb (Z.of_nat 11 =? VOLUME_BLOCK_BINLOG_DATAFILEDS) && _) with false. cbv iota.
  destruct (block_new s) as [s1 ob] eqn:Hn. pose proof (block_new_members s cl M s1 ob Hm Hn) as Hm1.
  unfold block_new, s_malloc in Hn. rewrite Ho in Hn. injection Hn as <- <-.
  set (s1 := mk_store _ _ _ _ _) in *. set (b := st_brk s) in *.
  assert (get_block s1 b = Ret zero_block) as -> by (unfold get_block; cbn; by rewrite lookup_insert_eq).
  cbn [mbind outcome_bind]. rewrite load_block_saved by done. cbn [mbind outcome_bind]. fold (restore x).
  pose proof (put_block_members s1 cl M b (restore x) Hm1) as Hm2. set (s2 := put_block s1 b (restore x)) in *.
  assert (st_blocks s2 !! b = Some (restore x)) as Hb by (cbn; by rewrite lookup_insert_eq).
  destruct (block_insert_members s2 cl M b (restore x) Hm2 Hb) as (s' & cl' & Hi & Hreg); [congruence|].
  destruct (insert_frame _ _ _ _ _ _ Hi) as [He' Ho']. rewrite Hi. cbn [mbind outcome_bind].
  destruct Hreg as [Hk [ [Hm' Hbl]|(_ & _ & n & Hbad)] ]; [|cbn in Hbad; by rewrite Ho in Hbad].
  exists s', cl'. eexists. split; [done|]. split; [exact Hm'|]. split; [congruence|]. split; [by rewrite Ho'|].
  apply (loaded_snoc s); [done|done|cbn in Hk; lia|exact Hbl].
Qed.

Lemma load_lines_saved fuel env n s cl M xs ys : loading s cl M xs -> savable_all ys ->
  (length ys <= fuel)%nat ->
  exists s' cl' M', load_lines fuel env n s cl (concat (saved_line <$> ys)) = Ret (s', cl') /\ loading s' cl' M' (xs ++ ys).
Proof.
  intros Hl Hs. revert fuel n s cl M xs Hl. induction Hs as [|y ys Hy Hys IH]; intros fuel n s cl M xs Hl Hf.
  - exists s, cl, M. rewrite app_nil_r. split; [by destruct fuel|done].
  - destruct fuel as [|fuel]; [cbn in Hf; lia|]. cbn [fmap list_fmap concat load_lines].
    pose proof Hy as [_ _ _ _ (_ & Hc1 & _) (_ & Hc2 & _) Hfit]. pose proof (snapshot_columns_ok y.1.1 _ _ Hc1 Hc2) as Hcols.
    unfold saved_line at 1. rewrite fgets_pr_line by (done || unfold sline_size; unfold snapshot_buff_size in Hfit; lia).
    destruct (load_line_saved (env n) s cl M xs y Hl Hy) as (s1 & cl1 & M1 & Hr & Hl1). unfold saved_line in Hr. rewrite Hr.
    cbn [mbind outcome_bind]. destruct (IH fuel (S n) s1 cl1 M1 _ Hl1) as (s2 & cl2 & M2 & Hr2 & Hl2); [cbn in Hf; lia|].
    exists s2, cl2, M2. split; [done|]. by rewrite <- app_assoc in Hl2.
Qed.

Lemma length_saved_lines xs : (length xs <= length (concat (saved_line <$> xs)))%nat.
Proof.
  induction xs as [|x xs IH]; [done|]. cbn [fmap list_fmap concat length]. rewrite length_app. unfold saved_line at 1.
  destruct (pr_line_cons (snapshot_columns x.1.1 x.1.2 x.2)) as (c & r & ->). cbn [length]. lia.
Qed.

(** ** Lemmas: writing a file *)

(** Every call succeeds; [lock_ok] is free. *)
Record flush_ok (e : flush_env) : Prop := {
  fo_open : open_ok e = true;
  fo_write k n : write_n e k n = n;
  fo_fsync : fsync_ok e = true;
  fo_rename : rename_ok e = true
}.

Definition with_strings (d : datasevr_block) : saved := (d, cstr (map_info d), cstr (ip_addr d)).
Definition saved_of (s : store) (b : bloc) : saved := with_strings (default zero_block (st_blocks s !! b)).

Definition volume_saved (s : store) (dv : datasevr_volume) : list saved :=
  match blocks dv with
  | None => []
  | Some arr => saved_of s <$> omap id (take (Z.to_nat (block_count dv)) arr)
  end.

Definition node_saved (s : store) (n : vnode) : list saved := volume_saved s n.2.

(** The blocks of volume [vid] can be saved. *)
Definition savable_block (s : store) (vid : Z) (b : bloc) : Prop :=
  exists d, st_blocks s !! b = Some d /\ parent_volume_id d = vid /\ savable d (cstr (map_info d)) (cstr (ip_addr d)).

Definition savable_members (s : store) (M : gmap Z (list bloc)) : Prop :=
  forall vid bs, M !! vid = Some bs -> Forall (savable_block s vid) bs.

(** The volumes of the buckets whose lock was free. *)
Fixpoint visited (e : flush_env) (i : Z) (pss : list (list vnode)) : list vnode :=
  match pss with
  | [] => []
  | xs :: pss' => (if lock_ok e i then xs else []) ++ visited e (i + 1) pss'
  end.

Section Flush.
Context (e : flush_env) (He : flush_ok e) (s : store).

Definition good_volume (x : vnode) : Prop :=
  exists bs, volume_blocks s x.2 bs /\ Forall (savable_block s (volume_id x.2)) bs.

Lemma volume_saved_blocks dv bs : volume_blocks s dv bs -> volume_saved s dv = saved_of s <$> bs.
Proof.
  intros (arr & Ha & _ & Hc & _ & Ht & _). unfold volume_saved. rewrite Ha, Hc, Nat2Z.id, Ht. f_equal.
  clear. induction bs as [|b bs IH]; [done|]. cbn. by rewrite IH.
Qed.

Lemma flush_block_saved vid b out w : savable_block s vid b ->
  flush_block e s (mk_flush out w 0) b = Ret (mk_flush (out ++ saved_line (saved_of s b)) (S w) 0, true).
Proof.
  intros (d & Hb & _ & Hd). unfold flush_block, get_block, saved_of. rewrite Hb. cbn [get_or mbind outcome_bind default].
  rewrite (snapshot_line_ok _ _ _ Hd). cbn [mbind outcome_bind fl_writes fl_out fl_ret].
  by rewrite (fo_write _ He), Z.eqb_refl, Nat2Z.id, firstn_all.
Qed.

Lemma flush_blocks_saved vid bs out w : Forall (savable_block s vid) bs ->
  exists w', flush_blocks e s (mk_flush out w 0) (Some <$> bs) = Ret (mk_flush (out ++ concat (saved_line <$> (saved_of s <$> bs))) w' 0).
Proof.
  intros H. revert out w. induction H as [|b bs Hb _ IH]; intros out w.
  - exists w. cbn. by rewrite app_nil_r.
  - cbn [fmap list_fmap flush_blocks]. rewrite (flush_block_saved vid) by done. cbn [mbind outcome_bind].
    destruct (IH (out ++ saved_line (saved_of s b)) (S w)) as [w' ->]. exists w'. cbn [concat fmap list_fmap]. by rewrite app_assoc.
Qed.

Lemma flush_volume_saved (x : vnode) out w : good_volume x ->
  exists w', flush_volume e s (mk_flush out w 0) x.2 = Ret (mk_flush (out ++ concat (saved_line <$> volume_saved s x.2)) w' 0).
Proof.
  intros (bs & Hbs & Hg). pose proof Hbs as (arr & Ha & Hla & Hc & Hle & Ht & _). unfold flush_volume.
  rewrite (volume_saved_blocks _ _ Hbs), Ha, Hla, (proj2 (Z.leb_le _ _) Hle), Hc, Nat2Z.id, Ht. by apply (flush_blocks_saved (volume_id x.2)).
Qed.

Lemma flush_chain_saved fuel p (xs : list vnode) out w : vchain (st_volumes s) p xs -> (length xs <= fuel)%nat -> Forall good_volume xs ->
  exists w', flush_chain fuel e s (mk_flush out w 0) p =
    Ret (mk_flush (out ++ concat (saved_line <$> (xs ≫= node_saved s))) w' 0).
Proof.
  revert fuel p out w. induction xs as [|[v d] xs IH]; intros fuel p out w Hc Hf Hg; cbn in Hc.
  - subst p. exists w. destruct fuel; cbn; by rewrite app_nil_r.
  - destruct Hc as (-> & Hv & Hc). destruct fuel as [|fuel]; [cbn in Hf; lia|]. apply Forall_cons in Hg as [Hx Hg].
    cbn [flush_chain]. unfold get_volume. rewrite Hv. cbn [get_or mbind outcome_bind].
    destruct (flush_volume_saved (v, d) out w Hx) as [w1 Hr]. cbn [snd] in Hr. rewrite Hr. cbn [mbind outcome_bind].
    destruct (IH fuel (next d) (out ++ concat (saved_line <$> volume_saved s d)) w1 Hc) as [w2 ->]; [cbn in Hf; lia|done|].
    exists w2. rewrite bind_cons. unfold node_saved at 2. cbn [snd]. by rewrite fmap_app, concat_app, app_assoc.
Qed.

Lemma flush_buckets_saved pre tab pss out w : Forall2 (vchain (st_volumes s)) tab pss ->
  Forall (fun xs : list vnode => (length xs <= size (st_volumes s))%nat) pss -> Forall good_volume (concat pss) ->
  exists w', flush_buckets (length tab) e s (pre ++ tab) (Z.of_nat (length pre)) (mk_flush out w 0) =
    Ret (mk_flush (out ++ concat (saved_line <$> (visited e (Z.of_nat (length pre)) pss ≫= node_saved s))) w' 0).
Proof.
  intros Hf. revert pre out w. induction Hf as [|p xs tab pss Hc _ IH]; intros pre out w Hl Hg.
  - exists w. cbn. by rewrite app_nil_r.
  - apply Forall_cons in Hl as [Hx Hl]. cbn [concat] in Hg. apply Forall_app in Hg as [Hgx Hg].
    cbn [length flush_buckets visited]. rewrite zlookup_nat, lookup_app_r, Nat.sub_diag by lia. cbn [lookup list_lookup get_or].
    assert (forall out w, exists w', flush_buckets (length tab) e s (pre ++ p :: tab) (Z.of_nat (length pre) + 1) (mk_flush out w 0) =
      Ret (mk_flush (out ++ concat (saved_line <$> (visited e (Z.of_nat (length pre) + 1) pss ≫= node_saved s))) w' 0)) as Hrest.
    { intros out' w'. destruct (IH (pre ++ [p]) out' w' Hl Hg) as [w2 Hr]. exists w2.
      rewrite length_app, <- app_assoc in Hr. cbn [length app] in Hr. by rewrite Nat2Z.inj_add in Hr. }
    destruct (lock_ok e (Z.of_nat (length pre))).
    + cbn [mbind outcome_bind]. destruct (flush_chain_saved _ p xs out w Hc Hx Hgx) as [w1 ->]. cbn [mbind outcome_bind].
      destruct (Hrest (out ++ concat (saved_line <$> (xs ≫= node_saved s))) w1) as [w2 ->]. exists w2.
      by rewrite bind_app, fmap_app, concat_app, app_assoc.
    + cbn [mbind outcome_bind app]. apply Hrest.
Qed.
End Flush.

(** ** Lemmas: what the file holds *)

Lemma elem_of_visited e i pss (n : vnode) : n ∈ visited e i pss <->
  exists k ns, pss !! k = Some ns /\ n ∈ ns /\ lock_ok e (i + Z.of_nat k) = true.
Proof.
  revert i. induction pss as [|ns pss IH]; intros i; cbn [visited].
  - split; [by intros ?%not_elem_of_nil|by intros (k & ns & H & _)].
  - rewrite elem_of_app, IH. split.
    + intros [H|(k & ns' & H1 & H2 & H3)].
      * exists 0%nat, ns. rewrite Z.add_0_r. destruct (lock_ok e i); [done|by apply not_elem_of_nil in H].
      * exists (S k), ns'. split_and!; [done|done|]. by replace (i + Z.of_nat (S k)) with (i + 1 + Z.of_nat k) by lia.
    + intros ([|k] & ns' & H1 & H2 & H3); cbn in H1.
      * injection H1 as ->. rewrite Z.add_0_r in H3. left. by rewrite H3.
      * right. exists k, ns'. split_and!; [done|done|]. by replace (i + 1 + Z.of_nat k) with (i + Z.of_nat (S k)) by lia.
Qed.

Lemma visited_sublist e i pss : visited e i pss `sublist_of` concat pss.
Proof.
  revert i. induction pss as [|ns pss IH]; intros i; cbn; [constructor|].
  apply sublist_app; [|apply IH]. destruct (lock_ok e i); [done|apply sublist_nil_l].
Qed.

(** The buckets of a cluster that is not being expanded. *)
Lemma members_buckets s cl M : members s cl M -> expanding cl = false ->
  exists pss, Forall2 (vchain (st_volumes s)) (primary_volumes cl) pss /\
    Z.of_nat (length (primary_volumes cl)) = hashsize (hash_size cl) /\
    Forall (fun ns : list vnode => (length ns <= size (st_volumes s))%nat) pss /\
    NoDup ((fun n : vnode => volume_id n.2) <$> concat pss) /\
    (forall k ns (n : vnode), pss !! k = Some ns -> n ∈ ns -> volume_id n.2 mod 2 ^ hash_size cl = Z.of_nat k /\
       exists bs, M !! volume_id n.2 = Some bs /\ volume_blocks s n.2 bs) /\
    (forall vid bs, M !! vid = Some bs -> exists n : vnode, n ∈ concat pss /\ volume_id n.2 = vid).
Proof.
  intros (P & [(pss & oss & Hf & Hpl & _ & Hp & Hold) Hl Hid Hsz Hlen] & Hv & Hd & _) He. rewrite He in Hold. subst oss. cbn in Hp.
  assert (NoDup (concat pss).*1) as Hnd by (by rewrite <- vitems_fst, Hp).
  exists pss. split_and!; [done| | | | |].
  - rewrite Hlen. unfold hashsize. by rewrite Z.shiftl_1_l.
  - apply Forall_lookup. intros k ns Hk. destruct (Forall2_lookup_r _ _ _ _ _ Hf Hk) as (p & Hpk & _).
    destruct (bucket_chain s _ _ k Hf Hnd) as (p' & ns' & _ & Hk' & _ & Hle); [by eapply lookup_lt_Some|congruence].
  - rewrite <- Hp in Hid. unfold vitems in Hid. rewrite <- list_fmap_compose in Hid. exact Hid.
  - intros k ns n Hk Hn. split; [by destruct (Hpl k ns n Hk Hn)|]. pose proof (elem_of_concat _ _ _ _ Hk Hn) as Hin.
    destruct (Hv n.1 (volume_id n.2)) as (dv & bs & Hdv & HM & Hok & _); [rewrite <- Hp; destruct n; by apply elem_of_vitems|].
    rewrite (Forall2_chain_lookup _ _ _ _ Hf Hin) in Hdv. injection Hdv as <-. eauto.
  - intros vid bs HM. destruct (Hd vid bs HM) as [v Hin]. rewrite <- Hp in Hin. apply list_elem_of_fmap in Hin as (n & Hn & Hin).
    exists n. split; [done|]. by injection Hn.
Qed.

Lemma flush_saved e s cl M fs : flush_ok e -> members s cl M -> expanding cl = false -> savable_members s M ->
  exists ys, __snapshot_flush e s cl fs = Ret (mk_files (Some (concat (saved_line <$> ys))) None) /\ savable_all ys /\
    forall vid, base.filter (fun y : saved => parent_volume_id y.1.1 = vid) ys =
      if lock_ok e (vid mod 2 ^ hash_size cl) then saved_of s <$> default [] (M !! vid) else [].
Proof.
  intros He Hm Hx Hs. destruct (members_buckets s cl M Hm Hx) as (pss & Hf & Hlen & Hsz & Hid & Hn & HM).
  assert (forall n : vnode, n ∈ concat pss -> exists bs, M !! volume_id n.2 = Some bs /\ volume_blocks s n.2 bs /\
            Forall (savable_block s (volume_id n.2)) bs) as Hgood.
  { intros n (k & ns & Hk & Hin)%elem_of_concat_inv. destruct (Hn k ns n Hk Hin) as (_ & bs & Hb & Hv). exists bs. eauto. }
  destruct (flush_buckets_saved e He s [] (primary_volumes cl) pss [] 0 Hf Hsz) as [w Hr].
  { apply Forall_forall. intros n Hin. destruct (Hgood n Hin) as (bs & _ & ? & ?). by exists bs. }
  cbn [app length] in Hr. change (Z.of_nat 0) with 0 in Hr. set (vs := visited e 0 pss) in *. exists (vs ≫= node_saved s).
  assert (forall n : vnode, n ∈ vs -> n ∈ concat pss) as Hsub.
  { intros n Hin. eapply elem_of_sublist; [exact Hin|apply visited_sublist]. }
  assert (forall (n : vnode) (y : saved), n ∈ vs -> y ∈ node_saved s n ->
            parent_volume_id y.1.1 = volume_id n.2 /\ savable y.1.1 y.1.2 y.2) as Hkey.
  { intros n y Hin Hy. destruct (Hgood n (Hsub n Hin)) as (bs & _ & Hv & Hg). unfold node_saved in Hy.
    rewrite (volume_saved_blocks s n.2 bs Hv) in Hy. apply list_elem_of_fmap in Hy as (b & -> & Hb).
    rewrite Forall_forall in Hg. destruct (Hg b Hb) as (d & Hd & Hp & Hsv). unfold saved_of. by rewrite Hd. }
  split_and!.
  - unfold __snapshot_flush, LFS_OK. rewrite (fo_open _ He). cbn [negb]. rewrite <- Hlen, Nat2Z.id, Hr. cbn [mbind outcome_bind fl_ret fl_out].
    by rewrite (fo_fsync _ He), (fo_rename _ He).
  - apply Forall_forall. intros y (n & Hy & Hin)%list_elem_of_bind. by apply (Hkey n y).
  - intros vid. destruct (lock_ok e (vid mod 2 ^ hash_size cl)) eqn:El; cycle 1.
    { apply (filter_other (fun n : vnode => volume_id n.2)); [intros n y Hin Hy; by apply (Hkey n y)|].
      intros n (k & ns & Hk & Hin & Hlk)%elem_of_visited <-. destruct (Hn k ns n Hk Hin) as [Hmod _]. rewrite Hmod in El. rewrite Z.add_0_l in Hlk. congruence. }
    destruct (M !! vid) as [bs|] eqn:HMv; cbn [default from_option]; cycle 1.
    { apply (filter_other (fun n : vnode => volume_id n.2)); [intros n y Hin Hy; by apply (Hkey n y)|].
      intros n Hin <-. destruct (Hgood n (Hsub n Hin)) as (bs & Hb & _). congruence. }
    destruct (HM vid bs HMv) as (n & Hin & Hnv). destruct (Hgood n Hin) as (bs' & Hb' & Hv & _). assert (bs' = bs) as -> by congruence.
    rewrite (filter_group (fun n : vnode => volume_id n.2) (node_saved s) _ vs vid n).
    + unfold node_saved. by apply volume_saved_blocks.
    + eapply sublist_NoDup; [exact Hid|]. apply fmap_sublist, visited_sublist.
    + intros n' y Hn' Hy. by apply (Hkey n' y).
    + apply elem_of_visited. apply elem_of_concat_inv in Hin as (k & ns & Hk & Hin). exists k, ns. split_and!; [done|done|].
      destruct (Hn k ns n Hk Hin) as [Hmod _]. rewrite Hnv in Hmod. by rewrite Hmod in El.
    + done.
Qed.

(** ** Theorems *)

(** A tracker that is restarted has what the snapshot saved: when every call of
    the flush succeeds, the volumes whose bucket could be locked come back with
    their blocks in the same order, every block with its ids, address, type,
    weight, times and sequence, off line, the first of a volume as its master;
    the volumes of a bucket that another thread had locked are lost. *)
Theorem snapshot_restores e s cl M fs env s0 cl0 : flush_ok e -> members s cl M -> expanding cl = false -> savable_members s M ->
  members s0 cl0 ∅ -> expanding cl0 = false -> (forall n, st_oracle s0 n = true) ->
  exists fs' s' cl' M', __snapshot_flush e s cl fs = Ret fs' /\
    snapshot_load 0 true env s0 cl0 fs' = Ret (s', cl', LFS_OK) /\ members s' cl' M' /\
    forall vid, Forall2 (fun b d => st_blocks s' !! b = Some d) (default [] (M' !! vid))
      (if lock_ok e (vid mod 2 ^ hash_size cl)
       then first_master (restore <$> (saved_of s <$> default [] (M !! vid))) else []).
Proof.
  intros He Hm Hx Hs Hm0 Hx0 Ho0. destruct (flush_saved e s cl M fs He Hm Hx Hs) as (ys & Hfl & Hys & Hfilter).
  assert (loading s0 cl0 ∅ []) as Hl0.
  { split_and!; [done..|]. intros vid. rewrite lookup_empty. split; [constructor|done]. }
  destruct (load_lines_saved (length (concat (saved_line <$> ys))) env 0 s0 cl0 ∅ [] ys Hl0 Hys (length_saved_lines ys))
    as (s' & cl' & M' & Hr & Hm' & _ & _ & Hl).
  exists (mk_files (Some (concat (saved_line <$> ys))) None), s', cl', M'. split_and!; [done| |done|].
  - unfold snapshot_load, __snapshot_data_load. change (0 =? 0) with true. cbn [negb sf_dat]. by rewrite Hr.
  - intros vid. destruct (Hl vid) as [Hf _]. unfold reloaded in Hf. cbn [app] in Hf. rewrite Hfilter in Hf.
    destruct (lock_ok e _); cbn [fmap list_fmap first_master] in Hf.
    + eapply Forall2_impl; [exact Hf|]. by intros b d [? _].
    + eapply Forall2_impl; [exact Hf|]. by intros b d [? _].
Qed.

(** Whole lines: what a flush without a failed call has written. *)
Definition whole_lines (s : store) (text : bytes) : Prop :=
  exists lines, text = concat lines /\ Forall (fun l => exists b d, st_blocks s !! b = Some d /\ snapshot_line d = Ret l) lines.

Definition flush_inv (s : store) (st : flush_state) : Prop := fl_ret st = 0 -> whole_lines s (fl_out st).

Lemma errno_or_eio_nz n : errno_or_eio n <> 0.
Proof. unfold errno_or_eio. by zcase (n =? 0). Qed.

Lemma flush_block_inv e s st b st' go : flush_inv s st -> flush_block e s st b = Ret (st', go) -> flush_inv s st'.
Proof.
  intros Hi Hr. unfold flush_block, get_block in Hr. destruct (st_blocks s !! b) as [d|] eqn:Hb; cbn [get_or mbind outcome_bind] in Hr; [|done].
  destruct (snapshot_line d) as [l|] eqn:Hl; cbn [mbind outcome_bind] in Hr; [|done].
  zcase (write_n e (fl_writes st) (Z.of_nat (length l)) =? Z.of_nat (length l)); cbn [negb] in Hr; injection Hr as <- _.
  - intros Hz. rewrite E, Nat2Z.id, firstn_all. cbn [fl_out]. destruct (Hi Hz) as (ls & Hls & Hf). exists (ls ++ [l]).
    rewrite concat_app, <- Hls. cbn. rewrite app_nil_r. split; [done|]. apply Forall_app. split; [done|]. repeat constructor. eauto.
  - intros Hz. by apply errno_or_eio_nz in Hz.
Qed.

Lemma flush_blocks_inv e s st bs st' : flush_inv s st -> flush_blocks e s st bs = Ret st' -> flush_inv s st'.
Proof.
  revert st. induction bs as [|[b|] bs IH]; intros st Hi Hr; cbn [flush_blocks] in Hr; [by simplify_eq| |by eapply IH].
  destruct (flush_block e s st b) as [ [st1 go]|] eqn:Hb; cbn [mbind outcome_bind] in Hr; [|done].
  pose proof (flush_block_inv _ _ _ _ _ _ Hi Hb). destruct go; [by eapply IH|by simplify_eq].
Qed.

Lemma flush_chain_inv fuel e s st p st' : flush_inv s st -> flush_chain fuel e s st p = Ret st' -> flush_inv s st'.
Proof.
  revert st p. induction fuel as [|fuel IH]; intros st [v|] Hi Hr; cbn [flush_chain] in Hr; try done; [by simplify_eq| |by simplify_eq].
  destruct (get_volume s v) as [dv|]; cbn [mbind outcome_bind] in Hr; [|done].
  destruct (flush_volume e s st dv) as [st1|] eqn:Hv; cbn [mbind outcome_bind] in Hr; [|done].
  eapply IH; [|exact Hr]. unfold flush_volume in Hv. destruct (blocks dv); [|by simplify_eq].
  destruct (block_count dv <=? _); [|done]. by eapply flush_blocks_inv.
Qed.

Lemma flush_buckets_inv n e s prim i st st' : flush_inv s st -> flush_buckets n e s prim i st = Ret st' -> flush_inv s st'.
Proof.
  revert i st. induction n as [|n IH]; intros i st Hi Hr; cbn [flush_buckets] in Hr; [by simplify_eq|].
  destruct (lock_ok e i); [|by eapply IH].
  destruct (get_or OutOfBounds (zlookup prim i)) as [p|]; cbn [mbind outcome_bind] in Hr; [|done].
  destruct (flush_chain _ e s st p) as [st1|] eqn:Hc; cbn [mbind outcome_bind] in Hr; [|done].
  eapply IH; [|exact Hr]. by eapply flush_chain_inv.
Qed.

(** C31. The snapshot file is never torn: whatever calls fail during a flush, and
    whichever buckets are locked, volume_blocks.dat afterwards is the old file or
    consists of whole lines, each of them of a block of the tracker. *)
Theorem snapshot_never_torn e s cl fs fs' : __snapshot_flush e s cl fs = Ret fs' ->
  sf_dat fs' = sf_dat fs \/ exists text, sf_dat fs' = Some text /\ whole_lines s text.
Proof.
  unfold __snapshot_flush. intros Hr. destruct (open_ok e); cbn [negb] in Hr; [|injection Hr as <-; by left].
  destruct (flush_buckets _ e s _ _ _) as [st|] eqn:Hb; cbn [mbind outcome_bind] in Hr; [|done].
  apply flush_buckets_inv in Hb; [|intros _; by exists []].
  destruct ((fl_ret st =? 0) && negb (fsync_ok e)) eqn:Ef.
  - injection Hr as <-. zcase (errno_or_eio (fsync_errno e) =? 0); [by apply errno_or_eio_nz in E|]. by left.
  - zcase (fl_ret st =? 0); cbn [andb] in Hr; [|injection Hr as <-; by left].
    destruct (rename_ok e); injection Hr as <-; [|by left]. right. eexists. split; [done|]. by apply Hb.
Qed.

(** ** The snapshot thread and the maintenance thread

    The maintenance thread of ts_cluster.c holds [snapshot_lock] from before
    [__cluster_expand] until the last bucket has been moved; the snapshot thread
    holds it while it flushes. *)

Inductive locker := lock_free | lock_snapshot | lock_maintenance.

(** Where the snapshot thread is: in [pthread_cond_wait], woken up but without
    the lock, or in [__snapshot_flush]. *)
Inductive flusher_pc := fl_waiting | fl_woken | fl_flushing.

(** Where the maintenance thread is: waiting for work, woken up, between
    [snapshot_hangup] and [__cluster_expand], or moving buckets. *)
Inductive maint_pc := mt_waiting | mt_woken | mt_hung | mt_moving.

Record snap_world := mk_sw {
  sw_store : store;
  sw_cluster : datasevr_cluster;
  sw_lock : locker;
  sw_flusher : flusher_pc;
  sw_maint : maint_pc
}.

Inductive snapshot_stat := SNAPSHOT_STARTED | SNAPSHOT_STOP | SNAPSHOT_RUNNING.

(** The lock is taken and released within the call. *)
Definition do_snapshot (w : snap_world) : snapshot_stat * snap_world :=
  match sw_lock w with
  | lock_free =>
      (SNAPSHOT_STARTED,
       mk_sw (sw_store w) (sw_cluster w) lock_free
         (match sw_flusher w with fl_waiting => fl_woken | pc => pc end) (sw_maint w))
  | _ => (SNAPSHOT_RUNNING, w)
  end.

(** [None]: the caller blocks. *)
Definition snapshot_hangup (w : snap_world) : option snap_world :=
  match sw_lock w with
  | lock_free => Some (mk_sw (sw_store w) (sw_cluster w) lock_maintenance (sw_flusher w) mt_hung)
  | _ => None
  end.

(** After [__cluster_expand]; [snapshot_wakeup] when it failed. *)
Definition maint_expand (ok : bool) (w : snap_world) : snap_world :=
  let cl := __cluster_expand ok (sw_cluster w) in
  mk_sw (sw_store w) cl (if expanding cl then sw_lock w else lock_free) (sw_flusher w) (if expanding cl then mt_moving else mt_waiting).

(** One bucket; [snapshot_wakeup] after the last. *)
Definition maint_move (w : snap_world) : outcome snap_world :=
  '(s, cl) ← cluster_migrate_bucket (sw_store w) (sw_cluster w);
  Ret (mk_sw s cl (if expanding cl then sw_lock w else lock_free) (sw_flusher w) (if expanding cl then mt_moving else mt_waiting)).

Inductive sw_step : snap_world -> snap_world -> Prop :=
| sw_do_snapshot w : sw_step w (do_snapshot w).2
| sw_spurious s cl l m : sw_step (mk_sw s cl l fl_waiting m) (mk_sw s cl l fl_woken m)
| sw_flush_begin s cl m : sw_step (mk_sw s cl lock_free fl_woken m) (mk_sw s cl lock_snapshot fl_flushing m)
| sw_flush_end s cl m : sw_step (mk_sw s cl lock_snapshot fl_flushing m) (mk_sw s cl lock_free fl_waiting m)
| sw_maint_wake s cl l f : sw_step (mk_sw s cl l f mt_waiting) (mk_sw s cl l f mt_woken)
| sw_hangup w w' : sw_maint w = mt_woken -> snapshot_hangup w = Some w' -> sw_step w w'
| sw_expand w ok : sw_maint w = mt_hung -> sw_step w (maint_expand ok w)
| sw_move w w' : sw_maint w = mt_moving -> maint_move w = Ret w' -> sw_step w w'
| sw_insert s cl l f m v s' cl' r : do_cluster_insert s cl v = Ret (s', cl', r) -> sw_step (mk_sw s cl l f m) (mk_sw s' cl' l f m).

(** Who may hold the lock. *)
Definition sw_inv (w : snap_world) : Prop :=
  (sw_maint w = mt_moving <-> expanding (sw_cluster w) = true) /\
  (sw_lock w = lock_maintenance <-> sw_maint w = mt_hung \/ sw_maint w = mt_moving) /\
  (sw_lock w = lock_snapshot <-> sw_flusher w = fl_flushing).

Lemma expand_expanding ok cl : expanding cl = false -> expanding (__cluster_expand ok cl) = ok.
Proof. intros He. unfold __cluster_expand. rewrite cluster_expand_eq. by destruct ok; cbn; rewrite ?He. Qed.

Lemma sw_step_inv w w' : sw_inv w -> sw_step w w' -> sw_inv w'.
Proof.
  unfold sw_inv. intros (H1 & H2 & H3) Hs. destruct Hs as [ [s cl l f m]|s cl l m|s cl m|s cl m|s cl l f|w w' Hm Hh|w ok Hm|w w' Hm Hr|s cl l f m v s' cl' r Hr]; cbn in *.
  - destruct l, f; cbn; naive_solver.
  - naive_solver.
  - naive_solver.
  - naive_solver.
  - naive_solver.
  - unfold snapshot_hangup in Hh. destruct w as [s cl [] f m]; cbn in *; try done. injection Hh as <-. cbn. subst m. naive_solver.
  - destruct w as [s cl l f m]; cbn in *. subst m. assert (expanding cl = false) as He by (destruct (expanding cl); naive_solver).
    assert (l = lock_maintenance) as -> by naive_solver. rewrite (expand_expanding ok cl He). destruct ok; cbn; naive_solver.
  - destruct w as [s cl l f m]; cbn in *. subst m. unfold maint_move in Hr. cbn in Hr.
    destruct (cluster_migrate_bucket s cl) as [ [s1 cl1]|]; cbn in Hr; [|done]. injection Hr as <-. cbn.
    assert (l = lock_maintenance) as -> by naive_solver. destruct (expanding cl1); naive_solver.
  - destruct (do_cluster_insert_frame _ _ _ _ _ _ Hr) as [-> _]. naive_solver.
Qed.

(** C32. A flush never sees a cluster that is being expanded: the lock keeps the two
    threads apart, whatever the order of requests, insertions, timer ticks,
    spurious wake-ups and moved buckets. *)
Theorem flush_never_expanding s cl w : expanding cl = false ->
  star sw_step (mk_sw s cl lock_free fl_waiting mt_waiting) w ->
  sw_flusher w = fl_flushing -> expanding (sw_cluster w) = false.
Proof.
  intros He Hs Hf. assert (sw_inv w) as (H1 & H2 & H3).
  { eapply star_invariant; [apply sw_step_inv| |exact Hs]. unfold sw_inv. cbn. rewrite He. naive_solver. }
  destruct (expanding (sw_cluster w)) eqn:E; [|done].
  assert (sw_lock w = lock_maintenance) by (apply H2; right; by apply H1).
  assert (sw_lock w = lock_snapshot) by (by apply H3). congruence.
Qed.

(** ** The type of a loaded block *)

(** The fields of a block are values of their C types, and its two character
    arrays hold terminated strings. *)
Record block_typed (d : datasevr_block) : Prop := {
  bt_ids : is_u 32 (parent_volume_id d) /\ is_u 32 (block_id d);
  bt_map_info : length (map_info d) = LFS_DATASERVER_MAP_INFO_SIZE /\ exists m, c_string (map_info d) = Ret m;
  bt_ip_addr : length (ip_addr d) = IP_ADDRESS_SIZE /\ exists a, c_string (ip_addr d) = Ret a;
  bt_ints : Forall (is_s 32) [int_of_type (type d); port d; weight d; heart_beat_interval d];
  bt_longs : Forall (is_s 64) [reg_time d; started_time d; last_sync_sequence d]
}.

Lemma int_of_type_of_int n : int_of_type (type_of_int n) = n.
Proof. unfold type_of_int. zcase (n =? 0); [done|]. zcase (n =? 1); done. Qed.

Lemma write_string_typed b n s : (0 < n)%nat -> length b = n ->
  exists b', buf_write b 0 (take (n - 1) s ++ [0]) = Ret b' /\ length b' = n /\ exists m, c_string b' = Ret m.
Proof.
  intros Hn Hl. set (d := take (n - 1) s ++ [0]). assert (length d <= n)%nat as Hd by (unfold d; rewrite length_app, length_take; cbn; lia).
  exists (d ++ drop (length d) b). split_and!.
  - pose proof (buf_write_at [] (take (length d) b) d (drop (length d) b) 0) as H. cbn [app length] in H.
    rewrite take_drop in H. apply H; [rewrite length_take; lia|done].
  - rewrite length_app, length_drop. lia.
  - unfold d at 1. rewrite <- app_assoc. cbn [app]. apply c_string_ends.
Qed.

Lemma write_string_cut b n s : (0 < n)%nat -> length b = n -> no_nul s ->
  exists b', buf_write b 0 (take (n - 1) s ++ [0]) = Ret b' /\ length b' = n /\ c_string b' = Ret (take (n - 1) s).
Proof.
  intros Hn Hl Hs. destruct (write_string_typed b n s Hn Hl) as (b' & Hw & Hb' & _). exists b'. split_and!; [done|done|].
  set (w := take (n - 1) s ++ [0]) in *. assert (length w <= n)%nat as Hd by (unfold w; rewrite length_app, length_take; cbn; lia).
  pose proof (buf_write_at [] (take (length w) b) w (drop (length w) b) 0) as H. cbn [app length] in H.
  rewrite take_drop in H. rewrite H in Hw by (done || rewrite length_take; lia). injection Hw as <-. unfold w at 1. rewrite <- app_assoc. cbn [app]. apply c_string_nul. by apply Forall_take.
Qed.

(** The columns of a line with any numbers of 64 bits and any strings. *)
Definition number_columns (vid bid : Z) (m ip : bytes) (ty pt w h rt st sq : Z) : list bytes :=
  [pr_dec vid; pr_dec bid; m; ip; pr_dec ty; pr_dec pt; pr_dec w; pr_dec h; pr_dec rt; pr_dec st; pr_dec sq].



(** ** Instances *)

(** A block whose strings fit its fields, and whose line is longer than the 96
    bytes of [buff]. *)
Definition long_block : datasevr_block :=
  mk_block 3735928559 4026531841 on_line (pad 33 (str "group-of-servers/volume-0001")) (pad 16 (str "192.168.100.101"))
    slave_server 8000 0 1 30 0 0 1500000000 1500000100 1500000200 0 0.

(** The line buffer is too small: there are blocks that fit every field of
    [datasevr_block], and that the register handler accepts, whose snapshot line
    is written past the end of [buff]. *)
Theorem snapshot_line_overflow :
  c_string (map_info long_block) = Ret (str "group-of-servers/volume-0001") /\
  length (map_info long_block) = LFS_DATASERVER_MAP_INFO_SIZE /\ length (ip_addr long_block) = IP_ADDRESS_SIZE /\
  snapshot_line long_block = Crash OutOfBounds.
Proof. vm_compute. done. Qed.

Definition snap_block (vid bid : Z) (ip : bytes) : datasevr_block :=
  mk_block vid bid on_line (pad 33 (str "g1/v1")) (pad 16 ip) slave_server 8000 3 1 30 500 400 1000 1001 77 1234 0.

Definition snap_blocks : store :=
  mk_store (<[0%nat := snap_block 10 1 (str "10.0.0.1")]> (<[1%nat := snap_block 10 2 (str "10.0.0.2")]> ∅)) ∅ 2 (fun _ => true) 0.

Definition snap_two : store * datasevr_cluster := run_insert (run_insert (snap_blocks, demo_cluster) 0%nat) 1%nat.

(** The lock of bucket 3 is taken. *)
Definition snap_env : flush_env := mk_flush_env true (fun i => negb (i =? 3)) (fun _ n => n) (fun _ => 0) true 0 true 0.

Lemma snap_two_members : members snap_two.1 snap_two.2 (<[10 := [0%nat; 1%nat]]> ∅).
Proof.
  pose proof (run_insert_members (snap_blocks, demo_cluster) ∅ 0 (snap_block 10 1 (str "10.0.0.1")) (members_init snap_blocks eq_refl) eq_refl
                (fun _ => eq_refl) eq_refl) as H1.
  eapply (run_insert_members _ _ 1 (snap_block 10 2 (str "10.0.0.2"))) in H1; [|by vm_compute|by intros n; vm_compute|by vm_compute].
  cbn [parent_volume_id snap_block] in H1. rewrite lookup_insert_eq, lookup_empty, insert_insert_eq in H1. exact H1.
Qed.

Lemma column_ok_word c : Forall (fun z => 33 <= z < 124) c -> column_ok c.
Proof.
  intros H. assert (forall z, ~ 33 <= z < 124 -> lacks z c) as Hl.
  { intros z Hz. eapply Forall_impl; [exact H|]. intros y Hy. cbn in *. lia. }
  split_and!; [apply (Hl 124); lia|apply Hl; lia|apply Hl; lia|]. apply no_space_tight. eapply Forall_impl; [exact H|]. intros z Hz. cbn in Hz |- *. unfold is_trim_space.
  zcase (z =? 32); [lia|]. zcase (z =? 10); [lia|]. zcase (z =? 13); [lia|]. zcase (z =? 9); [lia|done].
Qed.

Lemma snap_block_savable vid bid ip t : is_u 32 vid -> is_u 32 bid -> t = master_server \/ t = slave_server ->
  Forall (fun z => 33 <= z < 124) ip -> (length ip < 16)%nat ->
  let d := set_type (snap_block vid bid ip) t in
  (length (pr_line (snapshot_columns d (str "g1/v1") ip)) < snapshot_buff_size)%nat ->
  savable d (cstr (map_info d)) (cstr (ip_addr d)).
Proof.
  intros Hv Hb Ht Hip Hl d Hfit.
  assert (cstr (map_info d) = str "g1/v1") as -> by reflexivity.
  assert (no_nul ip) as Hn by (eapply Forall_impl; [exact Hip|]; intros z Hz; cbn in *; lia).
  assert (cstr (ip_addr d) = ip) as -> by (cbn; rewrite pad_nul by done; by apply cstr_app_nul).
  split; try done.
  - destruct Ht as [->| ->]; (split; [|reflexivity]); unfold is_s; cbn; lia.
  - split_and!; [reflexivity| |cbn; unfold LFS_DATASERVER_MAP_INFO_SIZE; lia]. apply column_ok_word. repeat constructor; cbn; lia.
  - split_and!; [|by apply column_ok_word|done]. cbn. rewrite pad_nul by done. by apply c_string_nul.
Qed.

Lemma snap_two_savable : savable_members snap_two.1 (<[10 := [0%nat; 1%nat]]> ∅).
Proof.
  intros vid bs [ [<- <-]|[_ H] ]%lookup_insert_Some; [|by rewrite lookup_empty in H].
  repeat constructor; eexists; (split; [vm_compute; reflexivity|]); (split; [reflexivity|]).
  - apply (snap_block_savable 10 1 (str "10.0.0.1") master_server); try by left.
    all: first [unfold is_u; cbn; lia | repeat constructor; cbn; lia | by vm_compute; lia | vm_compute; lia].
  - apply (snap_block_savable 10 2 (str "10.0.0.2") slave_server); try by right.
    all: first [unfold is_u; cbn; lia | repeat constructor; cbn; lia | vm_compute; lia].
Qed.

Lemma snapshot_restores_witness :
  exists fs' s' cl' M', __snapshot_flush snap_env snap_two.1 snap_two.2 (mk_files None None) = Ret fs' /\
    snapshot_load 0 true (fun _ => mk_line_env (fun _ => Crash OutOfBounds) (fun _ => true)) snap_blocks demo_cluster fs' = Ret (s', cl', LFS_OK) /\
    members s' cl' M' /\
    forall vid, Forall2 (fun b d => st_blocks s' !! b = Some d) (default [] (M' !! vid))
      (if negb (vid mod 2 ^ hash_size snap_two.2 =? 3)
       then first_master (restore <$> (saved_of snap_two.1 <$> default [] (<[10 := [0%nat; 1%nat]]> (∅ : gmap Z (list bloc)) !! vid))) else []).
Proof.
  refine (snapshot_restores snap_env snap_two.1 snap_two.2 _ (mk_files None None) _ snap_blocks demo_cluster _ snap_two_members _ snap_two_savable
            (members_init snap_blocks eq_refl) _ _); [by split|by vm_compute|reflexivity|reflexivity].
Defined.

(** The second [write] is short: the old file stays. *)
Definition short_env : flush_env := mk_flush_env true (fun _ => true) (fun k n => if (k =? 1)%nat then n - 1 else n) (fun _ => 28) true 0 true 0.

Lemma snapshot_never_torn_witness :
  let fs' := mk_files (Some (str "old")) (Some (str "10|1|g1/v1|10.0.0.1|0|8000|1|30|1000|1001|77" ++ [10] ++ str "10|2|g1/v1|10.0.0.2|1|8000|1|30|1000|1001|77")) in
  sf_dat fs' = Some (str "old") \/ exists text, sf_dat fs' = Some text /\ whole_lines snap_two.1 text.
Proof.
  apply (snapshot_never_torn short_env snap_two.1 snap_two.2 (mk_files (Some (str "old")) None)). vm_compute. reflexivity.
Defined.

Lemma flush_never_expanding_witness :
  let w := mk_sw demo_blocks demo_cluster lock_snapshot fl_flushing mt_woken in expanding (sw_cluster w) = false.
Proof.
  apply (flush_never_expanding demo_blocks demo_cluster); [reflexivity| |reflexivity].
  eapply star_step; [apply sw_maint_wake|]. eapply star_step; [apply sw_do_snapshot|]. eapply star_step; [apply sw_flush_begin|].
  apply star_refl.
Defined.
