(* ===== verification/TsService.v ===== *)
(** * The requests of the tracker

    src/src/trackerserver/ts_service.c and [dispatch_cmd] of ts_thread.c: one
    definition per handler.  A handler reads the request at [rcurr] of the
    connection's read buffer, works on the tracker's tables and writes the
    response into the write buffer. *)
From S2P Require Import Prelude Codec Chains ListH TsQueue Datasevr Cluster Wlc ClusterDatasevr TsConn Protocol.

(** ** Requests and responses (lfs_types.h, lfs_client_types.h) *)

(** Field offsets of the request structures. *)
Definition req_map_info : Z := 0.
Definition req_ds_ipaddr : Z := 34.
Definition req_field8 (k : Z) : Z := 50 + 8 * k.
(** [lfs_read_tracker_req]: its [map_info] is one byte shorter. *)
Definition req_file_timestamp : Z := 33.

Definition sizeof_masterblock_resp : Z := 32.
Definition sizeof_block_brief_info_resp : Z := 40.
Definition sizeof_lfs_tracker_resp : Z := 24.

(** ** State *)

Record tracker := mk_tracker { tk_store : store; tk_cluster : datasevr_cluster; tk_wlc : wlc_skiplist }.

Definition with_store (t : tracker) (s : store) : tracker := mk_tracker s (tk_cluster t) (tk_wlc t).

(** What the surroundings supply during one handler: [time(NULL)] at its k-th
    call, whether [malloc] gives a skip list node, the results of [random]. *)
Record env := mk_env { now : nat -> Z; node_malloc : bool; randoms : list Z }.

Definition set_state (d : datasevr_block) (st : datasevr_state) : datasevr_block :=
  mk_block (parent_volume_id d) (block_id d) st (map_info d) (ip_addr d) (type d) (port d) (curr_conns d)
    (weight d) (heart_beat_interval d) (total_mb d) (free_mb d) (reg_time d) (started_time d)
    (last_sync_sequence d) (last_heartbeat_time d) (last_statreporttimestamp d).

Definition set_heartbeat (d : datasevr_block) (t : Z) : datasevr_block :=
  mk_block (parent_volume_id d) (block_id d) (state d) (map_info d) (ip_addr d) (type d) (port d) (curr_conns d)
    (weight d) (heart_beat_interval d) (total_mb d) (free_mb d) (reg_time d) (started_time d)
    (last_sync_sequence d) t (last_statreporttimestamp d).

Definition set_sync_sequence (d : datasevr_block) (n : Z) : datasevr_block :=
  mk_block (parent_volume_id d) (block_id d) (state d) (map_info d) (ip_addr d) (type d) (port d) (curr_conns d)
    (weight d) (heart_beat_interval d) (total_mb d) (free_mb d) (reg_time d) (started_time d)
    n (last_heartbeat_time d) (last_statreporttimestamp d).

Definition set_weights (d : datasevr_block) (w h : Z) : datasevr_block :=
  mk_block (parent_volume_id d) (block_id d) (state d) (map_info d) (ip_addr d) (type d) (port d) (curr_conns d)
    w h (total_mb d) (free_mb d) (reg_time d) (started_time d)
    (last_sync_sequence d) (last_heartbeat_time d) (last_statreporttimestamp d).

Definition set_stat (d : datasevr_block) (conns tmb fmb t : Z) : datasevr_block :=
  mk_block (parent_volume_id d) (block_id d) (state d) (map_info d) (ip_addr d) (type d) (port d) conns
    (weight d) (heart_beat_interval d) tmb fmb (reg_time d) (started_time d)
    (last_sync_sequence d) (last_heartbeat_time d) t.

(** [dblk->... = ...] *)
Definition update_block (s : store) (b : bloc) (f : datasevr_block -> datasevr_block) : outcome store :=
  d ← get_block s b; Ret (put_block s b (f d)).

(** ** Responses *)

Definition put_header (wb : bytes) (body_len cmd st : Z) : outcome bytes := buf_write wb 0 (header_bytes body_len cmd st).

Definition write_error_msg (c : conn) (resp_status : Z) : outcome conn :=
  cmd ← get_or OutOfBounds (zlookup (rbuff c) 8);
  wb ← put_header (wbuff c) 0 cmd resp_status;
  Ret (set_conn_state (with_write c wb sizeof_protocol_header) conn_write).

Definition handle_protocol_error (c : conn) (resp_status : Z) : outcome conn :=
  c ← write_error_msg c resp_status; Ret (set_conn_state c conn_write).

(** The end of the handlers that answer with the header only. *)
Definition reply_header (c : conn) (cmd : Z) : outcome conn :=
  wb ← put_header (wbuff c) 0 cmd PROTOCOL_RESP_STATUS_SUCCESS;
  Ret (set_conn_state (with_write c wb sizeof_protocol_header) conn_write).

(** The header, then the address and the port of a block, as an
    [lfs_tracker_resp]. *)
Definition reply_address (s : store) (c : conn) (cmd : Z) (b : bloc) : outcome conn :=
  d ← get_block s b;
  wb ← put_header (wbuff c) sizeof_lfs_tracker_resp cmd PROTOCOL_RESP_STATUS_SUCCESS;
  ip ← c_string (ip_addr d);
  wb ← buf_write wb sizeof_protocol_header ip;
  wb ← buf_write wb (sizeof_protocol_header + 16) (long2buff (port d));
  Ret (set_conn_state (with_write c wb (sizeof_protocol_header + sizeof_lfs_tracker_resp)) conn_write).

Definition req_string (c : conn) (off : Z) : outcome bytes := buf_string (rbuff c) (rcurr c + off).
Definition req_long (c : conn) (off : Z) : outcome Z := f ← buf_read (rbuff c) (rcurr c + off) 8; buff2long f.

(** ** Handlers *)

Section Handlers.
Context (hash_func : bytes -> Z) (interval : Z).

Abbreviation handler := (env -> tracker -> conn -> outcome (tracker * conn * Z)).

(** The block of the request's [map_info] and [ds_ipaddr]. *)
Definition req_block (t : tracker) (c : conn) : outcome (option bloc) :=
  m ← req_string c req_map_info;
  ip ← req_string c req_ds_ipaddr;
  cluster_datasevrblock_find hash_func (tk_store t) (tk_cluster t) m ip.

(** The fields of a new block; [map_info] has 33 bytes in the block and up to
    34 in the request. *)
Definition fill_block (c : conn) (vid bid : Z) : outcome datasevr_block :=
  ip ← buf_read (rbuff c) (rcurr c + req_ds_ipaddr) IP_ADDRESS_SIZE;
  m ← req_string c req_map_info;
  mi ← buf_write (map_info zero_block) 0 m;
  p ← req_long c (req_field8 0);
  w ← req_long c (req_field8 1);
  h ← req_long c (req_field8 2);
  rt ← req_long c (req_field8 3);
  st ← req_long c (req_field8 4);
  Ret (mk_block vid bid init mi ip (type zero_block) (s32 p) 0 (s32 w) (s32 h) 0 0 rt st 0 0 0).

Definition handle_cmd_register : handler := fun _ t c =>
  m ← req_string c req_map_info;
  ip ← req_string c req_ds_ipaddr;
  let vid := hash_func m in
  let bid := hash_func ip in
  old ← cluster_datasevrblock_byid_find (tk_store t) (tk_cluster t) vid bid;
  r ← match old with
      | Some b => Ret (inl (t, b))
      | None =>
          let '(s, nb) := block_new (tk_store t) in
          match nb with
          | None => Ret (inr (with_store t s, PROTOCOL_RESP_STATUS_ERROR_MEMORY))
          | Some b =>
              d ← fill_block c vid bid;
              '(s, cl, ret) ← cluster_datasevrblock_insert (put_block s b d) (tk_cluster t) b;
              if negb (ret =? 0)
              then s ← block_free s (Some b); Ret (inr (mk_tracker s cl (tk_wlc t), PROTOCOL_RESP_STATUS_ERROR))
              else Ret (inl (mk_tracker s cl (tk_wlc t), b))
          end
      end;
  match r with
  | inr (t, st) => Ret (t, c, st)
  | inl (t, b) =>
      w ← req_long c (req_field8 1);
      h ← req_long c (req_field8 2);
      s ← update_block (tk_store t) b (fun d => set_weights (set_state d init) (s32 w) (s32 h));
      c ← reply_header c PROTOCOL_CMD_DATASERVER_REGISTER;
      Ret (with_store t s, c, PROTOCOL_RESP_STATUS_SUCCESS)
  end.

Definition handle_cmd_fullsyncreq : handler := fun e t c =>
  wb ← put_header (wbuff c) sizeof_masterblock_resp PROTOCOL_CMD_DATASERVER_FULLSYNC PROTOCOL_RESP_STATUS_SUCCESS;
  let c := with_write c wb sizeof_protocol_header in
  ob ← req_block t c;
  match ob with
  | None => Ret (t, c, PROTOCOL_RESP_STATUS_ERROR_UNREGISTER)
  | Some b =>
      m ← req_string c req_map_info;
      om ← cluster_datasevrmasterblock_get hash_func (tk_store t) (tk_cluster t) m;
      match om with
      | None =>
          s ← update_block (tk_store t) b (fun d => set_state d wait_sync);
          Ret (with_store t s, c, PROTOCOL_RESP_STATUS_SYNCSETTING_WAITING)
      | Some mb =>
          s ← update_block (tk_store t) b (fun d => set_state d syncing);
          md ← get_block s mb;
          ip ← c_string (ip_addr md);
          wb ← buf_write (wbuff c) sizeof_protocol_header ip;
          wb ← buf_write wb (sizeof_protocol_header + 16) (long2buff (port md));
          wb ← buf_write wb (sizeof_protocol_header + 24) (long2buff (now e 0));
          Ret (with_store t s,
               set_conn_state (with_write c wb (wbytes c + sizeof_masterblock_resp)) conn_write,
               PROTOCOL_RESP_STATUS_SUCCESS)
      end
  end.

(** The loop of [handle_cmd_heartbeat]: [p] and [body_len] as the code moves
    them, [k] counts the calls of [time]. *)
Fixpoint heartbeat_loop (e : env) (self : bloc) (s : store) (req_ip : bytes) (wb : bytes) (p body_len : Z) (k : nat)
    (bs : list (option bloc)) : outcome (store * bytes * Z) :=
  match bs with
  | [] => Ret (s, wb, body_len)
  | ob :: bs' =>
      b ← get_or NullDeref ob;
      d ← get_block s b;
      same ← strcmp_eq req_ip (ip_addr d);
      if same : bool then heartbeat_loop e self s req_ip wb p body_len k bs'
      else
        me ← get_block s self;
        s ← (if interval <? now e k - last_heartbeat_time me then update_block s b (fun d => set_state d off_line) else Ret s);
        d ← get_block s b;
        wb ← buf_write wb p (long2buff (state_code (state d)));
        ip ← c_string (ip_addr d);
        wb ← buf_write wb (p + 8) ip;
        wb ← buf_write wb (p + 24) (long2buff (port d));
        wb ← buf_write wb (p + 32) (long2buff (last_sync_sequence d));
        let body_len := body_len + sizeof_block_brief_info_resp in
        heartbeat_loop e self s req_ip wb (p + body_len) body_len (S k) bs'
  end.

Definition handle_cmd_heartbeat : handler := fun e t c =>
  ob ← req_block t c;
  match ob with
  | None => Ret (t, c, PROTOCOL_RESP_STATUS_ERROR_UNREGISTER)
  | Some b =>
      s ← update_block (tk_store t) b (fun d => set_state (set_heartbeat d (now e 0)) active);
      m ← req_string c req_map_info;
      ov ← cluster_datasevrvolume_find hash_func s (tk_cluster t) m;
      match ov with
      | None => Ret (with_store t s, c, PROTOCOL_RESP_STATUS_ERROR_NONEDATASEVERVOLUME)
      | Some v =>
          dv ← get_volume s v;
          match blocks dv with
          | None => Ret (with_store t s, c, PROTOCOL_RESP_STATUS_ERROR_NONEDATASEVERBLOCKS)
          | Some bs =>
              '(s, wb, body_len) ←
                (if 1 <? block_count dv
                 then heartbeat_loop e b s (drop (Z.to_nat (rcurr c + req_ds_ipaddr)) (rbuff c)) (wbuff c)
                        sizeof_protocol_header 0 1 (take (Z.to_nat (block_count dv)) bs)
                 else Ret (s, wbuff c, 0));
              wb ← put_header wb body_len PROTOCOL_CMD_DATASERVER_HEARTBEAT PROTOCOL_RESP_STATUS_SUCCESS;
              Ret (with_store t s, set_conn_state (with_write c wb (sizeof_protocol_header + body_len)) conn_write,
                   PROTOCOL_RESP_STATUS_SUCCESS)
          end
      end
  end.

Definition handle_cmd_syncreport : handler := fun e t c =>
  ob ← req_block t c;
  match ob with
  | None => Ret (t, c, PROTOCOL_RESP_STATUS_ERROR_NONEDATASEVERBLOCKS)
  | Some b =>
      n ← req_long c (req_field8 0);
      s ← update_block (tk_store t) b (fun d => set_state (set_heartbeat (set_sync_sequence d n) (now e 0)) active);
      c ← reply_header c PROTOCOL_CMD_DATASERVER_SYNCREPORT;
      Ret (with_store t s, c, PROTOCOL_RESP_STATUS_SUCCESS)
  end.

(** The loads are products of two [int]s. *)
Definition handle_cmd_statreport : handler := fun e t c =>
  ob ← req_block t c;
  match ob with
  | None => Ret (t, c, PROTOCOL_RESP_STATUS_ERROR_NONEDATASEVERBLOCKS)
  | Some b =>
      d ← get_block (tk_store t) b;
      n ← req_long c (req_field8 0);
      tm ← req_long c (req_field8 1);
      fm ← req_long c (req_field8 2);
      s ← update_block (tk_store t) b
            (fun d => set_state (set_heartbeat (set_stat d (s32 n) (s32 tm) (s32 fm) (now e 0)) (now e 0)) active);
      '(sl, _) ← cluster_wlc_block_add (st_blocks s) (node_malloc e) (randoms e) (tk_wlc t)
                   (mk_wlc_ctx b (s32 (curr_conns d * weight d)) (s32 (s32 n * weight d)));
      c ← reply_header c PROTOCOL_CMD_DATASERVER_STATREPORT;
      Ret (mk_tracker s (tk_cluster t) sl, c, PROTOCOL_RESP_STATUS_SUCCESS)
  end.

(** [wbytes] is the size of a pointer. *)
Definition handle_cmd_test : handler := fun _ t c =>
  wb ← put_header (wbuff c) 0 PROTOCOL_CMD_TEST PROTOCOL_RESP_STATUS_SUCCESS;
  Ret (t, set_conn_state (with_write c wb 8) conn_write, PROTOCOL_RESP_STATUS_SUCCESS).

Definition handle_cmd_quited : handler := fun _ t c =>
  ob ← req_block t c;
  match ob with
  | None => Ret (t, c, PROTOCOL_RESP_STATUS_ERROR)
  | Some b =>
      s ← update_block (tk_store t) b (fun d => set_state d off_line);
      Ret (with_store t s, set_conn_state c conn_closed, PROTOCOL_RESP_STATUS_SUCCESS)
  end.

Definition handle_cmd_writetracker : handler := fun e t c =>
  '(blks, sl, ob) ← cluster_wlc_write_block_get (now e 0) interval (st_blocks (tk_store t)) (tk_wlc t);
  let s := mk_store blks (st_volumes (tk_store t)) (st_brk (tk_store t)) (st_oracle (tk_store t)) (st_tick (tk_store t)) in
  let t := mk_tracker s (tk_cluster t) sl in
  match ob with
  | None => Ret (t, c, PROTOCOL_RESP_STATUS_ERROR_NO_WRITE_DATASERVER)
  | Some b =>
      c ← reply_address s c PROTOCOL_CMD_WRITE_TRACKER_REQ b;
      Ret (t, c, PROTOCOL_RESP_STATUS_SUCCESS)
  end.

Definition handle_cmd_readtracker : handler := fun e t c =>
  n ← req_long c req_file_timestamp;
  m ← req_string c req_map_info;
  '(s, ob) ← cluster_readdatasevrblock_get hash_func (tk_store t) (tk_cluster t) (fun i => now e (Z.to_nat i)) interval m n;
  let t := with_store t s in
  match ob with
  | None => Ret (t, c, PROTOCOL_RESP_STATUS_ERROR_NO_READ_DATASERVER)
  | Some b =>
      c ← reply_address s c PROTOCOL_CMD_READ_TRACKER_REQ b;
      Ret (t, c, PROTOCOL_RESP_STATUS_SUCCESS)
  end.

(** [resp_status] is not initialised: [garbage] is its value for a command
    that no case names. *)
Definition dispatch_cmd (garbage : Z) (e : env) (t : tracker) (c : conn) (cmd : Z) : outcome (tracker * conn) :=
  '(t, c, resp_status) ←
    (if cmd =? PROTOCOL_CMD_DATASERVER_REGISTER then handle_cmd_register e t c
     else if cmd =? PROTOCOL_CMD_DATASERVER_FULLSYNC then handle_cmd_fullsyncreq e t c
     else if cmd =? PROTOCOL_CMD_DATASERVER_HEARTBEAT then handle_cmd_heartbeat e t c
     else if cmd =? PROTOCOL_CMD_DATASERVER_SYNCREPORT then handle_cmd_syncreport e t c
     else if cmd =? PROTOCOL_CMD_DATASERVER_STATREPORT then handle_cmd_statreport e t c
     else if cmd =? PROTOCOL_CMD_DATASERVER_QUITED then handle_cmd_quited e t c
     else if cmd =? PROTOCOL_CMD_WRITE_TRACKER_REQ then handle_cmd_writetracker e t c
     else if cmd =? PROTOCOL_CMD_READ_TRACKER_REQ then handle_cmd_readtracker e t c
     else if cmd =? PROTOCOL_CMD_TEST then handle_cmd_test e t c
     else Ret (t, c, garbage));
  if resp_status =? 0 then Ret (t, c)
  else c ← handle_protocol_error c resp_status; Ret (t, c).
End Handlers.

(** ** Requests and responses as byte strings *)

(** The request [body] is at [rcurr]. *)
Definition at_rcurr (c : conn) (body : bytes) : Prop :=
  exists pre rest, rbuff c = pre ++ body ++ rest /\ rcurr c = Z.of_nat (length pre).

Definition name_fields (m ip : bytes) : bytes := pad 34 m ++ pad 16 ip.

Definition named (m ip : bytes) : Prop := no_nul m /\ no_nul ip /\ (length m <= 33)%nat /\ (length ip <= 15)%nat.

(** A request of a data server: its names, then 8-byte numbers. *)
Definition request (m ip : bytes) (ns : list Z) : bytes := name_fields m ip ++ concat (long2buff <$> ns).

Definition response (c : conn) : bytes := take (Z.to_nat (wbytes c)) (wbuff c).

(** The write buffer is clean, as [conn_reset] leaves it. *)
Definition clean (c : conn) : Prop := exists n, wbuff c = zeros n /\ (16 + 24 <= n)%nat.

Lemma req_names c m ip tl : named m ip -> at_rcurr c (name_fields m ip ++ tl) ->
  req_string c req_map_info = Ret m /\ req_string c req_ds_ipaddr = Ret ip /\
  buf_read (rbuff c) (rcurr c + req_ds_ipaddr) IP_ADDRESS_SIZE = Ret (pad 16 ip) /\
  exists r, drop (Z.to_nat (rcurr c + req_ds_ipaddr)) (rbuff c) = ip ++ 0 :: r.
Proof.
  intros (Hm & Hip & Hlm & Hli) (pre & rest & Hb & Hc). unfold req_string, name_fields, req_ds_ipaddr, req_map_info in *. rewrite Hb, Hc.
  assert (pre ++ ((pad 34 m ++ pad 16 ip) ++ tl) ++ rest = (pre ++ pad 34 m) ++ pad 16 ip ++ tl ++ rest) as Hassoc
    by (by rewrite <- !app_assoc).
  assert (Z.of_nat (length pre) + 34 = Z.of_nat (length (pre ++ pad 34 m))) as Hoff
    by (rewrite length_app, length_pad; lia).
  split_and!.
  - rewrite pad_nul by lia. rewrite <- !app_assoc. cbn [app]. apply buf_string_at; [lia|done].
  - rewrite Hassoc, Hoff, (pad_nul 16) by lia. rewrite <- (app_assoc ip). cbn [app]. by apply buf_string_at.
  - rewrite Hassoc, Hoff. apply buf_read_at; [done|]. rewrite length_pad; [done|lia].
  - rewrite Hassoc, Hoff, Nat2Z.id, drop_app_length, (pad_nul 16) by lia. rewrite <- (app_assoc ip). by eexists.
Qed.

Lemma concat_long2buff_lookup ns k n : ns !! k = Some n ->
  exists l r, concat (long2buff <$> ns) = l ++ long2buff n ++ r /\ length l = (8 * k)%nat.
Proof.
  revert k. induction ns as [|n' ns IH]; intros [|k] Hk; cbn [lookup list_lookup] in Hk; try done; cbn [fmap list_fmap concat].
  - injection Hk as ->. by exists [], (concat (long2buff <$> ns)).
  - destruct (IH k Hk) as (l & r & -> & Hl). exists (long2buff n' ++ l), r. split; [by rewrite <- app_assoc|].
    rewrite length_app, length_long2buff, Hl. lia.
Qed.

Lemma req_field c m ip ns k n : named m ip -> at_rcurr c (request m ip ns) -> ns !! k = Some n ->
  req_long c (req_field8 (Z.of_nat k)) = Ret (s64 n).
Proof.
  intros (_ & _ & Hlm & Hli) (pre & rest & Hb & Hc) Hk. destruct (concat_long2buff_lookup ns k n Hk) as (l & r & Hl & Hlen).
  unfold req_long, req_field8, request, name_fields in *. rewrite Hb, Hc, Hl.
  replace (pre ++ ((pad 34 m ++ pad 16 ip) ++ l ++ long2buff n ++ r) ++ rest)
    with ((pre ++ pad 34 m ++ pad 16 ip ++ l) ++ long2buff n ++ r ++ rest) by (by rewrite <- !app_assoc).
  rewrite buf_read_at; [|rewrite !length_app, !length_pad by lia; lia|by rewrite length_long2buff].
  cbn [mbind outcome_bind]. pose proof (buff2long_decode n []) as Hd. by rewrite app_nil_r in Hd.
Qed.

Lemma length_header len cmd st : length (header_bytes len cmd st) = 10%nat.
Proof. done. Qed.

Lemma put_header_zeros n len cmd st : (16 <= n)%nat -> put_header (zeros n) len cmd st = Ret (header_bytes len cmd st ++ zeros (n - 10)).
Proof.
  intros. unfold put_header. pose proof (buf_write_zeros [] n (header_bytes len cmd st) 0 0 eq_refl) as Hw.
  rewrite length_header, Nat.sub_0_r in Hw. apply Hw. lia.
Qed.

Lemma response_header c len cmd st n : (16 <= n)%nat ->
  response (with_write c (header_bytes len cmd st ++ zeros (n - 10)) sizeof_protocol_header) = header_bytes len cmd st ++ zeros 6.
Proof.
  intros. unfold response. cbn [wbytes wbuff with_write]. change (Z.to_nat sizeof_protocol_header) with 16%nat.
  rewrite (zeros_split 6) by lia. rewrite app_assoc. by rewrite take_app_length'.
Qed.

Lemma reply_header_spec c cmd : clean c -> exists c', reply_header c cmd = Ret c' /\
  response c' = header_bytes 0 cmd 0 ++ zeros 6 /\ cstate c' = conn_write.
Proof.
  intros (n & Hw & Hn). unfold reply_header. rewrite Hw, put_header_zeros by lia. cbn [mbind outcome_bind]. eexists. split; [done|].
  unfold set_conn_state, __set_conn_state. split; [|by case_decide].
  pose proof (response_header c 0 cmd 0 n ltac:(lia)) as Hr. case_decide; exact Hr.
Qed.

Lemma error_msg_spec c st cmd : clean c -> rbuff c !! 8%nat = Some cmd -> exists c', handle_protocol_error c st = Ret c' /\
  response c' = header_bytes 0 cmd st ++ zeros 6 /\ cstate c' = conn_write.
Proof.
  intros (n & Hw & Hn) Hc. unfold handle_protocol_error, write_error_msg. change (zlookup (rbuff c) 8) with (rbuff c !! 8%nat).
  rewrite Hc. cbn [get_or mbind outcome_bind]. rewrite Hw, put_header_zeros by lia. cbn [mbind outcome_bind]. eexists. split; [done|].
  pose proof (response_header c 0 cmd st n ltac:(lia)) as Hr.
  unfold set_conn_state, __set_conn_state. split; repeat case_decide; done.
Qed.

Lemma reply_address_spec s c cmd b d ip : clean c -> st_blocks s !! b = Some d -> ip_addr d = pad 16 ip ->
  no_nul ip -> (length ip <= 15)%nat ->
  exists c', reply_address s c cmd b = Ret c' /\
    response c' = header_bytes 24 cmd 0 ++ zeros 6 ++ pad 16 ip ++ long2buff (port d) /\ cstate c' = conn_write.
Proof.
  intros (n & Hw & Hn) Hb Hip Hnn Hl. unfold reply_address.
  assert (get_block s b = Ret d) as -> by (unfold get_block; by rewrite Hb). cbn [mbind outcome_bind].
  rewrite Hw, put_header_zeros by lia. cbn [mbind outcome_bind]. rewrite Hip, pad_nul by lia.
  rewrite c_string_nul by done. cbn [mbind outcome_bind].
  change sizeof_lfs_tracker_resp with 24. set (H := header_bytes 24 cmd _).
  assert (length H = 10%nat) as HH by done.
  rewrite (buf_write_zeros H _ ip 6) by (rewrite ?HH; unfold sizeof_protocol_header; lia). cbn [mbind outcome_bind].
  rewrite (app_assoc (zeros 6)), (app_assoc H).
  assert (length (H ++ zeros 6 ++ ip) = 16 + length ip)%nat as HH2 by (rewrite !length_app, HH; cbn; lia).
  rewrite (buf_write_zeros (H ++ zeros 6 ++ ip) _ (long2buff (port d)) (16 - length ip))
    by (rewrite ?HH2, ?length_long2buff; unfold sizeof_protocol_header; lia).
  cbn [mbind outcome_bind]. eexists. split; [done|]. set (c1 := with_write _ _ _).
  assert (response c1 = H ++ zeros 6 ++ pad 16 ip ++ long2buff (port d)) as Hr.
  { unfold response, c1. cbn [wbytes wbuff with_write]. change (Z.to_nat _) with 40%nat.
    rewrite (app_assoc (zeros (16 - length ip))), (app_assoc (H ++ zeros 6 ++ ip)). rewrite take_app_length'.
    - unfold pad. by rewrite <- !app_assoc.
    - rewrite !length_app, HH, length_long2buff. unfold zeros. rewrite !length_replicate. lia. }
  rewrite pad_nul in Hr by lia. unfold set_conn_state, __set_conn_state. split; case_decide; done.
Qed.

(** ** Membership over a request *)

Lemma update_block_members s cl M b f s' : members s cl M -> update_block s b f = Ret s' -> members s' cl M.
Proof.
  intros Hm Hu. unfold update_block in Hu. bind_inv Hu. injection Hu as <-. by apply put_block_members.
Qed.

(** The volumes of [M'] are those of [M] with blocks added at the end. *)
Definition grows (M M' : gmap Z (list bloc)) : Prop :=
  forall vid bs, M !! vid = Some bs -> exists bs', M' !! vid = Some (bs ++ bs').

Lemma grows_refl M : grows M M.
Proof. intros vid bs H. exists []. by rewrite app_nil_r. Qed.

Lemma grows_add M vid bs b : default [] (M !! vid) = bs -> grows M (<[vid := bs ++ [b]]> M).
Proof.
  intros Hd vid' bs' H. destruct (decide (vid' = vid)) as [->|Hne].
  - exists [b]. rewrite lookup_insert_eq. rewrite H in Hd. cbn in Hd. by subst bs'.
  - exists []. by rewrite lookup_insert_ne, app_nil_r.
Qed.

(** A registration that returns has not met the wrong mask. *)
Lemma block_insert_grows s cl M b d s' cl' r : members s cl M -> st_blocks s !! b = Some d ->
  cluster_datasevrblock_insert s cl b = Ret (s', cl', r) -> exists M', members s' cl' M' /\ grows M M'.
Proof.
  intros Hm Hb Hr. destruct (block_insert_returns s cl M b d s' cl' r Hm Hb Hr) as [_ [ [Hm' _]|[Hm' _] ] ].
  - eexists. split; [exact Hm'|]. by apply grows_add.
  - exists M. split; [done|apply grows_refl].
Qed.

Lemma write_walk_blocks fuel tnow ivl blks sl x blks' sl' ob :
  write_block_walk fuel tnow ivl blks sl x = Ret (blks', sl', ob) -> forall b, is_Some (blks !! b) -> is_Some (blks' !! b).
Proof.
  revert blks sl x. induction fuel as [|fuel IH]; intros blks sl x Hr b Hb; cbn [write_block_walk] in Hr;
    ret_inv Hr; simplify_eq; try done.
  eapply IH; [done|]. rewrite lookup_insert. by case_decide.
Qed.

Section Membership.
Context (hash_func : bytes -> Z) (interval : Z).

(** What every handler keeps. *)
Definition keeps (t t' : tracker) : Prop :=
  forall M, members (tk_store t) (tk_cluster t) M -> exists M', members (tk_store t') (tk_cluster t') M' /\ grows M M'.

Lemma keeps_store t s : (forall M, members (tk_store t) (tk_cluster t) M -> members s (tk_cluster t) M) -> keeps t (with_store t s).
Proof. intros H M Hm. exists M. split; [by apply H|apply grows_refl]. Qed.

Lemma keeps_same t : keeps t t.
Proof. intros M Hm. exists M. split; [done|apply grows_refl]. Qed.

Lemma keeps_update t b f s : update_block (tk_store t) b f = Ret s -> keeps t (with_store t s).
Proof. intros Hu. apply keeps_store. intros M Hm. by eapply update_block_members. Qed.

Lemma keeps_trans t1 t2 t3 : keeps t1 t2 -> keeps t2 t3 -> keeps t1 t3.
Proof.
  intros H1 H2 M Hm. destruct (H1 M Hm) as (M1 & Hm1 & Hg1). destruct (H2 M1 Hm1) as (M2 & Hm2 & Hg2). exists M2. split; [done|].
  intros vid bs Hb. destruct (Hg1 _ _ Hb) as (bs1 & Hb1). destruct (Hg2 _ _ Hb1) as (bs2 & Hb2).
  exists (bs1 ++ bs2). by rewrite app_assoc.
Qed.

(** The new block of a registration. *)
Lemma register_new_keeps t c vid bid s1 b d s2 cl r : block_new (tk_store t) = (s1, Some b) -> fill_block c vid bid = Ret d ->
  cluster_datasevrblock_insert (put_block s1 b d) (tk_cluster t) b = Ret (s2, cl, r) -> keeps t (mk_tracker s2 cl (tk_wlc t)).
Proof.
  intros Hn Hd Hi M Hm. pose proof (block_new_members _ _ _ _ _ Hm Hn) as Hm1.
  apply (block_insert_grows (put_block s1 b d) (tk_cluster t) M b d s2 cl r); [by apply put_block_members|cbn; by rewrite lookup_insert_eq|done].
Qed.

Lemma register_keeps e t c t' c' st : handle_cmd_register hash_func e t c = Ret (t', c', st) -> keeps t t'.
Proof.
  intros Hr. unfold handle_cmd_register in Hr. ret_inv Hr; injection Hr as <- <- <-; subst; ret_inv E2; simplify_eq; try done.
  - by eapply keeps_update.
  - eapply keeps_trans; [by eapply register_new_keeps|]. by eapply keeps_update.
  - match goal with H : cluster_datasevrblock_insert _ _ _ = _ |- _ => by apply insert_returns_ok in H; subst end.
  - apply keeps_store. intros M Hm. by eapply block_new_members.
Qed.

Lemma heartbeat_loop_members e self s req_ip wb p bl k bs s' wb' bl' cl M :
  heartbeat_loop interval e self s req_ip wb p bl k bs = Ret (s', wb', bl') -> members s cl M -> members s' cl M.
Proof.
  revert s wb p bl k. induction bs as [|ob bs IH]; intros s wb p bl k Hr Hm; cbn [heartbeat_loop] in Hr; [by simplify_eq|].
  ret_inv Hr; [by eapply IH|]. eapply IH; [exact Hr|].
  match goal with H : (if _ then update_block _ _ _ else _) = _ |- _ => ret_inv H end; [by eapply update_block_members|by simplify_eq].
Qed.

(** Every request, whatever its bytes, keeps the membership well formed: no
    registered block is lost or reordered. *)
Lemma handlers_keep e t c t' c' st :
  handle_cmd_register hash_func e t c = Ret (t', c', st) \/
  handle_cmd_fullsyncreq hash_func e t c = Ret (t', c', st) \/
  handle_cmd_heartbeat hash_func interval e t c = Ret (t', c', st) \/
  handle_cmd_syncreport hash_func e t c = Ret (t', c', st) \/
  handle_cmd_statreport hash_func e t c = Ret (t', c', st) \/
  handle_cmd_quited hash_func e t c = Ret (t', c', st) \/
  handle_cmd_writetracker interval e t c = Ret (t', c', st) \/
  handle_cmd_readtracker hash_func interval e t c = Ret (t', c', st) \/
  handle_cmd_test e t c = Ret (t', c', st) -> keeps t t'.
Proof.
  intros [H|[H|[H|[H|[H|[H|[H|[H|H]]]]]]]].
  - by eapply register_keeps.
  - unfold handle_cmd_fullsyncreq in H. ret_inv H; simplify_eq; first [apply keeps_same|by eapply keeps_update].
  - unfold handle_cmd_heartbeat in H. ret_inv H; simplify_eq; try first [apply keeps_same|by eapply keeps_update].
    eapply keeps_trans; [by eapply keeps_update|].
    match goal with |- keeps ?t1 (with_store _ ?s) => apply (keeps_store t1 s); intros M Hm end.
    match goal with H : (if _ then heartbeat_loop _ _ _ _ _ _ _ _ _ _ else _) = _ |- _ => ret_inv H end;
      [by eapply heartbeat_loop_members|by simplify_eq].
  - unfold handle_cmd_syncreport in H. ret_inv H; simplify_eq; first [apply keeps_same|by eapply keeps_update].
  - unfold handle_cmd_statreport in H. ret_inv H; simplify_eq; [|apply keeps_same].
    match goal with H : update_block _ _ _ = Ret _ |- _ => apply keeps_update in H; exact H end.
  - unfold handle_cmd_quited in H. ret_inv H; simplify_eq; first [apply keeps_same|by eapply keeps_update].
  - unfold handle_cmd_writetracker, cluster_wlc_write_block_get in H. ret_inv H; simplify_eq; intros M Hm; exists M;
      (split; [|apply grows_refl]); eapply members_blocks; try done; by eapply write_walk_blocks.
  - unfold handle_cmd_readtracker in H. ret_inv H; simplify_eq; apply keeps_store; intros M Hm;
      by eapply readdatasevrblock_members.
  - unfold handle_cmd_test in H. ret_inv H; simplify_eq. apply keeps_same.
Qed.
End Membership.

(** ** The handlers on well-formed requests *)

(** An error response over whatever header the handler has already written. *)
Lemma error_msg_over c st cmd x n : wbuff c = x ++ zeros n -> length x = 10%nat -> (6 <= n)%nat -> rbuff c !! 8%nat = Some cmd ->
  exists c', handle_protocol_error c st = Ret c' /\ response c' = header_bytes 0 cmd st ++ zeros 6 /\ cstate c' = conn_write.
Proof.
  intros Hw Hx Hn Hc. unfold handle_protocol_error, write_error_msg. change (zlookup (rbuff c) 8) with (rbuff c !! 8%nat).
  rewrite Hc. cbn [get_or mbind outcome_bind]. unfold put_header. rewrite Hw.
  pose proof (buf_write_at [] x (header_bytes 0 cmd st) (zeros n) 0) as Hwr. cbn [app] in Hwr. rewrite Hwr by done.
  cbn [mbind outcome_bind]. eexists. split; [done|].
  pose proof (response_header c 0 cmd st (n + 10) ltac:(lia)) as Hr. rewrite Nat.add_sub in Hr.
  unfold set_conn_state, __set_conn_state. split; repeat case_decide; done.
Qed.

Lemma clean_split c : clean c -> exists n, wbuff c = zeros 10 ++ zeros n /\ (6 <= n)%nat.
Proof. intros (n & Hw & Hn). exists (n - 10)%nat. rewrite Hw, (zeros_split 10) by lia. split; [done|lia]. Qed.

Section Served.
Context (hash_func : bytes -> Z) (interval : Z).

Lemma req_block_names t c m ip tl : named m ip -> at_rcurr c (name_fields m ip ++ tl) ->
  req_block hash_func t c = cluster_datasevrblock_find hash_func (tk_store t) (tk_cluster t) m ip.
Proof. intros Hn Hc. unfold req_block. destruct (req_names c m ip tl Hn Hc) as (-> & -> & _). done. Qed.

Lemma fill_block_request c m ip p w h rt st vid bid : named m ip -> at_rcurr c (request m ip [p; w; h; rt; st]) ->
  exists d, fill_block c vid bid = Ret d /\ parent_volume_id d = vid /\ block_id d = bid /\ ip_addr d = pad 16 ip /\
    port d = s32 (s64 p) /\ map_info d = m ++ zeros (33 - length m).
Proof.
  intros Hn Hc. unfold fill_block. destruct (req_names c m ip _ Hn Hc) as (-> & _ & -> & _). cbn [mbind outcome_bind].
  assert (buf_write (map_info zero_block) 0 m = Ret (m ++ zeros (33 - length m))) as ->.
  { pose proof (buf_write_zeros [] 33 m 0 0 eq_refl) as Hw. rewrite Nat.sub_0_r in Hw. apply Hw. destruct Hn. cbn. lia. }
  cbn [mbind outcome_bind].
  pose proof (fun k n => req_field c m ip _ k n Hn Hc) as Hf.
  rewrite (Hf 0%nat p eq_refl : req_long c (req_field8 0) = _), (Hf 1%nat w eq_refl : req_long c (req_field8 1) = _),
    (Hf 2%nat h eq_refl : req_long c (req_field8 2) = _), (Hf 3%nat rt eq_refl : req_long c (req_field8 3) = _),
    (Hf 4%nat st eq_refl : req_long c (req_field8 4) = _). cbn [mbind outcome_bind].
  eexists. split; [done|]. done.
Qed.

(** A tracker whose blocks are all below [st_brk]. *)
Definition tracker_ok (t : tracker) (M : gmap Z (list bloc)) : Prop :=
  members (tk_store t) (tk_cluster t) M /\ forall b, is_Some (st_blocks (tk_store t) !! b) -> (b < st_brk (tk_store t))%nat.

Lemma find_names s cl m ip : cluster_datasevrblock_find hash_func s cl m ip = cluster_datasevrblock_byid_find s cl (hash_func m) (hash_func ip).
Proof. done. Qed.

(** The lookup of a block that has just been added. *)
Lemma find_added s s' cl cl' M vid b bid : members s cl M -> cluster_datasevrblock_byid_find s cl vid bid = Ret None ->
  members s' cl' (<[vid := default [] (M !! vid) ++ [b]]> M) -> id_of s' b = Some bid ->
  (forall b', is_Some (st_blocks s !! b') -> id_of s' b' = id_of s b') ->
  cluster_datasevrblock_byid_find s' cl' vid bid = Ret (Some b).
Proof.
  intros Hm Hno Hm' Hb Hid. rewrite (block_find_members _ _ _ _ _ Hm) in Hno. rewrite (block_find_members _ _ _ _ _ Hm'), lookup_insert_eq.
  cbn [mbind option_bind]. rewrite filter_app, filter_cons_True, filter_nil by done.
  assert (base.filter (fun b0 => id_of s' b0 = Some bid) (default [] (M !! vid)) = []) as ->; [|done].
  destruct (M !! vid) as [bs|] eqn:HM; [|done]. cbn [default from_option id].
  destruct (base.filter (fun b0 => id_of s' b0 = Some bid) bs) as [|b1 l] eqn:E; [done|].
  assert (b1 ∈ base.filter (fun b0 => id_of s' b0 = Some bid) bs) as [H1 H2]%list_elem_of_filter by (rewrite E; constructor).
  rewrite Hid in H1 by (by eapply members_allocated). injection Hno as Hno.
  assert (b1 ∈ base.filter (fun b0 => id_of s b0 = Some bid) bs) as H3 by (by apply list_elem_of_filter).
  change (list.head (base.filter (fun b0 => id_of s b0 = Some bid) bs) = None) in Hno.
  destruct (base.filter (fun b0 => id_of s b0 = Some bid) bs); [by apply not_elem_of_nil in H3|done].
Qed.
End Served.

(** ** Theorems *)

(** C2. Whatever the bytes of the request, a request that is served keeps the
    tracker's membership well formed, and loses or reorders no registered
    block: each volume keeps its blocks, with new ones at the end. *)
Theorem dispatch_cmd_membership hash_func interval garbage e t c cmd t' c' M :
  members (tk_store t) (tk_cluster t) M -> dispatch_cmd hash_func interval garbage e t c cmd = Ret (t', c') ->
  exists M', members (tk_store t') (tk_cluster t') M' /\ grows M M'.
Proof.
  intros Hm Hr. unfold dispatch_cmd in Hr. apply bind_Ret in Hr as ([ [t1 c1] st] & Hh & Hr).
  assert (t' = t1) as -> by (ret_inv Hr; by simplify_eq). clear Hr. revert M Hm. change (keeps t t1).
  repeat (case_match; [apply (handlers_keep hash_func interval e t c t1 c1 st); tauto|]). simplify_eq. apply keeps_same.
Qed.

(** Registration of a server that is not known. *)
Lemma register_new hash_func e t c m ip p w h rt st M : tracker_ok t M -> (forall n, st_oracle (tk_store t) n = true) ->
  (M !! hash_func m = None -> expanding (tk_cluster t) = true -> Z.testbit (hash_func m) (hash_size (tk_cluster t) - 1) = false) ->
  named m ip -> at_rcurr c (request m ip [p; w; h; rt; st]) -> clean c ->
  cluster_datasevrblock_find hash_func (tk_store t) (tk_cluster t) m ip = Ret None ->
  exists t' c' b d, handle_cmd_register hash_func e t c = Ret (t', c', 0) /\
    response c' = header_bytes 0 PROTOCOL_CMD_DATASERVER_REGISTER 0 ++ zeros 6 /\ cstate c' = conn_write /\
    tracker_ok t' (<[hash_func m := default [] (M !! hash_func m) ++ [b]]> M) /\
    cluster_datasevrblock_find hash_func (tk_store t') (tk_cluster t') m ip = Ret (Some b) /\
    st_blocks (tk_store t') !! b = Some d /\ ip_addr d = pad 16 ip /\ port d = s32 (s64 p) /\
    weight d = s32 (s64 w) /\ heart_beat_interval d = s32 (s64 h) /\ state d = init.
Proof.
  intros [Hm Hbrk] Hor Hbit Hn Hc Hcl Hfind. unfold handle_cmd_register.
  destruct (req_names c m ip _ Hn Hc) as (-> & -> & _). cbn [mbind outcome_bind].
  rewrite <- find_names, Hfind. cbn [mbind outcome_bind]. unfold block_new, s_malloc. rewrite Hor. cbn [fst snd st_brk st_blocks st_volumes st_oracle st_tick].
  set (b := st_brk (tk_store t)). set (s1 := mk_store (<[b := zero_block]> _) _ _ _ _).
  destruct (fill_block_request c m ip p w h rt st (hash_func m) (hash_func ip) Hn Hc) as (d0 & -> & Hd1 & Hd2 & Hd3 & Hd4 & _).
  cbn [mbind outcome_bind].
  assert (members (put_block s1 b d0) (tk_cluster t) M) as Hm1.
  { apply put_block_members. eapply (block_new_members _ _ _ _ (Some b) Hm). unfold block_new, s_malloc. by rewrite Hor. }
  destruct (block_insert_members (put_block s1 b d0) (tk_cluster t) M b d0 Hm1) as (s2 & cl2 & -> & Hreg);
    [cbn; by rewrite lookup_insert_eq|by rewrite Hd1|].
  unfold registered in Hreg. rewrite Hd1 in Hreg.
  destruct Hreg as [Hk [ [Hm2 Hb2]|(_ & _ & n & Hn')] ]; [|cbn in Hn'; by rewrite Hor in Hn'].
  cbn [mbind outcome_bind negb]. change (LFS_OK =? 0) with true. cbn [negb mbind outcome_bind].
  pose proof (fun k n => req_field c m ip _ k n Hn Hc) as Hf.
  rewrite (Hf 1%nat w eq_refl : req_long c (req_field8 1) = _), (Hf 2%nat h eq_refl : req_long c (req_field8 2) = _).
  cbn [mbind outcome_bind tk_store]. set (d2 := if decide _ then _ else _) in Hb2.
  assert (get_block s2 b = Ret d2) as Hg by (unfold get_block; by rewrite Hb2, lookup_insert_eq).
  unfold update_block. rewrite Hg. cbn [mbind outcome_bind].
  destruct (reply_header_spec c PROTOCOL_CMD_DATASERVER_REGISTER Hcl) as (c' & -> & Hresp & Hst). cbn [mbind outcome_bind].
  eexists _, c', b, (set_weights (set_state d2 init) (s32 (s64 w)) (s32 (s64 h))). split; [done|]. split; [done|]. split; [done|]. cbn [tk_store tk_cluster with_store].
  assert (block_id d2 = hash_func ip /\ ip_addr d2 = pad 16 ip /\ port d2 = s32 (s64 p)) as (Hi1 & Hi2 & Hi3).
  { unfold d2. by case_decide. }
  split_and!; try done.
  - split; [by apply put_block_members|]. cbn. intros b'. rewrite Hb2. cbn. rewrite !insert_insert_eq, lookup_insert. cbn in Hk.
    case_decide as E; [subst b'; unfold b in *; lia|]. intros Hs%Hbrk. lia.
  - rewrite find_names. eapply (find_added _ _ _ _ M); [exact Hm|by rewrite <- find_names|by apply put_block_members| |].
    + unfold id_of. cbn. rewrite lookup_insert_eq. cbn. by rewrite Hi1.
    + intros b' Hs. unfold id_of. cbn. rewrite Hb2. cbn. rewrite !insert_insert_eq, lookup_insert_ne; [done|]. intros <-. specialize (Hbrk b Hs). unfold b in *. lia.
  - cbn. by rewrite lookup_insert_eq.
Qed.

(** A registration that has to make a volume, in a table that is growing, with the
    bit set that the growth adds to the mask. *)
Definition past_old_array (hash_func : bytes -> Z) (t : tracker) (M : gmap Z (list bloc)) (m : bytes) : bool :=
  bool_decide (M !! hash_func m = None) && (expanding (tk_cluster t) && Z.testbit (hash_func m) (hash_size (tk_cluster t) - 1)).

Lemma past_old_array_false hash_func t M m : past_old_array hash_func t M m = false ->
  M !! hash_func m = None -> expanding (tk_cluster t) = true -> Z.testbit (hash_func m) (hash_size (tk_cluster t) - 1) = false.
Proof. unfold past_old_array. intros H Hm He. rewrite bool_decide_true, He in H by done. exact H. Qed.

Lemma register_overrun hash_func e t c m ip p w h rt st M : tracker_ok t M -> (forall n, st_oracle (tk_store t) n = true) ->
  past_old_array hash_func t M m = true -> named m ip -> at_rcurr c (request m ip [p; w; h; rt; st]) ->
  cluster_datasevrblock_find hash_func (tk_store t) (tk_cluster t) m ip = Ret None ->
  handle_cmd_register hash_func e t c = Crash OutOfBounds.
Proof.
  intros [Hm Hbrk] Hor Hpast Hn Hc Hfind. unfold past_old_array in Hpast. rewrite !andb_true_iff, bool_decide_eq_true in Hpast. destruct Hpast as (HM & He & Hbit).
  unfold handle_cmd_register. destruct (req_names c m ip _ Hn Hc) as (-> & -> & _). cbn [mbind outcome_bind].
  rewrite <- find_names, Hfind. cbn [mbind outcome_bind]. unfold block_new, s_malloc. rewrite Hor. cbn [fst snd st_brk st_blocks st_volumes st_oracle st_tick].
  set (b := st_brk (tk_store t)). set (s1 := mk_store (<[b := zero_block]> _) _ _ _ _).
  destruct (fill_block_request c m ip p w h rt st (hash_func m) (hash_func ip) Hn Hc) as (d0 & -> & Hd1 & _). cbn [mbind outcome_bind].
  assert (members (put_block s1 b d0) (tk_cluster t) M) as Hm1.
  { apply put_block_members. eapply (block_new_members _ _ _ _ (Some b) Hm). unfold block_new, s_malloc. by rewrite Hor. }
  unfold cluster_datasevrblock_insert. assert (get_block (put_block s1 b d0) b = Ret d0) as -> by (unfold get_block; cbn; by rewrite lookup_insert_eq). cbn [mbind outcome_bind].
  pose proof Hm1 as (P & Hi & Hv & Hd & _). rewrite Hd1. destruct (cluster_find_inv _ _ P (hash_func m) Hi) as (r & -> & Hr). cbn [mbind outcome_bind].
  destruct r as [v|]; [destruct (Hv v _ Hr) as (dv & bs & _ & HM' & _); congruence|].
  destruct (volume_new (put_block s1 b d0)) as [s2 [v|]] eqn:Hvn.
  - rewrite (insert_new_volume_overrun _ _ M b d0 s2 v); [done|done|cbn; by rewrite lookup_insert_eq|done|by rewrite Hd1|done].
  - unfold volume_new, s_malloc in Hvn. cbn in Hvn. rewrite !Hor in Hvn. cbn in Hvn. done.
Qed.

(** The branch of the dispatch for a known command. *)
Ltac dispatch_branch := unfold dispatch_cmd;
  cbn -[handle_cmd_register handle_cmd_fullsyncreq handle_cmd_heartbeat handle_cmd_syncreport handle_cmd_statreport
        handle_cmd_quited handle_cmd_writetracker handle_cmd_readtracker handle_cmd_test
        tk_store tk_cluster tk_wlc now zeros header_bytes key_le key_of long2buff pad response handle_protocol_error].

(** C4. A register request of a server that is not known, with memory to store
    it, is answered with success: the server then is the last block of its
    volume, is found under its names, and has the address, port, weight and
    interval of the request.  There is one exception: when the volume is new, the
    table is growing and the bit that the growth adds is set in the id of the
    volume, the request is not answered and the tracker writes past the end of the
    old array. *)
Theorem register_served hash_func interval garbage e t c m ip p w h rt st M : tracker_ok t M ->
  (forall n, st_oracle (tk_store t) n = true) ->
  named m ip -> at_rcurr c (request m ip [p; w; h; rt; st]) -> clean c ->
  cluster_datasevrblock_find hash_func (tk_store t) (tk_cluster t) m ip = Ret None ->
  if past_old_array hash_func t M m
  then dispatch_cmd hash_func interval garbage e t c PROTOCOL_CMD_DATASERVER_REGISTER = Crash OutOfBounds
  else exists t' c' b d, dispatch_cmd hash_func interval garbage e t c PROTOCOL_CMD_DATASERVER_REGISTER = Ret (t', c') /\
    response c' = header_bytes 0 PROTOCOL_CMD_DATASERVER_REGISTER 0 ++ zeros 6 /\ cstate c' = conn_write /\
    tracker_ok t' (<[hash_func m := default [] (M !! hash_func m) ++ [b]]> M) /\
    cluster_datasevrblock_find hash_func (tk_store t') (tk_cluster t') m ip = Ret (Some b) /\
    st_blocks (tk_store t') !! b = Some d /\ ip_addr d = pad 16 ip /\ port d = s32 (s64 p) /\
    weight d = s32 (s64 w) /\ heart_beat_interval d = s32 (s64 h) /\ state d = init.
Proof.
  intros Ht Ho Hn Hc Hcl Hf. destruct (past_old_array hash_func t M m) eqn:Ep.
  - unfold dispatch_cmd. rewrite Z.eqb_refl. by rewrite (register_overrun hash_func e t c m ip p w h rt st M Ht Ho Ep Hn Hc Hf).
  - destruct (register_new hash_func e t c m ip p w h rt st M Ht Ho (past_old_array_false _ _ _ _ Ep) Hn Hc Hcl Hf)
      as (t' & c' & b & d & Hr & Hrest). exists t', c', b, d. split; [|done].
    unfold dispatch_cmd. rewrite Hr. done.
Qed.

Lemma error_bind (t : tracker) c st c' : st <> 0 -> handle_protocol_error c st = Ret c' ->
  (if st =? 0 then Ret (t, c) else c ← handle_protocol_error c st; Ret (t, c)) = Ret (t, c').
Proof. intros Hst He. by rewrite (proj2 (Z.eqb_neq _ _) Hst), He. Qed.

Definition unregistered_status (cmd : Z) : Z :=
  if (cmd =? PROTOCOL_CMD_DATASERVER_FULLSYNC) || (cmd =? PROTOCOL_CMD_DATASERVER_HEARTBEAT)
  then PROTOCOL_RESP_STATUS_ERROR_UNREGISTER
  else if cmd =? PROTOCOL_CMD_DATASERVER_QUITED then PROTOCOL_RESP_STATUS_ERROR
  else PROTOCOL_RESP_STATUS_ERROR_NONEDATASEVERBLOCKS.

(** C9. A server that has not registered changes nothing: its full
    synchronisation, heartbeat, reports and departure are answered with a
    header that echoes the command and carries the error status. *)
Theorem unregistered_refused hash_func interval garbage e t c m ip tl cmd : named m ip ->
  at_rcurr c (name_fields m ip ++ tl) -> clean c -> rbuff c !! 8%nat = Some cmd ->
  cmd ∈ [PROTOCOL_CMD_DATASERVER_FULLSYNC; PROTOCOL_CMD_DATASERVER_HEARTBEAT; PROTOCOL_CMD_DATASERVER_SYNCREPORT;
         PROTOCOL_CMD_DATASERVER_STATREPORT; PROTOCOL_CMD_DATASERVER_QUITED] ->
  cluster_datasevrblock_find hash_func (tk_store t) (tk_cluster t) m ip = Ret None ->
  exists c', dispatch_cmd hash_func interval garbage e t c cmd = Ret (t, c') /\
    response c' = header_bytes 0 cmd (unregistered_status cmd) ++ zeros 6 /\ cstate c' = conn_write.
Proof.
  intros Hn Hc Hcl H8 Hcmd Hf. pose proof (req_block_names hash_func t c m ip tl Hn Hc) as Hb. rewrite Hf in Hb.
  destruct (clean_split c Hcl) as (n & Hw & Hn6).
  assert (forall st, exists c', handle_protocol_error c st = Ret c' /\ response c' = header_bytes 0 cmd st ++ zeros 6 /\
            cstate c' = conn_write) as Herr by (intros st; by eapply error_msg_over).
  rewrite !elem_of_cons in Hcmd.
  destruct Hcmd as [->|[->|[->|[->|[->|?%not_elem_of_nil]]]]]; [..|done]; dispatch_branch.
  - unfold handle_cmd_fullsyncreq, put_header. rewrite Hw.
    pose proof (buf_write_at [] (zeros 10) (header_bytes sizeof_masterblock_resp PROTOCOL_CMD_DATASERVER_FULLSYNC
      PROTOCOL_RESP_STATUS_SUCCESS) (zeros n) 0) as Hwr. cbn [app] in Hwr.
    rewrite Hwr by done. cbn [mbind outcome_bind].
    set (c1 := with_write _ _ _). change (req_block hash_func t c1) with (req_block hash_func t c). rewrite Hb. cbn [mbind outcome_bind].
    destruct (error_msg_over c1 14 2 (header_bytes sizeof_masterblock_resp 2 0) n) as (c' & He & ?); [done..|].
    exists c'. split; [by apply (error_bind t c1 14)|done].
  - unfold handle_cmd_heartbeat. rewrite Hb. destruct (Herr 14) as (c' & He & ?). exists c'. split; [by apply (error_bind t c 14)|done].
  - unfold handle_cmd_syncreport. rewrite Hb. destruct (Herr 12) as (c' & He & ?). exists c'. split; [by apply (error_bind t c 12)|done].
  - unfold handle_cmd_statreport. rewrite Hb. destruct (Herr 12) as (c' & He & ?). exists c'. split; [by apply (error_bind t c 12)|done].
  - unfold handle_cmd_quited. rewrite Hb. destruct (Herr 1) as (c' & He & ?). exists c'. split; [by apply (error_bind t c 1)|done].
Qed.

(** C7. A write request is answered with the address and port of the data
    server of least load, when that server has a recent heartbeat. *)
Theorem writetracker_served hash_func interval garbage e t c x xs d b blk ip :
  skip_inv (st_blocks (tk_store t)) (tk_wlc t) (x :: xs) -> w_nodes (tk_wlc t) !! x = Some d -> n_dblk d = Some b ->
  st_blocks (tk_store t) !! b = Some blk -> now e 0 - last_heartbeat_time blk <= interval ->
  ip_addr blk = pad 16 ip -> no_nul ip -> (length ip <= 15)%nat -> clean c ->
  exists c', dispatch_cmd hash_func interval garbage e t c PROTOCOL_CMD_WRITE_TRACKER_REQ = Ret (t, c') /\
    response c' = header_bytes 24 PROTOCOL_CMD_WRITE_TRACKER_REQ 0 ++ zeros 6 ++ pad 16 ip ++ long2buff (port blk) /\
    cstate c' = conn_write /\
    forall y, y ∈ x :: xs -> key_le (key_of (st_blocks (tk_store t)) (w_nodes (tk_wlc t)) x)
                                    (key_of (st_blocks (tk_store t)) (w_nodes (tk_wlc t)) y).
Proof.
  intros Hs Hx Hd Hb Hfresh Hip Hnn Hl Hcl.
  destruct (write_block_get_inv _ _ _ (now e 0) interval Hs d b blk Hx Hd Hb Hfresh) as [Hg Hmin].
  dispatch_branch. unfold handle_cmd_writetracker. rewrite Hg. cbn [mbind outcome_bind].
  set (s := mk_store _ _ _ _ _). assert (s = tk_store t) as -> by (unfold s; by destruct (tk_store t)).
  destruct (reply_address_spec (tk_store t) c PROTOCOL_CMD_WRITE_TRACKER_REQ b blk ip Hcl Hb Hip Hnn Hl) as (c' & -> & Hr & Hst).
  cbn. exists c'. split_and!; try done. by destruct t.
Qed.

(** A block whose address field holds a string. *)
Definition addressed (s : store) (b : bloc) : Prop :=
  exists d ip, st_blocks s !! b = Some d /\ ip_addr d = pad 16 ip /\ no_nul ip /\ (length ip <= 15)%nat.

(** C8. A read request for a registered volume is answered with the address and
    port of the first slave that was not the one read last, has a recent heartbeat
    and is synchronised up to the requested sequence; it then is the one read last.
    When there is no such slave the answer is the master, and the tables stay as
    they are. *)
Theorem readtracker_served hash_func interval garbage e t c m n tl M mb bs :
  members (tk_store t) (tk_cluster t) M -> M !! hash_func m = Some (mb :: bs) -> no_nul m -> (length m <= 32)%nat ->
  at_rcurr c (pad 33 m ++ long2buff n ++ tl) -> clean c -> Forall (addressed (tk_store t)) (mb :: bs) ->
  exists t' c' b d ip v vol, dispatch_cmd hash_func interval garbage e t c PROTOCOL_CMD_READ_TRACKER_REQ = Ret (t', c') /\
    members (tk_store t') (tk_cluster t') M /\ do_cluster_find (tk_store t) (tk_cluster t) (hash_func m) = Ret (Some v) /\ st_volumes (tk_store t) !! v = Some vol /\
    st_blocks (tk_store t) !! b = Some d /\ ip_addr d = pad 16 ip /\ cstate c' = conn_write /\
    response c' = header_bytes 24 PROTOCOL_CMD_READ_TRACKER_REQ 0 ++ zeros 6 ++ pad 16 ip ++ long2buff (port d) /\
    chosen (tk_store t) (tk_store t') v vol (fun i => now e (Z.to_nat i)) interval (s64 n) mb bs b.
Proof.
  intros Hm HM Hnn Hl (pre & rest & Hb & Hc) Hcl Haddr.
  assert (req_string c req_map_info = Ret m) as Hs.
  { unfold req_string, req_map_info. rewrite Hb, Hc, pad_nul by lia. rewrite <- !app_assoc. cbn [app]. apply buf_string_at; [lia|done]. }
  assert (req_long c req_file_timestamp = Ret (s64 n)) as Hf.
  { unfold req_long, req_file_timestamp. rewrite Hb, Hc.
    replace (pre ++ (pad 33 m ++ long2buff n ++ tl) ++ rest) with ((pre ++ pad 33 m) ++ long2buff n ++ tl ++ rest) by (by rewrite <- !app_assoc).
    rewrite buf_read_at; [|rewrite length_app, length_pad by lia; lia|done]. cbn [mbind outcome_bind].
    pose proof (buff2long_decode n []) as Hd. by rewrite app_nil_r in Hd. }
  destruct (read_block_get_inv hash_func _ _ M (fun i => now e (Z.to_nat i)) interval m (s64 n) mb bs Hm HM)
    as (s' & v & vol & b & Hg & Hm' & Hbl & Hfv & Hvol & Hcase).
  assert (b ∈ mb :: bs) as Hin.
  { destruct Hcase as [(i & Hi & _)|[-> _] ]; [|constructor]. apply list_elem_of_further. by eapply list_elem_of_lookup_2. }
  rewrite Forall_forall in Haddr. destruct (Haddr b Hin) as (d & ip & Hd & Hip & Hnip & Hlip).
  destruct (reply_address_spec s' c PROTOCOL_CMD_READ_TRACKER_REQ b d ip Hcl) as (c' & Hr & Hresp & Hst); [by rewrite Hbl|done..|].
  exists (with_store t s'), c', b, d, ip, v, vol. split_and!; try done.
  dispatch_branch. unfold handle_cmd_readtracker. rewrite Hf. cbn [mbind outcome_bind]. rewrite Hs. cbn [mbind outcome_bind].
  rewrite Hg. cbn [mbind outcome_bind]. rewrite Hr. done.
Qed.

(** ** Heartbeats *)

(** The brief of a peer in a heartbeat response. *)
Definition brief (d : datasevr_block) : bytes :=
  long2buff (state_code (state d)) ++ ip_addr d ++ long2buff (port d) ++ long2buff (last_sync_sequence d).

(** The blocks of a volume at other addresses. *)
Fixpoint peers (s : store) (own : bytes) (bs : list bloc) : list datasevr_block :=
  match bs with
  | [] => []
  | b :: bs' =>
      match st_blocks s !! b with
      | Some d => if decide (ip_addr d = own) then peers s own bs' else d :: peers s own bs'
      | None => peers s own bs'
      end
  end.

Lemma pad_inj n s s' : no_nul s -> no_nul s' -> (length s < n)%nat -> (length s' < n)%nat -> pad n s = pad n s' -> s = s'.
Proof.
  intros Hs Hs' Hl Hl' Hp. rewrite !pad_nul in Hp by done.
  rewrite <- (cstr_app_nul s (zeros (n - length s - 1))) by done. by rewrite Hp, cstr_app_nul.
Qed.

(** The four writes of one record at the end of what is written. *)
Lemma brief_write a n d ip : ip_addr d = pad 16 ip -> no_nul ip -> (length ip <= 15)%nat -> (40 <= n)%nat ->
  (wb ← buf_write (a ++ zeros n) (Z.of_nat (length a)) (long2buff (state_code (state d)));
   ip ← c_string (ip_addr d);
   wb ← buf_write wb (Z.of_nat (length a) + 8) ip;
   wb ← buf_write wb (Z.of_nat (length a) + 24) (long2buff (port d));
   buf_write wb (Z.of_nat (length a) + 32) (long2buff (last_sync_sequence d)))
  = Ret ((a ++ brief d) ++ zeros (n - 40)).
Proof.
  intros Hip Hnn Hl Hn. rewrite (buf_write_zeros a n _ 0) by (rewrite ?length_long2buff; lia). cbn [mbind outcome_bind].
  assert (c_string (ip_addr d) = Ret ip) as -> by (rewrite Hip, pad_nul by lia; by apply c_string_nul).
  cbn [mbind outcome_bind app]. rewrite length_long2buff, Nat.sub_0_r. change (zeros 0) with (@nil Z). cbn [app].
  rewrite app_assoc. set (a1 := a ++ long2buff (state_code (state d))).
  assert (length a1 = length a + 8)%nat as H1 by (unfold a1; by rewrite length_app).
  rewrite (buf_write_zeros a1 _ ip 0) by lia. cbn [mbind outcome_bind]. change (zeros 0) with (@nil Z). cbn [app].
  rewrite app_assoc. set (a2 := a1 ++ ip). assert (length a2 = length a + 8 + length ip)%nat as H2 by (unfold a2; rewrite length_app; lia).
  rewrite (buf_write_zeros a2 _ _ (16 - length ip)) by (rewrite ?length_long2buff; lia). cbn [mbind outcome_bind].
  rewrite length_long2buff, (app_assoc (zeros _)), (app_assoc a2). set (a3 := a2 ++ zeros (16 - length ip) ++ long2buff (port d)).
  assert (length a3 = length a + 32)%nat as H3.
  { unfold a3. rewrite !length_app, length_long2buff. unfold zeros. rewrite length_replicate. lia. }
  rewrite (buf_write_zeros a3 _ _ 0) by (rewrite ?length_long2buff; lia). change (zeros 0) with (@nil Z). cbn [app].
  f_equal. rewrite length_long2buff. unfold a3, a2, a1, brief. rewrite Hip. unfold pad. rewrite <- !app_assoc. do 7 f_equal. lia.
Qed.

Lemma heartbeat_loop_spec interval e self s me ip r a n p bl k bs : st_blocks s !! self = Some me ->
  (forall k, now e k - last_heartbeat_time me <= interval) -> no_nul ip -> (length ip <= 15)%nat -> Forall (addressed s) bs ->
  let ps := peers s (pad 16 ip) bs in
  (40 * length ps <= n)%nat ->
  (ps = [] \/ (p = Z.of_nat (length a) /\ (bl = 0 /\ (length ps <= 2)%nat \/ bl = 40 /\ (length ps <= 1)%nat))) ->
  heartbeat_loop interval e self s (ip ++ 0 :: r) (a ++ zeros n) p bl k (Some <$> bs) =
  Ret (s, (a ++ concat (brief <$> ps)) ++ zeros (n - 40 * length ps), bl + 40 * Z.of_nat (length ps)).
Proof.
  intros Hme Hclk Hnn Hl Hf. revert a n p bl k. induction Hf as [|b bs (d & ipd & Hd & Hip & Hnd & Hld) Hf IH]; intros a n p bl k ps Hn Hcase.
  { cbn. rewrite app_nil_r, Nat.sub_0_r. do 2 f_equal. lia. }
  cbn [fmap list_fmap heartbeat_loop get_or mbind outcome_bind].
  assert (get_block s b = Ret d) as Hgb by (unfold get_block; by rewrite Hd). rewrite Hgb. cbn [get_or mbind outcome_bind].
  rewrite Hip, (pad_nul 16 ipd), strcmp_eq_nul by (done || lia). cbn [mbind outcome_bind].
  assert (ps = (if decide (ip = ipd) then [] else [d]) ++ peers s (pad 16 ip) bs) as Hps.
  { unfold ps. cbn [peers]. rewrite Hd, Hip.
    destruct (decide (ip = ipd)) as [<-|Hne]; [by rewrite decide_True|]. rewrite decide_False; [done|].
    intros Hp. apply Hne. symmetry. by apply (pad_inj 16); first [done|lia]. }
  rewrite Hps in *. destruct (decide (ip = ipd)) as [<-|Hne].
  { rewrite bool_decide_true by done. cbn [app] in *. by apply IH. }
  rewrite bool_decide_false by done. cbn [app length] in Hn, Hcase. destruct Hcase as [?|[-> Hbl] ]; [done|].
  assert (get_block s self = Ret me) as -> by (unfold get_block; by rewrite Hme). cbn [mbind outcome_bind].
  rewrite (proj2 (Z.ltb_ge _ _)) by apply Hclk. cbn [mbind outcome_bind].
  rewrite Hgb. cbn [mbind outcome_bind].
  pose proof (brief_write a n d ipd Hip Hnd Hld ltac:(lia)) as Hw.
  apply bind_Ret in Hw as (w1 & -> & Hw). apply bind_Ret in Hw as (w2 & E2 & Hw). apply bind_Ret in Hw as (w3 & E3 & Hw).
  apply bind_Ret in Hw as (w4 & E4 & Hw). cbn [mbind outcome_bind]. rewrite E2. cbn [mbind outcome_bind]. rewrite E3.
  cbn [mbind outcome_bind]. change (sizeof_block_brief_info_resp) with 40. rewrite E4. cbn [mbind outcome_bind]. rewrite Hw. cbn [mbind outcome_bind].
  rewrite IH.
  - cbn [fmap list_fmap concat app length]. rewrite <- !app_assoc.
    replace (n - 40 - 40 * length (peers s (pad 16 ip) bs))%nat with (n - 40 * S (length (peers s (pad 16 ip) bs)))%nat by lia.
    by replace (bl + 40 + 40 * Z.of_nat (length (peers s (pad 16 ip) bs))) with (bl + 40 * Z.of_nat (S (length (peers s (pad 16 ip) bs)))) by lia.
  - lia.
  - destruct (peers s (pad 16 ip) bs) as [|d2 ps2]; [by left|right]. cbn [length] in *.
    assert (length (brief d) = 40%nat) as Hlb by (unfold brief; rewrite !length_app, Hip, length_pad by lia; done).
    rewrite length_app, Hlb. destruct Hbl as [ [-> ?]|[-> ?] ]; [|lia]. split; [lia|]. right. split; lia.
Qed.

Lemma length_briefs ps : Forall (fun d => length (ip_addr d) = 16%nat) ps -> length (concat (brief <$> ps)) = (40 * length ps)%nat.
Proof.
  induction 1 as [|d ps Hd _ IH]; [done|]. cbn [fmap list_fmap concat length]. rewrite length_app, IH.
  unfold brief. rewrite !length_app, Hd, !length_long2buff. lia.
Qed.

Lemma peers_addressed s own bs : Forall (addressed s) bs -> Forall (fun d => length (ip_addr d) = 16%nat) (peers s own bs).
Proof.
  induction 1 as [|b bs (d & ip & Hd & Hip & _ & Hl) _ IH]; cbn [peers]; [constructor|]. rewrite Hd. case_decide; [done|].
  constructor; [|done]. rewrite Hip, length_pad; [done|lia].
Qed.

(** The response of a heartbeat once its records are written. *)
Lemma heartbeat_reply c recs k cmd : let n := (40 * k)%nat in length recs = n ->
  exists wb, put_header ((zeros 16 ++ recs) ++ zeros (length (wbuff c) - 16 - n)) (40 * Z.of_nat k) cmd 0 = Ret wb /\
    response (set_conn_state (with_write c wb (sizeof_protocol_header + 40 * Z.of_nat k)) conn_write) =
      header_bytes (40 * Z.of_nat k) cmd 0 ++ zeros 6 ++ recs /\
    cstate (set_conn_state (with_write c wb (sizeof_protocol_header + 40 * Z.of_nat k)) conn_write) = conn_write.
Proof.
  intros n Hl. unfold put_header. rewrite <- app_assoc, (zeros_split 10 16), <- app_assoc by lia.
  pose proof (buf_write_at [] (zeros 10) (header_bytes (40 * Z.of_nat k) cmd 0)
    (zeros (16 - 10) ++ recs ++ zeros (length (wbuff c) - 16 - n)) 0) as Hw. cbn [app] in Hw. rewrite Hw by done.
  eexists. split; [done|]. set (wb := header_bytes _ _ _ ++ _).
  assert (response (with_write c wb (sizeof_protocol_header + 40 * Z.of_nat k)) = header_bytes (40 * Z.of_nat k) cmd 0 ++ zeros 6 ++ recs) as Hr.
  { unfold response, wb. cbn [wbytes wbuff with_write].
    replace (header_bytes (40 * Z.of_nat k) cmd 0 ++ zeros (16 - 10) ++ recs ++ zeros (length (wbuff c) - 16 - n))
      with ((header_bytes (40 * Z.of_nat k) cmd 0 ++ zeros 6 ++ recs) ++ zeros (length (wbuff c) - 16 - n)) by (by rewrite <- !app_assoc).
    apply take_app_length'. rewrite !length_app, Hl, length_header. change (length (zeros 6)) with 6%nat.
    unfold n, sizeof_protocol_header. lia. }
  unfold set_conn_state, __set_conn_state. split; case_decide; done.
Qed.

(** The answer to a heartbeat. *)
Lemma heartbeat_answer hash_func interval garbage e t c m ip tl M bs b d :
  let s1 := put_block (tk_store t) b (set_state (set_heartbeat d (now e 0)) active) in
  let ps := peers s1 (pad 16 ip) bs in
  members (tk_store t) (tk_cluster t) M -> M !! hash_func m = Some bs ->
  cluster_datasevrblock_find hash_func (tk_store t) (tk_cluster t) m ip = Ret (Some b) ->
  st_blocks (tk_store t) !! b = Some d -> ip_addr d = pad 16 ip -> Forall (addressed (tk_store t)) bs ->
  named m ip -> at_rcurr c (name_fields m ip ++ tl) -> wbuff c = zeros (length (wbuff c)) -> (96 <= length (wbuff c))%nat ->
  (forall k, now e k - now e 0 <= interval) -> (length ps <= 2)%nat ->
  exists c', dispatch_cmd hash_func interval garbage e t c PROTOCOL_CMD_DATASERVER_HEARTBEAT = Ret (with_store t s1, c') /\
    response c' = header_bytes (40 * Z.of_nat (length ps)) PROTOCOL_CMD_DATASERVER_HEARTBEAT 0 ++ zeros 6 ++ concat (brief <$> ps) /\
    cstate c' = conn_write.
Proof.
  intros s1 ps Hm HM Hfind Hb Hip Haddr Hn Hc Hw Hroom Hclk Hps.
  pose proof (req_block_names hash_func t c m ip tl Hn Hc) as Hrb. rewrite Hfind in Hrb.
  destruct (req_names c m ip tl Hn Hc) as (Hreq & _ & _ & r & Hr). dispatch_branch. unfold handle_cmd_heartbeat.
  rewrite Hrb. cbn [mbind outcome_bind]. unfold update_block.
  assert (get_block (tk_store t) b = Ret d) as -> by (unfold get_block; by rewrite Hb). cbn [mbind outcome_bind]. fold s1.
  rewrite Hreq. cbn [mbind outcome_bind]. unfold cluster_datasevrvolume_find.
  assert (members s1 (tk_cluster t) M) as Hm1 by (by apply put_block_members).
  pose proof (members_find s1 _ M (hash_func m) Hm1) as Hf. rewrite HM in Hf.
  destruct Hf as (v & dv & -> & Hv & _ & (arr & Ha & _ & Hcnt & _ & Ht & _) & _). cbn [mbind outcome_bind].
  assert (get_volume s1 v = Ret dv) as -> by (unfold get_volume; by rewrite Hv). cbn [mbind outcome_bind]. rewrite Ha, Hcnt, Nat2Z.id, Ht.
  assert (Forall (addressed s1) bs) as Haddr1.
  { eapply Forall_impl; [exact Haddr|]. intros b' (d' & ip' & Hd' & ? & ? & ?). destruct (decide (b' = b)) as [->|Hne].
    - eexists _, ip. cbn. rewrite lookup_insert_eq. destruct Hn as (_ & ? & _ & ?). split_and!; done.
    - exists d', ip'. cbn. by rewrite lookup_insert_ne. }
  assert ((if 1 <? Z.of_nat (length bs)
           then heartbeat_loop interval e b s1 (drop (Z.to_nat (rcurr c + req_ds_ipaddr)) (rbuff c)) (wbuff c)
                  sizeof_protocol_header 0 1 (Some <$> bs)
           else Ret (s1, wbuff c, 0)) =
          Ret (s1, (zeros 16 ++ concat (brief <$> ps)) ++ zeros (length (wbuff c) - 16 - 40 * length ps), 40 * Z.of_nat (length ps))) as ->.
  { remember (length (wbuff c)) as N eqn:HN. rewrite Hw, (zeros_split 16 N), Hr by lia. zcase (1 <? Z.of_nat (length bs)).
    - destruct Hn as (_ & Hnip & _ & Hlip). eapply heartbeat_loop_spec; try done.
      + cbn. by rewrite lookup_insert_eq.
      + exact Hclk.
      + fold ps. lia.
      + right. split; [done|]. left. by split.
    - assert (ps = []) as ->; [|cbn; by rewrite Nat.sub_0_r].
      rewrite find_names, (block_find_members _ _ _ _ _ Hm), HM in Hfind. injection Hfind as Hh.
      change (list.head (base.filter (fun b0 => id_of (tk_store t) b0 = Some (hash_func ip)) bs) = Some b) in Hh.
      apply head_Some_elem_of, list_elem_of_filter in Hh as [_ Hin].
      destruct bs as [|b1 [|b2 bs] ]; [by apply not_elem_of_nil in Hin| |cbn in E; lia]. apply list_elem_of_singleton in Hin as <-.
      unfold ps. cbn [peers]. unfold s1. cbn [st_blocks put_block]. rewrite lookup_insert_eq. by rewrite decide_True. }
  cbn [mbind outcome_bind].
  destruct (heartbeat_reply c (concat (brief <$> ps)) (length ps) PROTOCOL_CMD_DATASERVER_HEARTBEAT) as (wb & Hput & Hresp & Hst);
    [by apply length_briefs, peers_addressed|].
  change PROTOCOL_RESP_STATUS_SUCCESS with 0. rewrite Hput. cbn [mbind outcome_bind]. eexists. split; [done|]. done.
Qed.

(** C5. A heartbeat of a registered server with at most two servers at other
    addresses in its volume marks the server active at this time and answers
    with the state, address, port and sequence of exactly those servers, in
    the order of registration. *)
Theorem heartbeat_served hash_func interval garbage e t c m ip tl M bs b d :
  let s1 := put_block (tk_store t) b (set_state (set_heartbeat d (now e 0)) active) in
  let ps := peers s1 (pad 16 ip) bs in
  members (tk_store t) (tk_cluster t) M -> M !! hash_func m = Some bs ->
  cluster_datasevrblock_find hash_func (tk_store t) (tk_cluster t) m ip = Ret (Some b) ->
  st_blocks (tk_store t) !! b = Some d -> ip_addr d = pad 16 ip -> Forall (addressed (tk_store t)) bs ->
  named m ip -> at_rcurr c (name_fields m ip ++ tl) -> wbuff c = zeros (length (wbuff c)) -> (96 <= length (wbuff c))%nat ->
  (forall k, now e k - now e 0 <= interval) -> (length ps <= 2)%nat ->
  exists c', dispatch_cmd hash_func interval garbage e t c PROTOCOL_CMD_DATASERVER_HEARTBEAT = Ret (with_store t s1, c') /\
    response c' = header_bytes (40 * Z.of_nat (length ps)) PROTOCOL_CMD_DATASERVER_HEARTBEAT 0 ++ zeros 6 ++ concat (brief <$> ps) /\
    cstate c' = conn_write.
Proof. apply heartbeat_answer. Qed.

(** A status report of a registered server stores its figures, marks it
    active, and moves it in the load list from its old load to its new one (or
    adds it, when it was not in the list), leaving every other server there;
    the answer is a success header. *)
Theorem statreport_served hash_func interval garbage e t c m ip n tm fm b d L xs rest :
  let s1 := put_block (tk_store t) b
              (set_state (set_heartbeat (set_stat d (s32 (s64 n)) (s32 (s64 tm)) (s32 (s64 fm)) (now e 0)) (now e 0)) active) in
  let old := s32 (curr_conns d * weight d) in
  let new := s32 (s32 (s64 n) * weight d) in
  let blks := st_blocks (tk_store t) in
  cluster_datasevrblock_find hash_func (tk_store t) (tk_cluster t) m ip = Ret (Some b) -> blks !! b = Some d ->
  named m ip -> at_rcurr c (request m ip [n; tm; fm]) -> clean c ->
  node_malloc e = true -> wlcsl_random_level (randoms e) = Ret L -> skip_inv blks (tk_wlc t) xs -> old <> new ->
  (exists pre x post, xs = pre ++ x :: post /\ rest = pre ++ post /\ reachable_key blks (tk_wlc t) pre x post old (block_id d)) \/
  (rest = xs /\ forall x, x ∈ xs -> key_of blks (w_nodes (tk_wlc t)) x <> Some (old, block_id d)) ->
  exists sl xs' c', dispatch_cmd hash_func interval garbage e t c PROTOCOL_CMD_DATASERVER_STATREPORT =
      Ret (mk_tracker s1 (tk_cluster t) sl, c') /\
    skip_inv (st_blocks s1) sl xs' /\
    (key_of (st_blocks s1) (w_nodes sl) <$> xs') ≡ₚ Some (new, block_id d) :: (key_of blks (w_nodes (tk_wlc t)) <$> rest) /\
    response c' = header_bytes 0 PROTOCOL_CMD_DATASERVER_STATREPORT 0 ++ zeros 6 /\ cstate c' = conn_write.
Proof.
  intros s1 old new blks Hfind Hb Hn Hc Hcl Hmal HL Hsk Hne Hcase.
  pose proof (req_block_names hash_func t c m ip _ Hn Hc) as Hrb. rewrite Hfind in Hrb.
  pose proof (fun k n => req_field c m ip _ k n Hn Hc) as Hf.
  assert (forall b', block_id <$> st_blocks s1 !! b' = block_id <$> blks !! b') as Hid.
  { intros b'. cbn. rewrite lookup_insert. case_decide as E; [subst b'; by rewrite Hb|done]. }
  destruct (wlc_block_add_inv (st_blocks s1) (randoms e) L (tk_wlc t) xs (mk_wlc_ctx b old new)
    (set_state (set_heartbeat (set_stat d (s32 (s64 n)) (s32 (s64 tm)) (s32 (s64 fm)) (now e 0)) (now e 0)) active))
    with (rest := rest) as (sl & xs' & Hadd & Hsk' & Hperm).
  { by apply (skip_inv_blocks blks). }
  { cbn. by rewrite lookup_insert_eq. }
  { done. }
  { done. }
  { destruct Hcase as [(pre & x & post & ? & ? & Hrk)|[-> Habs] ]; [left|right].
    - exists pre, x, post. split_and!; try done. by apply (reachable_key_blocks blks).
    - split; [done|]. intros x Hx. rewrite (key_of_blocks _ _ _ _ Hid). by apply Habs. }
  destruct (reply_header_spec c PROTOCOL_CMD_DATASERVER_STATREPORT Hcl) as (c' & Hrep & Hresp & Hst).
  exists sl, xs', c'. split_and!; try done.
  - dispatch_branch. unfold handle_cmd_statreport. rewrite Hrb. cbn [mbind outcome_bind].
    assert (get_block (tk_store t) b = Ret d) as Hg by (unfold get_block; fold blks; by rewrite Hb). rewrite Hg. cbn [mbind outcome_bind].
    rewrite (Hf 0%nat n eq_refl : req_long c (req_field8 0) = _), (Hf 1%nat tm eq_refl : req_long c (req_field8 1) = _),
      (Hf 2%nat fm eq_refl : req_long c (req_field8 2) = _). cbn [mbind outcome_bind]. unfold update_block. rewrite Hg.
    cbn [mbind outcome_bind]. fold s1. fold old new. rewrite Hmal, Hadd. cbn [mbind outcome_bind]. by rewrite Hrep.
  - rewrite Hperm. cbn [wc_dblk new_wlc block_id set_state set_heartbeat set_stat]. apply reflexive_eq. f_equal.
    apply list_fmap_ext. intros i x _. apply (key_of_blocks _ _ _ _ Hid).
Qed.

(** ** Instances *)

Definition sum_hash (b : bytes) : Z := u32 (foldr Z.add 0 b).

(** A connection that has received the request [body] of the command [cmd]. *)
Definition demo_conn (cmd : Z) (body : bytes) : conn :=
  mk_conn 5 conn_parse_cmd conn_waiting 18
    (header_bytes (Z.of_nat (length body)) cmd 0 ++ zeros 6 ++ body ++ zeros 8) 16 512 (Z.of_nat (length body)) 0
    (zeros 256) 0 256 0 0.

Definition tracker0 : tracker :=
  mk_tracker (mk_store ∅ ∅ 0 (fun _ => true) 0) demo_cluster
    match wlcsl_create true with Ret sl => sl | Crash _ => mk_wlc ∅ 0 0 None 0 0 end.

Definition demo_env (t : Z) : env := mk_env (fun _ => t) true [65535].

Definition run (t : tracker) (tnow : Z) (c : conn) (cmd : Z) : tracker :=
  match dispatch_cmd sum_hash 30 0 (demo_env tnow) t c cmd with Ret (t', _) => t' | Crash _ => t end.

Definition reg (ip : bytes) (p : Z) : bytes := request (str "g1/v1") ip [p; 2; 30; 100; 100].

Lemma demo_at_rcurr cmd body : at_rcurr (demo_conn cmd body) body.
Proof. exists (header_bytes (Z.of_nat (length body)) cmd 0 ++ zeros 6), (zeros 8). split; [|done]. cbn [rbuff demo_conn]. by rewrite <- !app_assoc. Qed.

Lemma demo_clean cmd body : clean (demo_conn cmd body).
Proof. exists 256%nat. split; [done|]. repeat constructor. Qed.

Lemma tracker0_ok : tracker_ok tracker0 ∅.
Proof. split; [by apply members_init|]. intros b [d Hd]. cbn in Hd. by rewrite lookup_empty in Hd. Qed.

Lemma run_register t tnow m ip p w h rt st M : tracker_ok t M -> (forall n, st_oracle (tk_store t) n = true) ->
  expanding (tk_cluster t) = false -> named m ip ->
  cluster_datasevrblock_find sum_hash (tk_store t) (tk_cluster t) m ip = Ret None ->
  exists b, tracker_ok (run t tnow (demo_conn 1 (request m ip [p; w; h; rt; st])) 1)
              (<[sum_hash m := default [] (M !! sum_hash m) ++ [b]]> M) /\
    cluster_datasevrblock_find sum_hash (tk_store (run t tnow (demo_conn 1 (request m ip [p; w; h; rt; st])) 1))
      (tk_cluster (run t tnow (demo_conn 1 (request m ip [p; w; h; rt; st])) 1)) m ip = Ret (Some b).
Proof.
  intros Ht Ho He Hn Hf. destruct (register_new sum_hash (demo_env tnow) t _ m ip p w h rt st M Ht Ho ltac:(congruence) Hn
    (demo_at_rcurr 1 _) (demo_clean 1 _) Hf) as (t' & c' & b & d & Hr & _ & _ & Hok & Hfind & _).
  exists b. unfold run, dispatch_cmd. cbn -[handle_cmd_register]. rewrite Hr. cbn. by split.
Qed.

Definition ip1 : bytes := str "10.0.0.1".
Definition ip2 : bytes := str "10.0.0.2".

(** Two servers have registered. *)
Definition tracker1 : tracker := run tracker0 100 (demo_conn 1 (reg ip1 8001)) 1.
Definition tracker2 : tracker := run tracker1 100 (demo_conn 1 (reg ip2 8002)) 1.

Lemma demo_named ip : ip ∈ [ip1; ip2] -> named (str "g1/v1") ip.
Proof. intros Hi. unfold named. refine (bool_decide_unpack _ _). repeat (apply elem_of_cons in Hi as [->|Hi]; [by vm_compute|]). by apply not_elem_of_nil in Hi. Qed.

Lemma tracker2_ok : tracker_ok tracker2 (<[sum_hash (str "g1/v1") := [0; 2]%nat]> ∅).
Proof.
  destruct (run_register tracker0 100 (str "g1/v1") ip1 8001 2 30 100 100 ∅ tracker0_ok (fun _ => eq_refl) eq_refl) as (b1 & H1 & F1);
    [apply demo_named; constructor|by vm_compute|]. fold (reg ip1 8001) in H1, F1. fold tracker1 in H1, F1.
  vm_compute in F1. injection F1 as <-.
  destruct (run_register tracker1 100 (str "g1/v1") ip2 8002 2 30 100 100 _ H1) as (b2 & H2 & F2);
    [intros n; by vm_compute|by vm_compute|apply demo_named; by do 2 constructor|by vm_compute|].
  fold (reg ip2 8002) in H2, F2. fold tracker2 in H2, F2. vm_compute in F2. injection F2 as <-.
  rewrite lookup_insert_eq, lookup_empty, insert_insert_eq in H2. exact H2.
Qed.

Lemma dispatch_cmd_membership_witness :
  exists t' c', dispatch_cmd sum_hash 30 0 (demo_env 100) tracker2 (demo_conn 15 (name_fields (str "g1/v1") ip1)) 15 = Ret (t', c') /\
    exists M', members (tk_store t') (tk_cluster t') M' /\ grows (<[sum_hash (str "g1/v1") := [0; 2]%nat]> ∅) M'.
Proof.
  destruct (dispatch_cmd sum_hash 30 0 (demo_env 100) tracker2 (demo_conn 15 (name_fields (str "g1/v1") ip1)) 15) as [ [t' c']|] eqn:E;
    [|vm_compute in E; discriminate E].
  exists t', c'. split; [reflexivity|]. exact (dispatch_cmd_membership sum_hash 30 0 (demo_env 100) tracker2 _ 15 t' c' _ (proj1 tracker2_ok) E).
Defined.

Lemma register_served_witness :
  exists t' c' b d, dispatch_cmd sum_hash 30 0 (demo_env 100) tracker0 (demo_conn 1 (reg ip1 8001)) 1 = Ret (t', c') /\
    response c' = header_bytes 0 1 0 ++ zeros 6 /\ cstate c' = conn_write /\
    tracker_ok t' (<[sum_hash (str "g1/v1") := [] ++ [b]]> ∅) /\
    cluster_datasevrblock_find sum_hash (tk_store t') (tk_cluster t') (str "g1/v1") ip1 = Ret (Some b) /\
    st_blocks (tk_store t') !! b = Some d /\ ip_addr d = pad 16 ip1 /\ port d = s32 (s64 8001) /\
    weight d = s32 (s64 2) /\ heart_beat_interval d = s32 (s64 30) /\ state d = init.
Proof.
  apply (register_served sum_hash 30 0 (demo_env 100) tracker0 (demo_conn 1 (reg ip1 8001)) (str "g1/v1") ip1 8001 2 30 100 100 ∅ tracker0_ok).
  - intros n. reflexivity.
  - apply demo_named. constructor.
  - apply demo_at_rcurr.
  - apply demo_clean.
  - by vm_compute.
Defined.

Lemma unregistered_refused_witness :
  exists c', dispatch_cmd sum_hash 30 0 (demo_env 100) tracker1 (demo_conn 3 (name_fields (str "g1/v1") ip2)) 3 = Ret (tracker1, c') /\
    response c' = header_bytes 0 3 14 ++ zeros 6 /\ cstate c' = conn_write.
Proof.
  apply (unregistered_refused sum_hash 30 0 (demo_env 100) tracker1 (demo_conn 3 (name_fields (str "g1/v1") ip2)) (str "g1/v1") ip2 [] 3).
  - apply demo_named. by do 2 constructor.
  - rewrite app_nil_r. apply demo_at_rcurr.
  - apply demo_clean.
  - reflexivity.
  - refine (bool_decide_unpack _ _). by vm_compute.
  - by vm_compute.
Defined.

Lemma demo_addressed t b ip : ip ∈ [ip1; ip2] -> ip_addr <$> st_blocks (tk_store t) !! b = Some (pad 16 ip) -> addressed (tk_store t) b.
Proof.
  intros Hi Hd. destruct (demo_named ip Hi) as (_ & H1 & _ & H2). destruct (st_blocks (tk_store t) !! b) as [d|] eqn:E; [|done].
  exists d, ip. injection Hd as Hd. by split_and!.
Qed.

Lemma tracker2_addressed : Forall (addressed (tk_store tracker2)) [0; 2]%nat.
Proof.
  repeat constructor.
  - apply (demo_addressed _ _ ip1); [constructor|by vm_compute].
  - apply (demo_addressed _ _ ip2); [by do 2 constructor|by vm_compute].
Qed.

Lemma readtracker_served_witness :
  exists t' c' b d ip v vol,
    dispatch_cmd sum_hash 30 0 (demo_env 100) tracker2 (demo_conn 17 (pad 33 (str "g1/v1") ++ long2buff 9)) 17 = Ret (t', c') /\
    members (tk_store t') (tk_cluster t') (<[sum_hash (str "g1/v1") := [0; 2]%nat]> ∅) /\
    do_cluster_find (tk_store tracker2) (tk_cluster tracker2) (sum_hash (str "g1/v1")) = Ret (Some v) /\ st_volumes (tk_store tracker2) !! v = Some vol /\
    st_blocks (tk_store tracker2) !! b = Some d /\ ip_addr d = pad 16 ip /\ cstate c' = conn_write /\
    response c' = header_bytes 24 17 0 ++ zeros 6 ++ pad 16 ip ++ long2buff (port d) /\
    chosen (tk_store tracker2) (tk_store t') v vol (fun _ => 100) 30 (s64 9) 0%nat [2%nat] b.
Proof.
  apply (readtracker_served sum_hash 30 0 (demo_env 100) tracker2 _ (str "g1/v1") 9 [] _ 0%nat [2%nat] (proj1 tracker2_ok)).
  - apply lookup_insert_eq.
  - refine (bool_decide_unpack _ _). by vm_compute.
  - vm_compute. lia.
  - rewrite app_nil_r. apply demo_at_rcurr.
  - apply demo_clean.
  - exact tracker2_addressed.
Defined.

Definition demo_first : datasevr_block := default zero_block (st_blocks (tk_store tracker2) !! 0%nat).
Definition demo_beat : store := put_block (tk_store tracker2) 0 (set_state (set_heartbeat demo_first (now (demo_env 120) 0)) active).

Lemma heartbeat_served_witness :
  length (peers demo_beat (pad 16 ip1) [0; 2]%nat) = 1%nat /\
  exists c', dispatch_cmd sum_hash 30 0 (demo_env 120) tracker2 (demo_conn 3 (name_fields (str "g1/v1") ip1))
      PROTOCOL_CMD_DATASERVER_HEARTBEAT = Ret (with_store tracker2 demo_beat, c') /\
    response c' = header_bytes (40 * Z.of_nat (length (peers demo_beat (pad 16 ip1) [0; 2]%nat))) PROTOCOL_CMD_DATASERVER_HEARTBEAT 0 ++
      zeros 6 ++ concat (brief <$> peers demo_beat (pad 16 ip1) [0; 2]%nat) /\
    cstate c' = conn_write.
Proof.
  split; [by vm_compute|].
  refine (heartbeat_served sum_hash 30 0 (demo_env 120) tracker2 (demo_conn 3 (name_fields (str "g1/v1") ip1)) (str "g1/v1") ip1 []
    _ [0; 2]%nat 0%nat demo_first (proj1 tracker2_ok) _ _ _ _ _ _ _ _ _ _ _).
  - apply lookup_insert_eq.
  - by vm_compute.
  - by vm_compute.
  - by vm_compute.
  - exact tracker2_addressed.
  - apply demo_named. constructor.
  - rewrite app_nil_r. apply demo_at_rcurr.
  - reflexivity.
  - vm_compute. lia.
  - intros k. cbn. lia.
  - vm_compute. lia.
Defined.

Lemma created_inv blks : skip_inv blks (tk_wlc tracker2) [].
Proof.
  split.
  - apply NoDup_singleton.
  - intros i Hi. unfold WLC_SKIPLIST_MAX_LEVEL in Hi.
    do 16 (destruct i as [|i]; [vm_compute; repeat split; reflexivity|]). exfalso. lia.
  - reflexivity.
  - constructor.
  - vm_compute. lia.
  - constructor.
  - constructor.
  - done.
  - reflexivity.
  - reflexivity.
  - refine (bool_decide_unpack (_ =@{gset nloc} _) _). by vm_compute.
  - change (set_Forall (fun x => x < w_brk (tk_wlc tracker2))%nat (dom (w_nodes (tk_wlc tracker2)))).
    refine (bool_decide_unpack _ _). by vm_compute.
Qed.

Definition demo_stat : conn := demo_conn 5 (request (str "g1/v1") ip1 [7; 900; 400]).
Definition demo_reported : store :=
  put_block (tk_store tracker2) 0
    (set_state (set_heartbeat (set_stat demo_first (s32 (s64 7)) (s32 (s64 900)) (s32 (s64 400)) (now (demo_env 120) 0)) (now (demo_env 120) 0)) active).

Lemma statreport_served_witness :
  exists sl xs' c', dispatch_cmd sum_hash 30 0 (demo_env 120) tracker2 demo_stat PROTOCOL_CMD_DATASERVER_STATREPORT =
      Ret (mk_tracker demo_reported (tk_cluster tracker2) sl, c') /\
    skip_inv (st_blocks demo_reported) sl xs' /\
    (key_of (st_blocks demo_reported) (w_nodes sl) <$> xs') ≡ₚ
      Some (s32 (s32 (s64 7) * weight demo_first), block_id demo_first) :: (key_of (st_blocks (tk_store tracker2)) (w_nodes (tk_wlc tracker2)) <$> []) /\
    response c' = header_bytes 0 PROTOCOL_CMD_DATASERVER_STATREPORT 0 ++ zeros 6 /\ cstate c' = conn_write.
Proof.
  refine (statreport_served sum_hash 30 0 (demo_env 120) tracker2 demo_stat (str "g1/v1") ip1 7 900 400 0%nat demo_first 1 [] []
    _ _ _ _ _ _ _ _ _ _).
  - by vm_compute.
  - by vm_compute.
  - apply demo_named. constructor.
  - apply demo_at_rcurr.
  - apply demo_clean.
  - reflexivity.
  - reflexivity.
  - apply created_inv.
  - vm_compute. discriminate.
  - right. split; [reflexivity|]. by intros x ?%not_elem_of_nil.
Defined.

(** Both servers have reported, with loads 14 and 6. *)
Definition tracker3 : tracker :=
  run (run tracker2 120 demo_stat 5) 121 (demo_conn 5 (request (str "g1/v1") ip2 [3; 900; 400])) 5.

Lemma tracker3_inv : skip_inv (st_blocks (tk_store tracker3)) (tk_wlc tracker3) [2; 1]%nat.
Proof.
  split.
  - refine (bool_decide_unpack _ _). by vm_compute.
  - intros i Hi. unfold WLC_SKIPLIST_MAX_LEVEL in Hi.
    do 16 (destruct i as [|i]; [vm_compute; repeat split; reflexivity|]). exfalso. lia.
  - reflexivity.
  - refine (bool_decide_unpack _ _). by vm_compute.
  - vm_compute. lia.
  - repeat constructor; vm_compute; eauto.
  - constructor; [constructor; constructor|]. constructor; [|constructor]. vm_compute. left. reflexivity.
  - vm_compute. repeat split.
  - reflexivity.
  - reflexivity.
  - refine (bool_decide_unpack (_ =@{gset nloc} _) _). by vm_compute.
  - assert (w_brk (tk_wlc tracker3) = 3%nat) as -> by (by vm_compute).
    assert (dom (w_nodes (tk_wlc tracker3)) = ({[0; 1; 2]}%nat : gset nloc)) as ->
      by (refine (bool_decide_unpack (_ =@{gset nloc} _) _); by vm_compute).
    intros x. rewrite !elem_of_union, !elem_of_singleton. lia.
Qed.

Definition demo_node : wlc_skiplist_node := default (mk_wnode None 0 None []) (w_nodes (tk_wlc tracker3) !! 2%nat).
Definition demo_second : datasevr_block := default zero_block (st_blocks (tk_store tracker3) !! 2%nat).

Lemma writetracker_served_witness :
  exists c', dispatch_cmd sum_hash 30 0 (demo_env 130) tracker3 (demo_conn 16 []) PROTOCOL_CMD_WRITE_TRACKER_REQ = Ret (tracker3, c') /\
    response c' = header_bytes 24 PROTOCOL_CMD_WRITE_TRACKER_REQ 0 ++ zeros 6 ++ pad 16 ip2 ++ long2buff (port demo_second) /\
    cstate c' = conn_write /\
    forall y, y ∈ [2; 1]%nat -> key_le (key_of (st_blocks (tk_store tracker3)) (w_nodes (tk_wlc tracker3)) 2)
                                       (key_of (st_blocks (tk_store tracker3)) (w_nodes (tk_wlc tracker3)) y).
Proof.
  refine (writetracker_served sum_hash 30 0 (demo_env 130) tracker3 (demo_conn 16 []) 2 [1%nat] demo_node 2%nat demo_second ip2 tracker3_inv
    _ _ _ _ _ _ _ _).
  - by vm_compute.
  - by vm_compute.
  - by vm_compute.
  - vm_compute. discriminate.
  - by vm_compute.
  - refine (bool_decide_unpack _ _). by vm_compute.
  - vm_compute. lia.
  - apply demo_clean.
Defined.

(** With three peers the third record is written behind the bytes that are
    sent. *)
Definition ip3 : bytes := str "10.0.0.3".
Definition ip4 : bytes := str "10.0.0.4".
Definition tracker4 : tracker :=
  run (run tracker2 100 (demo_conn 1 (reg ip3 8003)) 1) 100 (demo_conn 1 (reg ip4 8004)) 1.

Lemma heartbeat_three_peers :
  match dispatch_cmd sum_hash 30 0 (demo_env 120) tracker4 (demo_conn 3 (name_fields (str "g1/v1") ip1)) 3 with
  | Ret (_, c') => drop 96 (response c') = zeros 40 /\ take 40 (drop 136 (wbuff c')) <> zeros 40
  | Crash _ => False
  end.
Proof. vm_compute. split; [reflexivity|discriminate]. Qed.
