(* ===== verification/TsThread.v ===== *)
(** * The connection state machine of the tracker

    src/src/trackerserver/ts_thread.c: reading a request from a socket that
    delivers it in pieces, dispatching it, and writing the response through a
    socket that takes it in pieces.  The socket and libevent are scripts: what
    the k-th call returns. *)
From S2P Require Import Prelude Codec Chains ListH TsQueue Datasevr Cluster Wlc ClusterDatasevr TsConn TsService Protocol.

(** ** The socket *)

Inductive rres := RData (d : bytes) | REof | RErr (errno : Z).
Inductive wres := WSent (n : nat) | WErr (errno : Z).

Definition EPIPE : Z := 32.

(** [read(fd, buf, avail)]: what is left of a piece stays; an empty script
    would block. *)
Definition sock_read (inp : list rres) (avail : nat) : list rres * rres :=
  match inp with
  | [] => ([], RErr EAGAIN)
  | RData d :: r => if (length d <=? avail)%nat then (r, RData d) else (RData (drop avail d) :: r, RData (take avail d))
  | x :: r => (r, x)
  end.

Definition sock_write (out : list wres) : list wres * wres :=
  match out with
  | [] => ([], WErr EAGAIN)
  | x :: r => (r, x)
  end.

(** The connection with its surroundings: the tracker, the two scripts, the
    bytes sent, the results of [realloc] and of the libevent calls (success
    when the list is at its end), the number of requests served, whether the
    fd is closed, and [ctxs.curr_conns]. *)
Record machine := mk_machine {
  m_tracker : tracker;
  m_conn : conn;
  m_in : list rres;
  m_out : list wres;
  m_sent : bytes;
  m_mem : list bool;
  m_ev : list bool;
  m_served : nat;
  m_fd_closed : bool;
  m_curr : Z
}.

Definition with_conn (w : machine) (c : conn) : machine :=
  mk_machine (m_tracker w) c (m_in w) (m_out w) (m_sent w) (m_mem w) (m_ev w) (m_served w) (m_fd_closed w) (m_curr w).
Definition with_in (w : machine) (inp : list rres) : machine :=
  mk_machine (m_tracker w) (m_conn w) inp (m_out w) (m_sent w) (m_mem w) (m_ev w) (m_served w) (m_fd_closed w) (m_curr w).
Definition with_out (w : machine) (out : list wres) (sent : bytes) : machine :=
  mk_machine (m_tracker w) (m_conn w) (m_in w) out sent (m_mem w) (m_ev w) (m_served w) (m_fd_closed w) (m_curr w).
Definition with_mem (w : machine) (mem : list bool) : machine :=
  mk_machine (m_tracker w) (m_conn w) (m_in w) (m_out w) (m_sent w) mem (m_ev w) (m_served w) (m_fd_closed w) (m_curr w).
Definition with_ev (w : machine) (ev : list bool) : machine :=
  mk_machine (m_tracker w) (m_conn w) (m_in w) (m_out w) (m_sent w) (m_mem w) ev (m_served w) (m_fd_closed w) (m_curr w).
Definition with_served (w : machine) (t : tracker) (c : conn) : machine :=
  mk_machine t c (m_in w) (m_out w) (m_sent w) (m_mem w) (m_ev w) (S (m_served w)) (m_fd_closed w) (m_curr w).
Definition with_closed (w : machine) (c : conn) : machine :=
  mk_machine (m_tracker w) c (m_in w) (m_out w) (m_sent w) (m_mem w) (m_ev w) (m_served w) true (u32 (m_curr w - 1)).

Definition pop_bool (l : list bool) : bool * list bool := match l with [] => (true, []) | b :: l' => (b, l') end.

(** [update_conn_event] with two libevent results from the script, which are
    only used when the flags change. *)
Definition update_conn_event (w : machine) (flags : Z) : machine * Z :=
  if event_flags (m_conn w) =? flags then (w, 0)
  else
    let '(ev_del, l) := pop_bool (m_ev w) in
    let '(ev_add, l) := if ev_del then pop_bool l else (true, l) in
    let '(c, r) := __update_conn_event ev_del ev_add (m_conn w) flags in
    (with_ev (with_conn w c) l, r).

(** ** Reading *)

Inductive network_read_result := READ_DATA_RECEIVED | READ_NO_DATA_RECEIVED | READ_HARD_ERROR | READ_SOFT_ERROR.

Inductive network_write_result := WRITE_COMPLETE | WRITE_INCOMPLETE | WRITE_SOFT_ERROR | WRITE_HARD_ERROR.

Section Machine.
Context (uninit : nat -> Z) (hash_func : bytes -> Z) (interval garbage : Z) (envs : nat -> env).

(** [realloc(c->rbuff, c->rsize * 2)]; the new half is not initialised. *)
Definition grow_rbuff (c : conn) : conn :=
  with_read c (rbuff c ++ (uninit <$> seq 0 (Z.to_nat (rsize c)))) 0 (rsize c * 2) (rbytes c).

(** The loop of [__network_read]. *)
Fixpoint network_read_loop (fuel : nat) (w : machine) (allocs_count : Z) (read_state : network_read_result) :
    outcome (machine * network_read_result) :=
  match fuel with
  | O => Crash Diverged
  | S fuel =>
      let c := m_conn w in
      let full := rsize c <=? rbytes c in
      if full && (1 <? allocs_count) then Ret (w, READ_SOFT_ERROR)
      else
        let '(ok, mem) := if full then pop_bool (m_mem w) else (true, m_mem w) in
        let w := with_mem w mem in
        if negb ok then Ret (with_conn w (with_writeto c conn_closed), READ_SOFT_ERROR)
        else
          let c := if full then grow_rbuff c else c in
          let allocs_count := if full then allocs_count + 1 else allocs_count in
          let avail := rsize c - rbytes c in
          let '(inp, res) := sock_read (m_in w) (Z.to_nat avail) in
          let w := with_in w inp in
          match res with
          | RData ((_ :: _) as d) =>
              b ← buf_write (rbuff c) (rcurr c + rbytes c) d;
              let w := with_conn w (with_read c b (rcurr c) (rsize c) (rbytes c + Z.of_nat (length d))) in
              if Z.of_nat (length d) =? avail then network_read_loop fuel w allocs_count READ_DATA_RECEIVED
              else Ret (w, READ_DATA_RECEIVED)
          | RData [] | REof => Ret (with_conn w c, READ_SOFT_ERROR)
          | RErr errno => Ret (with_conn w c, if errno =? EAGAIN then read_state else READ_HARD_ERROR)
          end
  end.

(** At most four rounds: each round but the first starts with a full buffer,
    and the third full buffer ends the loop. *)
Definition __network_read (w : machine) : outcome (machine * network_read_result) :=
  network_read_loop 4 w 0 READ_NO_DATA_RECEIVED.

(** ** Writing *)

Definition __network_write_noblock (w : machine) : outcome (machine * network_write_result) :=
  let c := m_conn w in
  let remain_bytes := wbytes c - wused c in
  let c := with_sent c (wused c) (wused c) in
  if 0 <? remain_bytes then
    let '(out, res) := sock_write (m_out w) in
    match res with
    | WSent n =>
        let n := Nat.min n (Z.to_nat remain_bytes) in
        if (n =? 0)%nat then Ret (with_conn (with_out w out (m_sent w)) c, WRITE_INCOMPLETE)
        else
          d ← buf_read (wbuff c) (wused c) n;
          Ret (with_conn (with_out w out (m_sent w ++ d)) (with_sent c (wused c) (wused c + Z.of_nat n)), WRITE_INCOMPLETE)
    | WErr errno =>
        let w := with_conn (with_out w out (m_sent w)) c in
        if (errno =? EINTR) || (errno =? EAGAIN) then
          let '(w, r) := update_conn_event w (Z.lor EV_WRITE EV_PERSIST) in
          Ret (w, if negb (r =? 0) then WRITE_HARD_ERROR else WRITE_SOFT_ERROR)
        else Ret (w, WRITE_INCOMPLETE)
    end
  else Ret (with_conn w (with_writeto c conn_waiting), WRITE_COMPLETE).

(** ** Parsing *)

Definition MAX_PACKAGE_DATA_SIZE : Z := 8192.

Definition __parse_protocol_cmd (w : machine) : outcome (machine * Z) :=
  let c := m_conn w in
  if rbytes c <=? 0 then Crash AssertFailed
  else if rbytes c <? sizeof_protocol_header then Ret (w, LFS_OK)
  else
    body_len ← header_body_len (rbuff c);
    if MAX_PACKAGE_DATA_SIZE <? body_len then
      c ← handle_protocol_error c PROTOCOL_RESP_STATUS_ERROR_PACKAGESIZE_OVERFLOW;
      Ret (with_conn w c, LFS_ERROR)
    else if body_len <=? rbytes c - sizeof_protocol_header then
      let c := with_read c (rbuff c) sizeof_protocol_header (rsize c) (rbytes c - sizeof_protocol_header) in
      cmd ← get_or OutOfBounds (zlookup (rbuff c) 8);
      '(t, c) ← dispatch_cmd hash_func interval garbage (envs (m_served w)) (m_tracker w) c cmd;
      Ret (with_served w t c, 1)
    else Ret (w, LFS_OK).

(** ** The machine *)

(** One round of the loop of [__state_machine]; the flag ends the loop. *)
Definition machine_round (w : machine) : outcome (machine * bool) :=
  let to w st := with_conn w (set_conn_state (m_conn w) st) in
  match cstate (m_conn w) with
  | conn_waiting =>
      let '(w, r) := update_conn_event w (Z.lor EV_READ EV_PERSIST) in
      if negb (r =? 0) then Ret (to w conn_closed, false) else Ret (to w conn_read, true)
  | conn_read =>
      '(w, ret) ← __network_read w;
      Ret (to w (match ret with
                 | READ_NO_DATA_RECEIVED => conn_waiting
                 | READ_DATA_RECEIVED => conn_parse_cmd
                 | READ_HARD_ERROR | READ_SOFT_ERROR => conn_closed
                 end), false)
  | conn_nread => Ret (w, false)
  | conn_parse_cmd =>
      '(w, r) ← __parse_protocol_cmd w;
      Ret (if r =? 0 then to w conn_waiting else w, false)
  | conn_write =>
      '(w, ret) ← __network_write_noblock w;
      match ret with
      | WRITE_COMPLETE =>
          let w := with_conn w (__conn_reset (m_conn w)) in
          Ret (to w (writeto (m_conn w)), false)
      | WRITE_INCOMPLETE => Ret (w, false)
      | WRITE_HARD_ERROR => Ret (to w conn_closed, false)
      | WRITE_SOFT_ERROR => Ret (w, true)
      end
  | conn_closed => Ret (with_closed w (conn_shut (m_conn w)), true)
  end.

Fixpoint __state_machine (fuel : nat) (w : machine) : outcome machine :=
  match fuel with
  | O => Crash Diverged
  | S fuel =>
      '(w, flag) ← machine_round w;
      if flag : bool then Ret w else __state_machine fuel w
  end.

Definition __event_handler_callback (fuel : nat) (w : machine) (fd : Z) : outcome machine :=
  if negb (fd =? sfd (m_conn w)) then Ret (with_closed w (conn_shut (m_conn w)))
  else __state_machine fuel w.
End Machine.

(** ** Reading loses nothing *)

(** The read side of a connection between requests. *)
Definition reading (c : conn) : Prop :=
  Z.of_nat (length (rbuff c)) = rsize c /\ 0 < rsize c /\ 0 <= rbytes c <= rsize c /\ rcurr c = 0.

Definition received (c : conn) : bytes := take (Z.to_nat (rbytes c)) (rbuff c).

(** The bytes the peer has sent. *)
Fixpoint stream (inp : list rres) : bytes :=
  match inp with
  | [] => []
  | RData d :: r => d ++ stream r
  | _ :: r => stream r
  end.

Lemma sock_read_stream inp n inp' res : sock_read inp n = (inp', res) ->
  match res with
  | RData d => stream inp = d ++ stream inp' /\ (length d <= n)%nat
  | _ => stream inp = stream inp'
  end.
Proof.
  unfold sock_read. destruct inp as [|[d| |e] r]; intros H; try (simplify_eq; done).
  destruct (length d <=? n)%nat eqn:E; simplify_eq; cbn [stream].
  - apply Nat.leb_le in E. done.
  - split; [|rewrite length_take; lia]. by rewrite app_assoc, take_drop.
Qed.

Lemma buf_write_app_end b k d : (k + length d <= length b)%nat ->
  exists b', buf_write b (Z.of_nat k) d = Ret b' /\ length b' = length b /\ take (k + length d) b' = take k b ++ d /\
    drop (k + length d) b' = drop (k + length d) b.
Proof.
  intros Hl. unfold buf_write. rewrite (proj2 (Z.leb_le _ _)), (proj2 (Z.leb_le _ _)) by lia. cbn [andb]. rewrite Nat2Z.id.
  assert (length (take k b ++ d) = k + length d)%nat as Hlen by (rewrite length_app, length_take; lia).
  eexists. split; [done|]. rewrite app_assoc. split_and!.
  - rewrite length_app, Hlen, length_drop. lia.
  - by rewrite take_app_length'.
  - by rewrite drop_app_length'.
Qed.

Lemma grow_reading uninit c : reading c -> reading (grow_rbuff uninit c) /\ received (grow_rbuff uninit c) = received c.
Proof.
  intros (Hl & Hp & Hb & Hc). split.
  - unfold reading. cbn. rewrite length_app, length_fmap, length_seq. lia.
  - unfold received. cbn. rewrite take_app_le; [done|lia].
Qed.

Definition same_write (c c' : conn) : Prop := wbuff c' = wbuff c /\ wbytes c' = wbytes c /\ wused c' = wused c /\
  wsize c' = wsize c /\ cstate c' = cstate c /\ sfd c' = sfd c /\ event_flags c' = event_flags c.

Lemma same_write_trans c1 c2 c3 : same_write c1 c2 -> same_write c2 c3 -> same_write c1 c3.
Proof. unfold same_write. intuition congruence. Qed.

(** What a call of [__network_read] from [w] to [w'] does. *)
Definition reads (w w' : machine) (d : bytes) (factor : Z) : Prop :=
  reading (m_conn w') /\ received (m_conn w') = received (m_conn w) ++ d /\ stream (m_in w) = d ++ stream (m_in w') /\
  same_write (m_conn w) (m_conn w') /\ m_tracker w' = m_tracker w /\ m_sent w' = m_sent w /\
  rsize (m_conn w') <= factor * rsize (m_conn w).

(** Storing the bytes of one [read]. *)
Lemma store_read c d : reading c -> rbytes c + Z.of_nat (length d) <= rsize c ->
  exists b, buf_write (rbuff c) (rcurr c + rbytes c) d = Ret b /\
    let c' := with_read c b (rcurr c) (rsize c) (rbytes c + Z.of_nat (length d)) in
    reading c' /\ received c' = received c ++ d /\ same_write c c'.
Proof.
  intros (Hl & Hp & Hb & Hc) Hd. rewrite Hc. destruct (buf_write_app_end (rbuff c) (Z.to_nat (rbytes c)) d) as (b & Hw & Hlb & Ht & _); [lia|].
  exists b. split; [by rewrite Z2Nat.id in Hw by lia|]. cbn zeta. split_and!.
  - unfold reading. cbn. lia.
  - unfold received. cbn. rewrite Z2Nat.inj_add, Nat2Z.id by lia. done.
  - done.
Qed.

Lemma reads_trans w1 w2 w3 d1 d2 f1 f2 : reads w1 w2 d1 f1 -> reads w2 w3 d2 f2 -> 0 <= f2 -> reads w1 w3 (d1 ++ d2) (f1 * f2).
Proof.
  intros (A1 & A2 & A3 & A4 & A5 & A6 & A7) (B1 & B2 & B3 & B4 & B5 & B6 & B7) Hf. unfold reads. split_and!; try congruence.
  - by rewrite B2, A2, app_assoc.
  - by rewrite A3, B3, app_assoc.
  - by eapply same_write_trans.
  - nia.
Qed.

Lemma network_read_loop_spec uninit fuel w a rs : reading (m_conn w) -> 0 <= a <= 2 ->
  (if rsize (m_conn w) <=? rbytes (m_conn w) then 3 - a <= Z.of_nat fuel else a = 0 /\ 4 <= Z.of_nat fuel) ->
  exists w' r d, network_read_loop uninit fuel w a rs = Ret (w', r) /\ reads w w' d (2 ^ (2 - a)) /\
    (r = READ_NO_DATA_RECEIVED -> rs = READ_NO_DATA_RECEIVED /\ d = []).
Proof.
  revert w a rs. induction fuel as [|fuel IH]; intros w a rs Hr Ha Hf; [case_match; lia|].
  pose proof Hr as (Hl & Hp & Hb & Hc). cbn [network_read_loop].
  set (full := rsize (m_conn w) <=? rbytes (m_conn w)) in *.
  assert (1 <= 2 ^ (2 - a)) as Hpow by (pose proof (Z.pow_pos_nonneg 2 (2 - a)); lia).
  assert (reads w w [] (2 ^ (2 - a))) as Hself.
  { unfold reads, same_write. rewrite app_nil_r. split_and!; try done. nia. }
  destruct (full && (1 <? a)) eqn:E1; [by exists w, READ_SOFT_ERROR, []|].
  destruct (if full then pop_bool (m_mem w) else (true, m_mem w)) as [ok mem]. destruct ok; cbn [negb]; cycle 1.
  { eexists _, READ_SOFT_ERROR, []. split; [done|]. split; [exact Hself|done]. }
  set (c := if full then grow_rbuff uninit (m_conn w) else m_conn w). set (a' := if full then a + 1 else a).
  assert (reading c /\ received c = received (m_conn w) /\ rbytes c < rsize c /\ same_write (m_conn w) c /\
          rsize c = (if full then 2 else 1) * rsize (m_conn w)) as (Hrc & Hrec & Hav & Hsw & Hsz).
  { unfold c. destruct full eqn:Ef; unfold full in Ef; zbool.
    - destruct (grow_reading uninit _ Hr). split_and!; try done; cbn; lia.
    - split_and!; try done; lia. }
  destruct (sock_read (m_in (with_mem w mem)) (Z.to_nat (rsize c - rbytes c))) as [inp res] eqn:Es.
  pose proof (sock_read_stream _ _ _ _ Es) as Hst. cbn [m_in with_mem] in Hst.
  assert ((if full then 2 else 1) * 2 ^ (2 - a') = 2 ^ (2 - a) /\ 0 <= 2 ^ (2 - a') /\ a' <= 2) as (Hfac & Hfac' & Ha').
  { unfold a'. destruct full; [|split_and!; lia]. assert (a <= 1) by (cbn in E1; zbool; lia).
    replace (2 - a) with (2 - (a + 1) + 1) by lia. rewrite (Z.pow_add_r 2 _ 1) by lia.
    pose proof (Z.pow_pos_nonneg 2 (2 - (a + 1))). lia. }
  set (w0 := with_conn (with_in (with_mem w mem) inp) c).
  assert (stream (m_in w) = stream inp -> reads w w0 [] (2 ^ (2 - a))) as Hstop.
  { intros Hs. unfold reads. cbn [m_conn m_in with_conn with_in with_mem m_tracker m_sent w0]. rewrite app_nil_r.
    split_and!; try done. rewrite Hsz, <- Hfac. assert (1 <= 2 ^ (2 - a')) by (pose proof (Z.pow_pos_nonneg 2 (2 - a')); lia).
    destruct full; nia. }
  destruct res as [ [|x d]| |errno].
  - exists w0, READ_SOFT_ERROR, []. split; [done|]. split; [apply Hstop; tauto|done].
  - destruct Hst as [Hst Hld]. destruct (store_read c (x :: d) Hrc ltac:(lia)) as (b & -> & Hrc' & Hrec' & Hsw'). cbn [mbind outcome_bind].
    set (c' := with_read c b _ _ _) in *. set (w1 := with_conn _ c').
    assert (reads w w1 (x :: d) (if full then 2 else 1)) as Hw1.
    { unfold reads. cbn [m_conn m_in with_conn with_in with_mem m_tracker m_sent w1]. change (rsize c') with (rsize c).
      split_and!; first [done|by rewrite Hrec', Hrec|by apply (same_write_trans _ c)|lia]. }
    destruct (Z.of_nat (length (x :: d)) =? rsize c - rbytes c) eqn:Efull; zbool.
    + destruct (IH w1 a' READ_DATA_RECEIVED) as (w2 & r & d2 & -> & Hw2 & Hno).
      { done. }
      { unfold a' in *. destruct full; lia. }
      { change (m_conn w1) with c'. change (rsize c') with (rsize c). change (rbytes c') with (rbytes c + Z.of_nat (length (x :: d))).
        rewrite (proj2 (Z.leb_le _ _)) by lia. unfold a'. destruct full; lia. }
      exists w2, r, ((x :: d) ++ d2). split; [done|]. split; [rewrite <- Hfac; by eapply reads_trans|].
      intros [? _]%Hno. done.
    + exists w1, READ_DATA_RECEIVED, (x :: d). split; [done|]. split; [|done].
      destruct Hw1 as (? & ? & ? & ? & ? & ? & ?). unfold reads. split_and!; try done. rewrite <- Hfac.
      assert (1 <= 2 ^ (2 - a')) by (pose proof (Z.pow_pos_nonneg 2 (2 - a')); lia). destruct full; nia.
  - exists w0, READ_SOFT_ERROR, []. split; [done|]. split; [by apply Hstop|done].
  - eexists w0, _, []. split; [done|]. split; [by apply Hstop|]. destruct (errno =? EAGAIN); [done|discriminate].
Qed.

(** ** A request in pieces *)

(** The connection [c] after the bytes [d] have arrived. *)
Definition more (c : conn) (d : bytes) : conn :=
  let k := Z.to_nat (rbytes c) in
  with_read c (take k (rbuff c) ++ d ++ drop (k + length d) (rbuff c)) 0 (rsize c) (rbytes c + Z.of_nat (length d)).

(** Each piece is one event: the machine runs on it. *)
Fixpoint feed uninit hash_func interval garbage envs (fuel : nat) (w : machine) (pieces : list bytes) : outcome machine :=
  match pieces with
  | [] => Ret w
  | d :: ds =>
      w ← __state_machine uninit hash_func interval garbage envs fuel (with_in w [RData d]);
      feed uninit hash_func interval garbage envs fuel w ds
  end.

(** A connection that waits for the rest of a request. *)
Definition waiting (c : conn) : Prop :=
  reading c /\ cstate c = conn_read /\ event_flags c = Z.lor EV_READ EV_PERSIST.

Lemma more_reading c d : reading c -> rbytes c + Z.of_nat (length d) <= rsize c -> reading (more c d) /\ received (more c d) = received c ++ d.
Proof.
  intros (Hl & Hp & Hb & Hc) Hd. unfold reading, received, more. cbn.
  assert (length (take (Z.to_nat (rbytes c)) (rbuff c) ++ d) = Z.to_nat (rbytes c) + length d)%nat as Hlen
    by (rewrite length_app, length_take; lia).
  rewrite app_assoc. split.
  - rewrite length_app, Hlen, length_drop. lia.
  - apply take_app_length'. lia.
Qed.

Lemma more_more c d1 d2 : reading c -> rbytes c + Z.of_nat (length d1) + Z.of_nat (length d2) <= rsize c ->
  more (more c d1) d2 = more c (d1 ++ d2).
Proof.
  intros Hr Hd. destruct (more_reading c d1 Hr ltac:(lia)) as [_ Hrec]. destruct Hr as (Hl & Hp & Hb & Hc). unfold more at 1 3.
  unfold received in Hrec. rewrite Hrec. cbn [rbytes rsize more with_read rbuff]. unfold received.
  rewrite length_app, Nat2Z.inj_add, Z.add_assoc, <- !app_assoc.
  assert (drop (Z.to_nat (rbytes c + Z.of_nat (length d1)) + length d2)
            (take (Z.to_nat (rbytes c)) (rbuff c) ++ d1 ++ drop (Z.to_nat (rbytes c) + length d1) (rbuff c))
          = drop (Z.to_nat (rbytes c) + (length d1 + length d2)) (rbuff c)) as Hdrop.
  { rewrite app_assoc. rewrite drop_app_ge by (rewrite length_app, length_take; lia).
    rewrite drop_drop, length_app, length_take. f_equal. lia. }
  unfold with_read. cbn. f_equal. by rewrite Hdrop.
Qed.

(** A buffer that grows while it is full: how often it is doubled for [total]
    bytes, at most twice, and the connection after the bytes [d] have arrived. *)
Definition doublings (c : conn) (total : Z) : nat := if total <? rsize c then 0 else if total <? 2 * rsize c then 1 else 2.

Definition grown (uninit : nat -> Z) (n : nat) (c : conn) : conn := Nat.iter n (grow_rbuff uninit) c.

Definition absorb (uninit : nat -> Z) (c : conn) (d : bytes) : conn :=
  more (grown uninit (doublings c (rbytes c + Z.of_nat (length d))) c) d.

Lemma absorb_fits uninit c d : rbytes c + Z.of_nat (length d) < rsize c -> absorb uninit c d = more c d.
Proof. intros H. unfold absorb, doublings. by rewrite (proj2 (Z.ltb_lt _ _) H). Qed.

Lemma grow_more uninit c d : reading c -> rbytes c + Z.of_nat (length d) <= rsize c -> grow_rbuff uninit (more c d) = more (grow_rbuff uninit c) d.
Proof.
  intros (Hl & Hp & Hb & Hc) Hd. unfold grow_rbuff, more, with_read. cbn. f_equal. rewrite take_app_le by lia. rewrite <- !app_assoc. do 2 f_equal.
  by rewrite drop_app_le by lia.
Qed.

Lemma grown_spec uninit n c : reading c -> reading (grown uninit n c) /\ received (grown uninit n c) = received c /\ rsize (grown uninit n c) = 2 ^ Z.of_nat n * rsize c /\
  rbytes (grown uninit n c) = rbytes c /\ cstate (grown uninit n c) = cstate c /\ event_flags (grown uninit n c) = event_flags c.
Proof.
  intros Hr. induction n as [|n (I1 & I2 & I3 & I4 & I5 & I6)]; [split_and!; try done; cbn; lia|]. destruct (grow_reading uninit _ I1) as [G1 G2]. change (grown uninit (S n) c) with (grow_rbuff uninit (grown uninit n c)).
  split_and!; [exact G1|etrans; [exact G2|exact I2]| |exact I4|exact I5|exact I6]. change (rsize (grow_rbuff uninit (grown uninit n c))) with (rsize (grown uninit n c) * 2). rewrite I3, Nat2Z.inj_succ, Z.pow_succ_r by lia. lia.
Qed.

Lemma grown_more uninit n c d : reading c -> rbytes c + Z.of_nat (length d) <= rsize c -> grown uninit n (more c d) = more (grown uninit n c) d.
Proof.
  intros Hr Hd. induction n as [|n IH]; [done|]. change (grow_rbuff uninit (grown uninit n (more c d)) = more (grow_rbuff uninit (grown uninit n c)) d). rewrite IH.
  destruct (grown_spec uninit n c Hr) as (I1 & _ & I3 & I4 & _). apply grow_more; [done|]. rewrite I3, I4. pose proof (Z.pow_pos_nonneg 2 (Z.of_nat n)). destruct Hr as (_ & ? & _). nia.
Qed.

Lemma absorb_spec uninit c d : reading c -> rbytes c + Z.of_nat (length d) < 4 * rsize c ->
  reading (absorb uninit c d) /\ received (absorb uninit c d) = received c ++ d /\ rbytes (absorb uninit c d) = rbytes c + Z.of_nat (length d) /\
  rbytes (absorb uninit c d) < rsize (absorb uninit c d) /\ rsize (absorb uninit c d) = 2 ^ Z.of_nat (doublings c (rbytes c + Z.of_nat (length d))) * rsize c /\
  cstate (absorb uninit c d) = cstate c /\ event_flags (absorb uninit c d) = event_flags c.
Proof.
  intros Hr Hd. unfold absorb. set (n := doublings c _). destruct (grown_spec uninit n c Hr) as (I1 & I2 & I3 & I4 & I5 & I6).
  assert (rbytes c + Z.of_nat (length d) < rsize (grown uninit n c)) as Hfit.
  { rewrite I3. unfold n, doublings. zcase (rbytes c + Z.of_nat (length d) <? rsize c); [cbn; lia|]. zcase (rbytes c + Z.of_nat (length d) <? 2 * rsize c); cbn; lia. }
  destruct (more_reading (grown uninit n c) d I1 ltac:(lia)) as [M1 M2]. split_and!; [done|congruence| | |done|done|done].
  - change (rbytes (more (grown uninit n c) d)) with (rbytes (grown uninit n c) + Z.of_nat (length d)). lia.
  - change (rbytes (more (grown uninit n c) d)) with (rbytes (grown uninit n c) + Z.of_nat (length d)). change (rsize (more (grown uninit n c) d)) with (rsize (grown uninit n c)). lia.
Qed.

Lemma grown_add uninit m n c : grown uninit m (grown uninit n c) = grown uninit (m + n) c.
Proof. unfold grown. by rewrite Nat.iter_add. Qed.

Lemma absorb_absorb uninit c d1 d2 : reading c -> rbytes c + Z.of_nat (length d1) + Z.of_nat (length d2) < 4 * rsize c ->
  absorb uninit (absorb uninit c d1) d2 = absorb uninit c (d1 ++ d2).
Proof.
  intros Hr Hd. destruct (absorb_spec uninit c d1 Hr ltac:(lia)) as (A1 & A2 & A3 & A4 & A5 & _). unfold absorb at 1. set (n2 := doublings (absorb uninit c d1) _).
  unfold absorb at 1. unfold absorb in A3, A4, A5. set (n1 := doublings c (rbytes c + Z.of_nat (length d1))) in *. destruct (grown_spec uninit n1 c Hr) as (I1 & _ & I3 & I4 & _).
  rewrite grown_more; [|done|rewrite I4; change (rsize (more (grown uninit n1 c) d1)) with (rsize (grown uninit n1 c)) in A4; lia].
  rewrite grown_add. assert (n2 + n1 = doublings c (rbytes c + Z.of_nat (length (d1 ++ d2))))%nat as Hn.
  { unfold n2. unfold absorb. fold n1. unfold doublings at 1. rewrite A3, A5. rewrite length_app, Nat2Z.inj_add, Z.add_assoc. unfold n1, doublings. pose proof Hr as (_ & ? & _).
    zcase (rbytes c + Z.of_nat (length d1) <? rsize c); [|zcase (rbytes c + Z.of_nat (length d1) <? 2 * rsize c)];
      change (2 ^ Z.of_nat 0) with 1; change (2 ^ Z.of_nat 1) with 2; change (2 ^ Z.of_nat 2) with 4;
      repeat match goal with |- context [?a <? ?b] => zcase (a <? b) end; lia. }
  rewrite Hn. set (n := doublings c _). destruct (grown_spec uninit n c Hr) as (G1 & _ & G3 & G4 & _). unfold absorb. fold n. apply more_more; [done|]. rewrite G3, G4.
  unfold n, doublings. rewrite length_app, Nat2Z.inj_add. zcase (rbytes c + (Z.of_nat (length d1) + Z.of_nat (length d2)) <? rsize c); [cbn; lia|].
  zcase (rbytes c + (Z.of_nat (length d1) + Z.of_nat (length d2)) <? 2 * rsize c); cbn; lia.
Qed.

Section Rounds.
Context (uninit : nat -> Z) (hash_func : bytes -> Z) (interval garbage : Z) (envs : nat -> env).
Abbreviation round := (machine_round uninit hash_func interval garbage envs).
Abbreviation run_machine := (__state_machine uninit hash_func interval garbage envs).

(** *** The rounds of the read loop *)

Abbreviation at_in w c inp := (with_in (with_conn w c) inp).

(** A read that does not fill the buffer ends the loop. *)
Lemma loop_fit f w c d a rs : reading c -> d <> [] -> rbytes c + Z.of_nat (length d) < rsize c ->
  network_read_loop uninit (S f) (at_in w c [RData d]) a rs = Ret (at_in w (more c d) [], READ_DATA_RECEIVED).
Proof.
  intros (Hl & Hp & Hb & Hc) Hd Hfit. cbn [network_read_loop m_conn with_in with_conn m_in with_mem m_mem].
  rewrite (proj2 (Z.leb_gt _ _)) by lia. cbn [andb negb]. unfold sock_read. cbn [m_in with_in with_mem].
  rewrite (proj2 (Nat.leb_le _ _)) by lia. destruct d as [|x d]; [done|].
  unfold buf_write. rewrite Hc, Z.add_0_l, (proj2 (Z.leb_le _ _)), (proj2 (Z.leb_le _ _)) by lia. cbn [andb mbind outcome_bind].
  rewrite (proj2 (Z.eqb_neq _ _)) by lia. done.
Qed.

(** A read that fills the buffer goes on with the rest of the piece. *)
Lemma loop_fill f w c d1 d2 a rs : reading c -> d1 <> [] -> rbytes c + Z.of_nat (length d1) = rsize c ->
  network_read_loop uninit (S f) (at_in w c [RData (d1 ++ d2)]) a rs =
  network_read_loop uninit f (at_in w (more c d1) (if decide (d2 = []) then [] else [RData d2])) a READ_DATA_RECEIVED.
Proof.
  intros (Hl & Hp & Hb & Hc) Hd Hfit. assert (0 < Z.of_nat (length d1)) by (destruct d1; [done|cbn; lia]).
  cbn [network_read_loop m_conn with_in with_conn m_in with_mem m_mem]. rewrite (proj2 (Z.leb_gt _ _)) by lia. cbn [andb negb]. unfold sock_read. cbn [m_in with_in with_mem].
  assert ((if (length (d1 ++ d2) <=? Z.to_nat (rsize c - rbytes c))%nat then ([], RData (d1 ++ d2)) else ([RData (drop (Z.to_nat (rsize c - rbytes c)) (d1 ++ d2))], RData (take (Z.to_nat (rsize c - rbytes c)) (d1 ++ d2)))) =
    (if decide (d2 = []) then [] else [RData d2], RData d1)) as ->.
  { replace (Z.to_nat (rsize c - rbytes c)) with (length d1) by lia. rewrite length_app. destruct (decide (d2 = [])) as [->|Hd2].
    - rewrite (proj2 (Nat.leb_le _ _)) by (cbn; lia). by rewrite app_nil_r.
    - rewrite (proj2 (Nat.leb_gt _ _)) by (destruct d2; [done|cbn; lia]). by rewrite drop_app_length, take_app_length. }
  destruct d1 as [|x d]; [done|].
  unfold buf_write. rewrite Hc, Z.add_0_l, (proj2 (Z.leb_le _ _)), (proj2 (Z.leb_le _ _)) by lia. cbn [andb mbind outcome_bind].
  rewrite (proj2 (Z.eqb_eq _ _)) by lia. done.
Qed.

Lemma loop_empty f w c a rs : rbytes c < rsize c -> network_read_loop uninit (S f) (at_in w c []) a rs = Ret (at_in w c [], rs).
Proof.
  intros Hb. cbn [network_read_loop m_conn with_in with_conn m_in with_mem m_mem]. rewrite (proj2 (Z.leb_gt _ _)) by lia. done.
Qed.

(** A full buffer is doubled. *)
Lemma loop_grow f w c inp a rs : reading c -> rbytes c = rsize c -> a <= 1 -> m_mem w = [] ->
  network_read_loop uninit (S f) (at_in w c inp) a rs = network_read_loop uninit (S f) (at_in w (grow_rbuff uninit c) inp) (a + 1) rs.
Proof.
  intros (Hl & Hp & Hb & Hc) Hfull Ha Hmem. cbn [network_read_loop m_conn with_in with_conn m_in with_mem m_mem]. rewrite (proj2 (Z.leb_le _ _)) by lia.
  change (rsize (grow_rbuff uninit c)) with (rsize c * 2). change (rbytes (grow_rbuff uninit c)) with (rbytes c). rewrite (proj2 (Z.leb_gt (rsize c * 2) (rbytes c))) by lia.
  rewrite (proj2 (Z.ltb_ge 1 a)) by lia. cbn [andb]. rewrite Hmem. done.
Qed.

Lemma loop_absorb n f w c d a rs : reading c -> rbytes c < rsize c -> d <> [] -> (n = 0%nat \/ m_mem w = []) -> (n < f)%nat -> a + Z.of_nat n <= 2 ->
  rbytes c + Z.of_nat (length d) < 2 ^ Z.of_nat n * rsize c -> (n = 0%nat \/ 2 ^ (Z.of_nat n - 1) * rsize c <= rbytes c + Z.of_nat (length d)) ->
  network_read_loop uninit f (at_in w c [RData d]) a rs = Ret (at_in w (more (grown uninit n c) d) [], READ_DATA_RECEIVED).
Proof.
  revert f c d a rs. induction n as [|n IH]; intros f c d a rs Hr Hlt Hd Hmem Hf Ha Hhi Hlo; destruct f as [|f]; try lia.
  { apply (loop_fit f w c d a rs); [done|done|]. change (2 ^ Z.of_nat 0) with 1 in Hhi. lia. }
  destruct Hlo as [|Hlo]; [lia|]. destruct Hmem as [|Hmem]; [lia|]. replace (Z.of_nat (S n) - 1) with (Z.of_nat n) in Hlo by lia. rewrite Nat2Z.inj_succ, Z.pow_succ_r in Hhi by lia.
  pose proof (Z.pow_pos_nonneg 2 (Z.of_nat n) ltac:(lia) ltac:(lia)) as Hpow. pose proof Hr as (_ & Hp & Hb & _).
  set (k := Z.to_nat (rsize c - rbytes c)). rewrite <- (take_drop k d). set (d1 := take k d). set (d2 := drop k d).
  assert (length d1 = k) as Hk1 by (unfold d1; rewrite length_take; unfold k; nia). assert (Z.of_nat (length d) = Z.of_nat k + Z.of_nat (length d2)) as Hk2 by (unfold d2; rewrite length_drop; unfold k in *; nia).
  assert (reading (more c d1) /\ received (more c d1) = received c ++ d1) as [M1 _] by (apply more_reading; [done|lia]).
  assert (d1 <> []) by (intros E; rewrite E in Hk1; cbn in Hk1; lia).
  rewrite loop_fill by (done || lia). destruct f as [|f]; [lia|].
  assert (rbytes (more c d1) = rsize (more c d1)) as Hfull by (cbn; lia).
  rewrite loop_grow by (done || lia). rewrite grow_more by (done || lia). destruct (grow_reading uninit c Hr) as [G1 G2].
  assert (reading (more (grow_rbuff uninit c) d1)) as M2 by (rewrite <- grow_more by (done || lia); by apply grow_reading).
  assert (rbytes (more (grow_rbuff uninit c) d1) = rsize c /\ rsize (more (grow_rbuff uninit c) d1) = 2 * rsize c) as [E1 E2] by (cbn; lia).
  destruct (decide (d2 = [])) as [Hd2|Hd2].
  - rewrite loop_empty by lia. rewrite Hd2, app_nil_r. assert (n = 0%nat) as ->; [|done]. destruct n as [|n]; [done|]. rewrite Hd2 in Hk2. cbn [length] in Hk2.
    rewrite Nat2Z.inj_succ, Z.pow_succ_r in Hlo by lia. pose proof (Z.pow_pos_nonneg 2 (Z.of_nat n)). unfold k in *. nia.
  - rewrite (IH (S f) (more (grow_rbuff uninit c) d1) d2); try done; try lia.
    + do 2 f_equal. rewrite grown_more by (done || (cbn; lia)). rewrite more_more.
      * f_equal. f_equal. f_equal. unfold grown. by rewrite <- Nat.iter_succ_r.
      * by apply grown_spec.
      * destruct (grown_spec uninit n _ G1) as (_ & _ & -> & -> & _). cbn [rbytes rsize grow_rbuff with_read]. lia.
    + by right.
    + destruct n as [|n]; [by left|right]. rewrite E1, E2. replace (Z.of_nat (S n) - 1) with (Z.of_nat n) by lia. rewrite Nat2Z.inj_succ, Z.pow_succ_r in Hlo by lia. lia.
Qed.

(** A piece is read in one round, the buffer growing as it has to. *)
Lemma round_read w d : reading (m_conn w) -> cstate (m_conn w) = conn_read -> d <> [] ->
  (rbytes (m_conn w) + Z.of_nat (length d) < rsize (m_conn w) \/ m_mem w = []) -> rbytes (m_conn w) < rsize (m_conn w) ->
  rbytes (m_conn w) + Z.of_nat (length d) < 4 * rsize (m_conn w) ->
  round (with_in w [RData d]) = Ret (with_in (with_conn w (with_state (absorb uninit (m_conn w) d) conn_parse_cmd)) [], false).
Proof.
  intros Hr Hst Hd Hmem Hlt Hfit. unfold machine_round. cbn [m_conn with_in]. rewrite Hst. unfold __network_read.
  assert (with_in w [RData d] = at_in w (m_conn w) [RData d]) as -> by (by destruct w). pose proof Hr as (_ & Hp & Hb & _).
  rewrite (loop_absorb (doublings (m_conn w) (rbytes (m_conn w) + Z.of_nat (length d)))); try done.
  - cbn [mbind outcome_bind]. fold (absorb uninit (m_conn w) d). do 2 f_equal. unfold with_in, with_conn. cbn [m_conn m_tracker m_in m_out m_sent m_mem m_ev m_served m_fd_closed m_curr]. f_equal.
    unfold set_conn_state, __set_conn_state. destruct (absorb_spec uninit (m_conn w) d Hr Hfit) as (_ & _ & _ & _ & _ & -> & _). by rewrite Hst.
  - destruct Hmem as [Hm|Hm]; [left|by right]. unfold doublings. by rewrite (proj2 (Z.ltb_lt _ _) Hm).
  - unfold doublings. repeat case_match; lia.
  - unfold doublings. repeat case_match; lia.
  - unfold doublings. zcase (rbytes (m_conn w) + Z.of_nat (length d) <? rsize (m_conn w)); [cbn; lia|]. zcase (rbytes (m_conn w) + Z.of_nat (length d) <? 2 * rsize (m_conn w)); cbn; lia.
  - unfold doublings. zcase (rbytes (m_conn w) + Z.of_nat (length d) <? rsize (m_conn w)); [by left|right]. zcase (rbytes (m_conn w) + Z.of_nat (length d) <? 2 * rsize (m_conn w)); cbn; lia.
Qed.

(** The bytes of a request on the wire. *)
Definition message (cmd st : Z) (padding body : bytes) : bytes := header_bytes (Z.of_nat (length body)) cmd st ++ padding ++ body.

Lemma message_prefix cmd st padding body k : let msg := message cmd st padding body in
  (8 <= k)%nat -> Z.of_nat (length body) <= MAX_PACKAGE_DATA_SIZE ->
  forall r, header_body_len (take k msg ++ r) = Ret (Z.of_nat (length body)).
Proof.
  intros msg Hk Hl r. unfold msg, message, header_bytes. rewrite <- !app_assoc.
  rewrite take_app_ge by done. rewrite <- app_assoc. apply le64_decode. unfold MAX_PACKAGE_DATA_SIZE in Hl. lia.
Qed.

Lemma length_message cmd st padding body : length padding = 6%nat -> length (message cmd st padding body) = (16 + length body)%nat.
Proof. intros Hp. unfold message. rewrite !length_app, length_header, Hp. lia. Qed.

(** A connection that has received the first bytes of a message. *)
Definition partial (c : conn) (msg : bytes) : Prop := received c = take (Z.to_nat (rbytes c)) msg.

(** With an incomplete message the machine goes back to wait. *)
Lemma round_incomplete w cmd st padding body : let msg := message cmd st padding body in
  reading (m_conn w) -> cstate (m_conn w) = conn_parse_cmd -> 0 < rbytes (m_conn w) < Z.of_nat (length msg) ->
  length padding = 6%nat -> Z.of_nat (length body) <= MAX_PACKAGE_DATA_SIZE -> partial (m_conn w) msg ->
  round w = Ret (with_conn w (with_state (m_conn w) conn_waiting), false).
Proof.
  intros msg (Hl & Hp & Hb & Hc) Hst Hk Hpad Hlen Hpart. unfold msg in Hk. rewrite length_message in Hk by done.
  unfold machine_round. rewrite Hst. unfold __parse_protocol_cmd. rewrite (proj2 (Z.leb_gt _ _)) by lia.
  assert (with_conn w (set_conn_state (m_conn w) conn_waiting) = with_conn w (with_state (m_conn w) conn_waiting)) as Hset.
  { f_equal. unfold set_conn_state, __set_conn_state. by rewrite Hst. }
  zcase (rbytes (m_conn w) <? sizeof_protocol_header); [cbn; by rewrite Hset|].
  unfold sizeof_protocol_header in *. unfold partial, received in Hpart.
  assert (header_body_len (rbuff (m_conn w)) = Ret (Z.of_nat (length body))) as ->.
  { rewrite <- (take_drop (Z.to_nat (rbytes (m_conn w))) (rbuff (m_conn w))), Hpart. apply message_prefix; [lia|done]. }
  cbn [mbind outcome_bind].
  rewrite (proj2 (Z.ltb_ge _ _)), (proj2 (Z.leb_gt _ _)) by lia. cbn [mbind outcome_bind]. cbn. by rewrite Hset.
Qed.

Lemma round_waiting w : cstate (m_conn w) = conn_waiting -> event_flags (m_conn w) = Z.lor EV_READ EV_PERSIST ->
  round w = Ret (with_conn w (with_state (m_conn w) conn_read), true).
Proof.
  intros Hst Hf. unfold machine_round. rewrite Hst. unfold update_conn_event. rewrite Hf, Z.eqb_refl. cbn [negb].
  unfold set_conn_state, __set_conn_state. by rewrite Hst.
Qed.

(** The complete message is handed to [dispatch_cmd]. *)
Lemma round_complete w cmd st padding body : let msg := message cmd st padding body in
  reading (m_conn w) -> cstate (m_conn w) = conn_parse_cmd -> rbytes (m_conn w) = Z.of_nat (length msg) ->
  length padding = 6%nat -> Z.of_nat (length body) <= MAX_PACKAGE_DATA_SIZE -> received (m_conn w) = msg ->
  round w = ('(t, c) ← dispatch_cmd hash_func interval garbage (envs (m_served w)) (m_tracker w)
                         (with_read (m_conn w) (rbuff (m_conn w)) 16 (rsize (m_conn w)) (Z.of_nat (length body))) (u8 cmd);
             Ret (with_served w t c, false)).
Proof.
  intros msg (Hl & Hp & Hb & Hc) Hst Hk Hpad Hlen Hrec. unfold msg in Hk. rewrite length_message in Hk by done.
  unfold machine_round. rewrite Hst. unfold __parse_protocol_cmd. unfold sizeof_protocol_header.
  rewrite (proj2 (Z.leb_gt _ _)), (proj2 (Z.ltb_ge _ _)) by lia.
  unfold received in Hrec. set (rb := rbuff (m_conn w)) in *.
  assert (rb = msg ++ drop (Z.to_nat (rbytes (m_conn w))) rb) as Hrb by (rewrite <- Hrec; by rewrite take_drop).
  assert (header_body_len rb = Ret (Z.of_nat (length body))) as ->.
  { rewrite Hrb. rewrite <- (firstn_all msg). apply message_prefix; [|done]. unfold msg. rewrite length_message by done. lia. }
  cbn [mbind outcome_bind]. rewrite (proj2 (Z.ltb_ge _ _)), (proj2 (Z.leb_le _ _)) by lia.
  assert (zlookup rb 8 = Some (u8 cmd)) as Hz by (rewrite Hrb; done).
  cbn [rbuff with_read]. rewrite Hz. cbn [get_or mbind outcome_bind].
  replace (rbytes (m_conn w) - 16) with (Z.of_nat (length body)) by lia.
  rewrite outcome_assoc. by destruct (dispatch_cmd _ _ _ _ _ _ _) as [ [t c]|].
Qed.

Lemma with_state_same c st : cstate c = st -> with_state c st = c.
Proof. intros <-. by destruct c. Qed.

(** One piece of a message that is not yet complete. *)
Lemma feed_incomplete f w cmd st padding body d : let msg := message cmd st padding body in
  waiting (m_conn w) -> d <> [] -> (rbytes (m_conn w) + Z.of_nat (length d) < rsize (m_conn w) \/ m_mem w = []) -> rbytes (m_conn w) < rsize (m_conn w) -> rbytes (m_conn w) + Z.of_nat (length d) < Z.of_nat (length msg) ->
  rbytes (m_conn w) + Z.of_nat (length d) < 4 * rsize (m_conn w) -> length padding = 6%nat -> Z.of_nat (length body) <= MAX_PACKAGE_DATA_SIZE ->
  partial (absorb uninit (m_conn w) d) msg ->
  run_machine (S (S (S f))) (with_in w [RData d]) = Ret (with_in (with_conn w (absorb uninit (m_conn w) d)) []).
Proof.
  intros msg (Hr & Hst & Hf) Hd Hmem Hlt Hk Hfit Hpad Hlen Hpart.
  destruct (absorb_spec uninit (m_conn w) d Hr Hfit) as (Hr' & _ & Hb' & _ & _ & Hst' & Hf').
  assert (0 < Z.of_nat (length d)) by (destruct d; [done|cbn; lia]). pose proof Hr as (_ & _ & Hb & _).
  cbn [__state_machine]. rewrite round_read by (done || lia). cbn [mbind outcome_bind].
  rewrite (round_incomplete _ cmd st padding body); [|exact Hr'|done| |done|done|exact Hpart]; cycle 1.
  { fold msg. cbn [m_conn with_in with_conn]. change (rbytes (with_state (absorb uninit (m_conn w) d) conn_parse_cmd)) with (rbytes (absorb uninit (m_conn w) d)). lia. }
  cbn [mbind outcome_bind]. rewrite round_waiting; [|done|cbn [m_conn with_in with_conn]; etrans; [exact Hf'|exact Hf] ]. cbn [mbind outcome_bind]. f_equal.
  unfold with_in, with_conn. cbn [m_conn m_tracker m_out m_sent m_mem m_ev m_served m_fd_closed m_curr]. f_equal.
  rewrite <- (with_state_same (absorb uninit (m_conn w) d) conn_read) at 2 by congruence. done.
Qed.

(** All the pieces of a message, the buffer growing up to four times its size. *)
Lemma feed_growing f w cmd st padding body pieces : let msg := message cmd st padding body in
  waiting (m_conn w) -> (Z.of_nat (length msg) < rsize (m_conn w) \/ m_mem w = []) -> rbytes (m_conn w) < rsize (m_conn w) -> Forall (fun d => d <> []) pieces -> pieces <> [] -> received (m_conn w) ++ concat pieces = msg ->
  Z.of_nat (length msg) < 4 * rsize (m_conn w) -> length padding = 6%nat -> Z.of_nat (length body) <= MAX_PACKAGE_DATA_SIZE ->
  feed uninit hash_func interval garbage envs (S (S (S f))) w pieces =
  run_machine (S (S f)) (with_in (with_conn w (with_state (absorb uninit (m_conn w) (concat pieces)) conn_parse_cmd)) []).
Proof.
  intros msg Hw Hmem Hlt Hne Hnil Hmsg Hfit Hpad Hlen.
  assert (rbytes (m_conn w) + Z.of_nat (length (concat pieces)) < 4 * rsize (m_conn w)) as Hroom.
  { destruct Hw as ((Hl & Hp & Hb & Hc) & _). rewrite <- Hmsg, length_app in Hfit. unfold received in Hfit. rewrite length_take in Hfit. lia. } clear Hfit.
  revert w Hw Hmem Hlt Hmsg Hroom. induction Hne as [|d ds Hd Hds IH]; intros w Hw Hmem Hlt Hmsg Hroom; [done|].
  pose proof Hw as (Hr & Hst & Hf). pose proof Hr as (Hl & Hp & Hb & Hc). cbn [feed concat] in *. rewrite length_app in Hroom.
  assert (Z.of_nat (length msg) = rbytes (m_conn w) + Z.of_nat (length d) + Z.of_nat (length (concat ds))) as Hsum.
  { rewrite <- Hmsg, !length_app. unfold received. rewrite length_take. lia. }
  destruct (decide (ds = [])) as [->|Hds'].
  - cbn [feed concat] in *. rewrite app_nil_r in *. cbn [__state_machine]. rewrite round_read by first [done|cbn [length] in Hsum; lia|destruct Hmem as [Hm|Hm]; [left; cbn [length] in Hsum; lia|by right] ].
    cbn [mbind outcome_bind]. match goal with |- ?x ≫= _ = _ => by destruct x end.
  - assert (0 < Z.of_nat (length (concat ds))).
    { destruct ds as [|d2 ds]; [done|]. apply Forall_cons in Hds as [Hd2 _]. cbn. rewrite length_app. destruct d2; [done|cbn; lia]. }
    destruct (absorb_spec uninit (m_conn w) d Hr ltac:(lia)) as (Hr' & Hrec' & Hb' & Hlt' & Hsz' & Hst' & Hf').
    assert (partial (absorb uninit (m_conn w) d) msg) as Hpart.
    { unfold partial. rewrite Hrec', <- Hmsg, app_assoc, take_app_length'; [done|].
      rewrite <- Hrec'. unfold received. rewrite length_take. destruct Hr' as (? & ? & ? & ?). lia. }
    rewrite (feed_incomplete f w cmd st padding body d Hw Hd) by first [done|fold msg; lia|destruct Hmem as [Hm|Hm]; [left; lia|by right] ].
    cbn [mbind outcome_bind]. rewrite IH; try done.
    + unfold with_in, with_conn. cbn [m_conn m_tracker m_out m_sent m_mem m_ev m_served m_fd_closed m_curr].
      by rewrite absorb_absorb by (try done; lia).
    + split_and!; [done|cbn [m_conn with_in with_conn]; congruence|cbn [m_conn with_in with_conn]; congruence].
    + cbn [m_conn with_in with_conn m_mem]. destruct Hmem as [Hm|Hm]; [left|by right]. rewrite Hsz'. unfold doublings. rewrite (proj2 (Z.ltb_lt _ _)) by lia. change (2 ^ Z.of_nat 0) with 1. lia.
    + cbn [m_conn with_in with_conn]. by rewrite Hrec', <- app_assoc.
    + cbn [m_conn with_in with_conn]. rewrite Hb', Hsz'. pose proof (Z.pow_pos_nonneg 2 (Z.of_nat (doublings (m_conn w) (rbytes (m_conn w) + Z.of_nat (length d)))) ltac:(lia) ltac:(lia)). nia.
Qed.

(** A message that fits the buffer as it is. *)
Lemma feed_pieces f w cmd st padding body pieces : let msg := message cmd st padding body in
  waiting (m_conn w) -> Forall (fun d => d <> []) pieces -> pieces <> [] -> received (m_conn w) ++ concat pieces = msg ->
  Z.of_nat (length msg) < rsize (m_conn w) -> length padding = 6%nat -> Z.of_nat (length body) <= MAX_PACKAGE_DATA_SIZE ->
  feed uninit hash_func interval garbage envs (S (S (S f))) w pieces =
  run_machine (S (S f)) (with_in (with_conn w (with_state (more (m_conn w) (concat pieces)) conn_parse_cmd)) []).
Proof.
  intros msg Hw Hne Hnil Hmsg Hfit Hpad Hlen. pose proof Hw as ((Hl & Hp & Hb & Hc) & _).
  assert (Z.of_nat (length msg) = rbytes (m_conn w) + Z.of_nat (length (concat pieces))) as Hsum by (rewrite <- Hmsg, length_app; unfold received; rewrite length_take; lia).
  rewrite (feed_growing f w cmd st padding body pieces); try done; try (fold msg; lia). by rewrite absorb_fits by lia.
Qed.

(** ** The response in pieces *)

Lemma round_write w n out : let c := m_conn w in let n' := Nat.min n (Z.to_nat (wbytes c - wused c)) in
  cstate c = conn_write -> 0 <= wused c < wbytes c -> wbytes c <= Z.of_nat (length (wbuff c)) ->
  m_out w = WSent n :: out -> (0 < n)%nat ->
  round w = Ret (with_conn (with_out w out (m_sent w ++ take n' (drop (Z.to_nat (wused c)) (wbuff c))))
                   (with_sent c (wused c) (wused c + Z.of_nat n')), false).
Proof.
  intros c n' Hst Hu Hb Ho Hn. unfold machine_round. fold c. rewrite Hst. unfold __network_write_noblock. fold c.
  rewrite (proj2 (Z.ltb_lt _ _)) by lia. rewrite Ho. cbn [sock_write]. fold n'.
  rewrite (proj2 (Nat.eqb_neq _ _)) by (unfold n'; lia). unfold buf_read. cbn [wbuff with_sent wused].
  rewrite (proj2 (Z.leb_le _ _)), (proj2 (Z.leb_le _ _)) by (unfold n'; lia). done.
Qed.

Lemma round_write_complete w : let c := m_conn w in cstate c = conn_write -> wbytes c <= wused c ->
  round w = Ret (with_conn w (with_state (with_writeto (__conn_reset c) conn_waiting) conn_waiting), false).
Proof.
  intros c Hst Hu. unfold machine_round. fold c. rewrite Hst. unfold __network_write_noblock. fold c.
  rewrite (proj2 (Z.ltb_ge _ _)) by lia. cbn [mbind outcome_bind]. unfold set_conn_state, __set_conn_state.
  cbn [m_conn with_conn cstate __conn_reset with_writeto with_sent writeto]. rewrite Hst. done.
Qed.

(** The connection after a response, ready for the next request. *)
Definition ready (c : conn) : conn := with_state (with_writeto (__conn_reset c) conn_waiting) conn_read.

Lemma write_all fuel w ns : let c := m_conn w in cstate c = conn_write -> 0 <= wused c <= wbytes c ->
  wbytes c <= Z.of_nat (length (wbuff c)) -> event_flags c = Z.lor EV_READ EV_PERSIST ->
  m_out w = (WSent <$> ns) -> Forall (fun n => (0 < n)%nat) ns -> wbytes c - wused c <= Z.of_nat (sum_list ns) ->
  (length ns + 2 <= fuel)%nat ->
  exists out, run_machine fuel w =
    Ret (with_conn (with_out w out (m_sent w ++ drop (Z.to_nat (wused c)) (take (Z.to_nat (wbytes c)) (wbuff c)))) (ready c)).
Proof.
  intros c Hst Hu Hb Hf Ho Hpos Hsum Hfuel. revert fuel w c Hst Hu Hb Hf Ho Hsum Hfuel.
  induction Hpos as [|n ns Hn Hpos IH]; intros fuel w c Hst Hu Hb Hf Ho Hsum Hfuel.
  - cbn in Hsum. destruct fuel as [|[|fuel] ]; [cbn in Hfuel; lia..|]. exists (m_out w). cbn [__state_machine].
    rewrite round_write_complete by (done || (fold c; lia)). fold c. cbn [mbind outcome_bind]. rewrite round_waiting by done. cbn [mbind outcome_bind].
    f_equal. unfold with_conn, with_out. cbn. f_equal. rewrite drop_ge by (rewrite length_take; lia). by rewrite app_nil_r.
  - destruct (decide (wused c = wbytes c)) as [Heq|Hlt].
    { destruct fuel as [|[|fuel] ]; [cbn in Hfuel; lia..|]. exists (m_out w). cbn [__state_machine].
      rewrite round_write_complete by (done || (fold c; lia)). fold c. cbn [mbind outcome_bind]. rewrite round_waiting by done. cbn [mbind outcome_bind].
      f_equal. unfold with_conn, with_out. cbn. f_equal. rewrite drop_ge by (rewrite length_take; lia). by rewrite app_nil_r. }
    destruct fuel as [|fuel]; [cbn in Hfuel; lia|]. cbn [__state_machine].
    rewrite (round_write w n (WSent <$> ns)) by (done || (fold c; lia)). fold c. set (n' := Nat.min n _). cbn [mbind outcome_bind].
    set (w1 := with_conn _ _).
    destruct (IH fuel w1) as (out & ->); cbn [m_conn with_conn w1 with_sent cstate wused wbytes wbuff event_flags m_out with_out]; try done.
    + unfold n'. lia.
    + change (sum_list (n :: ns)) with (n + sum_list ns)%nat in Hsum. unfold n'. lia.
    + cbn [length] in Hfuel. lia.
    + exists out. f_equal. unfold with_conn, with_out. cbn. f_equal. rewrite <- app_assoc. f_equal.
      rewrite Z2Nat.inj_add, Nat2Z.id by lia. rewrite <- drop_drop.
      etrans; [|apply (take_drop n')]. f_equal.
      rewrite !take_drop_commute, take_take. do 2 f_equal. unfold n'. lia.
Qed.
End Rounds.

(** ** Theorems *)

(** C24. [__network_read] always returns, within its four rounds: the bytes it
    took from the socket, and no others, are appended to what the connection
    had received, the buffer grows at most by a factor of four, and neither the
    response side of the connection nor the tracker changes. *)
Theorem network_read_spec uninit w : reading (m_conn w) ->
  exists w' r d, __network_read uninit w = Ret (w', r) /\ reads w w' d 4 /\ (r = READ_NO_DATA_RECEIVED -> d = []).
Proof.
  intros Hr. destruct (network_read_loop_spec uninit 4 w 0 READ_NO_DATA_RECEIVED Hr) as (w' & r & d & H1 & H2 & H3); [lia| |].
  - case_match; lia.
  - exists w', r, d. split_and!; try done. tauto.
Qed.

(** C23. A request of up to 8192 bytes of body may arrive in any number of pieces of
    any sizes, with the machine run on each: the result is that of the request
    arriving at once.  This holds also when the read buffer is too small and grows
    on the way, as long as the request is shorter than four times the buffer (the
    most that one read grows it to) and there is memory. *)
Theorem request_in_pieces uninit hash_func interval garbage envs fuel w cmd st padding body pieces :
  let msg := message cmd st padding body in
  waiting (m_conn w) -> rbytes (m_conn w) = 0 -> (3 <= fuel)%nat -> Forall (fun d => d <> []) pieces -> concat pieces = msg ->
  Z.of_nat (length msg) < 4 * rsize (m_conn w) -> (Z.of_nat (length msg) < rsize (m_conn w) \/ m_mem w = []) ->
  length padding = 6%nat -> Z.of_nat (length body) <= MAX_PACKAGE_DATA_SIZE ->
  feed uninit hash_func interval garbage envs fuel w pieces = feed uninit hash_func interval garbage envs fuel w [msg].
Proof.
  intros msg Hw H0 Hfuel Hne Hmsg Hfit Hmem Hpad Hlen. destruct fuel as [|[|[|f] ] ]; [lia..|].
  assert (received (m_conn w) = []) as Hrec by (unfold received; by rewrite H0).
  assert (msg <> []) by (unfold msg, message; discriminate). assert (rbytes (m_conn w) < rsize (m_conn w)) as Hlt by (destruct Hw as ((_ & ? & _) & _); lia).
  rewrite (feed_growing _ _ _ _ _ f w cmd st padding body pieces); [|done|done|done|done|by intros ->|by rewrite Hrec|done..].
  rewrite (feed_growing _ _ _ _ _ f w cmd st padding body [msg]); [|done|done|done|by constructor|done|by cbn; rewrite Hrec, app_nil_r|done..].
  by rewrite Hmsg, (app_nil_r msg : concat [msg] = msg).
Qed.

(** The connection [dispatch_cmd] is called with. *)
Definition handed (c : conn) (msg : bytes) (body_len : nat) : conn :=
  with_read (with_state (more c msg) conn_parse_cmd) (rbuff (more c msg)) 16 (rsize c) (Z.of_nat body_len).

(** C1. From the first byte of a request to the last byte of its response: a
    request that arrives in pieces is dispatched once, with exactly its bytes
    in the buffer, and a response is sent completely and in order, whatever
    amounts the socket takes at a time; then the connection is ready for the
    next request. *)
Theorem request_served uninit hash_func interval garbage envs w cmd st padding body pieces ns t' c' :
  let msg := message cmd st padding body in
  waiting (m_conn w) -> rbytes (m_conn w) = 0 -> Forall (fun d => d <> []) pieces -> concat pieces = msg ->
  Z.of_nat (length msg) < rsize (m_conn w) -> length padding = 6%nat -> Z.of_nat (length body) <= MAX_PACKAGE_DATA_SIZE ->
  dispatch_cmd hash_func interval garbage (envs (m_served w)) (m_tracker w) (handed (m_conn w) msg (length body)) (u8 cmd) = Ret (t', c') ->
  cstate c' = conn_write -> wused c' = 0 -> 0 <= wbytes c' <= Z.of_nat (length (wbuff c')) ->
  event_flags c' = Z.lor EV_READ EV_PERSIST -> m_out w = (WSent <$> ns) -> Forall (fun n => (0 < n)%nat) ns ->
  wbytes c' <= Z.of_nat (sum_list ns) ->
  exists w', feed uninit hash_func interval garbage envs (length ns + 5) w pieces = Ret w' /\
    m_tracker w' = t' /\ m_sent w' = m_sent w ++ response c' /\ m_conn w' = ready c' /\ m_served w' = S (m_served w).
Proof.
  intros msg Hw H0 Hne Hmsg Hfit Hpad Hlen Hd Hst Hu Hb Hf Ho Hpos Hsum.
  assert (received (m_conn w) = []) as Hrec by (unfold received; by rewrite H0).
  replace (length ns + 5)%nat with (S (S (S (length ns + 2)))) by lia.
  rewrite (feed_pieces _ _ _ _ _ (length ns + 2) w cmd st padding body pieces); [|done|done|by intros ->|by rewrite Hrec|done..].
  rewrite Hmsg. set (w1 := with_in (with_conn w (with_state (more (m_conn w) msg) conn_parse_cmd)) []).
  destruct (more_reading (m_conn w) msg (proj1 Hw) ltac:(lia)) as [Hr1 Hrec1].
  cbn [__state_machine]. rewrite (round_complete _ _ _ _ _ w1 cmd st padding body); try done.
  - unfold handed in Hd. cbn [m_conn w1 with_in with_conn m_served m_tracker rsize with_state more with_read rbuff] in *.
    rewrite Hd. cbn [mbind outcome_bind]. fold msg. set (w2 := with_served w1 t' c').
    destruct (write_all uninit hash_func interval garbage envs (S (length ns + 2)) w2 ns) as (out & Hrun); try done;
      [change (m_conn w2) with c'; lia..|lia|]. cbn [__state_machine] in Hrun.
    eexists. split; [exact Hrun|]. split_and!; try done. change (m_conn w2) with c'. cbn. unfold response. by rewrite Hu.
  - cbn. fold msg. lia.
  - cbn [m_conn w1 with_in with_conn]. change (received (with_state (more (m_conn w) msg) conn_parse_cmd)) with (received (more (m_conn w) msg)).
    by rewrite Hrec1, Hrec.
Qed.

(** A write error other than EINTR and EAGAIN (a peer that is gone) does
    not end the connection: the machine stays in [conn_write] and calls
    [write] again, as long as the error lasts. *)
Theorem broken_pipe_spins uninit hash_func interval garbage envs n w out : cstate (m_conn w) = conn_write ->
  wused (m_conn w) < wbytes (m_conn w) -> m_out w = replicate n (WErr EPIPE) ++ out ->
  __state_machine uninit hash_func interval garbage envs n w = Crash Diverged.
Proof.
  revert w. induction n as [|n IH]; intros w Hst Hu Ho; [done|]. cbn [__state_machine].
  assert (machine_round uninit hash_func interval garbage envs w =
          Ret (with_conn (with_out w (replicate n (WErr EPIPE) ++ out) (m_sent w)) (with_sent (m_conn w) (wused (m_conn w)) (wused (m_conn w))), false)) as ->.
  { unfold machine_round. rewrite Hst. unfold __network_write_noblock. rewrite (proj2 (Z.ltb_lt _ _)) by lia. rewrite Ho. done. }
  cbn [mbind outcome_bind]. by apply IH.
Qed.

(** ** Instances *)

Definition idle_conn (size : nat) : conn :=
  mk_conn 5 conn_read conn_waiting (Z.lor EV_READ EV_PERSIST) (zeros size) 0 (Z.of_nat size) 0 0 (zeros size) 0 (Z.of_nat size) 0 0.

Definition demo_machine (size : nat) (inp : list rres) (ns : list nat) : machine :=
  mk_machine tracker0 (idle_conn size) inp (WSent <$> ns) [] [] [] 0 false 1.

Lemma idle_reading size : (0 < size)%nat -> reading (idle_conn size).
Proof. intros. unfold reading. cbn. unfold zeros. rewrite length_replicate. lia. Qed.

Lemma network_read_spec_witness :
  let w := demo_machine 4 [RData [1; 2; 3; 4; 5; 6; 7; 8; 9]; RErr EAGAIN] [] in
  exists w' r d, __network_read (fun _ => 255) w = Ret (w', r) /\ reads w w' d 4 /\ (r = READ_NO_DATA_RECEIVED -> d = []).
Proof. intros w. apply (network_read_spec (fun _ => 255) w). apply idle_reading. lia. Defined.

(** A register request in two pieces. *)
Definition demo_msg : bytes := message 1 0 (zeros 6) (reg ip1 8001).
Definition demo_pieces : list bytes := [take 7 demo_msg; drop 7 demo_msg].
Definition demo_envs : nat -> env := fun _ => demo_env 100.

Lemma demo_waiting : waiting (m_conn (demo_machine 512 [] [5; 40]%nat)).
Proof. split; [apply idle_reading; lia|done]. Qed.

Lemma demo_pieces_ok : Forall (fun d => d <> []) demo_pieces /\ concat demo_pieces = demo_msg.
Proof. split; [repeat constructor; vm_compute; discriminate|]. by vm_compute. Qed.

(** The buffer of 40 bytes is doubled twice. *)
Lemma request_in_pieces_witness :
  feed (fun _ => 255) sum_hash 30 0 demo_envs 10 (demo_machine 40 [] [5; 40]%nat) demo_pieces =
  feed (fun _ => 255) sum_hash 30 0 demo_envs 10 (demo_machine 40 [] [5; 40]%nat) [demo_msg].
Proof.
  apply (request_in_pieces (fun _ => 255) sum_hash 30 0 demo_envs 10 (demo_machine 40 [] [5; 40]%nat) 1 0 (zeros 6) (reg ip1 8001) demo_pieces).
  - split; [apply idle_reading; lia|done].
  - reflexivity.
  - lia.
  - exact (proj1 demo_pieces_ok).
  - exact (proj2 demo_pieces_ok).
  - by vm_compute.
  - right. reflexivity.
  - reflexivity.
  - by vm_compute.
Defined.

Definition demo_result : tracker * conn :=
  match dispatch_cmd sum_hash 30 0 (demo_env 100) tracker0 (handed (idle_conn 512) demo_msg (length (reg ip1 8001))) 1 with
  | Ret r => r
  | Crash _ => (tracker0, idle_conn 0)
  end.

Lemma request_served_witness :
  exists w', feed (fun _ => 255) sum_hash 30 0 demo_envs 7 (demo_machine 512 [] [5; 40]%nat) demo_pieces = Ret w' /\
    m_tracker w' = demo_result.1 /\ m_sent w' = [] ++ response demo_result.2 /\ m_conn w' = ready demo_result.2 /\ m_served w' = 1%nat.
Proof.
  refine (request_served (fun _ => 255) sum_hash 30 0 demo_envs (demo_machine 512 [] [5; 40]%nat) 1 0 (zeros 6) (reg ip1 8001) demo_pieces
    [5; 40]%nat demo_result.1 demo_result.2 demo_waiting _ _ _ _ _ _ _ _ _ _ _ _ _ _).
  - reflexivity.
  - exact (proj1 demo_pieces_ok).
  - exact (proj2 demo_pieces_ok).
  - by vm_compute.
  - reflexivity.
  - by vm_compute.
  - by vm_compute.
  - by vm_compute.
  - by vm_compute.
  - by vm_compute.
  - by vm_compute.
  - reflexivity.
  - repeat constructor.
  - by vm_compute.
Defined.

Lemma broken_pipe_spins_witness :
  let w := mk_machine tracker0 (with_write (with_state (idle_conn 32) conn_write) (zeros 32) 16) [] (replicate 50 (WErr EPIPE)) [] [] [] 0 false 1 in
  __state_machine (fun _ => 255) sum_hash 30 0 demo_envs 50 w = Crash Diverged.
Proof.
  intros w. apply (broken_pipe_spins (fun _ => 255) sum_hash 30 0 demo_envs 50 w []); [reflexivity|reflexivity|].
  by rewrite app_nil_r.
Defined.
