(* ===== verification/DsBlock.v ===== *)
(** * Mount points of the data server

    src/src/dataserver/ds_block.c: the mount points given in the configuration,
    the two levels of directories below each of them, the choice of the mount
    point and of the directory for a new file, and the file block_snapshot.bat
    that keeps the counters.  The operating system is an argument: which paths
    exist, what [mkdir], [chdir], [statvfs] and [write] answer. *)
From S2P Require Import Prelude CString Lines TsConn.
From Stdlib Require Import SpecFloat.

Definition MAX_PATH_SIZE : nat := 256.

(** [struct block_st] *)
Record block_st := mk_mount_block {
  mount_path : bytes;
  pre_path_map : Z;
  suf_path_map : Z;
  curr_path_map_file_count : Z;
  total_size_mb : Z;
  free_size_mb : Z
}.

(** [struct block_mount_st] *)
Record block_mount := mk_mounts {
  mb_blocks : option (list (option block_st));
  block_total_size_mb : Z;
  block_free_size_mb : Z;
  mount_count : Z
}.

Definition set_stat_of (b : block_st) (t f : Z) : block_st :=
  mk_mount_block (mount_path b) (pre_path_map b) (suf_path_map b) (curr_path_map_file_count b) t f.
Definition set_path_map (b : block_st) (p q n : Z) : block_st :=
  mk_mount_block (mount_path b) p q n (total_size_mb b) (free_size_mb b).

Definition get_mount (m : block_mount) (i : Z) : outcome block_st :=
  l ← get_or NullDeref (mb_blocks m);
  e ← get_or OutOfBounds (zlookup l i);
  get_or NullDeref e.

Definition put_mount (m : block_mount) (i : Z) (b : block_st) : outcome block_mount :=
  l ← get_or NullDeref (mb_blocks m);
  l ← zinsert l i (Some b);
  Ret (mk_mounts (Some l) (block_total_size_mb m) (block_free_size_mb m) (mount_count m)).

(** ** Sizes *)

(** [block_vfs_statistics] adds to the totals; it does not start from zero. *)
Fixpoint statistics_loop (n : nat) (m : block_mount) (i : Z) : outcome block_mount :=
  match n with
  | O => Ret m
  | S n' =>
      b ← get_mount m i;
      statistics_loop n' (mk_mounts (mb_blocks m) (s32 (block_total_size_mb m + total_size_mb b))
        (s32 (block_free_size_mb m + free_size_mb b)) (mount_count m)) (i + 1)
  end.

Definition block_vfs_statistics (is_statistics : bool) (m : block_mount) : outcome (block_mount * Z) :=
  if is_statistics then Ret (m, 0)
  else m ← statistics_loop (Z.to_nat (mount_count m)) m 0; Ret (m, 0).

(** [struct statvfs]: the fields used. *)
Record statvfs := mk_statvfs { f_blocks : Z; f_frsize : Z; f_bavail : Z }.

(** [((int64_t)n * f_frsize) / (1024 * 1024)], an [unsigned long], stored in an
    [int]. *)
Definition size_mb (n frsize : Z) : Z := s32 (u64 (n * frsize) / (1024 * 1024)).

(** [statvfs] of mount point [i]; [None] when it fails. *)
Definition vfs := Z -> option statvfs.

Definition __block_statvfs_cal (vf : vfs) (m : block_mount) (mnt_index : Z) : outcome (block_mount * Z) :=
  b ← get_mount m mnt_index;
  match vf mnt_index with
  | None => Ret (m, EACCES)
  | Some sb =>
      m ← put_mount m mnt_index (set_stat_of b (size_mb (f_blocks sb) (f_frsize sb)) (size_mb (f_bavail sb) (f_frsize sb)));
      Ret (m, LFS_OK)
  end.

Fixpoint mount_block_statvfs_loop (n : nat) (vf : vfs) (m : block_mount) (i : Z) : outcome (block_mount * Z) :=
  match n with
  | O => Ret (m, LFS_OK)
  | S n' =>
      b ← get_mount m i;
      m ← put_mount m i (set_path_map b 0 0 0);
      match vf i with
      | None => Ret (m, EACCES)
      | Some sb =>
          let b := set_stat_of (set_path_map b 0 0 0) (size_mb (f_blocks sb) (f_frsize sb)) (size_mb (f_bavail sb) (f_frsize sb)) in
          m ← put_mount m i b;
          mount_block_statvfs_loop n' vf (mk_mounts (mb_blocks m) (s32 (block_total_size_mb m + total_size_mb b))
            (s32 (block_free_size_mb m + free_size_mb b)) (mount_count m)) (i + 1)
      end
  end.

Definition __mount_block_statvfs (vf : vfs) (m : block_mount) : outcome (block_mount * Z) :=
  mount_block_statvfs_loop (Z.to_nat (mount_count m)) vf m 0.

(** ** Choosing the mount point *)

(** [(float)n], and the comparison [free / total < ratio], in binary32. *)
Definition float_of_int (n : Z) : spec_float := binary_normalize 24 128 n 0 false.
Definition below_ratio (free total : Z) (ratio : spec_float) : bool :=
  SFltb (SFdiv 24 128 (float_of_int free) (float_of_int total)) ratio.

Definition __block_reserve_check (vf : vfs) (ratio : spec_float) (m : block_mount) (mnt_index : Z) : outcome (block_mount * Z) :=
  '(m, r) ← __block_statvfs_cal vf m mnt_index;
  if r =? 0 then
    b ← get_mount m mnt_index;
    Ret (m, if below_ratio (free_size_mb b) (total_size_mb b) ratio then -1 else LFS_OK)
  else Ret (m, LFS_OK).

(** The [for] loop of [__conn_mount_polling] from [i]: the index at which it
    stops, [mount_count] when it runs to the end. *)
Fixpoint mount_polling_loop (n : nat) (vf : vfs) (ratio : spec_float) (mnt_index : Z) (m : block_mount) (i : Z) : outcome (block_mount * Z) :=
  match n with
  | O => Ret (m, i)
  | S n' =>
      if i =? mnt_index then mount_polling_loop n' vf ratio mnt_index m (i + 1)
      else
        '(m, r) ← __block_reserve_check vf ratio m i;
        if r =? 0 then Ret (m, i) else mount_polling_loop n' vf ratio mnt_index m (i + 1)
  end.

(** The result and the new [f_mnt_block_index]; [cur] is the old one.  A
    remainder by zero is undefined. *)
Definition __conn_mount_polling (vf : vfs) (ratio : spec_float) (m : block_mount) (sfd cur : Z) : outcome (block_mount * Z * Z) :=
  if mount_count m =? 0 then Crash OutOfBounds
  else
    let mnt_index := Z.rem sfd (mount_count m) in
    '(m, r) ← __block_reserve_check vf ratio m mnt_index;
    if negb (r =? 0) then
      '(m, i) ← mount_polling_loop (Z.to_nat (mount_count m)) vf ratio mnt_index m 0;
      let cur := if i <? mount_count m then i else cur in
      if i =? mount_count m - 1 then Ret (m, cur, LFS_ERROR) else Ret (m, cur, LFS_OK)
    else Ret (m, mnt_index, LFS_OK).

(** ** Choosing the directory *)

(** The part of [__block_map_path_polling] under the lock, with the counter that
    was read before it: the block and whether [block_opt_count] grows. *)
Definition path_polling_locked (block_max_file_count block_sub_count : Z) (b : block_st) (curr_file_count : Z) : block_st * bool :=
  if block_max_file_count <=? curr_file_count then
    let suf := s32 (suf_path_map b + 1) in
    if block_sub_count <=? suf then
      let pre := s32 (pre_path_map b + 1) in
      (set_path_map b (if block_sub_count <=? pre then 0 else pre) 0 0, true)
    else (set_path_map b (pre_path_map b) suf 0, true)
  else (set_path_map b (pre_path_map b) (suf_path_map b) curr_file_count, false).

(** The block of mount point [idx]; [f_mp_pre] and [f_mp_suf] of the file. *)
Definition __block_map_path_polling (block_max_file_count block_sub_count : Z) (m : block_mount) (idx : Z) : outcome (block_mount * (Z * Z) * bool) :=
  b ← get_mount m idx;
  let '(b, opt) := path_polling_locked block_max_file_count block_sub_count b (s32 (curr_path_map_file_count b + 1)) in
  m ← put_mount m idx b;
  Ret (m, (pre_path_map b, suf_path_map b), opt).

(** The result, [f_mnt_block_index], [f_mp_pre] and [f_mp_suf] of the file. *)
Definition mount_block_map_polling (vf : vfs) (ratio : spec_float) (block_max_file_count block_sub_count : Z) (m : block_mount) (sfd : Z) (f : Z * Z * Z) :
    outcome (block_mount * (Z * Z * Z) * Z) :=
  let '(cur, p, q) := f in
  '(m, cur, ret) ← __conn_mount_polling vf ratio m sfd cur;
  if negb (ret =? LFS_OK) then Ret (m, (cur, p, q), ret)
  else
    '(m, (p, q), _) ← __block_map_path_polling block_max_file_count block_sub_count m cur;
    Ret (m, (cur, p, q), LFS_OK).

(** ** The counters on disk *)

(** A line of block_snapshot.bat: [pre_path_map], [suf_path_map],
    [curr_path_map_file_count], [total_size_mb] and [free_size_mb]. *)
Definition stat_fields (b : block_st) : Z * Z * Z * Z * Z :=
  (pre_path_map b, suf_path_map b, curr_path_map_file_count b, total_size_mb b, free_size_mb b).

Definition set_stat_fields (b : block_st) (r : Z * Z * Z * Z * Z) : block_st :=
  let '(p, q, n, t, f) := r in mk_mount_block (mount_path b) p q n t f.

#[export] Instance stat_record : LineRecord (Z * Z * Z * Z * Z).
Proof.
  refine {| lr_count := 5;
            lr_columns '(p, q, n, t, f) := [pr_dec p; pr_dec q; pr_dec n; pr_dec t; pr_dec f];
            lr_read c := (atoi (c 0%nat), atoi (c 1%nat), atoi (c 2%nat), atoi (c 3%nat), atoi (c 4%nat));
            lr_valid '(p, q, n, t, f) := Forall (is_s 32) [p; q; n; t; f] |}.
  - by intros [ [ [ [p q] n] t] f].
  - intros [ [ [ [p q] n] t] f] _. repeat (apply Forall_cons; split); auto using pr_dec_column.
  - intros [ [ [ [p q] n] t] f] c Hv Hc. rewrite !Forall_cons in Hv. destruct Hv as (? & ? & ? & ? & ? & _).
    rewrite (Hc 0%nat _ eq_refl), (Hc 1%nat _ eq_refl), (Hc 2%nat _ eq_refl), (Hc 3%nat _ eq_refl), (Hc 4%nat _ eq_refl).
    by rewrite !atoi_pr_int.
Defined.

Definition stat_line (b : block_st) : bytes := pr_record (stat_fields b).

(** [write_n k len]: the result of the [k]-th [write]; the file is what was
    written up to the failure.  [errno] is the value returned then. *)
Fixpoint stat_write_loop (n : nat) (write_n : Z -> Z -> Z) (errno : Z) (m : block_mount) (i : Z) (file : bytes) : outcome (bytes * Z) :=
  match n with
  | O => Ret (file, LFS_OK)
  | S n' =>
      b ← get_mount m i;
      let line := stat_line b in
      if negb (length line <? 256)%nat then Crash OutOfBounds
      else
        let w := write_n i (Z.of_nat (length line)) in
        let file := file ++ take (Z.to_nat w) line in
        if negb (w =? Z.of_nat (length line)) then Ret (file, errno)
        else stat_write_loop n' write_n errno m (i + 1) file
  end.

(** [open_errno = 0]: the file could be opened, which empties it. *)
Definition __mount_block_stat_write (open_errno : Z) (write_n : Z -> Z -> Z) (errno : Z) (m : block_mount) (file : option bytes) : outcome (option bytes * Z) :=
  if negb (open_errno =? 0) then Ret (file, open_errno)
  else '(f, ret) ← stat_write_loop (Z.to_nat (mount_count m)) write_n errno m 0 []; Ret (Some f, ret).

Definition block_stat_flush (is_flush : bool) (open_errno : Z) (write_n : Z -> Z -> Z) (errno : Z) (m : block_mount) (file : option bytes) : outcome (option bytes * Z) :=
  if is_flush then Ret (file, 0) else __mount_block_stat_write open_errno write_n errno m file.

(** The [while] loop of [__mount_block_info_init]; [i] counts the lines that
    have been used, not the mount points. *)
Fixpoint info_init_loop (fuel : nat) (trim_ok : Z -> nat -> bool) (m : block_mount) (i : Z) (text : bytes) : outcome block_mount :=
  match fgets 256 text with
  | None => Ret m
  | Some (sline, rest) =>
      match fuel with
      | O => Crash Diverged
      | S f =>
          match cstr sline with
          | [] => info_init_loop f trim_ok m i rest
          | _ =>
              match read_record (A := Z * Z * Z * Z * Z) (trim_ok i) sline with
              | None => Ret m
              | Some r =>
                  b ← get_mount m i;
                  m ← put_mount m i (set_stat_fields b r);
                  info_init_loop f trim_ok m (i + 1) rest
              end
          end
      end
  end.

(** [file = None]: there is no snapshot yet. *)
Definition __mount_block_info_init (vf : vfs) (fopen_errno : Z) (trim_ok : Z -> nat -> bool) (file : option bytes) (m : block_mount) : outcome (block_mount * Z) :=
  match file with
  | None => __mount_block_statvfs vf m
  | Some text =>
      if negb (fopen_errno =? 0) then Ret (m, fopen_errno)
      else m ← info_init_loop (length text) trim_ok m 0 text; Ret (m, LFS_OK)
  end.

(** ** The directories of a mount point *)

(** Paths are lists of components; a mount point is one component.  [d_other]
    are the paths that exist and are not directories. *)
Abbreviation path := (list bytes).

Record dirs := mk_dirs { d_dirs : gset path; d_other : gset path; d_cwd : path }.

(** What [mkdir] and [chdir] answer when the path itself is no reason to fail:
    an errno, 0 for success. *)
Record dir_env := mk_dir_env { mkdir_errno : path -> Z; chdir_errno : path -> Z }.

Definition path_exists (fs : dirs) (p : path) : bool := bool_decide (p ∈ d_dirs fs \/ p ∈ d_other fs).
Definition is_dir (fs : dirs) (p : path) : bool := bool_decide (p ∈ d_dirs fs).

(** The new state and the errno. *)
Definition mkdir (e : dir_env) (fs : dirs) (p : path) : dirs * Z :=
  if path_exists fs p then (fs, EEXIST)
  else if mkdir_errno e p =? 0 then (mk_dirs ({[p]} ∪ d_dirs fs) (d_other fs) (d_cwd fs), 0)
  else (fs, mkdir_errno e p).

Definition chdir (e : dir_env) (fs : dirs) (p : path) : dirs * Z :=
  if negb (is_dir fs p) then (fs, ENOENT)
  else if chdir_errno e p =? 0 then (mk_dirs (d_dirs fs) (d_other fs) p, 0) else (fs, chdir_errno e p).

(** [sprintf] of [%02X] into a buffer of [size] bytes. *)
Definition sprintf_02X (size : nat) (n : Z) : outcome bytes :=
  let s := pr_02X (u32 n) in if (length s <? size)%nat then Ret s else Crash OutOfBounds.

(** [if(mkdir(...) != 0) if(!(errno == EEXIST && isDir(...))) return errno] *)
Definition mkdir_or_exists (e : dir_env) (fs : dirs) (name : bytes) : dirs * Z :=
  let p := d_cwd fs ++ [name] in
  let '(fs, r) := mkdir e fs p in
  if r =? 0 then (fs, 0) else if (r =? EEXIST) && is_dir fs p then (fs, 0) else (fs, r).

Fixpoint dir_map_inner (n : nat) (e : dir_env) (fs : dirs) (j : Z) : outcome (dirs * Z) :=
  match n with
  | O => Ret (fs, 0)
  | S n' =>
      sname ← sprintf_02X 8 j;
      let '(fs, r) := mkdir_or_exists e fs sname in
      if negb (r =? 0) then Ret (fs, r) else dir_map_inner n' e fs (j + 1)
  end.

Fixpoint dir_map_outer (n : nat) (sub : nat) (e : dir_env) (fs : dirs) (i : Z) : outcome (dirs * Z) :=
  match n with
  | O => Ret (fs, LFS_OK)
  | S n' =>
      dname ← sprintf_02X 8 i;
      let '(fs, r) := mkdir_or_exists e fs dname in
      if negb (r =? 0) then Ret (fs, r)
      else
        let '(fs, r) := chdir e fs (d_cwd fs ++ [dname]) in
        if negb (r =? 0) then Ret (fs, r)
        else
          '(fs, r) ← dir_map_inner sub e fs 0;
          if negb (r =? 0) then Ret (fs, r)
          else
            let '(fs, r) := chdir e fs (removelast (d_cwd fs)) in
            if negb (r =? 0) then Ret (fs, r) else dir_map_outer n' sub e fs (i + 1)
  end.

(** The directory of a file: two names under its mount point. *)
Definition sub_dir (mnt : bytes) (i j : Z) : path := [mnt; pr_02X i; pr_02X j].

Definition block_dir_map (block_sub_count : Z) (e : dir_env) (fs : dirs) (mnt : bytes) : outcome (dirs * Z) :=
  let dpath := take (MAX_PATH_SIZE - 1) mnt in
  let '(fs, r) := if negb (is_dir fs [dpath]) then mkdir e fs [dpath] else (fs, 0) in
  if negb (r =? 0) then Ret (fs, r)
  else
    let '(fs, r) := chdir e fs [dpath] in
    if negb (r =? 0) then Ret (fs, r)
    else
      let last := pr_02X (u32 (block_sub_count - 1)) in
      if negb (length last + 1 + length last <? 16)%nat then Crash OutOfBounds
      else if path_exists fs (sub_dir dpath 0 0) && path_exists fs [dpath; last; last] then Ret (fs, 0)
      else dir_map_outer (Z.to_nat block_sub_count) (Z.to_nat block_sub_count) e fs 0.

(** ** Initialisation *)

(** [malloc_ok k] and [ie_errno k] belong to the [k]-th place of the function. *)
Record init_env := mk_init_env {
  ie_bin_errno : Z;
  ie_malloc : nat -> bool;
  ie_errno : nat -> Z;
  ie_mutex : Z;
  ie_dir : dir_env;
  ie_vfs : vfs;
  ie_fopen : Z;
  ie_trim : Z -> nat -> bool
}.

(** [memset] and [memcpy] of the path into the new block. *)
Definition new_mount (item : bytes) : outcome block_st :=
  p ← buf_write (replicate MAX_PATH_SIZE 0) 0 item;
  Ret (mk_mount_block p 0 0 0 0 0).

(** The loop over the configured mount points; [inl] is the [goto err]. *)
Fixpoint mount_init_loop (e : init_env) (sub : Z) (fs : dirs) (m : block_mount) (i : Z) (items : list bytes) : outcome (dirs * (Z + block_mount)) :=
  match items with
  | [] => Ret (fs, inr m)
  | item :: items' =>
      let item := chopPath item in
      if negb (path_exists fs [item]) then Ret (fs, inl (ie_errno e 3))
      else if negb (is_dir fs [item]) then Ret (fs, inl (ie_errno e 4))
      else
        '(fs, r) ← block_dir_map sub (ie_dir e) fs item;
        if negb (r =? 0) then Ret (fs, inl r)
        else if negb (ie_malloc e (5 + Z.to_nat i)%nat) then Ret (fs, inl (ie_errno e 5))
        else
          b ← new_mount item;
          m ← put_mount m i b;
          mount_init_loop e sub fs m (i + 1) items'
  end.

(** [m0] is the state of [mounts] before; the error path frees the array. *)
Definition mount_block_map_init (e : init_env) (sub : Z) (bm : bytes) (file : option bytes) (fs : dirs) (m0 : block_mount) :
    outcome (dirs * block_mount * Z) :=
  let fail (fs : dirs) (m : block_mount) (r : Z) : outcome (dirs * block_mount * Z) :=
    Ret (fs, mk_mounts None (block_total_size_mb m) (block_free_size_mb m) (mount_count m), r) in
  if negb (ie_bin_errno e =? 0) then Ret (fs, m0, ie_bin_errno e)
  else
    let scount := get_split_str_count bm (chr ":") in
    if negb (ie_malloc e 0) then fail fs m0 (ie_errno e 0)
    else
      let items := splitStr bm (chr ":") scount in
      if negb (Z.of_nat (length items) =? scount) then fail fs m0 (ie_errno e 1)
      else
        let m := mk_mounts None (block_total_size_mb m0) (block_free_size_mb m0) scount in
        if negb (ie_malloc e 1) then fail fs m (ie_errno e 2)
        else
          let m := mk_mounts (Some (replicate (Z.to_nat scount) None)) (block_total_size_mb m) (block_free_size_mb m) scount in
          '(fs, r) ← mount_init_loop e sub fs m 0 items;
          match r with
          | inl r => fail fs m r
          | inr m =>
              if negb (ie_mutex e =? 0) then fail fs m (ie_mutex e)
              else
                '(m, r) ← __mount_block_info_init (ie_vfs e) (ie_fopen e) (ie_trim e) file m;
                if negb (r =? 0) then fail fs m r else Ret (fs, m, LFS_OK)
          end.

Definition mount_block_map_destroy (m : block_mount) : block_mount :=
  mk_mounts None (block_total_size_mb m) (block_free_size_mb m) (mount_count m).

(** ** Mounted blocks *)

(** The blocks of the mount points, all of them allocated. *)
Definition mounted (m : block_mount) (bs : list block_st) : Prop :=
  mb_blocks m = Some (Some <$> bs) /\ mount_count m = Z.of_nat (length bs).

Lemma get_mounted m bs i : mounted m bs -> (i < length bs)%nat ->
  exists b, bs !! i = Some b /\ get_mount m (Z.of_nat i) = Ret b.
Proof.
  intros [Hb _] Hi. destruct (lookup_lt_is_Some_2 bs i Hi) as [b Hbi]. exists b. split; [done|].
  unfold get_mount. rewrite Hb. cbn [get_or mbind outcome_bind]. rewrite zlookup_nat, list_lookup_fmap, Hbi. done.
Qed.

Lemma put_mounted m bs i b : mounted m bs -> (i < length bs)%nat ->
  exists m', put_mount m (Z.of_nat i) b = Ret m' /\ mounted m' (<[i := b]> bs) /\
    block_total_size_mb m' = block_total_size_mb m /\ block_free_size_mb m' = block_free_size_mb m.
Proof.
  intros [Hb Hc] Hi. unfold put_mount. rewrite Hb. cbn [get_or mbind outcome_bind].
  rewrite zinsert_Ret by (rewrite length_fmap; lia). cbn [mbind outcome_bind]. eexists. split; [done|].
  rewrite Nat2Z.id. split; [|done]. split; cbn; [by rewrite list_fmap_insert|by rewrite length_insert].
Qed.

(** ** The directory counter *)

(** A block whose counters are in range. *)
Definition path_ok (maxf sub : Z) (b : block_st) : Prop :=
  0 <= pre_path_map b < sub /\ 0 <= suf_path_map b < sub /\ 0 <= curr_path_map_file_count b < maxf.

(** The counters as one number: the directories in order, and the place in the
    directory. *)
Definition path_position (maxf sub : Z) (b : block_st) : Z :=
  (pre_path_map b * sub + suf_path_map b) * maxf + curr_path_map_file_count b.

Lemma s32_small z : 0 <= z < 2 ^ 31 -> s32 z = z.
Proof. intros. apply s_wrap_id; [lia|]. unfold is_s. cbn. lia. Qed.

Lemma path_position_range maxf sub b : path_ok maxf sub b -> 0 <= path_position maxf sub b < sub * sub * maxf.
Proof.
  unfold path_ok, path_position. intros (H1 & H2 & H3).
  assert (0 <= pre_path_map b * sub + suf_path_map b < sub * sub) as Hq by nia.
  revert Hq. generalize (pre_path_map b * sub + suf_path_map b) (sub * sub). intros q n Hq. nia.
Qed.

Lemma path_position_next maxf sub b b' : path_ok maxf sub b -> path_ok maxf sub b' ->
  path_position maxf sub b' = path_position maxf sub b + 1 ->
  path_position maxf sub b' = (path_position maxf sub b + 1) mod (sub * sub * maxf).
Proof.
  intros H H' He. pose proof (path_position_range _ _ _ H). pose proof (path_position_range _ _ _ H'). rewrite Z.mod_small; lia.
Qed.

Lemma path_polling_step maxf sub b b' opt : path_ok maxf sub b -> maxf < 2 ^ 31 -> sub < 2 ^ 31 ->
  path_polling_locked maxf sub b (s32 (curr_path_map_file_count b + 1)) = (b', opt) ->
  path_ok maxf sub b' /\ path_position maxf sub b' = (path_position maxf sub b + 1) mod (sub * sub * maxf) /\
  mount_path b' = mount_path b.
Proof.
  intros Hok Hm Hs. pose proof Hok as (H1 & H2 & H3). unfold path_polling_locked. rewrite !s32_small by lia.
  zcase (maxf <=? curr_path_map_file_count b + 1); [zcase (sub <=? suf_path_map b + 1); [zcase (sub <=? pre_path_map b + 1)|] |];
    intros [= <- <-]; (match goal with |- path_ok _ _ ?b' /\ _ => assert (path_ok maxf sub b') as Hok' by (unfold path_ok; cbn; lia) end);
    (split; [done|]); (split; [|done]).
  - unfold path_position; cbn. assert (pre_path_map b = sub - 1) as -> by lia. assert (suf_path_map b = sub - 1) as -> by lia.
    assert (curr_path_map_file_count b = maxf - 1) as -> by lia.
    replace (((sub - 1) * sub + (sub - 1)) * maxf + (maxf - 1) + 1) with (1 * (sub * sub * maxf)) by ring.
    rewrite Z.mod_mul by nia. lia.
  - apply path_position_next; [done|done|]. unfold path_position; cbn. assert (suf_path_map b = sub - 1) as -> by lia.
    assert (curr_path_map_file_count b = maxf - 1) as -> by lia. ring.
  - apply path_position_next; [done|done|]. unfold path_position; cbn. assert (curr_path_map_file_count b = maxf - 1) as -> by lia. ring.
  - apply path_position_next; [done|done|]. unfold path_position; cbn. ring.
Qed.

(** ** Room on a mount point *)

Definition has_room (vf : vfs) (ratio : spec_float) (i : Z) : bool :=
  match vf i with
  | None => true
  | Some sb => negb (below_ratio (size_mb (f_bavail sb) (f_frsize sb)) (size_mb (f_blocks sb) (f_frsize sb)) ratio)
  end.

(** The counters of the directories. *)
Definition path_map (b : block_st) : bytes * Z * Z * Z :=
  (mount_path b, pre_path_map b, suf_path_map b, curr_path_map_file_count b).

Section Room.
Context (vf : vfs) (ratio : spec_float).

Lemma reserve_check_room m bs i : mounted m bs -> (i < length bs)%nat ->
  exists m' bs', __block_reserve_check vf ratio m (Z.of_nat i) = Ret (m', if has_room vf ratio (Z.of_nat i) then 0 else -1) /\
    mounted m' bs' /\ path_map <$> bs' = path_map <$> bs.
Proof.
  intros Hm Hi. destruct (get_mounted m bs i Hm Hi) as (b & Hb & Hg). unfold __block_reserve_check, __block_statvfs_cal, has_room.
  rewrite Hg. cbn [mbind outcome_bind]. destruct (vf (Z.of_nat i)) as [sb|]; cycle 1.
  { exists m, bs. cbn. done. }
  set (b' := set_stat_of b _ _). destruct (put_mounted m bs i b' Hm Hi) as (m' & Hp & Hm' & _).
  rewrite Hp. cbn [mbind outcome_bind]. change (LFS_OK =? 0) with true. cbv iota.
  destruct (get_mounted m' _ i Hm') as (b2 & Hb2 & ->); [by rewrite length_insert|]. cbn [mbind outcome_bind].
  rewrite list_lookup_insert_eq in Hb2 by done. injection Hb2 as <-. exists m', (<[i := b']> bs).
  cbn [free_size_mb total_size_mb b' set_stat_of]. split; [by destruct (below_ratio _ _ _)|]. split; [done|].
  rewrite list_fmap_insert. apply list_insert_id. by rewrite list_lookup_fmap, Hb.
Qed.

(** The first mount point from [i] on, other than [own], that has room. *)
Fixpoint first_room (own : Z) (i : Z) (n : nat) : option Z :=
  match n with
  | O => None
  | S n' => if (i =? own) || negb (has_room vf ratio i) then first_room own (i + 1) n' else Some i
  end.

Lemma polling_loop_room own n m bs i : mounted m bs -> (i + n = length bs)%nat ->
  exists m' bs', mount_polling_loop n vf ratio own m (Z.of_nat i) =
    Ret (m', default (Z.of_nat (length bs)) (first_room own (Z.of_nat i) n)) /\ mounted m' bs' /\ path_map <$> bs' = path_map <$> bs.
Proof.
  revert m bs i. induction n as [|n IH]; intros m bs i Hm Hi; cbn [mount_polling_loop first_room].
  - exists m, bs. cbn. split; [|done]. do 2 f_equal. lia.
  - assert (forall m1 bs1, mounted m1 bs1 -> path_map <$> bs1 = path_map <$> bs -> exists m' bs',
      mount_polling_loop n vf ratio own m1 (Z.of_nat i + 1) = Ret (m', default (Z.of_nat (length bs)) (first_room own (Z.of_nat i + 1) n)) /\
      mounted m' bs' /\ path_map <$> bs' = path_map <$> bs) as Hnext.
    { intros m1 bs1 H1 H2. assert (length bs1 = length bs) as Hl by (by rewrite <- (length_fmap path_map), H2, length_fmap).
      destruct (IH m1 bs1 (S i) H1) as (m' & bs' & Hr & ? & ?); [lia|]. exists m', bs'.
      replace (Z.of_nat (S i)) with (Z.of_nat i + 1) in Hr by lia. rewrite Hl in Hr. split_and!; [done|done|congruence]. }
    zcase (Z.of_nat i =? own); cbn [orb]; [by apply (Hnext m bs)|].
    destruct (reserve_check_room m bs i Hm) as (m1 & bs1 & -> & Hm1 & Hp1); [lia|]. cbn [mbind outcome_bind].
    destruct (has_room vf ratio (Z.of_nat i)); cbn [negb]; [|by apply (Hnext m1 bs1)].
    exists m1, bs1. by cbn.
Qed.

Lemma first_room_spec own i n : match first_room own i n with
  | Some j => i <= j < i + Z.of_nat n /\ j <> own /\ has_room vf ratio j = true /\
      (forall k, i <= k < j -> k <> own -> has_room vf ratio k = false)
  | None => forall k, i <= k < i + Z.of_nat n -> k <> own -> has_room vf ratio k = false
  end.
Proof.
  revert i. induction n as [|n IH]; intros i; cbn [first_room]; [intros k Hk; lia|].
  destruct ((i =? own) || negb (has_room vf ratio i)) eqn:E.
  - assert (i <> own -> has_room vf ratio i = false) as Hi.
    { intros Hne. apply orb_true_iff in E as [E|E]; [apply Z.eqb_eq in E; done|by apply negb_true_iff in E]. }
    specialize (IH (i + 1)). destruct (first_room own (i + 1) n) as [j|].
    + destruct IH as (H1 & H2 & H3 & H4). split_and!; [lia|lia|done|done|]. intros k Hk Hne.
      destruct (decide (k = i)) as [->|]; [by apply Hi|apply H4; [lia|done]].
    + intros k Hk Hne. destruct (decide (k = i)) as [->|]; [by apply Hi|apply IH; [lia|done]].
  - apply orb_false_iff in E as [E1%Z.eqb_neq E2%negb_false_iff]. split_and!; [lia|lia|done|done|]. intros k Hk. lia.
Qed.
End Room.

(** ** Directories *)

(** [fs'] has the directories of [fs] and the same working directory. *)
Definition extends (fs fs' : dirs) : Prop := d_dirs fs ⊆ d_dirs fs' /\ d_cwd fs' = d_cwd fs.

Lemma extends_refl fs : extends fs fs.
Proof. done. Qed.

Lemma extends_trans fs1 fs2 fs3 : extends fs1 fs2 -> extends fs2 fs3 -> extends fs1 fs3.
Proof. unfold extends. intros [H1 H2] [H3 H4]. split; [set_solver|congruence]. Qed.

#[local] Hint Resolve extends_refl extends_trans : core.

Section Dirs.
Context (e : dir_env).

Lemma mkdir_extends fs p fs' r : mkdir e fs p = (fs', r) -> extends fs fs' /\ (r = 0 -> p ∈ d_dirs fs').
Proof.
  unfold mkdir. destruct (path_exists fs p); [intros [= <- <-]; by split|]. zcase (mkdir_errno e p =? 0); intros [= <- <-].
  - split; [split; [cbn; set_solver|done]|cbn; set_solver].
  - by split.
Qed.

Lemma mkdir_or_exists_spec fs name fs' r : mkdir_or_exists e fs name = (fs', r) ->
  extends fs fs' /\ (r = 0 -> d_cwd fs ++ [name] ∈ d_dirs fs').
Proof.
  unfold mkdir_or_exists. destruct (mkdir e fs _) as [fs1 r1] eqn:Hm. destruct (mkdir_extends _ _ _ _ Hm) as [He Hin].
  zcase (r1 =? 0); [intros [= <- <-]; auto|]. destruct ((r1 =? EEXIST) && is_dir fs1 _) eqn:Ed; intros [= <- <-]; [|done].
  split; [done|]. intros _. apply andb_true_iff in Ed as [_ Hd]. by apply bool_decide_eq_true in Hd.
Qed.

Lemma chdir_spec fs p fs' : chdir e fs p = (fs', 0) -> d_dirs fs' = d_dirs fs /\ d_cwd fs' = p.
Proof.
  unfold chdir. destruct (is_dir fs p); cbn [negb]; [|done]. zcase (chdir_errno e p =? 0); intros [= <-]; done.
Qed.

Lemma dir_map_inner_spec n fs j fs' : 0 <= j -> j + Z.of_nat n <= 2 ^ 32 -> dir_map_inner n e fs j = Ret (fs', 0) ->
  extends fs fs' /\ forall k, j <= k < j + Z.of_nat n -> d_cwd fs ++ [pr_02X k] ∈ d_dirs fs'.
Proof.
  revert fs j. induction n as [|n IH]; intros fs j Hj Hn Hr; cbn [dir_map_inner] in Hr.
  - injection Hr as <-. split; [done|]. intros k Hk. lia.
  - unfold sprintf_02X in Hr. rewrite u_wrap_id in Hr by (unfold is_u; lia). destruct (_ <? _)%nat; cbn [mbind outcome_bind] in Hr; [|done].
    destruct (mkdir_or_exists e fs (pr_02X j)) as [fs1 r1] eqn:Hm. destruct (mkdir_or_exists_spec _ _ _ _ Hm) as [He Hin].
    zcase (r1 =? 0); cbn [negb] in Hr; [|congruence]. destruct (IH fs1 (j + 1)) as [He2 Hall]; [lia|lia|done|].
    split; [by eauto|]. intros k Hk. destruct (decide (k = j)) as [->|].
    + apply He2. by apply Hin.
    + replace (d_cwd fs) with (d_cwd fs1) by apply He. apply Hall. lia.
Qed.

Lemma dir_map_outer_spec n sub fs i fs' : 0 <= i -> i + Z.of_nat n <= 2 ^ 32 -> Z.of_nat sub <= 2 ^ 32 ->
  dir_map_outer n sub e fs i = Ret (fs', 0) ->
  extends fs fs' /\ forall a b, i <= a < i + Z.of_nat n -> 0 <= b < Z.of_nat sub -> d_cwd fs ++ [pr_02X a; pr_02X b] ∈ d_dirs fs'.
Proof.
  revert fs i. induction n as [|n IH]; intros fs i Hi Hn Hs Hr; cbn [dir_map_outer] in Hr.
  - injection Hr as <-. split; [done|]. intros a b Ha. lia.
  - unfold sprintf_02X in Hr. rewrite u_wrap_id in Hr by (unfold is_u; lia). destruct (_ <? _)%nat; cbn [mbind outcome_bind] in Hr; [|done].
    destruct (mkdir_or_exists e fs (pr_02X i)) as [fs1 r1] eqn:Hm. destruct (mkdir_or_exists_spec _ _ _ _ Hm) as [ [He1 Hc1] _].
    zcase (r1 =? 0); cbn [negb] in Hr; [|congruence]. subst r1. destruct (chdir e fs1 _) as [fs2 r2] eqn:Hcd.
    zcase (r2 =? 0); cbn [negb] in Hr; [|congruence]. subst r2. destruct (chdir_spec _ _ _ Hcd) as [Hd2 Hc2].
    destruct (dir_map_inner sub e fs2 0) as [ [fs3 r3]|] eqn:Hin; cbn [mbind outcome_bind] in Hr; [|done].
    zcase (r3 =? 0); cbn [negb] in Hr; [|congruence]. subst r3. destruct (dir_map_inner_spec sub fs2 0 fs3) as [ [He3 Hc3] Hall]; [lia|lia|done|].
    destruct (chdir e fs3 _) as [fs4 r4] eqn:Hup. zcase (r4 =? 0); cbn [negb] in Hr; [|congruence]. subst r4.
    destruct (chdir_spec _ _ _ Hup) as [Hd4 Hc4]. rewrite Hc3, Hc2, Hc1, removelast_last in Hc4.
    destruct (IH fs4 (i + 1)) as [ [He5 Hc5] Hrest]; [lia|lia|lia|done|]. rewrite Hc4 in *. split.
    + split; [|done]. set_solver.
    + intros a b Ha Hb. destruct (decide (a = i)) as [->|]; [|apply Hrest; lia].
      apply He5. rewrite Hd4. specialize (Hall b ltac:(lia)). rewrite Hc2, Hc1, <- app_assoc in Hall. done.
Qed.
End Dirs.

(** [snprintf] of a mount point that fits is the mount point. *)
Lemma block_dir_map_inv e sub fs mnt fs' : 1 <= sub <= 2 ^ 32 -> (length mnt < MAX_PATH_SIZE)%nat ->
  (path_exists fs (sub_dir mnt 0 0) = true -> path_exists fs (sub_dir mnt (sub - 1) (sub - 1)) = true ->
     forall i j, 0 <= i < sub -> 0 <= j < sub -> sub_dir mnt i j ∈ d_dirs fs) ->
  block_dir_map sub e fs mnt = Ret (fs', 0) ->
  forall i j, 0 <= i < sub -> 0 <= j < sub -> sub_dir mnt i j ∈ d_dirs fs'.
Proof.
  intros Hs Hl Hfirst Hr i j Hi Hj. unfold block_dir_map in Hr. rewrite take_ge in Hr by (unfold MAX_PATH_SIZE in *; lia).
  set (p := if negb (is_dir fs [mnt]) then mkdir e fs [mnt] else (fs, 0)) in Hr.
  assert (d_dirs fs ⊆ d_dirs p.1 /\ forall q, length q = 3%nat -> path_exists p.1 q = path_exists fs q) as [Hsub Hsame].
  { subst p. destruct (is_dir fs [mnt]); cbn [negb]; [done|]. unfold mkdir. destruct (path_exists fs [mnt]); [done|].
    destruct (_ =? 0); [|done]. split; [cbn; set_solver|]. intros q Hq. unfold path_exists. cbn. apply bool_decide_ext.
    assert (q <> [mnt]) by (intros ->; done). set_solver. }
  destruct p as [fs1 r1]. cbn [fst] in *. zcase (r1 =? 0); cbn [negb] in Hr; [|congruence].
  destruct (chdir e fs1 [mnt]) as [fs2 r2] eqn:Hcd. zcase (r2 =? 0); cbn [negb] in Hr; [|congruence]. subst r2.
  assert (d_other fs2 = d_other fs1) as Ho2.
  { unfold chdir in Hcd. destruct (is_dir fs1 [mnt]); cbn in Hcd; [|done]. destruct (_ =? 0); by injection Hcd as <-. }
  destruct (chdir_spec _ _ _ _ Hcd) as [Hd2 Hc2]. rewrite u_wrap_id in Hr by (unfold is_u; lia).
  destruct (_ <? _)%nat; cbn [negb] in Hr; [|done].
  assert (forall q, path_exists fs2 q = path_exists fs1 q) as Hq2 by (intros q; unfold path_exists; by rewrite Hd2, Ho2).
  rewrite !Hq2, !Hsame in Hr by done. destruct (path_exists fs (sub_dir mnt 0 0) && _) eqn:Eb.
  - injection Hr as <-. apply andb_true_iff in Eb as [E1 E2]. rewrite Hd2. apply Hsub. by apply Hfirst.
  - destruct (dir_map_outer_spec e (Z.to_nat sub) (Z.to_nat sub) fs2 0 fs' ltac:(lia) ltac:(lia) ltac:(lia) Hr) as [_ Hall].
    specialize (Hall i j ltac:(lia) ltac:(lia)). by rewrite Hc2 in Hall.
Qed.

(** ** Initialisation *)

(** No system call fails for a reason of its own, and nothing but directories is
    below the mount points. *)
Definition dirs_free (e : dir_env) (fs : dirs) : Prop :=
  (forall p, mkdir_errno e p = 0) /\ (forall p, chdir_errno e p = 0) /\ (forall p, p ∈ d_other fs -> length p = 1%nat).

Section DirsTotal.
Context (e : dir_env).

Lemma mkdir_or_exists_total fs name : dirs_free e fs -> d_cwd fs <> [] ->
  exists fs', mkdir_or_exists e fs name = (fs', 0) /\ extends fs fs' /\ d_other fs' = d_other fs.
Proof.
  intros (Hm & _ & Ho) Hc. unfold mkdir_or_exists, mkdir, path_exists. case_bool_decide as Hp.
  - cbn. exists fs. split; [|done]. unfold is_dir. case_bool_decide as Hd; [done|]. destruct Hp as [?|Hp]; [done|].
    apply Ho in Hp. rewrite length_app in Hp. destruct (d_cwd fs); [done|cbn in Hp; lia].
  - rewrite Hm. cbn. eexists. split; [done|]. split; [split; [cbn; set_solver|done]|done].
Qed.

Lemma dirs_free_ext fs fs' : dirs_free e fs -> d_other fs' = d_other fs -> dirs_free e fs'.
Proof. intros (H1 & H2 & H3) He. split_and!; [done|done|]. by rewrite He. Qed.

Lemma sprintf_02X_fits n : 0 <= n < 2 ^ 28 -> sprintf_02X 8 n = Ret (pr_02X n).
Proof.
  intros Hn. unfold sprintf_02X. rewrite u_wrap_id by (unfold is_u; lia). pose proof (length_pr_02X 7 n ltac:(lia) ltac:(cbn; lia)) as Hl.
  by rewrite (proj2 (Nat.ltb_lt _ _)) by lia.
Qed.

Lemma dir_map_inner_total n fs j : dirs_free e fs -> d_cwd fs <> [] -> 0 <= j -> j + Z.of_nat n <= 2 ^ 28 ->
  exists fs', dir_map_inner n e fs j = Ret (fs', 0) /\ extends fs fs' /\ d_other fs' = d_other fs.
Proof.
  revert fs j. induction n as [|n IH]; intros fs j Hf Hc Hj Hn; cbn [dir_map_inner]; [by exists fs|].
  rewrite sprintf_02X_fits by lia. cbn [mbind outcome_bind].
  destruct (mkdir_or_exists_total fs (pr_02X j) Hf Hc) as (fs1 & -> & He1 & Ho1). cbn [negb Z.eqb].
  destruct (IH fs1 (j + 1)) as (fs2 & -> & He2 & Ho2); [by eapply dirs_free_ext|by rewrite (proj2 He1)|lia|lia|].
  exists fs2. split_and!; [done|by eauto|congruence].
Qed.

Lemma chdir_total fs p : dirs_free e fs -> p ∈ d_dirs fs -> chdir e fs p = (mk_dirs (d_dirs fs) (d_other fs) p, 0).
Proof. intros (_ & Hc & _) Hp. unfold chdir, is_dir. rewrite bool_decide_true by done. cbn. by rewrite Hc. Qed.

Lemma dir_map_outer_total n sub fs i : dirs_free e fs -> d_cwd fs <> [] -> d_cwd fs ∈ d_dirs fs ->
  0 <= i -> i + Z.of_nat n <= 2 ^ 28 -> Z.of_nat sub <= 2 ^ 28 ->
  exists fs', dir_map_outer n sub e fs i = Ret (fs', 0) /\ extends fs fs' /\ d_other fs' = d_other fs.
Proof.
  revert fs i. induction n as [|n IH]; intros fs i Hf Hc Hd Hi Hn Hs; cbn [dir_map_outer]; [by exists fs|].
  rewrite sprintf_02X_fits by lia. cbn [mbind outcome_bind].
  destruct (mkdir_or_exists_total fs (pr_02X i) Hf Hc) as (fs1 & Hm & He1 & Ho1). rewrite Hm. cbn [negb Z.eqb].
  destruct (mkdir_or_exists_spec e _ _ _ _ Hm) as [_ Hin]. specialize (Hin eq_refl). rewrite (proj2 He1).
  assert (dirs_free e fs1) as Hf1 by (by eapply dirs_free_ext). rewrite chdir_total by done. cbn [negb Z.eqb].
  set (fs2 := mk_dirs _ _ _). destruct (dir_map_inner_total sub fs2 0) as (fs3 & -> & He3 & Ho3); [done|cbn; by destruct (d_cwd fs)|lia|lia|].
  cbn [mbind outcome_bind negb Z.eqb]. rewrite (proj2 He3). cbn [d_cwd fs2]. rewrite removelast_last.
  assert (dirs_free e fs3) as Hf3 by (by eapply dirs_free_ext). assert (d_cwd fs ∈ d_dirs fs3) as Hd3 by (apply He3; cbn; by apply He1).
  rewrite chdir_total by done. cbn [negb Z.eqb]. set (fs4 := mk_dirs _ _ _).
  destruct (IH fs4 (i + 1)) as (fs5 & -> & He5 & Ho5); [done|done|done|lia|lia|lia|].
  exists fs5. split; [done|]. split; [split|].
  - destruct He1, He3, He5. cbn in *. set_solver.
  - by rewrite (proj2 He5).
  - rewrite Ho5. cbn. by rewrite Ho3, <- Ho1.
Qed.

Lemma block_dir_map_total sub fs mnt : dirs_free e fs -> 1 <= sub <= 2 ^ 28 -> (length mnt < MAX_PATH_SIZE)%nat -> [mnt] ∈ d_dirs fs ->
  exists fs', block_dir_map sub e fs mnt = Ret (fs', 0) /\ d_dirs fs ⊆ d_dirs fs' /\ d_other fs' = d_other fs.
Proof.
  intros Hf Hs Hl Hd. unfold block_dir_map. rewrite take_ge by (unfold MAX_PATH_SIZE in *; lia). unfold is_dir. rewrite bool_decide_true by done.
  cbn [negb Z.eqb]. rewrite chdir_total by done. cbn [negb Z.eqb]. rewrite u_wrap_id by (unfold is_u; lia).
  pose proof (length_pr_02X 7 (sub - 1) ltac:(lia) ltac:(cbn; lia)) as Hlen. rewrite (proj2 (Nat.ltb_lt _ _)) by lia. cbn [negb].
  destruct (path_exists _ _ && path_exists _ _); [by eexists|]. set (fs2 := mk_dirs _ _ _).
  destruct (dir_map_outer_total (Z.to_nat sub) (Z.to_nat sub) fs2 0) as (fs' & -> & He & Ho); [done|done|done|lia|lia|lia|].
  exists fs'. split_and!; [done|apply He|done].
Qed.
End DirsTotal.

(** The configured paths, and a block on each of them. *)
Definition mount_items (bm : bytes) : list bytes := chopPath <$> splitStr bm (chr ":") (get_split_str_count bm (chr ":")).
Definition fresh_mount (p : bytes) : block_st := mk_mount_block (pad MAX_PATH_SIZE p) 0 0 0 0 0.

Lemma mount_init_loop_total e sub m fs bs items : dirs_free (ie_dir e) fs -> 1 <= sub <= 2 ^ 28 -> (forall k, ie_malloc e k = true) ->
  mb_blocks m = Some ((Some <$> bs) ++ replicate (length items) None) ->
  Forall (fun p => (length (chopPath p) < MAX_PATH_SIZE)%nat /\ [chopPath p] ∈ d_dirs fs) items ->
  exists fs', mount_init_loop e sub fs m (Z.of_nat (length bs)) items =
    Ret (fs', inr (mk_mounts (Some (Some <$> bs ++ (fresh_mount <$> (chopPath <$> items)))) (block_total_size_mb m) (block_free_size_mb m) (mount_count m))).
Proof.
  intros Hf Hs Hmal. revert m fs bs Hf. induction items as [|p items IH]; intros m fs bs Hf Hm Hi; cbn [mount_init_loop].
  - exists fs. cbn [replicate length] in Hm. rewrite app_nil_r in Hm. cbn. rewrite app_nil_r, <- Hm. by destruct m.
  - apply Forall_cons in Hi as [ [Hl Hd] Hi]. unfold path_exists, is_dir. rewrite !bool_decide_true by (done || by left). cbn [negb].
    destruct (block_dir_map_total _ sub fs _ Hf Hs Hl Hd) as (fs1 & -> & Hsub & Ho). cbn [mbind outcome_bind negb Z.eqb].
    rewrite Hmal. cbn [negb]. unfold new_mount. change (replicate MAX_PATH_SIZE 0) with ([] ++ zeros MAX_PATH_SIZE).
    rewrite (buf_write_zeros [] MAX_PATH_SIZE (chopPath p) 0) by (cbn; lia). cbn [mbind outcome_bind app].
    unfold put_mount. rewrite Hm. cbn [get_or mbind outcome_bind length replicate].
    rewrite zinsert_Ret by (rewrite length_app, length_fmap; cbn; lia). cbn [mbind outcome_bind]. rewrite Nat2Z.id.
    rewrite insert_app_r_alt by (rewrite length_fmap; lia). rewrite length_fmap, Nat.sub_diag. cbn [insert list_insert].
    replace (Z.of_nat (length bs) + 1) with (Z.of_nat (length (bs ++ [fresh_mount (chopPath p)]))) by (rewrite length_app; cbn; lia).
    match goal with |- context [mount_init_loop e sub fs1 ?m1 _ items] =>
      destruct (IH m1 fs1 (bs ++ [fresh_mount (chopPath p)])) as (fs2 & Hr) end.
    + by eapply dirs_free_ext.
    + cbn [mb_blocks]. f_equal. rewrite fmap_app, <- app_assoc. cbn [fmap list_fmap app]. unfold fresh_mount, pad. by rewrite Nat.sub_0_r.
    + eapply Forall_impl; [exact Hi|]. intros q [H1 H2]. split; [done|]. by apply Hsub.
    + exists fs2. rewrite Hr. cbn [block_total_size_mb block_free_size_mb mount_count fmap list_fmap]. by rewrite <- app_assoc.
Qed.

(** A block whose counters are zero, with the sizes that [statvfs] reports. *)
Definition sized (vf : vfs) (i : nat) (b : block_st) : block_st :=
  match vf (Z.of_nat i) with
  | Some sb => set_stat_of (set_path_map b 0 0 0) (size_mb (f_blocks sb) (f_frsize sb)) (size_mb (f_bavail sb) (f_frsize sb))
  | None => b
  end.

Lemma mount_block_statvfs_loop_all vf m pre bs : mounted m (pre ++ bs) -> (forall i, is_Some (vf i)) ->
  exists m', mount_block_statvfs_loop (length bs) vf m (Z.of_nat (length pre)) = Ret (m', LFS_OK) /\
    mounted m' (pre ++ imap (fun i => sized vf (length pre + i)) bs).
Proof.
  intros Hm Hv. revert m pre Hm. induction bs as [|b bs IH]; intros m pre Hm; cbn [length mount_block_statvfs_loop].
  - by exists m.
  - assert (length pre < length (pre ++ b :: bs))%nat as Hi by (rewrite length_app; cbn; lia).
    destruct (get_mounted m _ (length pre) Hm Hi) as (b' & Hl & ->). cbn [mbind outcome_bind].
    rewrite lookup_app_r, Nat.sub_diag in Hl by lia. injection Hl as <-.
    destruct (put_mounted m _ (length pre) (set_path_map b 0 0 0) Hm Hi) as (m1 & -> & Hm1 & _). cbn [mbind outcome_bind].
    destruct (Hv (Z.of_nat (length pre))) as [sb Hsb]. rewrite Hsb. set (b2 := set_stat_of _ _ _).
    destruct (put_mounted m1 _ (length pre) b2 Hm1) as (m2 & -> & Hm2 & _); [by rewrite length_insert|]. cbn [mbind outcome_bind].
    rewrite list_insert_insert_eq, insert_app_r_alt, Nat.sub_diag in Hm2 by lia. cbn [insert list_insert] in Hm2.
    replace (Z.of_nat (length pre) + 1) with (Z.of_nat (length (pre ++ [b2]))) by (rewrite length_app; cbn; lia).
    match goal with |- context [mount_block_statvfs_loop _ _ ?m3 _] => destruct (IH m3 (pre ++ [b2])) as (m' & -> & Hm') end.
    { rewrite <- app_assoc. exact Hm2. }
    exists m'. split; [done|]. rewrite <- app_assoc in Hm'. cbn [app imap] in *.
    assert (sized vf (length pre + 0) b = b2) as -> by (unfold sized; by rewrite Nat.add_0_r, Hsb).
    erewrite imap_ext; [exact Hm'|]. intros k x _. cbn. rewrite length_app. cbn [length]. f_equal. lia.
Qed.

(** ** The counters on disk *)

Definition stat_valid (b : block_st) : Prop := lr_valid (stat_fields b).

Lemma stat_line_fits b : stat_valid b -> (length (stat_line b) < 256)%nat.
Proof.
  intros Hv. unfold stat_valid, stat_line, pr_record, pr_line, stat_fields in *. cbn [lr_valid stat_record lr_columns] in *.
  rewrite !Forall_cons in Hv. destruct Hv as (H1 & H2 & H3 & H4 & H5 & _). cbn [join].
  repeat (rewrite length_app; cbn [length]).
  pose proof (length_pr_dec 32 _ ltac:(lia) H1). pose proof (length_pr_dec 32 _ ltac:(lia) H2). pose proof (length_pr_dec 32 _ ltac:(lia) H3).
  pose proof (length_pr_dec 32 _ ltac:(lia) H4). pose proof (length_pr_dec 32 _ ltac:(lia) H5). lia.
Qed.

Lemma stat_write_all errno m pre bs file : mounted m (pre ++ bs) -> Forall stat_valid bs ->
  stat_write_loop (length bs) (fun _ n => n) errno m (Z.of_nat (length pre)) file = Ret (file ++ concat (stat_line <$> bs), LFS_OK).
Proof.
  intros Hm Hv. revert pre file Hm. induction Hv as [|b bs Hb _ IH]; intros pre file Hm; cbn [length stat_write_loop].
  - by rewrite app_nil_r.
  - destruct (get_mounted m _ (length pre) Hm) as (b' & Hl & ->); [rewrite length_app; cbn; lia|]. cbn [mbind outcome_bind].
    rewrite lookup_app_r, Nat.sub_diag in Hl by lia. injection Hl as <-.
    rewrite (proj2 (Nat.ltb_lt _ _)) by (by apply stat_line_fits). cbn [negb]. rewrite Z.eqb_refl, Nat2Z.id, firstn_all. cbn [negb].
    specialize (IH (pre ++ [b]) (file ++ stat_line b)). rewrite length_app, Nat2Z.inj_add, <- app_assoc in IH. cbn [length app] in IH.
    change (Z.of_nat 1) with 1 in IH. rewrite IH by done. cbn [fmap list_fmap concat]. by rewrite app_assoc.
Qed.

Lemma info_init_all fuel trim_ok m pre bs0 bs : mounted m (pre ++ bs0) -> length bs0 = length bs -> Forall stat_valid bs ->
  (length bs <= fuel)%nat ->
  exists m', info_init_loop fuel trim_ok m (Z.of_nat (length pre)) (concat (stat_line <$> bs)) = Ret m' /\
    mounted m' (pre ++ zip_with set_stat_fields bs0 (stat_fields <$> bs)).
Proof.
  intros Hm Hlen Hv. revert fuel m pre bs0 Hm Hlen. induction Hv as [|b bs Hb _ IH]; intros fuel m pre bs0 Hm Hlen Hf.
  - destruct bs0; [|done]. exists m. split; [by destruct fuel|done].
  - destruct bs0 as [|b0 bs0]; [done|]. destruct fuel as [|fuel]; [cbn in Hf; lia|]. cbn [fmap list_fmap concat info_init_loop].
    pose proof (lr_columns_ok _ Hb) as Hcols. pose proof (stat_line_fits b Hb) as Hfit. unfold stat_line at 1. unfold stat_line, pr_record in Hfit.
    unfold pr_record at 1. rewrite fgets_pr_line by done.
    destruct (cstr (pr_line _)) eqn:E; [by apply cstr_pr_line in E|]. clear E.
    change (pr_line (lr_columns (stat_fields b))) with (pr_record (stat_fields b)). rewrite read_pr_record by (done || cbn; lia).
    destruct (get_mounted m _ (length pre) Hm) as (b' & Hl & ->); [rewrite length_app; cbn; lia|]. cbn [mbind outcome_bind].
    rewrite lookup_app_r, Nat.sub_diag in Hl by lia. injection Hl as <-.
    destruct (put_mounted m _ (length pre) (set_stat_fields b0 (stat_fields b)) Hm) as (m1 & -> & Hm1 & _); [rewrite length_app; cbn; lia|].
    cbn [mbind outcome_bind]. rewrite insert_app_r_alt, Nat.sub_diag in Hm1 by lia. cbn in Hm1.
    destruct (IH fuel m1 (pre ++ [set_stat_fields b0 (stat_fields b)]) bs0) as (m' & Hr & Hm').
    + by rewrite <- app_assoc.
    + by injection Hlen.
    + cbn in Hf. lia.
    + exists m'. rewrite length_app, Nat2Z.inj_add in Hr. change (Z.of_nat (length [_])) with 1 in Hr. split; [done|].
      by rewrite <- app_assoc in Hm'.
Qed.

Lemma length_stat_lines bs : (length bs <= length (concat (stat_line <$> bs)))%nat.
Proof.
  induction bs as [|b bs IH]; [done|]. cbn [fmap list_fmap concat length]. rewrite length_app. unfold stat_line at 1, pr_record.
  destruct (pr_line_cons (lr_columns (stat_fields b))) as (c & r & ->). cbn [length]. lia.
Qed.

(** ** Theorems *)

Lemma mount_polling_inv maxf sub m bs i b : mounted m bs -> bs !! i = Some b -> path_ok maxf sub b -> maxf < 2 ^ 31 -> sub < 2 ^ 31 ->
  exists m' b' opt, __block_map_path_polling maxf sub m (Z.of_nat i) = Ret (m', (pre_path_map b', suf_path_map b'), opt) /\
    mounted m' (<[i := b']> bs) /\ path_ok maxf sub b' /\
    path_position maxf sub b' = (path_position maxf sub b + 1) mod (sub * sub * maxf) /\ mount_path b' = mount_path b.
Proof.
  intros Hm Hb Hok H1 H2. pose proof (lookup_lt_Some _ _ _ Hb) as Hi.
  destruct (get_mounted m bs i Hm Hi) as (b0 & Hb0 & Hg). assert (b0 = b) as -> by congruence. unfold __block_map_path_polling.
  rewrite Hg. cbn [mbind outcome_bind]. destruct (path_polling_locked maxf sub b _) as [b' opt] eqn:Hp.
  destruct (path_polling_step maxf sub b b' opt Hok H1 H2 Hp) as (H3 & H4 & H5).
  destruct (put_mounted m bs i b' Hm Hi) as (m' & -> & Hm' & _). cbn [mbind outcome_bind]. exists m', b', opt. done.
Qed.

(** [n] files for mount point [i], one after the other. *)
Fixpoint poll_files (n : nat) (maxf sub : Z) (m : block_mount) (i : Z) : outcome (block_mount * list (Z * Z)) :=
  match n with
  | O => Ret (m, [])
  | S n' =>
      '(m, d, _) ← __block_map_path_polling maxf sub m i;
      '(m, ds) ← poll_files n' maxf sub m i;
      Ret (m, d :: ds)
  end.

(** The directory of position [p]. *)
Definition position_dir (maxf sub p : Z) : Z * Z := (p / maxf / sub, (p / maxf) mod sub).

Lemma position_dir_ok maxf sub b : path_ok maxf sub b -> position_dir maxf sub (path_position maxf sub b) = (pre_path_map b, suf_path_map b).
Proof.
  intros (H1 & H2 & H3). unfold position_dir, path_position. rewrite Z.div_add_l, (Z.div_small (curr_path_map_file_count b)), Z.add_0_r by lia.
  rewrite Z.div_add_l, (Z.div_small (suf_path_map b)), Z.add_0_r by lia. f_equal. rewrite Z.add_comm, Z.mod_add, Z.mod_small by lia. done.
Qed.

(** C34. The counters of a mount point are one odometer: the [k]-th file from now on
    goes to the directory of position [p + k], positions being taken modulo the
    number of places of all directories; so a directory is filled with
    [block_max_file_count] files before the next one is used, and after the last
    directory the first one is used again. *)
Theorem directories_in_order n maxf sub m bs i b : mounted m bs -> bs !! i = Some b -> path_ok maxf sub b ->
  maxf < 2 ^ 31 -> sub < 2 ^ 31 ->
  exists m' b', poll_files n maxf sub m (Z.of_nat i) =
      Ret (m', (fun k => position_dir maxf sub ((path_position maxf sub b + k) mod (sub * sub * maxf))) <$> seqZ 1 (Z.of_nat n)) /\
    mounted m' (<[i := b']> bs) /\ path_ok maxf sub b' /\
    path_position maxf sub b' = (path_position maxf sub b + Z.of_nat n) mod (sub * sub * maxf).
Proof.
  intros Hm Hb Hok H1 H2. revert m bs b Hm Hb Hok. induction n as [|n IH]; intros m bs b Hm Hb Hok.
  - exists m, b. cbn [poll_files]. split_and!; [done|by rewrite list_insert_id|done|].
    rewrite Z.add_0_r, Z.mod_small; [done|by apply path_position_range].
  - destruct (mount_polling_inv maxf sub m bs i b Hm Hb Hok H1 H2) as (m1 & b1 & opt & Hr & Hm1 & Hok1 & Hp1 & _).
    pose proof (lookup_lt_Some _ _ _ Hb) as Hi.
    destruct (IH m1 _ b1 Hm1) as (m2 & b2 & Hr2 & Hm2 & Hok2 & Hp2); [by rewrite list_lookup_insert_eq|done|].
    exists m2, b2. cbn [poll_files]. rewrite Hr. cbn [mbind outcome_bind]. rewrite Hr2. cbn [mbind outcome_bind].
    assert (0 < sub * sub * maxf) as Hpos by (destruct Hok as (? & ? & ?); nia). split_and!.
    + do 2 f_equal. rewrite (seqZ_cons 1 (Z.of_nat (S n))) by lia. cbn [fmap list_fmap]. f_equal.
      * rewrite <- Hp1. by rewrite position_dir_ok.
      * replace (Z.pred (Z.of_nat (S n))) with (Z.of_nat n) by lia.
        replace (seqZ (Z.succ 1) (Z.of_nat n)) with (Z.add 1 <$> seqZ 1 (Z.of_nat n)) by (rewrite fmap_add_seqZ; f_equal; lia).
        rewrite <- list_fmap_compose. apply list_fmap_ext. intros _ k _. cbn. rewrite Hp1. f_equal.
        rewrite Zplus_mod_idemp_l. f_equal. lia.
    + by rewrite list_insert_insert_eq in Hm2.
    + done.
    + rewrite Hp2, Hp1, Zplus_mod_idemp_l. f_equal. lia.
Qed.

(** The counter is read before the lock is taken: when two uploads read it at the
    same time, the second update repeats the first, and one of the two files is
    not counted. *)
Theorem path_polling_race maxf sub b b1 o1 : curr_path_map_file_count b + 1 < maxf < 2 ^ 31 -> 0 <= curr_path_map_file_count b ->
  path_polling_locked maxf sub b (s32 (curr_path_map_file_count b + 1)) = (b1, o1) ->
  path_polling_locked maxf sub b1 (s32 (curr_path_map_file_count b + 1)) = (b1, o1).
Proof.
  intros H1 H2. unfold path_polling_locked. rewrite s32_small by lia. zcase (maxf <=? curr_path_map_file_count b + 1); [lia|].
  by intros [= <- <-].
Qed.

(** The choice of the mount point, branch by branch.  A file goes to its own
    mount point, [sfd] modulo their number, if there is room.  Otherwise the
    first other mount point with room is chosen, but when that is the last one
    the upload is refused; and when no mount point has room, the upload is
    accepted with the index it had before. *)
Theorem conn_mount_polling_spec vf ratio m bs sfd cur : mounted m bs -> bs <> [] -> 0 <= sfd ->
  let own := sfd mod Z.of_nat (length bs) in
  let last := Z.of_nat (length bs) - 1 in
  exists m' bs' i r, __conn_mount_polling vf ratio m sfd cur = Ret (m', i, r) /\ mounted m' bs' /\ path_map <$> bs' = path_map <$> bs /\
    if has_room vf ratio own then i = own /\ r = LFS_OK
    else match first_room vf ratio own 0 (length bs) with
         | Some j => i = j /\ has_room vf ratio j = true /\ r = (if j =? last then LFS_ERROR else LFS_OK)
         | None => i = cur /\ r = LFS_OK /\ forall k, 0 <= k <= last -> has_room vf ratio k = false
         end.
Proof.
  intros Hm Hne Hs own last. assert (0 < Z.of_nat (length bs)) as Hpos by (destruct bs; [done|cbn; lia]).
  unfold __conn_mount_polling. pose proof Hm as [_ Hc]. rewrite Hc, (proj2 (Z.eqb_neq _ 0)) by lia.
  rewrite Z.rem_mod_nonneg by lia. fold own. pose proof (Z.mod_pos_bound sfd (Z.of_nat (length bs)) Hpos) as Ho. fold own in Ho.
  destruct (reserve_check_room vf ratio m bs (Z.to_nat own) Hm) as (m1 & bs1 & Hr & Hm1 & Hp1); [lia|]. rewrite Z2Nat.id in Hr by lia.
  rewrite Hr. cbn [mbind outcome_bind]. destruct (has_room vf ratio own) eqn:Eo; [by exists m1, bs1, own, LFS_OK|].
  change (negb (-1 =? 0)) with true. cbv iota. assert (length bs1 = length bs) as Hl by (by rewrite <- (length_fmap path_map), Hp1, length_fmap).
  pose proof Hm1 as [_ Hc1]. rewrite Hc1, Nat2Z.id, Hl.
  destruct (polling_loop_room vf ratio own (length bs) m1 bs1 0 Hm1) as (m2 & bs2 & Hr2 & Hm2 & Hp2); [lia|]. change (Z.of_nat 0) with 0 in Hr2.
  rewrite Hr2, Hl. cbn [mbind outcome_bind]. pose proof Hm2 as [_ Hc2].
  assert (length bs2 = length bs) as Hl2 by (by rewrite <- (length_fmap path_map), Hp2, length_fmap). rewrite Hc2, Hl2.
  pose proof (first_room_spec vf ratio own 0 (length bs)) as Hf. exists m2, bs2.
  destruct (first_room vf ratio own 0 (length bs)) as [j|]; cbn [default from_option id].
  - destruct Hf as (Hj & _ & Hjr & _). rewrite (proj2 (Z.ltb_lt _ _)) by lia. exists j, (if j =? last then LFS_ERROR else LFS_OK).
    unfold last. split; [by destruct (j =? _)|]. split_and!; try done; congruence.
  - rewrite Z.ltb_irrefl, (proj2 (Z.eqb_neq _ _)) by lia. exists cur, LFS_OK. split_and!; try done; [congruence|].
    intros k Hk. destruct (decide (k = own)) as [->|]; [done|]. apply Hf; [unfold last in Hk; lia|done].
Qed.

(** The directory of a file exists: after [block_dir_map] has returned 0, even
    over failures of other directories and an interrupted earlier run, every
    directory that the counters of a block can name is there. *)
Theorem block_dir_map_complete e maxf sub fs mnt fs' b : 1 <= sub <= 2 ^ 32 -> (length mnt < MAX_PATH_SIZE)%nat ->
  (path_exists fs (sub_dir mnt 0 0) = true -> path_exists fs (sub_dir mnt (sub - 1) (sub - 1)) = true ->
     forall i j, 0 <= i < sub -> 0 <= j < sub -> sub_dir mnt i j ∈ d_dirs fs) ->
  block_dir_map sub e fs mnt = Ret (fs', 0) -> path_ok maxf sub b ->
  sub_dir mnt (pre_path_map b) (suf_path_map b) ∈ d_dirs fs'.
Proof. intros H1 H2 H3 H4 (H5 & H6 & _). by eapply block_dir_map_inv. Qed.

(** The first start of a data server: when every configured path is a directory,
    the paths are short enough and the system calls succeed, the mount points
    are the configured paths in their order, with counters at zero and the sizes
    of their file systems. *)
Theorem mount_block_map_init_fresh e sub bm fs m0 : ie_bin_errno e = 0 -> (forall k, ie_malloc e k = true) -> ie_mutex e = 0 ->
  dirs_free (ie_dir e) fs -> (forall i, is_Some (ie_vfs e i)) -> 1 <= sub <= 2 ^ 28 ->
  Forall (fun p => (length p < MAX_PATH_SIZE)%nat /\ [p] ∈ d_dirs fs) (mount_items bm) ->
  exists fs' m', mount_block_map_init e sub bm None fs m0 = Ret (fs', m', LFS_OK) /\
    mounted m' (imap (sized (ie_vfs e)) (fresh_mount <$> mount_items bm)).
Proof.
  intros Hbin Hmal Hmu Hfree Hvf Hsub Hit. unfold mount_block_map_init. rewrite Hbin, !Hmal. cbn [negb Z.eqb].
  set (n := get_split_str_count bm (chr ":")). assert (1 <= n) as Hn by apply count_pos.
  destruct (splitStr_spec bm (chr ":") n ltac:(lia)) as [_ Hlen]. fold n in Hlen. rewrite Z.min_id in Hlen. rewrite Hlen, Z.eqb_refl. cbn [negb].
  unfold mount_items in *. fold n in Hit |- *. set (items := splitStr bm (chr ":") n) in *.
  match goal with |- context [mount_init_loop e sub fs ?m 0 items] =>
    destruct (mount_init_loop_total e sub m fs [] items Hfree Hsub Hmal) as (fs' & Hr) end.
  { cbn [mb_blocks fmap list_fmap app]. do 2 f_equal. lia. }
  { by apply Forall_fmap in Hit. }
  cbn [length] in Hr. change (Z.of_nat 0) with 0 in Hr. rewrite Hr. cbn [mbind outcome_bind app]. rewrite Hmu. cbn [Z.eqb negb].
  unfold __mount_block_info_init, __mount_block_statvfs. cbn [mount_count block_total_size_mb block_free_size_mb].
  match goal with |- context [mount_block_statvfs_loop _ _ ?m _] =>
    destruct (mount_block_statvfs_loop_all (ie_vfs e) m [] (fresh_mount <$> (chopPath <$> items))) as (m' & Hs & Hm'); [|done|] end.
  { split; [done|]. cbn [mount_count app]. by rewrite !length_fmap. }
  rewrite !length_fmap in Hs. cbn [length] in Hs. replace (Z.to_nat n) with (length items) by lia. change (Z.of_nat 0) with 0 in Hs. rewrite Hs.
  cbn [mbind outcome_bind]. exists fs', m'. by split.
Qed.

(** The counters survive a restart: what [block_stat_flush] has written,
    [__mount_block_info_init] reads back into the mount points of the new
    process, which keep their paths. *)
Theorem block_stat_restart vf errno trim_ok m bs m0 bs0 file : mounted m bs -> Forall stat_valid bs ->
  mounted m0 bs0 -> length bs0 = length bs ->
  exists text m', block_stat_flush false 0 (fun _ n => n) errno m file = Ret (Some text, 0) /\
    __mount_block_info_init vf 0 trim_ok (Some text) m0 = Ret (m', 0) /\
    mounted m' (zip_with set_stat_fields bs0 (stat_fields <$> bs)).
Proof.
  intros Hm Hv Hm0 Hl. exists (concat (stat_line <$> bs)).
  destruct (info_init_all (length (concat (stat_line <$> bs))) trim_ok m0 [] bs0 bs Hm0 Hl Hv (length_stat_lines bs)) as (m' & Hr & Hm').
  exists m'. split_and!; [| |done].
  - unfold block_stat_flush, __mount_block_stat_write. change (negb (0 =? 0)) with false. cbv iota. pose proof Hm as [_ Hc].
    rewrite Hc, Nat2Z.id. change 0 with (Z.of_nat (length (@nil block_st))) at 1. by rewrite (stat_write_all errno m [] bs [] Hm Hv).
  - unfold __mount_block_info_init. change (negb (0 =? 0)) with false. cbv iota. cbn [length] in Hr. change (Z.of_nat 0) with 0 in Hr.
    by rewrite Hr.
Qed.

(** The timer callback, [k] times. *)
Fixpoint statistics_times (k : nat) (m : block_mount) : outcome block_mount :=
  match k with
  | O => Ret m
  | S k' => '(m, _) ← block_vfs_statistics false m; statistics_times k' m
  end.

Lemma s32_add a b : s32 (s32 a + b) = s32 (a + b).
Proof.
  assert (forall x y, x mod 2 ^ 32 = y mod 2 ^ 32 -> s32 x = s32 y) as Hc.
  { intros x y H. unfold s_wrap. f_equal. rewrite <- (Zplus_mod_idemp_l x), <- (Zplus_mod_idemp_l y). by rewrite H. }
  apply Hc. rewrite <- Zplus_mod_idemp_l, s_wrap_mod by lia. by rewrite Zplus_mod_idemp_l.
Qed.

Lemma statistics_loop_sum n m bs i : mounted m bs -> (i + n = length bs)%nat ->
  statistics_loop n m (Z.of_nat i) = Ret (mk_mounts (mb_blocks m)
    (if (n =? 0)%nat then block_total_size_mb m else s32 (block_total_size_mb m + foldr Z.add 0 (total_size_mb <$> drop i bs)))
    (if (n =? 0)%nat then block_free_size_mb m else s32 (block_free_size_mb m + foldr Z.add 0 (free_size_mb <$> drop i bs))) (mount_count m)).
Proof.
  revert m i. induction n as [|n IH]; intros m i Hm Hi; cbn [statistics_loop]; [by destruct m|].
  destruct (get_mounted m bs i Hm) as (b & Hb & ->); [lia|]. cbn [mbind outcome_bind].
  replace (Z.of_nat i + 1) with (Z.of_nat (S i)) by lia. rewrite IH by (done || lia). cbn [mb_blocks block_total_size_mb block_free_size_mb mount_count].
  rewrite (drop_S _ _ _ Hb). cbn [fmap list_fmap foldr Nat.eqb]. f_equal. destruct (n =? 0)%nat eqn:En.
  - apply Nat.eqb_eq in En. rewrite drop_ge by lia. cbn. by rewrite !Z.add_0_r.
  - by rewrite !s32_add, !Z.add_assoc.
Qed.

(** The totals a data server reports are not the sizes of its mount points: every
    tick of the statistics timer adds them once more, so that after [k] ticks the
    totals have grown by [k] times the sum, wrapped to 32 bits. *)
Theorem vfs_statistics_accumulate k m bs : mounted m bs -> bs <> [] -> is_s 32 (block_total_size_mb m) -> is_s 32 (block_free_size_mb m) ->
  statistics_times k m = Ret (mk_mounts (mb_blocks m)
    (s32 (block_total_size_mb m + Z.of_nat k * foldr Z.add 0 (total_size_mb <$> bs)))
    (s32 (block_free_size_mb m + Z.of_nat k * foldr Z.add 0 (free_size_mb <$> bs))) (mount_count m)).
Proof.
  intros Hm Hne. revert m Hm. induction k as [|k IH]; intros m Hm H1 H2; cbn [statistics_times].
  - rewrite !Z.add_0_r, !s_wrap_id by (done || lia). by destruct m.
  - unfold block_vfs_statistics. pose proof Hm as [Hb Hc]. rewrite Hc, Nat2Z.id.
    pose proof (statistics_loop_sum (length bs) m bs 0 Hm eq_refl) as Hs. change (Z.of_nat 0) with 0 in Hs. rewrite Hs.
    cbn [mbind outcome_bind drop]. rewrite (proj2 (Nat.eqb_neq (length bs) 0)) by (destruct bs; [done|cbn; lia]).
    rewrite IH; [|by split|by apply s_wrap_range|by apply s_wrap_range].
    cbn [mb_blocks block_total_size_mb block_free_size_mb mount_count]. rewrite !s32_add, drop_0, Nat2Z.inj_succ, Hc. f_equal.
    f_equal; f_equal; ring.
Qed.

(** ** Examples: two mount points *)

Definition demo_blocks : list block_st :=
  [mk_mount_block (pad MAX_PATH_SIZE (str "/d1")) 0 1 2 1000 900; mk_mount_block (pad MAX_PATH_SIZE (str "/d2")) 0 0 0 2000 50].
Definition demo_mounts : block_mount := mk_mounts (Some (Some <$> demo_blocks)) 3000 950 2.
(** Both file systems are full but for 1 of 1000 blocks of a megabyte. *)
Definition demo_vfs : vfs := fun _ => Some (mk_statvfs 1000 (1024 * 1024) 1).
Definition demo_dirs : dirs := mk_dirs {[ [str "/d1"]; [str "/d2"] ]} ∅ [].
Definition demo_init : init_env := mk_init_env 0 (fun _ => true) (fun _ => 0) 0 (mk_dir_env (fun _ => 0) (fun _ => 0)) demo_vfs 0 (fun _ _ => true).

Lemma demo_mounted : mounted demo_mounts demo_blocks.
Proof. done. Qed.

Lemma directories_in_order_witness : exists m' b', poll_files 4 3 2 demo_mounts 0 = Ret (m', [(1, 0); (1, 0); (1, 0); (1, 1)]) /\
  mounted m' (<[0%nat := b']> demo_blocks) /\ path_ok 3 2 b' /\ path_position 3 2 b' = 9.
Proof.
  destruct (directories_in_order 4 3 2 demo_mounts demo_blocks 0 (mk_mount_block (pad MAX_PATH_SIZE (str "/d1")) 0 1 2 1000 900)) as (m' & b' & H1 & H2 & H3 & H4);
    [done|done|unfold path_ok; cbn; lia|lia|lia|]. exists m', b'. by split_and!.
Defined.

Lemma path_polling_race_witness : let b := mk_mount_block [] 0 0 0 0 0 in
  path_polling_locked 3 2 (mk_mount_block [] 0 0 1 0 0) 1 = (mk_mount_block [] 0 0 1 0 0, false).
Proof. intros b. apply (path_polling_race 3 2 b); cbn; [lia|lia|done]. Defined.

Lemma conn_mount_polling_spec_witness : exists m' bs' i r,
  __conn_mount_polling demo_vfs (S754_finite false 13421773 (-27)) demo_mounts 4 (-1) = Ret (m', i, r) /\ mounted m' bs' /\ i = -1 /\ r = LFS_OK.
Proof.
  destruct (conn_mount_polling_spec demo_vfs (S754_finite false 13421773 (-27)) demo_mounts demo_blocks 4 (-1))
    as (m' & bs' & i & r & H1 & H2 & _ & H3); [done|done|lia|]. exists m', bs', i, r. vm_compute in H3. by destruct H3 as (-> & -> & _).
Defined.

Lemma block_dir_map_complete_witness : exists fs', block_dir_map 2 (ie_dir demo_init) demo_dirs (str "/d1") = Ret (fs', 0) /\
  sub_dir (str "/d1") 0 1 ∈ d_dirs fs'.
Proof.
  destruct (block_dir_map_total (ie_dir demo_init) 2 demo_dirs (str "/d1")) as (fs' & Hr & _); [by split_and!|lia|by apply Nat.ltb_lt|set_solver|].
  exists fs'. split; [exact Hr|].
  apply (block_dir_map_complete (ie_dir demo_init) 3 2 demo_dirs (str "/d1") fs' (mk_mount_block [] 0 1 2 0 0)); [lia|by apply Nat.ltb_lt| |exact Hr|unfold path_ok; cbn; lia].
  intros H. vm_compute in H. discriminate H.
Defined.

Lemma mount_block_map_init_fresh_witness : exists fs' m', mount_block_map_init demo_init 2 (str "/d1/:/d2") None demo_dirs (mk_mounts None 0 0 0) = Ret (fs', m', LFS_OK) /\
  mounted m' [mk_mount_block (pad MAX_PATH_SIZE (str "/d1")) 0 0 0 1000 1; mk_mount_block (pad MAX_PATH_SIZE (str "/d2")) 0 0 0 1000 1].
Proof.
  apply (mount_block_map_init_fresh demo_init 2 (str "/d1/:/d2") demo_dirs (mk_mounts None 0 0 0)); [done|done|done|by split_and!|by eexists|lia|].
  change (mount_items _) with [str "/d1"; str "/d2"]. rewrite !Forall_cons. split_and!; [by apply Nat.ltb_lt|set_solver|by apply Nat.ltb_lt|set_solver|constructor].
Defined.

Lemma block_stat_restart_witness : exists text m', block_stat_flush false 0 (fun _ n => n) 0 demo_mounts None = Ret (Some text, 0) /\
  __mount_block_info_init demo_vfs 0 (fun _ _ => true) (Some text) (mk_mounts (Some (Some <$> (fresh_mount <$> [str "/d1"; str "/d2"]))) 0 0 2) = Ret (m', 0) /\
  mounted m' demo_blocks.
Proof.
  set (m0 := mk_mounts _ 0 0 2). change demo_blocks with (zip_with set_stat_fields (fresh_mount <$> [str "/d1"; str "/d2"]) (stat_fields <$> demo_blocks)).
  apply (block_stat_restart demo_vfs 0 (fun _ _ => true) demo_mounts demo_blocks m0 (fresh_mount <$> [str "/d1"; str "/d2"]) None); [done| |done|done].
  repeat constructor; by cbn.
Defined.

Lemma vfs_statistics_accumulate_witness : statistics_times 3 demo_mounts = Ret (mk_mounts (mb_blocks demo_mounts) 12000 3800 2).
Proof. apply (vfs_statistics_accumulate 3 demo_mounts demo_blocks); [done|done|by cbn|by cbn]. Defined.
