(* ===== verification/DsBinlog.v ===== *)
(** * The binlog of the data server

    src/src/dataserver/ds_binlog.c: the log of the files a data server has
    created.  Records are lines; they are collected in a cache and appended to
    numbered files, and the replication threads read them back through a
    buffer, remembering how far they are in a mark file.  One [bdisk] stands
    for the directory of one log (bin or sync) together with the mark files;
    file [k] is the one whose name ends in [%03d] of [k]. *)
From S2P Require Import Prelude CString Lines TsConn DsBlock.
From Stdlib Require Import Sorted.

Definition BINLOG_CACHE_BUFFER_SIZE : Z := 16 * 1024.
Definition BINLOG_BUFFER_SIZE : Z := 64 * 1024.
Definition BINLOG_MAX_FILE_SIZE : Z := 1024 * 1024 * 1024.
Definition BINLOG_RECORD_SIZE : nat := 256.

(** [enum binlog_file_state] *)
Definition B_FILE_OK : Z := 0.
Definition B_FILE_ERROR : Z := 1.
Definition B_FILE_NODATA : Z := 2.
Definition B_FILE_END : Z := 3.

Record bdisk := mk_disk { bd_index : option bytes; bd_files : gmap Z bytes; bd_marks : gmap bytes bytes }.

Definition set_files (d : bdisk) (f : gmap Z bytes) : bdisk := mk_disk (bd_index d) f (bd_marks d).
Definition set_index (d : bdisk) (t : bytes) : bdisk := mk_disk (Some t) (bd_files d) (bd_marks d).
Definition set_mark (d : bdisk) (n t : bytes) : bdisk := mk_disk (bd_index d) (bd_files d) (<[n := t]> (bd_marks d)).

(** [open] with [O_CREAT | O_APPEND], and a [write] to it. *)
Definition file_of (d : bdisk) (k : Z) : bytes := default [] (bd_files d !! k).
Definition create (d : bdisk) (k : Z) : bdisk := set_files d (<[k := file_of d k]> (bd_files d)).
Definition append (d : bdisk) (k : Z) (t : bytes) : bdisk := set_files d (<[k := file_of d k ++ t]> (bd_files d)).

(** [struct binlog_ctx_st]; [binlog_fd] is the number of the file that is open,
    [binlog_wcache_buff] the first [binlog_wcache_buff_len] bytes of the cache. *)
Record binlog_ctx := mk_bctx {
  binlog_fd : option Z;
  curr_binlog_file_index : Z;
  binlog_file_size : Z;
  binlog_wcache_buff_len : Z;
  binlog_file_update_timestamp : Z;
  binlog_wcache_buff : option bytes
}.

Definition set_binlog_fd (b : binlog_ctx) (fd : option Z) : binlog_ctx :=
  mk_bctx fd (curr_binlog_file_index b) (binlog_file_size b) (binlog_wcache_buff_len b) (binlog_file_update_timestamp b) (binlog_wcache_buff b).
Definition set_binlog_index (b : binlog_ctx) (k : Z) : binlog_ctx :=
  mk_bctx (binlog_fd b) k (binlog_file_size b) (binlog_wcache_buff_len b) (binlog_file_update_timestamp b) (binlog_wcache_buff b).
Definition set_binlog_size (b : binlog_ctx) (n : Z) : binlog_ctx :=
  mk_bctx (binlog_fd b) (curr_binlog_file_index b) n (binlog_wcache_buff_len b) (binlog_file_update_timestamp b) (binlog_wcache_buff b).
Definition set_binlog_time (b : binlog_ctx) (t : Z) : binlog_ctx :=
  mk_bctx (binlog_fd b) (curr_binlog_file_index b) (binlog_file_size b) (binlog_wcache_buff_len b) t (binlog_wcache_buff b).
Definition set_binlog_cache (b : binlog_ctx) (c : option bytes) (n : Z) : binlog_ctx :=
  mk_bctx (binlog_fd b) (curr_binlog_file_index b) (binlog_file_size b) n (binlog_file_update_timestamp b) c.

(** What the system calls of one operation answer: [be_write n] is the result of
    writing [n] bytes. *)
Record binlog_env := mk_benv {
  be_write : Z -> Z;
  be_fsync : Z;
  be_time : Z;
  be_index_open : bool;
  be_index_write : Z -> Z;
  be_open : bool
}.

(** ** Writing *)

Definition __write_curr_binlog_file_index (e : binlog_env) (d : bdisk) (curr_index : Z) : bdisk * Z :=
  if negb (be_index_open e) then (d, LFS_ERROR)
  else
    let buff := pr_dec curr_index in
    let n := be_index_write e (zlen buff) in
    (set_index d (take (Z.to_nat n) buff), if negb (n =? zlen buff) then LFS_ERROR else LFS_OK).

Definition __open_new_binlog_file (open_ok : bool) (d : bdisk) (b : binlog_ctx) : bdisk * binlog_ctx * Z :=
  if open_ok then (create d (curr_binlog_file_index b), set_binlog_fd b (Some (curr_binlog_file_index b)), B_FILE_OK)
  else (d, set_binlog_fd b None, B_FILE_ERROR).

(** The part of [__binlog_flush] that starts a new file. *)
Definition binlog_rotate (e : binlog_env) (d : bdisk) (b : binlog_ctx) : bdisk * binlog_ctx * Z :=
  let '(d, ret) := __write_curr_binlog_file_index e d (s32 (curr_binlog_file_index b + 1)) in
  if ret =? 0 then
    let '(d, b, ret) := __open_new_binlog_file (be_open e) d (set_binlog_index b (s32 (curr_binlog_file_index b + 1))) in
    (d, set_binlog_size b 0, ret)
  else (d, set_binlog_size b 0, ret).

(** A [write] that is short or an [fsync] that fails leaves what has been
    written in the file and all of it in the cache. *)
Definition __binlog_flush (e : binlog_env) (d : bdisk) (b : binlog_ctx) : bdisk * binlog_ctx * Z :=
  let len := binlog_wcache_buff_len b in
  if len =? 0 then (d, b, LFS_OK)
  else match binlog_fd b, binlog_wcache_buff b with
  | Some k, Some buff =>
      let n := be_write e len in
      let d := append d k (take (Z.to_nat n) buff) in
      if negb (n =? len) then (d, b, LFS_ERROR)
      else if negb (be_fsync e =? 0) then (d, b, LFS_ERROR)
      else
        let b := set_binlog_time (set_binlog_size b (binlog_file_size b + len)) (be_time e) in
        let '(d, b, ret) := if BINLOG_MAX_FILE_SIZE <=? binlog_file_size b then binlog_rotate e d b else (d, b, LFS_OK) in
        (d, set_binlog_cache b (Some []) 0, ret)
  | _, _ => (d, b, LFS_ERROR)
  end.

(** [sprintf] to the end of the cache, and a flush when less than 256 bytes are
    left.  The result is that of [pthread_mutex_unlock]. *)
Definition binlog_write (unlock : Z) (e : binlog_env) (d : bdisk) (b : binlog_ctx) (line : bytes) : outcome (bdisk * binlog_ctx * Z) :=
  buff ← get_or NullDeref (binlog_wcache_buff b);
  if binlog_wcache_buff_len b + zlen line + 1 <=? BINLOG_CACHE_BUFFER_SIZE then
    let b := set_binlog_cache b (Some (buff ++ line)) (binlog_wcache_buff_len b + zlen line) in
    let '(d, b, _) := if BINLOG_CACHE_BUFFER_SIZE - binlog_wcache_buff_len b <? 256 then __binlog_flush e d b else (d, b, LFS_OK) in
    Ret (d, b, unlock)
  else Crash OutOfBounds.

Definition binlog_flush (e : binlog_env) (d : bdisk) (b : binlog_ctx) : bdisk * binlog_ctx * Z := __binlog_flush e d b.

Definition __binlog_lock_flush (e : binlog_env) (d : bdisk) (b : binlog_ctx) : bdisk * binlog_ctx * Z :=
  let '(d, b, _) := __binlog_flush e d b in (d, b, LFS_OK).

(** The mutex [binlog_thread_lock] is one for both logs; [lock] says that it is
    initialised.  Locking or destroying it when it is not is undefined.  (A context
    that was only zeroed has the descriptor 0, which is closed too; it has none
    here.) *)
Definition binlog_ctx_destroy (e : binlog_env) (lock : bool) (d : bdisk) (b : binlog_ctx) : outcome (bdisk * binlog_ctx * bool) :=
  '(d, b) ← match binlog_fd b with
            | Some _ => if negb lock then Crash UseAfterFree else let '(d, b, _) := __binlog_lock_flush e d b in Ret (d, set_binlog_fd b None)
            | None => Ret (d, b)
            end;
  match binlog_wcache_buff b with
  | Some _ => if negb lock then Crash UseAfterFree else Ret (d, set_binlog_cache b None (binlog_wcache_buff_len b), false)
  | None => Ret (d, b, lock)
  end.

(** ** Starting *)

Record start_env := mk_senv {
  se_isDir : bool;
  se_mkdir : bool;
  se_index_open : bool;
  se_index_read : bool;
  se_malloc : bool;
  se_open : bool;
  se_lseek : bool;
  se_benv : binlog_env
}.

Definition zero_bctx : binlog_ctx := mk_bctx None 0 0 0 0 None.

(** The number of the current file; [inl] is the value returned on an error. *)
Definition start_index (e : start_env) (d : bdisk) : bdisk * (Z + Z) :=
  match (if se_index_open e then bd_index d else None) with
  | Some text =>
      if negb (se_index_read e) || (zlen text =? 0) then (d, inl LFS_ERROR)
      else
        let k := atoi (cstr (take 63 text)) in
        (d, if k <? 0 then inl LFS_ERROR else inr k)
  | None =>
      let '(d, ret) := __write_curr_binlog_file_index (se_benv e) d 0 in
      (d, if negb (ret =? 0) then inl ret else inr 0)
  end.

(** The two functions differ in the directory and the names of the files. *)
Definition binlog_start (e : start_env) (lock : bool) (d : bdisk) : outcome (bdisk * binlog_ctx * bool * Z) :=
  if negb (se_isDir e) && negb (se_mkdir e) then Ret (d, zero_bctx, lock, LFS_OK)
  else
    let '(d, r) := start_index e d in
    match r with
    | inl ret => Ret (d, zero_bctx, lock, ret)
    | inr k =>
        let b := set_binlog_index zero_bctx k in
        if negb (se_malloc e) then Ret (d, b, lock, LFS_ERROR)
        else
          let b := set_binlog_cache b (Some []) 0 in
          if negb (se_open e) then '(d, b, lock) ← binlog_ctx_destroy (se_benv e) lock d b; Ret (d, b, lock, LFS_ERROR)
          else
            let d := create d k in
            let b := set_binlog_fd b (Some k) in
            if negb (se_lseek e) then
              '(d, b, lock) ← binlog_ctx_destroy (se_benv e) lock d (set_binlog_size b (-1)); Ret (d, b, lock, LFS_ERROR)
            else Ret (d, set_binlog_size b (zlen (file_of d k)), lock, LFS_OK)
    end.

Definition local_binlog_init (e : start_env) (lock : bool) (d : bdisk) : outcome (bdisk * binlog_ctx * bool * Z) := binlog_start e lock d.
Definition remote_binlog_init (e : start_env) (lock : bool) (d : bdisk) : outcome (bdisk * binlog_ctx * bool * Z) := binlog_start e lock d.

(** [init_lock] is the result of [pthread_mutex_init]; the local and the remote
    log are in different directories. *)
Definition binlog_init (init_lock : Z) (el er : start_env) (dl dr : bdisk) : outcome ((bdisk * binlog_ctx) * (bdisk * binlog_ctx) * bool * Z) :=
  if negb (init_lock =? 0) then Ret ((dl, zero_bctx), (dr, zero_bctx), false, LFS_ERROR)
  else
    '(dl, bl, lock, ret) ← local_binlog_init el true dl;
    if negb (ret =? 0) then Ret ((dl, bl), (dr, zero_bctx), lock, ret)
    else '(dr, br, lock, ret) ← remote_binlog_init er lock dr; Ret ((dl, bl), (dr, br), lock, ret).

Definition binlog_destroy (el er : binlog_env) (lock : bool) (dl dr : bdisk) (bl br : binlog_ctx) : outcome ((bdisk * binlog_ctx) * (bdisk * binlog_ctx) * bool) :=
  '(dl, bl, lock) ← binlog_ctx_destroy el lock dl bl;
  '(dr, br, lock) ← binlog_ctx_destroy er lock dr br;
  Ret ((dl, bl), (dr, br), lock).

(** ** The mark file *)

(** [struct binlog_buff_st]: [bb_data] are the [length] bytes at [cbuff], which
    is [bb_pos] bytes after [buff]. *)
Record binlog_buff := mk_bbuff { bb_pos : Z; bb_end : bool; bb_data : bytes }.

(** [struct sync_ctx_st]; [b_fd] is the number of the file that is open and the
    offset of the descriptor. *)
Record sync_ctx := mk_sctx {
  f_mark : bytes;
  b_index : Z;
  b_fd : option (Z * Z);
  m_fd : Z;
  last_timestamp : Z;
  b_buff : binlog_buff;
  b_offset : Z;
  sync_count : Z;
  last_sync_count : Z
}.

Definition set_b_fd (s : sync_ctx) (fd : option (Z * Z)) : sync_ctx :=
  mk_sctx (f_mark s) (b_index s) fd (m_fd s) (last_timestamp s) (b_buff s) (b_offset s) (sync_count s) (last_sync_count s).
Definition set_b_buff (s : sync_ctx) (u : binlog_buff) : sync_ctx :=
  mk_sctx (f_mark s) (b_index s) (b_fd s) (m_fd s) (last_timestamp s) u (b_offset s) (sync_count s) (last_sync_count s).
Definition set_position (s : sync_ctx) (k o : Z) : sync_ctx :=
  mk_sctx (f_mark s) k (b_fd s) (m_fd s) (last_timestamp s) (b_buff s) o (sync_count s) (last_sync_count s).
Definition set_last_sync_count (s : sync_ctx) (n : Z) : sync_ctx :=
  mk_sctx (f_mark s) (b_index s) (b_fd s) (m_fd s) (last_timestamp s) (b_buff s) (b_offset s) (sync_count s) n.

(** The line of a mark file: [b_index], [last_timestamp], [b_offset] and
    [sync_count]. *)
Definition mark_fields (s : sync_ctx) : Z * Z * Z * Z := (b_index s, last_timestamp s, b_offset s, sync_count s).

Definition set_mark_fields (s : sync_ctx) (r : Z * Z * Z * Z) : sync_ctx :=
  let '(k, t, o, n) := r in mk_sctx (f_mark s) k (b_fd s) (m_fd s) t (b_buff s) o n n.

#[export] Instance mark_record : LineRecord (Z * Z * Z * Z).
Proof.
  refine {| lr_count := 4;
            lr_columns '(k, t, o, n) := [pr_dec k; pr_dec t; pr_dec o; pr_dec n];
            lr_read c := (atoi (c 0%nat), atol (c 1%nat), atol (c 2%nat), atol (c 3%nat));
            lr_valid '(k, t, o, n) := is_s 32 k /\ is_s 64 t /\ is_s 64 o /\ is_s 64 n |}.
  - by intros [ [ [k t] o] n].
  - intros [ [ [k t] o] n] _. repeat (apply Forall_cons; split); auto using pr_dec_column.
  - intros [ [ [k t] o] n] c (H1 & H2 & H3 & H4) Hc.
    rewrite (Hc 0%nat _ eq_refl), (Hc 1%nat _ eq_refl), (Hc 2%nat _ eq_refl), (Hc 3%nat _ eq_refl).
    by rewrite atoi_pr_int, !atol_pr_long.
Defined.

(** What the system calls of one mark file write answer. *)
Record mark_env := mk_menv { me_open : bool; me_write : Z -> Z; me_errno : Z }.

(** The file is opened with [O_TRUNC] when [m_fd] is negative; otherwise the
    descriptor that is written to has not been set. *)
Definition sync_mark_file_batdata_write (e : mark_env) (d : bdisk) (s : sync_ctx) : outcome (bdisk * sync_ctx * Z) :=
  if m_fd s <? 0 then
    if negb (me_open e) then Ret (d, s, LFS_ERROR)
    else
      let buff := pr_record (mark_fields s) in
      let n := me_write e (zlen buff) in
      Ret (set_mark d (f_mark s) (take (Z.to_nat n) buff), set_last_sync_count s (sync_count s),
           if negb (n =? zlen buff) then errno_or_eio (me_errno e) else LFS_OK)
  else Crash Uninitialised.

(** A file that cannot be opened is not an error. *)
Definition __mark_file_batdata_load (fopen_ok : bool) (trim_ok : nat -> bool) (d : bdisk) (s : sync_ctx) : outcome (sync_ctx * Z) :=
  match (if fopen_ok then bd_marks d !! f_mark s else None) with
  | None => Ret (s, LFS_OK)
  | Some text => s ← read_lines set_mark_fields BINLOG_RECORD_SIZE (length text) trim_ok s text; Ret (s, LFS_OK)
  end.

(** ** Opening a log for reading *)

(** The offset behind the records up to [last_sync_sequence]; [None] when a line
    has not three columns, and then nothing is assigned. *)
Fixpoint locate_loop (fuel : nat) (last_sync_sequence : Z) (offset : Z) (text : bytes) : outcome (option Z) :=
  match fgets BINLOG_RECORD_SIZE text with
  | None => Ret (Some offset)
  | Some (sline, rest) =>
      match fuel with
      | O => Crash Diverged
      | S f =>
          match cstr sline with
          | [] => locate_loop f last_sync_sequence offset rest
          | _ =>
              match columns 3 sline with
              | [c0; _; _] =>
                  if atol c0 <=? last_sync_sequence then locate_loop f last_sync_sequence (offset + zlen (cstr sline)) rest
                  else Ret (Some offset)
              | _ => Ret None
              end
          end
      end
  end.

(** Only the file [bindex] is searched.  [errno] is that of a failing [fopen]. *)
Definition __binlog_sync_offset_locate (fopen_ok : bool) (errno : Z) (d : bdisk) (last_sync_sequence : Z) (bindex boffset : Z) : outcome (Z * Z * Z) :=
  match (if fopen_ok then bd_files d !! bindex else None) with
  | None => Ret (bindex, boffset, errno)
  | Some text =>
      r ← locate_loop (length text) last_sync_sequence 0 text;
      Ret (bindex, default boffset r, LFS_OK)
  end.

Definition __open_setting_binlog (open_ok lseek_ok : bool) (errno : Z) (d : bdisk) (s : sync_ctx) : sync_ctx * Z :=
  match (if open_ok then bd_files d !! b_index s else None) with
  | None => (set_b_fd s None, errno)
  | Some _ =>
      if 0 <? b_offset s then
        if lseek_ok then (set_b_fd s (Some (b_index s, b_offset s)), LFS_OK) else (set_b_fd s None, errno)
      else (set_b_fd s (Some (b_index s, 0)), LFS_OK)
  end.

Record ctx_env := mk_cenv {
  ce_malloc : bool;
  ce_fopen : bool;
  ce_trim : nat -> bool;
  ce_mark : mark_env;
  ce_open : bool;
  ce_lseek : bool;
  ce_errno : Z
}.

Definition zero_sctx (mark : bytes) : sync_ctx := mk_sctx mark 0 None (-1) 0 (mk_bbuff 0 false []) 0 0 0.

(** The part of [struct block_brief_st] that is used. *)
Definition to_mark (ipaddr : bytes) (port : Z) : bytes := str "to_" ++ ipaddr ++ [58] ++ pr_dec port.
Definition from_mark (ipaddr : bytes) (port : Z) : bytes := str "from_" ++ ipaddr ++ [58] ++ pr_dec port.

(** [snprintf] to [f_mark]. *)
Definition MARK_FILENAME_SIZE : nat := 32.
Definition cut_mark (m : bytes) : bytes := take (MARK_FILENAME_SIZE - 1) m.

Definition asyncctx_init (e : ctx_env) (ipaddr : bytes) (port last_sync_sequence : Z) (d : bdisk) (b : binlog_ctx) : outcome (bdisk * sync_ctx * Z) :=
  if negb (ce_malloc e) then Ret (d, zero_sctx [], LFS_ERROR)
  else
    let s := zero_sctx (cut_mark (to_mark ipaddr port)) in
    '(d, s, ret) ←
      match bd_marks d !! f_mark s with
      | Some _ => '(s, ret) ← __mark_file_batdata_load (ce_fopen e) (ce_trim e) d s; Ret (d, s, ret)
      | None =>
          '(k, o, ret) ← __binlog_sync_offset_locate (ce_fopen e) (ce_errno e) d last_sync_sequence (curr_binlog_file_index b) 0;
          let s := set_position s k o in
          if negb (ret =? 0) then Ret (d, s, ret) else sync_mark_file_batdata_write (ce_mark e) d s
      end;
    if negb (ret =? 0) then Ret (d, s, ret)
    else let '(s, ret) := __open_setting_binlog (ce_open e) (ce_lseek e) (ce_errno e) d s in Ret (d, s, ret).

Definition fullsyncctx_init (e : ctx_env) (ipaddr : bytes) (port : Z) (d : bdisk) : outcome (bdisk * sync_ctx * Z) :=
  if negb (ce_malloc e) then Ret (d, zero_sctx [], LFS_ERROR)
  else
    let s := zero_sctx (cut_mark (from_mark ipaddr port)) in
    '(s, ret) ←
      match bd_marks d !! f_mark s with
      | Some _ => __mark_file_batdata_load (ce_fopen e) (ce_trim e) d s
      | None => Ret (s, LFS_OK)
      end;
    if negb (ret =? 0) then Ret (d, s, ret)
    else let '(s, ret) := __open_setting_binlog (ce_open e) (ce_lseek e) (ce_errno e) d s in Ret (d, s, ret).

Definition binlogsyncctx_destroy (s : sync_ctx) : sync_ctx :=
  mk_sctx (f_mark s) (b_index s) None (if 0 <=? m_fd s then -1 else m_fd s) (last_timestamp s) (mk_bbuff 0 (bb_end (b_buff s)) []) (b_offset s) (sync_count s) (last_sync_count s).

(** ** Reading records *)

(** [memcpy] to the start of the buffer, then [read] to fill it. *)
Definition __binlog_file_read (read_ok : bool) (d : bdisk) (b : binlog_ctx) (s : sync_ctx) : outcome (sync_ctx * Z) :=
  let u := b_buff s in
  if bb_end u && (zlen (bb_data u) =? 0) then Ret (s, B_FILE_END)
  else if negb (bb_pos u =? 0) && (0 <? zlen (bb_data u)) && (bb_pos u <? zlen (bb_data u)) then Crash Overlap
  else
    let u := mk_bbuff 0 (bb_end u) (bb_data u) in
    match b_fd s with
    | Some (k, o) =>
        if negb read_ok then Ret (set_b_buff s u, B_FILE_ERROR)
        else
          let got := take (Z.to_nat (BINLOG_BUFFER_SIZE - zlen (bb_data u))) (drop (Z.to_nat o) (file_of d k)) in
          if zlen got =? 0 then
            if b_index s =? curr_binlog_file_index b then Ret (set_b_buff s u, B_FILE_NODATA)
            else Ret (set_b_buff s (mk_bbuff 0 true (bb_data u)), B_FILE_END)
          else Ret (set_b_fd (set_b_buff s (mk_bbuff 0 (bb_end u) (bb_data u ++ got))) (Some (k, o + zlen got)), B_FILE_OK)
    | None => Ret (set_b_buff s u, B_FILE_ERROR)
    end.

(** The next line of the buffer; the second component is [record_length], the
    third the content of [record_buff] when it has been written. *)
Definition __binlog_record_read_do (s : sync_ctx) : sync_ctx * Z * Z * option bytes :=
  let u := b_buff s in
  if zlen (bb_data u) =? 0 then (s, B_FILE_NODATA, 0, None)
  else match strchr (bb_data u) 10 with
  | None => (s, B_FILE_NODATA, 0, None)
  | Some (pre, post) =>
      let record_length := zlen pre + 1 in
      if Z.of_nat BINLOG_RECORD_SIZE <=? record_length then (s, B_FILE_ERROR, record_length, None)
      else (set_b_buff s (mk_bbuff (bb_pos u + record_length) (bb_end u) post), B_FILE_OK, record_length, Some (cstr (pre ++ [10])))
  end.

Definition __binlog_record_read (read_ok : bool) (d : bdisk) (b : binlog_ctx) (s : sync_ctx) : outcome (sync_ctx * Z * Z * option bytes) :=
  let '(s, st, n, r) := __binlog_record_read_do s in
  if negb (st =? B_FILE_NODATA) then Ret (s, st, n, r)
  else
    '(s, st) ← __binlog_file_read read_ok d b s;
    if negb (st =? B_FILE_OK) then Ret (s, st, n, r) else Ret (__binlog_record_read_do s).

(** ** Parsing records *)

Definition LFS_FILE_ID_SIZE : nat := 256.
Definition LFS_FILE_NAME_SIZE : nat := 128.
Definition LFS_FILE_BLOCK_MAP_NAME_SIZE : nat := 256.
Definition LFS_FILE_ID_SEPERATOR : Z := chr "/".

(** [struct binlog_record_st], its character arrays as strings. *)
Record binlog_record := mk_brec {
  op_type : Z;
  f_map_name : bytes;
  f_block_map_name : bytes;
  f_id : bytes;
  f_id_length : Z;
  sequence : Z;
  mnt_block_index : Z
}.

Definition zero_brec : binlog_record := mk_brec 0 [] [] [] 0 0 0.

(** [LFS_SPLIT_BLOCK_INDEX_BY_FILE_ID]: [pblock_index] and
    [fid_map_name_buff]; [None] is the [return LFS_ERROR] of the macro.  When the
    third part is empty, [pblock_index] points behind its NUL. *)
Definition LFS_SPLIT_BLOCK_INDEX_BY_FILE_ID (file_id : bytes) : option (bytes * bytes) :=
  let fid_buff := take (LFS_FILE_ID_SIZE - 1) file_id in
  match strchr fid_buff LFS_FILE_ID_SEPERATOR with
  | None => None
  | Some (_, r) =>
      let fid_vmn_buff := take (LFS_FILE_NAME_SIZE - 1) r in
      match strchr fid_vmn_buff LFS_FILE_ID_SEPERATOR with
      | None => None
      | Some (_, r) =>
          let fid_mn_buff := take (LFS_FILE_NAME_SIZE - 1) r in
          match strchr fid_mn_buff LFS_FILE_ID_SEPERATOR with
          | None => None
          | Some (mn, name) => Some (match mn with [] => name | _ :: t => t end, name)
          end
      end
  end.

Definition __binlog_record_parse (m : block_mount) (record : bytes) : outcome (binlog_record * Z) :=
  match splitStr record BAT_DATA_SEPERATOR_SPLITSYMBOL 3 with
  | [c0; c1; c2] =>
      let len := zlen c2 - 1 in
      if Z.of_nat LFS_FILE_ID_SIZE - 1 <? u64 len
      then Ret (mk_brec (default 0 (head c1)) [] [] [] len (atol c0) 0, B_FILE_ERROR)
      else
        let fid := take (Z.to_nat len) c2 in
        match LFS_SPLIT_BLOCK_INDEX_BY_FILE_ID fid with
        | None => Ret (mk_brec (default 0 (head c1)) [] [] fid len (atol c0) 0, LFS_ERROR)
        | Some (pblock_index, name) =>
            let idx := atoi pblock_index in
            blk ← get_mount m idx;
            path ← c_string (mount_path blk);
            let full := path ++ [LFS_FILE_ID_SEPERATOR] ++ name in
            if (length full <? LFS_FILE_BLOCK_MAP_NAME_SIZE)%nat
            then Ret (mk_brec (default 0 (head c1)) name full fid len (atol c0) idx, B_FILE_OK)
            else Crash OutOfBounds
        end
  | _ => Ret (zero_brec, B_FILE_ERROR)
  end.

(** What the system calls of round [n] of [binlog_read] answer. *)
Record read_env := mk_renv { re_read : nat -> bool; re_open : nat -> bool; re_mark : nat -> mark_env }.

(** The [while] loop: the state, the result, [brecord_size] and the record. *)
Fixpoint binlog_read_loop (fuel : nat) (n : nat) (e : read_env) (d : bdisk) (b : binlog_ctx) (s : sync_ctx) :
    outcome (bdisk * binlog_ctx * sync_ctx * Z * Z * option bytes) :=
  match fuel with
  | O => Crash Diverged
  | S f =>
      '(s, st, size, record) ← __binlog_record_read (re_read e n) d b s;
      if st =? B_FILE_OK then Ret (d, b, s, B_FILE_OK, size, record)
      else if negb (st =? B_FILE_END) then Ret (d, b, s, st, size, None)
      else if curr_binlog_file_index b <? b_index s then Ret (d, b, s, B_FILE_ERROR, size, None)
      else if negb (zlen (bb_data (b_buff s)) =? 0) then Ret (d, b, s, B_FILE_ERROR, size, None)
      else
        let s := set_b_buff (set_position s (s32 (b_index s + 1)) 0) (mk_bbuff (bb_pos (b_buff s)) false (bb_data (b_buff s))) in
        let '(d, b, ret) := __open_new_binlog_file (re_open e n) d b in
        if negb (ret =? 0) then Ret (d, b, s, ret, size, None)
        else
          '(d, s, ret) ← sync_mark_file_batdata_write (re_mark e n) d s;
          if negb (ret =? 0) then Ret (d, b, s, B_FILE_ERROR, size, None)
          else binlog_read_loop f (S n) e d b s
  end.

(** The reader passes every file up to the current one, and one more. *)
Definition read_rounds (b : binlog_ctx) (s : sync_ctx) : nat := Z.to_nat (curr_binlog_file_index b - b_index s + 2).

Definition binlog_read (e : read_env) (m : block_mount) (d : bdisk) (b : binlog_ctx) (s : sync_ctx) :
    outcome (bdisk * binlog_ctx * sync_ctx * Z * Z * binlog_record) :=
  '(d, b, s, st, size, record) ← binlog_read_loop (read_rounds b s + 1) 0 e d b s;
  match record with
  | None => Ret (d, b, s, st, size, zero_brec)
  | Some r => '(r, ret) ← __binlog_record_parse m r; Ret (d, b, s, ret, size, r)
  end.

(** The line of a record, as [file_upload_done_callback] and [asyncfile_done_callback] write it. *)
Definition FILE_OP_TYPE_CREATE_FILE : Z := chr "C".
Definition record_line (timestamp : Z) (op : Z) (fid : bytes) : bytes :=
  take (BINLOG_RECORD_SIZE - 1) (pr_line [pr_dec timestamp; [op]; fid]).

(** ** The log as a list of lines *)

Fixpoint write_all (e : binlog_env) (d : bdisk) (b : binlog_ctx) (ls : list bytes) : outcome (bdisk * binlog_ctx) :=
  match ls with
  | [] => Ret (d, b)
  | l :: ls' => '(d, b, _) ← binlog_write 0 e d b l; write_all e d b ls'
  end.

(** Every call succeeds. *)
Record calls_ok (e : binlog_env) : Prop := {
  ok_write n : be_write e n = n;
  ok_fsync : be_fsync e = 0;
  ok_index_open : be_index_open e = true;
  ok_index_write n : be_index_write e n = n;
  ok_open : be_open e = true
}.

(** [chunks] are the lines of the files, [pending] those of the cache. *)
Record holds (d : bdisk) (b : binlog_ctx) (chunks : list (list bytes)) (pending : list bytes) : Prop := {
  ho_fd : binlog_fd b = Some (curr_binlog_file_index b);
  ho_index : curr_binlog_file_index b + 1 = zlen chunks /\ 0 < zlen chunks;
  ho_mark : bd_index d = Some (pr_dec (curr_binlog_file_index b));
  ho_files k : bd_files d !! k = @concat Z <$> zlookup chunks k;
  ho_size : binlog_file_size b = zlen (file_of d (curr_binlog_file_index b));
  ho_cache : binlog_wcache_buff b = Some (concat pending) /\ binlog_wcache_buff_len b = zlen (concat pending)
}.

(** The lines of the log, oldest first. *)
Definition stored (d : bdisk) (b : binlog_ctx) (lines : list bytes) : Prop :=
  exists chunks pending, holds d b chunks pending /\ lines = concat chunks ++ pending /\
    binlog_wcache_buff_len b <= BINLOG_CACHE_BUFFER_SIZE - 256.

Lemma holds_last d b chunks pending : holds d b chunks pending ->
  exists pre c, chunks = pre ++ [c] /\ curr_binlog_file_index b = zlen pre /\ file_of d (zlen pre) = concat c.
Proof.
  intros [_ [Hi Hp] _ Hf _ _]. destruct chunks as [|c pre _] using rev_ind; [unfold zlen in Hp; cbn in Hp; lia|].
  exists pre, c. rewrite zlen_app, zlen_cons, zlen_nil in Hi. split_and!; [done|lia|].
  unfold file_of. rewrite Hf, (zlookup_snoc pre c). rewrite decide_True by done. done.
Qed.

(** The lines of the cache behind those of the last file. *)
Lemma holds_moved d b pre c pending f : holds d b (pre ++ [c]) pending ->
  f = <[zlen pre := concat (c ++ pending)]> (bd_files d) ->
  holds (set_files d f) (set_binlog_cache (set_binlog_size b (binlog_file_size b + zlen (concat pending))) (Some []) 0) (pre ++ [c ++ pending]) [].
Proof.
  intros Hh ->. pose proof Hh as [H1 [H2 H2'] H3 H4 H5 _]. rewrite zlen_app, zlen_cons, zlen_nil in H2.
  assert (curr_binlog_file_index b = zlen pre) as Hc by lia. split; cbn; try done.
  - rewrite zlen_app, zlen_cons, zlen_nil. pose proof (zlen_pos pre). lia.
  - intros k. rewrite (zlookup_last pre c). case_decide as E; [subst k; by rewrite lookup_insert_eq|]. rewrite lookup_insert_ne by done. by rewrite H4.
  - rewrite H5, Hc. unfold file_of. cbn [bd_files set_files]. rewrite lookup_insert_eq, H4, zlookup_snoc, decide_True by done. cbn.
    by rewrite concat_app, zlen_app.
Qed.

Lemma holds_rotated d b chunks k : holds d b chunks [] -> k = curr_binlog_file_index b + 1 ->
  holds (create (set_index d (pr_dec k)) k) (set_binlog_size (set_binlog_fd (set_binlog_index b k) (Some k)) 0) (chunks ++ [ [] ]) [].
Proof.
  intros [H1 [H2 H2'] H3 H4 H5 H6] ->. split; cbn; try done.
  - rewrite zlen_app, zlen_cons, zlen_nil. lia.
  - intros k. rewrite H2, zlookup_snoc. case_decide as E.
    + subst k. rewrite lookup_insert_eq. unfold file_of. cbn. by rewrite H4, zlookup_out by lia.
    + rewrite lookup_insert_ne by done. apply H4.
  - unfold file_of. cbn. rewrite lookup_insert_eq. cbn. unfold file_of. cbn. by rewrite H4, H2, zlookup_out by lia.
Qed.

Section Writer.
Context (e : binlog_env) (He : calls_ok e).

(** A flush puts the cache behind the current file, and starts a new file when
    this one is full. *)
Lemma flush_holds d b chunks pending : holds d b chunks pending -> curr_binlog_file_index b + 1 < 2 ^ 31 ->
  exists d' b' chunks', __binlog_flush e d b = (d', b', LFS_OK) /\ holds d' b' chunks' [] /\ concat chunks' = concat chunks ++ pending /\
    curr_binlog_file_index b <= curr_binlog_file_index b' <= curr_binlog_file_index b + 1.
Proof.
  intros Hh Hmax. destruct (holds_last _ _ _ _ Hh) as (pre & c & -> & Hcur & Hfile). pose proof Hh as [H1 _ _ H4 _ [H6 H7] ].
  assert (concat (pre ++ [c ++ pending]) = concat (pre ++ [c]) ++ pending) as Hcat by (by rewrite !concat_snoc, app_assoc).
  assert (<[zlen pre := concat (c ++ pending)]> (bd_files d) = <[zlen pre := file_of d (zlen pre) ++ concat pending]> (bd_files d)) as Hins
    by (by rewrite Hfile, concat_app).
  pose proof (holds_moved d b pre c pending _ Hh (eq_sym Hins)) as Hm. pose proof (zlen_pos pre) as Hpos.
  unfold __binlog_flush. rewrite H7, Hcur in *. destruct (Z.eqb_spec (zlen (concat pending)) 0) as [Hz|Hz].
  - exists d, b, (pre ++ [c ++ pending]). split_and!; try done; [|lia|lia]. apply zlen_zero in Hz. rewrite Hz, app_nil_r in Hm.
    destruct d as [di df dm], b as [bf bi bs bl bt bb]. cbn in *. rewrite Hz in *. cbn in Hm. rewrite Z.add_0_r in Hm. subst.
    unfold file_of in Hm. cbn in Hm. rewrite H4, zlookup_snoc, decide_True in Hm by done. cbn in Hm.
    rewrite insert_id in Hm; [done|]. by rewrite H4, zlookup_snoc, decide_True by done.
  - rewrite H1, H6, (ok_write e He), Z.eqb_refl, (ok_fsync e He). cbn [negb Z.eqb]. rewrite take_zlen.
    set (b1 := set_binlog_time _ _). cbn [binlog_file_size set_binlog_time set_binlog_size b1].
    destruct (Z.leb_spec BINLOG_MAX_FILE_SIZE (binlog_file_size b + zlen (concat pending))) as [Hl|Hl].
    + unfold binlog_rotate, __write_curr_binlog_file_index. rewrite (ok_index_open e He), (ok_index_write e He), Z.eqb_refl. cbn [negb Z.eqb].
      rewrite take_zlen. unfold __open_new_binlog_file. rewrite (ok_open e He). cbn -[create append pr_dec].
      do 3 eexists. split; [reflexivity|]. rewrite Hcur. rewrite s_wrap_id by (unfold is_s; cbn; lia).
      pose proof (holds_rotated _ _ _ _ Hm eq_refl) as Hr. cbn [curr_binlog_file_index set_binlog_cache set_binlog_size] in Hr. rewrite Hcur in Hr.
      split; [|by split; [rewrite concat_snoc, app_nil_r; exact Hcat|cbn; lia] ].
      destruct Hr as [R1 R2 R3 R4 R5 R6]. split; try done.
    + do 3 eexists. split; [reflexivity|]. split; [|split; [exact Hcat|cbn; lia] ]. destruct Hm as [R1 R2 R3 R4 R5 R6]. split; done.
Qed.

Lemma write_stored u d b lines line : stored d b lines -> (length line < 256)%nat -> curr_binlog_file_index b + 1 < 2 ^ 31 ->
  exists d' b', binlog_write u e d b line = Ret (d', b', u) /\ stored d' b' (lines ++ [line]) /\
    curr_binlog_file_index b <= curr_binlog_file_index b' <= curr_binlog_file_index b + 1.
Proof.
  intros (chunks & pending & Hh & -> & Hr) Hl Hmax. pose proof Hh as [H1 H2 H3 H4 H5 [H6 H7] ]. unfold binlog_write. rewrite H6.
  cbn [get_or mbind outcome_bind]. destruct (Z.leb_spec (binlog_wcache_buff_len b + zlen line + 1) BINLOG_CACHE_BUFFER_SIZE) as [_|Hbad];
    [|unfold zlen in Hbad; lia].
  set (b1 := set_binlog_cache b _ _). assert (holds d b1 chunks (pending ++ [line])) as Hh1.
  { split; try done. cbn. by rewrite concat_snoc, zlen_app, H7. }
  rewrite <- app_assoc. destruct (Z.ltb_spec (BINLOG_CACHE_BUFFER_SIZE - binlog_wcache_buff_len b1) 256) as [_|Hn].
  - destruct (flush_holds d b1 chunks (pending ++ [line]) Hh1 Hmax) as (d' & b' & chunks' & -> & Hh' & Hcat & Hc). exists d', b'.
    change (curr_binlog_file_index b1) with (curr_binlog_file_index b) in Hc. split_and!; [done| |lia|lia]. exists chunks', []. destruct Hh' as [? ? ? ? ? [? Hlen] ]. split_and!; [done|by rewrite app_nil_r|].
    rewrite Hlen. done.
  - exists d, b1. split_and!; [done| |cbn; lia|cbn; lia]. exists chunks, (pending ++ [line]). split_and!; [done|done|lia].
Qed.

Lemma write_all_stored ls d b lines : stored d b lines -> Forall (fun l => (length l < 256)%nat) ls ->
  curr_binlog_file_index b + zlen ls < 2 ^ 31 ->
  exists d' b', write_all e d b ls = Ret (d', b') /\ stored d' b' (lines ++ ls) /\
    curr_binlog_file_index b <= curr_binlog_file_index b' <= curr_binlog_file_index b + zlen ls.
Proof.
  intros Hs Hl. revert d b lines Hs. induction Hl as [|l ls Hl _ IH]; intros d b lines Hs Hmax.
  - exists d, b. rewrite zlen_nil, app_nil_r. split_and!; [done|done|lia|lia].
  - rewrite zlen_cons in *. pose proof (zlen_pos ls). destruct (write_stored 0 d b lines l Hs Hl) as (d1 & b1 & Hr & Hs1 & Hc1); [lia|].
    cbn [write_all]. rewrite Hr. cbn [mbind outcome_bind].
    destruct (IH d1 b1 _ Hs1) as (d2 & b2 & -> & Hs2 & Hc2); [lia|]. exists d2, b2. rewrite <- app_assoc in Hs2. split_and!; [done|done|lia|lia].
Qed.
End Writer.

Lemma pr_dec_nonempty z : is_s 32 z -> pr_dec z <> [].
Proof. intros Hz E. pose proof (atoi_pr_int z Hz) as H. rewrite E in H. cbn in H. by subst z. Qed.

(** The files of the log, in the order of their numbers. *)
Definition files_text (d : bdisk) (b : binlog_ctx) : list bytes := file_of d <$> seqZ 0 (curr_binlog_file_index b + 1).

Lemma holds_files d b chunks pending : holds d b chunks pending -> files_text d b = (@concat Z) <$> chunks.
Proof.
  intros [_ [H2 _] _ H4 _ _]. unfold files_text. rewrite H2. apply list_eq. intros i. rewrite !list_lookup_fmap.
  destruct (decide (i < length chunks)%nat) as [Hi|Hi].
  - rewrite lookup_seqZ_lt by (unfold zlen; lia). cbn. unfold file_of. rewrite H4, Z.add_0_l, zlookup_nat.
    by destruct (lookup_lt_is_Some_2 _ _ Hi) as [c ->].
  - rewrite lookup_seqZ_ge by (unfold zlen; lia). by rewrite lookup_ge_None_2 by lia.
Qed.

(** ** Reading *)

(** A line that can be read back. *)
Definition line_ok (l : bytes) : Prop := exists body, l = body ++ [10] /\ lacks 10 body /\ no_nul body /\ (length l < BINLOG_RECORD_SIZE)%nat.

(** The lines [ls] are still to be read: those in the buffer, and then those of
    the file from the offset of the descriptor.  A line that the buffer cuts is
    at its very end. *)
Record reading (d : bdisk) (s : sync_ctx) (ls : list bytes) : Prop := {
  rd_fd : exists o, b_fd s = Some (b_index s, o) /\ 0 <= o <= zlen (file_of d (b_index s)) /\
    bb_data (b_buff s) ++ drop (Z.to_nat o) (file_of d (b_index s)) = concat ls;
  rd_room : 0 <= bb_pos (b_buff s) /\ bb_pos (b_buff s) + zlen (bb_data (b_buff s)) <= BINLOG_BUFFER_SIZE;
  rd_cut : (exists k, bb_data (b_buff s) = concat (take k ls)) \/ bb_pos (b_buff s) + zlen (bb_data (b_buff s)) = BINLOG_BUFFER_SIZE;
  rd_end : bb_end (b_buff s) = false
}.

Lemma newline_unique pre post body rest : lacks 10 pre -> lacks 10 body -> pre ++ 10 :: post = body ++ 10 :: rest -> pre = body /\ post = rest.
Proof.
  intros H1 H2 H3. pose proof (strchr_app pre 10 post H1) as H. rewrite H3, strchr_app in H by done. by injection H.
Qed.

(** A beginning of the lines without a line end is shorter than the first one. *)
Lemma no_newline_short data rest l ls : line_ok l -> lacks 10 data -> data ++ rest = concat (l :: ls) ->
  zlen data < zlen l /\ rest <> [].
Proof.
  intros (body & -> & Hb & _ & _) Hd H. cbn [concat] in H. rewrite <- app_assoc in H. cbn [app] in H.
  rewrite zlen_app, zlen_cons, zlen_nil. split.
  - destruct (Z.lt_ge_cases (zlen data) (zlen body + 1)) as [|Hge]; [lia|]. exfalso.
    assert (data !! length body = Some 10) as Hin.
    { apply (f_equal (lookup (length body))) in H. rewrite lookup_app_l in H by (unfold zlen in Hge; lia).
      rewrite H, lookup_app_r, Nat.sub_diag by lia. done. }
    by apply (Forall_lookup_1 _ _ _ _ Hd) in Hin.
  - intros ->. rewrite app_nil_r in H. subst data. apply Forall_app in Hd as [_ Hd]. apply Forall_cons in Hd as [Hd _]. done.
Qed.

Lemma line_length l : line_ok l -> 0 < zlen l < 256.
Proof. intros (body & -> & _ & _ & Hl). unfold zlen. unfold BINLOG_RECORD_SIZE in Hl. rewrite length_app in *. cbn [length] in *. lia. Qed.

(** What reading does not change. *)
Definition ctx_fields (s : sync_ctx) : bytes * Z * Z * Z * Z * Z * Z :=
  (f_mark s, b_index s, m_fd s, last_timestamp s, b_offset s, sync_count s, last_sync_count s).

(** The next record, when the buffer has all of it. *)
Lemma record_read_do_next d s l ls pre post : reading d s (l :: ls) -> line_ok l -> strchr (bb_data (b_buff s)) 10 = Some (pre, post) ->
  exists s', __binlog_record_read_do s = (s', B_FILE_OK, zlen l, Some l) /\ reading d s' ls /\ ctx_fields s' = ctx_fields s.
Proof.
  intros [ (o & Hfd & Ho & Hc) [Hp Hr] Hcut Hend] Hl Hs. pose proof Hl as (body & Hlb & Hb & Hn & Hlen).
  destruct (strchr_Some _ _ _ _ Hs) as [Hd Hpre]. unfold __binlog_record_read_do. rewrite Hs.
  assert (pre = body /\ post ++ drop (Z.to_nat o) (file_of d (b_index s)) = concat ls) as [-> Hpost].
  { apply newline_unique; [done|done|]. rewrite Hd in Hc. cbn [concat] in Hc. rewrite Hlb in Hc. rewrite <- !app_assoc in Hc. exact Hc. }
  assert (zlen body + 1 = zlen l) as El by (rewrite Hlb, zlen_app, zlen_cons, zlen_nil; lia).
  assert (zlen (bb_data (b_buff s)) = zlen l + zlen post) as Ed by (rewrite Hd, zlen_app, zlen_cons; lia).
  pose proof (line_length l Hl). pose proof (zlen_pos post).
  destruct (Z.eqb_spec (zlen (bb_data (b_buff s))) 0) as [E|_]; [lia|].
  destruct (Z.leb_spec (Z.of_nat BINLOG_RECORD_SIZE) (zlen body + 1)) as [E|_]; [unfold BINLOG_RECORD_SIZE in E; lia|].
  rewrite El. eexists. rewrite (cstr_id (body ++ [10])) by (apply Forall_app; split; [done|by repeat constructor]). rewrite <- Hlb.
  split; [reflexivity|]. split; [|done]. split; cbn.
  - exists o. split_and!; [done|apply Ho|apply Ho|done].
  - lia.
  - destruct Hcut as [ [k Hk]|Hk]; [left|right; lia]. destruct k as [|k]; [rewrite Hk in Hd; by destruct body|].
    exists k. rewrite Hd in Hk. cbn [take concat] in Hk. rewrite Hlb, <- app_assoc in Hk. cbn [app] in Hk.
    by apply app_inv_head in Hk as [= ->].
  - done.
Qed.

(** Filling the buffer brings the rest of a line. *)
Lemma file_read_next d b s l ls : reading d s (l :: ls) -> line_ok l -> strchr (bb_data (b_buff s)) 10 = None ->
  exists s' pre post, __binlog_file_read true d b s = Ret (s', B_FILE_OK) /\ reading d s' (l :: ls) /\ ctx_fields s' = ctx_fields s /\
    strchr (bb_data (b_buff s')) 10 = Some (pre, post).
Proof.
  intros [ (o & Hfd & Ho & Hc) [Hp Hr] Hcut Hend] Hl Hs. apply strchr_None in Hs. pose proof (line_length l Hl).
  destruct (no_newline_short _ _ _ _ Hl Hs Hc) as [Hshort Hrest]. unfold __binlog_file_read. rewrite Hend, Hfd. cbn [andb].
  assert (bb_data (b_buff s) = [] \/ bb_pos (b_buff s) + zlen (bb_data (b_buff s)) = BINLOG_BUFFER_SIZE) as Hcut'.
  { destruct Hcut as [ [k Hk]|Hk]; [|by right]. left. destruct k as [|k]; [by rewrite Hk|]. exfalso. pose proof Hl as (body & -> & _).
    rewrite Hk in Hs. cbn [take concat] in Hs. apply Forall_app in Hs as [Hs _]. apply Forall_app in Hs as [_ Hs].
    apply Forall_cons in Hs as [Hs _]. done. }
  destruct (negb (bb_pos (b_buff s) =? 0) && (0 <? zlen (bb_data (b_buff s))) && (bb_pos (b_buff s) <? zlen (bb_data (b_buff s)))) eqn:Eo.
  { apply andb_true_iff in Eo as [ [_ E1%Z.ltb_lt]%andb_true_iff E2%Z.ltb_lt]. destruct Hcut' as [Hn|Hk]; [rewrite Hn in E1; done|].
    unfold BINLOG_BUFFER_SIZE in Hk. lia. }
  cbn [negb]. set (rest := drop (Z.to_nat o) (file_of d (b_index s))) in *. cbn [bb_data].
  set (data := bb_data (b_buff s)) in *. set (room := Z.to_nat (BINLOG_BUFFER_SIZE - zlen data)).
  pose proof (zlen_pos data).
  assert (0 < zlen (take room rest)) as Hg.
  { unfold zlen. rewrite length_take. unfold room, BINLOG_BUFFER_SIZE. destruct rest; [done|]. cbn [length]. lia. }
  destruct (Z.eqb_spec (zlen (take room rest)) 0) as [E|_]; [lia|].
  assert (lacks 10 (data ++ take room rest) -> False) as Hnl.
  { intros Hlk. destruct (Nat.le_gt_cases (length rest) room) as [Hle|Hgt].
    - rewrite take_ge in Hlk by lia. destruct (no_newline_short (data ++ rest) [] l ls Hl Hlk) as [_ Hbad]; [by rewrite app_nil_r|done].
    - destruct (no_newline_short (data ++ take room rest) (drop room rest) l ls Hl Hlk) as [Hbad _].
      { by rewrite <- app_assoc, take_drop. }
      rewrite zlen_app in Hbad. unfold zlen at 2 in Hbad. rewrite length_take in Hbad. unfold room, BINLOG_BUFFER_SIZE in Hbad, Hgt. lia. }
  destruct (strchr (data ++ take room rest) 10) as [ [pre post]|] eqn:Es; [|apply strchr_None in Es; done].
  eexists _, pre, post. split; [reflexivity|]. split_and!; try done. split; cbn [set_b_fd set_b_buff b_fd b_buff b_index bb_data bb_pos bb_end].
  - exists (o + zlen (take room rest)). assert (zlen (take room rest) <= zlen (file_of d (b_index s)) - o) as Hro by (unfold rest, zlen in *; rewrite length_take, length_drop; lia).
    split_and!; [done|lia|lia|]. rewrite <- Hc. rewrite <- app_assoc. f_equal.
    rewrite Z2Nat.inj_add, <- drop_drop by lia. unfold zlen. rewrite Nat2Z.id. fold rest. rewrite length_take.
    transitivity (take room rest ++ drop room rest); [f_equal|apply take_drop].
    destruct (Nat.le_gt_cases room (length rest)); [by rewrite Nat.min_l by lia|]. by rewrite Nat.min_r, !drop_ge by lia.
  - split; [lia|]. rewrite zlen_app. unfold zlen at 2. rewrite length_take. unfold room. pose proof (zlen_pos data). lia.
  - destruct (Nat.le_gt_cases (length rest) room) as [Hle|Hgt].
    + left. exists (length (l :: ls)). rewrite firstn_all, take_ge by lia. done.
    + right. rewrite zlen_app. unfold zlen at 2. rewrite length_take. unfold room in *. unfold BINLOG_BUFFER_SIZE in *. lia.
  - done.
Qed.

Lemma record_read_next d b s l ls : reading d s (l :: ls) -> line_ok l ->
  exists s', __binlog_record_read true d b s = Ret (s', B_FILE_OK, zlen l, Some l) /\ reading d s' ls /\ ctx_fields s' = ctx_fields s.
Proof.
  intros Hr Hl. unfold __binlog_record_read. destruct (strchr (bb_data (b_buff s)) 10) as [ [pre post]|] eqn:Es.
  - destruct (record_read_do_next d s l ls pre post Hr Hl Es) as (s' & -> & Hr'). by exists s'.
  - assert (__binlog_record_read_do s = (s, B_FILE_NODATA, 0, None)) as ->.
    { unfold __binlog_record_read_do. rewrite Es. by destruct (_ =? 0). }
    change (negb (B_FILE_NODATA =? B_FILE_NODATA)) with false. cbv iota.
    destruct (file_read_next d b s l ls Hr Hl Es) as (s1 & pre & post & -> & Hr1 & Hi1 & Es1). cbn [mbind outcome_bind].
    change (negb (B_FILE_OK =? B_FILE_OK)) with false. cbv iota.
    destruct (record_read_do_next d s1 l ls pre post Hr1 Hl Es1) as (s' & -> & Hr' & Hi'). exists s'. split_and!; [done|done|congruence].
Qed.

(** At the end of the file. *)
Lemma record_read_end d b s : reading d s [] ->
  exists s', __binlog_record_read true d b s =
      Ret (s', if b_index s =? curr_binlog_file_index b then B_FILE_NODATA else B_FILE_END, 0, None) /\
    s' = set_b_buff s (mk_bbuff 0 (negb (b_index s =? curr_binlog_file_index b)) []).
Proof.
  intros [ (o & Hfd & Ho & Hc) _ _ Hend]. cbn [concat] in Hc. apply app_eq_nil in Hc as [Hd Hf].
  unfold __binlog_record_read, __binlog_record_read_do. rewrite Hd. change (zlen (@nil Z)) with 0. cbn [Z.eqb]. change (negb (B_FILE_NODATA =? B_FILE_NODATA)) with false. cbv iota.
  unfold __binlog_file_read. rewrite Hend, Hd, Hfd. change (zlen (@nil Z)) with 0. cbn [andb negb Z.ltb Z.compare]. rewrite andb_false_r.
  cbn [andb bb_data bb_end negb]. rewrite Hf, take_nil. change (zlen (@nil Z)) with 0. cbn [Z.eqb].
  destruct (b_index s =? curr_binlog_file_index b); cbn [mbind outcome_bind negb]; eexists; (split; [reflexivity|done]).
Qed.

Lemma reading_end d s : reading d s [] -> reading d (set_b_buff s (mk_bbuff 0 false [])) [].
Proof.
  intros [ (o & Hfd & Ho & Hc) _ _ _]. cbn [concat] in Hc. apply app_eq_nil in Hc as [_ Hf].
  split; cbn; [by exists o|by unfold BINLOG_BUFFER_SIZE|left; by exists O|done].
Qed.

(** The calls of the reader succeed. *)
Definition read_ok (e : read_env) : Prop := forall n, re_read e n = true.

Lemma binlog_read_next e m d b s l ls : read_ok e -> reading d s (l :: ls) -> line_ok l ->
  exists s', reading d s' ls /\ ctx_fields s' = ctx_fields s /\
    binlog_read e m d b s = ('(r, ret) ← __binlog_record_parse m l; Ret (d, b, s', ret, zlen l, r)).
Proof.
  intros He Hr Hl. unfold binlog_read. rewrite Nat.add_1_r. cbn [binlog_read_loop].
  destruct (record_read_next d b s l ls Hr Hl) as (s' & Hrd & Hr' & Hi). rewrite He, Hrd. cbn [mbind outcome_bind].
  change (B_FILE_OK =? B_FILE_OK) with true. cbv iota. by exists s'.
Qed.

Lemma binlog_read_nodata e m d b s : read_ok e -> reading d s [] -> b_index s = curr_binlog_file_index b ->
  binlog_read e m d b s = Ret (d, b, set_b_buff s (mk_bbuff 0 false []), B_FILE_NODATA, 0, zero_brec).
Proof.
  intros He Hr Hi. unfold binlog_read. rewrite Nat.add_1_r. cbn [binlog_read_loop].
  destruct (record_read_end d b s Hr) as (s' & Hrd & ->). rewrite Hi, Z.eqb_refl in Hrd. rewrite He, Hrd. cbn [mbind outcome_bind].
  change (B_FILE_NODATA =? B_FILE_OK) with false. change (B_FILE_NODATA =? B_FILE_END) with false. done.
Qed.

(** [n] calls of [binlog_read]: the results, the sizes and the records. *)
Fixpoint read_records (n : nat) (e : read_env) (m : block_mount) (d : bdisk) (b : binlog_ctx) (s : sync_ctx) :
    outcome (bdisk * binlog_ctx * sync_ctx * list (Z * Z * binlog_record)) :=
  match n with
  | O => Ret (d, b, s, [])
  | S n' =>
      '(d, b, s, ret, size, r) ← binlog_read e m d b s;
      '(d, b, s, rs) ← read_records n' e m d b s;
      Ret (d, b, s, (ret, size, r) :: rs)
  end.

(** [l] is the line of record [r]. *)
Definition line_of (m : block_mount) (l : bytes) (r : binlog_record) : Prop := line_ok l /\ __binlog_record_parse m l = Ret (r, B_FILE_OK).

Lemma read_records_all e m d b s ls rs : read_ok e -> reading d s ls -> Forall2 (line_of m) ls rs ->
  exists s', read_records (length rs) e m d b s = Ret (d, b, s', zip_with (fun l r => (B_FILE_OK, zlen l, r)) ls rs) /\
    reading d s' [] /\ ctx_fields s' = ctx_fields s.
Proof.
  intros He Hr H. revert s Hr. induction H as [|l r ls rs [Hl Hp] _ IH]; intros s Hr; cbn [length read_records zip_with].
  - by exists s.
  - destruct (binlog_read_next e m d b s l ls He Hr Hl) as (s1 & Hr1 & Hi1 & ->). rewrite Hp. cbn [mbind outcome_bind].
    destruct (IH s1 Hr1) as (s2 & -> & Hr2 & Hi2). exists s2. split_and!; [done|done|congruence].
Qed.

(** Opening a file at the start of one of its lines. *)
Lemma open_reading er d s ls k : bd_files d !! b_index s = Some (concat ls) -> b_offset s = zlen (concat (take k ls)) ->
  b_buff s = mk_bbuff 0 false [] ->
  exists s', __open_setting_binlog true true er d s = (s', LFS_OK) /\ reading d s' (drop k ls) /\ mark_fields s' = mark_fields s /\
    f_mark s' = f_mark s /\ m_fd s' = m_fd s /\ last_sync_count s' = last_sync_count s.
Proof.
  intros Hf Ho Hb. unfold __open_setting_binlog. rewrite Hf. pose proof (zlen_pos (concat (take k ls))) as Hpos.
  assert (drop (Z.to_nat (b_offset s)) (concat ls) = concat (drop k ls)) as Hd.
  { rewrite Ho. unfold zlen. rewrite Nat2Z.id. rewrite <- (take_drop k ls) at 2. rewrite concat_app. by rewrite drop_app_length. }
  destruct (Z.ltb_spec 0 (b_offset s)) as [Hlt|Hge].
  - eexists. split; [reflexivity|]. split; [|done]. split; cbn [set_b_fd b_fd b_buff b_index bb_data bb_pos bb_end]; rewrite ?Hb; cbn [bb_data bb_pos bb_end app].
    + exists (b_offset s). unfold file_of. rewrite Hf. cbn [default from_option id]. split_and!; [done|lia| |done]. rewrite Ho. rewrite <- (take_drop k ls) at 2. rewrite concat_app, zlen_app. pose proof (zlen_pos (concat (drop k ls))). lia.
    + by unfold BINLOG_BUFFER_SIZE.
    + left. by exists O.
    + done.
  - assert (b_offset s = 0) as E by lia. rewrite E in Hd. eexists. split; [reflexivity|]. split; [|done].
    split; cbn [set_b_fd b_fd b_buff b_index bb_data bb_pos bb_end]; rewrite ?Hb; cbn [bb_data bb_pos bb_end app].
    + exists 0. unfold file_of. rewrite Hf. cbn [default from_option id]. split_and!; [done|done|apply zlen_pos|done].
    + by unfold BINLOG_BUFFER_SIZE.
    + left. by exists O.
    + done.
Qed.

(** ** Finding the place to resume *)

(** How many lines at the beginning have a sequence up to [last]. *)
Fixpoint up_to (last : Z) (rs : list binlog_record) : nat :=
  match rs with
  | [] => O
  | r :: rs' => if sequence r <=? last then S (up_to last rs') else O
  end.

Lemma parse_columns m l r : __binlog_record_parse m l = Ret (r, B_FILE_OK) ->
  exists c0 c1 c2, splitStr l BAT_DATA_SEPERATOR_SPLITSYMBOL 3 = [c0; c1; c2] /\ atol c0 = sequence r.
Proof.
  unfold __binlog_record_parse. destruct (splitStr l _ 3) as [|c0 [|c1 [|c2 [|] ] ] ]; try by intros [=]. intros H. exists c0, c1, c2. split; [done|].
  destruct (_ <? _); [by injection H|]. destruct (LFS_SPLIT_BLOCK_INDEX_BY_FILE_ID _) as [ [pb name]|]; [|by injection H].
  apply bind_Ret in H as (blk & _ & H). apply bind_Ret in H as (path & _ & H). destruct (_ <? _)%nat; [|done]. by injection H as <-.
Qed.

Lemma locate_loop_all m fuel last off ls rs : Forall2 (line_of m) ls rs -> (length ls <= fuel)%nat ->
  locate_loop fuel last off (concat ls) = Ret (Some (off + zlen (concat (take (up_to last rs) ls)))).
Proof.
  intros H. revert fuel off. induction H as [|l r ls rs [Hl Hp] _ IH]; intros fuel off Hf.
  - cbn. rewrite Z.add_0_r. by destruct fuel.
  - destruct fuel as [|fuel]; [cbn in Hf; lia|]. pose proof Hl as (body & Hlb & Hb & Hn & Hlen). cbn [concat locate_loop up_to].
    assert (no_nul l) as Hnul by (subst l; apply Forall_app; split; [done|by repeat constructor]).
    assert (fgets BINLOG_RECORD_SIZE (l ++ concat ls) = Some (l, concat ls)) as ->.
    { subst l. rewrite <- app_assoc. cbn [app]. apply fgets_line; [done|]. rewrite length_app in Hlen. cbn in Hlen |- *. lia. }
    rewrite cstr_id by done. destruct l as [|z l']; [destruct body; done|]. set (l := z :: l') in *.
    destruct (parse_columns m l r Hp) as (c0 & c1 & c2 & Hcol & Hseq). unfold columns. rewrite cstr_id, Hcol, Hseq by done.
    destruct (Z.leb_spec (sequence r) last) as [Hle|Hgt].
    + rewrite IH by (cbn in Hf; lia). do 2 f_equal. cbn [take concat]. rewrite zlen_app. lia.
    + cbn [take concat]. by rewrite zlen_nil, Z.add_0_r.
Qed.

Lemma up_to_sorted last rs : StronglySorted Z.le (sequence <$> rs) ->
  drop (up_to last rs) rs = filter (fun r => last < sequence r) rs.
Proof.
  induction rs as [|r rs IH]; intros Hs; [done|]. cbn [up_to]. cbn [fmap list_fmap] in Hs. apply StronglySorted_inv in Hs as [Hs' Hall].
  destruct (Z.leb_spec (sequence r) last) as [Hle|Hgt]; cbn [drop].
  - rewrite filter_cons_False by lia. by apply IH.
  - symmetry. rewrite filter_cons_True by lia. f_equal. apply filter_all.
    change (list_fmap binlog_record Z sequence rs) with (sequence <$> rs) in Hall. rewrite Forall_fmap in Hall. eapply Forall_impl; [exact Hall|]. intros x Hx. cbn in Hx. lia.
Qed.

(** ** The mark file *)

Lemma mark_line_length r : lr_valid r -> (length (pr_record (A := Z * Z * Z * Z) r) < BINLOG_RECORD_SIZE)%nat.
Proof.
  destruct r as [ [ [k t] o] n]. intros (H1 & H2 & H3 & H4). unfold pr_record, pr_line. cbn [lr_columns mark_record join].
  repeat (rewrite length_app; cbn [length]).
  pose proof (length_pr_dec 32 _ ltac:(lia) H1). pose proof (length_pr_dec 64 _ ltac:(lia) H2). pose proof (length_pr_dec 64 _ ltac:(lia) H3).
  pose proof (length_pr_dec 64 _ ltac:(lia) H4). unfold BINLOG_RECORD_SIZE. lia.
Qed.

Lemma mark_load_saved trim_ok d s r : lr_valid r -> bd_marks d !! f_mark s = Some (pr_record (A := Z * Z * Z * Z) r) ->
  __mark_file_batdata_load true trim_ok d s = Ret (set_mark_fields s r, LFS_OK).
Proof.
  intros Hv Hm. unfold __mark_file_batdata_load. rewrite Hm, read_lines_one; [done|done|cbn; lia|by apply mark_line_length].
Qed.

(** ** Theorems: writing *)

(** C36. The binlog is an append-only list of lines: the lines written are put behind
    the old ones, whatever is in the cache and however many files are filled
    on the way; after a flush all of them are in the files, whole and in
    order. *)
Theorem binlog_keeps_lines e d b lines ls : calls_ok e -> stored d b lines -> Forall (fun l => (length l < 256)%nat) ls ->
  curr_binlog_file_index b + zlen ls + 1 < 2 ^ 31 ->
  exists d1 b1 d2 b2 chunks, write_all e d b ls = Ret (d1, b1) /\ stored d1 b1 (lines ++ ls) /\
    binlog_flush e d1 b1 = (d2, b2, LFS_OK) /\ files_text d2 b2 = (@concat Z) <$> chunks /\ concat chunks = lines ++ ls.
Proof.
  intros He Hs Hl Hmax. destruct (write_all_stored e He ls d b lines Hs Hl) as (d1 & b1 & Hw & Hs1 & Hc); [lia|].
  pose proof Hs1 as (chunks & pending & Hh & Hcat & _).
  destruct (flush_holds e He d1 b1 chunks pending Hh) as (d2 & b2 & chunks' & Hf & Hh2 & Hcat2 & _); [lia|].
  exists d1, b1, d2, b2, chunks'. split_and!; [done|done|done|by apply (holds_files _ _ _ _ Hh2)|congruence].
Qed.

(** What was written survives a restart: after [binlog_ctx_destroy], with a mutex
    that is initialised, and [local_binlog_init] of the next process the log holds the
    same lines, and is ready for more.  The mutex is destroyed. *)
Theorem binlog_restart e se d b lines : calls_ok e -> stored d b lines -> curr_binlog_file_index b + 2 < 2 ^ 31 ->
  se_isDir se = true -> se_index_open se = true -> se_index_read se = true -> se_malloc se = true -> se_open se = true -> se_lseek se = true ->
  exists d1 b1 d2 b2, binlog_ctx_destroy e true d b = Ret (d1, b1, false) /\ local_binlog_init se true d1 = Ret (d2, b2, true, LFS_OK) /\ stored d2 b2 lines.
Proof.
  intros He (chunks & pending & Hh & -> & _) Hmax S1 S2 S3 S4 S5 S6.
  destruct (flush_holds e He d b chunks pending Hh) as (d1 & b1 & chunks' & Hf & Hh1 & Hcat & Hc); [lia|].
  pose proof Hh as [H1 [H2 H2'] _ _ _ _]. unfold binlog_ctx_destroy, __binlog_lock_flush. rewrite H1, Hf. cbn [negb mbind outcome_bind].
  eexists _, _. pose proof Hh1 as [R1 [R2 R2'] R3 R4 R5 [R6 R7] ]. set (k := curr_binlog_file_index b1) in *.
  assert (0 <= k < 2 ^ 31) as Hk by lia. assert (is_s 32 k) as Hs by (unfold is_s; cbn; lia).
  pose proof (length_pr_dec 32 k ltac:(lia) Hs) as Hlen. exists (create d1 k), (mk_bctx (Some k) k (zlen (file_of d1 k)) 0 0 (Some [])).
  split; [change (binlog_wcache_buff (set_binlog_fd b1 None)) with (binlog_wcache_buff b1); rewrite R6; reflexivity|]. unfold local_binlog_init, binlog_start, start_index. rewrite S1, S2, R3, S3, S4, S5, S6. cbn [negb andb orb].
  rewrite take_ge by lia. rewrite cstr_id by (apply (pr_dec_chars (fun c => c <> 0)); [lia|unfold dec_digit; lia]).
  rewrite atoi_pr_int by done. destruct (Z.eqb_spec (zlen (pr_dec k)) 0) as [E|_]; [apply zlen_zero in E; exfalso; by apply (pr_dec_nonempty k Hs)|].
  destruct (Z.ltb_spec k 0) as [E|_]; [lia|]. assert (bd_files d1 !! k = Some (file_of d1 k)) as Hk1.
  { unfold file_of. rewrite R4. destruct (zlookup_is_Some chunks' k) as [c ->]; [unfold zlen in *; lia|done]. }
  assert (create d1 k = d1) as Hcr by (unfold create, set_files; rewrite insert_id by done; by destruct d1).
  rewrite Hcr. split; [reflexivity|]. exists chunks', []. split_and!; [|by rewrite app_nil_r|cbn; unfold BINLOG_CACHE_BUFFER_SIZE; lia].
  split; cbn; try done.
Qed.

(** When every [write] fails the cache is not emptied and is written past its
    end: once the lines exceed its size, the program has undefined behaviour. *)
Theorem failing_flush_overflows e d b buff ls : (forall n, be_write e n = -1) -> binlog_wcache_buff b = Some buff ->
  binlog_wcache_buff_len b = zlen buff -> BINLOG_CACHE_BUFFER_SIZE <= zlen buff + zlen (concat ls) -> zlen buff < BINLOG_CACHE_BUFFER_SIZE ->
  write_all e d b ls = Crash OutOfBounds.
Proof.
  intros He. revert d b buff. induction ls as [|l ls IH]; intros d b buff Hb Hlen Hbig Hsm; [change (zlen (concat [])) with 0 in Hbig; lia|].
  cbn [write_all]. unfold binlog_write. rewrite Hb, Hlen. cbn [get_or mbind outcome_bind].
  destruct (Z.leb_spec (zlen buff + zlen l + 1) BINLOG_CACHE_BUFFER_SIZE) as [Hle|]; [|done]. set (b1 := set_binlog_cache b _ _).
  assert (forall d' b', b' = b1 -> write_all e d' b' ls = Crash OutOfBounds) as Hgo.
  { intros d' b' ->. apply (IH _ _ (buff ++ l)); cbn; rewrite ?zlen_app; [done|done| |lia]. cbn [concat] in Hbig. rewrite zlen_app in Hbig. lia. }
  destruct (_ <? 256).
  - unfold __binlog_flush. rewrite He. cbn [binlog_wcache_buff_len set_binlog_cache b1 binlog_fd binlog_wcache_buff].
    pose proof (zlen_pos buff). pose proof (zlen_pos l).
    destruct (Z.eqb_spec (zlen buff + zlen l) 0) as [|]; [by apply Hgo|]. destruct (binlog_fd b); [|by apply Hgo].
    destruct (Z.eqb_spec (-1) (zlen buff + zlen l)) as [|]; [lia|]. cbn [negb]. by apply Hgo.
  - by apply Hgo.
Qed.

(** ** Theorems: reading *)

(** The calls that open a log for reading succeed. *)
Definition marks_ok (e : mark_env) : Prop := me_open e = true /\ forall n, me_write e n = n.

Record opens_ok (e : ctx_env) : Prop := {
  ok_malloc : ce_malloc e = true;
  ok_fopen : ce_fopen e = true;
  ok_mark : marks_ok (ce_mark e);
  ok_ce_open : ce_open e = true;
  ok_ce_lseek : ce_lseek e = true
}.

Lemma mark_write_ok e d s : marks_ok e -> m_fd s = -1 ->
  sync_mark_file_batdata_write e d s = Ret (set_mark d (f_mark s) (pr_record (mark_fields s)), set_last_sync_count s (sync_count s), LFS_OK).
Proof.
  intros [Ho Hw] Hm. unfold sync_mark_file_batdata_write. rewrite Hm, Ho. change (-1 <? 0) with true. cbv iota. cbn [negb].
  by rewrite Hw, Z.eqb_refl, take_zlen.
Qed.

(** A replication that starts anew reads exactly the records of the current file
    that are younger than what the other server has, in order, and then finds
    no more data. *)
Theorem async_starts_after ce m ip port last d b pre c rs : opens_ok ce -> holds d b (pre ++ [c]) [] ->
  bd_marks d !! cut_mark (to_mark ip port) = None -> Forall2 (line_of m) c rs -> StronglySorted Z.le (sequence <$> rs) ->
  exists d' s, asyncctx_init ce ip port last d b = Ret (d', s, LFS_OK) /\
    forall e, read_ok e -> exists s' results s'', read_records (length (filter (fun r => last < sequence r) rs)) e m d' b s = Ret (d', b, s', results) /\
      (fun x => (x.1.1, x.2)) <$> results = (fun r => (B_FILE_OK, r)) <$> filter (fun r => last < sequence r) rs /\
      binlog_read e m d' b s' = Ret (d', b, s'', B_FILE_NODATA, 0, zero_brec).
Proof.
  intros Hce Hh Hno Hrs Hsort. pose proof Hh as [_ [Hidx _] _ Hf _ _]. rewrite zlen_app, zlen_cons, zlen_nil in Hidx.
  assert (curr_binlog_file_index b = zlen pre) as Hcur by lia. set (k := up_to last rs).
  assert (bd_files d !! zlen pre = Some (concat c)) as Hfile by (by rewrite Hf, zlookup_snoc, decide_True by done).
  unfold asyncctx_init. rewrite (ok_malloc ce Hce), (ok_fopen ce Hce), (ok_ce_open ce Hce), (ok_ce_lseek ce Hce). cbn [negb f_mark zero_sctx]. rewrite Hno.
  unfold __binlog_sync_offset_locate. rewrite Hcur, Hfile.
  assert (length c <= length (concat c))%nat as Hlen.
  { clear -Hrs. induction Hrs as [|l r c rs [Hl _] _ IH]; [done|]. cbn [concat length]. rewrite length_app. pose proof (line_length l Hl). unfold zlen in *. lia. }
  rewrite (locate_loop_all m _ last 0 c rs Hrs Hlen). fold k. cbn [mbind outcome_bind default from_option id]. rewrite Z.add_0_l.
  change (negb (LFS_OK =? 0)) with false. cbv iota. set (s0 := set_position _ _ _).
  rewrite (mark_write_ok _ d s0 (ok_mark ce Hce) eq_refl). cbn [mbind outcome_bind]. change (negb (LFS_OK =? 0)) with false. cbv iota.
  set (d1 := set_mark _ _ _). set (s1 := set_last_sync_count _ _).
  destruct (open_reading (ce_errno ce) d1 s1 c k Hfile eq_refl eq_refl) as (s2 & Ho & Hr & Hmf & _). rewrite Ho. exists d1, s2. split; [done|].
  intros e He. assert (Forall2 (line_of m) (drop k c) (filter (fun r => last < sequence r) rs)) as Hd.
  { rewrite <- up_to_sorted by done. by apply Forall2_drop. }
  destruct (read_records_all e m d1 b s2 _ _ He Hr Hd) as (s' & Hrr & Hr' & Hi).
  do 3 eexists. split; [exact Hrr|]. split.
  - clear -Hd. induction Hd as [|l r ls rs' _ _ IH]; [done|]. cbn [zip_with fmap list_fmap]. by f_equal.
  - apply binlog_read_nodata; [done|done|]. injection Hi as _ -> _ _ _ _ _. rewrite Hcur. by injection Hmf.
Qed.

(** A context whose mark file exists starts at the place it names. *)
Lemma mark_reopen ce ip port last d b k t ls j c : opens_ok ce -> bd_marks d !! cut_mark (to_mark ip port) = Some (pr_record (k, t, zlen (concat (take j ls)), c)) ->
  lr_valid (k, t, zlen (concat (take j ls)), c) -> bd_files d !! k = Some (concat ls) ->
  exists s, asyncctx_init ce ip port last d b = Ret (d, s, LFS_OK) /\ mark_fields s = (k, t, zlen (concat (take j ls)), c) /\ reading d s (drop j ls) /\
    f_mark s = cut_mark (to_mark ip port) /\ m_fd s = -1 /\ last_sync_count s = c.
Proof.
  intros Hce Hmark Hv Hfile. set (r := (k, t, zlen (concat (take j ls)), c)) in *. set (s0 := set_mark_fields (zero_sctx (cut_mark (to_mark ip port))) r).
  destruct (open_reading (ce_errno ce) d s0 ls j) as (s2 & Ho & Hr & Hmf & Hrest); [done|done|done|].
  exists s2. split_and!; [|by rewrite Hmf|done|apply Hrest..].
  unfold asyncctx_init. rewrite (ok_malloc ce Hce), (ok_fopen ce Hce), (ok_ce_open ce Hce), (ok_ce_lseek ce Hce). cbn [negb f_mark zero_sctx].
  rewrite Hmark, (mark_load_saved _ d (zero_sctx (cut_mark (to_mark ip port))) r Hv Hmark). cbn [mbind outcome_bind].
  change (negb (LFS_OK =? 0)) with false. cbv iota. fold s0. by rewrite Ho.
Qed.

(** A replication that is interrupted resumes where its mark file says: the
    fields are read back as they were written, and the next records are those
    from that offset on. *)
Theorem mark_restart ce e ip port last d b s ls k : opens_ok ce -> marks_ok e -> m_fd s = -1 -> f_mark s = cut_mark (to_mark ip port) ->
  lr_valid (mark_fields s) -> bd_files d !! b_index s = Some (concat ls) -> b_offset s = zlen (concat (take k ls)) ->
  exists d1 s1 s2, sync_mark_file_batdata_write e d s = Ret (d1, s1, LFS_OK) /\
    asyncctx_init ce ip port last d1 b = Ret (d1, s2, LFS_OK) /\ mark_fields s2 = mark_fields s /\ reading d1 s2 (drop k ls).
Proof.
  intros Hce He Hm Hf Hv Hfile Hoff. exists (set_mark d (f_mark s) (pr_record (mark_fields s))), (set_last_sync_count s (sync_count s)).
  set (d1 := set_mark _ _ _). unfold mark_fields in Hv. rewrite Hoff in Hv.
  destruct (mark_reopen ce ip port last d1 b (b_index s) (last_timestamp s) ls k (sync_count s) Hce) as (s2 & H1 & H2 & H3 & _); [|done|done|].
  { cbn. rewrite Hf, lookup_insert_eq. unfold mark_fields. by rewrite Hoff. }
  exists s2. split_and!; [by apply mark_write_ok|done| |done]. rewrite H2. unfold mark_fields. by rewrite Hoff.
Qed.

(** The calls of a reader that passes over files succeed. *)
Definition passes_ok (e : read_env) : Prop := read_ok e /\ (forall n, re_open e n = true) /\ forall n, marks_ok (re_mark e n).

Lemma skip_loop e fuel n d b s o k : passes_ok e -> b_fd s = Some (k, o) -> drop (Z.to_nat o) (file_of d k) = [] ->
  bb_data (b_buff s) = [] -> bb_end (b_buff s) = false -> m_fd s = -1 -> is_Some (bd_files d !! curr_binlog_file_index b) ->
  0 <= b_index s <= curr_binlog_file_index b -> curr_binlog_file_index b < 2 ^ 31 - 1 -> curr_binlog_file_index b - b_index s < Z.of_nat fuel ->
  exists d' b' s', binlog_read_loop fuel n e d b s = Ret (d', b', s', B_FILE_NODATA, 0, None) /\ b_fd s' = b_fd s /\ b_index s' = curr_binlog_file_index b /\
    bd_files d' = bd_files d /\ (b_index s < curr_binlog_file_index b ->
      bd_marks d' !! f_mark s = Some (pr_record (curr_binlog_file_index b, last_timestamp s, 0, sync_count s))) /\
    (b_index s = curr_binlog_file_index b -> d' = d).
Proof.
  intros (He & Ho & Hmk). revert n d b s. induction fuel as [|fuel IH]; intros n d b s Hfd Hdrop Hdata Hend Hm Hcur Hi Hmax Hfuel; [lia|].
  cbn [binlog_read_loop]. rewrite He. unfold __binlog_record_read, __binlog_record_read_do. rewrite Hdata. change (zlen (@nil Z)) with 0. cbn [Z.eqb].
  change (negb (B_FILE_NODATA =? B_FILE_NODATA)) with false. cbv iota. unfold __binlog_file_read. rewrite Hend, Hdata, Hfd. change (zlen (@nil Z)) with 0.
  cbn [andb negb Z.ltb Z.compare]. rewrite andb_false_r. cbn [andb bb_data bb_end negb]. rewrite Hdrop, take_nil. change (zlen (@nil Z)) with 0. cbn [Z.eqb].
  destruct (Z.eqb_spec (b_index s) (curr_binlog_file_index b)) as [E|E]; cbn [mbind outcome_bind].
  - change (negb (B_FILE_NODATA =? B_FILE_OK)) with true. change (B_FILE_NODATA =? B_FILE_OK) with false. cbv iota. cbn [mbind outcome_bind].
    change (B_FILE_NODATA =? B_FILE_OK) with false. change (negb (B_FILE_NODATA =? B_FILE_END)) with true. cbv iota.
    eexists _, _, _. split; [reflexivity|]. cbn. split_and!; [done|done|done|lia|done].
  - change (negb (B_FILE_END =? B_FILE_OK)) with true. cbv iota. cbn [mbind outcome_bind].
    change (B_FILE_END =? B_FILE_OK) with false. change (negb (B_FILE_END =? B_FILE_END)) with false. cbv iota. cbn [b_index set_b_buff b_buff bb_data bb_pos].
    destruct (Z.ltb_spec (curr_binlog_file_index b) (b_index s)) as [|_]; [lia|]. change (zlen (@nil Z)) with 0. cbn [Z.eqb negb].
    unfold __open_new_binlog_file. rewrite Ho. change (negb (B_FILE_OK =? 0)) with false. cbv iota.
    rewrite s_wrap_id by (unfold is_s; cbn; lia). set (s1 := set_b_buff (set_position _ _ _) _).
    destruct Hcur as [f Hf]. assert (create d (curr_binlog_file_index b) = d) as ->.
    { unfold create, set_files, file_of. rewrite Hf. cbn. rewrite insert_id by done. by destruct d. }
    rewrite (mark_write_ok _ d s1 (Hmk n) Hm). cbn [mbind outcome_bind]. change (negb (LFS_OK =? 0)) with false. cbv iota.
    set (d1 := set_mark _ _ _). set (s2 := set_last_sync_count _ _). set (b1 := set_binlog_fd _ _).
    destruct (IH (S n) d1 b1 s2) as (d' & b' & s' & -> & Hfd' & Hi' & Hfiles & Hmark & Hsame); cbn; try done; [lia|lia|].
    exists d', b', s'. split_and!; [done|by rewrite Hfd'|done|done| |lia]. intros _. cbn [b_index s2 s1 set_last_sync_count set_b_buff set_position b1 curr_binlog_file_index set_binlog_fd f_mark last_timestamp sync_count] in Hmark.
    destruct (Z.lt_ge_cases (b_index s + 1) (curr_binlog_file_index b)) as [Hlt|Hge]; [by apply Hmark|].
    cbn in Hsame. rewrite Hsame by lia. assert (b_index s + 1 = curr_binlog_file_index b) as <- by lia. cbn. by rewrite lookup_insert_eq.
Qed.

(** When the log has moved on to a new file, the reader does not open it: it
    stays on the old descriptor, counts the number of the file up to the current
    one and says that there is no data.  The mark file then names the start of
    the current file, so that the files in between are never sent. *)
Theorem rotated_files_skipped e m d b s : passes_ok e -> reading d s [] -> m_fd s = -1 -> is_Some (bd_files d !! curr_binlog_file_index b) ->
  0 <= b_index s < curr_binlog_file_index b -> curr_binlog_file_index b < 2 ^ 31 - 1 ->
  exists d' b' s', binlog_read e m d b s = Ret (d', b', s', B_FILE_NODATA, 0, zero_brec) /\ b_fd s' = b_fd s /\ b_index s' = curr_binlog_file_index b /\
    bd_files d' = bd_files d /\ bd_marks d' !! f_mark s = Some (pr_record (curr_binlog_file_index b, last_timestamp s, 0, sync_count s)).
Proof.
  intros He [ (o & Hfd & Ho & Hc) _ _ Hend] Hm Hcur Hi Hmax. cbn [concat] in Hc. apply app_eq_nil in Hc as [Hd Hf].
  destruct (skip_loop e (read_rounds b s + 1) 0 d b s o (b_index s) He Hfd Hf Hd Hend Hm Hcur) as (d' & b' & s' & Hr & H1 & H2 & H3 & H4 & _);
    [lia|lia|unfold read_rounds; lia|].
  exists d', b', s'. split_and!; [|done|done|done|apply H4; lia]. unfold binlog_read. rewrite Hr. done.
Qed.

(** ** Theorems: records *)

(** [f_id] of a file, as file_metedata_pack makes it. *)
Definition file_id (group volume : bytes) (i : Z) (name : bytes) : bytes :=
  join LFS_FILE_ID_SEPERATOR [group; volume; chr "B" :: pr_02X i; name].

Lemma digit_cases (P : Z -> Prop) i : Forall P (seqZ 0 10) -> 0 <= i < 10 -> P i.
Proof. intros H Hi. rewrite Forall_forall in H. apply H, elem_of_seqZ. lia. Qed.

Lemma decimal_index i : 0 <= i < 10 -> atoi (pr_02X i) = i /\ lacks LFS_FILE_ID_SEPERATOR (pr_02X i) /\ no_nul (pr_02X i) /\ lacks 10 (pr_02X i).
Proof.
  apply (digit_cases (fun i => atoi (pr_02X i) = i /\ lacks LFS_FILE_ID_SEPERATOR (pr_02X i) /\ no_nul (pr_02X i) /\ lacks 10 (pr_02X i))).
  change (seqZ 0 10) with [0; 1; 2; 3; 4; 5; 6; 7; 8; 9]. repeat (apply Forall_cons; split; [split_and!; [done|by repeat constructor..]|]). constructor.
Qed.

Lemma split_file_id group volume i name : 0 <= i < 10 -> lacks LFS_FILE_ID_SEPERATOR group -> lacks LFS_FILE_ID_SEPERATOR volume ->
  (length (file_id group volume i name) < LFS_FILE_ID_SIZE)%nat -> (length (volume ++ LFS_FILE_ID_SEPERATOR :: (chr "B" :: pr_02X i) ++ LFS_FILE_ID_SEPERATOR :: name) < LFS_FILE_NAME_SIZE)%nat ->
  LFS_SPLIT_BLOCK_INDEX_BY_FILE_ID (file_id group volume i name) = Some (pr_02X i, name).
Proof.
  intros Hi Hg Hv Hl Hl2. unfold LFS_SPLIT_BLOCK_INDEX_BY_FILE_ID. rewrite take_ge by lia. unfold file_id. cbn [join].
  rewrite strchr_app by done. rewrite take_ge by lia. rewrite strchr_app by done.
  rewrite take_ge by (rewrite length_app in Hl2; cbn [length] in Hl2; lia).
  rewrite strchr_app; [done|]. constructor; [done|by apply decimal_index].
Qed.

Lemma split_record ts op r : op <> BAT_DATA_SEPERATOR_SPLITSYMBOL ->
  splitStr (join BAT_DATA_SEPERATOR_SPLITSYMBOL [pr_dec ts; [op]; r]) BAT_DATA_SEPERATOR_SPLITSYMBOL 3 = [pr_dec ts; [op]; r].
Proof.
  intros Hop. unfold splitStr. change (3 <=? 0) with false. cbv iota. change (Z.to_nat 3) with 3%nat. cbn [splitStr_loop join].
  rewrite strchr_app by (apply pr_dec_lacks; unfold BAT_DATA_SEPERATOR_SPLITSYMBOL, chr; cbn; lia).
  rewrite (strchr_app [op]) by (by constructor). done.
Qed.

(** The record of an upload is read back as it was written: sequence, operation,
    file id, mount point and the path of the file, for the first ten mount
    points. *)
Theorem record_roundtrip m bs i blk path ts op group volume name : mounted m bs -> bs !! Z.to_nat i = Some blk -> 0 <= i < 10 ->
  c_string (mount_path blk) = Ret path -> is_s 64 ts -> op <> BAT_DATA_SEPERATOR_SPLITSYMBOL /\ op <> 10 /\ op <> 0 ->
  (forall z, z = LFS_FILE_ID_SEPERATOR \/ z = 10 \/ z = 0 -> lacks z group /\ lacks z volume) -> lacks 10 name /\ no_nul name ->
  let fid := file_id group volume i name in
  (length (pr_line [pr_dec ts; [op]; fid]) < BINLOG_RECORD_SIZE)%nat ->
  (length (volume ++ LFS_FILE_ID_SEPERATOR :: (chr "B" :: pr_02X i) ++ LFS_FILE_ID_SEPERATOR :: name) < LFS_FILE_NAME_SIZE)%nat ->
  (length (path ++ [LFS_FILE_ID_SEPERATOR] ++ name) < LFS_FILE_BLOCK_MAP_NAME_SIZE)%nat ->
  line_of m (record_line ts op fid) (mk_brec op name (path ++ [LFS_FILE_ID_SEPERATOR] ++ name) fid (zlen fid) ts i).
Proof.
  intros Hm Hblk Hi Hpath Hts (Ho1 & Ho2 & Ho3) Hgv [Hn1 Hn2] fid Hl1 Hl2 Hl3. destruct (decimal_index i Hi) as (Ha & Hx1 & Hx2 & Hx3).
  assert (forall z, z = 10 \/ z = 0 -> lacks z name -> lacks z (pr_02X i) -> lacks z fid) as Hfid.
  { intros z Hz H1 H2. destruct (Hgv z) as [Hg Hv]; [tauto|]. unfold fid, file_id. cbn [join]. unfold lacks. repeat (rewrite Forall_app || rewrite Forall_cons).
    destruct Hz as [Hz|Hz]; subst z; split_and!; try done; unfold LFS_FILE_ID_SEPERATOR, chr; cbn; lia. }
  assert (lacks 10 fid /\ no_nul fid) as [Hf1 Hf2] by (split; apply Hfid; auto).
  unfold record_line. rewrite take_ge by lia. split.
  - exists (join BAT_DATA_SEPERATOR_SPLITSYMBOL [pr_dec ts; [op]; fid]). split_and!; [done| | |done].
    + apply (Forall_join (fun c => c <> 10)); [done|]. repeat (apply Forall_cons; split); [apply pr_dec_lacks; lia|done|constructor|done|constructor].
    + apply (Forall_join (fun c => c <> 0)); [done|]. repeat (apply Forall_cons; split); [|done|constructor|done|constructor].
      apply (pr_dec_chars (fun c => c <> 0)); [lia|]. unfold dec_digit. lia.
  - assert (pr_line [pr_dec ts; [op]; fid] = join BAT_DATA_SEPERATOR_SPLITSYMBOL [pr_dec ts; [op]; fid ++ [10] ]) as ->
      by (unfold pr_line; cbn [join app]; by rewrite <- app_assoc).
    unfold __binlog_record_parse. rewrite split_record by done.
    assert (length fid < LFS_FILE_ID_SIZE)%nat as Hfl.
    { unfold pr_line in Hl1. cbn [join] in Hl1. repeat (rewrite length_app in Hl1; cbn [length] in Hl1). unfold BINLOG_RECORD_SIZE in Hl1. unfold LFS_FILE_ID_SIZE. lia. }
    rewrite zlen_app, zlen_cons, zlen_nil. replace (zlen fid + (1 + 0) - 1) with (zlen fid) by lia.
    assert (0 <= zlen fid < 256) as Hz by (unfold zlen; unfold LFS_FILE_ID_SIZE in Hfl; lia). rewrite u_wrap_id by (unfold is_u; lia).
    destruct (Z.ltb_spec (Z.of_nat LFS_FILE_ID_SIZE - 1) (zlen fid)) as [Hbad|_]; [unfold zlen in Hbad; lia|].
    assert (take (Z.to_nat (zlen fid)) (fid ++ [10]) = fid) as -> by (unfold zlen; by rewrite Nat2Z.id, take_app_length). unfold fid at 1. destruct (Hgv LFS_FILE_ID_SEPERATOR) as [Hg Hv]; [by left|].
    rewrite split_file_id by done. rewrite Ha, atol_pr_long by done.
    destruct (get_mounted m bs (Z.to_nat i) Hm) as (blk' & Hb' & Hget); [by apply lookup_lt_Some in Hblk|]. rewrite Z2Nat.id in Hget by lia.
    rewrite Hget. cbn [mbind outcome_bind]. rewrite Hblk in Hb'. injection Hb' as <-. rewrite Hpath. cbn [mbind outcome_bind].
    by rewrite (proj2 (Nat.ltb_lt _ _)).
Qed.

(** The number of the mount point is written in hexadecimal and read in decimal:
    the record of a file on mount point 16 names mount point 10, and its path is
    there. *)
Theorem block_index_misread :
  let mount k := mk_mount_block (pad MAX_PATH_SIZE (str "/d" ++ pr_dec k)) 0 0 0 0 0 in
  let m := mk_mounts (Some ((fun k => Some (mount k)) <$> seqZ 0 17)) 0 0 17 in
  let fid := file_id (str "g1") (str "v1") 16 (str "00/01/x") in
  __binlog_record_parse m (record_line 5 FILE_OP_TYPE_CREATE_FILE fid) =
    Ret (mk_brec FILE_OP_TYPE_CREATE_FILE (str "00/01/x") (str "/d10/00/01/x") fid (zlen fid) 5 10, B_FILE_OK).
Proof. vm_compute. reflexivity. Qed.

(** ** Examples *)

Lemma holds_one c pending marks t :
  holds (mk_disk (Some (pr_dec 0)) {[0 := concat c]} marks) (mk_bctx (Some 0) 0 (zlen (concat c)) (zlen (concat pending)) t (Some (concat pending))) [c] pending.
Proof.
  split; cbn; try done.
  intros k. destruct (decide (k = 0)) as [->|Hk]; [done|]. rewrite lookup_singleton_ne by done.
  assert (zlookup [c] k = None) as -> by (apply zlookup_out; unfold zlen; cbn; lia). done.
Qed.

Definition demo_fid (n : string) : bytes := file_id (str "g1") (str "v1") 1 (str n).
Definition demo_line (ts : Z) (n : string) : bytes := record_line ts FILE_OP_TYPE_CREATE_FILE (demo_fid n).
Definition demo_rec (ts : Z) (n : string) : binlog_record :=
  mk_brec FILE_OP_TYPE_CREATE_FILE (str n) (str "/d2/" ++ str n) (demo_fid n) (zlen (demo_fid n)) ts 1.
Definition demo_benv : binlog_env := mk_benv (fun n => n) 0 1000 true (fun n => n) true.
Definition demo_chunk : list bytes := [demo_line 5 "00/00/a"; demo_line 7 "00/00/b"; demo_line 9 "00/00/c"].
Definition demo_disk : bdisk := mk_disk (Some (pr_dec 0)) {[0 := concat demo_chunk]} ∅.
Definition demo_bctx (pending : list bytes) : binlog_ctx :=
  mk_bctx (Some 0) 0 (zlen (concat demo_chunk)) (zlen (concat pending)) 0 (Some (concat pending)).

Lemma demo_calls_ok : calls_ok demo_benv.
Proof. by split. Qed.

Lemma demo_stored l : (length l < 256)%nat -> stored demo_disk (demo_bctx [l]) (demo_chunk ++ [l]).
Proof.
  intros Hl. exists [demo_chunk], [l]. split_and!; [apply holds_one|by cbn [concat]; rewrite app_nil_r|].
  cbn. unfold BINLOG_CACHE_BUFFER_SIZE, zlen. rewrite app_nil_r. lia.
Qed.

Lemma demo_line_of ts n : (ts = 5 /\ n = "00/00/a"%string) \/ (ts = 7 /\ n = "00/00/b"%string) \/ (ts = 9 /\ n = "00/00/c"%string) ->
  line_of demo_mounts (demo_line ts n) (demo_rec ts n).
Proof.
  intros Hc. assert (forall l, l = removelast l ++ [10] -> lacks 10 (removelast l) -> no_nul (removelast l) -> (length l <? BINLOG_RECORD_SIZE)%nat = true -> line_ok l) as Hl
    by (intros l H1 H2 H3 H4%Nat.ltb_lt; by exists (removelast l)).
  destruct Hc as [ [-> ->]|[ [-> ->]|[-> ->] ] ]; (split; [|vm_compute; reflexivity]); (apply Hl; vm_compute; [done| | |done]).
  all: repeat constructor; discriminate.
Qed.

Lemma demo_lines_of : Forall2 (line_of demo_mounts) demo_chunk [demo_rec 5 "00/00/a"; demo_rec 7 "00/00/b"; demo_rec 9 "00/00/c"].
Proof. repeat (constructor; [apply demo_line_of; tauto|]). constructor. Qed.

Lemma binlog_keeps_lines_witness : let l := demo_line 11 "00/00/d" in let ls := [demo_line 12 "00/00/e"; demo_line 13 "00/00/f"] in
  exists d1 b1 d2 b2 chunks, write_all demo_benv demo_disk (demo_bctx [l]) ls = Ret (d1, b1) /\ stored d1 b1 ((demo_chunk ++ [l]) ++ ls) /\
    binlog_flush demo_benv d1 b1 = (d2, b2, LFS_OK) /\ files_text d2 b2 = (@concat Z) <$> chunks /\ concat chunks = (demo_chunk ++ [l]) ++ ls.
Proof.
  intros l ls. apply (binlog_keeps_lines demo_benv demo_disk (demo_bctx [l]) (demo_chunk ++ [l]) ls demo_calls_ok); [| |by vm_compute].
  - apply demo_stored. by apply Nat.ltb_lt.
  - repeat (apply Forall_cons; split; [by apply Nat.ltb_lt|]). constructor.
Defined.

Lemma binlog_restart_witness : let l := demo_line 11 "00/00/d" in
  exists d1 b1 d2 b2, binlog_ctx_destroy demo_benv true demo_disk (demo_bctx [l]) = Ret (d1, b1, false) /\
    local_binlog_init (mk_senv true true true true true true true demo_benv) true d1 = Ret (d2, b2, true, LFS_OK) /\ stored d2 b2 (demo_chunk ++ [l]).
Proof.
  intros l. apply (binlog_restart demo_benv (mk_senv true true true true true true true demo_benv) demo_disk (demo_bctx [l]) (demo_chunk ++ [l]) demo_calls_ok);
    [apply demo_stored; by apply Nat.ltb_lt|by cbn|done..].
Defined.

Lemma failing_flush_overflows_witness :
  write_all (mk_benv (fun _ => -1) 0 0 true (fun n => n) true) demo_disk (demo_bctx []) (replicate 82 (replicate 200 65)) = Crash OutOfBounds.
Proof. apply (failing_flush_overflows _ demo_disk (demo_bctx []) []); [done|done|done|by vm_compute|by vm_compute]. Defined.

Definition demo_cenv : ctx_env := mk_cenv true true (fun _ => true) (mk_menv true (fun n => n) 0) true true 0.

Lemma demo_opens_ok : opens_ok demo_cenv.
Proof. by split. Qed.

Lemma async_starts_after_witness : exists d' s, asyncctx_init demo_cenv (str "10.0.0.2") 8000 6 demo_disk (demo_bctx []) = Ret (d', s, LFS_OK) /\
  forall e, read_ok e -> exists s' results s'', read_records 2 e demo_mounts d' (demo_bctx []) s = Ret (d', demo_bctx [], s', results) /\
    (fun x => (x.1.1, x.2)) <$> results = [(B_FILE_OK, demo_rec 7 "00/00/b"); (B_FILE_OK, demo_rec 9 "00/00/c")] /\
    binlog_read e demo_mounts d' (demo_bctx []) s' = Ret (d', demo_bctx [], s'', B_FILE_NODATA, 0, zero_brec).
Proof.
  apply (async_starts_after demo_cenv demo_mounts (str "10.0.0.2") 8000 6 demo_disk (demo_bctx []) [] demo_chunk
    [demo_rec 5 "00/00/a"; demo_rec 7 "00/00/b"; demo_rec 9 "00/00/c"] demo_opens_ok);
    [apply holds_one|done|exact demo_lines_of|]. cbn. repeat constructor; lia.
Defined.

Definition demo_sctx : sync_ctx := mk_sctx (cut_mark (to_mark (str "10.0.0.2") 8000)) 0 (Some (0, zlen (concat demo_chunk))) (-1) 1000
  (mk_bbuff 0 false []) (zlen (concat (take 1 demo_chunk))) 1 0.

Lemma mark_restart_witness : exists d1 s1 s2, sync_mark_file_batdata_write (mk_menv true (fun n => n) 0) demo_disk demo_sctx = Ret (d1, s1, LFS_OK) /\
  asyncctx_init demo_cenv (str "10.0.0.2") 8000 6 d1 (demo_bctx []) = Ret (d1, s2, LFS_OK) /\ mark_fields s2 = (0, 1000, 22, 1) /\
  reading d1 s2 [demo_line 7 "00/00/b"; demo_line 9 "00/00/c"].
Proof.
  apply (mark_restart demo_cenv (mk_menv true (fun n => n) 0) (str "10.0.0.2") 8000 6 demo_disk (demo_bctx []) demo_sctx demo_chunk 1 demo_opens_ok);
    [done|done|done| |done|done]. vm_compute. split_and!; discriminate || done.
Defined.

Lemma rotated_files_skipped_witness :
  let d := mk_disk (Some (pr_dec 2)) {[0 := concat demo_chunk; 1 := demo_line 10 "00/00/d"; 2 := []]} ∅ in
  let b := mk_bctx (Some 2) 2 0 0 0 (Some []) in
  exists d' b' s', binlog_read (mk_renv (fun _ => true) (fun _ => true) (fun _ => mk_menv true (fun n => n) 0)) demo_mounts d b demo_sctx = Ret (d', b', s', B_FILE_NODATA, 0, zero_brec) /\
    b_fd s' = Some (0, zlen (concat demo_chunk)) /\ b_index s' = 2 /\ bd_files d' = bd_files d /\
    bd_marks d' !! cut_mark (to_mark (str "10.0.0.2") 8000) = Some (str "2|1000|0|1" ++ [10]).
Proof.
  intros d b. apply (rotated_files_skipped _ demo_mounts d b demo_sctx); [by split_and!| |done|by eexists|done|done].
  split; cbn [b_buff demo_sctx bb_data bb_pos bb_end].
  - exists (zlen (concat demo_chunk)). split_and!; [done|done|vm_compute; discriminate|vm_compute; reflexivity].
  - by unfold BINLOG_BUFFER_SIZE.
  - left. by exists O.
  - done.
Defined.

Lemma record_roundtrip_witness : let fid := demo_fid "00/01/QQ" in
  line_of demo_mounts (record_line 5 FILE_OP_TYPE_CREATE_FILE fid) (mk_brec FILE_OP_TYPE_CREATE_FILE (str "00/01/QQ") (str "/d2" ++ [LFS_FILE_ID_SEPERATOR] ++ str "00/01/QQ") fid (zlen fid) 5 1).
Proof.
  apply (record_roundtrip demo_mounts demo_blocks 1 (mk_mount_block (pad MAX_PATH_SIZE (str "/d2")) 0 0 0 2000 50) (str "/d2") 5 FILE_OP_TYPE_CREATE_FILE (str "g1") (str "v1") (str "00/01/QQ"));
    [exact demo_mounted|done|lia|done|done|done| | |by apply Nat.ltb_lt|by apply Nat.ltb_lt|by apply Nat.ltb_lt].
  - intros z [->|[->| ->] ]; split; repeat constructor; discriminate.
  - split; repeat constructor; discriminate.
Defined.
