(* ===== verification/ClientIo.v ===== *)
(** * Blocking transfers over a socket

    [connectserver_nb], [senddata_nblock] and [recvdata_nblock] of
    src/src/common/sock_opt.c and src/src/dataserver/ds_client_network_io.c:
    requests to another server, and files sent to it and received from it.  The
    kernel is a list of events, one for every system call that may block;
    a call for which there is no event blocks for ever. *)
From S2P Require Import Prelude TsConn Protocol.

(** What [select] returns, what [send] or [recv] returns (with [errno]), and what
    [sendfile] returns. *)
Inductive sock_event :=
| EvSelect (res errno : Z)
| EvSend (n errno : Z)
| EvRecv (n errno : Z)
| EvSendfile (n errno : Z).

(** A connected socket: the stream that is to be received, what has been sent,
    and the events to come. *)
Record sock := mk_sock { sk_in : bytes; sk_out : bytes; sk_events : list sock_event }.

Definition errno_or_eintr (e : Z) : Z := if negb (e =? 0) then e else EINTR.

(** [EWOULDBLOCK] is [EAGAIN]. *)
Definition would_block (e : Z) : bool := e =? EAGAIN.

(** ** sock_opt.c *)

(** The [while] loop: [data] is what [p] points to, [left_bytes] long. *)
Fixpoint senddata_loop (evs : list sock_event) (inp out data : bytes) : outcome (sock * Z) :=
  match data with
  | [] => Ret (mk_sock inp out evs, 0)
  | _ =>
      match evs with
      | EvSelect res e :: EvSend n e' :: evs' =>
          if res <? 0 then Ret (mk_sock inp out (EvSend n e' :: evs'), errno_or_eintr e)
          else if res =? 0 then Ret (mk_sock inp out (EvSend n e' :: evs'), ETIMEDOUT)
          else if n <? 0 then
            if would_block e' then senddata_loop evs' inp out data
            else Ret (mk_sock inp out evs', errno_or_eintr e')
          else senddata_loop evs' inp (out ++ take (Z.to_nat n) data) (drop (Z.to_nat n) data)
      | [EvSelect res e] =>
          if res <? 0 then Ret (mk_sock inp out [], errno_or_eintr e)
          else if res =? 0 then Ret (mk_sock inp out [], ETIMEDOUT)
          else Crash Diverged
      | _ => Crash Diverged
      end
  end.

Definition senddata_nblock (s : sock) (data : bytes) : outcome (sock * Z) := senddata_loop (sk_events s) (sk_in s) (sk_out s) data.

(** The [while] loop: [got] is what has been stored; the result has [ret_code]
    and the bytes received, their number being [in_bytes]. *)
Fixpoint recvdata_loop (evs : list sock_event) (inp out : bytes) (left_bytes : Z) (got : bytes) : outcome (sock * Z * bytes) :=
  if left_bytes <=? 0 then Ret (mk_sock inp out evs, 0, got)
  else
    match evs with
    | EvRecv n e :: evs' =>
        let r := take (Z.to_nat (Z.min n left_bytes)) inp in
        if 0 <? zlen r then recvdata_loop evs' (drop (length r) inp) out (left_bytes - zlen r) (got ++ r)
        else if n <? 0 then
          if negb (would_block e) then Ret (mk_sock inp out evs', errno_or_eintr e, got)
          else
            match evs' with
            | EvSelect res e' :: evs'' =>
                if res <? 0 then Ret (mk_sock inp out evs'', errno_or_eintr e', got)
                else if res =? 0 then Ret (mk_sock inp out evs'', ETIMEDOUT, got)
                else recvdata_loop evs'' inp out left_bytes got
            | _ => Crash Diverged
            end
        else Ret (mk_sock inp out evs', ETIMEDOUT, got)
    | _ => Crash Diverged
    end.

Definition recvdata_nblock (s : sock) (size : Z) : outcome (sock * Z * bytes) := recvdata_loop (sk_events s) (sk_in s) (sk_out s) size [].

(** ** ds_client_network_io.c *)

Definition client_senddata (sfd : Z) (s : sock) (data : bytes) : outcome (sock * Z) :=
  if sfd <=? 0 then Ret (s, -1) else senddata_nblock s data.

(** The second result is [*in_bytes]. *)
Definition client_recvheader (s : sock) : outcome (sock * Z * Z) :=
  '(s, ret, got) ← recvdata_nblock s sizeof_protocol_header;
  if negb (ret =? 0) then Ret (s, ret, 0)
  else
    st ← get_or OutOfBounds (zlookup got 9);
    if negb (st =? PROTOCOL_RESP_STATUS_SUCCESS) then Ret (s, st, 0)
    else
      n ← header_body_len got;
      let n := s64 n in
      if n <? 0 then Ret (s, LFS_ERROR, 0) else Ret (s, LFS_OK, n).

(** [resp_buff] has [size] bytes. *)
Definition client_recvdata_nomalloc (size : Z) (s : sock) (resp_bytes : Z) : outcome (sock * Z * bytes) :=
  if resp_bytes <=? size then
    '(s, ret, got) ← recvdata_nblock s (s32 resp_bytes);
    Ret (s, ret, got)
  else Crash OutOfBounds.

(** The response in a new buffer, [None] when there is none. *)
Definition client_recvdata (malloc_ok : bool) (s : sock) : outcome (sock * Z * Z * option bytes) :=
  '(s, ret, n) ← client_recvheader s;
  if negb (ret =? 0) then Ret (s, ret, n, None)
  else if n =? 0 then Ret (s, LFS_ERROR, n, None)
  else if negb malloc_ok then Ret (s, LFS_ERROR, 0, None)
  else
    '(s, ret, got) ← recvdata_nblock s (s32 n);
    if negb (ret =? 0) then Ret (s, ret, n, None) else Ret (s, ret, n, Some got).

(** The loop of [client_sendfile]; [file] is the file from [offset] on. *)
Fixpoint sendfile_loop (evs : list sock_event) (inp out file : bytes) (remain_bytes : Z) : outcome (sock * Z) :=
  if remain_bytes <=? 0 then Ret (mk_sock inp out evs, LFS_OK)
  else
    match evs with
    | EvSendfile n e :: evs' =>
        let r := take (Z.to_nat (Z.min n remain_bytes)) file in
        if zlen r <=? 0 then Ret (mk_sock inp out evs', e)
        else sendfile_loop evs' inp (out ++ r) (drop (length r) file) (remain_bytes - zlen r)
    | _ => Crash Diverged
    end.

(** [se_open_errno] is that of a failing [open], [fcntl_*] those of the calls that
    make the socket blocking and non-blocking again. *)
Record sendfile_env := mk_sfenv { sf_getfl : option Z; sf_block : option Z; sf_restore : option Z; sf_open_errno : Z; sf_nonblock : bool }.

Definition client_sendfile (e : sendfile_env) (s : sock) (file : option bytes) (f_offset f_size : Z) : outcome (sock * Z) :=
  match file with
  | None => Ret (s, sf_open_errno e)
  | Some f =>
      match sf_getfl e with
      | Some er => Ret (s, er)
      | None =>
          match (if sf_nonblock e then sf_block e else None) with
          | Some er => Ret (s, er)
          | None =>
              '(s, ret) ← sendfile_loop (sk_events s) (sk_in s) (sk_out s) (drop (Z.to_nat f_offset) f) f_size;
              if negb (ret =? 0) then Ret (s, ret)
              else Ret (s, match (if sf_nonblock e then sf_restore e else None) with Some er => er | None => LFS_OK end)
          end
      end
  end.

Definition LFS_WRITE_BUFF_SIZE : Z := 256 * 1024.

(** [rf_write k n] is the result of the [k]-th [write], of [n] bytes. *)
Record recvfile_env := mk_rfenv { rf_open : bool; rf_errno : Z; rf_lseek : bool; rf_write : nat -> Z -> Z; rf_fsync : nat -> Z; rf_fsync_bytes : Z }.

(** The loop: [file] is what has been written from the offset on, [written_bytes] since the last
    [fsync].  On an error the file is removed.  Every round receives at least a
    byte, so that [size] rounds are enough. *)
Fixpoint recvfile_loop (fuel : nat) (e : recvfile_env) (k : nat) (s : sock) (file : bytes) (remain_bytes written_bytes ret : Z) : outcome (sock * option bytes * Z) :=
  if remain_bytes <=? 0 then Ret (s, Some file, ret)
  else
    match fuel with
    | O => Crash Diverged
    | S f =>
        let recv_bytes := if LFS_WRITE_BUFF_SIZE <? remain_bytes then LFS_WRITE_BUFF_SIZE else remain_bytes in
        '(s, ret, got) ← recvdata_nblock s recv_bytes;
        if negb (ret =? 0) then Ret (s, None, ret)
        else
          let n := rf_write e k recv_bytes in
          if negb (n =? recv_bytes) then Ret (s, None, LFS_ERROR)
          else
            let file := file ++ got in
            if 0 <? rf_fsync_bytes e then
              let w := s32 (written_bytes + recv_bytes) in
              if rf_fsync_bytes e <=? w then
                if negb (rf_fsync e k =? 0) then Ret (s, None, rf_fsync e k)
                else recvfile_loop f e (S k) s file (remain_bytes - recv_bytes) 0 (rf_fsync e k)
              else recvfile_loop f e (S k) s file (remain_bytes - recv_bytes) w ret
            else recvfile_loop f e (S k) s file (remain_bytes - recv_bytes) written_bytes ret
    end.

(** [write] at a position of a file: what was there is overwritten, a gap is
    filled with zeros. *)
Definition write_at (b : bytes) (pos : nat) (d : bytes) : bytes := take pos (b ++ zeros (pos - length b)) ++ d ++ drop (pos + length d) b.

(** Without an offset the file is created anew ([O_TRUNC]).  The result of [lseek]
    is stored in an [int], and returned when nothing is to be received. *)
Definition client_recvfile (e : recvfile_env) (s : sock) (old : option bytes) (f_offset f_size : Z) : outcome (sock * option bytes * Z) :=
  if negb (rf_open e) then Ret (s, old, rf_errno e)
  else
    let base := if f_offset <=? 0 then [] else default [] old in
    let ret := if rf_lseek e then s32 f_offset else -1 in
    if ret <? 0 then Ret (s, Some base, ret)
    else
      '(s, got, ret) ← recvfile_loop (Z.to_nat f_size) e 0 s [] f_size 0 ret;
      Ret (s, option_map (write_at base (Z.to_nat f_offset)) got, ret).

(** [connectserver_nb]: the answers of [inet_aton], [connect], [select] and
    [getsockopt]; a [Some] is the [errno] of a failing call. *)
Record connect_env := mk_connect { cn_aton : bool; cn_connect : option Z; cn_select : Z; cn_select_errno : Z; cn_getsockopt : option Z; cn_so_error : Z }.

Definition EINPROGRESS : Z := 115.

Definition connectserver_nb (e : connect_env) : Z :=
  if negb (cn_aton e) then EINVAL
  else match cn_connect e with
  | None => 0
  | Some er =>
      let result := if negb (er =? 0) then er else EINPROGRESS in
      if negb (result =? EINPROGRESS) then result
      else if cn_select e =? 0 then ETIMEDOUT
      else if cn_select e <? 0 then errno_or_eintr (cn_select_errno e)
      else match cn_getsockopt e with
           | Some er => if negb (er =? 0) then er else EACCES
           | None => cn_so_error e
           end
  end.

(** ** Lemmas: sending *)

Lemma errno_or_eintr_nonzero e : errno_or_eintr e <> 0.
Proof. unfold errno_or_eintr. destruct (Z.eqb_spec e 0); cbn; [done|done]. Qed.

Lemma senddata_loop_spec n evs inp out data s r : (length evs <= n)%nat -> senddata_loop evs inp out data = Ret (s, r) ->
  exists k, sk_out s = out ++ take k data /\ sk_in s = inp /\ (r = 0 -> take k data = data).
Proof.
  revert evs out data. induction n as [n IH] using lt_wf_ind. intros evs out data Hn H.
  destruct evs as [|ev evs]; (destruct data as [|c data]; [cbn in H; injection H as <- <-; exists O; by rewrite app_nil_r|]); [done|].
  set (d := c :: data) in *. destruct ev as [res e| | |]; try done. destruct evs as [|ev' evs]; cbn [senddata_loop d] in H.
  - destruct (res <? 0); [injection H as <- <-; exists O; cbn; rewrite app_nil_r; split_and!; try done; by intros ?%errno_or_eintr_nonzero|].
    destruct (res =? 0); [|done]. injection H as <- <-. exists O. cbn. by rewrite app_nil_r.
  - destruct ev' as [|m e'| |]; try done.
    destruct (res <? 0); [injection H as <- <-; exists O; cbn; rewrite app_nil_r; split_and!; try done; by intros ?%errno_or_eintr_nonzero|].
    destruct (res =? 0); [injection H as <- <-; exists O; cbn; by rewrite app_nil_r|].
    cbn [length] in Hn. destruct (m <? 0).
    + destruct (would_block e'); [by apply (IH (length evs)) in H; [|lia|lia]|].
      injection H as <- <-. exists O. cbn. rewrite app_nil_r. split_and!; try done. by intros ?%errno_or_eintr_nonzero.
    + change (c :: data) with d in H. apply (IH (length evs)) in H as (k & H1 & H2 & H3); [|lia|lia].
      exists (Z.to_nat m + k)%nat. rewrite H1, H2, <- app_assoc. rewrite <- take_take_drop. split_and!; [done|done|].
      intros Hr. rewrite (H3 Hr). apply take_drop.
Qed.

Lemma recvdata_loop_spec n evs inp out left got s r g : (length evs <= n)%nat -> recvdata_loop evs inp out left got = Ret (s, r, g) ->
  exists x, g = got ++ x /\ inp = x ++ sk_in s /\ sk_out s = out /\ zlen x <= Z.max 0 left /\ (r = 0 -> zlen x = Z.max 0 left).
Proof.
  revert evs inp left got. induction n as [n IH] using lt_wf_ind. intros evs inp left got Hn H.
  assert (forall r', r' <> 0 -> forall evs', Ret (mk_sock inp out evs', r', got) = Ret (s, r, g) ->
    exists x, g = got ++ x /\ inp = x ++ sk_in s /\ sk_out s = out /\ zlen x <= Z.max 0 left /\ (r = 0 -> zlen x = Z.max 0 left)) as Hstop.
  { intros r' Hr evs' [= <- <- <-]. exists []. rewrite app_nil_r, zlen_nil. split_and!; try done. lia. }
  destruct evs as [|ev evs]; cbn [recvdata_loop] in H; destruct (Z.leb_spec left 0) as [Hl|Hl]; try done.
  1, 2: injection H as <- <- <-; exists []; rewrite app_nil_r, zlen_nil; split_and!; try done; lia.
  destruct ev as [| |m e|]; try done. cbn [length] in Hn. set (x := take (Z.to_nat (Z.min m left)) inp) in *.
  destruct (Z.ltb_spec 0 (zlen x)) as [Hx|Hx].
  - apply (IH (length evs)) in H as (y & -> & Hy & Ho & Hle & Heq); [|lia|lia]. exists (x ++ y).
    assert (x ++ drop (length x) inp = inp) as Hxd.
    { unfold x. rewrite length_take. destruct (Nat.le_gt_cases (Z.to_nat (Z.min m left)) (length inp)).
      - rewrite Nat.min_l by lia. apply take_drop.
      - rewrite Nat.min_r by lia. rewrite take_ge by lia. by rewrite drop_all, app_nil_r. }
    assert (zlen x <= left) as Hxl by (unfold x, zlen; rewrite length_take; lia).
    rewrite zlen_app. split_and!; [by rewrite app_assoc|by rewrite <- app_assoc, <- Hy|done|lia|]. intros Hr. specialize (Heq Hr). lia.
  - destruct (m <? 0); [|by eapply Hstop, H; unfold ETIMEDOUT].
    destruct (would_block e); cbn [negb] in H; [|eapply Hstop, H; apply errno_or_eintr_nonzero].
    destruct evs as [|ev' evs]; [done|]. destruct ev' as [res e'| | |]; try done.
    destruct (res <? 0); [eapply Hstop, H; apply errno_or_eintr_nonzero|]. destruct (res =? 0); [by eapply Hstop, H; unfold ETIMEDOUT|].
    cbn [length] in Hn. by apply (IH (length evs)) in H; [|lia|lia].
Qed.

Lemma recvdata_spec s size s' r g : recvdata_nblock s size = Ret (s', r, g) ->
  sk_in s = g ++ sk_in s' /\ sk_out s' = sk_out s /\ zlen g <= Z.max 0 size /\ (r = 0 -> zlen g = Z.max 0 size).
Proof.
  intros H. unfold recvdata_nblock in H. apply (recvdata_loop_spec (length (sk_events s))) in H as (x & Hx & H1 & H2 & H3 & H4); [|done].
  cbn in Hx. by subst x.
Qed.

(** A prefix of a known length. *)
Lemma prefix_zlen {A} (g x y z : list A) : g ++ x = y ++ z -> zlen g = zlen y -> g = y /\ x = z.
Proof. intros H Hl. apply app_inj_1 in H; [done|]. unfold zlen in Hl. lia. Qed.

(** A message as both servers send it: the header with its padding, and the body. *)
Definition response_bytes (cmd st : Z) (padding body : bytes) : bytes := header_bytes (zlen body) cmd st ++ padding ++ body.

Lemma zlen_header_bytes n cmd st : zlen (header_bytes n cmd st) = 10.
Proof. done. Qed.

(** The header of a message that is in the stream. *)
Lemma recvheader_spec s s' ret n len cmd st padding rest : 0 <= len < 2 ^ 63 -> 0 <= st < 256 -> length padding = 6%nat ->
  sk_in s = header_bytes len cmd st ++ padding ++ rest -> client_recvheader s = Ret (s', ret, n) ->
  sk_out s' = sk_out s /\ (ret = 0 -> st = 0 /\ n = len /\ sk_in s' = rest).
Proof.
  intros Hlen Hst Hpad Hin H. unfold client_recvheader in H. apply bind_Ret in H as ([ [s1 r1] g] & Hr & H).
  destruct (recvdata_spec _ _ _ _ _ Hr) as (H1 & H2 & _ & H4).
  destruct (Z.eqb_spec r1 0) as [->|Hne]; cbn [negb] in H; [|injection H as <- <- <-; by split].
  specialize (H4 eq_refl). rewrite H1, app_assoc in Hin. apply prefix_zlen in Hin as [-> Hrest];
    [|rewrite H4, zlen_app, zlen_header_bytes; unfold zlen; rewrite Hpad; done].
  assert (header_bytes len cmd st ++ padding = le64 len ++ u8 cmd :: u8 st :: padding) as E by (unfold header_bytes; by rewrite <- app_assoc).
  rewrite E, (u_wrap_id 8 st) in H by (unfold is_u; lia).
  change (zlookup (le64 len ++ u8 cmd :: st :: padding) 9) with (Some st) in H. cbn [get_or mbind outcome_bind] in H. unfold PROTOCOL_RESP_STATUS_SUCCESS in H.
  destruct (Z.eqb_spec st 0) as [->|Hs]; cbn [negb] in H; [|injection H as <- <- <-; by split].
  rewrite le64_decode in H by lia. cbn [mbind outcome_bind] in H.
  rewrite s_wrap_id in H by (unfold is_s; lia). destruct (Z.ltb_spec len 0); [lia|]. by injection H as <- <- <-.
Qed.

(** ** Lemmas: progress *)

(** The kernel moves the bytes in any portions: before the portion [n] of [(k, n)]
    the call would block [k] times, and [select] waits until it would not. *)
Definition pauses (k : nat) (ev : list sock_event) : list sock_event := mjoin (replicate k ev).
Definition recv_events (ns : list (nat * Z)) : list sock_event := ns ≫= (fun '(k, n) => pauses k [EvRecv (-1) EAGAIN; EvSelect 1 0] ++ [EvRecv n 0]).
Definition send_events (ns : list (nat * Z)) : list sock_event := ns ≫= (fun '(k, n) => pauses k [EvSelect 1 0; EvSend (-1) EAGAIN] ++ [EvSelect 1 0; EvSend n 0]).
(** Every portion has a byte. *)
Definition portions (ns : list (nat * Z)) : Prop := Forall (fun p => 1 <= p.2) ns.

Lemma recv_pauses k evs inp out left got : 0 < left -> recvdata_loop (pauses k [EvRecv (-1) EAGAIN; EvSelect 1 0] ++ evs) inp out left got = recvdata_loop evs inp out left got.
Proof.
  intros Hl. induction k as [|k IH]; [done|]. change (pauses (S k) ?x) with (x ++ pauses k x). cbn [app recvdata_loop]. destruct (Z.leb_spec left 0); [lia|].
  rewrite Z2Nat.nonpos by lia. rewrite take_0. change (0 <? zlen []) with false. change (-1 <? 0) with true. change (would_block EAGAIN) with true. cbn [negb]. change (1 <? 0) with false. change (1 =? 0) with false. cbv iota. exact IH.
Qed.

Lemma send_pauses k evs inp out data : data <> [] -> senddata_loop (pauses k [EvSelect 1 0; EvSend (-1) EAGAIN] ++ evs) inp out data = senddata_loop evs inp out data.
Proof.
  intros Hd. induction k as [|k IH]; [done|]. change (pauses (S k) ?x) with (x ++ pauses k x). destruct data as [|c data]; [done|]. exact IH.
Qed.

Lemma recvdata_completes ns inp out left got : portions ns -> left <= zlen ns -> left <= zlen inp ->
  exists ns', recvdata_loop (recv_events ns) inp out left got =
      Ret (mk_sock (drop (Z.to_nat left) inp) out (recv_events ns'), 0, got ++ take (Z.to_nat left) inp) /\
    portions ns' /\ zlen ns <= zlen ns' + Z.max 0 left.
Proof.
  revert inp left got. induction ns as [|[k n] ns IH]; intros inp left got Hns Hl Hi.
  - exists []. change (zlen (@nil (nat * Z))) with 0 in *. cbn [recv_events recvdata_loop]. unfold recv_events, mbind, list_bind. cbn [recvdata_loop]. destruct (Z.leb_spec left 0) as [_|]; [|lia].
    rewrite Z2Nat.nonpos by lia. rewrite take_0, drop_0, app_nil_r. split_and!; [done|constructor|lia].
  - destruct (Z.leb_spec left 0) as [Hz|Hz].
    { exists ((k, n) :: ns). rewrite Z2Nat.nonpos by lia. rewrite take_0, drop_0, app_nil_r. split_and!; [|done|lia].
      destruct (recv_events ((k, n) :: ns)); cbn [recvdata_loop]; by destruct (Z.leb_spec left 0); [|lia]. }
    change (recv_events ((k, n) :: ns)) with ((pauses k [EvRecv (-1) EAGAIN; EvSelect 1 0] ++ [EvRecv n 0]) ++ recv_events ns). rewrite <- app_assoc, recv_pauses by done.
    cbn [app recvdata_loop]. destruct (Z.leb_spec left 0) as [|_]; [lia|].
    apply Forall_cons in Hns as [Hn Hns]. cbn in Hn. set (x := take (Z.to_nat (Z.min n left)) inp).
    assert (zlen x = Z.min n left) as Hx by (unfold x, zlen in *; rewrite length_take; lia). destruct (Z.ltb_spec 0 (zlen x)) as [_|]; [|lia].
    rewrite zlen_cons in Hl. assert (length x = Z.to_nat (Z.min n left)) as Hxl by (unfold zlen in Hx; lia). rewrite Hxl.
    destruct (IH (drop (Z.to_nat (Z.min n left)) inp) (left - zlen x) (got ++ x) Hns) as (ns' & Hr & Hns' & Hc); [lia|unfold zlen in *; rewrite length_drop; lia|].
    exists ns'. rewrite Hr. split_and!; [|done|rewrite zlen_cons; lia].
    rewrite drop_drop, <- app_assoc, Hx. assert (Z.to_nat left = Z.to_nat (Z.min n left) + Z.to_nat (left - Z.min n left))%nat as -> by lia.
    unfold x. by rewrite <- take_take_drop.
Qed.

Lemma recvdata_progress ns inp out len : portions ns -> len <= zlen ns -> len <= zlen inp ->
  exists ns', recvdata_nblock (mk_sock inp out (recv_events ns)) len =
      Ret (mk_sock (drop (Z.to_nat len) inp) out (recv_events ns'), 0, take (Z.to_nat len) inp) /\
    portions ns' /\ zlen ns <= zlen ns' + Z.max 0 len.
Proof. intros H1 H2 H3. by apply (recvdata_completes ns inp out len [] H1 H2 H3). Qed.

Lemma senddata_progress ns inp out data : portions ns -> zlen data <= zlen ns ->
  exists ns', senddata_nblock (mk_sock inp out (send_events ns)) data = Ret (mk_sock inp (out ++ data) (send_events ns'), 0).
Proof.
  unfold senddata_nblock. cbn [sk_events sk_in sk_out]. revert out data. induction ns as [|[k n] ns IH]; intros out data Hns Hl.
  - change (zlen (@nil (nat * Z))) with 0 in Hl. destruct data; [|unfold zlen in Hl; cbn in Hl; lia]. exists []. cbn. by rewrite app_nil_r.
  - destruct data as [|c data]; [exists ((k, n) :: ns); rewrite app_nil_r; generalize (send_events ((k, n) :: ns)); by intros []|]. set (d := c :: data) in *.
    change (send_events ((k, n) :: ns)) with ((pauses k [EvSelect 1 0; EvSend (-1) EAGAIN] ++ [EvSelect 1 0; EvSend n 0]) ++ send_events ns). rewrite <- app_assoc, send_pauses by done. cbn [app senddata_loop d].
    change (1 <? 0) with false. change (1 =? 0) with false. cbv iota. apply Forall_cons in Hns as [Hn Hns]. cbn in Hn. destruct (Z.ltb_spec n 0); [lia|].
    change (c :: data) with d. rewrite zlen_cons in Hl.
    destruct (IH (out ++ take (Z.to_nat n) d) (drop (Z.to_nat n) d) Hns) as (ns' & Hr).
    { unfold zlen in *. rewrite length_drop. cbn [d length] in *. lia. }
    exists ns'. rewrite Hr. by rewrite <- app_assoc, take_drop.
Qed.

Lemma take_zlen_app {A} (x y : list A) n : n = zlen x -> take (Z.to_nat n) (x ++ y) = x.
Proof. intros ->. unfold zlen. by rewrite Nat2Z.id, take_app_length. Qed.

Lemma drop_zlen_app {A} (x y : list A) n : n = zlen x -> drop (Z.to_nat n) (x ++ y) = y.
Proof. intros ->. unfold zlen. by rewrite Nat2Z.id, drop_app_length. Qed.

Lemma recvheader_progress ns out len cmd st padding rest : portions ns -> 16 <= zlen ns -> 0 <= len < 2 ^ 63 -> 0 <= st < 256 -> length padding = 6%nat ->
  exists ns', client_recvheader (mk_sock (header_bytes len cmd st ++ padding ++ rest) out (recv_events ns)) =
      Ret (mk_sock rest out (recv_events ns'), st, if st =? PROTOCOL_RESP_STATUS_SUCCESS then len else 0) /\
    portions ns' /\ zlen ns <= zlen ns' + 16.
Proof.
  intros Hns Hl Hlen Hst Hpad. assert (zlen (header_bytes len cmd st ++ padding) = 16) as H16 by (rewrite zlen_app, zlen_header_bytes; unfold zlen; by rewrite Hpad).
  rewrite app_assoc. destruct (recvdata_progress ns ((header_bytes len cmd st ++ padding) ++ rest) out sizeof_protocol_header Hns) as (ns' & Hr & Hns' & Hc);
    [unfold sizeof_protocol_header; lia|rewrite zlen_app, H16; pose proof (zlen_pos rest); unfold sizeof_protocol_header; lia|].
  rewrite take_zlen_app, drop_zlen_app in Hr by done. exists ns'. split_and!; [|done|unfold sizeof_protocol_header in Hc; lia].
  unfold client_recvheader. rewrite Hr. cbn [mbind outcome_bind]. change (negb (0 =? 0)) with false. cbv iota.
  assert (header_bytes len cmd st ++ padding = le64 len ++ u8 cmd :: st :: padding) as -> by (unfold header_bytes; rewrite (u_wrap_id 8 st) by (unfold is_u; lia); by rewrite <- app_assoc).
  change (zlookup (le64 len ++ u8 cmd :: st :: padding) 9) with (Some st). cbn [get_or mbind outcome_bind]. unfold PROTOCOL_RESP_STATUS_SUCCESS.
  destruct (Z.eqb_spec st 0) as [->|Hne]; cbn [negb]; [|done]. rewrite le64_decode by lia. cbn [mbind outcome_bind].
  rewrite s_wrap_id by (unfold is_s; lia). by destruct (Z.ltb_spec len 0); [lia|].
Qed.

(** ** Files *)

Lemma recvfile_loop_spec fuel e k s file remain w ret0 s' f ret : ret0 = 0 -> recvfile_loop fuel e k s file remain w ret0 = Ret (s', f, ret) ->
  sk_out s' = sk_out s /\
  ((ret = 0 /\ exists x, f = Some (file ++ x) /\ sk_in s = x ++ sk_in s' /\ zlen x = Z.max 0 remain) \/ (ret <> 0 /\ f = None)).
Proof.
  revert k s file remain w ret0. induction fuel as [|fuel IH]; intros k s file remain w ret0 -> H; cbn [recvfile_loop] in H.
  - destruct (Z.leb_spec remain 0); [|done]. injection H as <- <- <-. split; [done|]. left. split; [done|]. exists []. rewrite app_nil_r, zlen_nil. split_and!; [done|done|lia].
  - destruct (Z.leb_spec remain 0) as [|Hpos].
    { injection H as <- <- <-. split; [done|]. left. split; [done|]. exists []. rewrite app_nil_r, zlen_nil. split_and!; [done|done|lia]. }
    set (n := if LFS_WRITE_BUFF_SIZE <? remain then LFS_WRITE_BUFF_SIZE else remain) in *.
    assert (0 < n <= remain) as Hn by (unfold n, LFS_WRITE_BUFF_SIZE; destruct (Z.ltb_spec (256 * 1024) remain); lia).
    apply bind_Ret in H as ([ [s1 r1] g] & Hr & H). destruct (recvdata_spec _ _ _ _ _ Hr) as (H1 & H2 & _ & H4).
    destruct (Z.eqb_spec r1 0) as [->|Hne]; cbn [negb] in H; [|injection H as <- <- <-; split; [done|by right] ]. specialize (H4 eq_refl).
    destruct (negb (rf_write e k n =? n)); [injection H as <- <- <-; split; [done|right; done]|].
    assert (forall w' r', r' = 0 -> recvfile_loop fuel e (S k) s1 (file ++ g) (remain - n) w' r' = Ret (s', f, ret) ->
      sk_out s' = sk_out s /\ ((ret = 0 /\ exists x, f = Some (file ++ x) /\ sk_in s = x ++ sk_in s' /\ zlen x = Z.max 0 remain) \/ (ret <> 0 /\ f = None))) as Hgo.
    { intros w' r' Hr' Hl. apply IH in Hl as [Ho [ (Hz & x & Hf & Hx & Hlen)|Hbad] ]; [| |done]; (split; [congruence|]); [left|by right].
      split; [done|]. exists (g ++ x). rewrite app_assoc, zlen_app. split_and!; [done|rewrite H1, Hx; by rewrite <- app_assoc|lia]. }
    destruct (0 <? rf_fsync_bytes e); [|by eapply Hgo, H]. destruct (rf_fsync_bytes e <=? _); [|by eapply Hgo, H].
    destruct (Z.eqb_spec (rf_fsync e k) 0) as [Hz|Hz]; cbn [negb] in H; [by eapply Hgo, H|]. injection H as <- <- <-. split; [done|by right].
Qed.

Lemma client_recvfile_new e s old f_size : rf_open e = true -> rf_lseek e = true -> client_recvfile e s old 0 f_size = recvfile_loop (Z.to_nat f_size) e 0 s [] f_size 0 LFS_OK.
Proof.
  intros H1 H2. unfold client_recvfile. rewrite H1, H2. change (s32 0) with 0. change (0 <? 0) with false. change (0 <=? 0) with true. cbn [negb]. change LFS_OK with 0.
  destruct (recvfile_loop _ _ _ _ _ _ _ _) as [ [ [s' [f|] ] r]|]; cbn; try done. unfold write_at. cbn. by rewrite drop_nil, app_nil_r.
Qed.

(** ** Theorems *)

(** A response is received whole or not at all: however the network splits the
    stream and whenever it fails, when [client_recvdata] returns 0 the buffer is
    the body of the response and what follows it stays in the stream. *)
Theorem response_received s s' ret n buff cmd st padding body rest : 0 < zlen body < 2 ^ 31 -> 0 <= st < 256 -> length padding = 6%nat ->
  sk_in s = response_bytes cmd st padding body ++ rest -> client_recvdata true s = Ret (s', ret, n, buff) -> ret = 0 ->
  st = PROTOCOL_RESP_STATUS_SUCCESS /\ n = zlen body /\ buff = Some body /\ sk_in s' = rest.
Proof.
  intros Hb Hst Hpad Hin H ->. unfold response_bytes in Hin. rewrite <- !app_assoc in Hin. unfold client_recvdata in H.
  apply bind_Ret in H as ([ [s1 r1] n1] & Hh & H). destruct (recvheader_spec s s1 r1 n1 (zlen body) cmd st padding _ ltac:(lia) Hst Hpad Hin Hh) as [_ Hok].
  destruct (Z.eqb_spec r1 0) as [->|Hne]; cbn [negb] in H; [|injection H as _ ? _ _; done]. destruct (Hok eq_refl) as (-> & -> & Hin1).
  destruct (Z.eqb_spec (zlen body) 0); [lia|]. cbn [negb] in H. apply bind_Ret in H as ([ [s2 r2] g] & Hr & H).
  rewrite s_wrap_id in Hr by (unfold is_s; lia). destruct (recvdata_spec _ _ _ _ _ Hr) as (H1 & _ & _ & H4).
  destruct (Z.eqb_spec r2 0) as [->|Hne]; cbn [negb] in H; [|injection H as _ ? _ _; done]. specialize (H4 eq_refl).
  rewrite Hin1 in H1. apply prefix_zlen in H1 as [<- ->]; [|lia]. by injection H as <- <- <-.
Qed.

(** What [client_recvdata] gives its caller for a response with the status [st] and
    the body [body]: a status other than success is its result, and a response
    without a body, or one for which there is no memory, is an error. *)
Definition response_result (malloc_ok : bool) (st : Z) (body : bytes) : Z * Z * option bytes :=
  if negb (st =? PROTOCOL_RESP_STATUS_SUCCESS) then (st, 0, None)
  else if negb malloc_ok || (zlen body =? 0) then (LFS_ERROR, 0, None)
  else (0, zlen body, Some body).

(** C39. A request and its response get through, in whatever portions of at least a
    byte the kernel takes and gives them, also when the calls would block any
    number of times before a portion and [select] has to wait: the peer has exactly
    the bytes of the request, and the caller has the body of the response and 0, or,
    for a response with another status, that status and no body; a response
    without a body, and one for which no memory can be had, is [LFS_ERROR].  (This
    is about connections that do not break; [response_received] shows that on
    any connection 0 is returned only with the whole body.) *)
Theorem message_exchange malloc_ok ns ms request cmd st padding body : portions ns -> portions ms ->
  zlen request <= zlen ns -> 16 + zlen body <= zlen ms -> zlen body < 2 ^ 31 -> 0 <= st < 256 -> length padding = 6%nat ->
  exists s1 s2, senddata_nblock (mk_sock [] [] (send_events ns)) request = Ret (s1, 0) /\ sk_out s1 = request /\
    let '(ret, n, buff) := response_result malloc_ok st body in
    client_recvdata malloc_ok (mk_sock (response_bytes cmd st padding body) (sk_out s1) (recv_events ms)) = Ret (s2, ret, n, buff).
Proof.
  intros Hns Hms Hl1 Hl2 Hb Hst Hpad. destruct (senddata_progress ns [] [] request Hns Hl1) as (ns' & Hs). cbn [app] in Hs. pose proof (zlen_pos body) as Hp.
  eexists. enough (exists s2, let '(ret, n, buff) := response_result malloc_ok st body in
    client_recvdata malloc_ok (mk_sock (response_bytes cmd st padding body) request (recv_events ms)) = Ret (s2, ret, n, buff)) as [s2 H2]
    by (exists s2; split_and!; [exact Hs|done|exact H2]).
  unfold client_recvdata, response_bytes, response_result.
  destruct (recvheader_progress ms request (zlen body) cmd st padding body Hms) as (ms1 & -> & Hms1 & Hc1); [lia|lia|done|done|].
  cbn [mbind outcome_bind]. unfold PROTOCOL_RESP_STATUS_SUCCESS. destruct (Z.eqb_spec st 0) as [->|Hne]; cbn [negb]; [|by eexists].
  destruct (Z.eqb_spec (zlen body) 0) as [->|Hz]; [rewrite orb_true_r; by eexists|]. rewrite orb_false_r. destruct malloc_ok; cbn [negb]; [|by eexists].
  rewrite s_wrap_id by (unfold is_s; lia). destruct (recvdata_progress ms1 body request (zlen body) Hms1) as (ms2 & -> & _ & _); [lia|lia|].
  cbn [mbind outcome_bind]. change (negb (0 =? 0)) with false. cbv iota. rewrite take_zlen. by eexists.
Qed.

(** A received file is complete or removed: after [client_recvfile] the file is
    the next [f_size] bytes of the stream and the result is 0, or there is no
    file and the result is an error. *)
Theorem recvfile_all_or_nothing e s old f_size s' f ret : rf_open e = true -> rf_lseek e = true ->
  client_recvfile e s old 0 f_size = Ret (s', f, ret) ->
  (ret = 0 /\ exists x, f = Some x /\ sk_in s = x ++ sk_in s' /\ zlen x = Z.max 0 f_size) \/ (ret <> 0 /\ f = None).
Proof.
  intros H1 H2. rewrite client_recvfile_new by done. intros H.
  apply recvfile_loop_spec in H as [_ [ (Hr & x & Hf & Hx & Hl)|Hbad] ]; [left|right; exact Hbad|done]. split; [done|]. by exists x.
Qed.

(** [sendfile] that sends nothing (the file has become shorter) is reported with
    the value of [errno], which it does not set: with 0 there, a file that was
    cut off counts as sent. *)
Theorem sendfile_short_is_ok :
  let es := mk_sfenv None None None 0 true in
  client_sendfile es (mk_sock [] [] [EvSendfile 3 0; EvSendfile 0 0]) (Some [1; 2; 3]) 0 5 = Ret (mk_sock [] [1; 2; 3] [], 0).
Proof. reflexivity. Qed.

(** ** Examples *)

Lemma response_received_witness : let s' := mk_sock [7] [] [] in
  PROTOCOL_RESP_STATUS_SUCCESS = PROTOCOL_RESP_STATUS_SUCCESS /\ 3 = zlen [4; 5; 6] /\ Some [4; 5; 6] = Some [4; 5; 6] /\ sk_in s' = [7].
Proof.
  apply (response_received (mk_sock (response_bytes 1 0 (replicate 6 0) [4; 5; 6] ++ [7]) [] [EvRecv 3 0; EvRecv 12 0; EvRecv (-1) EAGAIN; EvSelect 1 0; EvRecv 8 0; EvRecv 2 0; EvRecv 9 0])
    (mk_sock [7] [] []) 0 3 (Some [4; 5; 6]) 1 0 (replicate 6 0) [4; 5; 6] [7]); by vm_compute.
Defined.

Lemma message_exchange_witness : exists s1 s2,
  senddata_nblock (mk_sock [] [] (send_events [(1%nat, 2); (0%nat, 1); (2%nat, 5)])) [1; 2; 3] = Ret (s1, 0) /\ sk_out s1 = [1; 2; 3] /\
  client_recvdata true (mk_sock (response_bytes 1 0 (replicate 6 0) [4; 5]) (sk_out s1) (recv_events (replicate 18 (1%nat, 1)))) = Ret (s2, 0, zlen [4; 5], Some [4; 5]).
Proof.
  apply (message_exchange true [(1%nat, 2); (0%nat, 1); (2%nat, 5)] (replicate 18 (1%nat, 1)) [1; 2; 3] 1 0 (replicate 6 0) [4; 5]);
    [repeat constructor; cbn; lia|apply Forall_replicate; cbn; lia|by vm_compute|by vm_compute|by vm_compute|lia|done].
Defined.

Definition demo_rfenv : recvfile_env := mk_rfenv true 0 true (fun _ n => n) (fun _ => 0) 2.

Lemma recvfile_all_or_nothing_witness : (ETIMEDOUT = 0 /\ exists x, @None bytes = Some x /\ [1; 2] = x ++ [] /\ zlen x = Z.max 0 5) \/ (ETIMEDOUT <> 0 /\ @None bytes = None).
Proof.
  apply (recvfile_all_or_nothing demo_rfenv (mk_sock [1; 2] [] [EvRecv 2 0; EvRecv 0 0]) (Some [9]) 5 (mk_sock [] [] []) None ETIMEDOUT); by vm_compute.
Defined.
