(* ===== verification/DsSync.v ===== *)
(** * Replication between data servers

    src/src/dataserver/ds_sync.c.  A master sends the records of its binlog to
    every slave, one thread per slave ([__async_thread_entry]); a new slave first
    fetches the binlog and the files of the master ([full_sync_from_master]).
    Both remember how far they are in mark files. *)
From S2P Require Import Prelude Codec CString Lines TsConn Datasevr Protocol DsBlock DsBinlog ClientIo.
From Stdlib Require Import Sorted.

Definition WRITE_TO_BAT_FILE_BY_SYNC_COUNT : Z := 2.
Definition LFS_STRUCT_PROP_LEN_SIZE8 : Z := 8.
Definition LFS_STRUCT_PROP_LEN_SIZE4 : Z := 4.

Inductive full_sync_state := F_SYNC_OK | F_SYNC_ERROR | F_SYNC_MARK_ERROR | F_SYNC_NETWORK_ERROR | F_SYNC_NO_INIFILE | F_SYNC_FINISH.

#[export] Instance full_sync_state_eq_dec : EqDecision full_sync_state.
Proof. solve_decision. Defined.

Definition fs_is (a b : full_sync_state) : bool := bool_decide (a = b).

(** The files of a data server, by their path. *)
Abbreviation files := (gmap bytes bytes).

(** ** Sending a file to a slave *)

(** The request: the header, the sequence, the length of the id, the id and the
    size of the file. *)
Definition async_request (r : binlog_record) (size : Z) : outcome (bytes * Z) :=
  let buff := zeros (Z.to_nat (sizeof_protocol_header + LFS_STRUCT_PROP_LEN_SIZE8 * 3 + Z.of_nat LFS_FILE_ID_SIZE)) in
  buff ← buf_write buff 0 (header_bytes (LFS_STRUCT_PROP_LEN_SIZE8 * 3 + f_id_length r) PROTOCOL_CMD_ASYNC_COPY_FILE 0);
  let p := sizeof_protocol_header in
  buff ← buf_write buff p (long2buff (sequence r));
  let p := p + LFS_STRUCT_PROP_LEN_SIZE8 in
  buff ← buf_write buff p (long2buff (f_id_length r));
  let p := p + LFS_STRUCT_PROP_LEN_SIZE8 in
  buff ← buf_write buff p (take (Z.to_nat (f_id_length r)) (f_id r ++ zeros (Z.to_nat (f_id_length r) - length (f_id r))));
  let p := p + f_id_length r in
  buff ← buf_write buff p (long2buff size);
  let p := p + LFS_STRUCT_PROP_LEN_SIZE8 in
  Ret (take (Z.to_nat p) buff, p).

(** [stat] returns -1, never [ENOENT], so that a missing file is an error:
    [errno] is returned. *)
Definition __async_copy_file (e : sendfile_env) (stat_errno : Z) (fs : files) (s : sock) (r : binlog_record) : outcome (sock * Z) :=
  match fs !! f_block_map_name r with
  | None => Ret (s, stat_errno)
  | Some file =>
      '(req, _) ← async_request r (zlen file);
      '(s, ret) ← senddata_nblock s req;
      if negb (ret =? 0) then Ret (s, ret)
      else
        '(s, ret) ← client_sendfile e s (Some file) 0 (zlen file);
        if negb (ret =? 0) then Ret (s, ret)
        else '(s, ret, _) ← client_recvheader s; Ret (s, ret)
  end.

Definition __async_handle (e : sendfile_env) (stat_errno sfd : Z) (fs : files) (s : sock) (r : binlog_record) : outcome (sock * Z) :=
  if sfd <? 0 then Ret (s, LFS_ERROR)
  else if op_type r =? FILE_OP_TYPE_CREATE_FILE then __async_copy_file e stat_errno fs s r
  else Ret (s, LFS_ERROR).

(** ** The loop of a replication thread *)

(** [sctx.b_offset += ...; sctx.sync_count++; sctx.last_timestamp = time(NULL)] *)
Definition advance (s : sync_ctx) (size now : Z) : sync_ctx :=
  mk_sctx (f_mark s) (b_index s) (b_fd s) (m_fd s) now (b_buff s) (b_offset s + size) (sync_count s + 1) (last_sync_count s).

(** [ae_more]: what other threads have added to the current file of the log since the
    round before. *)
Record async_env := mk_aenv { ae_read : read_env; ae_sendfile : sendfile_env; ae_errno : Z; ae_mark : mark_env; ae_time : Z; ae_more : bytes }.

(** A flush of the log (of its context, the reader only looks at the number of the
    current file). *)
Definition log_grows (more : bytes) (b : binlog_ctx) (d : bdisk) : bdisk := append d (curr_binlog_file_index b) more.

(** The state of the thread and of the log it reads. *)
Record async_state := mk_async { as_disk : bdisk; as_bctx : binlog_ctx; as_sctx : sync_ctx; as_sock : sock; as_trace : list (binlog_record * Z) }.

(** One round of the innermost [while]: the records given to [__async_handle] with
    their results are the trace; [None] continues, [Some run] leaves the loop with
    [do_run_async_thread] set to [run]. *)
Definition async_round (e : async_env) (m : block_mount) (sfd : Z) (fs : files) (st : async_state) : outcome (async_state * option bool) :=
  '(d, b, s, bstate, size, r) ← binlog_read (ae_read e) m (as_disk st) (as_bctx st) (as_sctx st);
  let st := mk_async d b s (as_sock st) (as_trace st) in
  '(st, go) ←
    (if bstate =? B_FILE_OK then
       '(k, ret) ← __async_handle (ae_sendfile e) (ae_errno e) sfd fs (as_sock st) r;
       let st := mk_async d b s k (as_trace st ++ [(r, ret)]) in
       Ret (st, if negb (ret =? LFS_OK) then Some (Some true) else None)
     else if bstate =? B_FILE_NODATA then Ret (st, Some None)
     else if bstate =? B_FILE_ERROR then Ret (st, Some (Some true))
     else Ret (st, None));
  match go with
  | Some x => Ret (st, x)
  | None =>
      let s := advance (as_sctx st) size (ae_time e) in
      if WRITE_TO_BAT_FILE_BY_SYNC_COUNT <=? sync_count s - last_sync_count s then
        '(d, s, ret) ← sync_mark_file_batdata_write (ae_mark e) (as_disk st) s;
        Ret (mk_async d (as_bctx st) s (as_sock st) (as_trace st), if negb (ret =? 0) then Some false else None)
      else Ret (mk_async (as_disk st) (as_bctx st) s (as_sock st) (as_trace st), None)
  end.

(** [n] rounds at most: after them [do_run_async_thread] or the state of the
    slave ends the loop. *)
Fixpoint async_loop (n : nat) (env : nat -> async_env) (k : nat) (m : block_mount) (sfd : Z) (fs : files) (st : async_state) : outcome (async_state * bool) :=
  match n with
  | O => Ret (st, true)
  | S n' =>
      let st := mk_async (log_grows (ae_more (env k)) (as_bctx st) (as_disk st)) (as_bctx st) (as_sctx st) (as_sock st) (as_trace st) in
      '(st, x) ← async_round (env k) m sfd fs st;
      match x with
      | Some run => Ret (st, run)
      | None => async_loop n' env (S k) m sfd fs st
      end
  end.

(** What follows the loop: the mark file is written when it is not up to date.
    The context is destroyed when the thread goes on. *)
Definition async_session (n : nat) (env : nat -> async_env) (last : mark_env) (m : block_mount) (sfd : Z) (fs : files) (st : async_state) : outcome (async_state * bool) :=
  '(st, run) ← async_loop n env 0 m sfd fs st;
  let s := as_sctx st in
  if negb (last_sync_count s =? sync_count s) then
    '(d, s, ret) ← sync_mark_file_batdata_write last (as_disk st) s;
    let st := mk_async d (as_bctx st) s (as_sock st) (as_trace st) in
    if negb (ret =? 0) then Ret (st, false)
    else Ret (mk_async d (as_bctx st) (binlogsyncctx_destroy s) (as_sock st) (as_trace st), run)
  else Ret (mk_async (as_disk st) (as_bctx st) (binlogsyncctx_destroy s) (as_sock st) (as_trace st), run).

(** ** The thread *)

(** [ctxs.curr_conns], [ctxs.total_conns] and [ctxs.rejected_conns]. *)
Record conn_counts := mk_counts { curr_conn_count : Z; total_conn_count : Z; rejected_conn_count : Z }.

Definition conn_opened (c : conn_counts) : conn_counts := mk_counts (curr_conn_count c + 1) (total_conn_count c + 1) (rejected_conn_count c).
Definition conn_closed (c : conn_counts) : conn_counts := mk_counts (curr_conn_count c - 1) (total_conn_count c) (rejected_conn_count c).
Definition conn_rejected (c : conn_counts) : conn_counts := mk_counts (curr_conn_count c) (total_conn_count c) (rejected_conn_count c + 1).

(** [if(sfd >= 0) { close(sfd); sfd = -1; ctxs.curr_conns--; }] *)
Definition close_sfd (opened : bool) (c : conn_counts) : conn_counts := if opened then conn_closed c else c.

(** What one round of the outer or of the inner [while] meets: [do_run_async_thread]
    and [bbrief->state] at its start and after the connection, the results of
    [socket] and [connectserver_nb], the connection, and the answers of the
    session; and what was added to the current file of the log before it. *)
Record thread_env := mk_tenv {
  th_run : bool;
  th_state : datasevr_state;
  th_socket : Z;
  th_connect : Z;
  th_run2 : bool;
  th_state2 : datasevr_state;
  th_sequence : Z;
  th_sock : sock;
  th_ctx : ctx_env;
  th_rounds : nat;
  th_env : nat -> async_env;
  th_last : mark_env;
  th_more : bytes
}.

Inductive thread_pc := OuterLoop | InnerLoop.

(** The log, the counters and what has been sent. *)
Record thread_state := mk_thread { tt_disk : bdisk; tt_bctx : binlog_ctx; tt_counts : conn_counts; tt_trace : list (binlog_record * Z) }.

Definition tt_set_counts (t : thread_state) (c : conn_counts) : thread_state := mk_thread (tt_disk t) (tt_bctx t) c (tt_trace t).

(** One round; the pc [None] leaves the outer loop.  [break] leaves the inner loop
    with [sfd] open or not, and the outer one closes it.  A session that clears
    [do_run_async_thread] closes [sfd] there or at its own end, and both loops
    end then. *)
Definition thread_round (e : thread_env) (m : block_mount) (fs : files) (ip : bytes) (port : Z) (pc : thread_pc) (t : thread_state) : outcome (thread_state * option thread_pc) :=
  let stopped run st := negb run || bool_decide (st = deleted) in
  let broken (opened : bool) t := Ret (tt_set_counts t (close_sfd opened (tt_counts t)), Some OuterLoop) in
  match pc with
  | OuterLoop =>
      if stopped (th_run e) (th_state e) then Ret (t, None)
      else match th_state e with
      | init | wait_sync | syncing | off_line => Ret (t, Some OuterLoop)
      | _ => Ret (t, Some (if stopped (th_run2 e) (th_state2 e) then OuterLoop else InnerLoop))
      end
  | InnerLoop =>
      if stopped (th_run e) (th_state e) then broken false t
      else if th_socket e <? 0 then broken false t
      else if negb (th_connect e =? 0) && th_run2 e then Ret (tt_set_counts t (conn_rejected (tt_counts t)), Some InnerLoop)
      else
        let t := tt_set_counts t (conn_opened (tt_counts t)) in
        if stopped (th_run2 e) (th_state2 e) then broken true t
        else match th_state2 e with
        | active | on_line =>
            '(d, s, ret) ← asyncctx_init (th_ctx e) ip port (th_sequence e) (tt_disk t) (tt_bctx t);
            let t := mk_thread d (tt_bctx t) (tt_counts t) (tt_trace t) in
            if negb (ret =? 0) then broken true t
            else
              '(st, run) ← async_session (th_rounds e) (th_env e) (th_last e) m (th_socket e) fs (mk_async d (tt_bctx t) s (th_sock e) (tt_trace t));
              let t := mk_thread (as_disk st) (as_bctx st) (tt_counts t) (as_trace st) in
              if negb run then broken true t
              else Ret (tt_set_counts t (close_sfd true (tt_counts t)), Some InnerLoop)
        | _ => Ret (tt_set_counts t (close_sfd true (tt_counts t)), Some InnerLoop)
        end
  end.

(** The thread, as far as it gets in these rounds. *)
Fixpoint __async_thread_entry (rounds : list thread_env) (m : block_mount) (fs : files) (ip : bytes) (port : Z) (pc : thread_pc) (t : thread_state) : outcome (thread_state * option thread_pc) :=
  match rounds with
  | [] => Ret (t, Some pc)
  | e :: rounds' =>
      let t := mk_thread (log_grows (th_more e) (tt_bctx t) (tt_disk t)) (tt_bctx t) (tt_counts t) (tt_trace t) in
      '(t, next) ← thread_round e m fs ip port pc t;
      match next with
      | None => Ret (t, None)
      | Some pc => __async_thread_entry rounds' m fs ip port pc t
      end
  end.

(** ** The threads *)

(** [async_tids] and [async_threads_count]; an entry that has not been set is
    [None].  The lists have [async_threads_count] entries. *)
Record async_threads := mk_threads { async_tids : option (list (option Z)); async_threads_count : Z }.

(** A thread is started for a slave that is on line and not this server.  When
    [realloc] fails the array is lost. *)
Definition async_thread_start (st : Z) (is_local : bool) (attr create : Z) (realloc_ok : bool) (tid : Z) (t : async_threads) : async_threads * Z :=
  if ((st =? state_code active) || (st =? state_code on_line)) && negb is_local then
    if negb (attr =? 0) then (t, attr)
    else if negb (create =? 0) then (t, create)
    else if negb realloc_ok then (mk_threads None (async_threads_count t), LFS_ERROR)
    else
      let old := match async_tids t with Some l => l | None => replicate (Z.to_nat (async_threads_count t)) None end in
      (mk_threads (Some (old ++ [Some tid])) (async_threads_count t + 1), LFS_OK)
  else (t, LFS_OK).

(** The index of the thread, or the number of entries. *)
Fixpoint find_tid (tid : Z) (l : list (option Z)) : outcome nat :=
  match l with
  | [] => Ret O
  | None :: _ => Crash Uninitialised
  | Some x :: l' => if x =? tid then Ret O else i ← find_tid tid l'; Ret (S i)
  end.

(** The later entries move down; an entry that is not found costs the last one. *)
Definition async_thread_exit (tid : Z) (t : async_threads) : outcome async_threads :=
  if async_threads_count t <=? 0 then Ret (mk_threads (async_tids t) (async_threads_count t - 1))
  else
    l ← get_or NullDeref (async_tids t);
    i ← find_tid tid l;
    Ret (mk_threads (Some (if (i <? length l)%nat then delete i l else take (length l - 1) l)) (async_threads_count t - 1)).

Definition async_thread_quit (t : async_threads) : async_threads :=
  match async_tids t with
  | Some _ => mk_threads None 0
  | None => t
  end.

(** ** The mark of a full synchronisation *)

Record full_sync_binlog_mark := mk_fmark {
  b_file_count : Z;
  b_curr_sync_index : Z;
  rb_file_count : Z;
  rb_curr_sync_index : Z;
  fm_b_offset : Z;
  last_sync_timestamp : Z
}.

(** The columns of local_sync.mark. *)
Record fmark_cols := mk_fcols { fc_count : Z; fc_index : Z; fc_rcount : Z; fc_rindex : Z; fc_time : Z }.

#[export] Instance fmark_record : LineRecord fmark_cols.
Proof.
  refine {| lr_count := 5;
            lr_columns c := [pr_dec (fc_count c); pr_dec (fc_index c); pr_dec (fc_rcount c); pr_dec (fc_rindex c); pr_dec (fc_time c)];
            lr_read c := mk_fcols (atoi (c 0%nat)) (atoi (c 1%nat)) (atoi (c 2%nat)) (atoi (c 3%nat)) (atol (c 4%nat));
            lr_valid c := Forall (is_s 32) [fc_count c; fc_index c; fc_rcount c; fc_rindex c] /\ is_s 64 (fc_time c) |}.
  - done.
  - intros c _. repeat (apply Forall_cons; split); auto using pr_dec_column.
  - intros [a b c d t] f [Hv Ht] Hf. rewrite !Forall_cons in Hv. destruct Hv as (? & ? & ? & ? & _). cbn in *.
    rewrite (Hf 0%nat _ eq_refl), (Hf 1%nat _ eq_refl), (Hf 2%nat _ eq_refl), (Hf 3%nat _ eq_refl), (Hf 4%nat _ eq_refl).
    by rewrite !atoi_pr_int, atol_pr_long.
Defined.

Definition fmark_fields (f : full_sync_binlog_mark) : fmark_cols :=
  mk_fcols (b_file_count f) (b_curr_sync_index f) (rb_file_count f) (rb_curr_sync_index f) (last_sync_timestamp f).
Definition set_fmark_fields (f : full_sync_binlog_mark) (c : fmark_cols) : full_sync_binlog_mark :=
  mk_fmark (fc_count c) (fc_index c) (fc_rcount c) (fc_rindex c) (fm_b_offset f) (fc_time c).
Definition set_fmark_counts (f : full_sync_binlog_mark) (n m : Z) : full_sync_binlog_mark :=
  mk_fmark n (b_curr_sync_index f) m (rb_curr_sync_index f) (fm_b_offset f) (last_sync_timestamp f).
Definition set_fmark_offset (f : full_sync_binlog_mark) (o : Z) : full_sync_binlog_mark :=
  mk_fmark (b_file_count f) (b_curr_sync_index f) (rb_file_count f) (rb_curr_sync_index f) o (last_sync_timestamp f).
Definition next_local (f : full_sync_binlog_mark) : full_sync_binlog_mark :=
  mk_fmark (b_file_count f) (s32 (b_curr_sync_index f + 1)) (rb_file_count f) (rb_curr_sync_index f) 0 (last_sync_timestamp f).
Definition next_remote (f : full_sync_binlog_mark) : full_sync_binlog_mark :=
  mk_fmark (b_file_count f) (b_curr_sync_index f) (rb_file_count f) (s32 (rb_curr_sync_index f + 1)) (fm_b_offset f) (last_sync_timestamp f).

(** The state of a slave that synchronises: the connection to the master, the
    remote log, local_sync.mark with its content in memory, the files, and
    [ctxs.last_sync_sequence]. *)
Record fworld := mk_fw {
  fw_sock : sock;
  fw_disk : bdisk;
  fw_bctx : binlog_ctx;
  fw_markfile : option bytes;
  fw_fmark : full_sync_binlog_mark;
  fw_files : files;
  fw_sequence : Z
}.

Definition fw_set_sock (w : fworld) (s : sock) : fworld := mk_fw s (fw_disk w) (fw_bctx w) (fw_markfile w) (fw_fmark w) (fw_files w) (fw_sequence w).
Definition fw_set_log (w : fworld) (d : bdisk) (b : binlog_ctx) : fworld := mk_fw (fw_sock w) d b (fw_markfile w) (fw_fmark w) (fw_files w) (fw_sequence w).
Definition fw_set_mark (w : fworld) (t : option bytes) (f : full_sync_binlog_mark) : fworld := mk_fw (fw_sock w) (fw_disk w) (fw_bctx w) t f (fw_files w) (fw_sequence w).
Definition fw_set_files (w : fworld) (fs : files) : fworld := mk_fw (fw_sock w) (fw_disk w) (fw_bctx w) (fw_markfile w) (fw_fmark w) fs (fw_sequence w).
Definition fw_set_sequence (w : fworld) (n : Z) : fworld := mk_fw (fw_sock w) (fw_disk w) (fw_bctx w) (fw_markfile w) (fw_fmark w) (fw_files w) n.

Record full_env := mk_fenv {
  fe_fopen : bool;
  fe_trim : nat -> bool;
  fe_mark_open : bool;
  fe_mark_write : Z -> Z;
  fe_flush : nat -> binlog_env;
  fe_recvfile : recvfile_env
}.

Definition __full_sync_binlog_mark_initload (e : full_env) (w : fworld) : outcome (fworld * full_sync_state) :=
  match fw_markfile w with
  | None => Ret (w, F_SYNC_OK)
  | Some text =>
      if negb (fe_fopen e) then Ret (w, F_SYNC_MARK_ERROR)
      else f ← read_lines set_fmark_fields 256 (length text) (fe_trim e) (fw_fmark w) text; Ret (fw_set_mark w (fw_markfile w) f, F_SYNC_OK)
  end.

Definition __full_sync_binlog_mark_write (e : full_env) (w : fworld) : fworld * full_sync_state :=
  if negb (fe_mark_open e) then (w, F_SYNC_MARK_ERROR)
  else
    let buff := pr_record (fmark_fields (fw_fmark w)) in
    let n := fe_mark_write e (zlen buff) in
    (fw_set_mark w (Some (take (Z.to_nat n) buff)) (fw_fmark w), if negb (n =? zlen buff) then F_SYNC_MARK_ERROR else F_SYNC_OK).

(** ** Fetching the binlog *)

(** [memset] clears the size of a pointer: bytes 9 to 15 of the request are what
    was on the stack. *)
Definition mete_request (junk : bytes) : bytes := le64 0 ++ [PROTOCOL_CMD_FULL_SYNC_GET_MASTER_BINLOG_METE] ++ take 7 junk.

Definition __binlogmete_get_from_master (e : full_env) (junk : bytes) (sfd : Z) (w : fworld) : outcome (fworld * full_sync_state) :=
  '(s, ret) ← client_senddata sfd (fw_sock w) (mete_request junk);
  let w := fw_set_sock w s in
  if negb (ret =? 0) then Ret (w, F_SYNC_NETWORK_ERROR)
  else
    '(s, ret, n) ← client_recvheader (fw_sock w);
    let w := fw_set_sock w s in
    if negb (ret =? 0) then Ret (w, F_SYNC_NETWORK_ERROR)
    else if n =? 0 then Ret (w, F_SYNC_ERROR)
    else
      let size := LFS_STRUCT_PROP_LEN_SIZE4 + LFS_STRUCT_PROP_LEN_SIZE8 * 2 + 1 in
      '(s, ret, got) ← client_recvdata_nomalloc size (fw_sock w) n;
      let w := fw_set_sock w s in
      if negb (ret =? 0) then Ret (w, F_SYNC_NETWORK_ERROR)
      else
        let resp := got ++ zeros (Z.to_nat (size - zlen got)) in
        c ← buff2int resp;
        rc ← buff2int (drop 4 resp);
        Ret (__full_sync_binlog_mark_write e (fw_set_mark w (fw_markfile w) (set_fmark_counts (fw_fmark w) c rc))).

Definition LOCAL_BINLOG : Z := 0.
Definition REMOTE_BINLOG : Z := 1.

(** The request for a file of the master's binlog: the buffer has room for an
    [int] and a [long], and two [int]s and a [long] are stored. *)
Definition binlog_request (index kind offset : Z) : outcome bytes :=
  let buff := zeros (Z.to_nat (sizeof_protocol_header + LFS_STRUCT_PROP_LEN_SIZE4 + LFS_STRUCT_PROP_LEN_SIZE8)) in
  buff ← buf_write buff 0 (header_bytes (LFS_STRUCT_PROP_LEN_SIZE4 * 2 + LFS_STRUCT_PROP_LEN_SIZE8) PROTOCOL_CMD_FULL_SYNC_COPY_MASTER_BINLOG 0);
  buff ← buf_write buff sizeof_protocol_header (int2buff index);
  buff ← buf_write buff (sizeof_protocol_header + 4) (int2buff kind);
  buff ← buf_write buff (sizeof_protocol_header + 8) (long2buff offset);
  Ret buff.

(** The first steps of both functions: the size of the file that will follow. *)
Definition binlog_ask (index kind offset : Z) (s : sock) : outcome (sock * option Z) :=
  req ← binlog_request index kind offset;
  '(s, ret) ← senddata_nblock s req;
  if negb (ret =? 0) then Ret (s, None)
  else
    '(s, ret, n) ← client_recvheader s;
    if negb (ret =? 0) then Ret (s, None)
    else
      '(s, ret, got) ← client_recvdata_nomalloc LFS_STRUCT_PROP_LEN_SIZE8 s n;
      if negb (ret =? 0) then Ret (s, None)
      else size ← buff2long (got ++ zeros (8 - length got)); Ret (s, Some size).

(** The loop of [__full_sync_append_remote_binlog].  The data is received into the
    cache of the remote log and flushed; an error only ends the loop. *)
Fixpoint append_loop (fuel : nat) (e : full_env) (k : nat) (w : fworld) (remain_bytes : Z) : outcome fworld :=
  if remain_bytes <=? 0 then Ret w
  else
    match fuel with
    | O => Crash Diverged
    | S f =>
        let recv_bytes := if BINLOG_CACHE_BUFFER_SIZE <? remain_bytes then BINLOG_CACHE_BUFFER_SIZE else remain_bytes in
        let b := fw_bctx w in
        old ← get_or NullDeref (binlog_wcache_buff b);
        '(s, ret, got) ← recvdata_nblock (fw_sock w) recv_bytes;
        let w := fw_set_sock w s in
        if negb (ret =? 0) then
          Ret (fw_set_log w (fw_disk w) (set_binlog_cache b (Some (take (length old) (got ++ drop (length got) old))) (binlog_wcache_buff_len b)))
        else
          let '(d, b, ret) := binlog_flush (fe_flush e k) (fw_disk w) (set_binlog_cache b (Some got) (zlen got)) in
          let w := fw_set_log w d b in
          if negb (ret =? 0) then Ret w
          else append_loop f e (S k) (fw_set_mark w (fw_markfile w) (set_fmark_offset (fw_fmark w) (fm_b_offset (fw_fmark w) + zlen got))) (remain_bytes - zlen got)
    end.

Definition __full_sync_append_remote_binlog (e : full_env) (w : fworld) (bfile_size : Z) : outcome (fworld * full_sync_state) :=
  let '(d, b, _) := binlog_flush (fe_flush e 0) (fw_disk w) (fw_bctx w) in
  w ← append_loop (Z.to_nat bfile_size) e 1 (fw_set_log w d b) bfile_size;
  Ret (w, F_SYNC_OK).

Definition __sync_local_binlog_data_from_master (e : full_env) (w : fworld) : outcome (fworld * full_sync_state) :=
  '(s, r) ← binlog_ask (b_curr_sync_index (fw_fmark w)) LOCAL_BINLOG (fm_b_offset (fw_fmark w)) (fw_sock w);
  let w := fw_set_sock w s in
  match r with
  | None => Ret (w, F_SYNC_NETWORK_ERROR)
  | Some size =>
      '(w, fstate) ← __full_sync_append_remote_binlog e w size;
      if negb (fs_is fstate F_SYNC_OK) then Ret ((__full_sync_binlog_mark_write e w).1, fstate)
      else Ret (__full_sync_binlog_mark_write e (fw_set_mark w (fw_markfile w) (next_local (fw_fmark w))))
  end.

Definition __sync_remote_binlog_data_from_master (e : full_env) (w : fworld) : outcome (fworld * full_sync_state) :=
  '(s, r) ← binlog_ask (rb_curr_sync_index (fw_fmark w)) REMOTE_BINLOG 0 (fw_sock w);
  let w := fw_set_sock w s in
  match r with
  | None => Ret (w, F_SYNC_NETWORK_ERROR)
  | Some size =>
      let k := rb_curr_sync_index (fw_fmark w) in
      '(s, file, ret) ← client_recvfile (fe_recvfile e) (fw_sock w) (bd_files (fw_disk w) !! k) 0 size;
      let d := set_files (fw_disk w) (match file with Some t => <[k := t]> (bd_files (fw_disk w)) | None => base.delete k (bd_files (fw_disk w)) end) in
      let w := fw_set_log (fw_set_sock w s) d (fw_bctx w) in
      if negb (ret =? 0) then Ret (w, F_SYNC_NETWORK_ERROR)
      else Ret (__full_sync_binlog_mark_write e (fw_set_mark w (fw_markfile w) (next_remote (fw_fmark w))))
  end.

(** [for(i = curr; i < count; i++)] around one of the two functions. *)
Fixpoint sync_binlogs (n : nat) (step : fworld -> outcome (fworld * full_sync_state)) (w : fworld) (st : full_sync_state) : outcome (fworld * full_sync_state) :=
  match n with
  | O => Ret (w, st)
  | S n' =>
      '(w, st) ← step w;
      if negb (fs_is st F_SYNC_OK) then Ret (w, st) else sync_binlogs n' step w st
  end.

Definition __full_sync_binlog_from_master (e : full_env) (junk : bytes) (sfd : Z) (w : fworld) : outcome (fworld * full_sync_state) :=
  '(w, st) ← __full_sync_binlog_mark_initload e w;
  if negb (fs_is st F_SYNC_OK) then Ret (w, st)
  else
    '(w, st) ← (if s32 (b_file_count (fw_fmark w) + rb_file_count (fw_fmark w)) =? 0 then __binlogmete_get_from_master e junk sfd w else Ret (w, st));
    if negb (fs_is st F_SYNC_OK) then Ret (w, st)
    else
      let f := fw_fmark w in
      '(w, st) ← (if (0 <? rb_file_count f) && negb (rb_file_count f =? rb_curr_sync_index f)
                  then sync_binlogs (Z.to_nat (rb_file_count f - rb_curr_sync_index f)) (__sync_remote_binlog_data_from_master e) w st else Ret (w, st));
      if negb (fs_is st F_SYNC_OK) then Ret (w, st)
      else
        let f := fw_fmark w in
        if (0 <? b_file_count f) && negb (b_file_count f =? b_curr_sync_index f)
        then sync_binlogs (Z.to_nat (b_file_count f - b_curr_sync_index f)) (__sync_local_binlog_data_from_master e) w st
        else Ret (w, st).

(** ** Fetching the files *)

(** The header, and [sync_file_req]: the length and the name of the file. *)
Definition data_request (name : bytes) : outcome bytes :=
  let buff := zeros (Z.to_nat (sizeof_protocol_header + LFS_STRUCT_PROP_LEN_SIZE4 + Z.of_nat MAX_PATH_SIZE)) in
  buff ← buf_write buff 0 (header_bytes (LFS_STRUCT_PROP_LEN_SIZE4 + Z.of_nat MAX_PATH_SIZE) PROTOCOL_CMD_FULL_SYNC_COPY_MASTER_DATA 0);
  buff ← buf_write buff sizeof_protocol_header (int2buff (zlen name));
  buf_write buff (sizeof_protocol_header + 4) name.

Definition __full_sync_handle (e : full_env) (w : fworld) (r : binlog_record) : outcome (fworld * full_sync_state) :=
  req ← data_request (f_block_map_name r);
  '(s, ret) ← senddata_nblock (fw_sock w) req;
  let w := fw_set_sock w s in
  if negb (ret =? 0) then Ret (w, F_SYNC_NETWORK_ERROR)
  else
    '(s, ret, n) ← client_recvheader (fw_sock w);
    let w := fw_set_sock w s in
    if negb (ret =? 0) then Ret (w, F_SYNC_NETWORK_ERROR)
    else
      '(s, ret, got) ← client_recvdata_nomalloc LFS_STRUCT_PROP_LEN_SIZE8 (fw_sock w) n;
      let w := fw_set_sock w s in
      if negb (ret =? 0) then Ret (w, F_SYNC_NETWORK_ERROR)
      else
        size ← buff2long (got ++ zeros (8 - length got));
        '(s, file, ret) ← client_recvfile (fe_recvfile e) (fw_sock w) (fw_files w !! f_block_map_name r) 0 size;
        let w := fw_set_files (fw_set_sock w s)
                   (match file with Some t => <[f_block_map_name r := t]> (fw_files w) | None => base.delete (f_block_map_name r) (fw_files w) end) in
        if negb (ret =? 0) then Ret (w, F_SYNC_NETWORK_ERROR) else Ret (w, F_SYNC_OK).

Record data_env := mk_denv { de_full : full_env; de_read : read_env; de_mark : mark_env; de_time : Z }.

(** The loop of [__full_sync_data_from_master]; [sctx] is beside the world.  It
    ends with the last record, so that a bound on their number is enough fuel.
    The flag is set by the [return] inside the loop. *)
Fixpoint data_loop (fuel : nat) (env : nat -> data_env) (k : nat) (m : block_mount) (w : fworld) (s : sync_ctx) : outcome (fworld * sync_ctx * full_sync_state * bool) :=
  match fuel with
  | O => Crash Diverged
  | S f =>
      let e := env k in
      '(d, b, s, bstate, size, r) ← binlog_read (de_read e) m (fw_disk w) (fw_bctx w) s;
      let w := fw_set_log w d b in
      '(w, stop) ←
        (if bstate =? B_FILE_OK then
           '(w, st) ← __full_sync_handle (de_full e) w r;
           Ret (w, if negb (fs_is st F_SYNC_OK) then Some st else None)
         else if bstate =? B_FILE_NODATA then Ret (w, Some F_SYNC_FINISH)
         else if bstate =? B_FILE_ERROR then Ret (w, Some F_SYNC_ERROR)
         else Ret (w, None));
      match stop with
      | Some st => Ret (w, s, st, false)
      | None =>
          let s := advance s size (de_time e) in
          let w := if fw_sequence w <? sequence r then fw_set_sequence w (sequence r) else w in
          if WRITE_TO_BAT_FILE_BY_SYNC_COUNT <=? sync_count s - last_sync_count s then
            '(d, s, ret) ← sync_mark_file_batdata_write (de_mark e) (fw_disk w) s;
            let w := fw_set_log w d (fw_bctx w) in
            if negb (ret =? 0) then Ret (w, s, F_SYNC_ERROR, true) else data_loop f env (S k) m w s
          else data_loop f env (S k) m w s
      end
  end.

(** [fw_bctx] is [rbctx]. *)
Definition __full_sync_data_from_master (fuel : nat) (ce : ctx_env) (env : nat -> data_env) (last : mark_env) (m : block_mount) (ipaddr : bytes) (port : Z) (w : fworld) :
    outcome (fworld * full_sync_state) :=
  '(d, s, ret) ← fullsyncctx_init ce ipaddr port (fw_disk w);
  let w := fw_set_log w d (fw_bctx w) in
  if negb (ret =? 0) then Ret (w, F_SYNC_ERROR)
  else
    '(w, s, st, returned) ← data_loop fuel env 0 m w s;
    if returned : bool then Ret (w, st)
    else if negb (last_sync_count s =? sync_count s) then
      '(d, s, ret) ← sync_mark_file_batdata_write last (fw_disk w) s;
      let w := fw_set_log w d (fw_bctx w) in
      if negb (ret =? 0) then Ret (w, F_SYNC_ERROR) else Ret (w, st)
    else Ret (w, st).

(** ** The whole synchronisation *)

(** One round of the [while] of [full_sync_from_master]: the results of [socket],
    [set_noblock] and [connectserver_nb], and the connection. *)
Record round_env := mk_round {
  ro_socket : Z;
  ro_noblock : Z;
  ro_connect : Z;
  ro_sock : sock;
  ro_junk : bytes;
  ro_fuel : nat;
  ro_ctx : ctx_env;
  ro_data : nat -> data_env;
  ro_last : mark_env
}.

(** The label [err]: [sfd] is open, so that the connection is counted as closed
    whether or not it was counted as opened. *)
Fixpoint full_sync_from_master (rounds : list round_env) (m : block_mount) (ipaddr : bytes) (port : Z) (nfaild : Z) (w : fworld) (c : conn_counts) :
    outcome (fworld * conn_counts * full_sync_state) :=
  match rounds with
  | [] => Crash Diverged
  | ro :: rounds' =>
      if ro_socket ro <? 0 then Ret (w, c, F_SYNC_NETWORK_ERROR)
      else if negb (ro_noblock ro =? 0) then Ret (w, conn_closed c, F_SYNC_NETWORK_ERROR)
      else if negb (ro_connect ro =? 0) then
        if 3 <? nfaild then Ret (w, conn_closed c, F_SYNC_NETWORK_ERROR)
        else full_sync_from_master rounds' m ipaddr port (nfaild + 1) w (conn_rejected c)
      else
        let c := conn_opened c in
        '(w, st) ← __full_sync_binlog_from_master (de_full (ro_data ro 0)) (ro_junk ro) (ro_socket ro) (fw_set_sock w (ro_sock ro));
        match st with
        | F_SYNC_ERROR | F_SYNC_MARK_ERROR => Ret (w, conn_closed c, st)
        | F_SYNC_NETWORK_ERROR => full_sync_from_master rounds' m ipaddr port nfaild w (conn_closed c)
        | _ =>
            if 0 <? s32 (b_file_count (fw_fmark w) + rb_file_count (fw_fmark w)) then
              '(w, st) ← __full_sync_data_from_master (ro_fuel ro) (ro_ctx ro) (ro_data ro) (ro_last ro) m ipaddr port w;
              match st with
              | F_SYNC_FINISH | F_SYNC_ERROR => Ret (w, conn_closed c, st)
              | F_SYNC_NETWORK_ERROR => full_sync_from_master rounds' m ipaddr port nfaild w (conn_closed c)
              | _ => full_sync_from_master rounds' m ipaddr port nfaild w c
              end
            else Ret (w, conn_closed c, F_SYNC_FINISH)
        end
  end.

(** ** The receiving side *)

(** What [handle_cmd_asynccopyfile] of ds_service.c puts into the file context. *)
Record copy_ctx := mk_copy { cp_timestamp : Z; cp_id : bytes; cp_size : Z; cp_path : bytes }.

(** [body] is what follows the header at [rcurr].  The id is copied to an array of
    256 zeros whatever its length; [None] is the [return LFS_ERROR] of the macro. *)
Definition handle_cmd_asynccopyfile (m : block_mount) (body : bytes) : outcome (option copy_ctx) :=
  ts ← buff2long body;
  n ← buff2long (drop 8 body);
  let n := s32 n in
  if (0 <=? n) && (n <=? Z.of_nat LFS_FILE_ID_SIZE) then
    id ← buf_read body 16 (Z.to_nat n);
    size ← buff2long (drop (16 + Z.to_nat n) body);
    f_id ← c_string (pad LFS_FILE_ID_SIZE id);
    match LFS_SPLIT_BLOCK_INDEX_BY_FILE_ID f_id with
    | None => Ret None
    | Some (pblock_index, name) =>
        blk ← get_mount m (atoi pblock_index);
        path ← c_string (mount_path blk);
        let full := path ++ [LFS_FILE_ID_SEPERATOR] ++ name in
        if (length full <? LFS_FILE_BLOCK_MAP_NAME_SIZE)%nat then Ret (Some (mk_copy ts f_id size full)) else Crash OutOfBounds
    end
  else Crash OutOfBounds.

(** ** Lemmas: a session *)

Lemma reading_ext d s d' s' ls : reading d s ls -> b_fd s' = b_fd s -> b_index s' = b_index s -> b_buff s' = b_buff s ->
  file_of d' (b_index s) = file_of d (b_index s) -> reading d' s' ls.
Proof. intros [H1 H2 H3 H4] E1 E2 E3 E4. split; rewrite ?E1, ?E2, ?E3, ?E4; done. Qed.

(** The context counts [k] records of the lines [ls] of its file as passed, and
    the mark file says so unless the counters differ. *)
Record marked_at (ls : list bytes) (name : bytes) (idx : Z) (st : async_state) (k : nat) : Prop := {
  ma_index : b_index (as_sctx st) = idx;
  ma_file : bd_files (as_disk st) !! b_index (as_sctx st) = Some (concat ls);
  ma_offset : b_offset (as_sctx st) = zlen (concat (take k ls));
  ma_le : (k <= length ls)%nat;
  ma_m_fd : m_fd (as_sctx st) = -1;
  ma_name : f_mark (as_sctx st) = name;
  ma_mark : last_sync_count (as_sctx st) = sync_count (as_sctx st) ->
    bd_marks (as_disk st) !! name = Some (pr_record (mark_fields (as_sctx st)));
  ma_counts : last_sync_count (as_sctx st) <= sync_count (as_sctx st)
}.

(** The reader is at that record. *)
Definition at_record (ls : list bytes) (name : bytes) (idx : Z) (st : async_state) (k : nat) : Prop :=
  marked_at ls name idx st k /\ reading (as_disk st) (as_sctx st) (drop k ls) /\ b_index (as_sctx st) = curr_binlog_file_index (as_bctx st).

(** Whole records are added to the log. *)
Definition adds_records (m : block_mount) (more : bytes) : Prop := exists ls rs, Forall2 (line_of m) ls rs /\ more = concat ls.

Definition env_ok (m : block_mount) (e : async_env) : Prop := read_ok (ae_read e) /\ marks_ok (ae_mark e) /\ is_s 64 (ae_time e) /\ adds_records m (ae_more e).

(** The bytes added in the rounds [i] up to [i + n]. *)
Fixpoint more_bytes (env : nat -> async_env) (i n : nat) : Z :=
  match n with O => 0 | S n => zlen (ae_more (env i)) + more_bytes env (S i) n end.

Lemma more_bytes_pos env i n : 0 <= more_bytes env i n.
Proof. revert i. induction n as [|n IH]; intros i; cbn; [lia|]. specialize (IH (S i)). pose proof (zlen_pos (ae_more (env i))). lia. Qed.

Lemma concat_take_app (ls more : list bytes) k : (k <= length ls)%nat -> concat (take k (ls ++ more)) = concat (take k ls).
Proof. intros H. by rewrite take_app_le. Qed.

(** A reader goes on in a file that has grown. *)
Lemma reading_grows d s ls more b : reading d s ls -> curr_binlog_file_index b = b_index s -> reading (log_grows (concat more) b d) s (ls ++ more).
Proof.
  intros [ (o & Hfd & Ho & Hc) Hr Hcut He] Hi. assert (file_of (log_grows (concat more) b d) (b_index s) = file_of d (b_index s) ++ concat more) as Hf
    by (unfold log_grows, append, file_of at 1; cbn; by rewrite Hi, lookup_insert_eq).
  pose proof (zlen_pos (concat more)). split; [|done| |done].
  - exists o. rewrite Hf, zlen_app, concat_app. split_and!; [done|lia|lia|]. rewrite drop_app_le by (unfold zlen in Ho; lia). by rewrite app_assoc, Hc.
  - destruct Hcut as [ [k Hk]|Hk]; [left|by right]. exists (Nat.min k (length ls)). rewrite concat_take_app by lia. rewrite Hk. f_equal.
    destruct (Nat.le_gt_cases k (length ls)); [by rewrite Nat.min_l|]. by rewrite Nat.min_r, !take_ge by lia.
Qed.

Lemma zlen_take_S (ls : list bytes) k l : ls !! k = Some l -> zlen (concat (take (S k) ls)) = zlen (concat (take k ls)) + zlen l.
Proof. intros H. by rewrite (take_S_r _ _ _ H), concat_snoc, zlen_app. Qed.

Section Session.
Context (ls : list bytes) (rs : list binlog_record) (m : block_mount) (name : bytes) (idx sfd : Z) (fs : files).
Hypothesis Hrs : Forall2 (line_of m) ls rs.

(** A round without a record leaves everything as it is. *)
Lemma round_nodata e st : env_ok m e -> at_record ls name idx st (length ls) ->
  exists st', async_round e m sfd fs st = Ret (st', None) /\ at_record ls name idx st' (length ls) /\ as_trace st' = as_trace st /\
    sync_count (as_sctx st') = sync_count (as_sctx st) /\ last_timestamp (as_sctx st') = last_timestamp (as_sctx st) /\ as_bctx st' = as_bctx st.
Proof.
  intros (He & _) ([H0 H1 H2 H3 H4 H5 H6 H7] & Hr & Hc). rewrite drop_all in Hr. unfold async_round.
  rewrite (binlog_read_nodata _ m _ _ _ He Hr Hc). cbn [mbind outcome_bind]. change (B_FILE_NODATA =? B_FILE_OK) with false.
  change (B_FILE_NODATA =? B_FILE_NODATA) with true. cbv iota. cbn [mbind outcome_bind]. eexists. split; [reflexivity|]. split; [|done].
  split; [by split|]. cbn [as_disk as_sctx as_bctx]. rewrite drop_all. split; [by apply reading_end|done].
Qed.

(** A round with a record hands it to [__async_handle]; it is counted when that
    returns 0, and not otherwise. *)
Lemma round_record e st k r st' x : env_ok m e -> at_record ls name idx st k -> rs !! k = Some r -> async_round e m sfd fs st = Ret (st', x) ->
  exists ret, as_trace st' = as_trace st ++ [(r, ret)] /\ as_bctx st' = as_bctx st /\
    if ret =? LFS_OK then x = None /\ at_record ls name idx st' (S k) /\ sync_count (as_sctx st') = sync_count (as_sctx st) + 1 /\ last_timestamp (as_sctx st') = ae_time e
    else x = Some true /\ marked_at ls name idx st' k /\ sync_count (as_sctx st') = sync_count (as_sctx st) /\ last_timestamp (as_sctx st') = last_timestamp (as_sctx st).
Proof.
  intros (He & Hm & _) ([H0 H1 H2 H3 H4 H5 H6 H7] & Hrd & Hc) Hr H. destruct (Forall2_lookup_r _ _ _ _ _ Hrs Hr) as (l & Hl & [Hok Hp]).
  rewrite (drop_S _ _ _ Hl) in Hrd. unfold async_round in H.
  destruct (binlog_read_next (ae_read e) m (as_disk st) (as_bctx st) (as_sctx st) l _ He Hrd Hok) as (s1 & Hr1 & Hi1 & Hb). rewrite Hb, Hp in H.
  cbn [mbind outcome_bind] in H. change (B_FILE_OK =? B_FILE_OK) with true in H. cbv iota in H.
  injection Hi1 as E1 E2 E3 E4 E5 E6 E7. apply bind_Ret in H as ([st1 go] & Hh & H). apply bind_Ret in Hh as ([k1 ret] & _ & Hh).
  injection Hh as <- <-. exists ret. destruct (Z.eqb_spec ret LFS_OK) as [Eret|Hne]; cycle 1.
  { cbn [negb] in H. injection H as <- <-. split; [done|]. split; [done|]. split_and!; [done| |done|done]. split; cbn [as_disk as_sctx as_bctx]; try congruence.
    intros Hq. rewrite <- E7, <- E6 in H6. rewrite (H6 Hq). unfold mark_fields. by rewrite E2, E4, E5, E6. }
  subst ret. cbn [negb as_sctx as_disk as_bctx as_sock as_trace] in H. set (s2 := advance s1 (zlen l) (ae_time e)) in *.
  assert (forall d s, b_fd s = b_fd s2 -> b_index s = b_index s2 -> b_buff s = b_buff s2 -> b_offset s = b_offset s2 -> f_mark s = f_mark s2 -> m_fd s = m_fd s2 ->
    bd_files d = bd_files (as_disk st) -> (last_sync_count s = sync_count s -> bd_marks d !! name = Some (pr_record (mark_fields s))) -> last_sync_count s <= sync_count s ->
    at_record ls name idx (mk_async d (as_bctx st) s k1 (as_trace st ++ [(r, LFS_OK)])) (S k)) as Hnext.
  { intros d s F1 F2 F3 F4 F5 F6 F7 F8 F9. split_and!; [split| |]; cbn [as_disk as_bctx as_sctx]; try done; unfold s2 in *; cbn in *; try congruence.
    - by rewrite F4, (zlen_take_S _ _ _ Hl), E5, H2.
    - by apply lookup_lt_Some in Hl.
    - eapply reading_ext; [exact Hr1|done|done|done|]. unfold file_of. by rewrite F7. }
  destruct (WRITE_TO_BAT_FILE_BY_SYNC_COUNT <=? sync_count s2 - last_sync_count s2) eqn:Ew.
  - rewrite (mark_write_ok _ (as_disk st) s2 Hm) in H by (unfold s2; cbn; congruence). cbn [mbind outcome_bind] in H. injection H as <- <-. split; [done|]. split; [done|].
    split_and!; [done| |unfold s2; cbn; lia|done]. apply Hnext; try done. intros _. unfold s2. cbn. assert (f_mark s1 = name) as -> by congruence. by rewrite lookup_insert_eq.
  - injection H as <- <-. split; [done|]. split; [done|]. split_and!; [done| |unfold s2; cbn; lia|done]. apply Hnext; try done; unfold s2; cbn; [intros Hq; exfalso|]; lia.
Qed.

End Session.

Lemma marked_grows ls more name idx st k : marked_at ls name idx st k -> curr_binlog_file_index (as_bctx st) = b_index (as_sctx st) ->
  marked_at (ls ++ more) name idx (mk_async (log_grows (concat more) (as_bctx st) (as_disk st)) (as_bctx st) (as_sctx st) (as_sock st) (as_trace st)) k.
Proof.
  intros [M0 M1 M2 M3 M4 M5 M6 M7] Hi. split; cbn [as_disk as_bctx as_sctx]; try done; [|by rewrite concat_take_app|rewrite length_app; lia].
  unfold log_grows, append, file_of. rewrite Hi, M1. cbn. by rewrite lookup_insert_eq, concat_app.
Qed.

Lemma at_record_grows ls more name idx st k : at_record ls name idx st k ->
  at_record (ls ++ more) name idx (mk_async (log_grows (concat more) (as_bctx st) (as_disk st)) (as_bctx st) (as_sctx st) (as_sock st) (as_trace st)) k.
Proof.
  intros (Hm & Hr & Hc). split; [by apply marked_grows|]. split; [|done]. cbn [as_disk as_sctx]. rewrite drop_app_le by apply (ma_le _ _ _ _ _ Hm). by apply reading_grows.
Qed.

(** The records [k] up to [j], sent with success. *)
Definition sent (rs : list binlog_record) (k j : nat) : list (binlog_record * Z) := (fun r => (r, LFS_OK)) <$> take (j - k) (drop k rs).

Lemma sent_next rs k j r : rs !! k = Some r -> (S k <= j)%nat -> sent rs k j = (r, LFS_OK) :: sent rs (S k) j.
Proof. intros Hr Hj. unfold sent. rewrite (drop_S _ _ _ Hr). replace (j - k)%nat with (S (j - S k)) by lia. done. Qed.

Lemma sent_grows rs more k j : (j <= length rs)%nat -> sent (rs ++ more) k j = sent rs k j.
Proof.
  intros H. unfold sent. destruct (Nat.le_gt_cases k j) as [Hk|Hk]; [|by replace (j - k)%nat with O by lia].
  rewrite drop_app_le by lia. by rewrite take_app_le by (rewrite length_drop; lia).
Qed.

(** What a loop has done over a log that has grown by [more]: it has sent the
    records [k] to [j], and has stopped at the first failure if there was one; without a
    failure every round has sent a record as long as there was one. *)
Lemma loop_spec m name idx sfd fs n env : forall i st k st' run ls rs, Forall2 (line_of m) ls rs -> (forall x, env_ok m (env x)) -> at_record ls name idx st k -> is_s 64 (last_timestamp (as_sctx st)) ->
  async_loop n env i m sfd fs st = Ret (st', run) ->
  exists j tail more rmore, Forall2 (line_of m) more rmore /\ zlen (concat more) <= more_bytes env i n /\
    (k <= j <= length (ls ++ more))%nat /\ as_trace st' = as_trace st ++ sent (rs ++ rmore) k j ++ tail /\ marked_at (ls ++ more) name idx st' j /\ run = true /\
    (tail = [] /\ (Nat.min (k + n) (length ls) <= j)%nat \/ exists r ret, (rs ++ rmore) !! j = Some r /\ ret <> LFS_OK /\ tail = [(r, ret)]) /\
    sync_count (as_sctx st) <= sync_count (as_sctx st') <= sync_count (as_sctx st) + Z.of_nat n /\ is_s 64 (last_timestamp (as_sctx st')) /\ as_bctx st' = as_bctx st.
Proof.
  induction n as [|n IH]; intros i st k st' run ls rs Hrs Henv Ha Ht H; cbn [async_loop more_bytes] in *.
  - injection H as <- <-. destruct Ha as [Ha _]. pose proof (ma_le _ _ _ _ _ Ha). exists k, [], [], []. rewrite !app_nil_r. unfold sent. rewrite Nat.sub_diag.
    split_and!; [constructor|done|lia|lia|by rewrite app_nil_r|done|done|left; split; [done|lia]|lia|lia|done|done].
  - destruct (Henv i) as (_ & _ & _ & g & gr & Hg & Hge). rewrite Hge in *. set (st0 := mk_async _ _ _ _ _) in H. pose proof (at_record_grows ls g name idx st k Ha) as Ha0. change (mk_async _ _ _ _ _) with st0 in Ha0.
    assert (Forall2 (line_of m) (ls ++ g) (rs ++ gr)) as Hrs0 by (by apply Forall2_app). set (ls0 := ls ++ g) in *. set (rs0 := rs ++ gr) in *.
    assert (length ls <= length ls0)%nat as Hlen by (unfold ls0; rewrite length_app; lia). pose proof (more_bytes_pos env (S i) n) as Hmb. pose proof (zlen_pos (concat g)) as Hzg.
    apply bind_Ret in H as ([st1 x] & Hr & H).
    (* the rest of the rounds *)
    assert (forall k1 (Hk1 : (k <= k1)%nat), at_record ls0 name idx st1 k1 -> is_s 64 (last_timestamp (as_sctx st1)) -> as_bctx st1 = as_bctx st -> (Nat.min (S k) (length ls0) <= k1)%nat ->
      as_trace st1 = as_trace st ++ sent rs0 k k1 -> sync_count (as_sctx st) <= sync_count (as_sctx st1) <= sync_count (as_sctx st) + 1 -> async_loop n env (S i) m sfd fs st1 = Ret (st', run) ->
      exists j tail more rmore, Forall2 (line_of m) more rmore /\ zlen (concat more) <= zlen (concat g) + more_bytes env (S i) n /\
        (k <= j <= length (ls ++ more))%nat /\ as_trace st' = as_trace st ++ sent (rs ++ rmore) k j ++ tail /\ marked_at (ls ++ more) name idx st' j /\ run = true /\
        (tail = [] /\ (Nat.min (k + S n) (length ls) <= j)%nat \/ exists r ret, (rs ++ rmore) !! j = Some r /\ ret <> LFS_OK /\ tail = [(r, ret)]) /\
        sync_count (as_sctx st) <= sync_count (as_sctx st') <= sync_count (as_sctx st) + Z.of_nat (S n) /\ is_s 64 (last_timestamp (as_sctx st')) /\ as_bctx st' = as_bctx st) as Hgo.
    { intros k1 Hk1 Ha1 Ht1 Hb1 Hmin Htr1 Hc1 Hl. destruct (IH (S i) st1 k1 st' run ls0 rs0 Hrs0 Henv Ha1 Ht1 Hl) as (j & tail & more & rmore & G1 & G2 & G3 & G4 & G5 & G6 & G7 & G8 & G9 & G10).
      pose proof (ma_le _ _ _ _ _ (proj1 Ha1)) as Hk1l. pose proof (Forall2_length _ _ _ Hrs0) as Hl0.
      exists j, tail, (g ++ more), (gr ++ rmore). unfold ls0, rs0 in *. rewrite <- app_assoc in G3, G5. rewrite <- !app_assoc in G4. rewrite <- !app_assoc in G7.
      rewrite concat_app, zlen_app. split_and!; [by apply Forall2_app|lia|lia|lia| |done|done| |lia|lia|done|congruence].
      - rewrite G4, Htr1, <- app_assoc. f_equal. rewrite app_assoc. f_equal. rewrite app_assoc, <- (sent_grows (rs ++ gr) rmore k k1) by lia. unfold sent. rewrite <- fmap_app. f_equal.
        replace (drop k1 ((rs ++ gr) ++ rmore)) with (drop (k1 - k) (drop k ((rs ++ gr) ++ rmore))) by (rewrite drop_drop; f_equal; lia). rewrite take_take_drop. f_equal. lia.
      - destruct G7 as [ [-> G7]|G7]; [left|by right]. split; [done|]. lia. }
    destruct (Nat.lt_ge_cases k (length ls0)) as [Hk|Hk].
    + destruct (lookup_lt_is_Some_2 rs0 k) as [r Hrk]; [by rewrite <- (Forall2_length _ _ _ Hrs0)|].
      destruct (round_record ls0 rs0 m name idx sfd fs Hrs0 (env i) st0 k r st1 x (Henv i) Ha0 Hrk Hr) as (ret & Htr & Hbc & Hx). destruct (Z.eqb_spec ret LFS_OK) as [->|Hne].
      * destruct Hx as (-> & Ha1 & Hc & Hti). apply (Hgo (S k)); try done; [lia|rewrite Hti; by apply Henv|lia| |cbn in Hc; lia].
        rewrite Htr. cbn [as_trace st0]. f_equal. by rewrite (sent_next rs0 k (S k) r Hrk ltac:(lia)); unfold sent; rewrite Nat.sub_diag.
      * destruct Hx as (-> & Hma & Hc & Hti). injection H as <- <-. exists k, [(r, ret)], g, gr. fold ls0 rs0. unfold sent. rewrite Nat.sub_diag. cbn [take fmap list_fmap app].
        split_and!; [done|lia|lia|lia|by rewrite Htr|done|done|right; by exists r, ret|cbn in Hc; lia|cbn in Hc; lia|by rewrite Hti|done].
    + assert (k = length ls0) as Ek by (pose proof (ma_le _ _ _ _ _ (proj1 Ha0)); lia). rewrite Ek in Ha0.
      destruct (round_nodata ls0 m name idx sfd fs (env i) st0 (Henv i) Ha0) as (st2 & Hr2 & Ha2 & Htr2 & Hc2 & Hti2 & Hbc2). rewrite Hr2 in Hr. injection Hr as <- <-. rewrite <- Ek in Ha2.
      apply (Hgo k); try done; [by rewrite Hti2|lia| |cbn in Hc2; lia]. rewrite Htr2. unfold sent. rewrite Nat.sub_diag. by rewrite app_nil_r.
Qed.

Lemma zlen_take_le (ls : list bytes) j : zlen (concat (take j ls)) <= zlen (concat ls).
Proof. rewrite <- (take_drop j ls) at 2. rewrite concat_app, zlen_app. pose proof (zlen_pos (concat (drop j ls))). lia. Qed.

(** After a session the mark file names the place that the context counts. *)
Lemma session_marked n env last m sfd fs st k st' run ls rs name idx : Forall2 (line_of m) ls rs -> (forall x, env_ok m (env x)) -> marks_ok last ->
  at_record ls name idx st k -> is_s 64 (last_timestamp (as_sctx st)) -> async_session n env last m sfd fs st = Ret (st', run) ->
  exists j tail t c more rmore, Forall2 (line_of m) more rmore /\ zlen (concat more) <= more_bytes env 0 n /\
    (k <= j <= length (ls ++ more))%nat /\ as_trace st' = as_trace st ++ sent (rs ++ rmore) k j ++ tail /\ run = true /\
    (tail = [] /\ (Nat.min (k + n) (length ls) <= j)%nat \/ exists r ret, (rs ++ rmore) !! j = Some r /\ ret <> LFS_OK /\ tail = [(r, ret)]) /\
    bd_marks (as_disk st') !! name = Some (pr_record (idx, t, zlen (concat (take j (ls ++ more))), c)) /\ bd_files (as_disk st') !! idx = Some (concat (ls ++ more)) /\
    sync_count (as_sctx st) <= c <= sync_count (as_sctx st) + Z.of_nat n /\ is_s 64 t /\ as_bctx st' = as_bctx st.
Proof.
  intros Hrs Henv Hl Ha Ht H. unfold async_session in H. apply bind_Ret in H as ([st1 run1] & Hloop & H).
  destruct (loop_spec m name idx sfd fs n env 0 st k st1 run1 ls rs Hrs Henv Ha Ht Hloop) as (j & tail & more & rmore & Hmore & Hmb & Hj & Htr & [M0 M1 M2 M3 M4 M5 M6 M7] & -> & Htail & Hc & Ht' & Hbc).
  exists j, tail, (last_timestamp (as_sctx st1)), (sync_count (as_sctx st1)), more, rmore.
  assert (mark_fields (as_sctx st1) = (idx, last_timestamp (as_sctx st1), zlen (concat (take j (ls ++ more))), sync_count (as_sctx st1))) as Hmf
    by (unfold mark_fields; by rewrite M0, M2).
  destruct (Z.eqb_spec (last_sync_count (as_sctx st1)) (sync_count (as_sctx st1))) as [E|E]; cbn [negb] in H.
  - injection H as <- <-. rewrite M0 in M1. cbn [as_trace as_disk]. rewrite <- Hmf. split_and!; try done; try lia. by apply M6.
  - rewrite (mark_write_ok _ _ _ Hl M4) in H. cbn [mbind outcome_bind] in H. change (negb (LFS_OK =? 0)) with false in H. cbv iota in H. injection H as <- <-.
    rewrite M0 in M1. cbn [as_trace as_disk]. rewrite <- Hmf. split_and!; try done; try lia. cbn. by rewrite M5, lookup_insert_eq.
Qed.

(** After a session the thread connects again where the mark says. *)
Lemma session_reopens n env last ce ip port seq m sfd fs st k st' run ls rs idx : Forall2 (line_of m) ls rs -> (forall x, env_ok m (env x)) -> marks_ok last -> opens_ok ce ->
  at_record ls (cut_mark (to_mark ip port)) idx st k -> as_trace st = [] -> is_s 64 (last_timestamp (as_sctx st)) -> 0 <= idx < 2 ^ 31 ->
  0 <= sync_count (as_sctx st) -> sync_count (as_sctx st) + Z.of_nat n < 2 ^ 63 -> zlen (concat ls) + more_bytes env 0 n < 2 ^ 63 ->
  async_session n env last m sfd fs st = Ret (st', run) ->
  exists j tail s2 more rmore, Forall2 (line_of m) more rmore /\ (k <= j <= length (ls ++ more))%nat /\ as_trace st' = sent (rs ++ rmore) k j ++ tail /\
    asyncctx_init ce ip port seq (as_disk st') (as_bctx st') = Ret (as_disk st', s2, LFS_OK) /\ reading (as_disk st') s2 (drop j (ls ++ more)).
Proof.
  intros Hrs Henv Hl Hce Ha Htr0 Ht Hcur Hc0 Hcn Hlen H.
  destruct (session_marked n env last m sfd fs st k st' run ls rs _ _ Hrs Henv Hl Ha Ht H) as (j & tail & t & c & more & rmore & Hmore & Hmb & Hj & Htr & _ & Htail & Hmark & Hfile & Hc & Ht' & _).
  pose proof (zlen_take_le (ls ++ more) j) as Hle. pose proof (zlen_pos (concat (take j (ls ++ more)))). rewrite concat_app, zlen_app in Hle.
  destruct (mark_reopen ce ip port seq (as_disk st') (as_bctx st') idx t (ls ++ more) j c Hce Hmark) as (s2 & Hi & _ & Hr & _); [|done|].
  { cbn. unfold is_s in *. split_and!; cbn; lia. }
  exists j, tail, s2, more, rmore. split_and!; try done; try lia. by rewrite Htr, Htr0.
Qed.

(** A session that starts with a record that fails. *)
Lemma session_fails n env last m sfd fs st k ls rs name idx r ret : Forall2 (line_of m) ls rs -> env_ok m (env 0%nat) -> marks_ok last ->
  at_record ls name idx st k -> rs !! k = Some r ->
  (forall s, __async_handle (ae_sendfile (env 0%nat)) (ae_errno (env 0%nat)) sfd fs s r = Ret (s, ret)) -> ret <> LFS_OK ->
  exists st', async_session (S n) env last m sfd fs st = Ret (st', true) /\ as_trace st' = as_trace st ++ [(r, ret)].
Proof.
  intros Hrs (He & _ & _ & g & gr & Hg & Hge) Hl Ha Hr Hh Hne. destruct (at_record_grows ls g name idx st k Ha) as ([H0 H1 H2 H3 H4 H5 H6 H7] & Hrd & Hc).
  assert (Forall2 (line_of m) (ls ++ g) (rs ++ gr)) as Hrs' by (by apply Forall2_app). assert ((rs ++ gr) !! k = Some r) as Hr' by (by apply lookup_app_l_Some).
  destruct (Forall2_lookup_r _ _ _ _ _ Hrs' Hr') as (l & Hlk & [Hok Hp]).
  rewrite (drop_S _ _ _ Hlk) in Hrd. unfold async_session. cbn [async_loop]. rewrite Hge. set (st0 := mk_async _ _ _ _ _) in *. unfold async_round.
  destruct (binlog_read_next (ae_read (env 0%nat)) m (as_disk st0) (as_bctx st0) (as_sctx st0) l _ He Hrd Hok) as (s1 & Hr1 & Hi1 & Hb). rewrite Hb, Hp.
  cbn [mbind outcome_bind]. change (B_FILE_OK =? B_FILE_OK) with true. cbv iota. rewrite Hh. cbn [mbind outcome_bind]. rewrite (proj2 (Z.eqb_neq _ _) Hne). cbn [negb].
  injection Hi1 as E1 E2 E3 E4 E5 E6 E7. cbn [mbind outcome_bind as_sctx as_disk as_bctx as_sock as_trace].
  destruct (negb (last_sync_count s1 =? sync_count s1)); [|eexists; split; [reflexivity|done] ].
  rewrite (mark_write_ok _ _ _ Hl) by (cbn [as_sctx st0] in *; congruence). cbn [mbind outcome_bind]. change (negb (LFS_OK =? 0)) with false. cbv iota. eexists. split; [reflexivity|done].
Qed.

(** ** Lemmas: the thread *)

(** The mark file of the thread says that [k] records of [ls] have been sent. *)
Record thread_at (ls : list bytes) (ip : bytes) (port : Z) (k : nat) (c : Z) (t : thread_state) : Prop := {
  ta_index : 0 <= curr_binlog_file_index (tt_bctx t) < 2 ^ 31;
  ta_file : bd_files (tt_disk t) !! curr_binlog_file_index (tt_bctx t) = Some (concat ls);
  ta_le : (k <= length ls)%nat;
  ta_mark : exists now, is_s 64 now /\
    bd_marks (tt_disk t) !! cut_mark (to_mark ip port) = Some (pr_record (curr_binlog_file_index (tt_bctx t), now, zlen (concat (take k ls)), c))
}.

(** The calls for the log and the mark file succeed, and whole records are added to
    the log; the network may do what it likes. *)
Definition thread_ok (m : block_mount) (e : thread_env) : Prop := opens_ok (th_ctx e) /\ (forall x, env_ok m (th_env e x)) /\ marks_ok (th_last e) /\ adds_records m (th_more e).

(** The bytes added to the log before and in a round of the thread. *)
Definition th_bytes (e : thread_env) : Z := zlen (th_more e) + more_bytes (th_env e) 0 (th_rounds e).

Lemma thread_at_counts ls ip port k c t n : thread_at ls ip port k c t -> thread_at ls ip port k c (tt_set_counts t n).
Proof. by intros []; split. Qed.

Lemma thread_at_grows ls more ip port k c t : thread_at ls ip port k c t ->
  thread_at (ls ++ more) ip port k c (mk_thread (log_grows (concat more) (tt_bctx t) (tt_disk t)) (tt_bctx t) (tt_counts t) (tt_trace t)).
Proof.
  intros [A1 A2 A3 A4]. split; cbn [tt_disk tt_bctx]; [done| |rewrite length_app; lia|by rewrite concat_take_app].
  unfold log_grows, append, file_of. rewrite A2. cbn. by rewrite lookup_insert_eq, concat_app.
Qed.

(** From [t] to [t'] the log has grown by [more], and the records [k] to [j] have been
    sent, each with success once, in at most [n] rounds. *)
Definition progressed (m : block_mount) (ls : list bytes) (rs : list binlog_record) (ip : bytes) (port : Z) (k : nat) (c n bytes : Z) (t t' : thread_state) (j : nat) (new : list (binlog_record * Z)) : Prop :=
  exists c' more rmore, Forall2 (line_of m) more rmore /\ zlen (concat more) <= bytes /\ (k <= j)%nat /\ c <= c' <= c + n /\
    tt_trace t' = tt_trace t ++ new /\ filter (fun x => x.2 = LFS_OK) new = sent (rs ++ rmore) k j /\ thread_at (ls ++ more) ip port j c' t'.

Lemma progressed_none m ls rs ip port k c n bytes t t' : 0 <= n -> 0 <= bytes -> thread_at ls ip port k c t' -> tt_trace t' = tt_trace t -> progressed m ls rs ip port k c n bytes t t' k [].
Proof. intros Hn Hb Ht Htr. exists c, [], []. unfold sent. rewrite Nat.sub_diag, !app_nil_r. split_and!; try done; lia. Qed.

Lemma filter_sent rs k j tail : Forall (fun x => x.2 <> LFS_OK) tail -> filter (fun x : binlog_record * Z => x.2 = LFS_OK) (sent rs k j ++ tail) = sent rs k j.
Proof.
  intros Ht. rewrite filter_app. assert (filter (fun x : binlog_record * Z => x.2 = LFS_OK) tail = []) as ->.
  { induction Ht as [|x l Hx _ IH]; [done|]. rewrite filter_cons_False by done. exact IH. }
  rewrite app_nil_r. unfold sent. induction (take (j - k) (drop k rs)) as [|r l IH]; [done|]. cbn [fmap list_fmap]. rewrite filter_cons_True by done. by f_equal.
Qed.

Lemma sent_join rs k j i : (k <= j <= i)%nat -> sent rs k j ++ sent rs j i = sent rs k i.
Proof.
  intros H. unfold sent. rewrite <- fmap_app. f_equal. replace (drop j rs) with (drop (j - k) (drop k rs)) by (rewrite drop_drop; f_equal; lia).
  rewrite take_take_drop. f_equal. lia.
Qed.

(** A connection: the session sends the records from [k] on. *)
Lemma thread_session e m fs ip port ls rs k c t d s st run : Forall2 (line_of m) ls rs -> thread_ok m e -> thread_at ls ip port k c t ->
  0 <= c -> c + Z.of_nat (th_rounds e) < 2 ^ 63 -> zlen (concat ls) < 2 ^ 63 ->
  asyncctx_init (th_ctx e) ip port (th_sequence e) (tt_disk t) (tt_bctx t) = Ret (d, s, LFS_OK) ->
  async_session (th_rounds e) (th_env e) (th_last e) m (th_socket e) fs (mk_async d (tt_bctx t) s (th_sock e) (tt_trace t)) = Ret (st, run) ->
  exists j new, (forall n, progressed m ls rs ip port k c (Z.of_nat (th_rounds e)) (more_bytes (th_env e) 0 (th_rounds e)) t (mk_thread (as_disk st) (as_bctx st) n (as_trace st)) j new) /\
    (Forall (fun x => x.2 = LFS_OK) new -> (Nat.min (k + th_rounds e) (length ls) <= j)%nat).
Proof.
  intros Hrs (Hce & Henv & Hl & _) [Hidx Hfile Hk (now & Hnow & Hmark)] Hc0 Hc Hlen Hi Hs.
  pose proof (zlen_take_le ls k). pose proof (zlen_pos (concat (take k ls))).
  destruct (mark_reopen (th_ctx e) ip port (th_sequence e) (tt_disk t) (tt_bctx t) _ now ls k c Hce Hmark) as (s2 & Hi2 & Hmf & Hr & Hn & Hm & Hlast); [|done|].
  { cbn. unfold is_s in *. split_and!; cbn; lia. }
  rewrite Hi2 in Hi. injection Hi as <- <-. injection Hmf as M1 M2 M3 M4.
  apply (session_marked _ _ _ _ _ _ _ k _ _ ls rs (cut_mark (to_mark ip port)) (curr_binlog_file_index (tt_bctx t)) Hrs Henv Hl) in Hs
    as (j & tail & now' & c' & more & rmore & Hmore & Hmb & Hj & Htr & _ & Htail & Hmark' & Hfile' & Hc' & Hnow' & Hbc); cbn [as_sctx as_disk as_bctx as_trace] in *; [| |by rewrite M2].
  - rewrite M4 in Hc'. exists j, (sent (rs ++ rmore) k j ++ tail). split.
    + intros n. exists c', more, rmore. split_and!; [done|lia|lia|lia|lia|done| |].
      * apply filter_sent. destruct Htail as [ [-> _]|(r & ret & _ & Hne & ->)]; repeat constructor. done.
      * rewrite Hbc. split; cbn [tt_disk tt_bctx]; [done|done|lia|]. by exists now'.
    + intros Hok. destruct Htail as [ [_ Hmin]|(r & ret & _ & Hne & ->)]; [done|]. apply Forall_app in Hok as [_ Hok]. by apply Forall_cons in Hok as [Hok _].
  - split_and!; cbn [as_sctx as_disk as_bctx]; [split; cbn [as_sctx as_disk as_bctx]|done|done]; try done; try lia; try congruence.
    intros _. rewrite Hmark. unfold mark_fields. by rewrite M1, M2, M3, M4.
Qed.

(** A connection that is made: the loops go on before and after it. *)
Definition connected (e : thread_env) : Prop :=
  th_run e = true /\ th_state e <> deleted /\ 0 <= th_socket e /\ th_connect e = 0 /\ th_run2 e = true /\ (th_state2 e = active \/ th_state2 e = on_line).

Lemma thread_round_spec e m fs ip port ls rs k c pc t t' pc' : Forall2 (line_of m) ls rs -> thread_ok m e -> thread_at ls ip port k c t ->
  0 <= c -> c + Z.of_nat (th_rounds e) < 2 ^ 63 -> zlen (concat ls) < 2 ^ 63 -> thread_round e m fs ip port pc t = Ret (t', pc') ->
  exists j new, progressed m ls rs ip port k c (Z.of_nat (th_rounds e)) (more_bytes (th_env e) 0 (th_rounds e)) t t' j new /\ curr_conn_count (tt_counts t') = curr_conn_count (tt_counts t) /\
    (pc = InnerLoop -> connected e -> Forall (fun x => x.2 = LFS_OK) new -> (Nat.min (k + th_rounds e) (length ls) <= j)%nat).
Proof.
  intros Hrs He Ha Hc0 Hc Hlen H. pose proof (more_bytes_pos (th_env e) 0 (th_rounds e)) as Hmb. set (bytes := more_bytes _ _ _) in *.
  assert (forall n pc2, (pc = InnerLoop -> connected e -> False) -> curr_conn_count n = curr_conn_count (tt_counts t) -> Ret (tt_set_counts t n, pc2) = Ret (t', pc') ->
    exists j new, progressed m ls rs ip port k c (Z.of_nat (th_rounds e)) bytes t t' j new /\ curr_conn_count (tt_counts t') = curr_conn_count (tt_counts t) /\
    (pc = InnerLoop -> connected e -> Forall (fun x => x.2 = LFS_OK) new -> (Nat.min (k + th_rounds e) (length ls) <= j)%nat)) as Hcounts.
  { intros n pc2 Hno Hn [= <- <-]. exists k, []. split; [|split; [done|intros; exfalso; auto] ]. apply progressed_none; [lia|done|by apply thread_at_counts|done]. }
  unfold thread_round in H. destruct pc.
  - assert (forall pc2, Ret (t, pc2) = Ret (t', pc') -> Ret (tt_set_counts t (tt_counts t), pc2) = Ret (t', pc')) as Hsame by (by destruct t).
    destruct (_ || _); [by eapply Hcounts, Hsame, H|]. by destruct (th_state e); eapply Hcounts, Hsame, H.
  - destruct (negb (th_run e) || _) eqn:E1; [eapply Hcounts, H; [|done]; intros _ (K1 & K2 & _); rewrite K1, bool_decide_false in E1 by done; done|].
    destruct (Z.ltb_spec (th_socket e) 0) as [E2|_]; [eapply Hcounts, H; [|done]; intros _ (_ & _ & K3 & _); lia|].
    destruct (negb _ && _) eqn:E3; [eapply Hcounts, H; [|done]; intros _ (_ & _ & _ & K4 & _); by rewrite K4 in E3|]. cbv zeta in H.
    destruct (negb (th_run2 e) || _) eqn:E4; [eapply Hcounts, H; [|cbn; lia]; intros _ (_ & _ & _ & _ & K5 & K6); rewrite K5, bool_decide_false in E4 by (by destruct K6 as [-> | ->]); done|].
    assert (match asyncctx_init (th_ctx e) ip port (th_sequence e) (tt_disk t) (tt_bctx t) with Ret (d, _, ret) => d = tt_disk t /\ ret = LFS_OK | Crash _ => True end) as Hinit.
    { destruct Ha as [A1 A2 A3 (now & Hnow & A4)]. pose proof (zlen_take_le ls k). pose proof (zlen_pos (concat (take k ls))).
      destruct (mark_reopen (th_ctx e) ip port (th_sequence e) (tt_disk t) (tt_bctx t) _ now ls k c (proj1 He) A4) as (s2 & Hi2 & _); [|done|by rewrite Hi2].
      cbn. unfold is_s in *. split_and!; cbn; lia. }
    destruct (th_state2 e) eqn:E5; try (eapply Hcounts, H; [|cbn; lia]; intros _ (_ & _ & _ & _ & _ & K6); rewrite E5 in K6; by destruct K6);
      (apply bind_Ret in H as ([ [d s] ret] & Hi & H); cbn [tt_disk tt_bctx tt_set_counts tt_counts tt_trace] in Hi, H; rewrite Hi in Hinit;
      destruct Hinit as [-> ->]; change (negb (LFS_OK =? 0)) with false in H; cbv iota in H; apply bind_Ret in H as ([st run] & Hs & H);
      destruct (thread_session e m fs ip port ls rs k c t _ s st run Hrs He Ha Hc0 Hc Hlen Hi Hs) as (j & new & Hp & Hmin);
      exists j, new; destruct run; cbn [negb] in H; injection H as <- <-; (split; [apply Hp|split; [cbn; lia|by intros _ _]])).
Qed.

(** ** Theorems *)

Lemma buf_write_snoc a n d off : off = Z.of_nat (length a) -> (length d <= n)%nat -> buf_write (a ++ zeros n) off d = Ret ((a ++ d) ++ zeros (n - length d)).
Proof. intros -> Hn. rewrite (buf_write_zeros a n d 0) by lia. rewrite <- app_assoc. by rewrite Nat.sub_0_r. Qed.

(** The bytes of a request. *)
Lemma async_request_bytes r size : f_id_length r = zlen (f_id r) -> zlen (f_id r) <= Z.of_nat LFS_FILE_ID_SIZE ->
  async_request r size = Ret (header_bytes (24 + zlen (f_id r)) PROTOCOL_CMD_ASYNC_COPY_FILE 0 ++ zeros 6 ++
      long2buff (sequence r) ++ long2buff (zlen (f_id r)) ++ f_id r ++ long2buff size, 40 + zlen (f_id r)).
Proof.
  intros Hl Hmax. unfold async_request. rewrite Hl. change (LFS_STRUCT_PROP_LEN_SIZE8 * 3) with 24.
  change (Z.to_nat (sizeof_protocol_header + 24 + Z.of_nat LFS_FILE_ID_SIZE)) with 296%nat. unfold sizeof_protocol_header, LFS_STRUCT_PROP_LEN_SIZE8.
  pose proof (zlen_pos (f_id r)) as Hp. assert (length (f_id r) <= 256)%nat as Hf by (unfold zlen in Hmax; unfold LFS_FILE_ID_SIZE in Hmax; lia).
  set (H := header_bytes _ _ _). assert (length H = 10%nat) as HH by done. clearbody H.
  pose proof (buf_write_zeros [] 296 H 0 0 eq_refl) as W1. cbn [app length] in W1. rewrite W1 by lia. change (zeros 0) with (@nil Z). cbn [mbind outcome_bind app]. rewrite HH.
  assert (take (Z.to_nat (zlen (f_id r))) (f_id r ++ zeros (Z.to_nat (zlen (f_id r)) - length (f_id r))) = f_id r) as -> by (by apply take_zlen_app).
  rewrite (buf_write_zeros H 286 (long2buff (sequence r)) 6) by (rewrite ?HH, ?length_long2buff; lia). cbn [mbind outcome_bind].
  remember (zeros 6) as Z6 eqn:E6. assert (length Z6 = 6%nat) as H6 by (by rewrite E6). clear E6.
  rewrite !app_assoc. rewrite (buf_write_snoc ((H ++ Z6) ++ long2buff (sequence r))) by (rewrite ?length_app, ?HH, ?H6, ?length_long2buff; lia).
  cbn [mbind outcome_bind]. rewrite buf_write_snoc by (rewrite ?length_app, ?HH, ?H6, ?length_long2buff; lia).
  cbn [mbind outcome_bind]. rewrite buf_write_snoc by (rewrite ?length_app, ?HH, ?H6, ?length_long2buff; unfold zlen; lia).
  cbn [mbind outcome_bind]. f_equal. f_equal; [|lia]. apply take_zlen_app. rewrite !zlen_app. unfold zlen. rewrite HH, H6, !length_long2buff. lia.
Qed.

Lemma c_string_pad n s : no_nul s -> (length s < n)%nat -> c_string (pad n s) = Ret s.
Proof. intros Hs Hn. unfold pad, zeros. destruct (n - length s)%nat as [|k] eqn:E; [lia|]. cbn [replicate]. by apply c_string_nul. Qed.

(** The fields of the body. *)
Lemma copy_body m ts id size r : is_s 64 ts -> is_s 64 size -> zlen id < 256 ->
  handle_cmd_asynccopyfile m (long2buff ts ++ long2buff (zlen id) ++ id ++ long2buff size ++ r) =
    (f_id ← c_string (pad LFS_FILE_ID_SIZE id);
     match LFS_SPLIT_BLOCK_INDEX_BY_FILE_ID f_id with
     | None => Ret None
     | Some (pblock_index, name) =>
         blk ← get_mount m (atoi pblock_index);
         path ← c_string (mount_path blk);
         let full := path ++ [LFS_FILE_ID_SEPERATOR] ++ name in
         if (length full <? LFS_FILE_BLOCK_MAP_NAME_SIZE)%nat then Ret (Some (mk_copy ts f_id size full)) else Crash OutOfBounds
     end).
Proof.
  intros Hts Hsz Hl. pose proof (zlen_pos id) as Hp. unfold handle_cmd_asynccopyfile.
  assert (forall n b, is_s 64 n -> buff2long (long2buff n ++ b) = Ret n) as R by (intros n b Hn; rewrite buff2long_decode; by rewrite s_wrap_id).
  assert (drop 8 (long2buff ts ++ long2buff (zlen id) ++ id ++ long2buff size ++ r) = long2buff (zlen id) ++ id ++ long2buff size ++ r) as -> by done.
  rewrite !R by (done || unfold is_s; lia). cbn [mbind outcome_bind]. cbv zeta.
  rewrite (s_wrap_id 32 (zlen id)) by (try done; unfold is_s; lia).
  destruct (Z.leb_spec 0 (zlen id)) as [_|]; [|lia]. destruct (Z.leb_spec (zlen id) (Z.of_nat LFS_FILE_ID_SIZE)) as [_|Hb]; [|unfold LFS_FILE_ID_SIZE in Hb; lia].
  cbn [andb]. rewrite (app_assoc (long2buff ts)), (buf_read_at _ id) by (rewrite ?length_app, ?length_long2buff; unfold zlen; lia). cbn [mbind outcome_bind].
  rewrite (app_assoc _ id), drop_app_length' by (rewrite !length_app, !length_long2buff; unfold zlen; lia). rewrite R by done. cbn [mbind outcome_bind]. reflexivity.
Qed.

(** The request of a record: its body, and what the receiver reads in it. *)
Definition copy_request_body (r : binlog_record) (size : Z) : bytes := long2buff (sequence r) ++ long2buff (zlen (f_id r)) ++ f_id r ++ long2buff size.

Lemma copy_request_read m bs i blk path r size group volume name t : mounted m bs -> bs !! Z.to_nat i = Some blk -> 0 <= i < 10 ->
  c_string (mount_path blk) = Ret path -> is_s 64 (sequence r) -> is_s 64 size -> f_id r = file_id group volume i name ->
  (forall z, z = LFS_FILE_ID_SEPERATOR \/ z = 0 -> lacks z group /\ lacks z volume) -> no_nul name ->
  (length (file_id group volume i name) < LFS_FILE_ID_SIZE)%nat ->
  (length (volume ++ LFS_FILE_ID_SEPERATOR :: (chr "B" :: pr_02X i) ++ LFS_FILE_ID_SEPERATOR :: name) < LFS_FILE_NAME_SIZE)%nat ->
  (length (path ++ [LFS_FILE_ID_SEPERATOR] ++ name) < LFS_FILE_BLOCK_MAP_NAME_SIZE)%nat ->
  handle_cmd_asynccopyfile m (copy_request_body r size ++ t) = Ret (Some (mk_copy (sequence r) (f_id r) size (path ++ [LFS_FILE_ID_SEPERATOR] ++ name))).
Proof.
  intros Hm Hblk Hi Hpath Hts Hsz Hid Hgv Hn Hl1 Hl2 Hl3.
  assert (zlen (f_id r) < 256) as Hz by (rewrite Hid; unfold zlen, LFS_FILE_ID_SIZE in *; lia). unfold copy_request_body. rewrite <- !app_assoc.
  rewrite copy_body by (done || lia). destruct (Hgv LFS_FILE_ID_SEPERATOR) as [Hg Hv]; [by left|].
  rewrite Hid, c_string_pad; cycle 1.
  { apply Forall_join; [done|]. destruct (Hgv 0) as [Hg0 Hv0]; [by right|]. destruct (decimal_index i Hi) as (_ & _ & Hx & _).
    repeat (apply Forall_cons; split); try done. }
  { done. }
  cbn [mbind outcome_bind]. rewrite split_file_id by done. destruct (decimal_index i Hi) as (-> & _ & _ & _).
  destruct (get_mounted m bs (Z.to_nat i) Hm) as (blk' & Hb' & Hget); [by apply lookup_lt_Some in Hblk|]. rewrite Z2Nat.id in Hget by lia.
  rewrite Hget. cbn [mbind outcome_bind]. rewrite Hblk in Hb'. injection Hb' as <-. rewrite Hpath. cbn [mbind outcome_bind].
  by rewrite (proj2 (Nat.ltb_lt _ _)).
Qed.

Lemma copy_request_bytes r size : f_id_length r = zlen (f_id r) -> zlen (f_id r) < 256 ->
  async_request r size = Ret (header_bytes (zlen (copy_request_body r size)) PROTOCOL_CMD_ASYNC_COPY_FILE 0 ++ zeros 6 ++ copy_request_body r size, 16 + zlen (copy_request_body r size)) /\
  zlen (copy_request_body r size) = 24 + zlen (f_id r).
Proof.
  intros Hl Hz. assert (zlen (copy_request_body r size) = 24 + zlen (f_id r)) as E.
  { unfold copy_request_body. rewrite !zlen_app. unfold zlen. rewrite !length_long2buff. lia. }
  split; [|done]. rewrite (async_request_bytes r size Hl) by (unfold LFS_FILE_ID_SIZE; lia). rewrite E. do 2 f_equal. lia.
Qed.

(** What a slave makes of a request of its master: the same time, id and size, and
    the path of the file below its own mount point of that number. *)
Theorem async_copy_received m bs i blk path r size group volume name : mounted m bs -> bs !! Z.to_nat i = Some blk -> 0 <= i < 10 ->
  c_string (mount_path blk) = Ret path -> is_s 64 (sequence r) -> is_s 64 size -> f_id r = file_id group volume i name -> f_id_length r = zlen (f_id r) ->
  (forall z, z = LFS_FILE_ID_SEPERATOR \/ z = 0 -> lacks z group /\ lacks z volume) -> no_nul name ->
  (length (file_id group volume i name) < LFS_FILE_ID_SIZE)%nat ->
  (length (volume ++ LFS_FILE_ID_SEPERATOR :: (chr "B" :: pr_02X i) ++ LFS_FILE_ID_SEPERATOR :: name) < LFS_FILE_NAME_SIZE)%nat ->
  (length (path ++ [LFS_FILE_ID_SEPERATOR] ++ name) < LFS_FILE_BLOCK_MAP_NAME_SIZE)%nat ->
  exists req, async_request r size = Ret (req, zlen req) /\ header_body_len req = Ret (zlen req - sizeof_protocol_header) /\
    handle_cmd_asynccopyfile m (drop (Z.to_nat sizeof_protocol_header) req) =
      Ret (Some (mk_copy (sequence r) (f_id r) size (path ++ [LFS_FILE_ID_SEPERATOR] ++ name))).
Proof.
  intros Hm Hblk Hi Hpath Hts Hsz Hid Hidl Hgv Hn Hl1 Hl2 Hl3.
  assert (zlen (f_id r) < 256) as Hz by (rewrite Hid; unfold zlen, LFS_FILE_ID_SIZE in *; lia). pose proof (zlen_pos (f_id r)) as Hp.
  destruct (copy_request_bytes r size Hidl Hz) as [-> Hb]. set (body := copy_request_body r size) in *. set (H := header_bytes _ _ _). eexists. split; [|split].
  - f_equal. f_equal. rewrite !zlen_app. unfold zlen. change (length H) with 10%nat. change (length (zeros 6)) with 6%nat. lia.
  - unfold H, header_bytes. rewrite <- !app_assoc, le64_decode by lia. f_equal. rewrite !zlen_app. unfold zlen, sizeof_protocol_header.
    change (length (le64 _)) with 8%nat. change (length (zeros 6)) with 6%nat. cbn [length]. lia.
  - rewrite app_assoc. change (Z.to_nat sizeof_protocol_header) with (length (H ++ zeros 6)). rewrite drop_app_length.
    rewrite <- (app_nil_r body). by eapply copy_request_read.
Qed.

(** The loop of a full synchronisation: the blocks it has received whole are in
    the log; the rest of the stream is lost with the block that broke. *)
Lemma append_loop_spec e fuel k w remain w' chunks : (forall i, calls_ok (fe_flush e i)) -> holds (fw_disk w) (fw_bctx w) chunks [] ->
  curr_binlog_file_index (fw_bctx w) + Z.max 0 remain + 1 < 2 ^ 31 -> append_loop fuel e k w remain = Ret w' ->
  exists chunks' blocks lost, holds (fw_disk w') (fw_bctx w') chunks' [] /\ concat chunks' = concat chunks ++ blocks /\
    sk_in (fw_sock w) = concat blocks ++ lost ++ sk_in (fw_sock w') /\
    (zlen (concat blocks) = Z.max 0 remain /\ lost = [] \/ zlen (concat blocks ++ lost) <= remain) /\
    fm_b_offset (fw_fmark w') = fm_b_offset (fw_fmark w) + zlen (concat blocks).
Proof.
  intros He. revert k w remain chunks. induction fuel as [|fuel IH]; intros k w remain chunks Hh Hmax H; cbn [append_loop] in H.
  - destruct (Z.leb_spec remain 0) as [Hr|]; [|done]. injection H as <-. exists chunks, [], []. cbn [concat app]. change (zlen (@nil Z)) with 0. rewrite !app_nil_r. split_and!; [done|done|done|left; split; [lia|done]|lia].
  - destruct (Z.leb_spec remain 0) as [Hr|Hr].
    { injection H as <-. exists chunks, [], []. cbn [concat app]. change (zlen (@nil Z)) with 0. rewrite !app_nil_r. split_and!; [done|done|done|left; split; [lia|done]|lia]. }
    set (n := if BINLOG_CACHE_BUFFER_SIZE <? remain then BINLOG_CACHE_BUFFER_SIZE else remain) in *.
    assert (0 < n <= remain) as Hn by (unfold n, BINLOG_CACHE_BUFFER_SIZE; destruct (Z.ltb_spec (16 * 1024) remain); lia). clearbody n. cbv zeta in H.
    destruct (ho_cache _ _ _ _ Hh) as [Hc Hl]. rewrite Hc in H. cbn [mbind outcome_bind get_or concat] in H.
    apply bind_Ret in H as ([ [s ret] got] & Hrecv & H). apply recvdata_spec in Hrecv as (Hin & _ & Hlen & Hok). destruct (Z.eqb_spec ret 0) as [->|Hne]; cbn [negb] in H.
    + assert (zlen got = n) as Hg by (rewrite Hok by done; lia).
      assert (holds (fw_disk w) (set_binlog_cache (fw_bctx w) (Some got) (zlen got)) chunks [got]) as Hh1.
      { destruct Hh as [A1 A2 A3 A4 A5 A6]. split; try done. cbn. by rewrite app_nil_r. }
      destruct (flush_holds (fe_flush e k) (He k) _ _ _ _ Hh1) as (d1 & b1 & chunks1 & Hf & Hh2 & Hcat & Hidx); [cbn; lia|].
      unfold binlog_flush in H. cbn [fw_disk fw_set_sock] in H. rewrite Hf in H. change (negb (LFS_OK =? 0)) with false in H. cbv iota in H.
      cbn in Hidx. apply IH with (chunks := chunks1) in H as (chunks2 & blocks & lost & B1 & B2 & B3 & B4 & B5); [|done|cbn; lia].
      exists chunks2, (got :: blocks), lost. cbn in B3, B5. cbn [concat]. rewrite !zlen_app in *. pose proof (zlen_pos (concat blocks)).
      split_and!; [done|by rewrite B2, Hcat, <- app_assoc|by rewrite Hin, B3, <- app_assoc| |lia].
      destruct B4 as [ [B4 ->]|B4]; [left; split; [lia|done]|right; lia].
    + injection H as <-. exists chunks, [], got. cbn [concat app]. change (zlen (@nil Z)) with 0. rewrite !app_nil_r. split_and!; [|done|done|right; lia|cbn; lia].
      destruct Hh as [A1 A2 A3 A4 A5 A6]. split; try done.
Qed.

(** The log of the master behind that of the slave: what [bfile_size] bytes of the
    stream hold is appended in order, or a part of them when the connection
    breaks.  Both are reported as [F_SYNC_OK]. *)
Theorem append_binlog e w size w' st chunks pending : (forall i, calls_ok (fe_flush e i)) -> holds (fw_disk w) (fw_bctx w) chunks pending ->
  curr_binlog_file_index (fw_bctx w) + Z.max 0 size + 2 < 2 ^ 31 -> __full_sync_append_remote_binlog e w size = Ret (w', st) ->
  st = F_SYNC_OK /\ exists chunks' blocks lost, holds (fw_disk w') (fw_bctx w') chunks' [] /\ concat chunks' = (concat chunks ++ pending) ++ blocks /\
    sk_in (fw_sock w) = concat blocks ++ lost ++ sk_in (fw_sock w') /\
    (zlen (concat blocks) = Z.max 0 size /\ lost = [] \/ zlen (concat blocks ++ lost) <= size) /\
    fm_b_offset (fw_fmark w') = fm_b_offset (fw_fmark w) + zlen (concat blocks).
Proof.
  intros He Hh Hmax H. unfold __full_sync_append_remote_binlog, binlog_flush in H.
  destruct (flush_holds (fe_flush e 0) (He 0%nat) _ _ _ _ Hh) as (d1 & b1 & chunks1 & Hf & Hh1 & Hcat & Hidx); [lia|]. rewrite Hf in H.
  apply bind_Ret in H as (w1 & Hl & H). injection H as <- <-. split; [done|]. rewrite <- Hcat.
  eapply append_loop_spec in Hl as (c & bl & lost & X); [|done|exact Hh1|cbn; lia]. exists c, bl, lost. exact X.
Qed.

(** Every request for a file of the master's log is written behind its buffer. *)
Theorem full_sync_request_overflows e w : __sync_local_binlog_data_from_master e w = Crash OutOfBounds /\ __sync_remote_binlog_data_from_master e w = Crash OutOfBounds.
Proof. done. Qed.

(** A record whose file is gone is never passed: [stat] does not return [ENOENT],
    so that the session ends with it, and so does every later one, which starts
    with it again. *)
Theorem missing_file_blocks n env last ce ip port seq m sfd fs st k ls rs idx r : Forall2 (line_of m) ls rs -> (forall x, env_ok m (env x)) -> marks_ok last -> opens_ok ce ->
  at_record ls (cut_mark (to_mark ip port)) idx st k -> as_trace st = [] -> is_s 64 (last_timestamp (as_sctx st)) -> 0 <= idx < 2 ^ 31 ->
  0 <= sync_count (as_sctx st) -> sync_count (as_sctx st) + Z.of_nat (S n) < 2 ^ 63 -> zlen (concat ls) + more_bytes env 0 (S n) < 2 ^ 63 ->
  rs !! k = Some r -> fs !! f_block_map_name r = None -> ae_errno (env 0%nat) <> 0 -> op_type r = FILE_OP_TYPE_CREATE_FILE -> 0 <= sfd ->
  exists st' s2 more, async_session (S n) env last m sfd fs st = Ret (st', true) /\ as_trace st' = [(r, ae_errno (env 0%nat))] /\
    asyncctx_init ce ip port seq (as_disk st') (as_bctx st') = Ret (as_disk st', s2, LFS_OK) /\ reading (as_disk st') s2 (drop k (ls ++ more)).
Proof.
  intros Hrs Henv Hl Hce Ha Htr0 Ht Hcur Hc0 Hcn Hlen Hr Hf He Hop Hsfd.
  destruct (session_fails n env last m sfd fs st k ls rs (cut_mark (to_mark ip port)) idx r (ae_errno (env 0%nat)) Hrs (Henv 0%nat) Hl Ha Hr) as (st' & Hs & Htr); [|done|].
  { intros s. unfold __async_handle. rewrite (proj2 (Z.ltb_ge _ _) Hsfd), Hop, Z.eqb_refl. unfold __async_copy_file. by rewrite Hf. }
  rewrite Htr0 in Htr. cbn [app] in Htr.
  destruct (session_reopens _ env last ce ip port seq m sfd fs st k st' true ls rs idx Hrs Henv Hl Hce Ha Htr0 Ht Hcur Hc0 Hcn Hlen Hs) as (j & tail & s2 & more & rmore & _ & Hj & Htr' & Hi & Hrd).
  exists st', s2, more. split_and!; [done|done|done|]. destruct (decide (j = k)) as [<-|Hne]; [done|].
  rewrite (sent_next (rs ++ rmore) k j r), Htr in Htr' by (lia || by apply lookup_app_l_Some). injection Htr' as Hbad _. done.
Qed.

(** The mark of a full synchronisation survives a restart, [b_offset] apart, which
    is not in the file. *)
Theorem full_mark_roundtrip e e' w f0 : fe_mark_open e = true -> (forall n, fe_mark_write e n = n) -> fe_fopen e' = true ->
  lr_valid (fmark_fields (fw_fmark w)) ->
  exists w1, __full_sync_binlog_mark_write e w = (w1, F_SYNC_OK) /\
    __full_sync_binlog_mark_initload e' (fw_set_mark w1 (fw_markfile w1) f0) =
      Ret (fw_set_mark w1 (fw_markfile w1) (set_fmark_offset (fw_fmark w) (fm_b_offset f0)), F_SYNC_OK).
Proof.
  intros Ho Hw Ho' Hv. unfold __full_sync_binlog_mark_write. rewrite Ho, Hw, Z.eqb_refl, take_zlen. cbn [negb]. eexists. split; [reflexivity|].
  unfold __full_sync_binlog_mark_initload. cbn [fw_set_mark fw_markfile fw_fmark]. rewrite Ho'. cbn [negb].
  rewrite read_lines_one; [done|done|by apply Nat.ltb_lt|]. unfold pr_record, fmark_fields.
  destruct Hv as [Hv Ht]. rewrite !Forall_cons in Hv. destruct Hv as (H1 & H2 & H3 & H4 & _).
  apply (length_pr_dec 32) in H1, H2, H3, H4; [|done..]. apply (length_pr_dec 64) in Ht; [|done]. cbn [fmark_fields fc_count fc_index fc_rcount fc_rindex fc_time] in *.
  unfold pr_line. cbn [lr_columns fmark_record join fc_count fc_index fc_rcount fc_rindex fc_time]. repeat (rewrite length_app; cbn [length]). lia.
Qed.

(** A file of a full synchronisation: when [__full_sync_handle] reports
    [F_SYNC_OK], the file of the record has the contents the master has sent, the
    request has gone out whole, and what follows stays in the stream; on any
    other result the other files are untouched. *)
Theorem full_sync_file_received e w r w' st cmd padding file rest : rf_open (fe_recvfile e) = true -> rf_lseek (fe_recvfile e) = true ->
  length padding = 6%nat -> zlen file < 2 ^ 63 -> zlen (f_block_map_name r) <= Z.of_nat MAX_PATH_SIZE ->
  sk_in (fw_sock w) = response_bytes cmd 0 padding (long2buff (zlen file)) ++ file ++ rest ->
  __full_sync_handle e w r = Ret (w', st) ->
  (st = F_SYNC_OK /\ fw_files w' = <[f_block_map_name r := file]> (fw_files w) /\ sk_in (fw_sock w') = rest /\
     exists req, data_request (f_block_map_name r) = Ret req /\ sk_out (fw_sock w') = sk_out (fw_sock w) ++ req) \/
  (st = F_SYNC_NETWORK_ERROR /\ base.delete (f_block_map_name r) (fw_files w') = base.delete (f_block_map_name r) (fw_files w)).
Proof.
  intros Ho Hl Hpad Hf Hn Hin H. unfold __full_sync_handle in H. apply bind_Ret in H as (req & Hreq & H). apply bind_Ret in H as ([s1 r1] & Hs & H).
  unfold senddata_nblock in Hs. apply (senddata_loop_spec _ _ _ _ _ _ _ (le_n _)) in Hs as (k & Hout & Hin1 & Hk). cbn [fw_sock fw_set_sock fw_files] in H.
  destruct (Z.eqb_spec r1 0) as [->|Hne]; cbn [negb] in H; [|injection H as <- <-; by right]. specialize (Hk eq_refl). rewrite Hk in Hout.
  apply bind_Ret in H as ([ [s2 r2] n] & Hh & H). rewrite <- Hin1 in Hin. unfold response_bytes in Hin. rewrite <- !app_assoc in Hin.
  change (zlen (long2buff _)) with 8 in Hin. apply recvheader_spec with (len := 8) (cmd := cmd) (st := 0) (padding := padding) (rest := long2buff (zlen file) ++ file ++ rest) in Hh as [Hout2 Hok2]; [|lia..|done|done].
  destruct (Z.eqb_spec r2 0) as [->|Hne]; cbn [negb] in H; [|injection H as <- <-; by right]. destruct (Hok2 eq_refl) as (_ & -> & Hin2).
  apply bind_Ret in H as ([ [s3 r3] got] & Hr & H). unfold client_recvdata_nomalloc in Hr. change (8 <=? LFS_STRUCT_PROP_LEN_SIZE8) with true in Hr. cbv iota in Hr.
  apply bind_Ret in Hr as ([ [s3' r3'] got'] & Hr & Hr'). injection Hr' as -> -> ->. apply recvdata_spec in Hr as (Hin3 & Hout3 & _ & Hok3).
  destruct (Z.eqb_spec r3 0) as [->|Hne]; cbn [negb] in H; [|injection H as <- <-; by right]. specialize (Hok3 eq_refl). change (Z.max 0 (s32 8)) with 8 in Hok3.
  rewrite Hin2 in Hin3. apply eq_sym, prefix_zlen in Hin3 as [-> Hin3]; [|by rewrite Hok3]. pose proof (zlen_pos file).
  apply bind_Ret in H as (size & Hsz & H). rewrite buff2long_decode, s_wrap_id in Hsz by (try done; unfold is_s; lia). injection Hsz as <-.
  apply bind_Ret in H as ([ [s4 f] r4] & Hr & H). cbn [fw_sock fw_set_sock fw_files] in Hr, H. rewrite client_recvfile_new in Hr by done.
  apply recvfile_loop_spec in Hr as [Hout4 Hcase]; [|done]. destruct (Z.eqb_spec r4 0) as [->|Hne]; cbn [negb] in H; injection H as <- <-.
  - left. destruct Hcase as [ (_ & x & -> & Hx & Hxl)|[? _] ]; [|done]. rewrite Hin3 in Hx. apply eq_sym, prefix_zlen in Hx as [-> Hin4]; [|lia].
    cbn. split_and!; [done|done|done|]. exists req. split; [done|]. congruence.
  - right. split; [done|]. destruct Hcase as [ [? _]|[_ ->] ]; [done|]. cbn. apply delete_delete_eq.
Qed.

Definition sum_rounds (rounds : list thread_env) : Z := foldr (fun e n => Z.of_nat (th_rounds e) + n) 0 rounds.
Definition sum_bytes (rounds : list thread_env) : Z := foldr (fun e n => th_bytes e + n) 0 rounds.

Lemma sum_rounds_pos rounds : 0 <= sum_rounds rounds.
Proof. induction rounds as [|e rounds IH]; [done|]. cbn [sum_rounds foldr]. fold (sum_rounds rounds). lia. Qed.

Lemma th_bytes_pos e : 0 <= th_bytes e.
Proof. unfold th_bytes. pose proof (zlen_pos (th_more e)). pose proof (more_bytes_pos (th_env e) 0 (th_rounds e)). lia. Qed.

Lemma sum_bytes_pos rounds : 0 <= sum_bytes rounds.
Proof. induction rounds as [|e rounds IH]; [done|]. cbn [sum_bytes foldr]. fold (sum_bytes rounds). pose proof (th_bytes_pos e). lia. Qed.

(** A round of the thread after the log has grown. *)
Lemma thread_round_grown e m fs ip port ls rs k c pc t t' pc' : Forall2 (line_of m) ls rs -> thread_ok m e -> thread_at ls ip port k c t ->
  0 <= c -> c + Z.of_nat (th_rounds e) < 2 ^ 63 -> zlen (concat ls) + th_bytes e < 2 ^ 63 ->
  thread_round e m fs ip port pc (mk_thread (log_grows (th_more e) (tt_bctx t) (tt_disk t)) (tt_bctx t) (tt_counts t) (tt_trace t)) = Ret (t', pc') ->
  exists j new, progressed m ls rs ip port k c (Z.of_nat (th_rounds e)) (th_bytes e) t t' j new /\ curr_conn_count (tt_counts t') = curr_conn_count (tt_counts t) /\
    (pc = InnerLoop -> connected e -> Forall (fun x => x.2 = LFS_OK) new -> (Nat.min (k + th_rounds e) (length ls) <= j)%nat).
Proof.
  intros Hrs He Ha Hc0 Hc Hlen H. pose proof He as (_ & _ & _ & g & gr & Hg & Hge). rewrite Hge in H. unfold th_bytes in *. rewrite Hge in *. pose proof (more_bytes_pos (th_env e) 0 (th_rounds e)).
  destruct (thread_round_spec e m fs ip port (ls ++ g) (rs ++ gr) k c pc _ t' pc' (Forall2_app Hrs Hg) He (thread_at_grows ls g ip port k c t Ha) Hc0 Hc ltac:(rewrite concat_app, zlen_app; lia) H)
    as (j & new & (c' & more & rmore & P1 & P2 & P3 & P4 & P5 & P6 & P7) & Hcn & Hmin).
  exists j, new. rewrite <- !app_assoc in *. split_and!; [|done|].
  - exists c', (g ++ more), (gr ++ rmore). rewrite concat_app, zlen_app. split_and!; try done; try lia. by apply Forall2_app.
  - intros Hp Hco Hok. specialize (Hmin Hp Hco Hok). rewrite length_app in Hmin. lia.
Qed.

(** C6. A replication thread sends the records of the current file of the log at most
    once and in order, over any number of connections, whatever the network does to
    them, whenever the slave goes away, and while the file grows; the log does not go
    on to a new file, the mark file names a record of it, and the calls for the two
    files succeed.  The records sent with success are those from the mark on, without a
    gap or a repetition, the mark follows them, and every connection that was
    counted as opened is counted as closed.  And from any state the thread reaches, a
    connection on which every sending succeeds sends one record per round of its
    loop, until it has sent all that the file held when the connection began. *)
Theorem async_thread_exactly_once rounds m fs ip port pc t t' pc' ls rs k c : Forall2 (line_of m) ls rs -> Forall (thread_ok m) rounds -> thread_at ls ip port k c t ->
  0 <= c -> c + sum_rounds rounds < 2 ^ 63 -> zlen (concat ls) + sum_bytes rounds < 2 ^ 63 -> __async_thread_entry rounds m fs ip port pc t = Ret (t', pc') ->
  (exists j new, progressed m ls rs ip port k c (sum_rounds rounds) (sum_bytes rounds) t t' j new) /\ curr_conn_count (tt_counts t') = curr_conn_count (tt_counts t) /\
  forall e ls2 rs2 k2 c2 t2 pc2, thread_ok m e -> connected e -> Forall2 (line_of m) ls2 rs2 -> thread_at ls2 ip port k2 c2 t' -> 0 <= c2 -> c2 + Z.of_nat (th_rounds e) < 2 ^ 63 ->
    zlen (concat ls2) + th_bytes e < 2 ^ 63 -> __async_thread_entry [e] m fs ip port InnerLoop t' = Ret (t2, pc2) ->
    exists j new, progressed m ls2 rs2 ip port k2 c2 (Z.of_nat (th_rounds e)) (th_bytes e) t' t2 j new /\
      (Forall (fun x => x.2 = LFS_OK) new -> (Nat.min (k2 + th_rounds e) (length ls2) <= j)%nat).
Proof.
  intros Hrs Hok Ha Hc0 Hc Hlen H. rewrite (and_assoc (ex _)). split.
  - clear - Hrs Hok Ha Hc0 Hc Hlen H. revert pc t k c ls rs Hrs Ha Hc0 Hc Hlen H.
    induction Hok as [|e rounds He Hok IH]; intros pc t k c ls rs Hrs Ha Hc0 Hc Hlen H; cbn [__async_thread_entry sum_rounds sum_bytes foldr] in *.
    + injection H as <- <-. split; [|done]. exists k, []. by apply progressed_none.
    + fold (sum_rounds rounds) in *. fold (sum_bytes rounds) in *. pose proof (sum_rounds_pos rounds). pose proof (sum_bytes_pos rounds). apply bind_Ret in H as ([t1 next] & Hr & H).
      destruct (thread_round_grown e m fs ip port ls rs k c pc t t1 next Hrs He Ha Hc0 ltac:(lia) ltac:(lia) Hr) as (j & new & (c1 & more & rmore & P1 & P2 & P3 & P4 & P5 & P6 & P7) & Hcn & _).
      destruct next as [pc1|].
      * apply IH with (k := j) (c := c1) (ls := ls ++ more) (rs := rs ++ rmore) in H as [(i & new2 & c2 & more2 & rmore2 & Q1 & Q2 & Q3 & Q4 & Q5 & Q6 & Q7) Hcn2];
          [|by apply Forall2_app|done|lia|lia|rewrite concat_app, zlen_app; lia]. split; [|congruence].
        exists i, (new ++ new2), c2, (more ++ more2), (rmore ++ rmore2). rewrite <- app_assoc in Q6, Q7. rewrite concat_app, zlen_app. pose proof (ta_le _ _ _ _ _ _ P7) as Hj. rewrite (Forall2_length _ _ _ (Forall2_app Hrs P1)) in Hj.
        split_and!; [by apply Forall2_app|lia|lia|lia|lia|by rewrite Q5, P5, app_assoc| |done]. rewrite filter_app, P6, Q6, <- (sent_grows (rs ++ rmore) rmore2 k j) by done. rewrite <- app_assoc. by apply sent_join.
      * injection H as <- <-. split; [|done]. exists j, new, c1, more, rmore. split_and!; try done; lia.
  - intros e ls2 rs2 k2 c2 t2 pc2 He Hco Hrs2 Ha2 Hc20 Hc2 Hl2 H2. cbn [__async_thread_entry] in H2. apply bind_Ret in H2 as ([t3 next] & Hr & H2).
    destruct (thread_round_grown e m fs ip port ls2 rs2 k2 c2 InnerLoop t' t3 next Hrs2 He Ha2 Hc20 Hc2 Hl2 Hr) as (j & new & Hp & _ & Hmin).
    exists j, new. destruct next; injection H2 as <- <-; (split; [done|by apply Hmin]).
Qed.

(** ** Examples *)

Definition demo_aenv : async_env := mk_aenv (mk_renv (fun _ => true) (fun _ => true) (fun _ => mk_menv true (fun n => n) 0))
  (mk_sfenv None None None 0 true) 2 (mk_menv true (fun n => n) 0) 1001 [].
Definition demo_reader : sync_ctx := mk_sctx (cut_mark (to_mark (str "10.0.0.2") 8000)) 0 (Some (0, zlen (concat (take 1 demo_chunk)))) (-1) 1000
  (mk_bbuff 0 false []) (zlen (concat (take 1 demo_chunk))) 1 0.

(** A slave that answers the first request. *)
Definition demo_slave : sock := mk_sock (header_bytes 0 PROTOCOL_CMD_ASYNC_COPY_FILE 0 ++ zeros 6) []
  [EvSelect 1 0; EvSend 100 0; EvSendfile 2 0; EvSendfile 1 0; EvRecv 4 0; EvRecv 12 0].
Definition demo_async : async_state := mk_async demo_disk (demo_bctx []) demo_reader demo_slave [].
Definition demo_files : files := {[str "/d2/00/00/b" := [1; 2; 3]]}.

Lemma demo_adds more : Forall (fun x => x = demo_line 9 "00/00/c") more -> adds_records demo_mounts (concat more).
Proof.
  intros H. exists more, (replicate (length more) (demo_rec 9 "00/00/c")). split; [|done]. induction H as [|x l -> _ IH]; [constructor|]. constructor; [|exact IH].
  pose proof demo_lines_of as Hd. unfold demo_chunk in Hd. by apply (Forall2_lookup_lr _ _ _ 2 _ _ Hd).
Qed.

Lemma demo_env_ok : env_ok demo_mounts demo_aenv.
Proof. split_and!; [done..|by apply (demo_adds [])]. Qed.

Lemma demo_at_record : at_record demo_chunk (cut_mark (to_mark (str "10.0.0.2") 8000)) 0 demo_async 1.
Proof.
  split_and!; [split; cbn; try done; lia| |done]. split; cbn [b_buff demo_reader as_sctx demo_async bb_data bb_pos bb_end]; [|done| |done].
  - exists (zlen (concat (take 1 demo_chunk))). split_and!; [done|done|vm_compute; discriminate|vm_compute; reflexivity].
  - left. by exists O.
Qed.

Lemma missing_file_blocks_witness : exists st' s2 more,
  async_session 4 (fun _ => demo_aenv) (mk_menv true (fun n => n) 0) demo_mounts 5 ∅ demo_async = Ret (st', true) /\ as_trace st' = [(demo_rec 7 "00/00/b", 2)] /\
    asyncctx_init demo_cenv (str "10.0.0.2") 8000 6 (as_disk st') (as_bctx st') = Ret (as_disk st', s2, LFS_OK) /\ reading (as_disk st') s2 (drop 1 (demo_chunk ++ more)).
Proof.
  assert (is_s 64 (last_timestamp (as_sctx demo_async)) /\ sync_count (as_sctx demo_async) + Z.of_nat 4 < 2 ^ 63 /\ zlen (concat demo_chunk) + more_bytes (fun _ => demo_aenv) 0 4 < 2 ^ 63) as (H1 & H2 & H3)
    by (vm_compute; split_and!; done).
  assert (marks_ok (mk_menv true (fun n => n) 0)) as Hm by (by split).
  exact (missing_file_blocks 3 (fun _ => demo_aenv) (mk_menv true (fun n => n) 0) demo_cenv (str "10.0.0.2") 8000 6 demo_mounts 5 ∅ demo_async 1 demo_chunk _ 0
    (demo_rec 7 "00/00/b") demo_lines_of (fun _ => demo_env_ok) Hm demo_opens_ok demo_at_record eq_refl H1 ltac:(lia) ltac:(done) H2 H3 eq_refl eq_refl ltac:(done) eq_refl ltac:(done)).
Defined.

Lemma async_copy_received_witness : let r := demo_rec 7 "00/00/b" in
  exists req, async_request r 3 = Ret (req, zlen req) /\ header_body_len req = Ret (zlen req - sizeof_protocol_header) /\
    handle_cmd_asynccopyfile demo_mounts (drop (Z.to_nat sizeof_protocol_header) req) = Ret (Some (mk_copy 7 (demo_fid "00/00/b") 3 (str "/d2/00/00/b"))).
Proof.
  eapply (async_copy_received demo_mounts demo_blocks 1 _ (str "/d2") (demo_rec 7 "00/00/b") 3 (str "g1") (str "v1") (str "00/00/b") demo_mounted);
    [reflexivity|lia|by vm_compute|by vm_compute|by vm_compute|done|done| |by repeat constructor|by apply Nat.ltb_lt..].
  intros z [->| ->]; split; repeat constructor; vm_compute; discriminate.
Defined.

Definition demo_fenv : full_env := mk_fenv true (fun _ => true) true (fun n => n) (fun _ => demo_benv) (mk_rfenv true 0 true (fun _ n => n) (fun _ => 0) 0).
Definition demo_fworld (s : sock) : fworld := mk_fw s demo_disk (demo_bctx []) None (mk_fmark 2 0 1 0 0 1000) ∅ 0.

(** The connection breaks after three of five bytes. *)
Lemma append_binlog_witness : match __full_sync_append_remote_binlog demo_fenv (demo_fworld (mk_sock [1; 2; 3] [] [EvRecv 3 0; EvRecv 0 0])) 5 with
  | Ret (w', st) => st = F_SYNC_OK /\ exists chunks' blocks lost, holds (fw_disk w') (fw_bctx w') chunks' [] /\ concat chunks' = (concat [demo_chunk] ++ []) ++ blocks /\
      [1; 2; 3] = concat blocks ++ lost ++ sk_in (fw_sock w') /\ (zlen (concat blocks) = 5 /\ lost = [] \/ zlen (concat blocks ++ lost) <= 5) /\
      fm_b_offset (fw_fmark w') = 0 + zlen (concat blocks)
  | Crash _ => False
  end.
Proof.
  destruct (__full_sync_append_remote_binlog _ _ _) as [ [w' st]|c] eqn:E; [|vm_compute in E; discriminate].
  apply (append_binlog demo_fenv (demo_fworld (mk_sock [1; 2; 3] [] [EvRecv 3 0; EvRecv 0 0])) 5 w' st [demo_chunk] []);
    [intros i; exact demo_calls_ok|apply (holds_one demo_chunk [])|by vm_compute|exact E].
Defined.

Lemma full_mark_roundtrip_witness : exists w1, __full_sync_binlog_mark_write demo_fenv (demo_fworld (mk_sock [] [] [])) = (w1, F_SYNC_OK) /\
  __full_sync_binlog_mark_initload demo_fenv (fw_set_mark w1 (fw_markfile w1) (mk_fmark 0 0 0 0 7 0)) =
    Ret (fw_set_mark w1 (fw_markfile w1) (mk_fmark 2 0 1 0 7 1000), F_SYNC_OK).
Proof.
  apply (full_mark_roundtrip demo_fenv demo_fenv (demo_fworld (mk_sock [] [] [])) (mk_fmark 0 0 0 0 7 0)); try done. split; [|by vm_compute]. repeat constructor; by vm_compute.
Defined.

Lemma full_sync_file_received_witness : let r := demo_rec 7 "00/00/b" in
  let s := mk_sock (response_bytes 55 0 (zeros 6) (long2buff 3) ++ [1; 2; 3] ++ []) [] [EvSelect 1 0; EvSend 1000 0; EvRecv 16 0; EvRecv 8 0; EvRecv 3 0] in
  match __full_sync_handle demo_fenv (demo_fworld s) r with
  | Ret (w', st) => fw_files w' = {[str "/d2/00/00/b" := [1; 2; 3]]} /\
      ((st = F_SYNC_OK /\ fw_files w' = <[f_block_map_name r := [1; 2; 3]]> ∅ /\ sk_in (fw_sock w') = [] /\
        exists req, data_request (f_block_map_name r) = Ret req /\ sk_out (fw_sock w') = [] ++ req) \/
       (st = F_SYNC_NETWORK_ERROR /\ base.delete (f_block_map_name r) (fw_files w') = base.delete (f_block_map_name r) ∅))
  | Crash _ => False
  end.
Proof.
  intros r s. destruct (__full_sync_handle _ _ _) as [ [w' st]|c] eqn:E; [|vm_compute in E; discriminate]. split.
  - vm_compute in E. injection E as <- <-. reflexivity.
  - exact (full_sync_file_received demo_fenv (demo_fworld s) r w' st 55 (zeros 6) [1; 2; 3] [] eq_refl eq_refl eq_refl eq_refl ltac:(by vm_compute) eq_refl E).
Defined.

(** Two connections: the first slave breaks off after a record, the second
    session finds no file; a record is added to the log in between. *)
Definition demo_round (s : sock) (st : datasevr_state) (more : bytes) : thread_env :=
  mk_tenv true st 5 0 true st 0 s demo_cenv 3 (fun _ => demo_aenv) (mk_menv true (fun n => n) 0) more.
Definition demo_thread : thread_state :=
  mk_thread (mk_disk (Some (pr_dec 0)) {[0 := concat demo_chunk]} {[cut_mark (to_mark (str "10.0.0.2") 8000) := pr_record (0, 1000, zlen (concat (take 1 demo_chunk)), 1)]})
    (demo_bctx []) (mk_counts 4 9 0) [].

Lemma demo_thread_at : thread_at demo_chunk (str "10.0.0.2") 8000 1 1 demo_thread.
Proof. split; [done|reflexivity|cbn; lia|]. exists 1000. split; [done|reflexivity]. Qed.

Lemma demo_thread_ok s st more : Forall (fun x => x = demo_line 9 "00/00/c") more -> thread_ok demo_mounts (demo_round s st (concat more)).
Proof. intros H. split_and!; [exact demo_opens_ok|intros x; exact demo_env_ok|done|by apply demo_adds]. Qed.

Lemma async_thread_exactly_once_witness :
  let rounds := [demo_round demo_slave off_line []; demo_round demo_slave on_line []; demo_round demo_slave on_line []; demo_round demo_slave active (concat [demo_line 9 "00/00/c"])] in
  match __async_thread_entry rounds demo_mounts demo_files (str "10.0.0.2") 8000 OuterLoop demo_thread with
  | Ret (t', pc') => tt_trace t' = [(demo_rec 7 "00/00/b", LFS_OK); (demo_rec 9 "00/00/c", 2); (demo_rec 9 "00/00/c", 2)] /\ tt_counts t' = mk_counts 4 11 0 /\
      (exists j new, progressed demo_mounts demo_chunk [demo_rec 5 "00/00/a"; demo_rec 7 "00/00/b"; demo_rec 9 "00/00/c"] (str "10.0.0.2") 8000 1 1 (sum_rounds rounds) (sum_bytes rounds) demo_thread t' j new)
  | Crash _ => False
  end.
Proof.
  intros rounds. destruct (__async_thread_entry _ _ _ _ _ _ _) as [ [t' pc']|c] eqn:E; [|vm_compute in E; discriminate]. split_and!.
  - vm_compute in E. injection E as <- <-. vm_compute. reflexivity.
  - vm_compute in E. injection E as <- <-. reflexivity.
  - assert (Forall (thread_ok demo_mounts) rounds) as Hok.
    { repeat (apply Forall_cons; split; [apply (demo_thread_ok _ _ []); constructor|]). apply Forall_singleton. apply demo_thread_ok. by repeat constructor. }
    assert (zlen (concat demo_chunk) + sum_bytes rounds < 2 ^ 63) as Hl by (by vm_compute).
    exact (proj1 (async_thread_exactly_once rounds demo_mounts demo_files (str "10.0.0.2") 8000 OuterLoop demo_thread t' pc' demo_chunk _ 1 1
      demo_lines_of Hok demo_thread_at ltac:(done) ltac:(by vm_compute) Hl E)).
Defined.
