(* ===== verification/DsFile.v ===== *)
(** * File contexts of the data server

    src/src/dataserver/ds_file.c and the structure [file_ctx_st]: the context
    of the file a connection reads or writes, its name and its meta data.  The
    pool [fctxs] has one context for each socket; a connection points to the
    entry of its own.  [LFS_MACHINE_ID_BUFF_SIZE] and the macro [base64_encode]
    are not part of the sources: they are arguments. *)
From S2P Require Import Prelude Codec CString Base64 TsConn DsBlock DsBinlog ClientIo DsSync.

Inductive file_op_type := FILE_OP_TYPE_READ | FILE_OP_TYPE_WRITE.

(** The values of the function pointers of a context. *)
Inductive dio_func := DioRead | DioWrite.
Inductive op_func := UploadDone | AsyncDone | DownloadDone.

(** The character arrays of a context, as strings. *)
Record fnames := mk_fnames { fn_orginl : bytes; fn_b64 : bytes; fn_map : bytes; fn_block_map : bytes; fn_id : bytes; fn_path : bytes }.

Definition no_names : fnames := mk_fnames [] [] [] [] [] [].

(** The counters of a context. *)
Record fpos := mk_fpos { p_offset : Z; p_size : Z; p_total_offset : Z; p_total_size : Z; p_rwoffset : Z; p_buff_offset : Z }.

Definition no_pos : fpos := mk_fpos 0 0 0 0 0 0.

(** [struct file_ctx_st].  [fd] is the path and the position of the open file
    ([None]: -1; 0 is taken by the standard input); [f_place] is
    [f_mnt_block_index], [f_mp_pre] and [f_mp_suf].  [alloc_count] is never
    read. *)
Record file_ctx := mk_fctx {
  fd : option (bytes * Z);
  f_op_flags : Z;
  f_place : Z * Z * Z;
  f_op_type : file_op_type;
  f_create_timestamp : Z;
  f_modify_timestamp : Z;
  f_crc32 : Z;
  f_names : fnames;
  f_pos : fpos;
  f_buff_size : Z;
  f_buff : bytes;
  f_dio_func : option dio_func;
  f_op_func : option op_func;
  f_cleanup_func : bool
}.

Definition set_fd (f : file_ctx) (d : option (bytes * Z)) : file_ctx :=
  mk_fctx d (f_op_flags f) (f_place f) (f_op_type f) (f_create_timestamp f) (f_modify_timestamp f) (f_crc32 f) (f_names f) (f_pos f) (f_buff_size f) (f_buff f) (f_dio_func f) (f_op_func f) (f_cleanup_func f).
Definition set_place (f : file_ctx) (p : Z * Z * Z) : file_ctx :=
  mk_fctx (fd f) (f_op_flags f) p (f_op_type f) (f_create_timestamp f) (f_modify_timestamp f) (f_crc32 f) (f_names f) (f_pos f) (f_buff_size f) (f_buff f) (f_dio_func f) (f_op_func f) (f_cleanup_func f).
Definition set_times (f : file_ctx) (c m : Z) : file_ctx :=
  mk_fctx (fd f) (f_op_flags f) (f_place f) (f_op_type f) c m (f_crc32 f) (f_names f) (f_pos f) (f_buff_size f) (f_buff f) (f_dio_func f) (f_op_func f) (f_cleanup_func f).
Definition set_crc32 (f : file_ctx) (c : Z) : file_ctx :=
  mk_fctx (fd f) (f_op_flags f) (f_place f) (f_op_type f) (f_create_timestamp f) (f_modify_timestamp f) c (f_names f) (f_pos f) (f_buff_size f) (f_buff f) (f_dio_func f) (f_op_func f) (f_cleanup_func f).
Definition set_names (f : file_ctx) (n : fnames) : file_ctx :=
  mk_fctx (fd f) (f_op_flags f) (f_place f) (f_op_type f) (f_create_timestamp f) (f_modify_timestamp f) (f_crc32 f) n (f_pos f) (f_buff_size f) (f_buff f) (f_dio_func f) (f_op_func f) (f_cleanup_func f).
Definition set_pos (f : file_ctx) (p : fpos) : file_ctx :=
  mk_fctx (fd f) (f_op_flags f) (f_place f) (f_op_type f) (f_create_timestamp f) (f_modify_timestamp f) (f_crc32 f) (f_names f) p (f_buff_size f) (f_buff f) (f_dio_func f) (f_op_func f) (f_cleanup_func f).
Definition set_buff (f : file_ctx) (b : bytes) : file_ctx :=
  mk_fctx (fd f) (f_op_flags f) (f_place f) (f_op_type f) (f_create_timestamp f) (f_modify_timestamp f) (f_crc32 f) (f_names f) (f_pos f) (f_buff_size f) b (f_dio_func f) (f_op_func f) (f_cleanup_func f).

(** What a request is to do: the flags of [open] and the three functions. *)
Definition set_job (f : file_ctx) (flags : Z) (d : dio_func) (o : op_func) (c : bool) : file_ctx :=
  mk_fctx (fd f) flags (f_place f) (f_op_type f) (f_create_timestamp f) (f_modify_timestamp f) (f_crc32 f) (f_names f) (f_pos f) (f_buff_size f) (f_buff f) (Some d) (Some o) c.

Definition set_fn_map (n : fnames) (s : bytes) : fnames := mk_fnames (fn_orginl n) (fn_b64 n) s (fn_block_map n) (fn_id n) (fn_path n).
Definition set_fn_block_map (n : fnames) (s : bytes) : fnames := mk_fnames (fn_orginl n) (fn_b64 n) (fn_map n) s (fn_id n) (fn_path n).
Definition set_fn_b64 (n : fnames) (s : bytes) : fnames := mk_fnames (fn_orginl n) s (fn_map n) (fn_block_map n) (fn_id n) (fn_path n).
Definition set_fn_id (n : fnames) (s : bytes) : fnames := mk_fnames (fn_orginl n) (fn_b64 n) (fn_map n) (fn_block_map n) s (fn_path n).
Definition set_fn_path (n : fnames) (s : bytes) : fnames := mk_fnames (fn_orginl n) (fn_b64 n) (fn_map n) (fn_block_map n) (fn_id n) s.
Definition set_fn_orginl (n : fnames) (s : bytes) : fnames := mk_fnames s (fn_b64 n) (fn_map n) (fn_block_map n) (fn_id n) (fn_path n).

(** ** The pool *)

Abbreviation fctx_pool := (list (option file_ctx)).

Definition file_ctx_mpools_init (calloc_ok : bool) (max_fds : nat) : option fctx_pool :=
  if calloc_ok then Some (replicate max_fds None) else None.

(** A context as it is after [malloc] and [memset]. *)
Definition zero_fctx (buffer_size : Z) (opt : file_op_type) (uninit : bytes) : file_ctx :=
  mk_fctx None 0 (-1, -1, -1) opt 0 0 0 no_names no_pos buffer_size uninit None None false.

(** What [file_ctx_new] does to every context: the times and the size of the
    buffer stay, and an open file is forgotten without being closed. *)
Definition fctx_renew (f : file_ctx) (opt : file_op_type) : file_ctx :=
  mk_fctx None 0 (-1, -1, -1) opt (f_create_timestamp f) (f_modify_timestamp f) 0 no_names no_pos (f_buff_size f) (zeros (Z.to_nat (f_buff_size f))) None None false.

(** [mal1] and [mal2] are the results of the two calls of [malloc]; the result
    says whether the pointer to the entry is returned. *)
Definition file_ctx_new (mal1 mal2 : bool) (pool : fctx_pool) (sfd buffer_size : Z) (opt : file_op_type) : outcome (fctx_pool * bool) :=
  match zlookup pool sfd with
  | None => Crash AssertFailed
  | Some (Some f) => Ret (<[Z.to_nat sfd := Some (fctx_renew f opt)]> pool, true)
  | Some None =>
      if mal1 && mal2 then Ret (<[Z.to_nat sfd := Some (fctx_renew (zero_fctx buffer_size opt []) opt)]> pool, true)
      else Ret (pool, false)
  end.

Definition file_ctx_clean (f : file_ctx) : file_ctx :=
  mk_fctx None 0 (-1, -1, -1) (f_op_type f) 0 0 0 no_names no_pos (f_buff_size f) (zeros (Z.to_nat (f_buff_size f))) None None false.

Definition file_ctx_reset (f : file_ctx) : file_ctx := set_buff (set_pos f no_pos) (zeros (Z.to_nat (f_buff_size f))).

Definition file_ctx_buff_reset (f : file_ctx) : file_ctx :=
  let p := f_pos f in
  set_buff (set_pos f (mk_fpos (p_offset p) (p_size p) (p_total_offset p) (p_total_size p) 0 0)) (zeros (Z.to_nat (f_buff_size f))).

(** ** Files *)

(** The name below the mount point is unlinked, not the path of the file. *)
Definition file_unlink (unlink_errno : Z) (fs : files) (f : file_ctx) : files * Z :=
  match fs !! fn_map (f_names f) with
  | Some _ => if unlink_errno =? 0 then (delete (fn_map (f_names f)) fs, LFS_OK) else (fs, unlink_errno)
  | None => (fs, ENOENT)
  end.

(** [lstat] of a path: a regular file with its content, or something else. *)
Definition get_filesize_by_name (fs : files) (other : gset bytes) (file_name : bytes) : Z :=
  if decide (file_name ∈ other) then LFS_ERROR
  else match fs !! file_name with Some b => zlen b | None => LFS_OK end.

(** ** Names and meta data *)

Definition LFS_FILE_METEDATA_NAME_BUFF_SIZE : nat := 32.
Definition LFS_BASE64_BUFF_SIZE : nat := 256.
Definition LFS_FILE_MAP_NAME_SIZE : nat := 256.

(** [file_metedata], with the two times that file_metedata_unpack sets. *)
Record file_metedata := mk_fmete { fm_create : Z; fm_modify : Z; fm_offset : Z; fm_size : Z; fm_crc32 : Z }.

Section Names.
Context (LFS_MACHINE_ID_BUFF_SIZE : nat) (base64_encode : bytes -> bytes).

(** The name is put together in [f_name_buff], field after field. *)
Definition __fileidname_pack (sid tid : Z) (f : file_ctx) : outcome file_ctx :=
  mid ← buf_write (zeros LFS_MACHINE_ID_BUFF_SIZE) 0 (int2buff sid);
  mid ← buf_write mid 4 (int2buff tid);
  let p := Z.of_nat LFS_MACHINE_ID_BUFF_SIZE in
  b ← buf_write (zeros LFS_FILE_METEDATA_NAME_BUFF_SIZE) 0 mid;
  b ← buf_write b p (long2buff (f_create_timestamp f));
  b ← buf_write b (p + 8) (long2buff (f_modify_timestamp f));
  b ← buf_write b (p + 16) (long2buff (p_offset (f_pos f)));
  b ← buf_write b (p + 24) (long2buff (p_total_size (f_pos f)));
  b ← buf_write b (p + 32) (int2buff (f_crc32 f));
  let s := base64_encode (take (LFS_MACHINE_ID_BUFF_SIZE + 36) b) in
  if (length s <? LFS_BASE64_BUFF_SIZE)%nat then Ret (set_names f (set_fn_b64 (f_names f) s)) else Crash OutOfBounds.

(** [sprintf] to an array of [size] bytes. *)
Definition sprintf_to (size : nat) (s : bytes) : outcome bytes := if (length s <? size)%nat then Ret s else Crash OutOfBounds.

Definition map_name (pre suf : Z) (name : bytes) : bytes := join LFS_FILE_ID_SEPERATOR [pr_02X (u32 pre); pr_02X (u32 suf); name].

Definition __mapname_pack (f : file_ctx) : outcome file_ctx :=
  let '(_, pre, suf) := f_place f in
  s ← sprintf_to LFS_FILE_MAP_NAME_SIZE (map_name pre suf (fn_b64 (f_names f)));
  Ret (set_names f (set_fn_map (f_names f) s)).

Definition __blockmapname_pack (m : block_mount) (f : file_ctx) : outcome file_ctx :=
  let '(idx, _, _) := f_place f in
  blk ← get_mount m idx;
  path ← c_string (mount_path blk);
  s ← sprintf_to LFS_FILE_BLOCK_MAP_NAME_SIZE (path ++ [LFS_FILE_ID_SEPERATOR] ++ fn_map (f_names f));
  Ret (set_names f (set_fn_block_map (f_names f) s)).

Definition file_metedata_pack (group volume : bytes) (sid tid : Z) (m : block_mount) (f : file_ctx) : outcome (file_ctx * Z) :=
  f ← __fileidname_pack sid tid f;
  f ← __mapname_pack f;
  f ← __blockmapname_pack m f;
  let '(idx, _, _) := f_place f in
  let id := take (LFS_FILE_ID_SIZE - 1) (file_id group volume (u32 idx) (fn_map (f_names f))) in
  Ret (set_names f (set_fn_id (f_names f) id), LFS_OK).

Definition file_metedata_unpack (file_b64name : bytes) : outcome file_metedata :=
  '(fileid_buff, _) ← base64_decode ds_context file_b64name (zeros LFS_FILE_ID_SIZE);
  let p := drop LFS_MACHINE_ID_BUFF_SIZE fileid_buff in
  create ← buff2long p;
  modify ← buff2long (drop 8 p);
  offset ← buff2long (drop 16 p);
  size ← buff2long (drop 24 p);
  crc ← buff2int (drop 32 p);
  Ret (mk_fmete create modify offset size crc).
End Names.

(** ** Lemmas *)

(** The fields in the order in which they are read. *)
Definition fileid_bytes (machine_id_size : nat) (sid tid : Z) (f : file_ctx) : bytes :=
  pad machine_id_size (int2buff sid ++ int2buff tid) ++
  long2buff (f_create_timestamp f) ++ long2buff (f_modify_timestamp f) ++ long2buff (p_offset (f_pos f)) ++
  long2buff (p_total_size (f_pos f)) ++ int2buff (f_crc32 f).

Lemma length_fileid_bytes k sid tid f : (8 <= k)%nat -> length (fileid_bytes k sid tid f) = (k + 36)%nat.
Proof.
  intros Hk. unfold fileid_bytes. rewrite !length_app, !length_long2buff, length_pad by done.
  change (length (int2buff _)) with 4%nat. lia.
Qed.

Lemma zlookup_inserted {A} (l : list A) i x y : zlookup l i = Some x -> zlookup (<[Z.to_nat i := y]> l) i = Some y.
Proof.
  unfold zlookup. destruct (Z.leb_spec 0 i); [|done]. intros H1%lookup_lt_Some. by apply list_lookup_insert_eq.
Qed.

Lemma file_ctx_new_fresh mal1 mal2 pool sfd size opt pool' : file_ctx_new mal1 mal2 pool sfd size opt = Ret (pool', true) ->
  exists f, zlookup pool' sfd = Some (Some f) /\ fd f = None /\ f_pos f = no_pos /\ f_names f = no_names /\ f_op_type f = opt /\
    f_buff f = zeros (Z.to_nat (f_buff_size f)).
Proof.
  unfold file_ctx_new. intros H. destruct (zlookup pool sfd) as [[f|]|] eqn:E; [| |done].
  - injection H as <-. exists (fctx_renew f opt). split; [|done]. by eapply zlookup_inserted.
  - destruct (mal1 && mal2); [|done]. injection H as <-. exists (fctx_renew (zero_fctx size opt []) opt). split; [|done]. by eapply zlookup_inserted.
Qed.

Lemma fileid_bytes_ok k sid tid f : is_bytes (fileid_bytes k sid tid f).
Proof.
  unfold fileid_bytes, is_bytes, pad. rewrite !Forall_app.
  split_and!; try apply int2buff_bytes; try apply long2buff_bytes. apply Forall_replicate. unfold is_u. lia.
Qed.

Lemma buff2long_at n r : is_s 64 n -> buff2long (long2buff n ++ r) = Ret n.
Proof. intros Hn. rewrite buff2long_decode. by rewrite s_wrap_id. Qed.

Lemma drop_8 a r : drop 8 (long2buff a ++ r) = r.
Proof. done. Qed.
Lemma drop_16 a b r : drop 16 (long2buff a ++ long2buff b ++ r) = r.
Proof. done. Qed.
Lemma drop_24 a b c r : drop 24 (long2buff a ++ long2buff b ++ long2buff c ++ r) = r.
Proof. done. Qed.
Lemma drop_32 a b c d r : drop 32 (long2buff a ++ long2buff b ++ long2buff c ++ long2buff d ++ r) = r.
Proof. done. Qed.

Lemma drop_machine_id k sid tid f n : (8 <= k)%nat -> drop k (pad n (fileid_bytes k sid tid f)) =
  long2buff (f_create_timestamp f) ++ long2buff (f_modify_timestamp f) ++ long2buff (p_offset (f_pos f)) ++ long2buff (p_total_size (f_pos f)) ++
  int2buff (f_crc32 f) ++ zeros (n - length (fileid_bytes k sid tid f)).
Proof. intros Hk. unfold pad at 1, fileid_bytes at 1. rewrite <- !app_assoc. rewrite drop_app_length' by (by rewrite length_pad). done. Qed.

Lemma buf_write_cases b off d : (exists b', buf_write b off d = Ret b' /\ length b' = length b /\ 0 <= off /\ off + zlen d <= zlen b) \/ buf_write b off d = Crash OutOfBounds.
Proof.
  unfold buf_write, zlen. destruct (Z.leb_spec 0 off); [|by right]. destruct (Z.leb_spec (off + Z.of_nat (length d)) (Z.of_nat (length b))); [|by right]. left. eexists. split; [done|].
  split; [|lia]. rewrite !length_app, length_take, length_drop. lia.
Qed.

(** Whatever the size of the machine id: the fields do not fit the 32 bytes. *)
Lemma metedata_pack_overflow k enc group volume sid tid m f : file_metedata_pack k enc group volume sid tid m f = Crash OutOfBounds.
Proof.
  assert (__fileidname_pack k enc sid tid f = Crash OutOfBounds) as H; [|unfold file_metedata_pack; by rewrite H]. unfold __fileidname_pack.
  repeat (match goal with |- context [buf_write ?b ?off ?d ≫= _] => destruct (buf_write_cases b off d) as [(? & -> & ? & ? & ?)| ->]; cbn [mbind outcome_bind]; [|done] end).
  exfalso. unfold zlen in *. change (length (int2buff (f_crc32 f))) with 4%nat in *. assert (length (zeros LFS_FILE_METEDATA_NAME_BUFF_SIZE) = 32%nat) by done. lia.
Qed.

(** ** Theorems *)

(** A name that holds the fields is read as they are: the times, the offset, the
    size and the lower 32 bits of the checksum. *)
Theorem metedata_roundtrip k sid tid f : (8 <= k <= 216)%nat ->
  is_s 64 (f_create_timestamp f) /\ is_s 64 (f_modify_timestamp f) /\ is_s 64 (p_offset (f_pos f)) /\ is_s 64 (p_total_size (f_pos f)) ->
  file_metedata_unpack k (base64_text ds_context (fileid_bytes k sid tid f)) =
    Ret (mk_fmete (f_create_timestamp f) (f_modify_timestamp f) (p_offset (f_pos f)) (p_total_size (f_pos f)) (s32 (f_crc32 f))).
Proof.
  intros [Hk1 Hk2] (H1 & H2 & H3 & H4). unfold file_metedata_unpack.
  destruct (decode_text ds_context ds_context_ok (fileid_bytes k sid tid f) (zeros LFS_FILE_ID_SIZE) (fileid_bytes_ok k sid tid f)) as (pad & -> & _).
  { rewrite length_fileid_bytes by done. unfold decode_room, zeros, LFS_FILE_ID_SIZE. rewrite length_replicate. pose proof (Nat.div_mod_eq (k + 36 + 2) 3). lia. }
  cbn [mbind outcome_bind]. cbv zeta. set (r := 0 :: _). clearbody r. unfold fileid_bytes. rewrite <- !app_assoc. rewrite drop_app_length' by (by rewrite length_pad).
  rewrite (drop_8 (f_create_timestamp f)), (drop_16 (f_create_timestamp f)), (drop_24 (f_create_timestamp f)), (drop_32 (f_create_timestamp f)), !buff2long_at by done. cbn [mbind outcome_bind].
  rewrite buff2int_int2buff. done.
Qed.

Definition demo_fctx : file_ctx := set_crc32 (set_pos (set_times (zero_fctx 4 FILE_OP_TYPE_WRITE []) 1500000000 1500000001) (mk_fpos 0 5 0 5 0 0)) (2 ^ 31 + 7).

Lemma metedata_roundtrip_witness :
  file_metedata_unpack 8 (base64_text ds_context (fileid_bytes 8 77 12 demo_fctx)) = Ret (mk_fmete 1500000000 1500000001 0 5 (7 - 2 ^ 31)).
Proof. apply (metedata_roundtrip 8 77 12 demo_fctx); [lia|]. unfold is_s. cbn. lia. Defined.
