(* ===== verification/Client.v ===== *)
(** * The client library

    src/src/client/client_common.c: the meta data of a file, read by a client
    from the file's name.  [Base64decode] is not part of the sources. *)
From S2P Require Import Prelude Codec CString Base64 TsConn DsBlock DsBinlog DsSync DsFile.

(** [file_metedata] of lfs_types.h. *)
Record client_metedata := mk_cmete { cm_timestamp : Z; cm_offset : Z; cm_size : Z; cm_crc32 : Z }.

Section Client.
(** The bytes that [Base64decode] writes for a name. *)
Context (Base64decode : bytes -> bytes).

(** The copy of the name that was cut to 127 characters is not used.  What does
    not fit into the 256 bytes of [file_binname] is written behind them. *)
Definition client_file_metedata_unpack (file_b64name : bytes) : outcome client_metedata :=
  let d := Base64decode file_b64name in
  if (256 <? length d)%nat then Crash OutOfBounds
  else
    let p := pad 256 d in
    timestamp ← buff2long p;
    offset ← buff2long (drop 8 p);
    size ← buff2long (drop 16 p);
    crc ← buff2int (drop 24 p);
    Ret (mk_cmete timestamp offset size crc).
End Client.

(** ** Lemmas *)

(** [Base64decode] is the inverse of the encoder of the server. *)
Definition decodes (Base64decode : bytes -> bytes) : Prop := forall b, is_bytes b -> Base64decode (base64_text ds_context b) = b.

Lemma long2buff_split n : long2buff n = int2buff (Z.shiftr n 32) ++ int2buff n.
Proof. unfold long2buff, int2buff. cbn [app]. by rewrite !Z.shiftr_shiftr by lia. Qed.

Lemma buff2int_high n r : buff2int (long2buff n ++ r) = Ret (s32 (Z.shiftr n 32)).
Proof. rewrite long2buff_split, <- app_assoc. apply buff2int_int2buff. Qed.

Lemma machine_id_long sid tid r : exists n, buff2long (pad 8 (int2buff sid ++ int2buff tid) ++ r) = Ret n.
Proof. by eexists. Qed.

Lemma machine_id_first k sid tid f n : (8 <= k)%nat -> pad n (fileid_bytes k sid tid f) = pad k (int2buff sid ++ int2buff tid) ++ drop k (pad n (fileid_bytes k sid tid f)).
Proof. intros Hk. rewrite drop_machine_id by done. unfold pad at 1, fileid_bytes at 1. by rewrite <- !app_assoc. Qed.

Lemma later_fields l a b r : drop 8 l = long2buff a ++ long2buff b ++ r ->
  drop 8 l = long2buff a ++ long2buff b ++ r /\ drop 16 l = long2buff b ++ r /\ drop 24 l = r.
Proof. intros H. split_and!; [done|change 16%nat with (8 + 8)%nat|change 24%nat with (8 + 16)%nat]; by rewrite <- drop_drop, H. Qed.

Lemma read_fields p n a b r z : buff2long p = Ret n -> drop 8 p = long2buff a ++ long2buff b ++ r -> is_s 64 a -> is_s 64 b -> buff2int r = Ret z ->
  (timestamp ← buff2long p; offset ← buff2long (drop 8 p); size ← buff2long (drop 16 p); crc ← buff2int (drop 24 p); Ret (mk_cmete timestamp offset size crc)) = Ret (mk_cmete n a b z).
Proof.
  intros Hn H8 Ha Hb Hz. destruct (later_fields _ _ _ _ H8) as (_ & H16 & H24). rewrite Hn, H8, H16, H24, (buff2long_at a), (buff2long_at b), Hz by done. reflexivity.
Qed.

Lemma unpack_fields dec s d n a b r z : dec s = d -> (length d <= 256)%nat -> buff2long (pad 256 d) = Ret n -> drop 8 (pad 256 d) = long2buff a ++ long2buff b ++ r ->
  is_s 64 a -> is_s 64 b -> buff2int r = Ret z -> client_file_metedata_unpack dec s = Ret (mk_cmete n a b z).
Proof.
  intros Hd Hl Hn H8 Ha Hb Hz. unfold client_file_metedata_unpack. rewrite Hd. cbv zeta. rewrite (proj2 (Nat.ltb_ge _ _) Hl). by apply (read_fields _ n a b r z).
Qed.

(** ** Theorems *)

(** The client does not skip the eight bytes with the machine's id that the server
    puts first: of every name with the fields in the server order it takes the creation time
    for the offset, the modification time for the size and the upper half of the
    offset for the checksum. *)
Theorem client_misreads Base64decode sid tid f : decodes Base64decode -> is_s 64 (f_create_timestamp f) -> is_s 64 (f_modify_timestamp f) ->
  exists n, client_file_metedata_unpack Base64decode (base64_text ds_context (fileid_bytes 8 sid tid f)) =
    Ret (mk_cmete n (f_create_timestamp f) (f_modify_timestamp f) (s32 (Z.shiftr (p_offset (f_pos f)) 32))).
Proof.
  intros Hd H1 H2. destruct (machine_id_long sid tid (drop 8 (pad 256 (fileid_bytes 8 sid tid f)))) as [n Hn]. exists n.
  rewrite <- (machine_id_first 8 sid tid f 256) in Hn by lia.
  eapply (unpack_fields _ _ (fileid_bytes 8 sid tid f)); [apply Hd, fileid_bytes_ok|rewrite length_fileid_bytes; lia|exact Hn|apply drop_machine_id; lia|done|done|apply buff2int_high].
Qed.

(** The decoder of the server, as a [Base64decode]. *)
Definition demo_decode (s : bytes) : bytes := match base64_decode ds_context s (zeros (length s + 4)) with Ret (d, n) => take (Z.to_nat n) d | Crash _ => [] end.

Lemma demo_decodes : decodes demo_decode.
Proof.
  intros b Hb. unfold demo_decode. pose proof (base64_encode_length ds_context b (or_introl eq_refl)) as Hl. unfold base64_get_encode_length in Hl. change (negb (Base64.line_length ds_context =? 0)) with false in Hl. cbv iota zeta in Hl.
  destruct (decode_text ds_context ds_context_ok b (zeros (length (base64_text ds_context b) + 4)) Hb) as (pad & -> & _).
  - unfold zeros. rewrite length_replicate. unfold decode_room, zlen in *. rewrite Z.quot_div_nonneg in Hl by lia. change 3 with (Z.of_nat 3) in Hl. change 2 with (Z.of_nat 2) in Hl. rewrite <- Nat2Z.inj_add, <- Nat2Z.inj_div in Hl.
    pose proof (Nat.div_mod_eq (length b + 2) 3). pose proof (Nat.mod_upper_bound (length b + 2) 3). lia.
  - unfold zlen. rewrite Nat2Z.id. by rewrite take_app_length.
Qed.

Lemma client_misreads_witness : exists n,
  client_file_metedata_unpack demo_decode (base64_text ds_context (fileid_bytes 8 77 12 demo_fctx)) = Ret (mk_cmete n 1500000000 1500000001 0).
Proof. apply (client_misreads demo_decode 77 12 demo_fctx demo_decodes); unfold is_s; cbn; lia. Defined.
