(* ===== verification/DsConn.v ===== *)
(** * Connections of the data server

    src/src/dataserver/ds_conn.c and the structures of ds_types.h: a connection
    owns a read and a write buffer, [rcurr] and [wcurr] are offsets into them;
    [fctx] says whether it points to the file context of its socket.  The
    queues of connections and of the items for new connections are lists of
    list.h. *)
From S2P Require Import Prelude ListH TsQueue TsConn DsFile.

Inductive conn_states :=
| conn_parse_cmd | conn_read | conn_fread | conn_write | conn_fwrite | conn_fsend | conn_waiting | conn_mwrite | conn_n2dio | conn_closed.

#[export] Instance ds_conn_states_eq_dec : EqDecision conn_states.
Proof. solve_decision. Defined.

(** [struct conn_st]; [which] and [header] are never read. *)
Record conn := mk_conn {
  sfd : Z;
  state : conn_states;
  nextto : conn_states;
  event_flags : Z;
  rbuff : bytes;
  rcurr : Z;
  rsize : Z;
  alloc_count : Z;
  rbytes : Z;
  wbuff : bytes;
  wcurr : Z;
  wsize : Z;
  wbytes : Z;
  wused : Z;
  fctx : bool
}.

Definition with_states (c : conn) (st nx : conn_states) : conn :=
  mk_conn (sfd c) st nx (event_flags c) (rbuff c) (rcurr c) (rsize c) (alloc_count c) (rbytes c) (wbuff c) (wcurr c) (wsize c) (wbytes c) (wused c) (fctx c).
Definition with_state (c : conn) (st : conn_states) : conn := with_states c st (nextto c).
Definition with_nextto (c : conn) (nx : conn_states) : conn := with_states c (state c) nx.
Definition with_flags (c : conn) (fl : Z) : conn :=
  mk_conn (sfd c) (state c) (nextto c) fl (rbuff c) (rcurr c) (rsize c) (alloc_count c) (rbytes c) (wbuff c) (wcurr c) (wsize c) (wbytes c) (wused c) (fctx c).
Definition with_read (c : conn) (b : bytes) (cur size n : Z) : conn :=
  mk_conn (sfd c) (state c) (nextto c) (event_flags c) b cur size (alloc_count c) n (wbuff c) (wcurr c) (wsize c) (wbytes c) (wused c) (fctx c).
Definition with_alloc (c : conn) (n : Z) : conn :=
  mk_conn (sfd c) (state c) (nextto c) (event_flags c) (rbuff c) (rcurr c) (rsize c) n (rbytes c) (wbuff c) (wcurr c) (wsize c) (wbytes c) (wused c) (fctx c).
Definition with_write (c : conn) (b : bytes) (n : Z) : conn :=
  mk_conn (sfd c) (state c) (nextto c) (event_flags c) (rbuff c) (rcurr c) (rsize c) (alloc_count c) (rbytes c) b (wcurr c) (wsize c) n (wused c) (fctx c).
Definition with_sent (c : conn) (cur used : Z) : conn :=
  mk_conn (sfd c) (state c) (nextto c) (event_flags c) (rbuff c) (rcurr c) (rsize c) (alloc_count c) (rbytes c) (wbuff c) cur (wsize c) (wbytes c) used (fctx c).
Definition with_fctx (c : conn) (p : bool) : conn :=
  mk_conn (sfd c) (state c) (nextto c) (event_flags c) (rbuff c) (rcurr c) (rsize c) (alloc_count c) (rbytes c) (wbuff c) (wcurr c) (wsize c) (wbytes c) (wused c) p.

(** ** The file context of a connection *)

Definition get_fctx (pool : fctx_pool) (c : conn) : outcome file_ctx :=
  if fctx c then e ← get_or OutOfBounds (zlookup pool (sfd c)); get_or UseAfterFree e else Crash NullDeref.

Definition put_fctx (pool : fctx_pool) (c : conn) (f : file_ctx) : fctx_pool := <[Z.to_nat (sfd c) := Some f]> pool.

(** [if(c->fctx) g(c->fctx);] *)
Definition on_fctx (g : file_ctx -> file_ctx) (pool : fctx_pool) (c : conn) : outcome fctx_pool :=
  if fctx c then f ← get_fctx pool c; Ret (put_fctx pool c (g f)) else Ret pool.

(** ** Operations *)

Definition __set_conn_state (c : conn) (st : conn_states) : conn := if decide (st = state c) then c else with_state c st.
Definition set_conn_state := __set_conn_state.

Definition set_conn_mstate (c : conn) (curr_state next_state : conn_states) : conn :=
  let c := if decide (curr_state = state c) then c else with_state c curr_state in
  if decide (next_state = nextto c) then c else with_nextto c next_state.

Definition __conn_clean (pool : fctx_pool) (c : conn) : outcome (fctx_pool * conn) :=
  pool ← on_fctx file_ctx_clean pool c;
  Ret (pool, mk_conn (sfd c) (state c) (nextto c) (event_flags c) (rbuff c) 0 (rsize c) 0 0 (wbuff c) 0 (wsize c) 0 0 false).

Definition conn_clean := __conn_clean.

Definition __conn_reset (pool : fctx_pool) (c : conn) : outcome (fctx_pool * conn) :=
  pool ← on_fctx file_ctx_buff_reset pool c;
  Ret (pool, mk_conn (sfd c) (state c) (nextto c) (event_flags c) (zeros (Z.to_nat (rsize c))) 0 (rsize c) 0 0 (zeros (Z.to_nat (wsize c))) 0 (wsize c) 0 0 (fctx c)).

Definition conn_reset := __conn_reset.

Definition conn_write_reset (c : conn) : conn :=
  mk_conn (sfd c) (state c) (nextto c) (event_flags c) (rbuff c) (rcurr c) (rsize c) (alloc_count c) (rbytes c) (zeros (Z.to_nat (wsize c))) 0 (wsize c) 0 0 (fctx c).

(** [ev_..]: the libevent calls succeed. *)
Definition __update_conn_event (ev_del ev_add : bool) (c : conn) (new_ev_flags : Z) : conn * Z :=
  if event_flags c =? new_ev_flags then (c, 0)
  else if negb ev_del then (c, LFS_ERROR)
  else (with_flags c new_ev_flags, if ev_add then 0 else LFS_ERROR).

Definition del_conn_event (ev_del : bool) : Z := if ev_del then 0 else LFS_ERROR.

Definition add_conn_event (ev_add : bool) (c : conn) (new_ev_flags : Z) : conn * Z := (with_flags c new_ev_flags, if ev_add then 0 else LFS_ERROR).

(** [conns], [fctxs] and [ctxs.curr_conns]. *)
Record conn_table := mk_conn_table { conns : list (option conn); ct_fctxs : fctx_pool; ct_curr : Z }.

(** What [conn_close] does to the connection. *)
Definition conn_shut (pool : fctx_pool) (c : conn) : outcome (fctx_pool * conn) :=
  '(pool, c) ← __conn_clean pool c; Ret (pool, __set_conn_state c conn_closed).

Definition conn_close (t : conn_table) (c : conn) : outcome conn_table :=
  '(pool, c) ← conn_shut (ct_fctxs t) c;
  l ← zinsert (conns t) (sfd c) (Some c);
  Ret (mk_conn_table l pool (u32 (ct_curr t - 1))).

(** The structure is freed; its entry in [conns] is not changed. *)
Definition conn_free (pool : fctx_pool) (c : conn) : outcome fctx_pool := on_fctx file_ctx_clean pool c.

Definition conn_renew (c : conn) (init_state : conn_states) (fl : Z) : conn :=
  mk_conn (sfd c) init_state (nextto c) fl (rbuff c) 0 (rsize c) 0 0 (wbuff c) 0 (wsize c) 0 0 false.

(** [junk_r] and [junk_w] are what [malloc] leaves in the buffers. *)
Definition conn_new (mal1 mal2 mal3 ev_add : bool) (junk_r junk_w : nat -> Z) (t : conn_table) (fd : Z) (init_state : conn_states) (rs ws fl : Z) : outcome (conn_table * option conn) :=
  slot ← get_or AssertFailed (zlookup (conns t) fd);
  let use c :=
    let c := conn_renew c init_state fl in
    l ← zinsert (conns t) fd (Some c);
    Ret (mk_conn_table l (ct_fctxs t) (ct_curr t), if ev_add then Some c else None) in
  match slot with
  | Some c => use c
  | None =>
      if negb mal1 then Ret (t, None)
      else if negb (mal2 && mal3) then Ret (t, None)
      else use (mk_conn fd conn_parse_cmd conn_parse_cmd 0 (junk_r <$> seq 0 (Z.to_nat rs)) 0 rs 0 0 (junk_w <$> seq 0 (Z.to_nat ws)) 0 ws 0 0 false)
  end.

(** ** Queues *)

(** [conn_queue_push] of ds_conn.c; the node is the [list] field of the
    connection. *)
Definition conn_queue_push (h : links) (cq_head c : lloc) : outcome links := list_add_tail h c cq_head.

(** The part under the lock: the loop stops at the first connection. *)
Definition conn_queue_pop_locked (h : links) (cq_head : lloc) : outcome (links * option lloc) :=
  plist ← get_next h cq_head;
  if (plist =? cq_head)%nat then Ret (h, None) else h ← list_del_init h plist; Ret (h, Some plist).

Definition conn_queue_pop (h : links) (cq_head : lloc) : outcome (links * option lloc) :=
  a ← queue_active h cq_head;
  if negb a then Ret (h, None) else conn_queue_pop_locked h cq_head.

Definition conn_queue_walk (h : links) (cq_head : lloc) : outcome Z :=
  a ← queue_active h cq_head;
  if negb a then Ret 0
  else
    first ← get_next h cq_head;
    l ← list_for_each (size h) h first cq_head;
    Ret (Z.of_nat (length l)).

(** The loop of [conn_queue_destroy]: an entry is freed, then its [next] is
    read. *)
Fixpoint destroy_loop (fuel : nat) (h : links) (pos cq_head : lloc) : outcome links :=
  if (pos =? cq_head)%nat then Ret h
  else match fuel with
       | O => Crash Diverged
       | S fuel => let h := delete pos h in next ← get_next h pos; destroy_loop fuel h next cq_head
       end.

Definition conn_queue_destroy (h : links) (cq_head : lloc) : outcome links :=
  a ← queue_active h cq_head;
  if negb a then Ret h else pos ← get_next h cq_head; destroy_loop (size h) h pos cq_head.

(** ** Items for new connections *)

Definition __conn_item_push (h : links) (cq_head conn_item : lloc) : outcome links := list_add_tail h conn_item cq_head.

Fixpoint push_items (h : links) (q : lloc) (items : list lloc) : outcome links :=
  match items with
  | [] => Ret h
  | x :: items' => h ← __conn_item_push (zero_item h x) q x; push_items h q items'
  end.

(** New items are at [brk ..]; the loop leaves out the last one. *)
Definition conn_item_new (malloc_ok : bool) (h : links) (freecitems brk : lloc) : outcome (links * lloc * option lloc) :=
  '(h, item) ← conn_queue_pop h freecitems;
  match item with
  | Some x => Ret (zero_item h x, brk, Some x)
  | None =>
      if negb malloc_ok then Ret (h, brk, None)
      else
        h ← push_items h freecitems (seq (brk + 1) (CONN_ITEMS_PER_ALLOC - 2));
        Ret (zero_item h brk, (brk + CONN_ITEMS_PER_ALLOC)%nat, Some brk)
  end.

Definition conn_item_free (h : links) (freecitems : lloc) (item : option lloc) : outcome links :=
  match item with
  | None => Ret h
  | Some x => __conn_item_push (zero_item h x) freecitems x
  end.

(** ** Lemmas *)

Lemma get_put_fctx pool c f f0 : get_fctx pool c = Ret f0 -> get_fctx (put_fctx pool c f) c = Ret f.
Proof.
  unfold get_fctx, put_fctx. destruct (fctx c); [|done]. destruct (zlookup pool (sfd c)) eqn:E; [|done].
  intros _. cbn [get_or mbind outcome_bind]. erewrite zlookup_inserted by done. done.
Qed.

Lemma put_put_fctx pool c f g : put_fctx (put_fctx pool c f) c g = put_fctx pool c g.
Proof. unfold put_fctx. apply list_insert_insert_eq. Qed.

Lemma set_conn_state_state c st : state (set_conn_state c st) = st.
Proof. unfold set_conn_state, __set_conn_state. by destruct (decide (st = state c)). Qed.

Lemma set_conn_state_eq c st : set_conn_state c st = with_state c st.
Proof. unfold set_conn_state, __set_conn_state. destruct (decide (st = state c)) as [->|]; [by destruct c|done]. Qed.

Lemma conn_queue_pop_spec h q xs : is_list h q xs ->
  match xs with
  | [] => conn_queue_pop h q = Ret (h, None)
  | c :: xs' => exists h', conn_queue_pop h q = Ret (h', Some c) /\ is_list h' q xs' /\ dom h' = dom h
  end.
Proof.
  intros Hl. unfold conn_queue_pop. rewrite (queue_active_spec h q xs Hl). destruct xs as [|c xs]; [done|]. cbn [mbind outcome_bind].
  rewrite bool_decide_false by done. cbn [negb]. unfold conn_queue_pop_locked. rewrite (list_first h q _ Hl). cbn [mbind outcome_bind]. change (after q (c :: xs)) with c.
  destruct (Nat.eqb_spec c q) as [->|_]; [destruct Hl as [_ Hnd]; apply NoDup_cons in Hnd as [Hn _]; exfalso; apply Hn; constructor|].
  destruct (list_del_init_between h q [] c xs Hl) as (h' & Hdel & Hl' & _ & Hd). rewrite Hdel. cbn [mbind outcome_bind]. by exists h'.
Qed.

(** ** Theorems *)

(** The queue of connections is first in first out: what is pushed behind is
    popped after everything that was there, and nothing is lost. *)
Theorem conn_queue_roundtrip h q xs c : is_list h q xs -> c ∈ dom h -> c ∉ q :: xs ->
  exists h1, conn_queue_push h q c = Ret h1 /\ is_list h1 q (xs ++ [c]) /\ conn_queue_walk h1 q = Ret (Z.of_nat (length xs) + 1) /\
    exists h2 y ys, xs ++ [c] = y :: ys /\ conn_queue_pop h1 q = Ret (h2, Some y) /\ is_list h2 q ys.
Proof.
  intros Hl Hd Hn. destruct (list_add_tail_spec h q xs c Hl Hd Hn) as (h1 & H1 & Hl1 & _). exists h1. split_and!; [done|done| |].
  - unfold conn_queue_walk. rewrite (queue_active_spec h1 q _ Hl1). cbn [mbind outcome_bind]. rewrite bool_decide_false by (by destruct xs). cbn [negb].
    rewrite (list_first h1 q _ Hl1). cbn [mbind outcome_bind].
    rewrite (list_for_each_from h1 q [] (xs ++ [c]) (size h1)) by (done || by eapply list_length_links). cbn [mbind outcome_bind].
    rewrite length_app. cbn [length]. f_equal. lia.
  - destruct (xs ++ [c]) as [|y ys] eqn:E; [by destruct xs|]. pose proof (conn_queue_pop_spec h1 q (y :: ys) Hl1) as (h2 & H2 & Hl2 & _).
    by exists h2, y, ys.
Qed.

(** Destroying a queue that is not empty reads an entry that was just freed. *)
Theorem conn_queue_destroy_bad h q c xs : is_list h q (c :: xs) -> conn_queue_destroy h q = Crash UseAfterFree.
Proof.
  intros Hl. unfold conn_queue_destroy. rewrite (queue_active_spec h q _ Hl). cbn [mbind outcome_bind]. rewrite bool_decide_false by done. cbn [negb].
  rewrite (list_first h q _ Hl). cbn [mbind outcome_bind]. change (after q (c :: xs)) with c.
  pose proof (list_length_links h q _ Hl) as Hs. destruct (size h) as [|n]; [cbn in Hs; lia|]. cbn [destroy_loop].
  destruct (Nat.eqb_spec c q) as [->|_]; [destruct Hl as [_ Hnd]; apply NoDup_cons in Hnd as [Hn _]; exfalso; apply Hn; constructor|].
  cbv zeta. unfold get_next. by rewrite lookup_delete_eq.
Qed.

Lemma conn_queue_roundtrip_witness : exists h1, conn_queue_push links_demo 0 4 = Ret h1 /\ is_list h1 0 [1; 2; 3; 4]%nat.
Proof.
  destruct (conn_queue_roundtrip links_demo 0 [1; 2; 3]%nat 4 links_demo_list) as (h1 & H1 & H2 & _).
  - refine (bool_decide_unpack _ _). vm_compute. exact I.
  - refine (bool_decide_unpack _ _). vm_compute. exact I.
  - exists h1. exact (conj H1 H2).
Defined.

Lemma conn_queue_destroy_bad_witness : conn_queue_destroy links_demo 0 = Crash UseAfterFree.
Proof. exact (conn_queue_destroy_bad links_demo 0 1 [2; 3]%nat links_demo_list). Defined.
