(* ===== verification/DsService.v ===== *)
(** * The requests of the data server

    src/src/dataserver/ds_service.c: what each request does to the file context
    of the connection and to the response, and the functions that are called
    when the disk has done its part.  The state of the server is its files, its
    mounts, its two logs and the pool of file contexts. *)
From S2P Require Import Prelude Codec CString Lines Crc32 ListH TsQueue TsConn Protocol DsBlock DsBinlog DsSync DsFile DsConn.

(** ** The server *)

Record server := mk_server {
  sv_fctxs : fctx_pool;
  sv_mounts : block_mount;
  sv_files : files;
  sv_disk : bdisk;
  sv_bctx : binlog_ctx;
  sv_rdisk : bdisk;
  sv_rbctx : binlog_ctx;
  sv_sequence : Z;
  sv_reader : Z
}.

Definition set_fctxs (s : server) (p : fctx_pool) : server := mk_server p (sv_mounts s) (sv_files s) (sv_disk s) (sv_bctx s) (sv_rdisk s) (sv_rbctx s) (sv_sequence s) (sv_reader s).
Definition set_mounts (s : server) (m : block_mount) : server := mk_server (sv_fctxs s) m (sv_files s) (sv_disk s) (sv_bctx s) (sv_rdisk s) (sv_rbctx s) (sv_sequence s) (sv_reader s).
Definition set_sv_files (s : server) (fs : files) : server := mk_server (sv_fctxs s) (sv_mounts s) fs (sv_disk s) (sv_bctx s) (sv_rdisk s) (sv_rbctx s) (sv_sequence s) (sv_reader s).
Definition set_log (s : server) (d : bdisk) (b : binlog_ctx) : server := mk_server (sv_fctxs s) (sv_mounts s) (sv_files s) d b (sv_rdisk s) (sv_rbctx s) (sv_sequence s) (sv_reader s).
Definition set_rlog (s : server) (d : bdisk) (b : binlog_ctx) : server := mk_server (sv_fctxs s) (sv_mounts s) (sv_files s) (sv_disk s) (sv_bctx s) d b (sv_sequence s) (sv_reader s).
Definition set_sequence (s : server) (n : Z) : server := mk_server (sv_fctxs s) (sv_mounts s) (sv_files s) (sv_disk s) (sv_bctx s) (sv_rdisk s) (sv_rbctx s) n (sv_reader s).
Definition set_reader (s : server) (n : Z) : server := mk_server (sv_fctxs s) (sv_mounts s) (sv_files s) (sv_disk s) (sv_bctx s) (sv_rdisk s) (sv_rbctx s) (sv_sequence s) n.

Definition ctx_of (s : server) (c : conn) : outcome file_ctx := get_fctx (sv_fctxs s) c.
Definition put_ctx (s : server) (c : conn) (f : file_ctx) : server := set_fctxs s (put_fctx (sv_fctxs s) c f).

(** The configuration, and what is outside the sources. *)
Record service_conf := mk_sconf {
  sc_group : bytes;
  sc_volume : bytes;
  sc_ratio : SpecFloat.spec_float;
  sc_max_file : Z;
  sc_sub : Z;
  sc_sid : Z;
  sc_binlog : bytes;
  sc_rbinlog : bytes;
  sc_read_threads : Z;
  sc_write_threads : Z;
  sc_machine_id : nat;
  sc_base64 : bytes -> bytes;
  sc_upload_resp : bytes -> outcome bytes
}.

(** What the system calls of one request answer. *)
Record service_env := mk_svenv { se_mal1 : bool; se_mal2 : bool; se_vfs : vfs; se_time : Z; se_rand : Z; se_tid : Z }.

Definition O_RDONLY : Z := 0.
Definition O_WRONLY : Z := 1.
Definition O_CREAT : Z := 64.
Definition DEFAULT_FILE_BUFF_SIZE : Z := 64 * 1024.

Definition PROTOCOL_CMD_FILE_UPLOAD : Z := 18.
Definition PROTOCOL_CMD_FILE_DOWNLOAD : Z := 19.
Definition PROTOCOL_RESP_STATUS_ERROR_DIO_WRITE_DISK : Z := 17.
Definition PROTOCOL_RESP_STATUS_ERROR_MOUNT_BLOCK_MAP_INFO : Z := 27.
Definition PROTOCOL_RESP_STATUS_ERROR_FILEMETEDATA_PACK : Z := 33.
Definition PROTOCOL_RESP_STATUS_ERROR_FILEDOWNLOAD_OFFSET_INVALID : Z := 37.
Definition PROTOCOL_RESP_STATUS_ERROR_FILEDOWNLOAD_SIZE_INVALID : Z := 38.
Definition PROTOCOL_RESP_STATUS_ERROR_FILE_DOWNLOAD_DIO : Z := 39.
Definition PROTOCOL_RESP_STATUS_ERROR_BINLOG_WRITE : Z := 48.
Definition PROTOCOL_RESP_STATUS_ERROR_SYNC_STAT_BINLOGFILE : Z := 54.
Definition PROTOCOL_RESP_STATUS_ERROR_SYNC_NO_BINLOGTYPE : Z := 55.
Definition PROTOCOL_RESP_STATUS_ERROR_SYNC_STAT_DATAFILE : Z := 57.

(** ** Paths *)

(** [BINLOG_FILENAME] *)
Definition BINLOG_FILENAME (name : bytes) (k : Z) : bytes :=
  take (MAX_PATH_SIZE - 1) (name ++ [46] ++ (if k <? 0 then 45 :: pad0 2 (pr_dec (- k)) else pr_03d k)).

(** The content of the file of a log that has the path [p]. *)
Definition find_log (name : bytes) (d : bdisk) (p : bytes) : option bytes :=
  snd <$> head (filter (fun kb : Z * bytes => BINLOG_FILENAME name kb.1 = p) (map_to_list (bd_files d))).

(** The content of the file with the path [p]: a data file or a file of one of
    the logs. *)
Definition path_content (cf : service_conf) (s : server) (p : bytes) : option bytes :=
  match sv_files s !! p with
  | Some b => Some b
  | None => match find_log (sc_binlog cf) (sv_disk s) p with
            | Some b => Some b
            | None => find_log (sc_rbinlog cf) (sv_rdisk s) p
            end
  end.

(** ** Responses *)

(** The command is that of the request; the last six bytes of the header are
    whatever the buffer holds. *)
Definition __resp_header (c : conn) (resp_status : Z) : outcome conn :=
  cmd ← get_or OutOfBounds (zlookup (rbuff c) 8);
  b ← buf_write (wbuff c) 0 (header_bytes 0 cmd resp_status);
  Ret (with_write c b sizeof_protocol_header).

Definition handle_protocol_error (c : conn) (resp_status : Z) : outcome conn :=
  c ← __resp_header c resp_status; Ret (set_conn_state c conn_write).

Definition handle_protocol_ack (c : conn) (cstates nextto : conn_states) : outcome conn :=
  c ← __resp_header c PROTOCOL_RESP_STATUS_SUCCESS; Ret (with_nextto (set_conn_state c cstates) nextto).

(** [dio_notify_nio] of ds_disk_io.c: the connection is put into the queue of its
    network thread, which the caller does with the connection that is returned. *)
Definition dio_notify_nio (c : conn) (st : conn_states) (ev_flags : Z) : conn := with_flags (with_state c st) ev_flags.

(** A response that is sent by the network thread. *)
Definition notify_status (c : conn) (resp_status : Z) : outcome conn :=
  c ← __resp_header c resp_status; Ret (dio_notify_nio c conn_write (Z.lor EV_WRITE EV_PERSIST)).

(** ** Requests *)

(** What follows the header of the request. *)
Definition req_body (c : conn) : bytes := drop (Z.to_nat (rcurr c)) (rbuff c).

(** [file_ctx_new] for the socket of a connection. *)
Definition new_ctx (e : service_env) (s : server) (c : conn) (opt : file_op_type) : outcome (server * conn * option file_ctx) :=
  '(pool, ok) ← file_ctx_new (se_mal1 e) (se_mal2 e) (sv_fctxs s) (sfd c) DEFAULT_FILE_BUFF_SIZE opt;
  let s := set_fctxs s pool in
  let c := with_fctx c ok in
  if ok : bool then f ← ctx_of s c; Ret (s, c, Some f) else Ret (s, c, None).

(** [memcpy(dst, src, strlen(src))] to an array of [size] zeros. *)
Definition copy_string (size : nat) (src : bytes) : outcome bytes :=
  t ← c_string src; if (length t <=? size)%nat then Ret t else Crash OutOfBounds.

Section Service.
Context (cf : service_conf).

Definition pack (e : service_env) (s : server) (f : file_ctx) : outcome (file_ctx * Z) :=
  file_metedata_pack (sc_machine_id cf) (sc_base64 cf) (sc_group cf) (sc_volume cf) (sc_sid cf) (se_tid e) (sv_mounts s) f.

(** [lfs_fileupload_req]: 128 bytes of name, the size and the total size. *)
Definition handle_cmd_fileupload (e : service_env) (s : server) (c : conn) : outcome (server * conn * Z) :=
  let req := req_body c in
  '(s, c, o) ← new_ctx e s c FILE_OP_TYPE_WRITE;
  match o with
  | None => Ret (s, c, PROTOCOL_RESP_STATUS_ERROR_MEMORY)
  | Some f =>
      '(m, place, ret) ← mount_block_map_polling (se_vfs e) (sc_ratio cf) (sc_max_file cf) (sc_sub cf) (sv_mounts s) (sfd c) (f_place f);
      let s := set_mounts s m in
      let f := set_place f place in
      if negb (ret =? 0) then Ret (put_ctx s c f, c, PROTOCOL_RESP_STATUS_ERROR_MOUNT_BLOCK_MAP_INFO)
      else
        name ← copy_string LFS_FILE_NAME_SIZE req;
        size ← buff2long (drop LFS_FILE_NAME_SIZE req);
        total ← buff2long (drop (LFS_FILE_NAME_SIZE + 8) req);
        let f := set_names f (set_fn_orginl (f_names f) name) in
        let f := set_pos f (mk_fpos 0 size 0 total 0 0) in
        let f := set_times (set_crc32 f (se_rand e)) (se_time e) (se_time e) in
        let f := set_job f (Z.lor O_WRONLY O_CREAT) DioWrite UploadDone true in
        '(f, ret) ← pack e s f;
        if negb (ret =? 0) then Ret (put_ctx s c f, c, PROTOCOL_RESP_STATUS_ERROR_FILEMETEDATA_PACK)
        else Ret (put_ctx s c f, set_conn_state c conn_fread, PROTOCOL_RESP_STATUS_SUCCESS)
  end.

(** [lfs_filedownload_req]: offset, size, number of the mount and 256 bytes of
    name.  [f_offset] stays zero: the offset of the request is only compared. *)
Definition handle_cmd_filedownload (e : service_env) (s : server) (c : conn) : outcome (server * conn * Z) :=
  let req := req_body c in
  '(s, c, o) ← new_ctx e s c FILE_OP_TYPE_READ;
  match o with
  | None => Ret (s, c, PROTOCOL_RESP_STATUS_ERROR_MEMORY)
  | Some f =>
      file_offset ← buff2long req;
      download_size ← buff2long (drop 8 req);
      idx ← buff2long (drop 16 req);
      let idx := s32 idx in
      let '(_, pre, suf) := f_place f in
      name ← copy_string LFS_FILE_MAP_NAME_SIZE (drop 24 req);
      blk ← get_mount (sv_mounts s) idx;
      path ← c_string (mount_path blk);
      full ← sprintf_to LFS_FILE_BLOCK_MAP_NAME_SIZE (path ++ [LFS_FILE_ID_SEPERATOR] ++ name);
      let f := set_place (set_names f (set_fn_block_map (set_fn_map (f_names f) name) full)) (idx, pre, suf) in
      if file_offset <? 0 then Ret (put_ctx s c f, c, PROTOCOL_RESP_STATUS_ERROR_FILEDOWNLOAD_OFFSET_INVALID)
      else if download_size <=? 0 then Ret (put_ctx s c f, c, PROTOCOL_RESP_STATUS_ERROR_FILEDOWNLOAD_SIZE_INVALID)
      else if negb (file_offset =? 0) && (file_offset <=? download_size) then Ret (put_ctx s c f, c, PROTOCOL_RESP_STATUS_ERROR_FILEDOWNLOAD_SIZE_INVALID)
      else
        let p := f_pos f in
        let f := set_pos f (mk_fpos (p_offset p) download_size (p_total_offset p) (p_total_size p) (p_rwoffset p) (p_buff_offset p)) in
        let f := set_job f O_RDONLY DioRead DownloadDone false in
        c ← handle_protocol_ack c conn_mwrite conn_n2dio;
        Ret (put_ctx s c f, c, PROTOCOL_RESP_STATUS_SUCCESS)
  end.

(** The fields of a request that are set before its id is taken apart. *)
Definition copy_fields (body : bytes) : outcome (Z * bytes * Z) :=
  ts ← buff2long body;
  n ← buff2long (drop 8 body);
  id ← buf_read body 16 (Z.to_nat (s32 n));
  size ← buff2long (drop (16 + Z.to_nat (s32 n)) body);
  f_id ← c_string (pad LFS_FILE_ID_SIZE id);
  Ret (ts, f_id, size).

Definition set_copy (f : file_ctx) (ts : Z) (id : bytes) (size : Z) : file_ctx :=
  let p := f_pos f in
  set_pos (set_names (set_times f ts (f_modify_timestamp f)) (set_fn_id (f_names f) id))
    (mk_fpos (p_offset p) size (p_total_offset p) (p_total_size p) (p_rwoffset p) (p_buff_offset p)).

(** [handle_cmd_asynccopyfile] on the connection.  The fields of the request are
    those of [DsSync.handle_cmd_asynccopyfile]; when the id has too few parts the
    macro returns [LFS_ERROR], which is the status of the response. *)
Definition cmd_asynccopyfile (e : service_env) (s : server) (c : conn) : outcome (server * conn * Z) :=
  let req := req_body c in
  '(s, c, o) ← new_ctx e s c FILE_OP_TYPE_READ;
  match o with
  | None => Ret (s, c, PROTOCOL_RESP_STATUS_ERROR_MEMORY)
  | Some f =>
      r ← handle_cmd_asynccopyfile (sv_mounts s) req;
      match r with
      | None => '(ts, id, size) ← copy_fields req; Ret (put_ctx s c (set_copy f ts id size), c, LFS_ERROR)
      | Some r =>
          let f := set_copy f (cp_timestamp r) (cp_id r) (cp_size r) in
          let f := set_names f (set_fn_block_map (f_names f) (cp_path r)) in
          let f := set_job f (Z.lor O_WRONLY O_CREAT) DioWrite AsyncDone true in
          Ret (put_ctx s c f, set_conn_state c conn_fread, PROTOCOL_RESP_STATUS_SUCCESS)
      end
  end.

Definition handle_cmd_getmasterbinlogmete (s : server) (c : conn) : outcome (server * conn * Z) :=
  b ← buf_write (wbuff c) 0 (header_bytes 8 PROTOCOL_CMD_FULL_SYNC_GET_MASTER_BINLOG_METE PROTOCOL_RESP_STATUS_SUCCESS);
  b ← buf_write b sizeof_protocol_header (int2buff (s32 (curr_binlog_file_index (sv_bctx s) + 1)));
  b ← buf_write b (sizeof_protocol_header + 4) (int2buff (s32 (curr_binlog_file_index (sv_rbctx s) + 1)));
  Ret (s, set_conn_state (with_write c b (sizeof_protocol_header + 8)) conn_write, PROTOCOL_RESP_STATUS_SUCCESS).

(** The response that announces a file: length and command of the header (not
    its state) and the number of bytes that follow. *)
Definition announce (c : conn) (cmd size : Z) : outcome conn :=
  b ← buf_write (wbuff c) 0 (le64 8 ++ [u8 cmd]);
  b ← buf_write b sizeof_protocol_header (long2buff size);
  Ret (set_conn_mstate (with_write c b (sizeof_protocol_header + 8)) conn_mwrite conn_fsend).

(** The context of a file that is sent from [offset]. *)
Definition send_ctx (f : file_ctx) (path : bytes) (offset size : Z) : file_ctx :=
  let p := f_pos f in
  set_pos (set_names f (set_fn_path (f_names f) path)) (mk_fpos offset size (p_total_offset p) (p_total_size p) (p_rwoffset p) (p_buff_offset p)).

(** [stat] returns -1, never [ENOENT]. *)
Definition handle_cmd_copymasterbinlog (e : service_env) (s : server) (c : conn) : outcome (server * conn * Z) :=
  let req := req_body c in
  bindex ← buff2int req;
  btype ← buff2int (drop 4 req);
  boffset ← buff2long (drop 8 req);
  if negb ((btype =? LOCAL_BINLOG) || (btype =? REMOTE_BINLOG)) then Ret (s, c, PROTOCOL_RESP_STATUS_ERROR_SYNC_NO_BINLOGTYPE)
  else
    let b_fn := BINLOG_FILENAME (if btype =? LOCAL_BINLOG then sc_binlog cf else sc_rbinlog cf) bindex in
    '(s, c, o) ← new_ctx e s c FILE_OP_TYPE_READ;
    match o with
    | None => Ret (s, c, PROTOCOL_RESP_STATUS_ERROR_MEMORY)
    | Some f =>
        match path_content cf s b_fn with
        | None => Ret (s, c, PROTOCOL_RESP_STATUS_ERROR_SYNC_STAT_BINLOGFILE)
        | Some file =>
            let bfile_size := s64 (zlen file - boffset) in
            c ← announce c PROTOCOL_CMD_FULL_SYNC_COPY_MASTER_BINLOG bfile_size;
            Ret (put_ctx s c (send_ctx f b_fn boffset bfile_size), c, PROTOCOL_RESP_STATUS_SUCCESS)
        end
    end.

(** [sync_file_req]: the length of the name and 256 bytes of name. *)
Definition handle_cmd_copymasterdata (e : service_env) (s : server) (c : conn) : outcome (server * conn * Z) :=
  let req := req_body c in
  '(s, c, o) ← new_ctx e s c FILE_OP_TYPE_READ;
  match o with
  | None => Ret (s, c, PROTOCOL_RESP_STATUS_ERROR_MEMORY)
  | Some f =>
      sfnlen ← buff2int req;
      if (0 <=? sfnlen) && (sfnlen <=? Z.of_nat MAX_PATH_SIZE) then
        name ← buf_read req 4 (Z.to_nat sfnlen);
        path ← c_string (pad MAX_PATH_SIZE name);
        match path_content cf s path with
        | None => Ret (put_ctx s c (set_names f (set_fn_path (f_names f) path)), c, PROTOCOL_RESP_STATUS_ERROR_SYNC_STAT_DATAFILE)
        | Some file =>
            c ← announce c PROTOCOL_CMD_FULL_SYNC_COPY_MASTER_DATA (zlen file);
            Ret (put_ctx s c (send_ctx f path 0 (zlen file)), c, PROTOCOL_RESP_STATUS_SUCCESS)
        end
      else Crash OutOfBounds
  end.

(** ** When the disk is done *)

(** What the system calls answer: the result of [pthread_mutex_unlock] in
    [binlog_write], [stat] and [rename], the clock. *)
Record done_env := mk_donenv { dn_unlock : Z; dn_binlog : binlog_env; dn_mtime : option Z; dn_time : Z; dn_rename : bool; dn_service : service_env }.

(** The functions return the connection and whether it was handed to its network
    thread. *)
Definition asyncfile_done_callback (e : done_env) (s : server) (c : conn) (err_no : Z) : outcome (server * conn * bool) :=
  f ← ctx_of s c;
  if negb (err_no =? 0) then c ← notify_status c PROTOCOL_RESP_STATUS_ERROR_DIO_WRITE_DISK; Ret (s, c, true)
  else
    let line := record_line (f_create_timestamp f) FILE_OP_TYPE_CREATE_FILE (fn_id (f_names f)) in
    '(d, b, ret) ← binlog_write (dn_unlock e) (dn_binlog e) (sv_rdisk s) (sv_rbctx s) line;
    let s := set_rlog s d b in
    if negb (ret =? 0) then c ← notify_status c PROTOCOL_RESP_STATUS_ERROR_BINLOG_WRITE; Ret (s, c, true)
    else
      b ← buf_write (wbuff c) 0 (header_bytes 0 PROTOCOL_CMD_ASYNC_COPY_FILE PROTOCOL_RESP_STATUS_SUCCESS);
      let c := with_write c b sizeof_protocol_header in
      let s := if sv_sequence s <? f_create_timestamp f then set_sequence s (f_create_timestamp f) else s in
      Ret (s, dio_notify_nio c conn_write (Z.lor EV_WRITE EV_PERSIST), true).

Definition file_download_done_callback (s : server) (c : conn) (err_no : Z) : outcome (server * conn * bool) :=
  if negb (err_no =? 0) then
    _ ← ctx_of s c;
    c ← notify_status c PROTOCOL_RESP_STATUS_ERROR_FILE_DOWNLOAD_DIO; Ret (s, c, true)
  else Ret (s, c, false).

(** The end of an upload: the file gets its final name, the log a line, and the
    client the id of the file.  [sc_upload_resp] is the body of the response, the
    structure of which is not in the sources. *)
Definition upload_finished (e : done_env) (s : server) (c : conn) (f : file_ctx) : outcome (server * conn * bool) :=
  let old := fn_block_map (f_names f) in
  crc ← get_file_crc32_value (sv_files s !! old);
  let f := set_crc32 (set_times f (match dn_mtime e with Some t => t | None => dn_time e end) (f_modify_timestamp f)) crc in
  '(f, ret) ← pack (dn_service e) s f;
  let s := put_ctx s c f in
  if negb (ret =? 0) then c ← notify_status c PROTOCOL_RESP_STATUS_ERROR_FILEMETEDATA_PACK; Ret (s, c, true)
  else match (if dn_rename e then sv_files s !! old else None) with
  | None => c ← notify_status c PROTOCOL_RESP_STATUS_ERROR_FILEMETEDATA_PACK; Ret (s, c, true)
  | Some file =>
      let s := set_sv_files s (<[fn_block_map (f_names f) := file]> (delete old (sv_files s))) in
      let line := record_line (f_create_timestamp f) FILE_OP_TYPE_CREATE_FILE (fn_id (f_names f)) in
      '(d, b, ret) ← binlog_write (dn_unlock e) (dn_binlog e) (sv_disk s) (sv_bctx s) line;
      let s := set_log s d b in
      if negb (ret =? 0) then c ← notify_status c PROTOCOL_RESP_STATUS_ERROR_BINLOG_WRITE; Ret (s, c, true)
      else
        body ← sc_upload_resp cf (fn_id (f_names f));
        b ← buf_write (wbuff c) 0 (header_bytes (zlen body) PROTOCOL_CMD_FILE_UPLOAD PROTOCOL_RESP_STATUS_SUCCESS);
        b ← buf_write b sizeof_protocol_header body;
        Ret (s, dio_notify_nio (with_write c b (sizeof_protocol_header + zlen body)) conn_write (Z.lor EV_WRITE EV_PERSIST), true)
  end.

(** A part of the file that ends before the whole of it is only acknowledged;
    the counters of the whole are reset with those of the part. *)
Definition file_upload_done_callback (e : done_env) (s : server) (c : conn) (err_no : Z) : outcome (server * conn * bool) :=
  f ← ctx_of s c;
  if negb (err_no =? 0) then c ← notify_status c PROTOCOL_RESP_STATUS_ERROR_DIO_WRITE_DISK; Ret (s, c, true)
  else if p_total_size (f_pos f) <=? p_total_offset (f_pos f) then upload_finished e s c f
  else if p_size (f_pos f) <=? p_offset (f_pos f) then
    c ← __resp_header c PROTOCOL_RESP_STATUS_SUCCESS;
    Ret (put_ctx s c (file_ctx_reset f), dio_notify_nio c conn_write (Z.lor EV_WRITE EV_PERSIST), true)
  else Ret (s, c, false).

(** [fctx->f_op_func(c, ret)] *)
Definition call_op (e : done_env) (o : op_func) (s : server) (c : conn) (err_no : Z) : outcome (server * conn * bool) :=
  match o with
  | UploadDone => file_upload_done_callback e s c err_no
  | AsyncDone => asyncfile_done_callback e s c err_no
  | DownloadDone => file_download_done_callback s c err_no
  end.
End Service.
