(* ===== verification/DsDiskIo.v ===== *)
(** * Disk reading and writing

    src/src/dataserver/ds_disk_io.c: a connection whose buffer is to be written
    or filled is put into the queue of a disk thread; the thread calls the
    function of the file context and hands the connection back to its network
    thread.  The first part models the functions, the second part the queue of
    a disk thread with its condition variable, under every interleaving. *)
From S2P Require Import Prelude Codec CString Lines ListH TsQueue TsConn Protocol DsBlock DsBinlog ClientIo DsSync DsFile DsConn DsService.

(** ** Which thread *)

(** [dio_thread_pool_polling]: the number of the thread in [dio_tids], where the
    readers come first.  A remainder by zero is undefined. *)
Definition dio_thread_pool_polling (cf : service_conf) (s : server) (c : conn) : outcome (server * Z) :=
  f ← ctx_of s c;
  let count := sc_read_threads cf + sc_write_threads cf in
  '(s, tid) ← match f_op_type f with
              | FILE_OP_TYPE_READ =>
                  if sc_read_threads cf =? 0 then Crash OutOfBounds
                  else let tid := Z.rem (s32 (sv_reader s + 1)) (sc_read_threads cf) in Ret (set_reader s tid, tid)
              | FILE_OP_TYPE_WRITE =>
                  if sc_write_threads cf =? 0 then Crash OutOfBounds
                  else let '(idx, _, _) := f_place f in Ret (s, sc_read_threads cf + Z.rem (s32 (sfd c + idx)) (sc_write_threads cf))
              end;
  if (0 <=? tid) && (tid <? count) then Ret (s, tid) else Crash OutOfBounds.

(** ** Reading and writing *)

(** What the system calls answer: [do_write n] is the result of writing [n]
    bytes. *)
Record dio_env := mk_dioenv { do_open : Z; do_lseek : bool; do_errno : Z; do_read : bool; do_write : Z -> Z; do_unlink : Z; do_done : done_env }.

(** [open] with the flags of the context: [O_CREAT] makes a missing file. *)
Definition open_flags (e : dio_env) (fs : files) (path : bytes) (flags : Z) : files * Z :=
  if negb (do_open e =? 0) then (fs, do_open e)
  else match fs !! path with
       | Some _ => (fs, 0)
       | None => if Z.land flags O_CREAT =? O_CREAT then (<[path := []]> fs, 0) else (fs, ENOENT)
       end.

(** An [lseek] that fails leaves the file open. *)
Definition __open_file (e : dio_env) (fs : files) (f : file_ctx) (offset : Z) : files * file_ctx * Z :=
  match fd f with
  | Some _ => (fs, f, 0)
  | None =>
      let path := fn_block_map (f_names f) in
      let '(fs, ret) := open_flags e fs path (f_op_flags f) in
      if negb (ret =? 0) then (fs, f, ret)
      else if (0 <? offset) && negb (do_lseek e) then (fs, set_fd f (Some (path, 0)), do_errno e)
      else (fs, set_fd f (Some (path, if 0 <? offset then offset else 0)), LFS_OK)
  end.

(** The content of an open file: it stays readable when its name is gone, which
    no request of the server makes happen. *)
Definition open_content (fs : files) (path : bytes) : outcome bytes := get_or UseAfterFree (fs !! path).

Definition set_offsets (f : file_ctx) (o t b : Z) : file_ctx :=
  let p := f_pos f in set_pos f (mk_fpos o (p_size p) t (p_total_size p) (p_rwoffset p) b).

(** [if(fctx->f_op_func != NULL) fctx->f_op_func(c, ret);] *)
Definition call_op_func (cf : service_conf) (e : dio_env) (s : server) (c : conn) (err_no : Z) : outcome (server * conn * bool) :=
  f ← ctx_of s c;
  match f_op_func f with
  | Some o => call_op cf (do_done e) o s c err_no
  | None => Ret (s, c, false)
  end.

(** The loop body of [dio_read]: the context, the result and whether the buffer
    was filled. *)
Definition dio_fill (e : dio_env) (fs : files) (f : file_ctx) : outcome (files * file_ctx * Z * bool) :=
  let p := f_pos f in
  if p_size p <=? p_offset p then Ret (fs, f, 0, false)
  else
    let '(fs, f, ret) := __open_file e fs f (p_offset p) in
    if negb (ret =? 0) then Ret (fs, f, ret, false)
    else
      '(path, pos) ← get_or NullDeref (fd f);
      file ← open_content fs path;
      let read_bytes := s32 (Z.min (s32 (f_buff_size f - p_buff_offset p)) (p_size p - p_offset p)) in
      let d := take (Z.to_nat read_bytes) (drop (Z.to_nat pos) file) in
      if do_read e && (zlen d =? read_bytes) then
        b ← buf_write (f_buff f) (p_buff_offset p) d;
        Ret (fs, set_offsets (set_buff (set_fd f (Some (path, pos + read_bytes))) b) (p_offset p) (p_total_offset p) (p_buff_offset p + read_bytes), LFS_OK, true)
      else Ret (fs, f, LFS_ERROR, false).

(** After a block was read the connection is handed over; the file is closed
    and the function of the context is called all the same. *)
Definition dio_read (cf : service_conf) (e : dio_env) (s : server) (c : conn) : outcome (server * conn * bool) :=
  f ← ctx_of s c;
  '(fs, f, ret, filled) ← dio_fill e (sv_files s) f;
  let c := if filled : bool then dio_notify_nio c conn_fwrite (Z.lor EV_WRITE EV_PERSIST) else c in
  let s := put_ctx (set_sv_files s fs) c (set_fd f None) in
  '(s, c, told) ← call_op_func cf e s c ret;
  Ret (s, c, filled || told).

(** The name below the mount point is unlinked, and only when the file is open. *)
Definition dio_write_error_cleanup (e : dio_env) (s : server) (c : conn) : outcome server :=
  f ← ctx_of s c;
  match fd f with
  | None => Ret s
  | Some _ =>
      let f := set_fd f None in
      let s := put_ctx s c f in
      if p_rwoffset (f_pos f) <? p_size (f_pos f) then Ret (set_sv_files s (file_unlink (do_unlink e) (sv_files s) f).1) else Ret s
  end.

(** The error exit of [dio_write]. *)
Definition dio_write_failed (cf : service_conf) (e : dio_env) (s : server) (c : conn) (ret : Z) : outcome (server * conn * bool) :=
  f ← ctx_of s c;
  s ← (if f_cleanup_func f then dio_write_error_cleanup e s c else Ret s);
  call_op_func cf e s c ret.

Definition dio_write (cf : service_conf) (e : dio_env) (s : server) (c : conn) : outcome (server * conn * bool) :=
  f ← ctx_of s c;
  let p := f_pos f in
  let '(fs, f, ret) := __open_file e (sv_files s) f (p_offset p) in
  let s := set_sv_files s fs in
  if negb (ret =? 0) then dio_write_failed cf e (put_ctx s c f) c ret
  else
    '(path, pos) ← get_or NullDeref (fd f);
    file ← open_content fs path;
    let write_bytes := s32 (p_buff_offset p) in
    d ← buf_read (f_buff f) 0 (Z.to_nat write_bytes);
    let n := do_write e write_bytes in
    let s := set_sv_files s (<[path := write_at file (Z.to_nat pos) (take (Z.to_nat n) d)]> (sv_files s)) in
    let f := set_fd f (Some (path, pos + Z.max n 0)) in
    if negb (n =? write_bytes) then dio_write_failed cf e (put_ctx s c f) c LFS_ERROR
    else
      let f := set_offsets f (p_offset p + n) (p_total_offset p + n) (p_buff_offset p) in
      if p_offset p + n <? p_size p then
        Ret (put_ctx s c (file_ctx_buff_reset f), dio_notify_nio c conn_fread (Z.lor EV_READ EV_PERSIST), true)
      else call_op_func cf e (put_ctx s c (set_fd f None)) c LFS_OK.

(** [c->fctx->f_dio_func(c)] of [__dio_thread_entry]. *)
Definition call_dio (cf : service_conf) (e : dio_env) (s : server) (c : conn) : outcome (server * conn * bool) :=
  f ← ctx_of s c;
  match f_dio_func f with
  | Some DioRead => dio_read cf e s c
  | Some DioWrite => dio_write cf e s c
  | None => Crash NullDeref
  end.

(** ** The queue of a disk thread *)

(** [list_add_tail] and [list_del_init] write the nodes of their list and the
    node that is added or taken. *)
Lemma set_lnext_other h l v h' x : set_lnext h l v = Ret h' -> x <> l -> h' !! x = h !! x.
Proof. unfold set_lnext. intros (d & _ & H)%bind_Ret Hx. injection H as <-. by rewrite lookup_insert_ne. Qed.

Lemma set_lprev_other h l v h' x : set_lprev h l v = Ret h' -> x <> l -> h' !! x = h !! x.
Proof. unfold set_lprev. intros (d & _ & H)%bind_Ret Hx. injection H as <-. by rewrite lookup_insert_ne. Qed.

Lemma before_in q xs : before q xs ∈ q :: xs.
Proof. destruct xs as [|x xs _] using rev_ind; cbn; [constructor|]. unfold before. rewrite last_snoc. mem. Qed.

Lemma after_in q xs : after q xs ∈ q :: xs.
Proof. destruct xs as [|x xs]; unfold after; cbn; mem. Qed.

Lemma push_other h q xs c h' x : is_list h q xs -> conn_queue_push h q c = Ret h' -> x ∉ c :: q :: xs -> h' !! x = h !! x.
Proof.
  intros Hl H Hx. unfold conn_queue_push, list_add_tail in H. rewrite (list_last h q xs Hl) in H. cbn [mbind outcome_bind] in H. unfold __list_add in H.
  apply bind_Ret in H as (h1 & H1 & H). apply bind_Ret in H as (h2 & H2 & H). apply bind_Ret in H as (h3 & H3 & H4). pose proof (before_in q xs).
  assert (x <> c /\ x <> q /\ x <> before q xs) as (? & ? & ?) by (split_and!; intros ->; mem).
  by rewrite (set_lnext_other _ _ _ _ x H4), (set_lprev_other _ _ _ _ x H3), (set_lnext_other _ _ _ _ x H2), (set_lprev_other _ _ _ _ x H1).
Qed.

Lemma pop_other h q c xs h' x : is_list h q (c :: xs) -> list_del_init h c = Ret h' -> x ∉ q :: c :: xs -> h' !! x = h !! x.
Proof.
  intros Hl H Hx. pose proof (is_list_mid h q [] c xs Hl) as (Hl1 & Hl2 & _). unfold list_del_init in H. rewrite (get_prev_link _ _ _ Hl1), (get_next_link _ _ _ Hl2) in H. cbn [mbind outcome_bind] in H.
  unfold __list_del, INIT_LIST_HEAD in H. apply bind_Ret in H as (h2 & H2 & H). apply bind_Ret in H2 as (h1 & H1 & H2). apply bind_Ret in H as (h3 & H3 & H4). pose proof (after_in q xs).
  assert (x <> c /\ x <> before q [] /\ x <> after q xs) as (? & ? & ?) by (split_and!; intros ->; cbn in *; mem).
  by rewrite (set_lprev_other _ _ _ _ x H4), (set_lnext_other _ _ _ _ x H3), (set_lnext_other _ _ _ _ x H2), (set_lprev_other _ _ _ _ x H1).
Qed.

Lemma is_list_same h h' q xs : is_list h q xs -> (forall l, l ∈ q :: xs -> h' !! l = h !! l) -> is_list h' q xs.
Proof. intros Hl Hf. apply (is_list_frame h); [done|]. intros l Hin. unfold nexts, prevs. by rewrite (Hf l Hin). Qed.

Lemma conn_pop_locked_spec h q xs : is_list h q xs ->
  match xs with
  | [] => conn_queue_pop_locked h q = Ret (h, None)
  | c :: xs' => exists h', conn_queue_pop_locked h q = Ret (h', Some c) /\ is_list h' q xs' /\ dom h' = dom h /\ forall x, x ∉ q :: c :: xs' -> h' !! x = h !! x
  end.
Proof.
  intros Hl. unfold conn_queue_pop_locked. rewrite (list_first _ _ _ Hl). cbn [mbind outcome_bind].
  destruct xs as [|c xs]; [by rewrite Nat.eqb_refl|]. change (after q (c :: xs)) with c.
  destruct (list_del_init_between h q [] c xs Hl) as (h' & Hd & Hl' & _ & Hdom).
  rewrite (proj2 (Nat.eqb_neq c q)); [|intros ->; destruct Hl as [_ [Hn _]%NoDup_cons]; apply Hn; constructor].
  exists h'. rewrite Hd. split_and!; [done|done|done|]. intros x Hx. by eapply pop_other.
Qed.

Module Pool.

(** Where the thread is in [__dio_thread_entry]: before [pthread_cond_wait], in
    it, at the test and at the lock of [conn_queue_pop], or in the function of a
    connection. *)
Inductive worker := ToWait | Waiting | Testing | Locking | Handling (c : lloc).

(** The network thread at a byte 'd': it has read none, or is at the test or at
    the lock of [conn_queue_pop]. *)
Inductive nio := NIdle | NTest | NLock.

(** The links of the connections and of the two queues, the two threads, how many
    connections were pushed and not yet signalled, how many bytes are in the
    pipe of the network thread, and the connections no queue holds; and what
    happened: the connections pushed for the disk thread, those whose function has
    run, those handed back and those the network thread took back. *)
Record dio_pool := mk_pool { pl_links : links; pl_worker : worker; pl_nio : nio; pl_to_signal : nat; pl_bytes : nat; pl_owned : list lloc;
  pl_pushed : list lloc; pl_handled : list lloc; pl_notified : list lloc; pl_returned : list lloc }.

(** The while loop ends when [conn_queue_pop] finds nothing. *)
Definition taken (r : option lloc) : worker := match r with Some c => Handling c | None => ToWait end.

Section Queues.
(** [dio_t->dioq] and [thread->cq]. *)
Context (dioq cq : lloc).

(** What a step is: a connection for the disk thread, a wake-up without a signal,
    anything else. *)
Inductive what := Push | Spurious | Other.

(** A push and a signal are not made under the mutex of the condition: the
    thread may be anywhere in between.  A signal that nobody waits for is lost.
    The function of a connection hands it back ([dio_notify_nio], whose byte may
    not be written) or not.  A connection in the queue of another thread is one
    of those that neither of these two queues holds: its links change. *)
Inductive pool_step : what -> dio_pool -> dio_pool -> Prop :=
| step_push h w i n b own1 c own2 ps hs ns rs h' : conn_queue_push h dioq c = Ret h' ->
    pool_step Push (mk_pool h w i n b (own1 ++ c :: own2) ps hs ns rs) (mk_pool h' w i (S n) b (own1 ++ own2) (ps ++ [c]) hs ns rs)
| step_signal h w i n b own ps hs ns rs :
    pool_step Other (mk_pool h w i (S n) b own ps hs ns rs) (mk_pool h (match w with Waiting => Testing | _ => w end) i n b own ps hs ns rs)
| step_spurious h i n b own ps hs ns rs : pool_step Spurious (mk_pool h Waiting i n b own ps hs ns rs) (mk_pool h Testing i n b own ps hs ns rs)
| step_wait h i n b own ps hs ns rs : pool_step Other (mk_pool h ToWait i n b own ps hs ns rs) (mk_pool h Waiting i n b own ps hs ns rs)
| step_test h i n b own ps hs ns rs a : queue_active h dioq = Ret a ->
    pool_step Other (mk_pool h Testing i n b own ps hs ns rs) (mk_pool h (if a : bool then Locking else ToWait) i n b own ps hs ns rs)
| step_pop h i n b own ps hs ns rs h' r : conn_queue_pop_locked h dioq = Ret (h', r) ->
    pool_step Other (mk_pool h Locking i n b own ps hs ns rs) (mk_pool h' (taken r) i n b own ps hs ns rs)
| step_notify (written : bool) h c i n b own ps hs ns rs h' : conn_queue_push h cq c = Ret h' ->
    pool_step Other (mk_pool h (Handling c) i n b own ps hs ns rs) (mk_pool h' Testing i n (if written then S b else b) own ps (hs ++ [c]) (ns ++ [c]) rs)
| step_keep h c i n b own ps hs ns rs :
    pool_step Other (mk_pool h (Handling c) i n b own ps hs ns rs) (mk_pool h Testing i n b (c :: own) ps (hs ++ [c]) ns rs)
| step_byte h w n b own ps hs ns rs : pool_step Other (mk_pool h w NIdle n (S b) own ps hs ns rs) (mk_pool h w NTest n b own ps hs ns rs)
| step_nio_test h w n b own ps hs ns rs : queue_active h cq = Ret true -> pool_step Other (mk_pool h w NTest n b own ps hs ns rs) (mk_pool h w NLock n b own ps hs ns rs)
| step_nio_pop h w n b own ps hs ns rs h' c : conn_queue_pop_locked h cq = Ret (h', Some c) ->
    pool_step Other (mk_pool h w NLock n b own ps hs ns rs) (mk_pool h' w NIdle n b (c :: own) ps hs ns (rs ++ [c]))
| step_elsewhere h w i n b own ps hs ns rs h' : dom h' = dom h -> (forall x, x ∉ own -> h' !! x = h !! x) ->
    pool_step Other (mk_pool h w i n b own ps hs ns rs) (mk_pool h' w i n b own ps hs ns rs).

Definition any_step (p p' : dio_pool) : Prop := exists k, pool_step k p p'.
(** Steps without a push and without a spurious wake-up. *)
Definition quiet_step : dio_pool -> dio_pool -> Prop := pool_step Other.

Definition pool_start (h : links) (conns : list lloc) : dio_pool := mk_pool h ToWait NIdle 0 0 conns [] [] [] [].

(** The connection the thread has taken. *)
Definition in_hand (w : worker) : list lloc := match w with Handling c => [c] | _ => [] end.

Record pool_inv (conns : list lloc) (p : dio_pool) (xs ys : list lloc) : Prop := {
  pi_dioq : is_list (pl_links p) dioq xs;
  pi_cq : is_list (pl_links p) cq ys;
  pi_pushed : pl_pushed p = pl_handled p ++ in_hand (pl_worker p) ++ xs;
  pi_notified : pl_notified p = pl_returned p ++ ys;
  pi_places : pl_owned p ++ in_hand (pl_worker p) ++ xs ++ ys ≡ₚ conns;
  pi_nodup : NoDup (dioq :: cq :: conns);
  pi_dom : Forall (fun x => x ∈ dom (pl_links p)) conns;
  pi_bytes : (pl_bytes p + (match pl_nio p with NIdle => 0 | _ => 1 end) <= length ys)%nat;
  pi_lock : pl_worker p = Locking -> xs <> []
}.

(** Nothing is in two places. *)
Lemma inv_apart conns p xs ys : pool_inv conns p xs ys -> NoDup (dioq :: cq :: pl_owned p ++ in_hand (pl_worker p) ++ xs ++ ys).
Proof. intros Hi. eapply NoDup_Permutation_proper; [|exact (pi_nodup _ _ _ _ Hi)]. by rewrite (pi_places _ _ _ _ Hi). Qed.

(** A push on one queue keeps the other. *)
Lemma push_inv h q r xs ys c h' : is_list h q xs -> is_list h r ys -> c ∈ dom h -> NoDup (q :: r :: c :: xs ++ ys) -> conn_queue_push h q c = Ret h' ->
  is_list h' q (xs ++ [c]) /\ is_list h' r ys /\ dom h' = dom h.
Proof.
  intros Hx Hy Hd Hn H. rewrite !NoDup_cons, NoDup_app, !elem_of_cons, !elem_of_app in Hn. destruct Hn as (Hq & Hr & Hc & _ & Hxy & _).
  destruct (list_add_tail_spec h q xs c Hx Hd) as (h2 & H2 & Hl & Hdom); [rewrite elem_of_cons; intros [->|?]; tauto|]. unfold conn_queue_push in H. rewrite H in H2. injection H2 as <-.
  split_and!; [done| |done]. apply (is_list_same h); [done|]. intros l Hin. eapply (push_other h q xs c); [done|done|]. specialize (Hxy l).
  apply elem_of_cons in Hin as [->|Hin]; rewrite !elem_of_cons; [intros [->|[->|?]]; tauto|intros [->|[->|?]]; tauto].
Qed.

Lemma pop_inv h q r c xs ys h' c' : is_list h q (c :: xs) -> is_list h r ys -> NoDup (q :: r :: (c :: xs) ++ ys) -> conn_queue_pop_locked h q = Ret (h', c') ->
  c' = Some c /\ is_list h' q xs /\ is_list h' r ys /\ dom h' = dom h.
Proof.
  intros Hx Hy Hn H. rewrite !NoDup_cons, NoDup_app, !elem_of_cons, !elem_of_app in Hn. destruct Hn as (Hq & Hr & _ & Hxy & _).
  destruct (conn_pop_locked_spec h q _ Hx) as (h2 & H2 & Hl & Hdom & Ho). rewrite H in H2. injection H2 as -> ->. split_and!; [done|done| |done].
  apply (is_list_same h); [done|]. intros l Hin. apply Ho. specialize (Hxy l). apply elem_of_cons in Hin as [->|Hin]; intros Hl'; apply elem_of_cons in Hl' as [->|?]; tauto.
Qed.

Lemma NoDup_part {A} (l k : list A) m : NoDup l -> k ++ m ≡ₚ l -> NoDup k.
Proof. intros H Hp. rewrite <- Hp in H. by apply NoDup_app in H as (H & _). Qed.

Lemma pool_step_inv conns k p p' xs ys : pool_inv conns p xs ys -> pool_step k p p' -> exists xs' ys', pool_inv conns p' xs' ys'.
Proof.
  intros Hi Hs. pose proof (inv_apart _ _ _ _ Hi) as Hn. destruct Hi as [I1 I2 I3 I4 I5 I6 I7 I8 I9].
  destruct Hs as [h w i n b own1 c own2 ps hs ns rs h' H|h w i n b own ps hs ns rs|h i n b own ps hs ns rs|h i n b own ps hs ns rs|h i n b own ps hs ns rs a H|h i n b own ps hs ns rs h' r H
    |written h c i n b own ps hs ns rs h' H|h c i n b own ps hs ns rs|h w n b own ps hs ns rs|h w n b own ps hs ns rs H|h w n b own ps hs ns rs h' c H|h w i n b own ps hs ns rs h' Hd H]; cbn [pl_links pl_worker pl_nio pl_to_signal pl_bytes pl_owned pl_pushed pl_handled pl_notified pl_returned] in *.
  - destruct (push_inv h dioq cq xs ys c h' I1 I2) as (J1 & J2 & J3); [|eapply (NoDup_part _ _ (own1 ++ own2 ++ in_hand w) Hn)|done|].
    { rewrite Forall_forall in I7. apply I7. rewrite <- I5. mem. }
    { cbn. do 2 f_equiv. rewrite <- !app_assoc. cbn. rewrite <- Permutation_middle. f_equiv. solve_Permutation. }
    exists (xs ++ [c]), ys. split; cbn; rewrite ?J3; try done.
    + by rewrite I3, <- !app_assoc.
    + rewrite <- I5. solve_Permutation.
    + intros E. specialize (I9 E). by destruct xs.
  - exists xs, ys. split; cbn; try done; destruct w; done.
  - exists xs, ys. by split.
  - exists xs, ys. by split.
  - exists xs, ys. rewrite (queue_active_spec h dioq xs I1) in H. injection H as <-. split; cbn; try done; case_bool_decide; cbn; done.
  - destruct xs as [|c xs]; [by destruct (I9 eq_refl)|]. cbn [in_hand app] in *. destruct (pop_inv h dioq cq c xs ys h' r I1 I2) as (-> & J1 & J2 & J3); [|done|].
    { eapply (NoDup_part _ _ own Hn). solve_Permutation. }
    exists xs, ys. by split; cbn; rewrite ?J3.
  - cbn [in_hand] in *. destruct (push_inv h cq dioq ys xs c h' I2 I1) as (J1 & J2 & J3); [|eapply (NoDup_part _ _ own Hn)|done|].
    { rewrite Forall_forall in I7. apply I7. rewrite <- I5. mem. }
    { cbn. rewrite Permutation_swap. do 2 f_equiv. solve_Permutation. }
    exists xs, (ys ++ [c]). split; cbn; rewrite ?J3; try done.
    + rewrite I3. by rewrite <- app_assoc.
    + by rewrite I4, app_assoc.
    + rewrite <- I5. solve_Permutation.
    + rewrite length_app. cbn. destruct written; lia.
  - exists xs, ys. cbn [in_hand] in *. split; cbn; try done; [rewrite I3; by rewrite <- app_assoc|]. rewrite <- I5. solve_Permutation.
  - exists xs, ys. split; cbn; try done. lia.
  - exists xs, ys. by split.
  - destruct ys as [|d ys]; [cbn in I8; lia|]. destruct (pop_inv h cq dioq d ys xs h' (Some c) I2 I1) as ([= ->] & J1 & J2 & J3); [|done|].
    { eapply (NoDup_part _ _ (own ++ in_hand w) Hn). cbn. rewrite Permutation_swap. do 2 f_equiv. solve_Permutation. }
    exists xs, ys. split; cbn; rewrite ?J3; try done; [by rewrite I4, <- app_assoc| |cbn in I8; lia]. rewrite <- I5. solve_Permutation.
  - rewrite !NoDup_cons, NoDup_app, !elem_of_cons in Hn. destruct Hn as (Hq & Hr & _ & Ho & _).
    exists xs, ys. split; cbn; rewrite ?Hd; try done; (eapply is_list_same; [done|]); intros l Hl; apply H; intros Hin; specialize (Ho l Hin); apply elem_of_cons in Hl as [->|Hl]; mem.
Qed.

Lemma pool_run_inv conns p p' : (exists xs ys, pool_inv conns p xs ys) -> star any_step p p' -> exists xs ys, pool_inv conns p' xs ys.
Proof. intros Hi Hs. eapply (star_invariant any_step (fun p => exists xs ys, pool_inv conns p xs ys)); [|exact Hi|exact Hs]. intros a b (xs & ys & H) [k Hk]. by eapply pool_step_inv. Qed.

(** From the test the thread empties its queue. *)
Lemma quiet_drain conns xs : forall h i n b own ps hs ns rs ys, pool_inv conns (mk_pool h Testing i n b own ps hs ns rs) xs ys ->
  exists p, star quiet_step (mk_pool h Testing i n b own ps hs ns rs) p /\ pl_worker p = Waiting /\ queue_active (pl_links p) dioq = Ret false /\ pl_handled p = hs ++ xs /\ pl_pushed p = ps.
Proof.
  induction xs as [|c xs IH]; intros h i n b own ps hs ns rs ys Hi; pose proof (queue_active_spec h dioq _ (pi_dioq _ _ _ _ Hi)) as Ha.
  - eexists. split; [eapply star_step; [apply step_test, Ha|]; eapply star_step; [apply step_wait|]; apply star_refl|]. cbn. by rewrite app_nil_r.
  - rewrite bool_decide_false in Ha by done. cbn [negb] in Ha. pose proof (pool_step_inv _ _ _ _ _ _ Hi (step_test h i n b own ps hs ns rs true Ha)) as (xs1 & ys1 & Hi1). cbn iota in Hi1.
    destruct (conn_pop_locked_spec h dioq _ (pi_dioq _ _ _ _ Hi)) as (h1 & H1 & Hl1 & _).
    pose proof (pool_step_inv _ _ _ _ _ _ Hi1 (step_pop h i n b own ps hs ns rs h1 (Some c) H1)) as (xs2 & ys2 & Hi2). cbn [taken] in Hi2.
    pose proof (inv_apart _ _ _ _ Hi2) as Hn. destruct (list_add_tail_spec h1 cq ys2 c (pi_cq _ _ _ _ Hi2)) as (h2 & H2 & _).
    { pose proof (pi_dom _ _ _ _ Hi2) as Hd. rewrite Forall_forall in Hd. apply Hd. rewrite <- (pi_places _ _ _ _ Hi2). cbn. mem. }
    { cbn in Hn. rewrite !NoDup_cons, NoDup_app in Hn. destruct Hn as (_ & Hq & _ & _ & Hn). cbn in Hn. apply NoDup_cons in Hn as [Hc _]. intros Hin. apply elem_of_cons in Hin as [->|Hin]; [apply Hq; mem|apply Hc; mem]. }
    pose proof (pool_step_inv _ _ _ _ _ _ Hi2 (step_notify true h1 c i n b own ps hs ns rs h2 H2)) as (xs3 & ys3 & Hi3).
    assert (xs3 = xs) as ->.
    { pose proof (pi_pushed _ _ _ _ Hi3) as E3. rewrite (pi_pushed _ _ _ _ Hi : ps = _) in E3. cbn in E3. rewrite <- app_assoc in E3. apply app_inv_head in E3. by injection E3. }
    destruct (IH _ _ _ _ _ _ _ _ _ _ Hi3) as (p & Hs & G1 & G2 & G3 & G4). exists p. split_and!; [|done|done|by rewrite G3, <- app_assoc|done].
    eapply star_step; [apply step_test, Ha|]. eapply star_step; [apply step_pop, H1|]. eapply star_step; [apply (step_notify true), H2|]. exact Hs.
Qed.

(** ** Theorems *)

(** What the disk thread and the network thread start with. *)
Definition pool_ready (h : links) (conns : list lloc) : Prop :=
  is_list h dioq [] /\ is_list h cq [] /\ NoDup (dioq :: cq :: conns) /\ Forall (fun x => x ∈ dom h) conns.

Lemma pool_start_inv h conns : pool_ready h conns -> pool_inv conns (pool_start h conns) [] [].
Proof. intros (H1 & H2 & H3 & H4). split; try done. cbn. by rewrite app_nil_r. Qed.

(** C16. In every interleaving of the network threads that push connections for a
    disk thread and signal it, the loop of the disk thread with its unlocked test of
    the queue, spurious wake-ups included, and the network thread that takes the
    connections back at the bytes of its pipe: the disk thread runs the functions of the
    connections in the order of the pushes, each once, and the network thread
    gets them back in the order in which they were handed back; the two linked
    queues hold exactly what is between; every connection is in one place (with a
    network thread, in a queue of another one or dropped by its function, in the hands of the disk thread,
    in one queue); and the pop at a byte never finds the queue empty, so that its
    assertion holds. *)
Theorem dio_queue_order h conns p : pool_ready h conns -> star any_step (pool_start h conns) p ->
  exists xs ys, is_list (pl_links p) dioq xs /\ is_list (pl_links p) cq ys /\
    pl_pushed p = pl_handled p ++ in_hand (pl_worker p) ++ xs /\ pl_notified p = pl_returned p ++ ys /\
    NoDup (pl_owned p ++ in_hand (pl_worker p) ++ xs ++ ys) /\ pl_owned p ++ in_hand (pl_worker p) ++ xs ++ ys ≡ₚ conns /\
    (pl_nio p <> NIdle -> exists h' c, conn_queue_pop (pl_links p) cq = Ret (h', Some c)).
Proof.
  intros Hr Hs. destruct (pool_run_inv conns _ p (ex_intro _ [] (ex_intro _ [] (pool_start_inv h conns Hr))) Hs) as (xs & ys & Hi). exists xs, ys.
  pose proof (inv_apart _ _ _ _ Hi) as Hn. rewrite !NoDup_cons in Hn. split_and!; try apply Hi; [apply Hn|]. intros Hp. pose proof (pi_bytes _ _ _ _ Hi) as Hb.
  pose proof (conn_queue_pop_spec _ _ _ (pi_cq _ _ _ _ Hi)) as Hq. destruct ys as [|c ys]; [destruct (pl_nio p); cbn in Hb; done || lia|]. destruct Hq as (h' & Hq & _). eauto.
Qed.

(** When the signal finds the thread waiting, the thread handles everything that
    is in the queue, in order, without any further signal. *)
Theorem dio_signal_drains h conns p n : pool_ready h conns -> star any_step (pool_start h conns) p -> pl_worker p = Waiting -> pl_to_signal p = S n ->
  exists p', star quiet_step p p' /\ pl_worker p' = Waiting /\ queue_active (pl_links p') dioq = Ret false /\ pl_handled p' = pl_pushed p /\ pl_pushed p' = pl_pushed p.
Proof.
  intros Hr Hs Hw Hn. destruct (pool_run_inv conns _ p (ex_intro _ [] (ex_intro _ [] (pool_start_inv h conns Hr))) Hs) as (xs & ys & Hi). destruct p as [g w i m b own ps hs ns rs]. cbn in Hw, Hn. subst w m.
  pose proof (pi_pushed _ _ _ _ Hi) as Hp. cbn in Hp. assert (pool_inv conns (mk_pool g Testing i n b own ps hs ns rs) xs ys) as Hi' by (destruct Hi; by split).
  destruct (quiet_drain conns xs _ _ _ _ _ _ _ _ _ _ Hi') as (p' & H1 & H2 & H3 & H4 & H5). exists p'. split_and!; [|done|done|by rewrite H4, Hp|done].
  eapply star_step; [apply step_signal|]. exact H1.
Qed.

(** A connection that nobody will look at. *)
Definition stuck (p : dio_pool) : Prop := pl_worker p = Waiting /\ pl_to_signal p = 0%nat /\ queue_active (pl_links p) dioq = Ret true.

(** Without another push or a spurious wake-up it is never handled. *)
Lemma stuck_quiet p p' : pl_worker p = Waiting -> pl_to_signal p = 0%nat -> star quiet_step p p' -> pl_worker p' = Waiting /\ pl_handled p' = pl_handled p.
Proof.
  intros Hw Hn Hs. induction Hs as [|a b c Hab _ IH]; [done|]. assert (pl_worker b = Waiting /\ pl_to_signal b = 0%nat /\ pl_handled b = pl_handled a) as (H1 & H2 & H3).
  { clear IH. inversion Hab; subst; cbn in *; simplify_eq; done. }
  destruct (IH H1 H2) as [G1 G2]. by rewrite G2, H3.
Qed.
End Queues.

(** The two queues at 0 and 1, the connections 2 and 3. *)
Definition pool_demo_links : links := list_to_map ((fun i => (i, mk_list_head (Some i) (Some i))) <$> [0; 1; 2; 3]%nat).

Lemma pool_demo_ready : pool_ready 0 1 pool_demo_links [2; 3]%nat.
Proof.
  split_and!.
  - split; [split; [split; reflexivity|exact I]|apply NoDup_singleton].
  - split; [split; [split; reflexivity|exact I]|apply NoDup_singleton].
  - refine (bool_decide_unpack _ _). by vm_compute.
  - refine (bool_decide_unpack _ _). by vm_compute.
Qed.

Lemma pool_demo_run : exists p, star (any_step 0 1) (pool_start pool_demo_links [2; 3]%nat) p /\ pl_pushed p = [3; 2]%nat /\ pl_handled p = [3]%nat /\ pl_returned p = [3]%nat /\ pl_worker p = Handling 2.
Proof.
  eexists. split.
  - eapply star_step; [eexists; apply step_wait|]. eapply star_step; [eexists; eapply (step_push 0 1 _ _ _ _ _ [2]%nat 3 []); reflexivity|].
    eapply star_step; [eexists; apply step_signal|]. eapply star_step; [eexists; eapply (step_push 0 1 _ _ _ _ _ [] 2 []); reflexivity|].
    eapply star_step; [eexists; eapply (step_test 0 1 _ _ _ _ _ _ _ _ _ true); reflexivity|]. eapply star_step; [eexists; eapply step_pop; reflexivity|].
    eapply star_step; [eexists; eapply (step_notify 0 1 true); reflexivity|]. eapply star_step; [eexists; apply step_byte|].
    eapply star_step; [eexists; eapply (step_test 0 1 _ _ _ _ _ _ _ _ _ true); reflexivity|]. eapply star_step; [eexists; eapply step_nio_test; reflexivity|].
    eapply star_step; [eexists; eapply step_nio_pop; reflexivity|]. eapply star_step; [eexists; eapply step_pop; reflexivity|]. apply star_refl.
  - split_and!; reflexivity.
Qed.

Lemma dio_queue_order_witness : exists p xs ys, pl_pushed p = [3; 2]%nat /\ pl_handled p = [3]%nat /\ is_list (pl_links p) 0 xs /\ is_list (pl_links p) 1 ys /\
  pl_pushed p = pl_handled p ++ in_hand (pl_worker p) ++ xs /\ pl_notified p = pl_returned p ++ ys.
Proof.
  destruct pool_demo_run as (p & Hr & H1 & H2 & _). exists p.
  destruct (dio_queue_order 0 1 pool_demo_links [2; 3]%nat p pool_demo_ready Hr) as (xs & ys & G1 & G2 & G3 & G4 & _). exists xs, ys. split_and!; assumption.
Defined.

(** But a signal can be lost: there is a run after which a connection is in the
    queue of a thread that waits. *)
Theorem dio_lost_wakeup : exists p, star (any_step 0 1) (pool_start pool_demo_links [2; 3]%nat) p /\ stuck 0 p /\
  forall p', star (quiet_step 0 1) p p' -> pl_worker p' = Waiting /\ pl_handled p' = [].
Proof.
  eexists. split_and!.
  - eapply star_step; [eexists; eapply (step_push 0 1 _ _ _ _ _ [2]%nat 3 []); reflexivity|]. eapply star_step; [eexists; apply step_signal|]. eapply star_step; [eexists; apply step_wait|]. apply star_refl.
  - split_and!; reflexivity.
  - intros p' Hs. eapply (stuck_quiet 0 1) in Hs; [exact Hs|reflexivity|reflexivity].
Qed.

End Pool.
