(* ===== verification/DsNet.v ===== *)
(** * The connection state machine of the data server

    src/src/dataserver/ds_network_io.c: a connection reads a request, then what
    the request asks for: the bytes of a file from the socket to the disk, or
    from the disk to the socket.  Between the parts it is passed to a disk
    thread and back.  The socket, libevent, [realloc] and [fcntl] are scripts:
    what the k-th call returns. *)
From S2P Require Import Prelude Codec CString Lines ListH TsQueue TsConn Protocol TsThread DsBlock DsBinlog ClientIo DsSync DsFile DsConn DsService DsDiskIo.

(** ** The world of a connection *)

(** Who has the connection: libevent ([AtNet]), the queue of a disk thread, the
    queue of its network thread, or nobody. *)
Inductive place := AtNet | AtDisk (tid : Z) | AtBack | Nowhere.

Record machine := mk_machine {
  m_srv : server;
  m_conn : conn;
  m_at : place;
  m_in : list rres;
  m_out : list wres;
  m_sent : bytes;
  m_mem : list bool;
  m_ev : list bool;
  m_tick : nat;
  m_curr : Z
}.

Definition with_conn (w : machine) (c : conn) : machine := mk_machine (m_srv w) c (m_at w) (m_in w) (m_out w) (m_sent w) (m_mem w) (m_ev w) (m_tick w) (m_curr w).
Definition with_srv (w : machine) (s : server) (c : conn) : machine := mk_machine s c (m_at w) (m_in w) (m_out w) (m_sent w) (m_mem w) (m_ev w) (m_tick w) (m_curr w).
Definition with_at (w : machine) (p : place) : machine := mk_machine (m_srv w) (m_conn w) p (m_in w) (m_out w) (m_sent w) (m_mem w) (m_ev w) (m_tick w) (m_curr w).
Definition with_in (w : machine) (i : list rres) : machine := mk_machine (m_srv w) (m_conn w) (m_at w) i (m_out w) (m_sent w) (m_mem w) (m_ev w) (m_tick w) (m_curr w).
Definition with_out (w : machine) (o : list wres) (t : bytes) : machine := mk_machine (m_srv w) (m_conn w) (m_at w) (m_in w) o t (m_mem w) (m_ev w) (m_tick w) (m_curr w).
Definition with_mem (w : machine) (l : list bool) : machine := mk_machine (m_srv w) (m_conn w) (m_at w) (m_in w) (m_out w) (m_sent w) l (m_ev w) (m_tick w) (m_curr w).
Definition with_ev (w : machine) (l : list bool) : machine := mk_machine (m_srv w) (m_conn w) (m_at w) (m_in w) (m_out w) (m_sent w) (m_mem w) l (m_tick w) (m_curr w).
Definition next_tick (w : machine) : machine := mk_machine (m_srv w) (m_conn w) (m_at w) (m_in w) (m_out w) (m_sent w) (m_mem w) (m_ev w) (S (m_tick w)) (m_curr w).
Definition with_curr (w : machine) (n : Z) : machine := mk_machine (m_srv w) (m_conn w) (m_at w) (m_in w) (m_out w) (m_sent w) (m_mem w) (m_ev w) (m_tick w) n.

(** The result of the next libevent or [fcntl] call. *)
Definition pop_ev (w : machine) : bool * machine := let '(b, l) := pop_bool (m_ev w) in (b, with_ev w l).

Definition update_conn_event (w : machine) (flags : Z) : machine * Z :=
  if event_flags (m_conn w) =? flags then (w, 0)
  else
    let '(ev_del, w) := pop_ev w in
    let '(ev_add, w) := if ev_del : bool then pop_ev w else (true, w) in
    let '(c, r) := __update_conn_event ev_del ev_add (m_conn w) flags in
    (with_conn w c, r).

Inductive network_read_result := READ_SOFT_ERROR | READ_HARD_ERROR | READ_DATA_RECEIVED | READ_NO_DATA_RECEIVED | READ_COMPLETE | READ_INCOMPLETE.
Inductive network_write_result := WRITE_SOFT_ERROR | WRITE_HARD_ERROR | WRITE_COMPLETE | WRITE_INCOMPLETE.

(** ** Reading *)

(** [read(sfd, .., avail)]: nothing is asked for and nothing is got when [avail]
    is zero; a negative [avail] is a very large [size_t]. *)
Definition read_call (inp : list rres) (avail : Z) : list rres * rres :=
  if avail =? 0 then (inp, REof)
  else sock_read inp (if avail <? 0 then match inp with RData d :: _ => length d | _ => 0%nat end else Z.to_nat avail).

(** More reads than this the script does not have. *)
Fixpoint script_size (inp : list rres) : nat :=
  match inp with
  | [] => 1
  | RData d :: r => (S (length d) + script_size r)%nat
  | _ :: r => S (script_size r)
  end.

Definition MAX_PACKAGE_DATA_SIZE : Z := 8 * 1024.

(** Sixteen bytes are asked for in every round, also when some of the header is
    already there. *)
Fixpoint read_header_loop (fuel : nat) (w : machine) : outcome (machine * network_read_result) :=
  match fuel with
  | O => Crash Diverged
  | S fuel =>
      let c := m_conn w in
      let '(inp, res) := read_call (m_in w) sizeof_protocol_header in
      let w := with_in w inp in
      match res with
      | RData ((_ :: _) as d) =>
          b ← buf_write (rbuff c) (rcurr c + rbytes c) d;
          let w := with_conn w (with_read c b (rcurr c) (rsize c) (rbytes c + zlen d)) in
          if rbytes c + zlen d =? sizeof_protocol_header then Ret (w, READ_DATA_RECEIVED) else read_header_loop fuel w
      | RData [] | REof => Ret (w, READ_HARD_ERROR)
      | RErr errno => Ret (w, if errno =? EAGAIN then READ_NO_DATA_RECEIVED else READ_HARD_ERROR)
      end
  end.

Definition __network_read_header (w : machine) : outcome (machine * network_read_result) := read_header_loop (script_size (m_in w)) w.

Section Net.
Context (cf : service_conf) (uninit : nat -> Z) (senvs : nat -> service_env) (denvs : nat -> dio_env).

(** [realloc(c->rbuff, c->rsize * 2)]; the new half is not initialised. *)
Definition grow_rbuff (c : conn) : conn := with_read c (rbuff c ++ (uninit <$> seq 0 (Z.to_nat (rsize c)))) 0 (rsize c * 2) (rbytes c).

(** [avail] is not limited by the size of the buffer. *)
Fixpoint read_body_loop (fuel : nat) (body_len : Z) (w : machine) : outcome (machine * network_read_result) :=
  match fuel with
  | O => Crash Diverged
  | S fuel =>
      let c := m_conn w in
      let full := rsize c <=? rbytes c in
      if full && (alloc_count c =? 2) then Ret (w, READ_NO_DATA_RECEIVED)
      else
        let '(ok, mem) := if full then pop_bool (m_mem w) else (true, m_mem w) in
        let w := with_mem w mem in
        let c := if full then with_alloc c (alloc_count c + 1) else c in
        if negb ok then
          c ← handle_protocol_error (with_read c (rbuff c) (rcurr c) (rsize c) 0) PROTOCOL_RESP_STATUS_ERROR_MEMORY;
          Ret (with_conn w c, READ_SOFT_ERROR)
        else
          let c := if full then grow_rbuff c else c in
          let '(inp, res) := read_call (m_in w) (s32 (body_len - (rbytes c - sizeof_protocol_header))) in
          let w := with_in w inp in
          match res with
          | RData ((_ :: _) as d) =>
              b ← buf_write (rbuff c) (rcurr c + rbytes c) d;
              let w := with_conn w (with_read c b (rcurr c) (rsize c) (rbytes c + zlen d)) in
              if rbytes c + zlen d =? u64 (body_len + sizeof_protocol_header) then Ret (w, READ_DATA_RECEIVED) else read_body_loop fuel body_len w
          | RData [] | REof => Ret (with_conn w c, READ_HARD_ERROR)
          | RErr errno => Ret (with_conn w c, if errno =? EAGAIN then READ_NO_DATA_RECEIVED else READ_HARD_ERROR)
          end
  end.

Definition __network_read_body (w : machine) : outcome (machine * network_read_result) :=
  n ← header_body_len (rbuff (m_conn w));
  let body_len := s64 n in
  if MAX_PACKAGE_DATA_SIZE <? body_len then
    c ← handle_protocol_error (m_conn w) PROTOCOL_RESP_STATUS_ERROR_PACKAGESIZE_OVERFLOW;
    Ret (with_conn w c, READ_SOFT_ERROR)
  else read_body_loop (script_size (m_in w)) body_len w.

Definition __network_read (w : machine) : outcome (machine * network_read_result) :=
  if rbytes (m_conn w) <? sizeof_protocol_header then __network_read_header w else __network_read_body w.

(** The bytes of a file.  An error other than [EAGAIN] is tried again. *)
Fixpoint fread_loop (fuel : nat) (w : machine) : outcome (machine * network_read_result) :=
  match fuel with
  | O => Crash Diverged
  | S fuel =>
      f ← ctx_of (m_srv w) (m_conn w);
      let p := f_pos f in
      if (p_size p <=? p_rwoffset p) || (f_buff_size f <=? p_buff_offset p) then Ret (w, READ_COMPLETE)
      else
        let avail := s32 (f_buff_size f - p_buff_offset p) in
        let '(inp, res) := read_call (m_in w) avail in
        let w := with_in w inp in
        match res with
        | RData ((_ :: _) as d) =>
            b ← buf_write (f_buff f) (p_buff_offset p) d;
            let f := set_pos (set_buff f b) (mk_fpos (p_offset p) (p_size p) (p_total_offset p) (p_total_size p) (p_rwoffset p + zlen d) (p_buff_offset p + zlen d)) in
            let w := with_srv w (put_ctx (m_srv w) (m_conn w) f) (m_conn w) in
            if zlen d =? avail then fread_loop fuel w else Ret (w, READ_COMPLETE)
        | RData [] | REof => Ret (w, READ_HARD_ERROR)
        | RErr errno =>
            if errno =? EAGAIN then
              let '(w, r) := update_conn_event w (Z.lor EV_READ EV_PERSIST) in
              Ret (w, if negb (r =? 0) then READ_HARD_ERROR else READ_INCOMPLETE)
            else fread_loop fuel w
        end
  end.

Definition __network_fread (w : machine) : outcome (machine * network_read_result) := fread_loop (script_size (m_in w) + 1) w.

(** ** Writing *)

(** The answer to an error of [write]. *)
Definition write_error (w : machine) (errno : Z) : machine * network_write_result :=
  if (errno =? EINTR) || (errno =? EAGAIN) then
    let '(w, r) := update_conn_event w (Z.lor EV_WRITE EV_PERSIST) in
    (w, if negb (r =? 0) then WRITE_SOFT_ERROR else WRITE_INCOMPLETE)
  else (w, WRITE_HARD_ERROR).

Fixpoint write_loop (fuel : nat) (w : machine) : outcome (machine * network_write_result) :=
  match fuel with
  | O => Crash Diverged
  | S fuel =>
      let c := m_conn w in
      let remain_bytes := wbytes c - wused c in
      let c := with_sent c (wused c) (wused c) in
      let w := with_conn w c in
      if 0 <? remain_bytes then
        let '(out, res) := sock_write (m_out w) in
        match res with
        | WSent n =>
            let n := Nat.min n (Z.to_nat remain_bytes) in
            if (n =? 0)%nat then Ret (with_out w out (m_sent w), WRITE_HARD_ERROR)
            else
              d ← buf_read (wbuff c) (wused c) n;
              write_loop fuel (with_conn (with_out w out (m_sent w ++ d)) (with_sent c (wused c) (wused c + Z.of_nat n)))
        | WErr errno => Ret (write_error (with_out w out (m_sent w)) errno)
        end
      else Ret (w, WRITE_COMPLETE)
  end.

Definition __network_write_noblock (w : machine) : outcome (machine * network_write_result) := write_loop (length (m_out w) + 2) w.

Fixpoint fwrite_loop (fuel : nat) (w : machine) : outcome (machine * network_write_result) :=
  match fuel with
  | O => Crash Diverged
  | S fuel =>
      f ← ctx_of (m_srv w) (m_conn w);
      let p := f_pos f in
      let remain_bytes := s32 (p_buff_offset p - p_rwoffset p) in
      if 0 <? remain_bytes then
        let '(out, res) := sock_write (m_out w) in
        match res with
        | WSent n =>
            let n := Nat.min n (Z.to_nat remain_bytes) in
            if (n =? 0)%nat then Ret (with_out w out (m_sent w), WRITE_HARD_ERROR)
            else
              d ← buf_read (f_buff f) (p_rwoffset p) n;
              let k := Z.of_nat n in
              let f := set_pos f (mk_fpos (p_offset p + k) (p_size p) (p_total_offset p + k) (p_total_size p) (p_rwoffset p + k) (p_buff_offset p)) in
              fwrite_loop fuel (with_srv (with_out w out (m_sent w ++ d)) (put_ctx (m_srv w) (m_conn w) f) (m_conn w))
        | WErr errno => Ret (write_error (with_out w out (m_sent w)) errno)
        end
      else Ret (w, WRITE_COMPLETE)
  end.

Definition __network_fwrite (w : machine) : outcome (machine * network_write_result) := fwrite_loop (length (m_out w) + 2) w.

(** [sendfile] on a socket that has been made blocking: what is sent, and how
    much of the file is left over when the loop ends. *)
Fixpoint sendfile_loop (out : list wres) (sent : bytes) (file : bytes) (remain_bytes : Z) : list wres * bytes :=
  if 0 <? remain_bytes then
    match out with
    | WSent n :: out' =>
        let d := take (Nat.min n (Z.to_nat remain_bytes)) file in
        if (length d =? 0)%nat then (out', sent)
        else sendfile_loop out' (sent ++ d) (drop (length d) file) (remain_bytes - zlen d)
    | WErr _ :: out' => (out', sent)
    | [] => ([], sent)
    end
  else (out, sent).

(** The socket is not blocking; the calls of [fcntl] that read, change and restore
    its flags come from the script.  A negative offset is an error of
    [sendfile]; whatever was sent, the result is that everything was. *)
Definition __network_fsend (w : machine) : outcome (machine * network_write_result) :=
  f ← ctx_of (m_srv w) (m_conn w);
  match path_content cf (m_srv w) (fn_path (f_names f)) with
  | None => Ret (w, WRITE_HARD_ERROR)
  | Some file =>
      let '(getfl, w) := pop_ev w in
      if negb getfl then Ret (w, WRITE_HARD_ERROR)
      else
        let '(setfl, w) := pop_ev w in
        if negb setfl then Ret (w, WRITE_HARD_ERROR)
        else
          let p := f_pos f in
          let '(out, sent) := if p_offset p <? 0 then (m_out w, m_sent w) else sendfile_loop (m_out w) (m_sent w) (drop (Z.to_nat (p_offset p)) file) (p_size p) in
          let '(restore, w) := pop_ev (with_out w out sent) in
          Ret (w, if restore : bool then WRITE_COMPLETE else WRITE_HARD_ERROR)
  end.

(** ** Requests *)

(** A command that is not known has no response. *)
Definition dispatch_cmd (e : service_env) (s : server) (c : conn) (cmd : Z) : outcome (server * conn) :=
  '(s, c, resp_status) ←
    (if cmd =? PROTOCOL_CMD_FILE_UPLOAD then handle_cmd_fileupload cf e s c
     else if cmd =? PROTOCOL_CMD_FILE_DOWNLOAD then handle_cmd_filedownload e s c
     else if cmd =? PROTOCOL_CMD_ASYNC_COPY_FILE then cmd_asynccopyfile e s c
     else if cmd =? PROTOCOL_CMD_FULL_SYNC_GET_MASTER_BINLOG_METE then handle_cmd_getmasterbinlogmete s c
     else if cmd =? PROTOCOL_CMD_FULL_SYNC_COPY_MASTER_BINLOG then handle_cmd_copymasterbinlog cf e s c
     else if cmd =? PROTOCOL_CMD_FULL_SYNC_COPY_MASTER_DATA then handle_cmd_copymasterdata cf e s c
     else Ret (s, c, PROTOCOL_RESP_STATUS_SUCCESS));
  if negb (resp_status =? 0) then c ← handle_protocol_error c resp_status; Ret (s, c) else Ret (s, c).

Definition __parse_protocol_cmd (w : machine) : outcome (machine * Z) :=
  let c := m_conn w in
  if rbytes c <=? 0 then Crash AssertFailed
  else if rbytes c <? sizeof_protocol_header then Ret (w, 0)
  else
    body_len ← header_body_len (rbuff c);
    if body_len <=? rbytes c - sizeof_protocol_header then
      let c := with_read c (rbuff c) sizeof_protocol_header (rsize c) (rbytes c - sizeof_protocol_header) in
      cmd ← get_or OutOfBounds (zlookup (rbuff c) 8);
      '(s, c) ← dispatch_cmd (senvs (m_tick w)) (m_srv w) c cmd;
      Ret (next_tick (with_srv w s c), 1)
    else Ret (w, 0).

(** ** The machine *)

Definition to (w : machine) (st : conn_states) : machine := with_conn w (set_conn_state (m_conn w) st).

(** [conn_reset] and [conn_close] of the connection. *)
Definition reset (w : machine) : outcome machine :=
  '(pool, c) ← conn_reset (sv_fctxs (m_srv w)) (m_conn w); Ret (with_srv w (set_fctxs (m_srv w) pool) c).

Definition close_conn (w : machine) : outcome machine :=
  '(pool, c) ← conn_shut (sv_fctxs (m_srv w)) (m_conn w);
  Ret (with_curr (with_at (with_srv w (set_fctxs (m_srv w) pool) c) Nowhere) (u32 (m_curr w - 1))).

(** [dio_thread_pool_dispatch]; a failing [pthread_cond_signal] is not
    modelled. *)
Definition dio_thread_pool_dispatch (w : machine) : outcome (machine * Z) :=
  let '(ev_del, w) := pop_ev w in
  if negb (del_conn_event ev_del =? 0) then Ret (w, LFS_ERROR)
  else
    '(s, tid) ← dio_thread_pool_polling cf (m_srv w) (m_conn w);
    Ret (with_at (with_srv w s (m_conn w)) (AtDisk tid), LFS_OK).

(** What is done when a write ends: the next state after [done], a wait for the
    socket, or the end of the connection. *)
Definition after_write (w : machine) (ret : network_write_result) (done : machine -> outcome machine) (next : machine -> conn_states) : outcome (machine * bool) :=
  match ret with
  | WRITE_COMPLETE => w ← done w; Ret (to w (next w), false)
  | WRITE_INCOMPLETE => Ret (w, true)
  | WRITE_HARD_ERROR | WRITE_SOFT_ERROR => Ret (to w conn_closed, false)
  end.

(** One round of the loop of [__state_machine]; the flag ends the loop.  In
    [conn_waiting] the state that a failing update has set is overwritten. *)
Definition machine_round (w : machine) : outcome (machine * bool) :=
  match state (m_conn w) with
  | conn_waiting =>
      let '(w, r) := update_conn_event w (Z.lor EV_READ EV_PERSIST) in
      Ret (to (if negb (r =? 0) then to w conn_closed else w) conn_read, true)
  | conn_read =>
      '(w, ret) ← __network_read w;
      Ret (match ret with
           | READ_NO_DATA_RECEIVED => to w conn_waiting
           | READ_DATA_RECEIVED => to w conn_parse_cmd
           | READ_HARD_ERROR | READ_SOFT_ERROR => to w conn_closed
           | READ_COMPLETE | READ_INCOMPLETE => w
           end, false)
  | conn_fread =>
      '(w, ret) ← __network_fread w;
      Ret (match ret with
           | READ_COMPLETE => (to w conn_n2dio, false)
           | READ_INCOMPLETE => (w, true)
           | READ_HARD_ERROR => (to w conn_closed, false)
           | READ_SOFT_ERROR => (to w (nextto (m_conn w)), false)
           | READ_DATA_RECEIVED | READ_NO_DATA_RECEIVED => (w, false)
           end)
  | conn_parse_cmd =>
      '(w, r) ← __parse_protocol_cmd w;
      Ret (if r =? 0 then to w conn_waiting else w, false)
  | conn_write => '(w, ret) ← __network_write_noblock w; after_write w ret reset (fun _ => conn_waiting)
  | conn_fwrite => '(w, ret) ← __network_fwrite w; after_write w ret reset (fun _ => conn_n2dio)
  | conn_fsend => '(w, ret) ← __network_fsend w; after_write w ret reset (fun _ => conn_waiting)
  | conn_mwrite =>
      '(w, ret) ← __network_write_noblock w;
      after_write w ret (fun w => Ret (with_conn w (conn_write_reset (m_conn w)))) (fun w => nextto (m_conn w))
  | conn_n2dio =>
      '(w, ret) ← dio_thread_pool_dispatch w;
      if negb (ret =? 0) then Ret (to w conn_closed, false) else Ret (w, true)
  | conn_closed => w ← close_conn w; Ret (w, true)
  end.

Fixpoint __state_machine (fuel : nat) (w : machine) : outcome machine :=
  match fuel with
  | O => Crash Diverged
  | S fuel => '(w, flag) ← machine_round w; if flag : bool then Ret w else __state_machine fuel w
  end.

Definition __event_handler_callback (fuel : nat) (w : machine) (fd : Z) : outcome machine :=
  if negb (fd =? sfd (m_conn w)) then close_conn w else __state_machine fuel w.

(** The case 'd' of [__libevent_thread_callback]: whether the event could be added
    is not looked at. *)
Definition conn_back (w : machine) : machine :=
  let '(ev_add, w) := pop_ev w in
  with_at (with_conn w (add_conn_event ev_add (m_conn w) (event_flags (m_conn w))).1) (if ev_add then AtNet else Nowhere).

(** A turn of whoever has the connection. *)
Definition turn (fuel : nat) (w : machine) : outcome machine :=
  match m_at w with
  | AtNet => __event_handler_callback fuel w (sfd (m_conn w))
  | AtDisk _ =>
      '(s, c, told) ← call_dio cf (denvs (m_tick w)) (m_srv w) (m_conn w);
      Ret (with_at (next_tick (with_srv w s c)) (if told : bool then AtBack else Nowhere))
  | AtBack => Ret (conn_back w)
  | Nowhere => Ret w
  end.

Fixpoint turns (n : nat) (fuel : nat) (w : machine) : outcome machine :=
  match n with
  | O => Ret w
  | S n => w ← turn fuel w; turns n fuel w
  end.
End Net.
