(* ===== verification/DsServe.v ===== *)
(** * What a connection of the data server does

    The theorems about [DsNet]: a request is read however it arrives, a file
    that follows it is stored byte for byte, a file that is asked for is sent,
    and in which cases the connection is lost. *)
From S2P Require Import Prelude Codec CString Lines ListH TsQueue TsConn Protocol TsThread DsBlock DsBinlog ClientIo DsSync DsFile DsConn DsService DsDiskIo DsNet.

(** ** Scripts *)

(** Data in pieces that are not empty, and pauses between them. *)
Definition arrives (inp : list rres) : Prop := Forall (fun r => (exists d, r = RData d /\ d <> []) \/ r = RErr EAGAIN) inp.

Lemma arrives_cons r inp : arrives (r :: inp) <-> ((exists d, r = RData d /\ d <> []) \/ r = RErr EAGAIN) /\ arrives inp.
Proof. unfold arrives. by rewrite Forall_cons. Qed.

(** A read of a positive size takes the first bytes of the stream, or finds a
    pause. *)
Lemma read_call_arrives inp avail inp' res : arrives inp -> 0 < avail -> read_call inp avail = (inp', res) -> arrives inp' /\
  ((exists d, res = RData d /\ d <> [] /\ zlen d <= avail /\ stream inp = d ++ stream inp' /\ (script_size inp' < script_size inp)%nat) \/
   (res = RErr EAGAIN /\ stream inp' = stream inp /\ (inp = [] \/ (script_size inp' < script_size inp)%nat))).
Proof.
  intros Ha Hav. unfold read_call. destruct (Z.eqb_spec avail 0) as [|_]; [lia|]. destruct (Z.ltb_spec avail 0) as [|_]; [lia|].
  destruct inp as [|r inp]; cbn [sock_read]; intros H.
  - injection H as <- <-. split; [done|]. right. by split_and!; [| |left].
  - apply arrives_cons in Ha as [[(d & -> & Hd)| ->] Ha]; cycle 1.
    { injection H as <- <-. split; [done|]. right. split_and!; [done|done|]. right. cbn. lia. }
    destruct (Nat.leb_spec (length d) (Z.to_nat avail)) as [Hl|Hl]; injection H as <- <-.
    + split; [done|]. left. exists d. split_and!; [done|done|unfold zlen; lia|done|]. cbn. lia.
    + assert (drop (Z.to_nat avail) d <> []) as Hn by (intros E%(f_equal length); rewrite length_drop in E; cbn in E; lia).
      split; [apply arrives_cons; split; [left; by eexists|done]|]. left. exists (take (Z.to_nat avail) d). split_and!.
      * done.
      * intros E%(f_equal length). rewrite length_take in E. cbn in E. lia.
      * unfold zlen. rewrite length_take. lia.
      * cbn. by rewrite app_assoc, take_drop.
      * cbn [script_size]. rewrite length_drop. lia.
Qed.

Lemma stream_nonempty inp : stream inp <> [] -> inp <> [].
Proof. by intros H ->. Qed.

Lemma app_prefix {A} (d data x t : list A) : d ++ data = x ++ t -> zlen x <= zlen d -> exists k, d = x ++ k /\ t = k ++ data.
Proof.
  intros H Hl. unfold zlen in Hl. exists (drop (length x) d). assert (take (length x) d = x) as Hx.
  { apply (f_equal (take (length x))) in H. rewrite take_app_le, take_app_length in H by lia. done. }
  split; [by rewrite <- Hx at 1; rewrite take_drop|]. apply (f_equal (drop (length x))) in H. rewrite drop_app_le, drop_app_length in H by lia. done.
Qed.

(** ** Runs *)

Section Runs.
Context (cf : service_conf) (uninit : nat -> Z) (senvs : nat -> service_env) (denvs : nat -> dio_env).

Abbreviation round := (machine_round cf uninit senvs).

(** A turn that returns, with enough fuel. *)
Definition turn_rel (w w' : machine) : Prop := exists fuel, turn cf uninit senvs denvs fuel w = Ret w'.

(** After one turn or more a world with [P] is reached. *)
Definition reach (w : machine) (P : machine -> Prop) : Prop := exists w1 w', turn_rel w w1 /\ star turn_rel w1 w' /\ P w'.

Lemma turn_round w w1 w2 : m_at w = AtNet -> m_at w1 = AtNet -> round w = Ret (w1, false) -> turn_rel w1 w2 -> turn_rel w w2.
Proof.
  intros Ha Ha1 Hr [fuel Ht]. exists (S fuel). unfold turn, __event_handler_callback in *. rewrite Ha, Ha1, !Z.eqb_refl in *. cbn [negb] in *.
  cbn [__state_machine]. rewrite Hr. done.
Qed.

Lemma reach_round w w1 P : m_at w = AtNet -> m_at w1 = AtNet -> round w = Ret (w1, false) -> reach w1 P -> reach w P.
Proof. intros Ha Ha1 Hr (w2 & w' & Ht & Hs). exists w2, w'. split; [by eapply turn_round|done]. Qed.

Lemma turn_flag w w1 : m_at w = AtNet -> round w = Ret (w1, true) -> turn_rel w w1.
Proof. intros Ha Hr. exists 1%nat. unfold turn, __event_handler_callback. rewrite Ha, Z.eqb_refl. cbn. by rewrite Hr. Qed.

Lemma reach_turn w w1 P : turn_rel w w1 -> reach w1 P -> reach w P.
Proof. intros Ht (w2 & w' & Ht2 & Hs & HP). exists w1, w'. split_and!; [done|by econstructor|done]. Qed.

Lemma reach_flag w w1 P : m_at w = AtNet -> round w = Ret (w1, true) -> reach w1 P -> reach w P.
Proof. intros Ha Hr. apply reach_turn. by apply turn_flag. Qed.

Lemma reach_turn_end w w' (P : machine -> Prop) : turn_rel w w' -> P w' -> reach w P.
Proof. intros Ht HP. exists w', w'. split_and!; [done|constructor|done]. Qed.

Lemma reach_flag_end w w' (P : machine -> Prop) : m_at w = AtNet -> round w = Ret (w', true) -> P w' -> reach w P.
Proof. intros Ha Hr. apply reach_turn_end. by apply turn_flag. Qed.

Lemma reach_back w P : m_at w = AtBack -> m_ev w = [] -> reach (with_at w AtNet) P -> reach w P.
Proof.
  intros Ha He. apply reach_turn. exists 0%nat. unfold turn. rewrite Ha. unfold conn_back, pop_ev. rewrite He. cbn. destruct w as [? c]. cbn in *. subst.
  by destruct c.
Qed.

(** ** Reading a request *)

(** The connection waits for a request or the rest of one and has received [b]. *)
Record received (w : machine) (b : bytes) : Prop := {
  rc_at : m_at w = AtNet;
  rc_state : state (m_conn w) = conn_read;
  rc_flags : event_flags (m_conn w) = Z.lor EV_READ EV_PERSIST;
  rc_cur : rcurr (m_conn w) = 0;
  rc_bytes : rbytes (m_conn w) = zlen b;
  rc_buff : exists r, rbuff (m_conn w) = b ++ r;
  rc_size : zlen (rbuff (m_conn w)) = rsize (m_conn w);
  rc_ev : m_ev w = []
}.

(** Everything of the world but the input and what has been received. *)
Definition same_rest (w w' : machine) : Prop :=
  m_srv w' = m_srv w /\ m_out w' = m_out w /\ m_sent w' = m_sent w /\ m_mem w' = m_mem w /\ m_tick w' = m_tick w /\ m_curr w' = m_curr w /\
  let c := m_conn w in m_conn w' = with_read c (rbuff (m_conn w')) 0 (rsize c) (rbytes (m_conn w')).

Lemma same_rest_trans w1 w2 w3 : same_rest w1 w2 -> same_rest w2 w3 -> same_rest w1 w3.
Proof.
  intros (A1 & A2 & A3 & A4 & A5 & A6 & A7) (B1 & B2 & B3 & B4 & B5 & B6 & B7). unfold same_rest. cbv zeta in *. split_and!; try congruence.
  destruct (m_conn w1), (m_conn w2), (m_conn w3). unfold with_read in *. cbn in *. injection A7 as -> -> -> -> -> -> -> -> -> -> -> -> ->. injection B7 as -> -> -> -> -> -> -> -> -> -> -> -> ->. done.
Qed.

(** What reading [d] behind [b] makes of the world. *)
Definition got (w : machine) (inp : list rres) (b d r : bytes) : machine :=
  with_conn (with_in w inp) (with_read (m_conn w) (b ++ d ++ drop (length d) r) 0 (rsize (m_conn w)) (zlen b + zlen d)).

Lemma got_received w inp b d r : received w b -> rbuff (m_conn w) = b ++ r -> zlen d <= zlen r ->
  received (got w inp b d r) (b ++ d) /\ same_rest w (got w inp b d r) /\ m_in (got w inp b d r) = inp /\ rsize (m_conn (got w inp b d r)) = rsize (m_conn w).
Proof.
  intros [H1 H2 H3 H4 H5 H6 H7 H8] Hb Hl. split_and!; [|by unfold same_rest; split_and!|done|done]. split; cbn; try done.
  - by rewrite zlen_app.
  - exists (drop (length d) r). by rewrite app_assoc.
  - rewrite <- H7, Hb. unfold zlen in *. rewrite !length_app, length_drop. lia.
Qed.

Lemma buf_write_behind b r d : zlen d <= zlen r -> buf_write (b ++ r) (0 + zlen b) d = Ret (b ++ d ++ drop (length d) r).
Proof.
  intros H. unfold zlen in H. rewrite <- (take_drop (length d) r) at 1. apply buf_write_at; [|unfold zlen; lia]. rewrite length_take. lia.
Qed.

Lemma to_to w a b : to (to w a) b = to w b.
Proof. unfold to. rewrite !set_conn_state_eq. destruct w as [? c]. by destruct c. Qed.

Lemma to_same w a : state (m_conn w) = a -> to w a = w.
Proof. intros <-. unfold to. rewrite set_conn_state_eq. destruct w as [? c]. by destruct c. Qed.

(** The header is read when its first piece has all of it. *)
Lemma read_header w d0 rest fuel : received w [] -> m_in w = RData d0 :: rest -> arrives (m_in w) -> (16 <= length d0)%nat -> 16 <= rsize (m_conn w) ->
  exists w', read_header_loop (S fuel) w = Ret (w', READ_DATA_RECEIVED) /\ received w' (take 16 (stream (m_in w))) /\ same_rest w w' /\
    arrives (m_in w') /\ stream (m_in w') = drop 16 (stream (m_in w)).
Proof.
  intros Hr Hin Ha Hd Hs. destruct (read_call (m_in w) sizeof_protocol_header) as [inp res] eqn:E.
  assert (res = RData (take 16 d0)) as ->.
  { rewrite Hin in E. unfold read_call in E. cbn [sock_read] in E. change (Z.to_nat sizeof_protocol_header) with 16%nat in E.
    change (sizeof_protocol_header =? 0) with false in E. change (sizeof_protocol_header <? 0) with false in E. cbv iota in E.
    destruct (Nat.leb_spec (length d0) 16) as [Hl|Hl]; injection E as _ <-; [|done]. by rewrite take_ge. }
  destruct (read_call_arrives (m_in w) sizeof_protocol_header inp _ Ha ltac:(done) E) as [Ha' [(d & Ed & Hne & Hl & Hst & _)|(Ed & _)]]; [|done]. injection Ed as <-.
  pose proof Hr as [_ _ _ Hc Hb [r Hrb] Hsz _]. cbn [app] in Hrb. set (d := take 16 d0) in *.
  assert (zlen d = 16) as Hd16 by (unfold zlen, d; rewrite length_take; lia).
  assert (zlen d <= zlen r) as Hdr by (rewrite <- Hrb; lia).
  destruct (got_received w inp [] d r Hr Hrb Hdr) as (G1 & G2 & G3 & _). cbn [app] in G1.
  exists (got w inp [] d r). assert (take 16 (stream (m_in w)) = d /\ drop 16 (stream (m_in w)) = stream inp) as [-> ->].
  { rewrite Hst. assert (length d = 16%nat) as Hl16 by (unfold zlen in Hd16; lia). by rewrite take_app_length', drop_app_length' by lia. }
  split_and!; [|done|done|done|done]. cbn [read_header_loop]. rewrite E. destruct d as [|x d]; [done|]. rewrite Hc, Hb, Hrb.
  pose proof (buf_write_behind [] r (x :: d) Hdr) as W. cbn [app] in W. rewrite W. cbn [mbind outcome_bind]. rewrite zlen_nil, Z.add_0_l, Hd16. unfold got. by rewrite Hd16.
Qed.

(** The rest of the body: all of it, or up to a pause. *)
Lemma read_body fuel w b d data len : received w b -> arrives (m_in w) -> stream (m_in w) = d ++ data -> d <> [] -> zlen b + zlen d = len + 16 ->
  16 <= zlen b -> len + 16 <= rsize (m_conn w) -> len + 16 < 2 ^ 31 -> (script_size (m_in w) <= fuel)%nat ->
  exists w', same_rest w w' /\ arrives (m_in w') /\
    ((read_body_loop uninit fuel len w = Ret (w', READ_DATA_RECEIVED) /\ received w' (b ++ d) /\ stream (m_in w') = data) \/
     (exists d1 d2, d = d1 ++ d2 /\ d2 <> [] /\ read_body_loop uninit fuel len w = Ret (w', READ_NO_DATA_RECEIVED) /\ received w' (b ++ d1) /\
        stream (m_in w') = d2 ++ data /\ (script_size (m_in w') < script_size (m_in w))%nat)).
Proof.
  revert w b d. induction fuel as [|fuel IH]; intros w b d Hr Ha Hst Hne Hl Hb16 Hsz Hmax Hf; [destruct (m_in w) as [|[] ]; cbn in Hf; lia|].
  pose proof Hr as [R1 R2 R3 R4 R5 [r R6] R7 R8]. assert (0 < zlen d) as Hd by (destruct d; [done|]; rewrite zlen_cons; pose proof (zlen_pos d); lia).
  assert (16 <= len + 16) as Hlen by lia. cbn [read_body_loop]. cbv zeta. rewrite R5. destruct (Z.leb_spec (rsize (m_conn w)) (zlen b)) as [Hbad|_]; [lia|]. cbn [andb negb]. rewrite R5.
  destruct (read_call _ _) as [inp res] eqn:E. unfold sizeof_protocol_header in E. rewrite s_wrap_id in E by (unfold is_s; lia).
  replace (len - (zlen b - 16)) with (zlen d) in E by lia. change (m_in (with_mem w (m_mem w))) with (m_in w) in E.
  destruct (read_call_arrives _ _ _ _ Ha Hd E) as [Ha' [(x & -> & Hx & Hxl & Hxs & Hsm)|(-> & Hps & Hsm)]].
  - rewrite Hst in Hxs. destruct (app_prefix _ _ _ _ Hxs Hxl) as (k & -> & Hk).
    assert (zlen x <= zlen r) as Hxr by (rewrite R6, zlen_app in R7; rewrite zlen_app in Hl; pose proof (zlen_pos k); lia).
    destruct (got_received w inp b x r Hr R6 Hxr) as (G1 & G2 & G3 & G4). destruct x as [|y x]; [done|]. set (z := y :: x) in *.
    rewrite R4, R6, (buf_write_behind b r z Hxr). cbn [mbind outcome_bind].
    change (with_conn (with_in (with_mem w (m_mem w)) inp) _) with (got w inp b z r).
    unfold sizeof_protocol_header. rewrite u_wrap_id by (unfold is_u; lia).
    rewrite zlen_app in Hl. destruct (Z.eqb_spec (zlen b + zlen z) (len + 16)) as [He|He].
    + assert (k = []) as -> by (apply zlen_zero; lia). rewrite app_nil_r. exists (got w inp b z r). split_and!; [done|done|]. by left.
    + assert (k <> []) as Hkn by (intros ->; rewrite zlen_nil in Hl; lia).
      pose proof (zlen_pos z). destruct (IH (got w inp b z r) (b ++ z) k G1) as (w' & S1 & S2 & S3); rewrite ?G3, ?G4, ?zlen_app; try done; try lia.
      exists w'. split_and!; [exact (same_rest_trans _ _ _ G2 S1)|done|]. rewrite <- !app_assoc in S3. destruct S3 as [S3|(d1 & d2 & -> & S3)]; [by left|].
      right. exists (z ++ d1), d2. rewrite <- !app_assoc in S3 |- *. destruct S3 as (? & ? & ? & ? & ?). split_and!; try done. rewrite G3 in *. lia.
  - exists (with_in w inp). split_and!; [by unfold same_rest; destruct w as [? c]; cbn in *; destruct c; cbn in *; subst|done|]. right. exists [], d.
    rewrite app_nil_r. cbn [m_in with_in]. rewrite Hps. split_and!; [done|done| | |done|].
    + by destruct w as [? c]; cbn; destruct c.
    + by split; try done; exists r.
    + destruct Hsm as [Hsm|]; [|done]. rewrite Hsm in Hst. by destruct d.
Qed.

Lemma at_to w st : m_at (to w st) = m_at w.
Proof. done. Qed.

Lemma state_to w st : state (m_conn (to w st)) = st.
Proof. apply set_conn_state_state. Qed.

(** A pause: the connection waits for the next event. *)
Lemma round_pause w b : received w b -> round (to w conn_waiting) = Ret (w, true).
Proof.
  intros [R1 R2 R3 R4 R5 R6 R7 R8]. unfold machine_round. rewrite state_to. unfold update_conn_event.
  assert (event_flags (m_conn (to w conn_waiting)) = event_flags (m_conn w)) as -> by (unfold to; by rewrite set_conn_state_eq).
  rewrite R3, Z.eqb_refl. cbn [negb Z.eqb]. rewrite to_to, to_same by done. done.
Qed.

Lemma read_rest w b d data len P : received w b -> arrives (m_in w) -> stream (m_in w) = d ++ data -> d <> [] -> zlen b + zlen d = len + 16 ->
  16 <= zlen b -> len + 16 <= rsize (m_conn w) -> len <= MAX_PACKAGE_DATA_SIZE -> (forall r, header_body_len (b ++ r) = Ret len) ->
  (forall w2, received w2 (b ++ d) -> same_rest w w2 -> arrives (m_in w2) -> stream (m_in w2) = data -> reach (to w2 conn_parse_cmd) P) ->
  reach w P.
Proof.
  remember (script_size (m_in w)) as k eqn:Ek. revert w b d Ek. induction (lt_wf k) as [k _ IH].
  intros w b d Ek Hr Ha Hst Hne Hl Hb16 Hsz Hmax Hh HK. unfold MAX_PACKAGE_DATA_SIZE in Hmax. pose proof Hr as [R1 R2 _ _ R5 [r R6] _ _].
  assert (0 < zlen d) as Hd by (destruct d; [done|]; rewrite zlen_cons; pose proof (zlen_pos d); lia).
  destruct (read_body (script_size (m_in w)) w b d data len Hr Ha Hst Hne Hl Hb16 Hsz ltac:(lia) (le_n _)) as (w2 & Hsr & Ha2 & Hcase).
  assert (forall res, read_body_loop uninit (script_size (m_in w)) len w = Ret (w2, res) -> __network_read uninit w = Ret (w2, res)) as Hread.
  { intros res Hres. unfold __network_read, sizeof_protocol_header. rewrite R5. destruct (Z.ltb_spec (zlen b) 16); [lia|].
    unfold __network_read_body. rewrite R6, Hh. cbn [mbind outcome_bind]. cbv zeta. rewrite s_wrap_id by (unfold is_s; lia).
    unfold MAX_PACKAGE_DATA_SIZE. destruct (Z.ltb_spec (8 * 1024) len); [lia|]. done. }
  destruct Hcase as [(Hres & Hr2 & Hs2)|(d1 & d2 & -> & Hd2 & Hres & Hr2 & Hs2 & Hsm)].
  - apply (reach_round w (to w2 conn_parse_cmd)); [done|by rewrite at_to; apply Hr2| |by apply HK].
    unfold machine_round. rewrite R2, (Hread _ Hres). done.
  - apply (reach_round w (to w2 conn_waiting)); [done|by rewrite at_to; apply Hr2| |].
    { unfold machine_round. rewrite R2, (Hread _ Hres). done. }
    apply (reach_flag _ w2); [by rewrite at_to; apply Hr2|by eapply round_pause|].
    rewrite zlen_app in Hl. pose proof (zlen_pos d1). assert (rsize (m_conn w2) = rsize (m_conn w)) as Hrs by (destruct Hsr as (_ & _ & _ & _ & _ & _ & ->); done).
    eapply (IH _ ltac:(subst k; exact Hsm) w2 (b ++ d1) d2 eq_refl Hr2 Ha2 Hs2 Hd2); rewrite ?zlen_app, ?Hrs; try lia; [done| |].
    + intros r'. rewrite <- app_assoc. apply Hh.
    + intros w3 H3. rewrite <- app_assoc in H3. intros Hs3. apply HK; [done|by eapply same_rest_trans].
Qed.

(** ** Requests *)

Definition head16 (cmd st : Z) (padding body : bytes) : bytes := header_bytes (Z.of_nat (length body)) cmd st ++ padding.

Lemma message_split cmd st padding body : message cmd st padding body = head16 cmd st padding body ++ body.
Proof. unfold message, head16. by rewrite app_assoc. Qed.

Lemma header_len cmd st padding (body r : bytes) : zlen body <= MAX_PACKAGE_DATA_SIZE -> header_body_len (head16 cmd st padding body ++ r) = Ret (zlen body).
Proof.
  intros H. unfold head16, header_bytes. rewrite <- !app_assoc. unfold MAX_PACKAGE_DATA_SIZE, zlen in *. by rewrite le64_decode by lia.
Qed.

Lemma zlen_head16 cmd st padding (body : bytes) : length padding = 6%nat -> zlen (head16 cmd st padding body) = 16.
Proof. intros H. unfold zlen, head16. rewrite length_app, H. done. Qed.

Definition in_parse (w : machine) : machine := to w conn_parse_cmd.

Lemma in_parse_read w : rbytes (m_conn (in_parse w)) = rbytes (m_conn w) /\ rbuff (m_conn (in_parse w)) = rbuff (m_conn w) /\ rsize (m_conn (in_parse w)) = rsize (m_conn w).
Proof. unfold in_parse, to. by rewrite set_conn_state_eq. Qed.

(** A header whose body is still to come is put aside. *)
Lemma round_put_aside w cmd st padding (body : bytes) : received w (head16 cmd st padding body) -> length padding = 6%nat -> body <> [] -> zlen body <= MAX_PACKAGE_DATA_SIZE ->
  round (in_parse w) = Ret (to w conn_waiting, false).
Proof.
  intros [_ _ _ _ R5 [r R6] _ _] Hp Hne Hm. unfold machine_round. unfold in_parse at 1. rewrite state_to. unfold __parse_protocol_cmd.
  destruct (in_parse_read w) as (-> & -> & _). rewrite R5, R6, zlen_head16 by done. cbn [Z.leb Z.ltb Z.compare]. unfold sizeof_protocol_header. cbn [Z.ltb Z.compare Pos.compare Pos.compare_cont].
  rewrite header_len by done. cbn [mbind outcome_bind]. destruct (Z.leb_spec (zlen body) (16 - 16)) as [Hb|_].
  - exfalso. apply Hne. apply zlen_zero. pose proof (zlen_pos body). lia.
  - cbn [mbind outcome_bind Z.eqb]. unfold in_parse. by rewrite to_to.
Qed.

(** The connection as the handler gets it. *)
Definition handed (w : machine) (n : Z) : conn :=
  with_read (m_conn (in_parse w)) (rbuff (m_conn w)) sizeof_protocol_header (rsize (m_conn w)) n.

Lemma round_dispatch w cmd st padding body : received w (message cmd st padding body) -> length padding = 6%nat -> is_u 8 cmd -> zlen body <= MAX_PACKAGE_DATA_SIZE ->
  round (in_parse w) = ('(s, c) ← dispatch_cmd cf (senvs (m_tick w)) (m_srv w) (handed w (zlen body)) cmd; Ret (next_tick (with_srv (in_parse w) s c), false)).
Proof.
  intros [_ _ _ _ R5 [r R6] _ _] Hp Hc Hm. unfold machine_round. unfold in_parse at 1. rewrite state_to. unfold __parse_protocol_cmd.
  rewrite message_split in *. destruct (in_parse_read w) as (-> & -> & ->). rewrite R5, R6, zlen_app, zlen_head16 by done. pose proof (zlen_pos body).
  destruct (Z.leb_spec (16 + zlen body) 0); [lia|]. unfold sizeof_protocol_header. destruct (Z.ltb_spec (16 + zlen body) 16); [lia|].
  rewrite <- app_assoc, header_len by done. cbn [mbind outcome_bind]. replace (16 + zlen body - 16) with (zlen body) by lia. rewrite Z.leb_refl.
  cbv zeta. cbn [rbuff with_read].
  assert (zlookup (head16 cmd st padding body ++ body ++ r) 8 = Some cmd) as ->.
  { unfold head16, header_bytes. cbn [app le64 fmap list_fmap]. unfold zlookup. cbn. by rewrite u_wrap_id. }
  cbn [get_or mbind outcome_bind]. unfold handed. rewrite R6, app_assoc. unfold sizeof_protocol_header.
  change (m_tick (in_parse w)) with (m_tick w). change (m_srv (in_parse w)) with (m_srv w).
  destruct (dispatch_cmd _ _ _ _ _) as [[s c]|]; [|done]. done.
Qed.

(** A request that starts with a whole header is read however the rest of it
    arrives, and handed over once, with what follows it left in the socket. *)
Lemma read_request w d0 rest cmd st padding body data P : received w [] -> m_in w = RData d0 :: rest -> arrives (m_in w) -> (16 <= length d0)%nat ->
  stream (m_in w) = message cmd st padding body ++ data -> length padding = 6%nat -> zlen body <= MAX_PACKAGE_DATA_SIZE -> 16 + zlen body <= rsize (m_conn w) ->
  (forall w2, received w2 (message cmd st padding body) -> same_rest w w2 -> arrives (m_in w2) -> stream (m_in w2) = data -> reach (in_parse w2) P) ->
  reach w P.
Proof.
  intros Hr Hin Ha Hd0 Hst Hp Hmax Hsz HK. pose proof (zlen_pos body) as Hbp. rewrite message_split in *.
  destruct (read_header w d0 rest (pred (script_size (m_in w))) Hr Hin Ha Hd0 ltac:(lia)) as (w1 & Hres & Hr1 & Hsr & Ha1 & Hs1).
  pose proof (zlen_head16 cmd st padding body Hp) as H16. rewrite Hst, <- app_assoc in Hr1, Hs1.
  rewrite take_app_length' in Hr1 by (unfold zlen in H16; lia). rewrite drop_app_length' in Hs1 by (unfold zlen in H16; lia).
  assert (S (pred (script_size (m_in w))) = script_size (m_in w)) as Hpr by (rewrite Hin; done). rewrite Hpr in Hres.
  assert (round w = Ret (in_parse w1, false)) as Hround.
  { unfold machine_round. pose proof Hr as [_ R2 _ _ R5 _ _ _]. rewrite R2. unfold __network_read, __network_read_header. rewrite R5, Hres. done. }
  apply (reach_round w (in_parse w1)); [apply Hr|apply Hr1|done|]. destruct (decide (body = [])) as [->|Hne].
  - rewrite app_nil_r in HK. cbn [app] in Hs1. by apply HK.
  - apply (reach_round _ (to w1 conn_waiting)); [apply Hr1|rewrite at_to; apply Hr1|by eapply round_put_aside|].
    apply (reach_flag _ w1); [rewrite at_to; apply Hr1|by eapply round_pause|].
    assert (rsize (m_conn w1) = rsize (m_conn w)) as Hrs by (destruct Hsr as (_ & _ & _ & _ & _ & _ & ->); done).
    apply (read_rest w1 _ body data (zlen body) P Hr1 Ha1 Hs1 Hne); rewrite ?Hrs; try lia; [by intros r; apply header_len|].
    intros w2 H2 Hs2. apply HK; [done|by eapply same_rest_trans].
Qed.
End Runs.

(** ** Storing a file *)

Lemma write_at_behind (done x old : bytes) : write_at (done ++ drop (length done) old) (length done) x = (done ++ x) ++ drop (length (done ++ x)) old.
Proof.
  unfold write_at. assert (length done - length (done ++ drop (length done) old) = 0)%nat as -> by (rewrite length_app; lia). cbn [zeros replicate].
  unfold zeros. cbn [replicate]. rewrite app_nil_r, take_app_length, <- app_assoc. f_equal. f_equal. rewrite <- drop_drop, drop_app_length, drop_drop.
  by rewrite length_app.
Qed.

(** The calls of a disk thread succeed. *)
Record dio_ok (e : dio_env) : Prop := {
  dk_open : do_open e = 0;
  dk_lseek : do_lseek e = true;
  dk_read : do_read e = true;
  dk_write n : do_write e n = n;
  dk_unlock : dn_unlock (do_done e) = 0;
  dk_binlog : calls_ok (dn_binlog (do_done e))
}.

(** The context of a file of which [done] has been stored, with [x] in the
    buffer. *)
Definition part_ctx (f0 : file_ctx) (b : bytes) (size : Z) (done x : bytes) (d : option (bytes * Z)) : file_ctx :=
  set_fd (set_pos (set_buff f0 b) (mk_fpos (zlen done) size (zlen done) (p_total_size (f_pos f0)) (zlen x) (zlen x))) d.

(** The files: not yet opened, or with [done] at the beginning of the file. *)
Definition part_files (fs0 : files) (path done : bytes) (d : option (bytes * Z)) (fs : files) : Prop :=
  (d = None /\ done = [] /\ fs = fs0) \/
  (d = Some (path, zlen done) /\ fs = <[path := done ++ drop (length done) (default [] (fs0 !! path))]> fs0).

Section Store.
Context (cf : service_conf) (f0 : file_ctx) (fs0 : files) (size : Z) (path old : bytes).
Hypothesis (Hpath : fn_block_map (f_names f0) = path) (Hold : default [] (fs0 !! path) = old) (Hflags : f_op_flags f0 = Z.lor O_WRONLY O_CREAT) (HB : 0 < f_buff_size f0 < 2 ^ 31).

(** The file is opened where its next byte goes. *)
Lemma open_part e b done x d fs : dio_ok e -> part_files fs0 path done d fs ->
  exists fs1, __open_file e fs (part_ctx f0 b size done x d) (zlen done) = (fs1, part_ctx f0 b size done x (Some (path, zlen done)), 0) /\
    fs1 !! path = Some (done ++ drop (length done) old) /\ forall t, <[path := t]> fs1 = <[path := t]> fs0.
Proof.
  intros He [(-> & -> & ->)|(-> & ->)].
  - unfold __open_file. cbn [fd part_ctx set_fd]. unfold open_flags. rewrite (dk_open e He). cbn [negb Z.eqb zlen length Z.of_nat Z.ltb Z.compare].
    change (f_op_flags (part_ctx f0 b size [] x None)) with (f_op_flags f0). rewrite Hflags. change (fn_block_map (f_names (part_ctx f0 b size [] x None))) with (fn_block_map (f_names f0)). rewrite Hpath.
    destruct (fs0 !! path) as [t|] eqn:E.
    + exists fs0. split_and!; [done| |done]. by rewrite E, <- Hold.
    + exists (<[path := []]> fs0). split_and!; [done| |by intros t; rewrite insert_insert_eq]. rewrite <- Hold. by rewrite lookup_insert_eq.
  - eexists. split_and!; [done| |by intros t; rewrite insert_insert_eq]. by rewrite lookup_insert_eq, Hold.
Qed.

(** A disk thread writes the buffer behind what is there, and asks for more or
    ends the job. *)
Lemma dio_store e s c b done x r d : dio_ok e -> ctx_of s c = Ret (part_ctx f0 b size done x d) -> part_files fs0 path done d (sv_files s) ->
  b = x ++ r -> zlen b = f_buff_size f0 ->
  let s1 := set_sv_files s (<[path := (done ++ x) ++ drop (length (done ++ x)) old]> fs0) in
  let f1 d := set_fd (set_pos (set_buff f0 b) (mk_fpos (zlen (done ++ x)) size (zlen (done ++ x)) (p_total_size (f_pos f0)) (zlen x) (zlen x))) d in
  dio_write cf e s c =
    if zlen (done ++ x) <? size
    then Ret (put_ctx s1 c (file_ctx_buff_reset (f1 (Some (path, zlen (done ++ x))))), dio_notify_nio c conn_fread (Z.lor EV_READ EV_PERSIST), true)
    else call_op_func cf e (put_ctx s1 c (f1 None)) c LFS_OK.
Proof.
  intros He Hctx Hfs -> Hb s1 f1. unfold dio_write. rewrite Hctx. cbn [mbind outcome_bind]. cbv zeta.
  change (p_offset (f_pos (part_ctx f0 (x ++ r) size done x d))) with (zlen done).
  destruct (open_part e (x ++ r) done x d (sv_files s) He Hfs) as (fs1 & -> & Hl & Hins). cbn [negb Z.eqb]. cbn [fd part_ctx set_fd get_or mbind outcome_bind].
  unfold part_ctx, open_content. rewrite Hl. cbn [get_or mbind outcome_bind]. cbn [fd f_pos set_fd set_pos p_buff_offset f_buff set_buff].
  assert (0 <= zlen x < 2 ^ 31) as Hx by (rewrite zlen_app in Hb; pose proof (zlen_pos x); pose proof (zlen_pos r); lia).
  rewrite s_wrap_id by (unfold is_s; lia). pose proof (buf_read_at [] x r 0 (Z.to_nat (zlen x)) eq_refl) as Hrd. cbn [app] in Hrd. rewrite Hrd by (unfold zlen; lia).
  cbn [mbind outcome_bind]. rewrite (dk_write e He), Z.eqb_refl. cbn [negb]. rewrite take_zlen.
  assert (Z.to_nat (zlen done) = length done) as -> by (unfold zlen; lia). rewrite write_at_behind.
  assert (Z.max (zlen x) 0 = zlen x) as -> by lia. cbn [sv_files set_sv_files]. rewrite Hins. rewrite <- zlen_app.
  unfold set_offsets. cbn [f_pos set_fd set_pos p_offset p_size p_total_offset p_total_size p_rwoffset p_buff_offset]. rewrite <- zlen_app. done.
Qed.
End Store.

(** ** A file from the socket to the disk *)

(** The server [s0] with other files, another context of [c] and another last
    reader. *)
Definition srv_at (s0 : server) (c : conn) (fs : files) (f : file_ctx) (rd : Z) : server := set_reader (put_ctx (set_sv_files s0 fs) c f) rd.

Lemma ctx_srv_at s0 c fs f rd f' : ctx_of s0 c = Ret f' -> ctx_of (srv_at s0 c fs f rd) c = Ret f.
Proof. intros H. unfold ctx_of, srv_at. cbn. by eapply get_put_fctx. Qed.

Lemma put_srv_at s0 c fs f rd g : put_ctx (srv_at s0 c fs f rd) c g = srv_at s0 c fs g rd.
Proof. unfold srv_at, put_ctx. cbn. unfold set_fctxs, set_reader, set_sv_files. cbn. by rewrite put_put_fctx. Qed.

Lemma files_srv_at s0 c fs f rd gs g : put_ctx (set_sv_files (srv_at s0 c fs f rd) gs) c g = srv_at s0 c gs g rd.
Proof. unfold srv_at, put_ctx. cbn. unfold set_fctxs, set_reader, set_sv_files. cbn. by rewrite put_put_fctx. Qed.

(** The threads are there. *)
Definition threads_ok (cf : service_conf) : Prop := 0 < sc_read_threads cf < 2 ^ 31 /\ 0 < sc_write_threads cf < 2 ^ 31.

Lemma polling_reader cf s c f : threads_ok cf -> ctx_of s c = Ret f -> f_op_type f = FILE_OP_TYPE_READ -> 0 <= sv_reader s < sc_read_threads cf ->
  exists tid, dio_thread_pool_polling cf s c = Ret (set_reader s tid, tid) /\ 0 <= tid < sc_read_threads cf.
Proof.
  intros [H1 H2] Hc Ht Hr. unfold dio_thread_pool_polling. rewrite Hc. cbn [mbind outcome_bind]. rewrite Ht. destruct (Z.eqb_spec (sc_read_threads cf) 0); [lia|].
  assert (0 <= s32 (sv_reader s + 1) \/ sv_reader s + 1 = 2 ^ 31) as Hs by (destruct (Z.eq_dec (sv_reader s + 1) (2 ^ 31)); [by right|left; rewrite s_wrap_id by (unfold is_s; lia); lia]).
  destruct Hs as [Hs|Hs]; [|lia]. exists (Z.rem (s32 (sv_reader s + 1)) (sc_read_threads cf)).
  pose proof (Z.rem_bound_pos (s32 (sv_reader s + 1)) (sc_read_threads cf) Hs ltac:(lia)) as Hb. split; [|done]. cbn [mbind outcome_bind].
  destruct (Z.leb_spec 0 (Z.rem (s32 (sv_reader s + 1)) (sc_read_threads cf))); [|lia].
  destruct (Z.ltb_spec (Z.rem (s32 (sv_reader s + 1)) (sc_read_threads cf)) (sc_read_threads cf + sc_write_threads cf)); [done|lia].
Qed.

(** What reading and passing on leaves alone. *)
Definition outside (w0 w : machine) : Prop := m_out w = m_out w0 /\ m_sent w = m_sent w0 /\ m_curr w = m_curr w0.

Section Copy.
Context (cf : service_conf) (uninit : nat -> Z) (senvs : nat -> service_env) (denvs : nat -> dio_env).
Context (f0 f0' : file_ctx) (fs0 : files) (size : Z) (path old : bytes) (w0 : machine).
Hypothesis (Hpath : fn_block_map (f_names f0) = path) (Hold : default [] (fs0 !! path) = old) (Hflags : f_op_flags f0 = Z.lor O_WRONLY O_CREAT)
  (HB : 0 < f_buff_size f0 < 2 ^ 31) (Hdio : f_dio_func f0 = Some DioWrite) (Htype : f_op_type f0 = FILE_OP_TYPE_READ) (Hthreads : threads_ok cf)
  (Henvs : forall i, dio_ok (denvs i)) (Hctx : ctx_of (m_srv w0) (m_conn w0) = Ret f0') (Hst0 : state (m_conn w0) = conn_fread)
  (Hev0 : event_flags (m_conn w0) = Z.lor EV_READ EV_PERSIST).

Abbreviation round := (machine_round cf uninit senvs).
Abbreviation at0 := (srv_at (m_srv w0) (m_conn w0)).

Record storing (w : machine) (done : bytes) : Prop := {
  sg_at : m_at w = AtNet;
  sg_conn : m_conn w = m_conn w0;
  sg_ev : m_ev w = [];
  sg_out : outside w0 w;
  sg_srv : exists b d fs rd, m_srv w = at0 fs (part_ctx f0 b size done [] d) rd /\ zlen b = f_buff_size f0 /\ part_files fs0 path done d fs /\
    0 <= rd < sc_read_threads cf
}.

Lemma storing_in w done inp : storing w done -> storing (with_in w inp) done.
Proof. intros [H1 H2 H3 H4 H5]. by split. Qed.

(** One call of [__network_fread] takes what is there, up to a buffer. *)
Lemma fread_part w done rest : storing w done -> arrives (m_in w) -> stream (m_in w) = rest -> size = zlen done + zlen rest -> (rest = [] -> done = []) ->
  exists inp, arrives inp /\
    ((exists x rest' b r d fs rd, rest = x ++ rest' /\ stream inp = rest' /\ b = x ++ r /\ zlen b = f_buff_size f0 /\ part_files fs0 path done d fs /\
        0 <= rd < sc_read_threads cf /\ (x = [] -> rest = []) /\ (rest <> [] -> (script_size inp < script_size (m_in w))%nat) /\
        __network_fread w = Ret (with_srv (with_in w inp) (at0 fs (part_ctx f0 b size done x d) rd) (m_conn w0), READ_COMPLETE)) \/
     (stream inp = rest /\ (script_size inp < script_size (m_in w))%nat /\ __network_fread w = Ret (with_in w inp, READ_INCOMPLETE))).
Proof.
  intros [H1 H2 H3 H4 (b & d & fs & rd & Hs & Hb & Hpf & Hrd)] Ha Hst Hsz Hrd0.
  assert (ctx_of (m_srv w) (m_conn w) = Ret (part_ctx f0 b size done [] d)) as Hc by (rewrite Hs, H2; by eapply ctx_srv_at).
  unfold __network_fread. rewrite Nat.add_1_r. cbn [fread_loop]. rewrite Hc. cbn [mbind outcome_bind]. cbv zeta.
  destruct (decide (rest = [])) as [->|Hne].
  - rewrite (Hrd0 eq_refl) in *. assert (size = 0) as Hz by done. exists (m_in w). split; [done|]. left. exists [], [], b, b, d, fs, rd. split_and!; try done; try lia.
    cbn [f_pos part_ctx set_fd set_pos p_size p_rwoffset]. assert ((size <=? zlen (@nil Z)) = true) as -> by (rewrite Hz; done). cbn [orb]. do 2 f_equal.
    rewrite <- Hs, <- H2. by destruct w.
  - assert (0 < zlen rest) as Hr by (destruct rest; [done|]; rewrite zlen_cons; pose proof (zlen_pos rest); lia). pose proof (zlen_pos done) as Hdp.
    cbn [f_pos part_ctx set_fd set_pos set_buff p_size p_rwoffset p_buff_offset f_buff_size f_buff]. change (zlen (@nil Z)) with 0.
    destruct (Z.leb_spec size 0); [lia|]. destruct (Z.leb_spec (f_buff_size f0) 0); [lia|]. cbn [orb]. rewrite Z.sub_0_r, s_wrap_id by (unfold is_s; lia).
    destruct (read_call (m_in w) (f_buff_size f0)) as [inp res] eqn:E.
    destruct (read_call_arrives _ _ _ _ Ha (proj1 HB) E) as [Ha' [(x & -> & Hx & Hxl & Hxs & Hsm)|(-> & Hps & Hsm)]]; exists inp; (split; [done|]).
    + left. rewrite Hst in Hxs. exists x, (stream inp), (x ++ drop (length x) b), (drop (length x) b), d, fs, rd.
      assert (length x <= length b)%nat as Hxb by (unfold zlen in *; lia).
      split_and!; try done; try lia; [unfold zlen in *; rewrite length_app, length_drop; lia|]. destruct x as [|y x]; [done|]. set (z := y :: x) in *.
      pose proof (buf_write_behind [] b z ltac:(unfold zlen; lia)) as W. cbn [app] in W. change (0 + zlen (@nil Z)) with 0 in W. rewrite W. cbn [mbind outcome_bind].
      change (m_conn (with_in w inp)) with (m_conn w). change (m_srv (with_in w inp)) with (m_srv w). rewrite H2, Hs, put_srv_at.
      match goal with |- context [at0 fs ?g rd] => change g with (part_ctx f0 (z ++ drop (length z) b) size done z d) end.
      destruct (Z.eqb_spec (zlen z) (f_buff_size f0)) as [Hz|_]; [|done]. destruct (script_size (m_in w)) as [|k] eqn:Ek; [lia|]. cbn [fread_loop].
      change (m_srv (with_srv ?a ?b ?c)) with b. change (m_conn (with_srv ?a ?b ?c)) with c. erewrite ctx_srv_at by done. cbn [mbind outcome_bind]. cbv zeta.
      cbn [f_pos part_ctx set_fd set_pos set_buff p_size p_rwoffset p_buff_offset f_buff_size]. rewrite Hz, Z.leb_refl, orb_true_r. done.
    + right. split_and!; [by rewrite Hps| |].
      { destruct Hsm as [Hsm|]; [|done]. rewrite Hsm in Hst. by destruct rest. }
      cbn [Z.eqb EAGAIN]. unfold update_conn_event. change (m_conn (with_in w inp)) with (m_conn w). rewrite H2, Hev0, Z.eqb_refl. done.
Qed.

(** The context when everything is written. *)
Definition stored_ctx (b : bytes) (data x : bytes) : file_ctx :=
  set_fd (set_pos (set_buff f0 b) (mk_fpos (zlen data) size (zlen data) (p_total_size (f_pos f0)) (zlen x) (zlen x))) None.

Abbreviation c_disk := (with_state (m_conn w0) conn_n2dio).

(** The connection goes to a disk thread with what was read. *)
Lemma to_disk w inp fs b done x d rd : storing w done -> 0 <= rd < sc_read_threads cf ->
  let w1 := with_srv (with_in w inp) (at0 fs (part_ctx f0 b size done x d) rd) (m_conn w0) in
  exists tid w2, round (to w1 conn_n2dio) = Ret (w2, true) /\ m_at w2 = AtDisk tid /\ m_conn w2 = c_disk /\ m_in w2 = inp /\ m_ev w2 = [] /\
    outside w0 w2 /\ m_srv w2 = at0 fs (part_ctx f0 b size done x d) tid /\ 0 <= tid < sc_read_threads cf.
Proof.
  intros [H1 H2 H3 H4 _] Hrd w1. set (f := part_ctx f0 b size done x d) in *.
  assert (m_conn (to w1 conn_n2dio) = c_disk) as Hc by (unfold to; rewrite set_conn_state_eq; done).
  assert (ctx_of (at0 fs f rd) c_disk = Ret f) as Hf by (change (ctx_of (at0 fs f rd) c_disk) with (ctx_of (at0 fs f rd) (m_conn w0)); by eapply ctx_srv_at).
  destruct (polling_reader cf (at0 fs f rd) c_disk f Hthreads Hf Htype Hrd) as (tid & Hpoll & Ht). exists tid. eexists. split; [|split_and!].
  - unfold machine_round. rewrite state_to. unfold dio_thread_pool_dispatch, pop_ev. change (m_ev (to w1 conn_n2dio)) with (m_ev w). rewrite H3. cbn [pop_bool negb del_conn_event Z.eqb].
    change (m_srv (with_ev (to w1 conn_n2dio) [])) with (at0 fs f rd). change (m_conn (with_ev (to w1 conn_n2dio) [])) with (m_conn (to w1 conn_n2dio)).
    rewrite Hc, Hpoll. cbn [mbind outcome_bind negb Z.eqb LFS_OK]. reflexivity.
  - done.
  - done.
  - done.
  - done.
  - done.
  - done.
  - lia.
  - lia.
Qed.

Lemma back_conn : dio_notify_nio c_disk conn_fread (Z.lor EV_READ EV_PERSIST) = m_conn w0.
Proof. unfold dio_notify_nio. rewrite <- Hst0, <- Hev0. by destruct (m_conn w0). Qed.

(** What arrives is stored; when all of it is there the job is ended. *)
Lemma store_file w done rest P : storing w done -> arrives (m_in w) -> stream (m_in w) = rest -> size = zlen done + zlen rest -> (rest = [] -> done = []) ->
  (forall w2 tid b x rd, m_at w2 = AtDisk tid -> m_conn w2 = c_disk -> m_ev w2 = [] -> outside w0 w2 -> stream (m_in w2) = [] -> arrives (m_in w2) -> 0 <= rd < sc_read_threads cf ->
     zlen b = f_buff_size f0 ->
     call_dio cf (denvs (m_tick w2)) (m_srv w2) (m_conn w2) =
       call_op_func cf (denvs (m_tick w2)) (at0 (<[path := (done ++ rest) ++ drop (length (done ++ rest)) old]> fs0) (stored_ctx b (done ++ rest) x) rd) c_disk LFS_OK ->
     reach cf uninit senvs denvs w2 P) ->
  reach cf uninit senvs denvs w P.
Proof.
  remember (script_size (m_in w)) as k eqn:Ek. revert w done rest Ek. induction (lt_wf k) as [k _ IH].
  intros w done rest Ek Hs Ha Hst Hsz Hrd0 HK. pose proof Hs as [H1 H2 H3 H4 H5]. assert (state (m_conn w) = conn_fread) as Hsw by (by rewrite H2).
  destruct (fread_part w done rest Hs Ha Hst Hsz Hrd0) as (inp & Hai & [(x & rest' & b & r & d & fs & rd & -> & Hsi & Hb & Hbl & Hpf & Hrd & Hx & Hsm & Hres)|(Hsi & Hsm & Hres)]); cycle 1.
  { apply (reach_flag _ _ _ _ _ (with_in w inp)); [done|unfold machine_round; by rewrite Hsw, Hres|].
    apply (IH (script_size inp) ltac:(lia) (with_in w inp) done rest eq_refl); done. }
  destruct (to_disk w inp fs b done x d rd Hs Hrd) as (tid & w2 & Hround & A1 & A2 & A3 & A4 & A5 & A6 & A7).
  assert (round w = Ret (to (with_srv (with_in w inp) (at0 fs (part_ctx f0 b size done x d) rd) (m_conn w0)) conn_n2dio, false)) as Hround1
    by (unfold machine_round; by rewrite Hsw, Hres).
  refine (reach_round _ _ _ _ _ _ _ H1 _ Hround1 _); [done|].
  apply (reach_flag _ _ _ _ _ w2); [done|done|].
  assert (ctx_of (m_srv w2) (m_conn w2) = Ret (part_ctx f0 b size done x d)) as Hc2.
  { rewrite A6, A2. change (ctx_of ?s c_disk) with (ctx_of s (m_conn w0)). by eapply ctx_srv_at. }
  assert (call_dio cf (denvs (m_tick w2)) (m_srv w2) (m_conn w2) = dio_write cf (denvs (m_tick w2)) (m_srv w2) (m_conn w2)) as Hcall.
  { unfold call_dio. rewrite Hc2. cbn [mbind outcome_bind]. change (f_dio_func (part_ctx f0 b size done x d)) with (f_dio_func f0). by rewrite Hdio. }
  assert (part_files fs0 path done d (sv_files (m_srv w2))) as Hpf2 by (by rewrite A6).
  pose proof (dio_store cf f0 fs0 size path old Hpath Hold Hflags HB (denvs (m_tick w2)) (m_srv w2) (m_conn w2) b done x r d (Henvs _) Hc2 Hpf2 Hb Hbl) as Hw. cbv zeta in Hw.
  rewrite <- Hcall in Hw. remember (call_dio cf (denvs (m_tick w2)) (m_srv w2) (m_conn w2)) as L eqn:EL. rewrite A6, A2 in Hw.
  change (put_ctx ?s c_disk) with (put_ctx s (m_conn w0)) in Hw. rewrite !files_srv_at in Hw. rewrite EL in Hw. clear L EL Hcall.
  rewrite zlen_app in Hsz. destruct (Z.ltb_spec (zlen (done ++ x)) size) as [Hlt|Hge].
  - assert (rest' <> []) as Hr' by (intros ->; rewrite zlen_nil in Hsz; rewrite zlen_app in Hlt; lia).
    rewrite back_conn in Hw. set (s3 := at0 _ _ tid) in Hw. set (w3 := with_at (next_tick (with_srv w2 s3 (m_conn w0))) AtBack).
    apply (reach_turn _ _ _ _ _ w3). { exists 0%nat. unfold turn. rewrite A1, Hw. done. }
    apply reach_back; [done|done|]. apply (IH (script_size inp)) with (done := done ++ x) (rest := rest').
    + subst k. apply Hsm. by destruct x.
    + by rewrite <- A3.
    + split; try done. exists (zeros (Z.to_nat (f_buff_size f0))), (Some (path, zlen (done ++ x))). do 2 eexists. split_and!; [reflexivity| | |lia|lia].
      * unfold zlen, zeros. rewrite length_replicate. lia.
      * right. by rewrite Hold.
    + by rewrite <- A3 in Hai.
    + cbn [w3 with_at next_tick with_srv m_in]. by rewrite A3.
    + rewrite zlen_app. lia.
    + by intros ->.
    + intros w4 t4 b4 x4 r4. rewrite <- (app_assoc done x rest'). apply HK.
  - assert (rest' = []) as -> by (apply zlen_zero; rewrite zlen_app in Hge; pose proof (zlen_pos rest'); lia). rewrite app_nil_r in *.
    apply (HK w2 tid b x tid); rewrite ?A3; done.
Qed.
End Copy.

(** ** Sending a response *)

(** The socket takes at least [k] bytes. *)
Fixpoint enough (out : list wres) (k : Z) : bool :=
  if k <=? 0 then true
  else match out with
       | WSent (S n) :: out' => enough out' (k - Z.of_nat (S n))
       | _ => false
       end.

Lemma enough_less out k k' : enough out k = true -> k' <= Z.max k 0 -> enough out k' = true.
Proof.
  revert k k'. induction out as [|[ [|n]|] out IH]; intros k k' H Hk; cbn in *; destruct (Z.leb_spec k' 0); try done; destruct (Z.leb_spec k 0); try lia; try done.
  eapply IH; [done|lia].
Qed.

(** The socket takes something in each of at least [k] calls. *)
Definition plenty (out : list wres) (k : Z) : Prop := Forall (fun x => exists n, x = WSent (S n)) out /\ k <= zlen out.

Lemma plenty_enough out k : plenty out k -> enough out k = true.
Proof.
  intros [Hf Hk]. revert k Hk. induction Hf as [|x out [n ->] _ IH]; intros k Hk; cbn; (destruct (Z.leb_spec k 0); [done|]); [unfold zlen in Hk; cbn in Hk; lia|].
  apply IH. rewrite zlen_cons in Hk. lia.
Qed.

Lemma plenty_tail x out k n : plenty (x :: out) k -> 1 <= n -> plenty out (k - n).
Proof. intros [Hf Hk] Hn. apply Forall_cons in Hf as [_ Hf]. split; [done|]. rewrite zlen_cons in Hk. lia. Qed.

(** What is still to be sent. *)
Definition unsent (c : conn) : bytes := drop (Z.to_nat (wused c)) (take (Z.to_nat (wbytes c)) (wbuff c)).

Lemma write_done fuel w : let c := m_conn w in 0 <= wused c <= wbytes c -> wbytes c <= zlen (wbuff c) -> enough (m_out w) (wbytes c - wused c) = true ->
  (length (m_out w) < fuel)%nat ->
  exists out, write_loop fuel w = Ret (with_conn (with_out w out (m_sent w ++ unsent c)) (with_sent c (wbytes c) (wbytes c)), WRITE_COMPLETE) /\
    forall k, plenty (m_out w) k -> plenty out (k - (wbytes c - wused c)).
Proof.
  revert w. induction fuel as [|fuel IH]; intros w c Hu Hw He Hf; [lia|]. cbn [write_loop]. fold c. unfold unsent.
  destruct (Z.ltb_spec 0 (wbytes c - wused c)) as [Hr|Hr].
  - cbn [m_out with_conn]. destruct (m_out w) as [|[ [|n]|] out] eqn:Eo; cbn [enough] in He; (destruct (Z.leb_spec (wbytes c - wused c) 0) as [|_]; [lia|]); try done.
    cbn [length] in Hf. cbn [sock_write]. set (k := Nat.min (S n) (Z.to_nat (wbytes c - wused c))). destruct (Nat.eqb_spec k 0) as [|Hk]; [lia|].
    assert (wused c + Z.of_nat k <= wbytes c) as Hk2 by lia. unfold buf_read at 1. cbn [wbuff wused with_sent]. unfold zlen in Hw.
    destruct (Z.leb_spec 0 (wused c)) as [_|]; [|lia]. destruct (Z.leb_spec (wused c + Z.of_nat k) (Z.of_nat (length (wbuff c)))) as [_|]; [|lia].
    cbn [andb mbind outcome_bind]. set (w1 := with_conn (with_out _ _ _) _).
    destruct (IH w1) as (out' & Hres & Hpl); cbn [w1 m_conn with_conn wused wbytes with_sent wbuff m_out with_out]; unfold zlen; try lia.
    { eapply enough_less; [exact He|lia]. }
    exists out'. split; [|intros j Hj; cbn in Hpl; replace (j - (wbytes c - wused c)) with (j - Z.of_nat k - (wbytes c - (wused c + Z.of_nat k))) by lia; apply Hpl; eapply plenty_tail; [exact Hj|lia]].
    rewrite Hres. assert (m_sent w1 ++ unsent (m_conn w1) = m_sent w ++ drop (Z.to_nat (wused c)) (take (Z.to_nat (wbytes c)) (wbuff c))) as ->; [|done].
    unfold w1, unsent. cbn [m_sent m_conn with_conn with_out wused wbytes wbuff with_sent]. clearbody k. rewrite <- app_assoc. f_equal.
    replace (Z.to_nat (wused c + Z.of_nat k)) with (Z.to_nat (wused c) + k)%nat by lia. rewrite <- drop_drop.
    set (b := take (Z.to_nat (wbytes c)) (wbuff c)). rewrite <- (take_drop k (drop (Z.to_nat (wused c)) b)) at 2. f_equal. unfold b.
    rewrite skipn_firstn_comm, take_take. f_equal. lia.
  - exists (m_out w). split; [|intros j Hj; replace (j - (wbytes c - wused c)) with j by lia; done]. assert (wused c = wbytes c) as E by lia. rewrite E. rewrite drop_ge by (rewrite length_take; lia). rewrite app_nil_r.
    done.
Qed.

Section Respond.
Context (cf : service_conf) (uninit : nat -> Z) (senvs : nat -> service_env) (denvs : nat -> dio_env).

Abbreviation round := (machine_round cf uninit senvs).

(** The connection after a response. *)
Definition idle_conn (c : conn) : conn :=
  mk_conn (sfd c) conn_read (nextto c) (Z.lor EV_READ EV_PERSIST) (zeros (Z.to_nat (rsize c))) 0 (rsize c) 0 0 (zeros (Z.to_nat (wsize c))) 0 (wsize c) 0 0 (fctx c).

Lemma update_ok w flags : m_ev w = [] -> exists ev, update_conn_event w flags = (with_conn (with_ev w ev) (with_flags (m_conn w) flags), 0) /\ ev = [].
Proof.
  intros He. exists []. split; [|done]. unfold update_conn_event. destruct (Z.eqb_spec (event_flags (m_conn w)) flags) as [<-|Hne].
  - destruct w as [sv c a i o t mm ev tk cu]. cbn in He. subst ev. by destruct c.
  - unfold pop_ev. rewrite He. cbn [pop_bool]. cbn [m_ev with_ev pop_bool]. unfold __update_conn_event. cbn [m_conn with_ev].
    destruct (Z.eqb_spec (event_flags (m_conn w)) flags); [done|]. done.
Qed.

Lemma reset_ok w f : ctx_of (m_srv w) (m_conn w) = Ret f ->
  reset w = Ret (with_srv w (put_ctx (m_srv w) (m_conn w) (file_ctx_buff_reset f))
    (mk_conn (sfd (m_conn w)) (state (m_conn w)) (nextto (m_conn w)) (event_flags (m_conn w)) (zeros (Z.to_nat (rsize (m_conn w)))) 0 (rsize (m_conn w)) 0 0
       (zeros (Z.to_nat (wsize (m_conn w)))) 0 (wsize (m_conn w)) 0 0 (fctx (m_conn w)))).
Proof.
  intros Hf. unfold reset, conn_reset, __conn_reset, on_fctx. unfold ctx_of in Hf. assert (fctx (m_conn w) = true) as Ht by (unfold get_fctx in Hf; by destruct (fctx (m_conn w))).
  rewrite Ht, Hf. cbn [mbind outcome_bind]. done.
Qed.

(** When everything has been sent the buffers are cleared and the connection
    waits for the next request. *)
Lemma to_idle w w1 f (P : machine -> Prop) : m_at w = AtNet -> m_at w1 = AtNet -> m_ev w1 = [] -> ctx_of (m_srv w1) (m_conn w1) = Ret f -> 0 <= rsize (m_conn w1) ->
  round w = after_write w1 WRITE_COMPLETE reset (fun _ => conn_waiting) ->
  (let w' := mk_machine (put_ctx (m_srv w1) (m_conn w1) (file_ctx_buff_reset f)) (idle_conn (m_conn w1)) AtNet (m_in w1) (m_out w1) (m_sent w1) (m_mem w1) [] (m_tick w1) (m_curr w1) in
   received w' [] -> P w') ->
  reach cf uninit senvs denvs w P.
Proof.
  intros Ha Ha1 He Hf1 Hr Hround HP. pose proof (reset_ok w1 f Hf1) as Hreset. set (w2 := with_srv w1 _ _) in Hreset.
  unfold after_write in Hround. rewrite Hreset in Hround. cbn [mbind outcome_bind] in Hround.
  destruct (update_ok (to w2 conn_waiting) (Z.lor EV_READ EV_PERSIST)) as (ev & Hup & ->); [done|].
  set (w3 := with_conn (with_ev _ _) _) in Hup. assert (round (to w2 conn_waiting) = Ret (to w3 conn_read, true)) as Hround2.
  { unfold machine_round. rewrite state_to, Hup. done. }
  refine (reach_round _ _ _ _ _ _ _ Ha _ Hround _); [done|]. apply (reach_flag_end _ _ _ _ _ (to w3 conn_read)); [done|done|].
  cbv zeta in HP. set (w4 := mk_machine _ _ _ _ _ _ _ _ _ _) in HP.
  assert (to w3 conn_read = w4) as ->.
  { unfold w4. rewrite <- Ha1. unfold to, w3, to. rewrite !set_conn_state_eq. reflexivity. }
  apply HP. split; try done; [by exists (zeros (Z.to_nat (rsize (m_conn w1))))|]. cbn. unfold zlen, zeros. rewrite length_replicate. lia.
Qed.

(** A response is sent and the connection waits for the next request. *)
Lemma respond w f (P : machine -> Prop) : m_at w = AtNet -> state (m_conn w) = conn_write -> m_ev w = [] -> ctx_of (m_srv w) (m_conn w) = Ret f ->
  wused (m_conn w) = 0 -> 0 <= wbytes (m_conn w) <= zlen (wbuff (m_conn w)) -> 0 <= rsize (m_conn w) -> enough (m_out w) (wbytes (m_conn w)) = true ->
  (forall out, let w' := mk_machine (put_ctx (m_srv w) (m_conn w) (file_ctx_buff_reset f)) (idle_conn (m_conn w)) AtNet (m_in w) out
           (m_sent w ++ take (Z.to_nat (wbytes (m_conn w))) (wbuff (m_conn w))) (m_mem w) [] (m_tick w) (m_curr w) in received w' [] -> P w') ->
  reach cf uninit senvs denvs w P.
Proof.
  intros Ha Hs He Hf Hu Hb Hr Hen HP. destruct (write_done (length (m_out w) + 2) w) as (out & Hw & _); rewrite ?Hu, ?Z.sub_0_r; try lia; [done|].
  set (w1 := with_conn (with_out w out _) _) in Hw. assert (m_sent w1 = m_sent w ++ take (Z.to_nat (wbytes (m_conn w))) (wbuff (m_conn w))) as Hsent.
  { cbn. unfold unsent. rewrite Hu. cbn [Z.to_nat]. by rewrite drop_0. }
  apply (to_idle w w1 f P Ha Ha He Hf Hr); [|cbv zeta; rewrite Hsent; exact (HP out)].
  unfold machine_round. rewrite Hs. unfold __network_write_noblock. rewrite Hw. done.
Qed.

(** The first part of an answer is sent; the second is [nextto]. *)
Lemma first_part w P : m_at w = AtNet -> state (m_conn w) = conn_mwrite -> wused (m_conn w) = 0 -> 0 <= wbytes (m_conn w) <= zlen (wbuff (m_conn w)) ->
  enough (m_out w) (wbytes (m_conn w)) = true ->
  (forall out, (forall k, plenty (m_out w) k -> plenty out (k - wbytes (m_conn w))) ->
     let w' := with_conn (with_out w out (m_sent w ++ take (Z.to_nat (wbytes (m_conn w))) (wbuff (m_conn w))))
                 (conn_write_reset (with_sent (m_conn w) (wbytes (m_conn w)) (wbytes (m_conn w)))) in
     reach cf uninit senvs denvs (to w' (nextto (m_conn w))) P) ->
  reach cf uninit senvs denvs w P.
Proof.
  intros Ha Hs Hu Hb Hen HP. destruct (write_done (length (m_out w) + 2) w) as (out & Hw & Hpl); rewrite ?Hu, ?Z.sub_0_r; try lia; [done|].
  rewrite Hu, Z.sub_0_r in Hpl. specialize (HP out Hpl). cbv zeta in HP. set (w' := with_conn _ _) in HP.
  assert (m_sent w ++ unsent (m_conn w) = m_sent w ++ take (Z.to_nat (wbytes (m_conn w))) (wbuff (m_conn w))) as E by (unfold unsent; by rewrite Hu, drop_0). rewrite E in Hw.
  refine (reach_round _ _ _ _ w (to w' (nextto (m_conn w))) _ Ha _ _ HP); [done|]. unfold machine_round. rewrite Hs. unfold __network_write_noblock. rewrite Hw. done.
Qed.
End Respond.

(** ** A copy of a file *)

Lemma set_sequence_max s ts : (if sv_sequence s <? ts then set_sequence s ts else s) = set_sequence s (Z.max (sv_sequence s) ts).
Proof. destruct (Z.ltb_spec (sv_sequence s) ts); [by rewrite Z.max_r by lia|]. rewrite Z.max_l by lia. by destruct s. Qed.

(** The end of a copy: a line in the log of the copies, and the answer. *)
Lemma async_done cf e s c f lines : dio_ok e -> ctx_of s c = Ret f -> f_op_func f = Some AsyncDone -> stored (sv_rdisk s) (sv_rbctx s) lines ->
  curr_binlog_file_index (sv_rbctx s) + 1 < 2 ^ 31 -> 10 <= zlen (wbuff c) ->
  exists d b, stored d b (lines ++ [record_line (f_create_timestamp f) FILE_OP_TYPE_CREATE_FILE (fn_id (f_names f))]) /\
    call_op_func cf e s c LFS_OK =
      Ret (set_sequence (set_rlog s d b) (Z.max (sv_sequence s) (f_create_timestamp f)),
           dio_notify_nio (with_write c (header_bytes 0 PROTOCOL_CMD_ASYNC_COPY_FILE 0 ++ drop 10 (wbuff c)) sizeof_protocol_header) conn_write (Z.lor EV_WRITE EV_PERSIST), true).
Proof.
  intros He Hf Ho Hst Hi Hw. set (line := record_line (f_create_timestamp f) FILE_OP_TYPE_CREATE_FILE (fn_id (f_names f))).
  assert (length line < 256)%nat as Hl by (unfold line, record_line; rewrite length_take; unfold BINLOG_RECORD_SIZE; lia).
  destruct (write_stored _ (dk_binlog e He) (dn_unlock (do_done e)) _ _ _ line Hst Hl Hi) as (d & b & Hwr & Hst' & _). exists d, b. split; [done|].
  unfold call_op_func. rewrite Hf. cbn [mbind outcome_bind]. rewrite Ho. unfold call_op, asyncfile_done_callback. rewrite Hf. cbn [mbind outcome_bind negb Z.eqb LFS_OK].
  fold line. rewrite Hwr. cbn [mbind outcome_bind]. rewrite (dk_unlock e He). cbn [negb Z.eqb]. unfold zlen in Hw. 
  pose proof (buf_write_behind [] (wbuff c) (header_bytes 0 PROTOCOL_CMD_ASYNC_COPY_FILE 0) ltac:(unfold zlen; cbn [length header_bytes le64 fmap list_fmap app]; lia)) as W.
  cbn [app] in W. change (0 + zlen (@nil Z)) with 0 in W. change PROTOCOL_RESP_STATUS_SUCCESS with 0. rewrite W. cbn [mbind outcome_bind]. cbv zeta. rewrite set_sequence_max. done.
Qed.

Definition mallocs_ok (e : service_env) : Prop := se_mal1 e = true /\ se_mal2 e = true.

(** The entry of the connection in the pool of file contexts. *)
Definition slot_ok (s : server) (c : conn) : Prop :=
  exists o, zlookup (sv_fctxs s) (sfd c) = Some o /\ forall f, o = Some f -> 0 < f_buff_size f < 2 ^ 31.

Lemma new_ctx_ok e s c opt : mallocs_ok e -> slot_ok s c ->
  exists f, new_ctx e s c opt = Ret (put_ctx s c (fctx_renew f opt), with_fctx c true, Some (fctx_renew f opt)) /\ 0 < f_buff_size f < 2 ^ 31 /\
    forall g, ctx_of (put_ctx s c g) (with_fctx c true) = Ret g.
Proof.
  intros [M1 M2] (o & Ho & Hb). unfold new_ctx, file_ctx_new. rewrite Ho.
  assert (forall g, ctx_of (put_ctx s c g) (with_fctx c true) = Ret g) as Hctx.
  { intros g. unfold ctx_of, get_fctx, put_ctx, put_fctx. cbn [fctx with_fctx sfd sv_fctxs set_fctxs]. erewrite zlookup_inserted by done. done. }
  destruct o as [f|].
  - exists f. cbn [mbind outcome_bind]. cbv zeta. change (set_fctxs s _) with (put_ctx s c (fctx_renew f opt)). rewrite Hctx. split_and!; try done; by apply Hb.
  - rewrite M1, M2. exists (zero_fctx DEFAULT_FILE_BUFF_SIZE opt []). cbn [andb mbind outcome_bind]. cbv zeta.
    change (set_fctxs s _) with (put_ctx s c (fctx_renew (zero_fctx DEFAULT_FILE_BUFF_SIZE opt []) opt)). rewrite Hctx. split_and!; done.
Qed.

(** The context a copy starts with. *)
Definition copy_start (f : file_ctx) (r : copy_ctx) : file_ctx :=
  mk_fctx None (Z.lor O_WRONLY O_CREAT) (-1, -1, -1) FILE_OP_TYPE_READ (cp_timestamp r) (f_modify_timestamp f) 0 (mk_fnames [] [] [] (cp_path r) (cp_id r) [])
    (mk_fpos 0 (cp_size r) 0 0 0 0) (f_buff_size f) (zeros (Z.to_nat (f_buff_size f))) (Some DioWrite) (Some AsyncDone) true.

Lemma dispatch_copy cf e s c r : mallocs_ok e -> slot_ok s c -> handle_cmd_asynccopyfile (sv_mounts s) (req_body c) = Ret (Some r) ->
  exists f, dispatch_cmd cf e s c PROTOCOL_CMD_ASYNC_COPY_FILE =
    Ret (put_ctx s c (copy_start f r), set_conn_state (with_fctx c true) conn_fread) /\ 0 < f_buff_size f < 2 ^ 31 /\
    forall g, ctx_of (put_ctx s c g) (with_fctx c true) = Ret g.
Proof.
  intros Hm Hs Hr. destruct (new_ctx_ok e s c FILE_OP_TYPE_READ Hm Hs) as (f & Hnew & Hb & Hctx). exists f. split; [|done].
  unfold dispatch_cmd. cbn [Z.eqb PROTOCOL_CMD_ASYNC_COPY_FILE PROTOCOL_CMD_FILE_UPLOAD PROTOCOL_CMD_FILE_DOWNLOAD Pos.eqb].
  unfold cmd_asynccopyfile. rewrite Hnew. cbn [mbind outcome_bind]. change (sv_mounts (put_ctx s c (fctx_renew f FILE_OP_TYPE_READ))) with (sv_mounts s).
  rewrite Hr. cbn [mbind outcome_bind]. cbn [negb Z.eqb PROTOCOL_RESP_STATUS_SUCCESS]. unfold put_ctx. cbn [sv_fctxs set_fctxs].
  change (put_fctx ?p (with_fctx c true)) with (put_fctx p c). rewrite put_put_fctx. done.
Qed.

(** ** Runs of a copy *)

(** What a server that is well has around a connection: threads, memory, disks
    and a log that takes lines. *)
Record well (cf : service_conf) (senvs : nat -> service_env) (denvs : nat -> dio_env) (w : machine) : Prop := {
  wl_threads : threads_ok cf;
  wl_mallocs : forall i, mallocs_ok (senvs i);
  wl_disk : forall i, dio_ok (denvs i);
  wl_slot : slot_ok (m_srv w) (m_conn w);
  wl_reader : 0 <= sv_reader (m_srv w) < sc_read_threads cf;
  wl_wbuff : 24 <= zlen (wbuff (m_conn w));
  wl_wused : wused (m_conn w) = 0
}.

Section CopyRun.
Context (cf : service_conf) (uninit : nat -> Z) (senvs : nat -> service_env) (denvs : nat -> dio_env).

(** What a copy changes. *)
Record copied (w : machine) (path data id : bytes) (ts : Z) (lines : list bytes) (w' : machine) : Prop := {
  cd_ready : received w' [];
  cd_files : sv_files (m_srv w') = <[path := data ++ drop (length data) (default [] (sv_files (m_srv w) !! path))]> (sv_files (m_srv w));
  cd_log : stored (sv_rdisk (m_srv w')) (sv_rbctx (m_srv w')) (lines ++ [record_line ts FILE_OP_TYPE_CREATE_FILE id]);
  cd_local : sv_disk (m_srv w') = sv_disk (m_srv w) /\ sv_bctx (m_srv w') = sv_bctx (m_srv w) /\ sv_mounts (m_srv w') = sv_mounts (m_srv w);
  cd_sequence : sv_sequence (m_srv w') = Z.max (sv_sequence (m_srv w)) ts;
  cd_sent : exists padding, m_sent w' = m_sent w ++ header_bytes 0 PROTOCOL_CMD_ASYNC_COPY_FILE 0 ++ padding /\ length padding = 6%nat;
  cd_input : stream (m_in w') = []
}.

(** The handler's part of a copy: from the request in the buffer to the end. *)
Lemma copy_data w0 f r data lines (P : machine -> Prop) : threads_ok cf -> (forall i, dio_ok (denvs i)) -> m_at w0 = AtNet -> m_ev w0 = [] ->
  state (m_conn w0) = conn_fread -> event_flags (m_conn w0) = Z.lor EV_READ EV_PERSIST -> 0 < f_buff_size f < 2 ^ 31 ->
  ctx_of (m_srv w0) (m_conn w0) = Ret (copy_start f r) -> put_ctx (m_srv w0) (m_conn w0) (copy_start f r) = m_srv w0 ->
  0 <= sv_reader (m_srv w0) < sc_read_threads cf -> arrives (m_in w0) -> stream (m_in w0) = data -> cp_size r = zlen data ->
  stored (sv_rdisk (m_srv w0)) (sv_rbctx (m_srv w0)) lines -> curr_binlog_file_index (sv_rbctx (m_srv w0)) + 1 < 2 ^ 31 ->
  16 <= zlen (wbuff (m_conn w0)) -> wused (m_conn w0) = 0 -> 0 <= rsize (m_conn w0) -> enough (m_out w0) 16 = true ->
  (forall w', copied w0 (cp_path r) data (cp_id r) (cp_timestamp r) lines w' -> P w') ->
  reach cf uninit senvs denvs w0 P.
Proof.
  intros Ht Hd Ha He Hs Hfl HB Hctx Hput Hrd Harr Hst Hsz Hlog Hidx Hwb Hwu Hrs Hen HP.
  set (fs0 := sv_files (m_srv w0)). set (path := cp_path r). set (old := default [] (fs0 !! path)).
  apply (store_file cf uninit senvs denvs (copy_start f r) (copy_start f r) fs0 (cp_size r) path old w0 eq_refl eq_refl eq_refl HB eq_refl eq_refl Ht Hd Hctx Hs Hfl w0 [] data);
    [|done|done|by rewrite Hsz|done|].
  { split; try done. exists (zeros (Z.to_nat (f_buff_size f))), None, fs0, (sv_reader (m_srv w0)). split_and!; [|unfold zlen, zeros; rewrite length_replicate; cbn; lia|by left|lia|lia].
    unfold srv_at, fs0. rewrite <- Hput at 1. change (part_ctx _ _ _ _ _ _) with (copy_start f r). by destruct (m_srv w0). }
  intros w2 tid b x rd A1 A2 A3 (A4 & A5 & A6) A7 A8 A9 A10 Hcall. cbn [app] in Hcall. set (s1 := srv_at _ _ _ _ rd) in Hcall.
  set (c2 := with_state (m_conn w0) conn_n2dio) in *. set (fin := stored_ctx (copy_start f r) (cp_size r) b data x) in *.
  assert (ctx_of s1 c2 = Ret fin) as Hfin by (change (ctx_of s1 c2) with (ctx_of s1 (m_conn w0)); by eapply ctx_srv_at).
  destruct (async_done cf (denvs (m_tick w2)) s1 c2 fin lines (Hd _) Hfin eq_refl Hlog Hidx) as (d' & b' & Hlog' & Hdone); [change (wbuff c2) with (wbuff (m_conn w0)); lia|].
  rewrite Hdone in Hcall. clear Hdone. set (s3 := set_sequence _ _) in Hcall. set (c3 := dio_notify_nio _ _ _) in Hcall.
  apply (reach_turn _ _ _ _ _ (with_at (next_tick (with_srv w2 s3 c3)) AtBack)). { exists 0%nat. unfold turn. rewrite A1, Hcall. done. }
  apply reach_back; [done|done|]. set (w4 := with_at _ AtNet). assert (ctx_of (m_srv w4) (m_conn w4) = Ret fin) as Hf4 by exact Hfin.
  assert (zlen (wbuff (m_conn w4)) = zlen (wbuff (m_conn w0))) as Hwl.
  { change (wbuff (m_conn w4)) with (header_bytes 0 PROTOCOL_CMD_ASYNC_COPY_FILE 0 ++ drop 10 (wbuff (m_conn w0))).
    unfold zlen in *. rewrite length_app, length_drop. change (length (header_bytes _ _ _)) with 10%nat. lia. }
  apply (respond cf uninit senvs denvs w4 fin); try done; [rewrite Hwl; change (wbytes (m_conn w4)) with 16; lia|cbn; by rewrite A4|].
  intros out w' Hr'. apply HP. split; [exact Hr'|reflexivity|exact Hlog'|done|reflexivity| |exact A7].
  exists (take 6 (drop 10 (wbuff (m_conn w0)))). split; [|rewrite length_take, length_drop; unfold zlen in Hwb; lia].
  cbn [w' m_sent w4 with_at next_tick with_srv m_conn c3 dio_notify_nio with_flags with_state with_states with_write wbuff wbytes]. rewrite A5. f_equal.
Qed.

(** What the handlers find in a connection that has received a request. *)
Lemma req_body_handed w cmd st padding body : received w (message cmd st padding body) -> length padding = 6%nat ->
  exists t, req_body (handed w (zlen body)) = body ++ t.
Proof.
  intros [_ _ _ _ _ [t Ht] _ _] Hp. exists t. unfold req_body, handed. cbn [rcurr rbuff with_read]. rewrite Ht, message_split.
  rewrite <- app_assoc. apply drop_app_length'. pose proof (zlen_head16 cmd st padding body Hp) as H. unfold zlen in H. unfold sizeof_protocol_header. lia.
Qed.

(** A request to copy a file, and the file behind it. *)
Lemma copy_run w d0 rest st padding body r data lines (P : machine -> Prop) : well cf senvs denvs w -> received w [] -> m_in w = RData d0 :: rest -> arrives (m_in w) ->
  (16 <= length d0)%nat -> stream (m_in w) = message PROTOCOL_CMD_ASYNC_COPY_FILE st padding body ++ data -> length padding = 6%nat ->
  zlen body <= MAX_PACKAGE_DATA_SIZE -> 16 + zlen body <= rsize (m_conn w) ->
  (forall t, handle_cmd_asynccopyfile (sv_mounts (m_srv w)) (body ++ t) = Ret (Some r)) -> cp_size r = zlen data ->
  stored (sv_rdisk (m_srv w)) (sv_rbctx (m_srv w)) lines -> curr_binlog_file_index (sv_rbctx (m_srv w)) + 1 < 2 ^ 31 -> enough (m_out w) 16 = true ->
  (forall w', copied w (cp_path r) data (cp_id r) (cp_timestamp r) lines w' -> P w') ->
  reach cf uninit senvs denvs w P.
Proof.
  intros [W1 W2 W3 W4 W5 W6 W7] Hr Hin Ha Hd0 Hst Hp Hmax Hsz Hreq Hcp Hlog Hidx Hen HP.
  apply (read_request cf uninit senvs denvs w d0 rest _ _ _ _ _ _ Hr Hin Ha Hd0 Hst Hp Hmax Hsz). intros w2 Hr2 (S1 & S2 & S3 & S4 & S5 & S6 & S7) Ha2 Hst2.
  destruct (req_body_handed w2 _ _ _ _ Hr2 Hp) as (t & Ht). set (c2 := handed w2 (zlen body)) in *.
  assert (c2 = with_read (with_state (m_conn w) conn_parse_cmd) (rbuff (m_conn w2)) 16 (rsize (m_conn w)) (zlen body)) as Hc2.
  { unfold c2, handed, in_parse, to. rewrite set_conn_state_eq. cbn [m_conn with_conn]. rewrite S7. done. }
  assert (slot_ok (m_srv w) c2) as Hslot by (rewrite Hc2; done).
  destruct (dispatch_copy cf (senvs (m_tick w2)) (m_srv w) c2 r (W2 _) Hslot) as (f & Hdis & HB & Hctx); [by rewrite Ht|].
  pose proof (round_dispatch cf uninit senvs w2 _ _ _ _ Hr2 Hp ltac:(done) Hmax) as Hround. fold c2 in Hround. rewrite S1, Hdis in Hround. cbn [mbind outcome_bind] in Hround.
  set (w0 := next_tick _) in Hround. refine (reach_round _ _ _ _ (in_parse w2) w0 P _ _ Hround _); [exact (rc_at _ _ Hr2)|exact (rc_at _ _ Hr2)|].
  assert (m_conn w0 = with_state (with_fctx c2 true) conn_fread) as Hc0 by (cbn; by rewrite set_conn_state_eq).
  apply (copy_data w0 f r data lines P); try done; rewrite ?Hc0, ?Hc2; try done.
  - exact (rc_at _ _ Hr2).
  - exact (rc_ev _ _ Hr2).
  - exact (rc_flags _ _ Hr).
  - rewrite <- Hc2. exact (Hctx _).
  - unfold w0. cbn [m_srv next_tick with_srv]. unfold put_ctx. rewrite Hc2. unfold set_fctxs. cbn [sv_fctxs]. change (put_fctx ?p (with_state ?c ?x)) with (put_fctx p c).
    change (put_fctx ?p (with_fctx ?c ?x)) with (put_fctx p c). by rewrite put_put_fctx.
  - cbn [wbuff with_state with_states with_fctx with_read]. lia.
  - cbn [rsize with_state with_states with_fctx with_read]. pose proof (zlen_pos body). lia.
  - change (m_out w0) with (m_out w2). by rewrite S2.
  - intros w' [C1 C2 C3 C4 C5 C6 C7]. apply HP. split; try done. change (m_sent w0) with (m_sent w2) in C6. by rewrite S3 in C6.
Qed.
End CopyRun.

(** ** Theorems: replication *)

(** C10. A master sends the request of a record of a file on one of the first ten
    mount points, and the bytes of the file, in whatever pieces (the header in
    one), and the slave has memory and a disk that works: the file at the path of
    the record below the slave's own mount then begins with these bytes, and what
    an older and longer file there had behind them stays; no other file changes.
    The log of copies has one more line, the sequence of the slave is the larger of
    its own and the record's, the answer is a success, and the connection is idle
    again. *)
Theorem replica_stored cf uninit senvs denvs w bs i blk path r data group volume name lines d0 rest req : well cf senvs denvs w -> received w [] ->
  mounted (sv_mounts (m_srv w)) bs -> bs !! Z.to_nat i = Some blk -> 0 <= i < 10 -> c_string (mount_path blk) = Ret path ->
  is_s 64 (sequence r) -> is_s 64 (zlen data) -> f_id r = file_id group volume i name -> f_id_length r = zlen (f_id r) ->
  (forall z, z = LFS_FILE_ID_SEPERATOR \/ z = 0 -> lacks z group /\ lacks z volume) -> no_nul name ->
  (length (file_id group volume i name) < LFS_FILE_ID_SIZE)%nat ->
  (length (volume ++ LFS_FILE_ID_SEPERATOR :: (chr "B" :: pr_02X i) ++ LFS_FILE_ID_SEPERATOR :: name) < LFS_FILE_NAME_SIZE)%nat ->
  (length (path ++ [LFS_FILE_ID_SEPERATOR] ++ name) < LFS_FILE_BLOCK_MAP_NAME_SIZE)%nat ->
  stored (sv_rdisk (m_srv w)) (sv_rbctx (m_srv w)) lines -> curr_binlog_file_index (sv_rbctx (m_srv w)) + 1 < 2 ^ 31 ->
  async_request r (zlen data) = Ret (req, zlen req) -> stream (m_in w) = req ++ data ->
  m_in w = RData d0 :: rest -> arrives (m_in w) -> (16 <= length d0)%nat -> zlen req <= rsize (m_conn w) -> enough (m_out w) 16 = true ->
  reach cf uninit senvs denvs w (copied w (path ++ [LFS_FILE_ID_SEPERATOR] ++ name) data (f_id r) (sequence r) lines).
Proof.
  intros Hwell Hr Hm Hblk Hi Hpath Hts Hsz Hid Hidl Hgv Hn Hl1 Hl2 Hl3 Hlog Hidx Hreq Hst Hin Ha Hd0 Hrs Hen.
  assert (zlen (f_id r) < 256) as Hz by (rewrite Hid; unfold zlen, LFS_FILE_ID_SIZE in *; lia).
  destruct (copy_request_bytes r (zlen data) Hidl Hz) as [Hb Hbl]. rewrite Hb in Hreq. injection Hreq as <- Hrl. set (body := copy_request_body r (zlen data)) in *.
  apply (copy_run cf uninit senvs denvs w d0 rest 0 (zeros 6) body (mk_copy (sequence r) (f_id r) (zlen data) (path ++ [LFS_FILE_ID_SEPERATOR] ++ name)) data lines); try done.
  - unfold MAX_PACKAGE_DATA_SIZE. lia.
  - lia.
  - intros t. by eapply copy_request_read.
Qed.

(** ** Examples *)

Definition demo_sconf : service_conf :=
  mk_sconf (str "g1") (str "v1") (SpecFloat.S754_zero false) 256 256 1 (str "/b/binlog.bat") (str "/b/rbinlog.bat") 2 1 8 (fun b => b) (fun _ => Ret []).

(** A server with two mounts, an empty log, and a context with a buffer of two
    bytes for the third socket. *)
Definition demo_server (fs : files) : server :=
  mk_server [None; None; None; Some (zero_fctx 2 FILE_OP_TYPE_READ [])] demo_mounts fs demo_disk (demo_bctx []) demo_disk (demo_bctx []) 3 0.

Definition demo_conn : conn := mk_conn 3 conn_read conn_read (Z.lor EV_READ EV_PERSIST) (zeros 400) 0 400 0 0 (zeros 64) 0 64 0 0 false.

Definition demo_net (fs : files) (inp : list rres) : machine := mk_machine (demo_server fs) demo_conn AtNet inp [WSent 10; WSent 60; WSent 60; WSent 60; WSent 60] [] [] [] 0 1.

Definition demo_senvs (_ : nat) : service_env := mk_svenv true true demo_vfs 1000 7 12.
Definition demo_denvs (_ : nat) : dio_env := mk_dioenv 0 true 0 true (fun n => n) 0 (mk_donenv 0 demo_benv None 1000 true (demo_senvs 0)).

Lemma demo_well fs inp : well demo_sconf demo_senvs demo_denvs (demo_net fs inp).
Proof.
  split; try done.
  - exists (Some (zero_fctx 2 FILE_OP_TYPE_READ [])). split; [done|]. intros f Hf. injection Hf as <-. done.
Qed.

Lemma demo_received fs inp : received (demo_net fs inp) [].
Proof. split; try done. by exists (zeros 400). Qed.

Lemma demo_rlog : stored demo_disk (demo_bctx []) demo_chunk.
Proof. exists [demo_chunk], []. split_and!; [apply holds_one|done|done]. Qed.

Definition demo_request : bytes := match async_request (demo_rec 7 "00/00/b") 5 with Ret (req, _) => req | Crash _ => [] end.
Definition demo_input : list rres := [RData (take 20 demo_request); RErr EAGAIN; RData (drop 20 demo_request ++ [1]); RData [2; 3; 4]; RErr EAGAIN; RData [5] ].

Lemma replica_stored_witness :
  reach demo_sconf (fun _ => 0) demo_senvs demo_denvs (demo_net ∅ demo_input)
    (copied (demo_net ∅ demo_input) (str "/d2/00/00/b") [1; 2; 3; 4; 5] (demo_fid "00/00/b") 7 demo_chunk).
Proof.
  eapply (replica_stored demo_sconf (fun _ => 0) demo_senvs demo_denvs (demo_net ∅ demo_input) demo_blocks 1 _ (str "/d2") (demo_rec 7 "00/00/b") [1; 2; 3; 4; 5]
    (str "g1") (str "v1") (str "00/00/b") demo_chunk (take 20 demo_request) _ demo_request (demo_well _ _) (demo_received _ _) demo_mounted);
    [reflexivity|lia|by vm_compute|by vm_compute|by vm_compute|done|done| |by repeat constructor|by apply Nat.ltb_lt..|exact demo_rlog|done|by vm_compute|by vm_compute|reflexivity| | |by vm_compute|done].
  - intros z [->| ->]; split; repeat constructor; vm_compute; discriminate.
  - unfold demo_input. repeat (apply arrives_cons; split; [first [left; eexists; split; [reflexivity|vm_compute; discriminate]|by right]|]). constructor.
  - vm_compute. lia.
Defined.
