(* ===== verification/DsSend.v ===== *)
(** * What a data server sends, and how a connection is lost

    The second part of the theorems about [DsNet]: downloads, the files and logs
    a new server asks its master for, and the requests that bring the server
    down or leave a connection that nobody serves. *)
From S2P Require Import Prelude Codec CString Lines ListH TsQueue TsConn Protocol TsThread DsBlock DsBinlog ClientIo DsSync DsFile DsConn DsService DsDiskIo DsNet DsServe.

(** ** A file from the disk to the socket *)

(** The context of a file of which [k] bytes have been sent, with [x] in the
    buffer of which [j] bytes have been sent. *)
Definition sent_ctx (f0 : file_ctx) (b : bytes) (size k : Z) (x j : Z) : file_ctx :=
  set_fd (set_pos (set_buff f0 b) (mk_fpos k size k 0 j x)) None.

Section Download.
Context (cf : service_conf) (uninit : nat -> Z) (senvs : nat -> service_env) (denvs : nat -> dio_env).
Context (f0 : file_ctx) (s0 : server) (size : Z) (path file : bytes) (sent0 : bytes).
Hypothesis (Hpath : fn_block_map (f_names f0) = path) (Hfile : sv_files s0 !! path = Some file) (HB : 0 < f_buff_size f0 < 2 ^ 31)
  (Hdio : f_dio_func f0 = Some DioRead) (Hop : f_op_func f0 = Some DownloadDone) (Htype : f_op_type f0 = FILE_OP_TYPE_READ)
  (Hthreads : threads_ok cf) (Henvs : forall i, dio_ok (denvs i)) (Hsize : size <= zlen file).

Abbreviation round := (machine_round cf uninit senvs).

(** The server is [s0] but for the context of the connection and the last
    reader. *)
Definition only_ctx (s : server) : Prop :=
  sv_files s = sv_files s0 /\ sv_mounts s = sv_mounts s0 /\ sv_disk s = sv_disk s0 /\ sv_bctx s = sv_bctx s0 /\ sv_rdisk s = sv_rdisk s0 /\ sv_rbctx s = sv_rbctx s0 /\
  sv_sequence s = sv_sequence s0.

Lemma only_ctx_put s c f : only_ctx s -> only_ctx (put_ctx s c f).
Proof. done. Qed.

Lemma only_ctx_reader s n : only_ctx s -> only_ctx (set_reader s n).
Proof. done. Qed.

(** The connection is with a disk thread and [k] bytes of the file have been
    sent. *)
Record sending (w : machine) (k : Z) : Prop := {
  sd_at : exists tid, m_at w = AtDisk tid;
  sd_ev : m_ev w = [];
  sd_ctx : exists b, ctx_of (m_srv w) (m_conn w) = Ret (sent_ctx f0 b size k 0 0) /\ zlen b = f_buff_size f0;
  sd_srv : only_ctx (m_srv w);
  sd_reader : 0 <= sv_reader (m_srv w) < sc_read_threads cf;
  sd_sent : m_sent w = sent0 ++ take (Z.to_nat k) file;
  sd_out : plenty (m_out w) (size - k);
  sd_k : 0 <= k
}.

(** The next block of the file, as it is read into the buffer. *)
Definition block_of (k : Z) : bytes := take (Z.to_nat (Z.min (f_buff_size f0) (size - k))) (drop (Z.to_nat k) file).

Lemma zlen_block k : 0 <= k < size -> 0 < zlen (block_of k) <= f_buff_size f0 /\ zlen (block_of k) = Z.min (f_buff_size f0) (size - k).
Proof. intros Hk. unfold block_of, zlen in *. rewrite length_take, length_drop. lia. Qed.

Lemma fill_block e b k : dio_ok e -> 0 <= k < size -> zlen b = f_buff_size f0 ->
  let x := block_of k in
  exists d, dio_fill e (sv_files s0) (sent_ctx f0 b size k 0 0) =
    Ret (sv_files s0, set_fd (sent_ctx f0 (x ++ drop (length x) b) size k (zlen x) 0) d, LFS_OK, true).
Proof.
  intros He Hk Hb x. destruct (zlen_block k Hk) as [Hx1 Hx2]. fold x in Hx1, Hx2. eexists. unfold dio_fill.
  cbn [f_pos sent_ctx set_fd set_pos p_size p_offset]. destruct (Z.leb_spec size k); [lia|].
  unfold __open_file. cbn [fd sent_ctx set_fd f_names set_pos set_buff f_op_flags]. rewrite Hpath. unfold open_flags. rewrite (dk_open e He). cbn [negb Z.eqb]. rewrite Hfile.
  cbn [negb Z.eqb]. rewrite (dk_lseek e He). cbn [negb]. rewrite andb_false_r. cbn [LFS_OK negb Z.eqb fd set_fd get_or mbind outcome_bind].
  unfold open_content. rewrite Hfile. cbn [get_or mbind outcome_bind]. cbn [f_buff_size set_fd set_pos set_buff p_buff_offset f_pos f_buff].
  change (f_buff_size (sent_ctx f0 b size k 0 0)) with (f_buff_size f0). change (f_buff (sent_ctx f0 b size k 0 0)) with b. rewrite Z.sub_0_r. rewrite (s_wrap_id 32 (f_buff_size f0)) by (try done; unfold is_s; lia). rewrite (s_wrap_id 32 (Z.min _ _)) by (try done; unfold is_s; lia).
  assert (take (Z.to_nat (Z.min (f_buff_size f0) (size - k))) (drop (Z.to_nat (if 0 <? k then k else 0)) file) = x) as ->.
  { unfold x, block_of. by destruct (Z.ltb_spec 0 k); [|replace k with 0 by lia]. }
  rewrite (dk_read e He), <- Hx2, Z.eqb_refl. cbn [andb].
  pose proof (buf_write_behind [] b x ltac:(lia)) as W. cbn [app] in W. change (0 + zlen (@nil Z)) with 0 in W. rewrite W. cbn [mbind outcome_bind]. reflexivity.
Qed.

Lemma dio_read_block e s c b k : dio_ok e -> only_ctx s -> ctx_of s c = Ret (sent_ctx f0 b size k 0 0) -> 0 <= k < size -> zlen b = f_buff_size f0 ->
  let x := block_of k in
  dio_read cf e s c = Ret (put_ctx s c (sent_ctx f0 (x ++ drop (length x) b) size k (zlen x) 0), dio_notify_nio c conn_fwrite (Z.lor EV_WRITE EV_PERSIST), true).
Proof.
  intros He Ho Hc Hk Hb x. destruct (fill_block e b k He Hk Hb) as (d & Hfill). unfold dio_read. rewrite Hc. cbn [mbind outcome_bind]. destruct Ho as (Ho & _). rewrite Ho, Hfill.
  cbn [mbind outcome_bind]. fold x. set (f := set_fd (set_fd _ d) None). set (c1 := dio_notify_nio _ _ _).
  assert (put_ctx (set_sv_files s (sv_files s0)) c1 f = put_ctx s c f) as -> by (rewrite <- Ho; by destruct s).
  assert (ctx_of (put_ctx s c f) c1 = Ret f) as Hf.
  { unfold ctx_of in *. change (get_fctx ?p c1) with (get_fctx p c). by eapply get_put_fctx. }
  unfold call_op_func. rewrite Hf. cbn [mbind outcome_bind]. change (f_op_func f) with (f_op_func f0). rewrite Hop. done.
Qed.

Lemma take_range (b x r : bytes) (j n : nat) : b = x ++ r -> (j + n <= length x)%nat -> take n (drop j b) = take n (drop j x).
Proof. intros -> H. rewrite drop_app_le by lia. apply take_app_le. rewrite length_drop. lia. Qed.

(** The network thread sends what is in the buffer. *)
Lemma fwrite_done fuel w b x r k j K : ctx_of (m_srv w) (m_conn w) = Ret (sent_ctx f0 b size (k + j) (zlen x) j) -> only_ctx (m_srv w) -> b = x ++ r ->
  zlen b = f_buff_size f0 -> 0 <= j <= zlen x -> plenty (m_out w) K -> zlen x - j <= K -> (length (m_out w) < fuel)%nat ->
  exists out s, fwrite_loop fuel w = Ret (with_srv (with_out w out (m_sent w ++ drop (Z.to_nat j) x)) s (m_conn w), WRITE_COMPLETE) /\
    ctx_of s (m_conn w) = Ret (sent_ctx f0 b size (k + zlen x) (zlen x) (zlen x)) /\ only_ctx s /\ sv_reader s = sv_reader (m_srv w) /\ plenty out (K - (zlen x - j)).
Proof.
  revert w j K. induction fuel as [|fuel IH]; intros w j K Hc Ho Hb Hbl Hj Hpl HK Hf; [lia|]. cbn [fwrite_loop]. rewrite Hc. cbn [mbind outcome_bind]. cbv zeta.
  cbn [f_pos sent_ctx set_fd set_pos p_buff_offset p_rwoffset].
  assert (zlen x <= f_buff_size f0) as Hx by (rewrite <- Hbl, Hb, zlen_app; pose proof (zlen_pos r); lia). rewrite s_wrap_id by (unfold is_s; lia).
  destruct (Z.ltb_spec 0 (zlen x - j)) as [Hr|Hr].
  - destruct (m_out w) as [|y out] eqn:Eo; [destruct Hpl as [_ Hpl]; unfold zlen in Hpl; cbn in Hpl; unfold zlen in *; lia|].
    pose proof Hpl as [Hfa _]. apply Forall_cons in Hfa as [[n ->] _]. cbn [sock_write]. set (m := Nat.min (S n) (Z.to_nat (zlen x - j))).
    destruct (Nat.eqb_spec m 0) as [|Hm]; [lia|]. assert (j + Z.of_nat m <= zlen x) as Hm2 by lia. clearbody m.
    cbn [f_buff sent_ctx set_fd set_pos set_buff]. unfold buf_read. destruct (Z.leb_spec 0 j) as [_|]; [|lia].
    destruct (Z.leb_spec (j + Z.of_nat m) (Z.of_nat (length b))) as [_|Hbad]; [|unfold zlen in *; lia]. cbn [andb mbind outcome_bind].
    rewrite (take_range b x r) by (done || unfold zlen in *; lia).
    set (f1 := set_pos _ _). set (w1 := with_srv _ _ _).
    assert (ctx_of (m_srv w1) (m_conn w1) = Ret f1) as Hc1 by (unfold ctx_of in *; cbn; by eapply get_put_fctx).
    destruct (IH w1 (j + Z.of_nat m) (K - Z.of_nat m)) as (out' & s' & Hres & R1 & R2 & R3 & R4); try done; try lia.
    { rewrite Hc1. unfold f1, sent_ctx. cbn. rewrite Z.add_assoc. done. }
    { cbn. eapply plenty_tail; [exact Hpl|lia]. }
    { cbn [w1 m_out with_srv with_out]. cbn [length] in Hf. lia. }
    exists out', s'. rewrite Hres. split_and!; [|done|done|by rewrite R3|by replace (K - (zlen x - j)) with (K - Z.of_nat m - (zlen x - (j + Z.of_nat m))) by lia].
    do 2 f_equal. assert (m_sent w1 ++ drop (Z.to_nat (j + Z.of_nat m)) x = m_sent w ++ drop (Z.to_nat j) x) as ->; [|done].
    unfold w1. cbn [m_sent with_srv with_out]. rewrite <- app_assoc. f_equal. replace (Z.to_nat (j + Z.of_nat m)) with (Z.to_nat j + m)%nat by lia.
    rewrite <- drop_drop. apply take_drop.
  - assert (j = zlen x) as -> by lia. exists (m_out w), (m_srv w). rewrite drop_ge by (unfold zlen; lia). rewrite app_nil_r. split_and!; try done.
    + by destruct w.
    + replace (K - (zlen x - zlen x)) with K by lia. done.
Qed.

(** When everything has been sent the disk thread does nothing: the connection is
    not handed back. *)
Lemma dio_read_end e s c b : ctx_of s c = Ret (sent_ctx f0 b size size 0 0) -> only_ctx s ->
  exists s', dio_read cf e s c = Ret (s', c, false) /\ only_ctx s'.
Proof.
  intros Hc Ho. unfold dio_read. rewrite Hc. cbn [mbind outcome_bind]. unfold dio_fill. cbn [f_pos sent_ctx set_fd set_pos p_size p_offset]. rewrite Z.leb_refl.
  cbn [mbind outcome_bind]. set (s1 := put_ctx _ _ _). assert (only_ctx s1) as Ho1 by (destruct Ho; done). exists s1. split; [|done].
  assert (ctx_of s1 c = Ret (set_fd (sent_ctx f0 b size size 0 0) None)) as Hc1 by (unfold ctx_of in *; cbn; by eapply get_put_fctx).
  unfold call_op_func. rewrite Hc1. cbn [mbind outcome_bind]. change (f_op_func (set_fd _ None)) with (f_op_func f0). rewrite Hop. done.
Qed.

(** The connection goes to a disk thread. *)
Lemma to_reader w f : m_at w = AtNet -> m_ev w = [] -> ctx_of (m_srv w) (m_conn w) = Ret f -> f_op_type f = FILE_OP_TYPE_READ ->
  0 <= sv_reader (m_srv w) < sc_read_threads cf ->
  exists tid, 0 <= tid < sc_read_threads cf /\
    round (to w conn_n2dio) = Ret (with_at (with_srv (with_ev (to w conn_n2dio) []) (set_reader (m_srv w) tid) (with_state (m_conn w) conn_n2dio)) (AtDisk tid), true).
Proof.
  intros Ha He Hc Ht Hr. destruct (polling_reader cf (m_srv w) (with_state (m_conn w) conn_n2dio) f Hthreads Hc Ht Hr) as (tid & Hp & Hb). exists tid. split; [done|].
  unfold machine_round. rewrite state_to. unfold dio_thread_pool_dispatch, pop_ev. change (m_ev (to w conn_n2dio)) with (m_ev w). rewrite He. cbn [pop_bool negb del_conn_event Z.eqb].
  change (m_srv (with_ev (to w conn_n2dio) [])) with (m_srv w).
  assert (m_conn (with_ev (to w conn_n2dio) []) = with_state (m_conn w) conn_n2dio) as -> by (unfold to; by rewrite set_conn_state_eq).
  rewrite Hp. done.
Qed.

(** One block: read, handed over, sent, and back to a disk thread. *)
Lemma send_block w k (P : machine -> Prop) : sending w k -> k < size ->
  (forall w', sending w' (k + zlen (block_of k)) -> reach cf uninit senvs denvs w' P) -> reach cf uninit senvs denvs w P.
Proof.
  intros [[tid H1] H2 (b & H3 & Hb) H4 H5 H6 H7 H8] Hk HK. set (x := block_of k) in *. destruct (zlen_block k ltac:(lia)) as [Hx1 Hx2]. fold x in Hx1, Hx2.
  pose proof (dio_read_block (denvs (m_tick w)) (m_srv w) (m_conn w) b k (Henvs _) H4 H3 ltac:(lia) Hb) as Hdr. cbv zeta in Hdr. fold x in Hdr.
  set (b1 := x ++ drop (length x) b) in *. set (s1 := put_ctx _ _ _) in Hdr. set (c1 := dio_notify_nio _ _ _) in Hdr.
  assert (zlen b1 = f_buff_size f0) as Hb1 by (unfold b1, zlen in *; rewrite length_app, length_drop; lia).
  apply (reach_turn _ _ _ _ _ (with_at (next_tick (with_srv w s1 c1)) AtBack)).
  { exists 0%nat. unfold turn, call_dio. rewrite H1, H3. cbn [mbind outcome_bind]. change (f_dio_func (sent_ctx f0 b size k 0 0)) with (f_dio_func f0). rewrite Hdio, Hdr. done. }
  apply reach_back; [done|done|]. set (w1 := with_at _ AtNet).
  assert (ctx_of s1 c1 = Ret (sent_ctx f0 b1 size (k + 0) (zlen x) 0)) as Hc1.
  { rewrite Z.add_0_r. unfold ctx_of in *. change (get_fctx ?p c1) with (get_fctx p (m_conn w)). by eapply get_put_fctx. }
  destruct (fwrite_done (length (m_out w) + 2) w1 b1 x (drop (length x) b) k 0 (size - k) Hc1 H4 eq_refl Hb1 ltac:(lia) H7 ltac:(lia)) as (out & s2 & Hw & Hc2 & Ho2 & Hr2 & Hpl);
    [change (m_out w1) with (m_out w); lia|]. set (w2 := with_srv _ s2 _) in Hw.
  pose proof (reset_ok w2 _ Hc2) as Hreset. set (w3 := with_srv w2 _ _) in Hreset.
  assert (round w1 = Ret (to w3 conn_n2dio, false)) as Hround.
  { unfold machine_round. change (state (m_conn w1)) with conn_fwrite. unfold __network_fwrite. change (m_out w1) with (m_out w). rewrite Hw. cbn [mbind outcome_bind].
    unfold after_write. rewrite Hreset. done. }
  refine (reach_round _ _ _ _ w1 (to w3 conn_n2dio) _ _ _ Hround _); [done|done|].
  set (f3 := sent_ctx f0 (zeros (Z.to_nat (f_buff_size f0))) size (k + zlen x) 0 0).
  assert (m_srv w3 = put_ctx s2 (m_conn w) f3) as Hs3 by reflexivity.
  assert (ctx_of (m_srv w3) (m_conn w3) = Ret f3) as Hc3.
  { rewrite Hs3. unfold ctx_of in *. change (get_fctx ?p (m_conn w3)) with (get_fctx p (m_conn w)). change (get_fctx (sv_fctxs s2) (m_conn w1)) with (get_fctx (sv_fctxs s2) (m_conn w)) in Hc2.
    by eapply get_put_fctx. }
  destruct (to_reader w3 f3 eq_refl H2 Hc3 Htype) as (t3 & Ht3 & Hdisp); [change (sv_reader (m_srv w3)) with (sv_reader s2); by rewrite Hr2|].
  refine (reach_flag _ _ _ _ (to w3 conn_n2dio) _ _ eq_refl Hdisp _). apply HK. split; [by eexists|done| |exact Ho2|exact Ht3| | |lia].
  - exists (zeros (Z.to_nat (f_buff_size f0))). split; [exact Hc3|]. unfold zlen, zeros. rewrite length_replicate. lia.
  - change (m_sent w ++ drop (Z.to_nat 0) x = sent0 ++ take (Z.to_nat (k + zlen x)) file). rewrite H6, <- app_assoc, drop_0. f_equal.
    rewrite Z2Nat.inj_add by lia. rewrite Hx2. apply take_take_drop.
  - change (m_out (with_at _ _)) with out. replace (size - (k + zlen x)) with (size - k - (zlen x - 0)) by lia. exact Hpl.
Qed.

(** The rest of the file, and then nobody has the connection. *)
Lemma send_file w k (P : machine -> Prop) : sending w k -> k <= size ->
  (forall w', m_at w' = Nowhere -> m_sent w' = sent0 ++ take (Z.to_nat size) file -> only_ctx (m_srv w') -> P w') -> reach cf uninit senvs denvs w P.
Proof.
  remember (Z.to_nat (size - k)) as n eqn:En. revert w k En. induction (lt_wf n) as [n _ IH]. intros w k En Hs Hk HP.
  destruct (Z.eq_dec k size) as [->|Hne].
  - destruct Hs as [[tid H1] H2 (b & H3 & Hb) H4 H5 H6 H7 H8]. destruct (dio_read_end (denvs (m_tick w)) _ _ _ H3 H4) as (s' & Hd & Ho).
    apply (reach_turn_end _ _ _ _ _ (with_at (next_tick (with_srv w s' (m_conn w))) Nowhere)); [|by apply HP].
    exists 0%nat. unfold turn, call_dio. rewrite H1, H3. cbn [mbind outcome_bind]. change (f_dio_func (sent_ctx f0 b size size 0 0)) with (f_dio_func f0). rewrite Hdio, Hd. done.
  - pose proof (sd_k _ _ Hs) as Hk0. destruct (zlen_block k ltac:(lia)) as [Hx1 Hx2].
    apply (send_block w k P Hs ltac:(lia)). intros w' Hs'. eapply (IH (Z.to_nat (size - (k + zlen (block_of k))))); [lia|reflexivity|exact Hs'|lia|exact HP].
Qed.
End Download.

(** ** A download *)

(** What follows the header: offset, size, number of the mount and the name,
    which ends with a zero. *)
Definition download_body (offset size i : Z) (name junk : bytes) : bytes := long2buff offset ++ long2buff size ++ long2buff i ++ name ++ 0 :: junk.

(** The context a download starts with. *)
Definition download_start (f : file_ctx) (i size : Z) (name full : bytes) : file_ctx :=
  mk_fctx None O_RDONLY (i, -1, -1) FILE_OP_TYPE_READ (f_create_timestamp f) (f_modify_timestamp f) 0 (mk_fnames [] [] name full [] [])
    (mk_fpos 0 size 0 0 0 0) (f_buff_size f) (zeros (Z.to_nat (f_buff_size f))) (Some DioRead) (Some DownloadDone) false.

Lemma read_long n b : is_s 64 n -> buff2long (long2buff n ++ b) = Ret n.
Proof. intros H. rewrite buff2long_decode. by rewrite s_wrap_id. Qed.

(** The header of an answer is written over the first ten bytes of the buffer. *)
Lemma resp_header c cmd st : zlookup (rbuff c) 8 = Some cmd -> 10 <= zlen (wbuff c) ->
  __resp_header c st = Ret (with_write c (header_bytes 0 cmd st ++ drop 10 (wbuff c)) sizeof_protocol_header).
Proof.
  intros Hc Hw. unfold __resp_header. rewrite Hc. cbn [get_or mbind outcome_bind].
  pose proof (buf_write_behind [] (wbuff c) (header_bytes 0 cmd st) ltac:(unfold zlen in *; cbn [length header_bytes le64 fmap list_fmap app]; lia)) as W.
  cbn [app] in W. change (0 + zlen (@nil Z)) with 0 in W. rewrite W. done.
Qed.

Lemma drop_longs a b c (x : bytes) : drop 8 (long2buff a ++ x) = x /\ drop 16 (long2buff a ++ long2buff b ++ x) = x /\ drop 24 (long2buff a ++ long2buff b ++ long2buff c ++ x) = x.
Proof.
  rewrite !(app_assoc (long2buff a)), !(app_assoc (long2buff a ++ _)). split_and!; apply drop_app_length'; rewrite ?length_app, ?length_long2buff; done.
Qed.

Lemma download_fields offset size i name junk t : is_s 64 offset -> is_s 64 size -> is_s 64 i -> no_nul name ->
  let req := download_body offset size i name junk ++ t in
  buff2long req = Ret offset /\ buff2long (drop 8 req) = Ret size /\ buff2long (drop 16 req) = Ret i /\ c_string (drop 24 req) = Ret name.
Proof.
  intros Ho Hs Hi Hn req. unfold req, download_body. rewrite <- !app_assoc.
  rewrite (proj1 (drop_longs offset 0 0 _)), (proj1 (proj2 (drop_longs offset size 0 _))), (proj2 (proj2 (drop_longs offset size i _))), !read_long by done.
  split_and!; try done. by apply c_string_nul.
Qed.

Lemma dispatch_cmd_download cf e s c : dispatch_cmd cf e s c PROTOCOL_CMD_FILE_DOWNLOAD =
  ('(s, c, resp_status) ← handle_cmd_filedownload e s c;
   if negb (resp_status =? 0) then c ← handle_protocol_error c resp_status; Ret (s, c) else Ret (s, c)).
Proof. done. Qed.

Lemma dispatch_download cf e s c bs i blk path name junk offset size t : mallocs_ok e -> slot_ok s c -> mounted (sv_mounts s) bs -> bs !! Z.to_nat i = Some blk -> 0 <= i < 2 ^ 31 ->
  c_string (mount_path blk) = Ret path -> no_nul name -> (length (path ++ [LFS_FILE_ID_SEPERATOR] ++ name) < LFS_FILE_BLOCK_MAP_NAME_SIZE)%nat ->
  is_s 64 offset -> is_s 64 size -> 0 < size -> offset = 0 \/ size < offset -> req_body c = download_body offset size i name junk ++ t ->
  zlookup (rbuff c) 8 = Some PROTOCOL_CMD_FILE_DOWNLOAD -> 10 <= zlen (wbuff c) ->
  exists f, dispatch_cmd cf e s c PROTOCOL_CMD_FILE_DOWNLOAD =
    Ret (put_ctx s c (download_start f i size name (path ++ [LFS_FILE_ID_SEPERATOR] ++ name)),
         with_nextto (set_conn_state (with_write (with_fctx c true) (header_bytes 0 PROTOCOL_CMD_FILE_DOWNLOAD 0 ++ drop 10 (wbuff c)) sizeof_protocol_header) conn_mwrite) conn_n2dio) /\
    0 < f_buff_size f < 2 ^ 31 /\ forall g, ctx_of (put_ctx s c g) (with_fctx c true) = Ret g.
Proof.
  intros Hm Hs Hmnt Hblk Hi Hpath Hname Hlen Ho Hsz Hsz0 Hos Hreq Hcmd Hw.
  destruct (new_ctx_ok e s c FILE_OP_TYPE_READ Hm Hs) as (f & Hnew & Hb & Hctx). exists f. split; [|done].
  destruct (get_mounted (sv_mounts s) bs (Z.to_nat i) Hmnt) as (blk' & Hblk' & Hget); [by eapply lookup_lt_Some|].
  rewrite Hblk in Hblk'. injection Hblk' as <-. rewrite Z2Nat.id in Hget by lia.
  rewrite dispatch_cmd_download.
  destruct (download_fields offset size i name junk t Ho Hsz ltac:(unfold is_s; lia) Hname) as (F1 & F2 & F3 & F4). rewrite <- Hreq in F1, F2, F3, F4.
  unfold handle_cmd_filedownload. rewrite Hnew. cbn [mbind outcome_bind]. cbv zeta. rewrite F1, F2, F3. cbn [mbind outcome_bind].
  rewrite (s_wrap_id 32) by (try done; unfold is_s; lia). change (f_place (fctx_renew f FILE_OP_TYPE_READ)) with (-1, -1, -1). cbv iota beta.
  unfold copy_string. rewrite F4. cbn [mbind outcome_bind]. rewrite !length_app in Hlen. unfold LFS_FILE_BLOCK_MAP_NAME_SIZE in Hlen.
  assert ((length name <=? LFS_FILE_MAP_NAME_SIZE)%nat = true) as -> by (apply Nat.leb_le; unfold LFS_FILE_MAP_NAME_SIZE; lia). cbn [mbind outcome_bind].
  change (sv_mounts (put_ctx s c _)) with (sv_mounts s). rewrite Hget. cbn [mbind outcome_bind]. rewrite Hpath. cbn [mbind outcome_bind]. unfold sprintf_to.
  assert ((length (path ++ [LFS_FILE_ID_SEPERATOR] ++ name) <? LFS_FILE_BLOCK_MAP_NAME_SIZE)%nat = true) as -> by (apply Nat.ltb_lt; rewrite !length_app; unfold LFS_FILE_BLOCK_MAP_NAME_SIZE; lia).
  cbn [mbind outcome_bind]. destruct (Z.ltb_spec offset 0); [lia|]. destruct (Z.leb_spec size 0); [lia|].
  assert (negb (offset =? 0) && (offset <=? size) = false) as ->.
  { destruct Hos as [-> |]; [done|]. destruct (Z.leb_spec offset size); [lia|]. apply andb_false_r. }
  unfold handle_protocol_ack. rewrite (resp_header _ PROTOCOL_CMD_FILE_DOWNLOAD) by done. cbn [mbind outcome_bind]. cbn [negb Z.eqb PROTOCOL_RESP_STATUS_SUCCESS].
  rewrite !set_conn_state_eq. unfold put_ctx. cbn [sv_fctxs set_fctxs].
  change (put_fctx ?p (with_nextto (with_state (with_write (with_fctx c true) _ _) _) _)) with (put_fctx p c). rewrite put_put_fctx. done.
Qed.

Section Served.
Context (cf : service_conf) (uninit : nat -> Z) (senvs : nat -> service_env) (denvs : nat -> dio_env).

(** A request in the buffer of a world that was idle: what its handler gets, and
    the round that calls the handler. *)
Lemma handed_conn w w2 cmd st padding body : received w2 (message cmd st padding body) -> same_rest w w2 -> length padding = 6%nat -> is_u 8 cmd ->
  exists t, let c := with_read (with_state (m_conn w) conn_parse_cmd) (message cmd st padding body ++ t) sizeof_protocol_header (rsize (m_conn w)) (zlen body) in
    handed w2 (zlen body) = c /\ req_body c = body ++ t /\ zlookup (rbuff c) 8 = Some cmd.
Proof.
  intros Hr (_ & _ & _ & _ & _ & _ & S7) Hp Hc. pose proof (rc_buff _ _ Hr) as [t Ht]. exists t. cbv zeta. set (c := with_read _ _ _ _ _).
  assert (handed w2 (zlen body) = c) as Hh by (unfold handed, in_parse, to; rewrite set_conn_state_eq, Ht; cbn [m_conn with_conn]; by rewrite S7). split; [done|].
  split.
  - unfold req_body, c. cbn [rcurr rbuff with_read]. rewrite message_split, <- app_assoc. apply drop_app_length'.
    pose proof (zlen_head16 cmd st padding body Hp) as H. unfold zlen in H. unfold sizeof_protocol_header. lia.
  - unfold c, message, header_bytes. cbn [rbuff with_read app le64 fmap list_fmap]. unfold zlookup. cbn. by rewrite u_wrap_id.
Qed.

(** The server keeps its files, its mounts, its logs and its sequence. *)
Definition unchanged (s s' : server) : Prop := only_ctx s s'.

Lemma sent_start f i size name full : sent_ctx (download_start f i size name full) (zeros (Z.to_nat (f_buff_size f))) size 0 0 0 = download_start f i size name full.
Proof. done. Qed.

(** The first turns of a download: the acknowledgement is sent and a disk thread
    has the connection. *)
Lemma download_start_run w0 f i size name full file P : threads_ok cf -> m_at w0 = AtNet -> m_ev w0 = [] -> state (m_conn w0) = conn_mwrite -> nextto (m_conn w0) = conn_n2dio ->
  wused (m_conn w0) = 0 -> 0 <= wbytes (m_conn w0) <= zlen (wbuff (m_conn w0)) -> ctx_of (m_srv w0) (m_conn w0) = Ret (download_start f i size name full) ->
  0 < f_buff_size f < 2 ^ 31 -> 0 <= sv_reader (m_srv w0) < sc_read_threads cf -> plenty (m_out w0) (wbytes (m_conn w0) + size) -> 0 < size ->
  (forall w, sending cf (download_start f i size name full) (m_srv w0) size file (m_sent w0 ++ take (Z.to_nat (wbytes (m_conn w0))) (wbuff (m_conn w0))) w 0 ->
     reach cf uninit senvs denvs w P) ->
  reach cf uninit senvs denvs w0 P.
Proof.
  intros Ht Ha He Hs Hn Hu Hb Hc HB Hr Hpl Hsz HK. apply (first_part cf uninit senvs denvs w0 P Ha Hs Hu Hb).
  { eapply enough_less; [by apply plenty_enough|lia]. }
  intros out Hout. cbv zeta. rewrite Hn. set (w1 := with_conn _ _).
  assert (ctx_of (m_srv w1) (m_conn w1) = Ret (download_start f i size name full)) as Hc1 by exact Hc.
  destruct (to_reader cf uninit senvs Ht w1 _ Ha He Hc1 eq_refl Hr) as (tid & Htid & Hdisp).
  refine (reach_flag _ _ _ _ (to w1 conn_n2dio) _ _ Ha Hdisp _). apply HK. split; try done; [by eexists| | |].
  - exists (zeros (Z.to_nat (f_buff_size f))). rewrite sent_start. split; [exact Hc1|]. unfold zlen, zeros. rewrite length_replicate. cbn. lia.
  - cbn. by rewrite app_nil_r.
  - change (m_out (with_at _ _)) with out. replace (size - 0) with (wbytes (m_conn w0) + size - wbytes (m_conn w0)) by lia. by apply Hout.
Qed.
End Served.

(** C13. A download: for every offset that passes the check (zero, or greater than the
    size!) the client gets an acknowledgement and then the first [size] bytes of
    the file: the offset has no effect.  Files, mounts, logs and sequence stay as
    they are.  After the last byte nobody has the connection: its event was
    deleted when it went to the disk thread, and whatever the client sends, no
    turn changes anything any more. *)
Theorem download_served cf uninit senvs denvs w bs i blk path name junk offset size file st padding d0 rest data : well cf senvs denvs w -> received w [] ->
  mounted (sv_mounts (m_srv w)) bs -> bs !! Z.to_nat i = Some blk -> 0 <= i < 2 ^ 31 -> c_string (mount_path blk) = Ret path -> no_nul name ->
  (length (path ++ [LFS_FILE_ID_SEPERATOR] ++ name) < LFS_FILE_BLOCK_MAP_NAME_SIZE)%nat ->
  sv_files (m_srv w) !! (path ++ [LFS_FILE_ID_SEPERATOR] ++ name) = Some file -> is_s 64 offset -> is_s 64 size -> 0 < size <= zlen file -> offset = 0 \/ size < offset ->
  let body := download_body offset size i name junk in
  stream (m_in w) = message PROTOCOL_CMD_FILE_DOWNLOAD st padding body ++ data -> length padding = 6%nat ->
  m_in w = RData d0 :: rest -> arrives (m_in w) -> (16 <= length d0)%nat -> zlen body <= MAX_PACKAGE_DATA_SIZE -> 16 + zlen body <= rsize (m_conn w) ->
  plenty (m_out w) (16 + size) ->
  reach cf uninit senvs denvs w (fun w' =>
    (exists unset, m_sent w' = m_sent w ++ header_bytes 0 PROTOCOL_CMD_FILE_DOWNLOAD 0 ++ unset ++ take (Z.to_nat size) file /\ length unset = 6%nat) /\
    unchanged (m_srv w) (m_srv w') /\ m_at w' = Nowhere /\ forall inp fuel, turn cf uninit senvs denvs fuel (with_in w' inp) = Ret (with_in w' inp)).
Proof.
  intros [W1 W2 W3 W4 W5 W6 W7] Hr Hm Hblk Hi Hpath Hname Hlen Hfile Ho Hsz Hsz2 Hos body Hst Hp Hin Ha Hd0 Hmax Hrs Hpl.
  apply (read_request cf uninit senvs denvs w d0 rest _ _ _ _ _ _ Hr Hin Ha Hd0 Hst Hp Hmax Hrs). intros w2 Hr2 Hsr Ha2 Hst2.
  destruct (handed_conn w w2 _ _ _ _ Hr2 Hsr Hp ltac:(done)) as (t & Hh & Hreq & Hcmd). set (c := with_read _ _ _ _ _) in Hh, Hreq, Hcmd.
  destruct Hsr as (S1 & S2 & S3 & S4 & S5 & S6 & S7).
  assert (slot_ok (m_srv w) c) as Hslot by exact W4. assert (10 <= zlen (wbuff c)) as Hw by (change (wbuff c) with (wbuff (m_conn w)); lia).
  destruct (dispatch_download cf (senvs (m_tick w2)) (m_srv w) c bs i blk path name junk offset size t (W2 _) Hslot Hm Hblk Hi Hpath Hname Hlen Ho Hsz (proj1 Hsz2) Hos Hreq Hcmd Hw)
    as (f & Hdis & HB & Hctx).
  pose proof (round_dispatch cf uninit senvs w2 _ _ _ _ Hr2 Hp ltac:(done) Hmax) as Hround. rewrite Hh, S1, Hdis in Hround. cbn [mbind outcome_bind] in Hround.
  set (c0 := with_nextto _ _) in Hround. set (w0 := next_tick _) in Hround. assert (c0 = with_nextto (with_state (with_write (with_fctx c true) (header_bytes 0 PROTOCOL_CMD_FILE_DOWNLOAD 0 ++ drop 10 (wbuff (m_conn w))) sizeof_protocol_header) conn_mwrite) conn_n2dio) as Hc0
    by (unfold c0; by rewrite set_conn_state_eq).
  refine (reach_round _ _ _ _ (in_parse w2) w0 _ _ _ Hround _); [exact (rc_at _ _ Hr2)|exact (rc_at _ _ Hr2)|].
  assert (m_conn w0 = c0) as Hcw by done. clearbody c0. subst c0.
  apply (download_start_run cf uninit senvs denvs w0 f i size name (path ++ [LFS_FILE_ID_SEPERATOR] ++ name) file); rewrite ?Hcw; try done; try lia.
  - exact (rc_at _ _ Hr2).
  - exact (rc_ev _ _ Hr2).
  - cbn [wbytes wbuff with_nextto with_state with_states with_write with_fctx]. unfold sizeof_protocol_header, zlen in *. rewrite length_app, length_drop. change (length (header_bytes _ _ _)) with 10%nat. lia.
  - exact (Hctx _).
  - change (m_out w0) with (m_out w2). by rewrite S2.
  - intros w3 Hsend. refine (send_file cf uninit senvs denvs (download_start f i size name (path ++ [LFS_FILE_ID_SEPERATOR] ++ name)) (m_srv w0) size _ file _ eq_refl Hfile HB eq_refl eq_refl eq_refl W1 W3 (proj2 Hsz2) w3 0 _ Hsend ltac:(lia) _).
    intros w' N1 N2 N3. split_and!; [|exact N3|done|intros inp fuel; unfold turn; change (m_at (with_in w' inp)) with (m_at w'); by rewrite N1].
    exists (take 6 (drop 10 (wbuff (m_conn w)))). split; [|rewrite length_take, length_drop; unfold zlen in W6; lia]. rewrite N2. change (m_sent w0) with (m_sent w2). rewrite S3.
    rewrite <- app_assoc. f_equal.
Qed.

(** ** Examples *)

(** The server of [DsServe] with two files, and a socket that takes up to [n]
    bytes at a time. *)
Definition demo_files : files := <[str "/d2/00/00/b" := [11; 12; 13; 14; 15; 16; 17] ]> (<[str "/d1/00/00/a" := [1; 2; 3] ]> ∅).
Definition demo_out (inp : list rres) : machine := with_out (demo_net demo_files inp) (replicate 40 (WSent 3)) [].

Lemma demo_out_well inp : well demo_sconf demo_senvs demo_denvs (demo_out inp).
Proof. destruct (demo_well demo_files inp). by split. Qed.

Lemma demo_out_received inp : received (demo_out inp) [].
Proof. destruct (demo_received demo_files inp). by split. Qed.

Lemma demo_plenty inp k : k <= 40 -> plenty (m_out (demo_out inp)) k.
Proof. intros H. split; [|exact H]. cbn. repeat (constructor; [by eexists|]). constructor. Qed.

(** The offset 9 is greater than the size, so that five bytes from the beginning
    are sent. *)
Definition demo_download : bytes := message PROTOCOL_CMD_FILE_DOWNLOAD 0 (zeros 6) (download_body 9 5 1 (str "00/00/b") []).
Definition demo_download_input : list rres := [RData (take 17 demo_download); RErr EAGAIN; RData (drop 17 demo_download)].

Lemma download_served_witness :
  reach demo_sconf (fun _ => 0) demo_senvs demo_denvs (demo_out demo_download_input) (fun w' =>
    (exists unset, m_sent w' = header_bytes 0 PROTOCOL_CMD_FILE_DOWNLOAD 0 ++ unset ++ [11; 12; 13; 14; 15] /\ length unset = 6%nat) /\
    unchanged (demo_server demo_files) (m_srv w') /\ m_at w' = Nowhere /\
    forall inp fuel, turn demo_sconf (fun _ => 0) demo_senvs demo_denvs fuel (with_in w' inp) = Ret (with_in w' inp)).
Proof.
  eapply (download_served demo_sconf (fun _ => 0) demo_senvs demo_denvs (demo_out demo_download_input) demo_blocks 1 _ (str "/d2") (str "00/00/b") [] 9 5
    [11; 12; 13; 14; 15; 16; 17] 0 (zeros 6) (take 17 demo_download) _ [] (demo_out_well _) (demo_out_received _) demo_mounted);
    [reflexivity|lia|by vm_compute|by repeat constructor|by apply Nat.ltb_lt|by vm_compute|by vm_compute|by vm_compute|by vm_compute|right; lia|by vm_compute|done|reflexivity| | |by vm_compute|by vm_compute|].
  - unfold demo_download_input. repeat (apply arrives_cons; split; [first [left; eexists; split; [reflexivity|vm_compute; discriminate]|by right]|]). constructor.
  - vm_compute. lia.
  - by apply demo_plenty.
Defined.
