(* ===== verification/DsMaster.v ===== *)
(** * What a master sends to a new server

    A server that joins a group asks its master for the files of the binlog and
    then for every file they name ([DsSync]).  Here the other end: the requests
    are read and answered by the connection state machine of the master
    ([DsNet], [DsService]), and both ends are put together. *)
From S2P Require Import Prelude Codec CString Lines ListH TsQueue TsConn Protocol TsThread DsBlock DsBinlog ClientIo DsSync DsFile DsConn DsService DsDiskIo DsNet DsServe DsSend.

(** ** A file announced and sent *)

(** [sendfile] on a socket that takes something in each call. *)
Lemma sendfile_all out sent file n : plenty out n -> 0 <= n <= zlen file ->
  exists out', sendfile_loop out sent file n = (out', sent ++ take (Z.to_nat n) file).
Proof.
  revert sent file n. induction out as [|x out IH]; intros sent file n Hp Hn; cbn [sendfile_loop]; destruct (Z.ltb_spec 0 n) as [H|H].
  - destruct Hp as [_ Hp]. unfold zlen in Hp. cbn in Hp. lia.
  - replace n with 0 by lia. exists []. cbn. by rewrite app_nil_r.
  - pose proof Hp as [Hf _]. apply Forall_cons in Hf as [[k ->] _]. set (m := Nat.min (S k) (Z.to_nat n)).
    assert (length (take m file) = m) as Hm by (rewrite length_take; unfold zlen in Hn; lia). rewrite Hm. destruct (Nat.eqb_spec m 0) as [|Hm0]; [lia|].
    destruct (IH (sent ++ take m file) (drop m file) (n - Z.of_nat m)) as (out' & Hr).
    { eapply plenty_tail; [exact Hp|lia]. }
    { unfold zlen in *. rewrite length_drop. lia. }
    exists out'. assert (zlen (take m file) = Z.of_nat m) as -> by (unfold zlen; by rewrite Hm). rewrite Hr. f_equal. rewrite <- app_assoc. f_equal.
    rewrite take_take_drop. f_equal. lia.
  - replace n with 0 by lia. exists (x :: out). cbn. by rewrite app_nil_r.
Qed.

(** The bytes of the response that [announce] makes: the status is what the
    buffer holds. *)
Lemma announce_bytes c cmd size : 24 <= zlen (wbuff c) -> state c = conn_parse_cmd ->
  announce c cmd size = Ret (with_nextto (with_state (with_write c ((le64 8 ++ [u8 cmd]) ++ take 7 (drop 9 (wbuff c)) ++ long2buff size ++ drop 24 (wbuff c)) 24) conn_mwrite) conn_fsend).
Proof.
  intros Hw Hs. unfold announce, sizeof_protocol_header. unfold zlen in Hw. set (h := le64 8 ++ [u8 cmd]).
  pose proof (buf_write_behind [] (wbuff c) h ltac:(unfold zlen; change (length h) with 9%nat; lia)) as W.
  cbn [app] in W. change (0 + zlen (@nil Z)) with 0 in W. rewrite W. cbn [mbind outcome_bind]. change (length h) with 9%nat.
  set (r := drop 24 (wbuff c)) in *.
  set (l := take 7 (drop 9 (wbuff c))). assert (length l = 7%nat) as Hl by (unfold l; rewrite length_take, length_drop; lia).
  assert (drop 9 (wbuff c) = l ++ take 8 (drop 16 (wbuff c)) ++ r) as ->.
  { rewrite <- (take_drop 7 (drop 9 (wbuff c))) at 1. fold l. f_equal. rewrite drop_drop. rewrite <- (take_drop 8 (drop _ (wbuff c))) at 1. f_equal. by rewrite drop_drop. }
  rewrite app_assoc. rewrite (buf_write_at _ _ (long2buff size)).
  - cbn [mbind outcome_bind]. rewrite <- app_assoc. set (b := _ ++ _). unfold set_conn_mstate. cbn [state with_write]. rewrite Hs.
    rewrite (decide_False (P := conn_mwrite = conn_parse_cmd)) by done. cbv zeta. case_decide as En; [|done].
    assert (forall x : conn, conn_fsend = nextto x -> x = with_nextto x conn_fsend) as Hx by (intros []; cbn; by intros <-). by rewrite <- Hx.
  - rewrite length_take, length_drop, length_long2buff. lia.
  - rewrite length_app, Hl. done.
Qed.

(** [announce] keeps the socket of a connection. *)
Lemma announce_same c cmd size c' : announce c cmd size = Ret c' -> sfd c' = sfd c.
Proof.
  unfold announce. intros H. apply bind_Ret in H as (b1 & _ & H). apply bind_Ret in H as (b2 & _ & H). injection H as <-. unfold set_conn_mstate. by do 2 case_decide.
Qed.

Lemma put_ctx_twice s c c' f g : sfd c' = sfd c -> put_ctx (put_ctx s c f) c' g = put_ctx s c' g.
Proof.
  intros H. assert (put_fctx (sv_fctxs s) c = put_fctx (sv_fctxs s) c') as E by (unfold put_fctx; by rewrite H).
  unfold put_ctx. rewrite E. cbn [sv_fctxs set_fctxs]. rewrite put_put_fctx. done.
Qed.

Section Announced.
Context (cf : service_conf) (uninit : nat -> Z) (senvs : nat -> service_env) (denvs : nat -> dio_env).

(** The response and the file behind it are sent, and the connection waits for
    the next request. *)
Lemma announced_run w0 f path file offset size (P : machine -> Prop) : m_at w0 = AtNet -> m_ev w0 = [] -> state (m_conn w0) = conn_mwrite -> nextto (m_conn w0) = conn_fsend ->
  wused (m_conn w0) = 0 -> 0 <= wbytes (m_conn w0) <= zlen (wbuff (m_conn w0)) -> 0 <= rsize (m_conn w0) ->
  ctx_of (m_srv w0) (m_conn w0) = Ret (send_ctx f path offset size) -> path_content cf (m_srv w0) path = Some file -> 0 <= offset -> 0 <= size -> offset + size = zlen file ->
  plenty (m_out w0) (wbytes (m_conn w0) + size) ->
  (forall w', received w' [] -> unchanged (m_srv w0) (m_srv w') -> m_in w' = m_in w0 ->
     m_sent w' = m_sent w0 ++ take (Z.to_nat (wbytes (m_conn w0))) (wbuff (m_conn w0)) ++ drop (Z.to_nat offset) file -> P w') ->
  reach cf uninit senvs denvs w0 P.
Proof.
  intros Ha He Hs Hn Hu Hb Hr Hc Hp Hoff Hsz Hend Hpl HP. apply (first_part cf uninit senvs denvs w0 P Ha Hs Hu Hb).
  { eapply enough_less; [by apply plenty_enough|lia]. }
  intros out Hout. cbv zeta. rewrite Hn. set (w1 := with_conn _ _). set (w2 := to w1 conn_fsend). specialize (Hout _ Hpl). replace (_ + size - _) with size in Hout by lia.
  destruct (sendfile_all out (m_sent w1) (drop (Z.to_nat offset) file) size Hout) as (out' & Hsend); [unfold zlen in *; rewrite length_drop; lia|].
  rewrite take_ge in Hsend by (rewrite length_drop; unfold zlen in *; lia). set (w3 := with_ev (with_out w2 out' (m_sent w1 ++ drop (Z.to_nat offset) file)) []).
  assert (m_conn w2 = with_state (m_conn w1) conn_fsend) as Hc2 by (unfold w2, to; by rewrite set_conn_state_eq).
  assert (ctx_of (m_srv w3) (m_conn w3) = Ret (send_ctx f path offset size)) as Hc3.
  { change (ctx_of (m_srv w3) (m_conn w3)) with (ctx_of (m_srv w0) (m_conn w2)). rewrite Hc2. exact Hc. }
  assert (__network_fsend cf w2 = Ret (w3, WRITE_COMPLETE)) as Hf.
  { unfold __network_fsend. change (ctx_of (m_srv w2) (m_conn w2)) with (ctx_of (m_srv w3) (m_conn w3)). rewrite Hc3. cbn [mbind outcome_bind].
    change (fn_path (f_names (send_ctx f path offset size))) with path. change (m_srv w2) with (m_srv w0). rewrite Hp.
    unfold pop_ev. change (m_ev w2) with (m_ev w0). rewrite He. cbn [pop_bool negb m_ev with_ev]. cbn [f_pos send_ctx set_pos p_offset p_size]. destruct (Z.ltb_spec offset 0); [lia|].
    change (m_out (with_ev (with_ev w2 []) [])) with out. change (m_sent (with_ev (with_ev w2 []) [])) with (m_sent w1). rewrite Hsend. done. }
  refine (to_idle cf uninit senvs denvs w2 w3 (send_ctx f path offset size) P Ha Ha eq_refl Hc3 _ _ _).
  - change (m_conn w3) with (m_conn w2). rewrite Hc2. exact Hr.
  - unfold machine_round. unfold w2 at 1. rewrite state_to, Hf. done.
  - intros w' Hr'. apply HP; [exact Hr'|done|done|]. change (m_sent w') with (m_sent w1 ++ drop (Z.to_nat offset) file). unfold w1. cbn [m_sent with_conn with_out]. by rewrite <- app_assoc.
Qed.

(** The request is in the buffer and its handler announces a file. *)
Lemma announced_dispatch w w2 cmd st padding body path offset size file P : well cf senvs denvs w -> received w2 (message cmd st padding body) -> same_rest w w2 ->
  length padding = 6%nat -> is_u 8 cmd -> zlen body <= MAX_PACKAGE_DATA_SIZE -> 0 <= rsize (m_conn w) ->
  (forall t c, req_body c = body ++ t -> c = with_read (with_state (m_conn w) conn_parse_cmd) (rbuff c) sizeof_protocol_header (rsize (m_conn w)) (zlen body) ->
     exists f, dispatch_cmd cf (senvs (m_tick w2)) (m_srv w) c cmd = (c ← announce (with_fctx c true) cmd size; Ret (put_ctx (m_srv w) c (send_ctx f path offset size), c))) ->
  path_content cf (m_srv w) path = Some file -> 0 <= offset -> 0 <= size -> offset + size = zlen file -> plenty (m_out w) (24 + size) ->
  (forall w', received w' [] -> unchanged (m_srv w) (m_srv w') -> m_in w' = m_in w2 ->
     m_sent w' = m_sent w ++ ((le64 8 ++ [cmd]) ++ take 7 (drop 9 (wbuff (m_conn w))) ++ long2buff size) ++ drop (Z.to_nat offset) file -> P w') ->
  reach cf uninit senvs denvs (in_parse w2) P.
Proof.
  intros [W1 W2 W3 W4 W5 W6 W7] Hr2 Hsr Hp Hcmd Hmax Hrs Hdis Hpath Hoff Hsz Hend Hpl HP.
  destruct (handed_conn w w2 _ _ _ _ Hr2 Hsr Hp Hcmd) as (t & Hh & Hreq & _). set (c := with_read _ _ _ _ _) in Hh, Hreq.
  pose proof Hsr as (S1 & S2 & S3 & S4 & S5 & S6 & S7). destruct (Hdis t c Hreq eq_refl) as [f Hdf]. clear Hdis. rename Hdf into Hdis.
  rewrite announce_bytes in Hdis by done. cbn [mbind outcome_bind] in Hdis. change (wbuff (with_fctx c true)) with (wbuff (m_conn w)) in Hdis.
  pose proof (round_dispatch cf uninit senvs w2 _ _ _ _ Hr2 Hp Hcmd Hmax) as Hround. rewrite Hh, S1, Hdis in Hround. cbn [mbind outcome_bind] in Hround.
  set (b := (le64 8 ++ [u8 cmd]) ++ _) in Hround. set (w0 := next_tick _) in Hround.
  assert (take 24 b = (le64 8 ++ [cmd]) ++ take 7 (drop 9 (wbuff (m_conn w))) ++ long2buff size) as Hb.
  { unfold b. rewrite u_wrap_id by done. rewrite !app_assoc. apply take_app_length'. rewrite !length_app, length_take, length_drop, length_long2buff. cbn [length le64 fmap list_fmap].
    unfold zlen in W6. change (length (le64 8)) with 8%nat. lia. }
  refine (reach_round _ _ _ _ (in_parse w2) w0 P _ _ Hround _); [exact (rc_at _ _ Hr2)|exact (rc_at _ _ Hr2)|].
  apply (announced_run w0 f path file offset size P); try done.
  - exact (rc_at _ _ Hr2).
  - exact (rc_ev _ _ Hr2).
  - split; [done|]. change (wbuff (m_conn w0)) with b. unfold zlen. assert (length (take 24 b) = 24%nat) as Hl.
    { rewrite Hb, !length_app, length_take, length_drop, length_long2buff. unfold zlen in W6. change (length (le64 8)) with 8%nat. cbn [length]. lia. }
    rewrite length_take in Hl. change (wbytes (m_conn w0)) with 24. lia.
  - destruct W4 as (o & Ho & _). unfold ctx_of, get_fctx, w0, put_ctx, put_fctx. cbn [m_srv m_conn next_tick with_srv fctx with_fctx with_nextto with_state with_states with_write sfd sv_fctxs set_fctxs].
    change (sfd c) with (sfd (m_conn w)). by erewrite zlookup_inserted.
  - change (m_out w0) with (m_out w2). rewrite S2. exact Hpl.
  - intros w' H1 H2 H3 H4. apply HP; [done|exact H2|done|].
    rewrite H4. change (m_sent w0) with (m_sent w2). rewrite S3. change (wbuff (m_conn w0)) with b. change (Z.to_nat (wbytes (m_conn w0))) with 24%nat. by rewrite Hb.
Qed.
End Announced.

(** ** Data files *)

(** [sync_file_req]: the length of the name, and the name in 256 bytes. *)
Definition data_body (name : bytes) : bytes := int2buff (zlen name) ++ pad MAX_PATH_SIZE name.

Lemma data_request_bytes name : zlen name <= Z.of_nat MAX_PATH_SIZE ->
  data_request name = Ret (message PROTOCOL_CMD_FULL_SYNC_COPY_MASTER_DATA 0 (zeros 6) (data_body name)) /\ zlen (data_body name) = 260.
Proof.
  intros Hn. unfold MAX_PATH_SIZE in Hn. assert (length (data_body name) = 260%nat) as Hlb.
  { unfold data_body, pad, zeros, MAX_PATH_SIZE. rewrite !length_app, length_replicate. change (length (int2buff _)) with 4%nat. unfold zlen in Hn. lia. }
  split; [|unfold zlen; by rewrite Hlb]. unfold message. rewrite Hlb. unfold data_request, LFS_STRUCT_PROP_LEN_SIZE4. change (Z.to_nat (sizeof_protocol_header + 4 + Z.of_nat MAX_PATH_SIZE)) with 276%nat.
  change (4 + Z.of_nat MAX_PATH_SIZE) with (Z.of_nat 260). unfold sizeof_protocol_header.
  set (H := header_bytes _ _ _). assert (length H = 10%nat) as HH by done. clearbody H. rewrite <- (app_nil_l (zeros 276)).
  rewrite (buf_write_zeros [] 276 H 0) by (rewrite ?HH; cbn [length]; lia). cbn [mbind outcome_bind]. rewrite HH. change (276 - 0 - 10)%nat with 266%nat.
  change ([] ++ zeros 0 ++ H ++ zeros 266) with (H ++ zeros 266).
  rewrite (buf_write_zeros H 266 (int2buff (zlen name)) 6) by (rewrite ?HH; cbn [length int2buff]; lia). cbn [mbind outcome_bind].
  change (266 - 6 - length (int2buff (zlen name)))%nat with 256%nat. remember (zeros 6) as Z6 eqn:E6. assert (length Z6 = 6%nat) as H6 by (by rewrite E6). clear E6.
  rewrite !app_assoc. rewrite buf_write_snoc; [|rewrite !length_app, HH, H6; done|unfold zlen in Hn; lia]. unfold data_body, pad, MAX_PATH_SIZE. by rewrite <- !app_assoc.
Qed.

Lemma dispatch_masterdata cf e s c name file t : mallocs_ok e -> slot_ok s c -> req_body c = data_body name ++ t -> no_nul name -> (length name < MAX_PATH_SIZE)%nat ->
  path_content cf s name = Some file -> exists f,
  dispatch_cmd cf e s c PROTOCOL_CMD_FULL_SYNC_COPY_MASTER_DATA =
    (c ← announce (with_fctx c true) PROTOCOL_CMD_FULL_SYNC_COPY_MASTER_DATA (zlen file); Ret (put_ctx s c (send_ctx f name 0 (zlen file)), c)).
Proof.
  intros Hm Hs Hreq Hn Hl Hp. destruct (new_ctx_ok e s c FILE_OP_TYPE_READ Hm Hs) as (f & Hnew & Hb & Hctx). exists (fctx_renew f FILE_OP_TYPE_READ).
  change (dispatch_cmd cf e s c PROTOCOL_CMD_FULL_SYNC_COPY_MASTER_DATA) with ('(s, c, resp_status) ← handle_cmd_copymasterdata cf e s c;
    if negb (resp_status =? 0) then c ← handle_protocol_error c resp_status; Ret (s, c) else Ret (s, c)).
  unfold handle_cmd_copymasterdata. rewrite Hnew. cbn [mbind outcome_bind]. assert (data_body name ++ t = int2buff (zlen name) ++ name ++ zeros (MAX_PATH_SIZE - length name) ++ t) as Hdb by (unfold data_body, pad; by rewrite <- !app_assoc).
  rewrite Hreq, Hdb, buff2int_int2buff.
  pose proof (zlen_pos name). unfold MAX_PATH_SIZE in Hl. rewrite s_wrap_id by (try done; unfold is_s, zlen in *; lia). cbn [mbind outcome_bind].
  assert ((0 <=? zlen name) && (zlen name <=? Z.of_nat MAX_PATH_SIZE) = true) as -> by (apply andb_true_intro; split; apply Z.leb_le; unfold MAX_PATH_SIZE, zlen in *; lia).
  rewrite (buf_read_at (int2buff (zlen name)) name) by (done || unfold zlen; lia). cbn [mbind outcome_bind].
  rewrite c_string_pad by (done || unfold MAX_PATH_SIZE; lia). cbn [mbind outcome_bind]. change (path_content cf (put_ctx s c ?g) name) with (path_content cf s name). rewrite Hp.
  destruct (announce _ _ _) as [c'|] eqn:Ea; [|done]. cbn [mbind outcome_bind negb Z.eqb PROTOCOL_RESP_STATUS_SUCCESS]. do 2 f_equal.
  apply put_ctx_twice. exact (announce_same _ _ _ _ Ea).
Qed.

(** ** The binlog *)

(** The number of the file, which of the logs, and where to start. *)
Definition binlog_body (index kind offset : Z) : bytes := int2buff index ++ int2buff kind ++ long2buff offset.

Definition log_name (cf : service_conf) (kind : Z) : bytes := if kind =? LOCAL_BINLOG then sc_binlog cf else sc_rbinlog cf.

Lemma dispatch_masterbinlog cf e s c index kind offset file t : mallocs_ok e -> slot_ok s c -> req_body c = binlog_body index kind offset ++ t -> is_s 32 index -> is_s 64 offset ->
  kind = LOCAL_BINLOG \/ kind = REMOTE_BINLOG -> path_content cf s (BINLOG_FILENAME (log_name cf kind) index) = Some file -> is_s 64 (zlen file - offset) -> exists f,
  dispatch_cmd cf e s c PROTOCOL_CMD_FULL_SYNC_COPY_MASTER_BINLOG =
    (c ← announce (with_fctx c true) PROTOCOL_CMD_FULL_SYNC_COPY_MASTER_BINLOG (zlen file - offset);
     Ret (put_ctx s c (send_ctx f (BINLOG_FILENAME (log_name cf kind) index) offset (zlen file - offset)), c)).
Proof.
  intros Hm Hs Hreq Hi Ho Hk Hp Hsz. destruct (new_ctx_ok e s c FILE_OP_TYPE_READ Hm Hs) as (f & Hnew & Hb & Hctx). exists (fctx_renew f FILE_OP_TYPE_READ).
  change (dispatch_cmd cf e s c PROTOCOL_CMD_FULL_SYNC_COPY_MASTER_BINLOG) with ('(s, c, resp_status) ← handle_cmd_copymasterbinlog cf e s c;
    if negb (resp_status =? 0) then c ← handle_protocol_error c resp_status; Ret (s, c) else Ret (s, c)).
  assert (buff2int (req_body c) = Ret index /\ buff2int (drop 4 (req_body c)) = Ret kind /\ buff2long (drop 8 (req_body c)) = Ret offset) as (F1 & F2 & F3).
  { rewrite Hreq. unfold binlog_body. rewrite <- !app_assoc. assert (forall a (x : bytes), drop 4 (int2buff a ++ x) = x) as D4 by done.
    rewrite D4. change 8%nat with (4 + 4)%nat. rewrite <- drop_drop, !D4, !buff2int_int2buff, buff2long_decode.
    rewrite !s_wrap_id by (done || by destruct Hk as [-> | ->]). done. }
  unfold handle_cmd_copymasterbinlog. rewrite F1, F2, F3. cbn [mbind outcome_bind].
  assert (negb ((kind =? LOCAL_BINLOG) || (kind =? REMOTE_BINLOG)) = false) as -> by (by destruct Hk as [-> | ->]). cbv zeta.
  fold (log_name cf kind). rewrite Hnew. cbn [mbind outcome_bind]. change (path_content cf (put_ctx s c ?g) ?n) with (path_content cf s n). rewrite Hp.
  rewrite s_wrap_id by done. destruct (announce _ _ _) as [c'|] eqn:Ea; [|done]. cbn [mbind outcome_bind negb Z.eqb PROTOCOL_RESP_STATUS_SUCCESS]. do 2 f_equal.
  apply put_ctx_twice. exact (announce_same _ _ _ _ Ea).
Qed.

(** ** Theorems *)

(** A file of the binlog: the master answers with the number of bytes from the
    offset to the end of the file, followed by these bytes, and waits for the
    next request; nothing of the server changes.  The status byte of the answer
    is not set: it is what the write buffer holds. *)
Theorem binlog_file_served cf uninit senvs denvs w index kind offset file st padding d0 rest data : well cf senvs denvs w -> received w [] ->
  is_s 32 index -> kind = LOCAL_BINLOG \/ kind = REMOTE_BINLOG -> 0 <= offset <= zlen file -> zlen file < 2 ^ 63 ->
  path_content cf (m_srv w) (BINLOG_FILENAME (log_name cf kind) index) = Some file ->
  stream (m_in w) = message PROTOCOL_CMD_FULL_SYNC_COPY_MASTER_BINLOG st padding (binlog_body index kind offset) ++ data -> length padding = 6%nat ->
  m_in w = RData d0 :: rest -> arrives (m_in w) -> (16 <= length d0)%nat -> 32 <= rsize (m_conn w) -> plenty (m_out w) (24 + (zlen file - offset)) ->
  reach cf uninit senvs denvs w (fun w' => received w' [] /\ unchanged (m_srv w) (m_srv w') /\ stream (m_in w') = data /\
    m_sent w' = m_sent w ++ (le64 8 ++ [PROTOCOL_CMD_FULL_SYNC_COPY_MASTER_BINLOG]) ++ take 7 (drop 9 (wbuff (m_conn w))) ++ long2buff (zlen file - offset) ++ drop (Z.to_nat offset) file).
Proof.
  intros Hwell Hr Hi Hk Ho Hf Hp Hst Hpad Hin Ha Hd0 Hrs Hpl.
  apply (read_request cf uninit senvs denvs w d0 rest _ _ _ _ _ _ Hr Hin Ha Hd0 Hst Hpad ltac:(by vm_compute) Hrs). intros w2 Hr2 Hsr Ha2 Hst2.
  apply (announced_dispatch cf uninit senvs denvs w w2 PROTOCOL_CMD_FULL_SYNC_COPY_MASTER_BINLOG st padding (binlog_body index kind offset) (BINLOG_FILENAME (log_name cf kind) index) offset (zlen file - offset) file); try done; try lia.
  - intros t c Hreq Hc. apply (dispatch_masterbinlog cf _ _ c index kind offset file t); try done; [apply (wl_mallocs _ _ _ _ Hwell)| |unfold is_s; lia..].
    rewrite Hc. apply (wl_slot _ _ _ _ Hwell).
  - intros w' H1 H2 H3 H4. split_and!; [done|done|by rewrite H3|]. rewrite H4. f_equal. by rewrite <- !app_assoc.
Qed.

(** C14. A file of a full synchronisation, both ends: the slave's request is read by
    the master, which sends the file it has at that path and waits for the next
    request; nothing of the master changes.  When the slave reports
    [F_SYNC_OK] on what the master has sent, the slave has the same bytes at the
    same path, and on any other result its other files are untouched. *)
Theorem full_sync_copied cf uninit senvs denvs w r req file d0 rest n : well cf senvs denvs w -> received w [] -> wbuff (m_conn w) = zeros n ->
  no_nul (f_block_map_name r) -> (length (f_block_map_name r) < MAX_PATH_SIZE)%nat -> data_request (f_block_map_name r) = Ret req ->
  path_content cf (m_srv w) (f_block_map_name r) = Some file -> zlen file < 2 ^ 63 ->
  stream (m_in w) = req -> m_in w = RData d0 :: rest -> arrives (m_in w) -> (16 <= length d0)%nat -> zlen req <= rsize (m_conn w) -> plenty (m_out w) (24 + zlen file) ->
  reach cf uninit senvs denvs w (fun w' => received w' [] /\ unchanged (m_srv w) (m_srv w') /\ exists sent, m_sent w' = m_sent w ++ sent /\
    forall e sw sw' st more, rf_open (fe_recvfile e) = true -> rf_lseek (fe_recvfile e) = true -> sk_in (fw_sock sw) = sent ++ more -> __full_sync_handle e sw r = Ret (sw', st) ->
      (st = F_SYNC_OK /\ fw_files sw' = <[f_block_map_name r := file]> (fw_files sw) /\ sk_in (fw_sock sw') = more /\ sk_out (fw_sock sw') = sk_out (fw_sock sw) ++ req) \/
      (st = F_SYNC_NETWORK_ERROR /\ base.delete (f_block_map_name r) (fw_files sw') = base.delete (f_block_map_name r) (fw_files sw))).
Proof.
  intros Hwell Hr Hz Hn Hl Hreq Hp Hf Hst Hin Ha Hd0 Hrs Hpl. assert (zlen (f_block_map_name r) <= Z.of_nat MAX_PATH_SIZE) as Hl2 by (unfold zlen; lia).
  destruct (data_request_bytes _ Hl2) as [Hbytes Hblen]. rewrite Hreq in Hbytes. injection Hbytes as ->. set (body := data_body (f_block_map_name r)) in *.
  assert (zlen (message PROTOCOL_CMD_FULL_SYNC_COPY_MASTER_DATA 0 (zeros 6) body) = 276) as Hmsg by (rewrite message_split, zlen_app, zlen_head16, Hblen by done; done).
  rewrite <- (app_nil_r (message _ _ _ _)) in Hst. pose proof (zlen_pos file).
  apply (read_request cf uninit senvs denvs w d0 rest _ _ _ _ _ _ Hr Hin Ha Hd0 Hst eq_refl); [by rewrite Hblen|lia|]. intros w2 Hr2 Hsr Ha2 Hst2.
  apply (announced_dispatch cf uninit senvs denvs w w2 PROTOCOL_CMD_FULL_SYNC_COPY_MASTER_DATA 0 (zeros 6) body (f_block_map_name r) 0 (zlen file) file); try done; try lia; [by rewrite Hblen| |].
  { intros t c Hq Hc. apply (dispatch_masterdata cf _ _ c (f_block_map_name r) file t); try done; [apply (wl_mallocs _ _ _ _ Hwell)|]. rewrite Hc. apply (wl_slot _ _ _ _ Hwell). }
  intros w' H1 H2 H3 H4. split_and!; [done|done|]. eexists. split; [exact H4|]. intros e sw sw' st more He1 He2 Hsk Hh.
  eapply (full_sync_file_received e sw r sw' st PROTOCOL_CMD_FULL_SYNC_COPY_MASTER_DATA (zeros 6) file more) in Hh; try done.
  - destruct Hh as [(-> & Hfs & Hmore & req' & Hreq' & Hout)|Hh]; [left|by right]. rewrite Hreq in Hreq'. injection Hreq' as <-. done.
  - rewrite Hsk. assert (take 7 (drop 9 (wbuff (m_conn w))) = zeros 7) as ->.
    { rewrite Hz. pose proof (wl_wbuff _ _ _ _ Hwell) as Hw. rewrite Hz in Hw. unfold zlen, zeros in *. rewrite length_replicate in Hw. rewrite drop_replicate, take_replicate. f_equal. lia. }
    unfold response_bytes, header_bytes. rewrite <- !app_assoc. done.
Qed.

(** ** Examples *)

Definition demo_log_file : bytes := default [] (path_content demo_sconf (demo_server demo_files) (BINLOG_FILENAME (log_name demo_sconf LOCAL_BINLOG) 0)).
Definition demo_log_request : bytes := message PROTOCOL_CMD_FULL_SYNC_COPY_MASTER_BINLOG 0 (zeros 6) (binlog_body 0 LOCAL_BINLOG 60).
Definition demo_pieces (req : bytes) : list rres := [RData (take 17 req); RErr EAGAIN; RData (drop 17 req)].

Lemma demo_pieces_arrive req : (17 < length req)%nat -> arrives (demo_pieces req).
Proof.
  intros H. assert (take 17 req <> [] /\ drop 17 req <> []) as [H1 H2].
  { split; intros E%(f_equal length); rewrite ?length_take, ?length_drop in E; cbn [length] in E; lia. }
  unfold demo_pieces. repeat (apply arrives_cons; split; [first [left; by eexists|by right]|]). constructor.
Qed.

Lemma binlog_file_served_witness :
  reach demo_sconf (fun _ => 0) demo_senvs demo_denvs (demo_out (demo_pieces demo_log_request)) (fun w' =>
    received w' [] /\ unchanged (demo_server demo_files) (m_srv w') /\ stream (m_in w') = [] /\
    m_sent w' = (le64 8 ++ [PROTOCOL_CMD_FULL_SYNC_COPY_MASTER_BINLOG]) ++ zeros 7 ++ long2buff 6 ++ drop 60 demo_log_file).
Proof.
  eapply (binlog_file_served demo_sconf (fun _ => 0) demo_senvs demo_denvs (demo_out (demo_pieces demo_log_request)) 0 LOCAL_BINLOG 60 demo_log_file 0 (zeros 6)
    (take 17 demo_log_request) _ [] (demo_out_well _) (demo_out_received _) ltac:(by vm_compute) (or_introl eq_refl));
    [by vm_compute|by vm_compute|by vm_compute|by vm_compute|done|reflexivity|by apply demo_pieces_arrive, Nat.ltb_lt|by apply Nat.leb_le|by vm_compute|by apply demo_plenty].
Defined.

Definition demo_sync_request : bytes := match data_request (f_block_map_name (demo_rec 7 "00/00/b")) with Ret req => req | Crash _ => [] end.

Lemma full_sync_copied_witness : let r := demo_rec 7 "00/00/b" in let file := [11; 12; 13; 14; 15; 16; 17] in
  reach demo_sconf (fun _ => 0) demo_senvs demo_denvs (demo_out (demo_pieces demo_sync_request)) (fun w' =>
    received w' [] /\ unchanged (demo_server demo_files) (m_srv w') /\ exists sent, m_sent w' = [] ++ sent /\
    forall e sw sw' st more, rf_open (fe_recvfile e) = true -> rf_lseek (fe_recvfile e) = true -> sk_in (fw_sock sw) = sent ++ more -> __full_sync_handle e sw r = Ret (sw', st) ->
      (st = F_SYNC_OK /\ fw_files sw' = <[f_block_map_name r := file]> (fw_files sw) /\ sk_in (fw_sock sw') = more /\ sk_out (fw_sock sw') = sk_out (fw_sock sw) ++ demo_sync_request) \/
      (st = F_SYNC_NETWORK_ERROR /\ base.delete (f_block_map_name r) (fw_files sw') = base.delete (f_block_map_name r) (fw_files sw))).
Proof.
  eapply (full_sync_copied demo_sconf (fun _ => 0) demo_senvs demo_denvs (demo_out (demo_pieces demo_sync_request)) (demo_rec 7 "00/00/b") demo_sync_request [11; 12; 13; 14; 15; 16; 17]
    (take 17 demo_sync_request) _ 64 (demo_out_well _) (demo_out_received _) eq_refl);
    [by repeat constructor|by apply Nat.ltb_lt|by vm_compute|by vm_compute|by vm_compute|by vm_compute|reflexivity|by apply demo_pieces_arrive, Nat.ltb_lt|by apply Nat.leb_le|by vm_compute|by apply demo_plenty].
Defined.
