(* ===== verification/DsFaults.v ===== *)
(** * Requests that bring a data server down, or that it drops

    The third part of the theorems about [DsNet]: requests that are not
    well-formed, and requests that are but do not get an answer.  A crash is a
    memory error or a failed assertion of the program. *)
From S2P Require Import Prelude Codec CString Lines ListH TsQueue TsConn Protocol TsThread DsBlock DsBinlog ClientIo DsSync DsFile DsConn DsService DsDiskIo DsNet DsServe DsSend.

Lemma buf_write_overflow b off d : zlen b < off + zlen d -> buf_write b off d = Crash OutOfBounds.
Proof.
  intros H. unfold buf_write, zlen in *. destruct (Z.leb_spec (off + Z.of_nat (length d)) (Z.of_nat (length b))); [lia|]. by rewrite andb_false_r.
Qed.

Section Faults.
Context (cf : service_conf) (uninit : nat -> Z) (senvs : nat -> service_env) (denvs : nat -> dio_env).

Abbreviation round := (machine_round cf uninit senvs).

Lemma machine_crash fuel w e : round w = Crash e -> __state_machine cf uninit senvs (S fuel) w = Crash e.
Proof. intros H. cbn [__state_machine]. by rewrite H. Qed.

Lemma turn_next fuel w w1 : round w = Ret (w1, false) -> __state_machine cf uninit senvs (S fuel) w = __state_machine cf uninit senvs fuel w1.
Proof. intros H. cbn [__state_machine]. by rewrite H. Qed.

Lemma turn_machine fuel w : m_at w = AtNet -> turn cf uninit senvs denvs fuel w = __state_machine cf uninit senvs fuel w.
Proof. intros H. unfold turn, __event_handler_callback. by rewrite H, Z.eqb_refl. Qed.

(** The header of a request is read and looked at. *)
Lemma header_round w d0 rest : received w [] -> m_in w = RData d0 :: rest -> arrives (m_in w) -> (16 <= length d0)%nat -> 16 <= rsize (m_conn w) ->
  exists w1, received w1 (take 16 (stream (m_in w))) /\ same_rest w w1 /\ arrives (m_in w1) /\ stream (m_in w1) = drop 16 (stream (m_in w)) /\
    round w = Ret (in_parse w1, false).
Proof.
  intros Hr Hin Ha Hd0 Hs. destruct (read_header w d0 rest (pred (script_size (m_in w))) Hr Hin Ha Hd0 Hs) as (w1 & Hres & Hr1 & Hsr & Ha1 & Hs1).
  exists w1. split_and!; try done. assert (S (pred (script_size (m_in w))) = script_size (m_in w)) as Hpr by (rewrite Hin; done). rewrite Hpr in Hres.
  unfold machine_round. pose proof Hr as [_ R2 _ _ R5 _ _ _]. rewrite R2. unfold __network_read, __network_read_header. rewrite R5, Hres. done.
Qed.

(** *** A command that is not known *)

Definition known (cmd : Z) : Prop :=
  cmd ∈ [PROTOCOL_CMD_FILE_UPLOAD; PROTOCOL_CMD_FILE_DOWNLOAD; PROTOCOL_CMD_ASYNC_COPY_FILE; PROTOCOL_CMD_FULL_SYNC_GET_MASTER_BINLOG_METE;
         PROTOCOL_CMD_FULL_SYNC_COPY_MASTER_BINLOG; PROTOCOL_CMD_FULL_SYNC_COPY_MASTER_DATA].

Lemma dispatch_unknown e s c cmd : ~ known cmd -> dispatch_cmd cf e s c cmd = Ret (s, c).
Proof.
  unfold known, dispatch_cmd. rewrite !not_elem_of_cons. intros (H1 & H2 & H3 & H4 & H5 & H6 & _).
  repeat (match goal with |- context [cmd =? ?k] => destruct (Z.eqb_spec cmd k); [done|] end). done.
Qed.

Lemma unknown_aborts fuel w d0 rest cmd st padding data : received w [] -> m_in w = RData d0 :: rest -> arrives (m_in w) -> (16 <= length d0)%nat -> 16 <= rsize (m_conn w) ->
  stream (m_in w) = message cmd st padding [] ++ data -> length padding = 6%nat -> is_u 8 cmd -> ~ known cmd ->
  turn cf uninit senvs denvs (S (S (S fuel))) w = Crash AssertFailed.
Proof.
  intros Hr Hin Ha Hd0 Hs Hst Hp Hc Hk. rewrite turn_machine by apply Hr. destruct (header_round w d0 rest Hr Hin Ha Hd0 Hs) as (w1 & Hr1 & Hsr & _ & _ & Hm). rewrite (turn_next _ _ _ Hm).
  assert (length (message cmd st padding []) = 16%nat) as H16.
  { rewrite message_split, app_nil_r. pose proof (zlen_head16 cmd st padding [] Hp) as H. unfold zlen in H. lia. }
  rewrite Hst, take_app_length' in Hr1 by done.
  pose proof (round_dispatch cf uninit senvs w1 cmd st padding [] Hr1 Hp Hc ltac:(done)) as Hround. rewrite dispatch_unknown in Hround by done. cbn [mbind outcome_bind] in Hround.
  rewrite (turn_next _ _ _ Hround). apply machine_crash. unfold machine_round, handed. cbn [m_conn next_tick with_srv].
  assert (state (with_read (m_conn (in_parse w1)) (rbuff (m_conn w1)) sizeof_protocol_header (rsize (m_conn w1)) (zlen (@nil Z))) = conn_parse_cmd) as -> by apply (state_to w1 conn_parse_cmd).
  done.
Qed.

(** *** A body that is too long *)

(** A header that announces more than has come is put aside, whatever its
    length. *)
Lemma put_aside w h n : received w h -> zlen h = 16 -> (forall r, header_body_len (h ++ r) = Ret n) -> 0 < n -> round (in_parse w) = Ret (to w conn_waiting, false).
Proof.
  intros [_ _ _ _ R5 [r R6] _ _] Hl Hh Hn. unfold machine_round. unfold in_parse at 1. rewrite state_to. unfold __parse_protocol_cmd.
  destruct (in_parse_read w) as (-> & -> & _). rewrite R5, R6, Hl. cbn [Z.leb Z.ltb Z.compare]. unfold sizeof_protocol_header. cbn [Z.ltb Z.compare Pos.compare Pos.compare_cont].
  rewrite Hh. cbn [mbind outcome_bind]. destruct (Z.leb_spec n (16 - 16)) as [Hb|_]; [lia|]. cbn [mbind outcome_bind Z.eqb]. unfold in_parse. by rewrite to_to.
Qed.

(** The file context of a connection is there when the connection has one. *)
Definition ctx_there (s : server) (c : conn) : Prop := fctx c = true -> exists f, ctx_of s c = Ret f.

Lemma close_ok w : ctx_there (m_srv w) (m_conn w) ->
  exists w', close_conn w = Ret w' /\ m_at w' = Nowhere /\ unchanged (m_srv w) (m_srv w') /\ m_sent w' = m_sent w /\ m_curr w' = u32 (m_curr w - 1).
Proof.
  intros Hc. unfold close_conn, conn_shut, __conn_clean, on_fctx. destruct (fctx (m_conn w)) eqn:E.
  - destruct (Hc E) as [f Hf]. unfold ctx_of in Hf. rewrite Hf. cbn [mbind outcome_bind]. eexists. split_and!; [reflexivity|done|done|done|done].
  - cbn [mbind outcome_bind]. eexists. split_and!; [reflexivity|done|done|done|done].
Qed.

Lemma too_large_closed w d0 rest cmd st padding n data (P : machine -> Prop) : received w [] -> m_in w = RData d0 :: rest -> arrives (m_in w) -> (16 <= length d0)%nat -> 16 <= rsize (m_conn w) ->
  stream (m_in w) = header_bytes n cmd st ++ padding ++ data -> length padding = 6%nat -> MAX_PACKAGE_DATA_SIZE < n < 2 ^ 63 -> 10 <= zlen (wbuff (m_conn w)) ->
  ctx_there (m_srv w) (m_conn w) ->
  (forall w', m_at w' = Nowhere -> m_sent w' = m_sent w -> unchanged (m_srv w) (m_srv w') -> m_curr w' = u32 (m_curr w - 1) -> P w') -> reach cf uninit senvs denvs w P.
Proof.
  intros Hr Hin Ha Hd0 Hs Hst Hp Hn Hw Hctx HP. set (h := header_bytes n cmd st ++ padding). unfold MAX_PACKAGE_DATA_SIZE in Hn.
  assert (length h = 16%nat) as Hh by (unfold h; rewrite length_app, Hp; done). assert (forall r, header_body_len (h ++ r) = Ret n) as Hlen.
  { intros r. unfold h, header_bytes. rewrite <- !app_assoc. apply le64_decode. lia. }
  destruct (header_round w d0 rest Hr Hin Ha Hd0 Hs) as (w1 & Hr1 & Hsr & Ha1 & Hs1 & Hm). rewrite Hst, app_assoc, take_app_length' in Hr1 by done. fold h in Hr1.
  destruct Hsr as (S1 & S2 & S3 & S4 & S5 & S6 & S7).
  assert (round w1 = Ret (to (with_conn w1 (set_conn_state (with_write (m_conn w1) (header_bytes 0 (u8 cmd) PROTOCOL_RESP_STATUS_ERROR_PACKAGESIZE_OVERFLOW ++ drop 10 (wbuff (m_conn w))) sizeof_protocol_header) conn_write)) conn_closed, false)) as Hround.
  { unfold machine_round. rewrite (rc_state _ _ Hr1). unfold __network_read. rewrite (rc_bytes _ _ Hr1). unfold zlen at 1. rewrite Hh. change (Z.of_nat 16 <? sizeof_protocol_header) with false. cbv iota.
    unfold __network_read_body. destruct (rc_buff _ _ Hr1) as [r Hb]. rewrite Hb, Hlen. cbn [mbind outcome_bind]. rewrite s_wrap_id by (try done; unfold is_s; lia).
    destruct (Z.ltb_spec MAX_PACKAGE_DATA_SIZE n) as [_|Hbad]; [|unfold MAX_PACKAGE_DATA_SIZE in Hbad; lia]. unfold handle_protocol_error.
    rewrite (resp_header _ (u8 cmd)); [| |by rewrite S7]; [by rewrite S7|]. rewrite Hb. unfold h, header_bytes. cbn [app le64 fmap list_fmap]. unfold zlookup. by cbn. }
  set (w3 := to _ conn_closed) in Hround. destruct (close_ok w3) as (w' & Hclose & C1 & C2 & C3 & C4).
  { assert (fctx (m_conn w3) = fctx (m_conn w) /\ sfd (m_conn w3) = sfd (m_conn w)) as [E1 E2] by (unfold w3, to; rewrite !set_conn_state_eq; cbn; by rewrite S7).
    unfold ctx_there, ctx_of, get_fctx in *. change (m_srv w3) with (m_srv w1). by rewrite E1, E2, S1. }
  assert (m_at w3 = AtNet) as A3 by exact (rc_at _ _ Hr1).
  refine (reach_round _ _ _ _ w (in_parse w1) _ (rc_at _ _ Hr) (rc_at _ _ Hr1) Hm _).
  refine (reach_round _ _ _ _ (in_parse w1) (to w1 conn_waiting) _ (rc_at _ _ Hr1) (rc_at _ _ Hr1) (put_aside w1 h n Hr1 ltac:(unfold zlen; lia) Hlen ltac:(lia)) _).
  refine (reach_flag _ _ _ _ (to w1 conn_waiting) w1 _ (rc_at _ _ Hr1) (round_pause _ _ _ w1 h Hr1) _).
  refine (reach_round _ _ _ _ w1 w3 _ (rc_at _ _ Hr1) A3 Hround _).
  refine (reach_flag_end _ _ _ _ w3 w' _ A3 _ _); [unfold machine_round, w3 at 1; rewrite state_to, Hclose; done|].
  apply HP; [done|by rewrite C3|by rewrite <- S1|by rewrite C4; change (m_curr w3) with (m_curr w1); rewrite S6].
Qed.

(** *** A header in pieces *)

(** Once the number of bytes received is one more than a multiple of sixteen the
    loop goes on until it meets a pause, or the end of the buffer. *)
Lemma header_overflow fuel w d rest k : rcurr (m_conn w) = 0 -> zlen (rbuff (m_conn w)) = rsize (m_conn w) -> rbytes (m_conn w) = 16 * Z.of_nat k + 1 -> m_in w = RData d :: rest ->
  rsize (m_conn w) - rbytes (m_conn w) < zlen d -> rbytes (m_conn w) <= rsize (m_conn w) -> (length d < fuel)%nat -> read_header_loop fuel w = Crash OutOfBounds.
Proof.
  revert w d k. induction fuel as [|fuel IH]; intros w d k Hc Hb Hk Hin Hd Hle Hf; [lia|]. cbn [read_header_loop]. rewrite Hin. unfold read_call.
  change (sizeof_protocol_header =? 0) with false. change (sizeof_protocol_header <? 0) with false. change (Z.to_nat sizeof_protocol_header) with 16%nat. cbv iota. cbn [sock_read].
  assert (0 < zlen d) as Hd0 by lia. destruct (Nat.leb_spec (length d) 16) as [Hl|Hl].
  - destruct d as [|x d]; [done|]. rewrite Hc. rewrite buf_write_overflow by lia. done.
  - assert (zlen (take 16 d) = 16) as Ht by (unfold zlen; rewrite length_take; lia). destruct (take 16 d) as [|x t] eqn:E; [done|]. rewrite <- E in Ht |- *. rewrite Hc.
    destruct (Z.leb_spec (rbytes (m_conn w) + 16) (rsize (m_conn w))) as [Hroom|Hroom]; [|rewrite buf_write_overflow by lia; done].
    destruct (buf_write (rbuff (m_conn w)) (0 + rbytes (m_conn w)) (take 16 d)) as [b|] eqn:Ew; cycle 1.
    { unfold buf_write in Ew. unfold zlen in *. destruct (Z.leb_spec 0 (0 + rbytes (m_conn w))); [|lia]. destruct (Z.leb_spec (0 + rbytes (m_conn w) + Z.of_nat (length (take 16 d))) (Z.of_nat (length (rbuff (m_conn w))))); [done|lia]. }
    cbn [mbind outcome_bind]. rewrite Ht. unfold sizeof_protocol_header. destruct (Z.eqb_spec (rbytes (m_conn w) + 16) 16); [lia|].
    apply (IH _ (drop 16 d) (S k)); cbn [m_conn with_conn rcurr rbuff rsize rbytes with_read m_in with_in]; try done.
    + rewrite <- Hb. unfold buf_write in Ew. destruct (_ && _) eqn:Eb; [|done]. injection Ew as <-. apply andb_true_iff in Eb as [E1%Z.leb_le E2%Z.leb_le]. unfold zlen in *.
      rewrite !length_app, length_take, length_drop. lia.
    + lia.
    + unfold zlen in *. rewrite length_drop. lia.
    + rewrite length_drop. lia.
Qed.

Lemma split_header fuel w x d rest : received w [] -> m_in w = RData [x] :: RData d :: rest -> 1 <= rsize (m_conn w) <= zlen d ->
  turn cf uninit senvs denvs (S fuel) w = Crash OutOfBounds.
Proof.
  intros Hr Hin Hs. pose proof Hr as [R1 R2 R3 R4 R5 [r R6] R7 R8]. cbn [app] in R6. rewrite turn_machine by done. apply machine_crash. unfold machine_round. rewrite R2.
  unfold __network_read. rewrite R5. change (zlen [] <? sizeof_protocol_header) with true. cbv iota. unfold __network_read_header. rewrite Hin.
  assert (exists F, script_size (RData [x] :: RData d :: rest) = S F /\ (length d < F)%nat) as (F & -> & HF) by (eexists; split; [reflexivity|]; cbn; lia).
  cbn [read_header_loop]. rewrite Hin. change (read_call (RData [x] :: RData d :: rest) sizeof_protocol_header) with (RData d :: rest, RData [x]).
  cbv iota beta. rewrite R4, R5, R6. change (zlen (@nil Z)) with 0. rewrite <- R6. rewrite R6 in R7. pose proof (buf_write_behind [] r [x] ltac:(change (zlen [x]) with 1; lia)) as W.
  cbn [app] in W. change (0 + zlen (@nil Z)) with (0 + 0) in W. rewrite <- R6 in W. rewrite W. cbn [mbind outcome_bind]. change (0 + zlen [x] =? sizeof_protocol_header) with false. cbv iota.
  erewrite (header_overflow _ _ d rest 0); [done|done| |done|done| | |exact HF]; cbn [m_conn with_conn rcurr rbuff rsize rbytes with_read m_in with_in]; change (0 + zlen [x]) with 1; try lia.
  unfold zlen in *. rewrite <- R7, R6. destruct r; [cbn in R7; lia|]. cbn. rewrite length_drop. cbn. lia.
Qed.

(** *** A body that is longer than the buffer *)

Lemma body_overflow fuel w h n d rest : received w h -> zlen h = 16 -> (forall r, header_body_len (h ++ r) = Ret n) -> rsize (m_conn w) - 16 < n <= MAX_PACKAGE_DATA_SIZE -> 16 < rsize (m_conn w) ->
  m_in w = RData d :: rest -> n <= zlen d -> turn cf uninit senvs denvs (S fuel) w = Crash OutOfBounds.
Proof.
  intros Hr Hh Hlen Hn Hs Hin Hd. pose proof Hr as [R1 R2 R3 R4 R5 [r R6] R7 R8]. unfold MAX_PACKAGE_DATA_SIZE in Hn. rewrite turn_machine by done. apply machine_crash. unfold machine_round. rewrite R2.
  unfold __network_read. rewrite R5, Hh. change (16 <? sizeof_protocol_header) with false. cbv iota. unfold __network_read_body. rewrite R6, Hlen. cbn [mbind outcome_bind].
  rewrite s_wrap_id by (try done; unfold is_s; lia). unfold MAX_PACKAGE_DATA_SIZE. destruct (Z.ltb_spec (8 * 1024) n); [lia|]. rewrite Hin. cbn [script_size Nat.add read_body_loop]. rewrite R5, Hh.
  destruct (Z.leb_spec (rsize (m_conn w)) 16); [lia|]. cbn [andb negb]. change (m_in (with_mem w (m_mem w))) with (m_in w). rewrite Hin, R5, Hh. unfold sizeof_protocol_header.
  replace (n - (16 - 16)) with n by lia. rewrite s_wrap_id by (try done; unfold is_s; lia). unfold read_call. destruct (Z.eqb_spec n 0); [lia|]. destruct (Z.ltb_spec n 0); [lia|]. cbn [sock_read].
  assert (exists inp d', (if (length d <=? Z.to_nat n)%nat then (rest, RData d) else (RData (drop (Z.to_nat n) d) :: rest, RData (take (Z.to_nat n) d))) = (inp, RData d') /\ zlen d' = n) as (inp & d' & -> & Hd').
  { destruct (Nat.leb_spec (length d) (Z.to_nat n)); [exists rest, d|eexists _, _]; (split; [reflexivity|]); unfold zlen in *; rewrite ?length_take; lia. }
  destruct d' as [|y d']; [done|]. rewrite R4, buf_write_overflow by (rewrite R7, Hd'; lia). done.
Qed.
End Faults.

(** ** Uploads *)

(** [lfs_fileupload_req]: 128 bytes of name, the size and the total size. *)
Definition upload_body (name : bytes) (size total : Z) : bytes := pad LFS_FILE_NAME_SIZE name ++ long2buff size ++ long2buff total.

Lemma upload_fields name size total t : no_nul name -> (length name < LFS_FILE_NAME_SIZE)%nat -> let req := upload_body name size total ++ t in
  c_string req = Ret name /\ buff2long (drop LFS_FILE_NAME_SIZE req) = Ret (s64 size) /\ buff2long (drop (LFS_FILE_NAME_SIZE + 8) req) = Ret (s64 total).
Proof.
  intros Hn Hl req. unfold req, upload_body. rewrite <- !app_assoc. assert (length (pad LFS_FILE_NAME_SIZE name) = LFS_FILE_NAME_SIZE) as Hp by (apply length_pad; lia). split_and!.
  - unfold pad, zeros. destruct (LFS_FILE_NAME_SIZE - length name)%nat as [|k] eqn:E; [lia|]. cbn [replicate]. rewrite <- app_assoc. by apply c_string_nul.
  - rewrite drop_app_length' by done. apply buff2long_decode.
  - rewrite <- drop_drop, drop_app_length' by done. rewrite drop_app_length' by done. apply buff2long_decode.
Qed.

(** ** Theorems *)

(** A header with a command that the server does not know and without a body
    stops the process: the request is dropped without an answer, and the next
    round of the state machine fails the assertion that something was read. *)
Theorem unknown_command_aborts cf uninit senvs denvs fuel w d0 rest cmd st padding data : received w [] -> m_in w = RData d0 :: rest -> arrives (m_in w) -> (16 <= length d0)%nat ->
  16 <= rsize (m_conn w) -> stream (m_in w) = message cmd st padding [] ++ data -> length padding = 6%nat -> is_u 8 cmd -> ~ known cmd ->
  turn cf uninit senvs denvs (S (S (S fuel))) w = Crash AssertFailed.
Proof. apply unknown_aborts. Qed.

(** A request that announces more than 8192 bytes is not answered: the response
    with the error is put together, but the connection is closed before it is
    sent.  Nothing of the server changes. *)
Theorem too_large_request_closed cf uninit senvs denvs w d0 rest cmd st padding n data : received w [] -> m_in w = RData d0 :: rest -> arrives (m_in w) -> (16 <= length d0)%nat ->
  16 <= rsize (m_conn w) -> stream (m_in w) = header_bytes n cmd st ++ padding ++ data -> length padding = 6%nat -> MAX_PACKAGE_DATA_SIZE < n < 2 ^ 63 ->
  10 <= zlen (wbuff (m_conn w)) -> ctx_there (m_srv w) (m_conn w) ->
  reach cf uninit senvs denvs w (fun w' => m_at w' = Nowhere /\ m_sent w' = m_sent w /\ unchanged (m_srv w) (m_srv w') /\ m_curr w' = u32 (m_curr w - 1)).
Proof. intros. by eapply too_large_closed. Qed.

(** C20. A header whose first byte arrives alone, with enough data behind it, is
    written over the end of the read buffer: sixteen bytes are asked for in every
    round, so that the number received never is sixteen. *)
Theorem split_header_overflows cf uninit senvs denvs fuel w x d rest : received w [] -> m_in w = RData [x] :: RData d :: rest -> 1 <= rsize (m_conn w) <= zlen d ->
  turn cf uninit senvs denvs (S fuel) w = Crash OutOfBounds.
Proof. apply split_header. Qed.

(** A body that fits into the limit of 8192 bytes but not into the read buffer,
    and has arrived, is written over the end of the buffer. *)
Theorem long_body_overflows cf uninit senvs denvs fuel w cmd st padding (n : Z) d rest : received w (header_bytes n cmd st ++ padding) -> length padding = 6%nat -> 16 < rsize (m_conn w) ->
  rsize (m_conn w) - 16 < n <= MAX_PACKAGE_DATA_SIZE -> m_in w = RData d :: rest -> n <= zlen d ->
  turn cf uninit senvs denvs (S fuel) w = Crash OutOfBounds.
Proof.
  intros Hr Hp Hs Hn Hin Hd. apply (body_overflow cf uninit senvs denvs fuel w _ n d rest Hr); try done; [unfold zlen; rewrite length_app, Hp; done|].
  intros r. unfold header_bytes. rewrite <- !app_assoc. apply le64_decode. unfold MAX_PACKAGE_DATA_SIZE in Hn. lia.
Qed.

(** C22. A well-formed upload for which there is memory and a mount point with room
    writes behind the 32 bytes in which the name of the file is put together,
    whatever the size of the machine id and whatever was uploaded: such a request
    is never answered. *)
Theorem upload_overflows cf e s c name size total m place t : mallocs_ok e -> slot_ok s c ->
  mount_block_map_polling (se_vfs e) (sc_ratio cf) (sc_max_file cf) (sc_sub cf) (sv_mounts s) (sfd c) (-1, -1, -1) = Ret (m, place, 0) ->
  req_body c = upload_body name size total ++ t -> no_nul name -> (length name < LFS_FILE_NAME_SIZE)%nat ->
  dispatch_cmd cf e s c PROTOCOL_CMD_FILE_UPLOAD = Crash OutOfBounds.
Proof.
  intros Hm Hs Hpoll Hreq Hn Hl. destruct (new_ctx_ok e s c FILE_OP_TYPE_WRITE Hm Hs) as (f & Hnew & _). destruct (upload_fields name size total t Hn Hl) as (F1 & F2 & F3). rewrite <- Hreq in F1, F2, F3.
  unfold dispatch_cmd. change (PROTOCOL_CMD_FILE_UPLOAD =? PROTOCOL_CMD_FILE_UPLOAD) with true. cbv iota. unfold handle_cmd_fileupload. rewrite Hnew. cbn [mbind outcome_bind].
  change (sv_mounts (put_ctx s c _)) with (sv_mounts s). change (sfd (with_fctx c true)) with (sfd c). change (f_place (fctx_renew f FILE_OP_TYPE_WRITE)) with (-1, -1, -1).
  rewrite Hpoll. cbn [mbind outcome_bind negb Z.eqb]. unfold copy_string. rewrite F1. cbn [mbind outcome_bind]. destruct (Nat.leb_spec (length name) LFS_FILE_NAME_SIZE); [|lia].
  cbn [mbind outcome_bind]. rewrite F2, F3. cbn [mbind outcome_bind]. unfold pack. rewrite metedata_pack_overflow. done.
Qed.

(** ** Examples *)

Definition demo_header (n cmd : Z) : bytes := header_bytes n cmd 0 ++ zeros 6.

Lemma unknown_command_aborts_witness :
  turn demo_sconf (fun _ => 0) demo_senvs demo_denvs 3 (demo_net ∅ [RData (demo_header 0 99)]) = Crash AssertFailed.
Proof.
  eapply (unknown_command_aborts demo_sconf (fun _ => 0) demo_senvs demo_denvs 0 (demo_net ∅ [RData (demo_header 0 99)]) (demo_header 0 99) [] 99 0 (zeros 6) [] (demo_received _ _) eq_refl);
    [apply arrives_cons; split; [left; by eexists|constructor]|by apply Nat.leb_le|by vm_compute|by vm_compute|done|by vm_compute|].
  unfold known. rewrite !not_elem_of_cons. split_and!; [vm_compute; discriminate..|apply not_elem_of_nil].
Defined.

Lemma too_large_request_closed_witness :
  reach demo_sconf (fun _ => 0) demo_senvs demo_denvs (demo_net ∅ [RData (demo_header 8193 19)])
    (fun w' => m_at w' = Nowhere /\ m_sent w' = [] /\ unchanged (demo_server ∅) (m_srv w') /\ m_curr w' = 0).
Proof.
  eapply (too_large_request_closed demo_sconf (fun _ => 0) demo_senvs demo_denvs (demo_net ∅ [RData (demo_header 8193 19)]) (demo_header 8193 19) [] 19 0 (zeros 6) 8193 [] (demo_received _ _) eq_refl);
    [apply arrives_cons; split; [left; by eexists|constructor]|by apply Nat.leb_le|by vm_compute|by vm_compute|done|by vm_compute|by vm_compute|done].
Defined.

Lemma split_header_overflows_witness :
  turn demo_sconf (fun _ => 0) demo_senvs demo_denvs 1 (demo_net ∅ [RData [0]; RData (zeros 400)]) = Crash OutOfBounds.
Proof. apply (split_header_overflows demo_sconf (fun _ => 0) demo_senvs demo_denvs 0 _ 0 (zeros 400) [] (demo_received _ _) eq_refl). by vm_compute. Defined.

(** The connection with a header in its buffer. *)
Definition demo_head_read (n : Z) (inp : list rres) : machine :=
  with_conn (demo_net ∅ inp) (DsConn.with_read demo_conn (demo_header n 19 ++ zeros 384) 0 400 16).

Lemma long_body_overflows_witness :
  turn demo_sconf (fun _ => 0) demo_senvs demo_denvs 1 (demo_head_read 385 [RData (zeros 385)]) = Crash OutOfBounds.
Proof.
  apply (long_body_overflows demo_sconf (fun _ => 0) demo_senvs demo_denvs 0 (demo_head_read 385 [RData (zeros 385)]) 19 0 (zeros 6) 385 (zeros 385) []); [|done|by vm_compute|by vm_compute|done|by vm_compute].
  split; try done. by exists (zeros 384).
Defined.

Definition demo_upload_conn : conn := DsConn.with_read demo_conn (demo_header 144 18 ++ upload_body (str "a.txt") 5 5 ++ zeros 240) 16 400 144.

Lemma upload_overflows_witness : dispatch_cmd demo_sconf (demo_senvs 0) (demo_server ∅) demo_upload_conn PROTOCOL_CMD_FILE_UPLOAD = Crash OutOfBounds.
Proof.
  eapply (upload_overflows demo_sconf (demo_senvs 0) (demo_server ∅) demo_upload_conn (str "a.txt") 5 5 _ _ (zeros 240) (conj eq_refl eq_refl));
    [|vm_compute; reflexivity|by vm_compute|by repeat constructor|by apply Nat.ltb_lt].
  exists (Some (zero_fctx 2 FILE_OP_TYPE_READ [])). split; [done|]. intros f Hf. injection Hf as <-. done.
Defined.
