(* ===== verification/Logger.v ===== *)
(** * The logger

    src/src/common/logger.c: lines are put together in a buffer of 64 KB and
    written to the log file at once, or when the buffer is full.  A mutex that
    checks for errors protects the buffer.  The state is the buffer, the files,
    and the owner of the mutex; what the operating system answers to a call is
    in [log_env]. *)
From S2P Require Import Prelude Codec CString Lines TsConn DsBlock.

(** ** The state *)

Definition LOG_EMERG : Z := 0.
Definition LOG_ALERT : Z := 1.
Definition LOG_CRIT : Z := 2.
Definition LOG_ERR : Z := 3.
Definition LOG_WARNING : Z := 4.
Definition LOG_NOTICE : Z := 5.
Definition LOG_INFO : Z := 6.
Definition LOG_DEBUG : Z := 7.

Definition LOG_BUFF_SIZE : Z := 64 * 1024.
Definition LINE_MAX : nat := 2048.
Definition EDEADLK : Z := 35.
Definition ENOSPC : Z := 28.

(** [g_log_level], [g_log_fd] ([None] is [STDERR_FILENO]), the files and what has
    been written to the standard error, the part of [log_buff] before
    [pcurrent_log_buff], [log_to_cache], and the thread that has
    [log_thread_lock]. *)
Record log_state := mk_log {
  lg_level : Z;
  lg_fd : option bytes;
  lg_files : gmap bytes bytes;
  lg_stderr : bytes;
  lg_buff : bytes;
  lg_cache : bool;
  lg_owner : option Z
}.

Definition set_level (l : log_state) (n : Z) : log_state := mk_log n (lg_fd l) (lg_files l) (lg_stderr l) (lg_buff l) (lg_cache l) (lg_owner l).
Definition set_log_fd (l : log_state) (p : option bytes) : log_state := mk_log (lg_level l) p (lg_files l) (lg_stderr l) (lg_buff l) (lg_cache l) (lg_owner l).
Definition set_log_buff (l : log_state) (b : bytes) : log_state := mk_log (lg_level l) (lg_fd l) (lg_files l) (lg_stderr l) b (lg_cache l) (lg_owner l).
Definition set_cache (l : log_state) (c : bool) : log_state := mk_log (lg_level l) (lg_fd l) (lg_files l) (lg_stderr l) (lg_buff l) c (lg_owner l).
Definition set_owner (l : log_state) (o : option Z) : log_state := mk_log (lg_level l) (lg_fd l) (lg_files l) (lg_stderr l) (lg_buff l) (lg_cache l) o.

(** The local time, the process and the thread, the results of the calls of
    [write] (the k-th one, of [n] bytes), [errno], and whether [fsync] succeeds. *)
Record log_tm := mk_tm { tm_year : Z; tm_mon : Z; tm_mday : Z; tm_hour : Z; tm_min : Z; tm_sec : Z }.
Record log_env := mk_logenv { le_tm : log_tm; le_pid : Z; le_self : Z; le_write : nat -> Z -> Z; le_errno : Z; le_fsync : bool }.

Definition errno_or (e : log_env) (dflt : Z) : Z := if negb (le_errno e =? 0) then le_errno e else dflt.

(** ** System calls *)

(** [pthread_mutex_lock] on a mutex that checks for errors: it waits for ever when
    another thread keeps the lock. *)
Definition log_lock (e : log_env) (l : log_state) : outcome (log_state * Z) :=
  match lg_owner l with
  | None => Ret (set_owner l (Some (le_self e)), 0)
  | Some t => if t =? le_self e then Ret (l, EDEADLK) else Crash Diverged
  end.

Definition log_unlock (e : log_env) (l : log_state) : log_state * Z :=
  match lg_owner l with
  | Some t => if t =? le_self e then (set_owner l None, 0) else (l, EPERM)
  | None => (l, EPERM)
  end.

(** The bytes that reach the file when [write] returns [r]. *)
Definition log_output (l : log_state) (d : bytes) (r : Z) : log_state :=
  let d := take (Z.to_nat r) d in
  match lg_fd l with
  | Some p => mk_log (lg_level l) (lg_fd l) (<[p := default [] (lg_files l !! p) ++ d]> (lg_files l)) (lg_stderr l) (lg_buff l) (lg_cache l) (lg_owner l)
  | None => mk_log (lg_level l) (lg_fd l) (lg_files l) (lg_stderr l ++ d) (lg_buff l) (lg_cache l) (lg_owner l)
  end.

Definition fsync_result (e : log_env) (l : log_state) (result : Z) : Z :=
  match lg_fd l with
  | Some _ => if le_fsync e then result else errno_or e EIO
  | None => result
  end.

(** Bytes behind those of the buffer; [sprintf] stores a zero behind them. *)
Definition put_buff (b d : bytes) (nul : Z) : outcome bytes := if zlen b + zlen d + nul <=? LOG_BUFF_SIZE then Ret (b ++ d) else Crash OutOfBounds.

(** ** Writing the buffer *)

(** The buffer is empty afterwards, whatever [write] returned; with [bNeedLock]
    the result is that of the unlock. *)
Definition logger_fsync (e : log_env) (bNeedLock : bool) (l : log_state) : outcome (log_state * Z) :=
  if zlen (lg_buff l) =? 0 then Ret (l, 0)
  else
    '(l, result) ← (if bNeedLock then log_lock e l else Ret (l, 0));
    let n := zlen (lg_buff l) in
    let r := le_write e 0 n in
    let l := log_output l (lg_buff l) r in
    let result := if negb (r =? n) then errno_or e EIO else result in
    let result := fsync_result e l result in
    let l := set_log_buff l [] in
    Ret (if bNeedLock then log_unlock e l else (l, result)).

(** [logger_fsync(false);] *)
Definition flush (e : log_env) (l : log_state) : outcome log_state := '(l, _) ← logger_fsync e false l; Ret l.

Definition logger_sync_func (e : log_env) (l : log_state) : outcome (log_state * Z) := logger_fsync e true l.

Definition logger_set_cache (l : log_state) (bLogCache : bool) : log_state := set_cache l bLogCache.

(** ** A line *)

Definition pr_02d (n : Z) : bytes := pad0 2 (pr_dec n).
Definition pr_04d (n : Z) : bytes := pad0 4 (pr_dec n).

(** ["[%04d-%02d-%02d %02d:%02d:%02d,%u,%u] %s - "] *)
Definition log_head (e : log_env) (caption : bytes) : bytes :=
  let t := le_tm e in
  str "[" ++ pr_04d (tm_year t + 1900) ++ str "-" ++ pr_02d (tm_mon t + 1) ++ str "-" ++ pr_02d (tm_mday t) ++ str " " ++
  pr_02d (tm_hour t) ++ str ":" ++ pr_02d (tm_min t) ++ str ":" ++ pr_02d (tm_sec t) ++ str "," ++ pr_dec (u32 (le_pid e)) ++ str "," ++ pr_dec (u32 (le_self e)) ++
  str "] " ++ caption ++ str " - ".

(** [text_len] bytes of the array [text]. *)
Definition text_read (text : bytes) (text_len : Z) : outcome bytes := if text_len <? 0 then Crash OutOfBounds else buf_read text 0 (Z.to_nat text_len).

Definition doLog (e : log_env) (caption text : bytes) (text_len : Z) (bNeedSync : bool) (l : log_state) : outcome log_state :=
  '(l, _) ← log_lock e l;
  if LOG_BUFF_SIZE <? u64 (text_len + 64) then Ret (log_unlock e l).1
  else
    l ← (if LOG_BUFF_SIZE <? u64 (zlen (lg_buff l) + text_len + 64) then flush e l else Ret l);
    b ← put_buff (lg_buff l) (log_head e caption) 1;
    t ← text_read text text_len;
    b ← put_buff b t 0;
    b ← put_buff b [10] 0;
    let l := set_log_buff l b in
    l ← (if negb (lg_cache l) || bNeedSync then flush e l else Ret l);
    Ret (log_unlock e l).1.

(** [vsnprintf(text, sizeof(text), ..)]: [full] is the whole text. *)
Definition vsnprintf_text (full : bytes) : bytes := pad LINE_MAX (take (LINE_MAX - 1) full).

(** [_DO_LOG] *)
Definition _DO_LOG (priority : Z) (caption : bytes) (bNeedSync : bool) (e : log_env) (full : bytes) (l : log_state) : outcome log_state :=
  if lg_level l <? priority then Ret l else doLog e caption (vsnprintf_text full) (zlen full) bNeedSync l.

Definition logger_emerg := _DO_LOG LOG_EMERG (str "EMERG") true.
Definition logger_alert := _DO_LOG LOG_ALERT (str "ALERT") true.
Definition logger_crit := _DO_LOG LOG_CRIT (str "CRIT") true.
Definition logger_error := _DO_LOG LOG_ERR (str "ERROR") false.
Definition logger_warning := _DO_LOG LOG_WARNING (str "WARNING") false.
Definition logger_notice := _DO_LOG LOG_NOTICE (str "NOTICE") false.
Definition logger_info := _DO_LOG LOG_INFO (str "INFO") true.
Definition logger_debug := _DO_LOG LOG_DEBUG (str "DEBUG") true.

(** The caption of a priority, and whether it is written at once. *)
Definition priority_of (priority : Z) : bytes * bool :=
  if priority =? LOG_DEBUG then (str "DEBUG", true)
  else if priority =? LOG_INFO then (str "INFO", true)
  else if priority =? LOG_NOTICE then (str "NOTICE", false)
  else if priority =? LOG_WARNING then (str "WARNING", false)
  else if priority =? LOG_ERR then (str "ERROR", false)
  else if priority =? LOG_CRIT then (str "CRIT", true)
  else if priority =? LOG_ALERT then (str "ALERT", true)
  else if priority =? LOG_EMERG then (str "EMERG", true)
  else (str "UNKOWN", false).

Definition logger_it (priority : Z) (e : log_env) (full : bytes) (l : log_state) : outcome log_state :=
  let '(caption, bNeedSync) := priority_of priority in doLog e caption (vsnprintf_text full) (zlen full) bNeedSync l.

(** ** Dumps *)

Definition TITLE_SIZE : nat := 1024.

(** The common part of [logger_string] and [logger_hex]: the title is put behind
    what the buffer holds, without a look at how much that is, and the buffer is
    written.  [false]: one of the early returns; the last of them keeps the lock
    and the buffer. *)
Definition dump_title (e : log_env) (caption title : bytes) (newline : bool) (l : log_state) : outcome (log_state * bool) :=
  let title_buff := pad TITLE_SIZE (take (TITLE_SIZE - 1) title) in
  let title_len := zlen title in
  '(l, result) ← log_lock e l;
  if negb (result =? 0) then Ret (l, false)
  else if LOG_BUFF_SIZE <? u64 (title_len + 64) then Ret ((log_unlock e l).1, false)
  else
    b ← put_buff (lg_buff l) (log_head e caption) 1;
    t ← text_read title_buff title_len;
    b ← put_buff b t 0;
    b ← (if newline then put_buff b [10] 0 else Ret b);
    let n := zlen b in
    let r := le_write e 0 n in
    let l := log_output (set_log_buff l b) b r in
    Ret (l, r =? n).

(** The bytes are written one by one; the results are not looked at. *)
Fixpoint dump_pieces (e : log_env) (k : nat) (pieces : list bytes) (l : log_state) : log_state :=
  match pieces with
  | [] => l
  | d :: rest => dump_pieces e (S k) rest (log_output l d (le_write e k (zlen d)))
  end.

Definition dump (e : log_env) (caption title : bytes) (newline : bool) (pieces : outcome (list bytes)) (l : log_state) : outcome log_state :=
  '(l, go) ← dump_title e caption title newline l;
  if negb go then Ret l
  else p ← pieces; Ret (log_unlock e (set_log_buff (dump_pieces e 1 (p ++ [[10]]) l) [])).1.

Definition logger_string (e : log_env) (caption title s : bytes) (len : Z) (l : log_state) : outcome log_state :=
  dump e caption title true (d ← buf_read s 0 (Z.to_nat len); Ret (map (fun x => [x]) d)) l.

Definition pr_04X (n : Z) : bytes := pad0 4 (pr_nat hex_digit_u 16 n).

(** The bytes from number [n] on. *)
Fixpoint hex_pieces (n : Z) (d : bytes) : list bytes :=
  match d with
  | [] => []
  | x :: d => (if n mod 16 =? 0 then [10 :: str "0x" ++ pr_04X n ++ str " "] else []) ++ [str "0x" ++ pr_02X x ++ str " "] ++ hex_pieces (n + 1) d
  end.

Definition logger_hex (e : log_env) (caption title s : bytes) (len : Z) (l : log_state) : outcome log_state :=
  dump e caption title false (d ← buf_read s 0 (Z.to_nat len); Ret (hex_pieces 0 d)) l.

(** ** The level *)

(** [pLogLevel] is [None] for a null pointer, otherwise the string. *)
Definition level_of (s : bytes) : option Z :=
  let named name n full := bool_decide (take n s = take n (str name)) || bool_decide (s = str full) in
  if named "DEBUG"%string 5%nat "LOG_DEBUG"%string then Some LOG_DEBUG
  else if named "INFO"%string 4%nat "LOG_INFO"%string then Some LOG_INFO
  else if named "NOTICE"%string 6%nat "LOG_NOTICE"%string then Some LOG_NOTICE
  else if named "WARN"%string 4%nat "LOG_WARNING"%string then Some LOG_WARNING
  else if named "ERR"%string 3%nat "LOG_ERR"%string then Some LOG_ERR
  else if named "CRIT"%string 4%nat "LOG_CRIT"%string then Some LOG_CRIT
  else if named "ALERT"%string 5%nat "LOG_ALERT"%string then Some LOG_ALERT
  else if named "EMERG"%string 5%nat "LOG_EMERG"%string then Some LOG_EMERG
  else None.

Definition set_logger_level (l : log_state) (pLogLevel : option bytes) : log_state :=
  match pLogLevel with
  | None => l
  | Some s => match level_of (toUppercase s) with Some n => set_level l n | None => l end
  end.

(** ** Start and end *)

(** The results of [pthread_mutexattr_init], [_settype], [pthread_mutex_init] and
    [pthread_mutexattr_destroy]. *)
Definition init_pthread_lock (r1 r2 r3 r4 : Z) : Z :=
  if negb (r1 =? 0) then r1 else if negb (r2 =? 0) then r2 else if negb (r3 =? 0) then r3 else if negb (r4 =? 0) then r4 else 0.

Record init_env := mk_initenv { ie_exists : bool; ie_mkdir : Z; ie_lock : Z; ie_open : Z }.

(** [ie_mkdir] is the [errno] of [mkdir], or zero. *)
Definition check_and_mk_log_dir (ie : init_env) : Z := if negb (ie_exists ie) && negb (ie_mkdir ie =? 0) then ie_mkdir ie else 0.

Definition logger_destroy (e : log_env) (l : log_state) : outcome log_state :=
  match lg_fd l with
  | None => Ret l
  | Some _ => '(l, _) ← logger_fsync e true l; Ret (set_owner (set_log_fd l None) None)
  end.

(** [ie_open] is the [errno] of [open], or zero; [fprintf] and [strerror] come
    before [errno] is used as the result. *)
Definition logger_init (e : log_env) (ie : init_env) (base_path filename_prefix : bytes) (l : log_state) : outcome (log_state * Z) :=
  let result := check_and_mk_log_dir ie in
  if negb (result =? 0) then Ret (l, result)
  else
    l ← logger_destroy e l;
    if negb (ie_lock ie =? 0) then Ret (l, ie_lock ie)
    else
      let l := set_owner l None in
      let logfile := take (MAX_PATH_SIZE - 1) (base_path ++ str "/logs/" ++ filename_prefix ++ str ".log") in
      if negb (ie_open ie =? 0) then Ret (set_log_fd l None, ie_open ie)
      else Ret (mk_log (lg_level l) (Some logfile) (<[logfile := default [] (lg_files l !! logfile)]> (lg_files l)) (lg_stderr l) (lg_buff l) (lg_cache l) (lg_owner l), 0).

(** ** Lemmas *)

(** What has been written to the log, and what was logged. *)
Definition written (l : log_state) : bytes := match lg_fd l with Some p => default [] (lg_files l !! p) | None => lg_stderr l end.
Definition journal (l : log_state) : bytes := written l ++ lg_buff l.

Definition tm_ok (t : log_tm) : Prop :=
  0 <= tm_year t + 1900 < 10000 /\ 0 <= tm_mon t + 1 < 100 /\ 0 <= tm_mday t < 100 /\ 0 <= tm_hour t < 100 /\ 0 <= tm_min t < 100 /\ 0 <= tm_sec t < 100.

(** The calls of [write] write everything. *)
Definition env_fine (e : log_env) : Prop := tm_ok (le_tm e) /\ forall k n, le_write e k n = n.

(** The lock is free and the buffer is inside its array. *)
Definition log_ok (l : log_state) : Prop := lg_owner l = None /\ zlen (lg_buff l) <= LOG_BUFF_SIZE.

Lemma length_padded k n : (1 <= k)%nat -> 0 <= n < 10 ^ Z.of_nat k -> (length (pad0 k (pr_dec n)) <= k)%nat.
Proof.
  intros Hk Hn. unfold pad0, pr_dec. zcase (n <? 0); [lia|]. pose proof (length_pr_digits_pow dec_digit 10 (S (Z.to_nat (Z.log2 n))) k n [] ltac:(lia) Hk Hn) as H.
  cbn [length] in H. rewrite length_app, length_replicate. unfold pr_nat. lia.
Qed.

Lemma length_pr_u32 n : (length (pr_dec (u32 n)) <= 10)%nat.
Proof.
  unfold pr_dec, pr_nat. pose proof (u_wrap_range 32 n ltac:(lia)) as Hr. unfold is_u in Hr. zcase (u32 n <? 0); [lia|].
  pose proof (length_pr_digits_pow dec_digit 10 (S (Z.to_nat (Z.log2 (u32 n)))) 10 (u32 n) [] ltac:(lia) ltac:(lia)) as H. cbn [length] in H. rewrite Nat.add_0_r in H. apply H. lia.
Qed.

(** What [doLog] reserves for the head of a line is enough for captions of up to
    sixteen bytes. *)
Lemma length_log_head e caption : tm_ok (le_tm e) -> (length (log_head e caption) <= 47 + length caption)%nat.
Proof.
  intros (T1 & T2 & T3 & T4 & T5 & T6). unfold log_head, pr_04d, pr_02d. repeat (rewrite length_app; cbn [length str]). cbv zeta.
  pose proof (length_padded 4 (tm_year (le_tm e) + 1900) ltac:(lia) ltac:(lia)). pose proof (length_padded 2 (tm_mon (le_tm e) + 1) ltac:(lia) ltac:(lia)).
  pose proof (length_padded 2 (tm_mday (le_tm e)) ltac:(lia) ltac:(lia)). pose proof (length_padded 2 (tm_hour (le_tm e)) ltac:(lia) ltac:(lia)).
  pose proof (length_padded 2 (tm_min (le_tm e)) ltac:(lia) ltac:(lia)). pose proof (length_padded 2 (tm_sec (le_tm e)) ltac:(lia) ltac:(lia)).
  pose proof (length_pr_u32 (le_pid e)). pose proof (length_pr_u32 (le_self e)). unfold str. cbn [length]. lia.
Qed.

(** Everything but the buffer and the files. *)
Definition same_setup (l l' : log_state) : Prop := lg_level l' = lg_level l /\ lg_fd l' = lg_fd l /\ lg_cache l' = lg_cache l.

Lemma output_all l : let l' := set_log_buff (log_output l (lg_buff l) (zlen (lg_buff l))) [] in
  journal l' = journal l /\ lg_buff l' = [] /\ lg_owner l' = lg_owner l /\ same_setup l l'.
Proof.
  cbv zeta. unfold journal, written, log_output, same_setup. rewrite take_zlen. destruct (lg_fd l) as [p|] eqn:E; cbn; rewrite ?E; split_and!; try done; rewrite app_nil_r; [|done].
  by rewrite lookup_insert_eq.
Qed.

Lemma flush_spec e l : env_fine e -> exists l', flush e l = Ret l' /\ journal l' = journal l /\ lg_buff l' = [] /\ lg_owner l' = lg_owner l /\ same_setup l l'.
Proof.
  intros [_ Hw]. unfold flush, logger_fsync. destruct (Z.eqb_spec (zlen (lg_buff l)) 0) as [Hz|Hz].
  - exists l. cbn [mbind outcome_bind]. split_and!; try done. by apply zlen_zero.
  - cbn [mbind outcome_bind]. rewrite Hw. eexists. split; [reflexivity|]. apply output_all.
Qed.

Lemma logger_sync_spec e l : env_fine e -> log_ok l -> exists l', logger_sync_func e l = Ret (l', 0) /\ journal l' = journal l /\ lg_buff l' = [] /\ log_ok l' /\ same_setup l l'.
Proof.
  intros [_ Hw] [Ho Hb]. unfold logger_sync_func, logger_fsync. destruct (Z.eqb_spec (zlen (lg_buff l)) 0) as [Hz|Hz].
  - exists l. split_and!; try done. by apply zlen_zero.
  - unfold log_lock. rewrite Ho. cbn [mbind outcome_bind]. rewrite Hw. set (l1 := set_owner l (Some (le_self e))). change (lg_buff l1) with (lg_buff l).
    pose proof (output_all l1) as (H1 & H2 & H3 & H4). set (l2 := set_log_buff _ []) in *. change (set_log_buff (log_output l1 (lg_buff l) (zlen (lg_buff l))) []) with l2.
    unfold log_unlock. rewrite H3. cbn [lg_owner l1 set_owner]. rewrite Z.eqb_refl. eexists. split; [reflexivity|]. split_and!; try done; try (by cbn; rewrite H2); by apply H4.
Qed.

Lemma put_buff_ok b d nul : zlen b + zlen d + nul <= LOG_BUFF_SIZE -> put_buff b d nul = Ret (b ++ d).
Proof. intros H. unfold put_buff. by destruct (Z.leb_spec (zlen b + zlen d + nul) LOG_BUFF_SIZE); [|lia]. Qed.

Lemma text_read_all full : (length full < LINE_MAX)%nat -> text_read (vsnprintf_text full) (zlen full) = Ret full.
Proof.
  intros H. unfold text_read, vsnprintf_text. pose proof (zlen_pos full). destruct (Z.ltb_spec (zlen full) 0); [lia|]. unfold LINE_MAX in *.
  rewrite (take_ge full) by lia. unfold pad. pose proof (buf_read_at [] full (zeros (2048 - length full)) 0 (Z.to_nat (zlen full)) eq_refl) as W. cbn [app] in W. apply W. unfold zlen. lia.
Qed.

Lemma doLog_spec e caption full sync l : env_fine e -> log_ok l -> (length full < LINE_MAX)%nat -> (length caption <= 16)%nat ->
  exists l', doLog e caption (vsnprintf_text full) (zlen full) sync l = Ret l' /\ log_ok l' /\ journal l' = journal l ++ log_head e caption ++ full ++ [10] /\ same_setup l l' /\
    (sync = true -> lg_buff l' = []).
Proof.
  intros He [Ho Hb] Hf Hc. pose proof (length_log_head e caption (proj1 He)) as Hh. unfold doLog, log_lock. rewrite Ho. cbn [mbind outcome_bind].
  set (l1 := set_owner l (Some (le_self e))). pose proof (zlen_pos full) as Hfp. pose proof (zlen_pos (lg_buff l)) as Hbp. assert (zlen full < 2048) as Hf2 by (unfold zlen, LINE_MAX in *; lia).
  unfold LOG_BUFF_SIZE in *. rewrite u_wrap_id by (unfold is_u; lia). destruct (Z.ltb_spec (64 * 1024) (zlen full + 64)); [lia|].
  assert (exists l2, (if 64 * 1024 <? u64 (zlen (lg_buff l1) + zlen full + 64) then flush e l1 else Ret l1) = Ret l2 /\ journal l2 = journal l /\ lg_owner l2 = Some (le_self e) /\
    same_setup l l2 /\ zlen (lg_buff l2) + zlen full + 64 <= 64 * 1024) as (l2 & -> & J2 & O2 & S2 & B2).
  { change (lg_buff l1) with (lg_buff l). rewrite u_wrap_id by (unfold is_u; lia). destruct (Z.ltb_spec (64 * 1024) (zlen (lg_buff l) + zlen full + 64)).
    - destruct (flush_spec e l1 He) as (l2 & -> & J & B & O & S). exists l2. split_and!; try done; try apply S. rewrite B. unfold zlen at 1. cbn. lia.
    - exists l1. split_and!; done. }
  cbn [mbind outcome_bind]. rewrite put_buff_ok by (unfold LOG_BUFF_SIZE, zlen in *; lia). cbn [mbind outcome_bind]. rewrite text_read_all by done. cbn [mbind outcome_bind].
  rewrite put_buff_ok by (unfold LOG_BUFF_SIZE; rewrite zlen_app; unfold zlen in *; lia). cbn [mbind outcome_bind].
  rewrite put_buff_ok by (unfold LOG_BUFF_SIZE; rewrite !zlen_app; unfold zlen in *; cbn [length]; lia). cbn [mbind outcome_bind].
  set (b := ((lg_buff l2 ++ log_head e caption) ++ full) ++ [10]). set (l3 := set_log_buff l2 b).
  assert (journal l3 = journal l ++ log_head e caption ++ full ++ [10]) as J3.
  { rewrite <- J2. unfold journal, l3, b, written. cbn [lg_fd lg_files lg_stderr lg_buff set_log_buff]. by rewrite <- !app_assoc. }
  assert (exists l4, (if negb (lg_cache l3) || sync then flush e l3 else Ret l3) = Ret l4 /\ journal l4 = journal l3 /\ lg_owner l4 = Some (le_self e) /\ same_setup l l4 /\
    zlen (lg_buff l4) <= 64 * 1024 /\ (sync = true -> lg_buff l4 = [])) as (l4 & -> & J4 & O4 & S4 & B4 & E4).
  { destruct (negb (lg_cache l3) || sync) eqn:E.
    - destruct (flush_spec e l3 He) as (l4 & -> & J & B & O & S1 & S3 & S5). exists l4. destruct S2 as (S6 & S7 & S8). unfold same_setup. rewrite B, O, S1, S3, S5. split_and!; done.
    - exists l3. apply orb_false_iff in E as [_ ->]. split_and!; try done; try apply S2. change (lg_buff l3) with b. unfold b. rewrite !zlen_app. unfold zlen in *. cbn [length]. lia. }
  cbn [mbind outcome_bind]. unfold log_unlock. rewrite O4, Z.eqb_refl. eexists. split; [reflexivity|]. rewrite <- J3, <- J4. split_and!; try done; apply S4.
Qed.

(** ** Runs *)

(** The functions for one priority each are one function. *)
Definition logger_at (priority : Z) : log_env -> bytes -> log_state -> outcome log_state := _DO_LOG priority (priority_of priority).1 (priority_of priority).2.

Lemma logger_functions : logger_emerg = logger_at LOG_EMERG /\ logger_alert = logger_at LOG_ALERT /\ logger_crit = logger_at LOG_CRIT /\ logger_error = logger_at LOG_ERR /\
  logger_warning = logger_at LOG_WARNING /\ logger_notice = logger_at LOG_NOTICE /\ logger_info = logger_at LOG_INFO /\ logger_debug = logger_at LOG_DEBUG.
Proof. by split_and!. Qed.

Inductive log_call := Log (priority : Z) (full : bytes) | LogIt (priority : Z) (full : bytes) | Sync | Cache (on : bool).

Definition do_call (e : log_env) (c : log_call) (l : log_state) : outcome log_state :=
  match c with
  | Log p full => logger_at p e full l
  | LogIt p full => logger_it p e full l
  | Sync => '(l, _) ← logger_sync_func e l; Ret l
  | Cache on => Ret (logger_set_cache l on)
  end.

Fixpoint do_calls (cs : list (log_env * log_call)) (l : log_state) : outcome log_state :=
  match cs with
  | [] => Ret l
  | (e, c) :: cs => l ← do_call e c l; do_calls cs l
  end.

(** The reference: the lines, one after the other. *)
Definition call_line (level : Z) (e : log_env) (c : log_call) : bytes :=
  match c with
  | Log p full => if level <? p then [] else log_head e (priority_of p).1 ++ full ++ [10]
  | LogIt p full => log_head e (priority_of p).1 ++ full ++ [10]
  | Sync | Cache _ => []
  end.

Definition call_ok (c : log_call) : Prop := match c with Log _ full | LogIt _ full => (length full < LINE_MAX)%nat | Sync | Cache _ => True end.

Lemma priority_caption p : (length (priority_of p).1 <= 16)%nat.
Proof. unfold priority_of. repeat match goal with |- context [p =? ?k] => destruct (p =? k) end; cbn; lia. Qed.

Lemma do_call_spec e c l : env_fine e -> call_ok c -> log_ok l ->
  exists l', do_call e c l = Ret l' /\ log_ok l' /\ journal l' = journal l ++ call_line (lg_level l) e c /\ lg_level l' = lg_level l.
Proof.
  intros He Hc Hl. destruct c as [p full|p full| |on]; cbn [do_call call_line call_ok] in *.
  - unfold logger_at, _DO_LOG. destruct (lg_level l <? p); [exists l; by rewrite app_nil_r|].
    destruct (doLog_spec e (priority_of p).1 full (priority_of p).2 l He Hl Hc (priority_caption p)) as (l' & H1 & H2 & H3 & H4 & _). exists l'. split_and!; try done; apply H4 || apply H2.
  - unfold logger_it. pose proof (priority_caption p) as Hp. destruct (priority_of p) as [cap sync].
    destruct (doLog_spec e cap full sync l He Hl Hc Hp) as (l' & H1 & H2 & H3 & H4 & _). exists l'. split_and!; try done; apply H4 || apply H2.
  - destruct (logger_sync_spec e l He Hl) as (l' & -> & H1 & H2 & H3 & H4). exists l'. rewrite app_nil_r. split_and!; try done; apply H3 || apply H4.
  - exists (set_cache l on). rewrite app_nil_r. split_and!; try done; apply Hl.
Qed.

(** ** Theorems *)

(** C18. Logging is appending lines: with messages of less than 2048 bytes and a file
    that takes every write whole, whatever is cached or written at once, and
    whenever the buffer is written, the calls return and the log and the buffer
    together hold, after what they held before, the lines of the calls in order:
    every call of [logger_it], and of the other functions those whose priority is
    at or below the level.  The array of 64 KB is never left. *)
Theorem log_lines_in_order cs l : Forall (fun ec => env_fine ec.1 /\ call_ok ec.2) cs -> log_ok l ->
  exists l', do_calls cs l = Ret l' /\ log_ok l' /\ journal l' = journal l ++ concat ((fun ec => call_line (lg_level l) ec.1 ec.2) <$> cs).
Proof.
  intros Hcs. revert l. induction Hcs as [|[e c] cs [He Hc] _ IH]; intros l Hl; cbn [do_calls fmap list_fmap concat].
  - exists l. by rewrite app_nil_r.
  - destruct (do_call_spec e c l He Hc Hl) as (l1 & -> & Hl1 & J1 & V1). cbn [mbind outcome_bind]. destruct (IH l1 Hl1) as (l' & -> & Hl' & J'). exists l'. split_and!; try done; try apply Hl'.
    rewrite J', J1, V1. by rewrite <- app_assoc.
Qed.

(** A message of more than 2048 bytes is copied from an array of 2048: the length
    is what the message would have had. *)
Theorem long_message_overread e full l p : log_ok l -> tm_ok (le_tm e) -> p <= lg_level l -> 2048 < zlen full -> zlen (lg_buff l) + zlen full + 64 <= LOG_BUFF_SIZE ->
  logger_at p e full l = Crash OutOfBounds.
Proof.
  intros [Ho Hb] Ht Hp Hf Hs. unfold logger_at, _DO_LOG. destruct (Z.ltb_spec (lg_level l) p); [lia|]. pose proof (length_log_head e (priority_of p).1 Ht) as Hh. pose proof (priority_caption p).
  unfold doLog, log_lock. rewrite Ho. cbn [mbind outcome_bind]. set (l1 := set_owner _ _). pose proof (zlen_pos (lg_buff l)). unfold LOG_BUFF_SIZE in *.
  rewrite u_wrap_id by (unfold is_u; lia). destruct (Z.ltb_spec (64 * 1024) (zlen full + 64)); [lia|]. change (lg_buff l1) with (lg_buff l). rewrite u_wrap_id by (unfold is_u; lia).
  destruct (Z.ltb_spec (64 * 1024) (zlen (lg_buff l) + zlen full + 64)); [lia|]. cbn [mbind outcome_bind]. change (lg_buff l1) with (lg_buff l).
  rewrite put_buff_ok by (unfold LOG_BUFF_SIZE, zlen in *; lia). cbn [mbind outcome_bind]. unfold text_read. destruct (Z.ltb_spec (zlen full) 0); [lia|]. unfold buf_read, vsnprintf_text.
  rewrite length_pad by (unfold LINE_MAX; rewrite length_take; lia). destruct (Z.leb_spec (0 + Z.of_nat (Z.to_nat (zlen full))) (Z.of_nat LINE_MAX)) as [Hbad|]; [unfold LINE_MAX in Hbad; lia|].
  done.
Qed.

(** When the write fails the cached lines are gone, and the function reports
    success. *)
Theorem failed_sync_loses_lines e l : lg_owner l = None -> le_write e 0 (zlen (lg_buff l)) = -1 -> lg_buff l <> [] ->
  exists l', logger_sync_func e l = Ret (l', 0) /\ lg_buff l' = [] /\ written l' = written l.
Proof.
  intros Ho Hw Hb. unfold logger_sync_func, logger_fsync. destruct (Z.eqb_spec (zlen (lg_buff l)) 0) as [Hz|Hz]; [by apply zlen_zero in Hz|].
  unfold log_lock. rewrite Ho. cbn [mbind outcome_bind]. cbn [lg_buff set_owner]. rewrite Hw. unfold log_unlock, log_output. cbn [lg_fd set_owner].
  destruct (lg_fd l) as [q|] eqn:E; cbn [lg_owner set_log_buff set_owner]; rewrite Z.eqb_refl; eexists; (split; [reflexivity|]); (split; [done|]); unfold written; cbn; rewrite E; cbn.
  - rewrite lookup_insert_eq. cbn. by rewrite app_nil_r.
  - by rewrite app_nil_r.
Qed.

(** A dump whose first write fails returns with the lock: every later call of
    another thread that logs something waits for ever. *)
Theorem failed_dump_blocks e e' caption title s len l l' p full : lg_owner l = None -> le_write e 0 (zlen (lg_buff l ++ log_head e caption ++ title ++ [10])) = -1 -> (length title < TITLE_SIZE)%nat ->
  logger_string e caption title s len l = Ret l' -> le_self e' <> le_self e -> p <= lg_level l -> logger_at p e' full l' = Crash Diverged.
Proof.
  intros Ho Hw Ht H Hne Hp. unfold logger_string, dump in H. apply bind_Ret in H as ([l1 go] & Hd & H). unfold dump_title, log_lock in Hd. rewrite Ho in Hd. cbn [mbind outcome_bind negb Z.eqb] in Hd.
  pose proof (zlen_pos title). unfold TITLE_SIZE in Ht. unfold LOG_BUFF_SIZE in Hd. rewrite u_wrap_id in Hd by (unfold is_u, zlen in *; lia). destruct (Z.ltb_spec (64 * 1024) (zlen title + 64)); [unfold zlen in *; lia|].
  cbn [lg_buff set_owner] in Hd. apply bind_Ret in Hd as (b1 & Hb1 & Hd). apply bind_Ret in Hd as (t & Htx & Hd). apply bind_Ret in Hd as (b2 & Hb2 & Hd). apply bind_Ret in Hd as (b3 & Hb3 & Hd).
  assert (t = title) as ->.
  { unfold text_read in Htx. destruct (Z.ltb_spec (zlen title) 0); [lia|]. unfold TITLE_SIZE in Htx. rewrite (take_ge title) in Htx by lia. unfold pad in Htx.
    pose proof (buf_read_at [] title (zeros (1024 - length title)) 0 (Z.to_nat (zlen title)) eq_refl) as W. cbn [app] in W. rewrite W in Htx by (unfold zlen; lia). by injection Htx. }
  unfold put_buff in Hb1, Hb2, Hb3. destruct (_ <=? _) in Hb1; [|done]. injection Hb1 as <-. destruct (_ <=? _) in Hb2; [|done]. injection Hb2 as <-. destruct (_ <=? _) in Hb3; [|done]. injection Hb3 as <-.
  rewrite <- !app_assoc in Hd. remember (lg_buff l ++ log_head e caption ++ title ++ [10]) as B eqn:EB. clear EB. rewrite Hw in Hd.
  assert ((-1 =? zlen B) = false) as Hz by (apply Z.eqb_neq; pose proof (zlen_pos B); lia). cbv zeta in Hd. rewrite Hz in Hd. injection Hd as <- <-. cbn [negb] in H. injection H as <-. unfold logger_at, _DO_LOG.
  assert (forall b d, lg_level (log_output (set_log_buff (set_owner l (Some (le_self e))) b) d (-1)) = lg_level l /\ lg_owner (log_output (set_log_buff (set_owner l (Some (le_self e))) b) d (-1)) = Some (le_self e)) as Hx.
  { intros b d. unfold log_output. cbn [lg_fd set_log_buff set_owner]. by destruct (lg_fd l). }
  destruct (Hx B B) as [Hv Hu]. rewrite Hv. destruct (Z.ltb_spec (lg_level l) p); [lia|].
  unfold doLog, log_lock. rewrite Hu. destruct (Z.eqb_spec (le_self e) (le_self e')); [by rewrite e0 in Hne|]. done.
Qed.

(** ** Examples *)

Definition demo_tm : log_tm := mk_tm 117 6 14 9 30 5.
Definition demo_logenv (self : Z) : log_env := mk_logenv demo_tm 4711 self (fun _ n => n) 0 true.
Definition broken_logenv (self : Z) : log_env := mk_logenv demo_tm 4711 self (fun _ _ => -1) ENOSPC true.
Definition demo_logger : log_state := mk_log LOG_INFO (Some (str "/l/logs/t.log")) {[ str "/l/logs/t.log" := str "x" ]} [] (str "cached") true None.

Definition demo_log_calls : list (log_env * log_call) :=
  [(demo_logenv 7, Log LOG_ERR (str "disk full")); (demo_logenv 8, Log LOG_DEBUG (str "not logged")); (demo_logenv 7, Cache false); (demo_logenv 9, Log LOG_CRIT (str "stop")); (demo_logenv 9, Sync)].

Lemma log_lines_in_order_witness : exists l', do_calls demo_log_calls demo_logger = Ret l' /\ log_ok l' /\
  journal l' = str "xcached" ++ str "[2017-07-14 09:30:05,4711,7] ERROR - disk full" ++ [10] ++ str "[2017-07-14 09:30:05,4711,9] CRIT - stop" ++ [10].
Proof.
  destruct (log_lines_in_order demo_log_calls demo_logger) as (l' & H1 & H2 & H3).
  - repeat (constructor; [split; [split; [unfold tm_ok; cbn; lia|done]|first [by apply Nat.ltb_lt|done] ]|]). constructor.
  - by vm_compute.
  - exists l'. split; [done|]. split; [done|]. rewrite H3. by vm_compute.
Defined.

Lemma long_message_overread_witness : logger_at LOG_ERR (demo_logenv 7) (zeros 2049) demo_logger = Crash OutOfBounds.
Proof. apply long_message_overread; [by vm_compute|unfold tm_ok; cbn; lia|by vm_compute|by vm_compute|by vm_compute]. Defined.

Lemma failed_sync_loses_lines_witness : exists l', logger_sync_func (broken_logenv 7) demo_logger = Ret (l', 0) /\ lg_buff l' = [] /\ written l' = str "x".
Proof. destruct (failed_sync_loses_lines (broken_logenv 7) demo_logger) as (l' & H1 & H2 & H3); [done|done|vm_compute; discriminate|]. exists l'. split; [done|]. split; [done|]. rewrite H3. by vm_compute. Defined.

Lemma failed_dump_blocks_witness : exists l', logger_string (broken_logenv 7) (str "DEBUG") (str "packet") [1; 2] 2 demo_logger = Ret l' /\
  logger_at LOG_ERR (demo_logenv 8) (str "x") l' = Crash Diverged.
Proof.
  eexists. split; [vm_compute; reflexivity|].
  eapply (failed_dump_blocks (broken_logenv 7) (demo_logenv 8) (str "DEBUG") (str "packet") [1; 2] 2 demo_logger); [done|by vm_compute|by apply Nat.ltb_lt|vm_compute; reflexivity|done|by vm_compute].
Defined.
