(* ===== verification/Clock.v ===== *)
(** * The clock and dates

    src/src/common/times.c, and the dates and dumps of
    src/src/common/shared_func.c.  [gettimeofday] and [time] are what the clock
    answers; [localtime] and [mktime] are those of the Gregorian calendar in a
    zone that is [gmtoff] seconds east of Greenwich all year round.  [strftime],
    [printf] and [sscanf] are the parts of them that the code uses. *)
From S2P Require Import Prelude Codec CString Lines Logger.

(** ** times.c *)

(** [struct timeval] *)
Record timeval := mk_tv { tv_sec : Z; tv_usec : Z }.

Definition nowus (tv : timeval) : Z := s64 (u64 (u64 (tv_sec tv) * 1000 * 1000 + tv_usec tv)).
Definition nowms (tv : timeval) : Z := s64 (u64 (u64 (tv_sec tv) * 1000 + tv_usec tv / 1000)).
Definition nows (tv : timeval) : Z := s64 (u64 (u64 (tv_sec tv) + tv_usec tv / 1000000)).

(** ** The calendar *)

(** The number of the day, 0 being 1 January 1970, of day [d] of month [m] (1
    is January) of year [y].  The year is counted from March, so that the leap
    day is its last. *)
Definition days_from_civil (y m d : Z) : Z :=
  let y := if m <=? 2 then y - 1 else y in
  let mp := (m + 9) mod 12 in
  365 * y + y / 4 - y / 100 + y / 400 + (153 * mp + 2) / 5 + d - 1 - 719468.

(** The year, month and day of a day number. *)
Definition civil_from_days (n : Z) : Z * Z * Z :=
  let z := n + 719468 in
  let era := z / 146097 in
  let doe := z mod 146097 in
  let yoe := (doe - doe / 1460 + doe / 36524 - doe / 146096) / 365 in
  let doy := doe - (365 * yoe + yoe / 4 - yoe / 100) in
  let mp := (5 * doy + 2) / 153 in
  let d := doy - (153 * mp + 2) / 5 + 1 in
  let m := if mp <? 10 then mp + 3 else mp - 9 in
  let y := yoe + 400 * era in
  (if m <=? 2 then y + 1 else y, m, d).

(** The fields of a time. *)
Definition broken_down (gmtoff t : Z) : log_tm :=
  let l := t + gmtoff in
  let '(y, m, d) := civil_from_days (l / 86400) in
  let s := l mod 86400 in
  mk_tm (y - 1900) (m - 1) d (s / 3600) (s / 60 mod 60) (s mod 60).

(** [localtime]; it returns [NULL] when the year is not an [int], and every caller
    reads through the pointer it returned. *)
Definition localtime (gmtoff t : Z) : outcome log_tm :=
  let tm := broken_down gmtoff t in
  if (- 2 ^ 31 <=? tm_year tm) && (tm_year tm <? 2 ^ 31) then Ret tm else Crash NullDeref.

(** [mktime] with [tm_isdst = -1]; fields out of range carry over. *)
Definition mktime (gmtoff : Z) (t : log_tm) : Z :=
  let y := tm_year t + 1900 + tm_mon t / 12 in
  let m := tm_mon t mod 12 + 1 in
  86400 * days_from_civil y m (tm_mday t) + 3600 * tm_hour t + 60 * tm_min t + tm_sec t - gmtoff.

(** ** [sscanf] *)

Inductive directive :=
| SInt (w : nat)
| SSpace
| SLit (c : Z).

(** Up to [w] decimal digits: how many, their value and the rest. *)
Fixpoint scan_digits (w : nat) (k acc : Z) (s : bytes) : Z * Z * bytes :=
  match w, s with
  | S w', c :: s' =>
      if (48 <=? c) && (c <=? 57) then scan_digits w' (k + 1) (acc * 10 + (c - 48)) s' else (k, acc, s)
  | _, _ => (k, acc, s)
  end.

(** [%<w>d]; the sign counts as a character of the field. *)
Definition scan_int (w : nat) (s : bytes) : option (Z * bytes) :=
  let s := skip_space s in
  let '(sign, w, s) :=
    match s with
    | c :: s' => if c =? 45 then (-1, pred w, s') else if c =? 43 then (1, pred w, s') else (1, w, s)
    | [] => (1, w, s)
    end in
  let '(k, v, r) := scan_digits w 0 0 s in
  if k =? 0 then None else Some (sign * v, r).

(** The values assigned before the first directive that does not match. *)
Fixpoint sscanf (fmt : list directive) (s : bytes) : list Z :=
  match fmt with
  | [] => []
  | SSpace :: fmt => sscanf fmt (skip_space s)
  | SLit c :: fmt => match s with c' :: s' => if c' =? c then sscanf fmt s' else [] | [] => [] end
  | SInt w :: fmt => match scan_int w s with Some (v, r) => v :: sscanf fmt r | None => [] end
  end.

(** ["%4d-%2d-%2d %2d:%2d:%2d"] *)
Definition date_format : list directive :=
  [SInt 4; SLit (chr "-"); SInt 2; SLit (chr "-"); SInt 2; SSpace; SInt 2; SLit (chr ":"); SInt 2; SLit (chr ":"); SInt 2].

(** ** Dates of shared_func.c *)

(** [%Y], [%m], [%d], [%H], [%M] and [%S] of [strftime]; other characters stand for
    themselves.  [None] is a conversion the model leaves out. *)
Definition strftime_conv (t : log_tm) (c : Z) : option bytes :=
  if c =? chr "Y" then Some (pr_dec (tm_year t + 1900))
  else if c =? chr "m" then Some (pr_02d (tm_mon t + 1))
  else if c =? chr "d" then Some (pr_02d (tm_mday t))
  else if c =? chr "H" then Some (pr_02d (tm_hour t))
  else if c =? chr "M" then Some (pr_02d (tm_min t))
  else if c =? chr "S" then Some (pr_02d (tm_sec t))
  else if c =? chr "%" then Some (str "%")
  else None.

Fixpoint strftime_text (fmt : bytes) (t : log_tm) : option bytes :=
  match fmt with
  | [] => Some []
  | c :: fmt1 =>
      if c =? chr "%" then
        match fmt1 with
        | d :: fmt2 => a ← strftime_conv t d; b ← strftime_text fmt2 t; Some (a ++ b)
        | [] => None
        end
      else b ← strftime_text fmt1 t; Some (c :: b)
  end.

(** [strftime(buff, size, fmt, tm)]: the string in the buffer; [None] where the
    standard leaves the contents unspecified (a text that does not fit). *)
Definition strftime (size : Z) (fmt : bytes) (t : log_tm) : option bytes :=
  s ← strftime_text fmt t; if zlen s <? size then Some s else None.

Definition szDateBuff_size : Z := 128.

(** [buff] is [None], or what [buff_size] was given for the caller's array. *)
Definition formatDatetime (gmtoff nTime : Z) (szDateFormat : bytes) (buff : option Z) : outcome (option bytes) :=
  tm ← localtime gmtoff nTime;
  let size := match buff with None => szDateBuff_size | Some n => n end in
  Ret (strftime (u64 size) szDateFormat tm).

(** ["%04d%02d%02d%02d%02d%02d"], for a year that is not negative. *)
Definition stamp (tm : log_tm) : bytes :=
  pr_04d (tm_year tm + 1900) ++ pr_02d (tm_mon tm + 1) ++ pr_02d (tm_mday tm) ++
  pr_02d (tm_hour tm) ++ pr_02d (tm_min tm) ++ pr_02d (tm_sec tm).

(** [snprintf] into a buffer of [size] bytes that holds the string [old]. *)
Definition snprintf (size : Z) (text old : bytes) : bytes :=
  if size =? 0 then old else if zlen text <? size then text else take (Z.to_nat (size - 1)) text.

Definition formatDateYYYYMMDDHHMISS (gmtoff t : Z) (szDateBuff : bytes) (nSize : Z) : outcome bytes :=
  tm ← localtime gmtoff t; Ret (snprintf (u64 nSize) (stamp tm) szDateBuff).

(** Fields that [sscanf] did not reach are read uninitialised. *)
Definition formatDate4String (gmtoff now : Z) (szDateBuff : option bytes) : outcome Z :=
  match szDateBuff with
  | None => Ret now
  | Some s =>
      match sscanf date_format s with
      | [y; mo; d; h; mi; sec] => Ret (mktime gmtoff (mk_tm (y - 1900) (mo - 1) d h mi sec))
      | _ => Crash Uninitialised
      end
  end.

Definition getSysDatetime_fmt : bytes := str "%Y-%m-%d %H:%M:%S".

(** [tm_buff] is [NULL], or the caller's array of at least 256 bytes. *)
Definition getSysDatetime (gmtoff now : Z) (tm_buff : bool) : outcome (option bytes) :=
  if negb tm_buff then Ret None
  else tm_now ← localtime gmtoff now; Ret (strftime 256 getSysDatetime_fmt tm_now).

(** ["%04d-%02d-%02d %02d:%02d:%02d"]; [sec] is not used. *)
Definition timestr (gmtoff now sec : Z) : outcome bytes :=
  tm ← localtime gmtoff now;
  Ret (pr_04d (tm_year tm + 1900) ++ str "-" ++ pr_02d (tm_mon tm + 1) ++ str "-" ++ pr_02d (tm_mday tm) ++ str " " ++
       pr_02d (tm_hour tm) ++ str ":" ++ pr_02d (tm_min tm) ++ str ":" ++ pr_02d (tm_sec tm)).

(** ** Dumps of a buffer *)

(** What is printed; [len] bytes of [s] are read. *)
Definition printfBuffString (title s : bytes) (len : Z) : outcome bytes :=
  if zlen s <? len then Crash OutOfBounds else Ret (title ++ [10] ++ take (Z.to_nat len) s ++ [10]).

Definition pr_04X (n : Z) : bytes := pad0 4 (pr_nat hex_digit_u 16 n).

Fixpoint hex_loop (i : Z) (s : bytes) : bytes :=
  match s with
  | [] => []
  | c :: s' =>
      (if i mod 16 =? 0 then [10] ++ pr_04X i ++ str " " else []) ++ str "0x" ++ pr_02X c ++ str " " ++ hex_loop (i + 1) s'
  end.

Definition printfBuffHex (title s : bytes) (len : Z) : outcome bytes :=
  if zlen s <? len then Crash OutOfBounds else Ret (title ++ hex_loop 0 (take (Z.to_nat len) s) ++ [10]).

(** ** Files by name *)

(** What [stat] says of a name: the mode, when it succeeds. *)
Definition S_IFMT : Z := 61440.
Definition S_ISDIR (mode : Z) : bool := Z.land mode S_IFMT =? 16384.
Definition S_ISREG (mode : Z) : bool := Z.land mode S_IFMT =? 32768.

(** [access(filename, 0) == 0]: the name can be reached; [access_ret] is what
    the call returns. *)
Definition fileExists (access_ret : bytes -> Z) (filename : bytes) : bool := access_ret filename =? 0.

Definition isDir (stat : bytes -> option Z) (filename : bytes) : bool :=
  match stat filename with None => false | Some st_mode => S_ISDIR st_mode end.

Definition isFile (stat : bytes -> option Z) (filename : bytes) : bool :=
  match stat filename with None => false | Some st_mode => S_ISREG st_mode end.

(** ** The calendar is sound *)

(** Era arithmetic: where a day of a 400-year era lies. *)
Lemma year_of_era doe :
  0 <= doe < 146097 ->
  let yoe := (doe - doe / 1460 + doe / 36524 - doe / 146096) / 365 in
  0 <= yoe < 400 /\ 0 <= doe - (365 * yoe + yoe / 4 - yoe / 100) <= 365.
Proof.
  intros H yoe. subst yoe. Z.to_euclidean_division_equations. lia.
Qed.

(** Every day is where its year, month and day say, and these are in range. *)
Lemma civil_of_days n :
  let '(y, m, d) := civil_from_days n in
  days_from_civil y m d = n /\ 1 <= m <= 12 /\ 1 <= d <= 31.
Proof.
  unfold civil_from_days, days_from_civil.
  assert (H : 0 <= (n + 719468) mod 146097 < 146097) by (apply Z.mod_pos_bound; lia).
  pose proof (Z.div_mod (n + 719468) 146097 ltac:(lia)) as Hn.
  destruct (year_of_era _ H) as [Hy Hd]. cbn zeta.
  set (era := (n + 719468) / 146097) in *. set (doe := (n + 719468) mod 146097) in *.
  set (yoe := (doe - doe / 1460 + doe / 36524 - doe / 146096) / 365) in *.
  set (doy := doe - (365 * yoe + yoe / 4 - yoe / 100)) in *.
  assert (Hmp : 0 <= (5 * doy + 2) / 153 < 12) by (split; [apply Z.div_pos; lia|apply Z.div_lt_upper_bound; lia]).
  assert (Hday : 0 <= doy - (153 * ((5 * doy + 2) / 153) + 2) / 5 <= 30)
    by (Z.to_euclidean_division_equations; lia).
  set (mp := (5 * doy + 2) / 153) in *. clearbody mp.
  assert (Hera : 365 * (yoe + 400 * era) + (yoe + 400 * era) / 4 - (yoe + 400 * era) / 100 + (yoe + 400 * era) / 400
                 = doe - doy + 146097 * era).
  { unfold doy. clear - Hy. clearbody yoe era doe. Z.to_euclidean_division_equations; lia. }
  clearbody doy yoe era doe.
  zcase (mp <? 10).
  - zcase (mp + 3 <=? 2); [lia|]. replace ((mp + 3 + 9) mod 12) with mp; [lia|].
    replace (mp + 3 + 9) with (mp + 1 * 12) by lia. rewrite Z.mod_add by lia. symmetry. apply Z.mod_small. lia.
  - zcase (mp - 9 <=? 2); [|lia]. replace (mp - 9 + 9) with mp by lia. rewrite (Z.mod_small mp) by lia.
    replace (yoe + 400 * era + 1 - 1) with (yoe + 400 * era) by lia. lia.
Qed.

(** The years of the days up to the end of the year 9999. *)
Lemma civil_year n : 0 <= n < 2932897 -> let '(y, _, _) := civil_from_days n in 1970 <= y <= 9999.
Proof.
  intros Hn. pose proof (civil_of_days n) as H. destruct (civil_from_days n) as [[y m] d].
  destruct H as (E & Hm & Hd). unfold days_from_civil in E.
  assert (0 <= (m + 9) mod 12 < 12) by (apply Z.mod_pos_bound; lia).
  assert (Hmp : (m + 9) mod 12 = if m <=? 2 then m + 9 else m - 3).
  { zcase (m <=? 2); [by apply Z.mod_small; lia|].
    replace (m + 9) with (m - 3 + 1 * 12) by lia. rewrite Z.mod_add by lia. apply Z.mod_small. lia. }
  rewrite Hmp in E. clear Hmp. revert E. destruct (Z.leb_spec m 2); intros E; Z.to_euclidean_division_equations; lia.
Qed.

(** The local times of the years 1970 to 9999. *)
Definition four_digit_year (gmtoff t : Z) : Prop := 0 <= t + gmtoff < 86400 * 2932897.

Lemma broken_down_fields gmtoff t :
  four_digit_year gmtoff t ->
  let tm := broken_down gmtoff t in
  1970 <= tm_year tm + 1900 <= 9999 /\ 0 <= tm_mon tm <= 11 /\ 1 <= tm_mday tm <= 31 /\
  0 <= tm_hour tm < 24 /\ 0 <= tm_min tm < 60 /\ 0 <= tm_sec tm < 60.
Proof.
  unfold four_digit_year, broken_down. intros H.
  assert (Hd : 0 <= (t + gmtoff) / 86400 < 2932897) by (split; [apply Z.div_pos; lia|apply Z.div_lt_upper_bound; lia]).
  pose proof (civil_of_days ((t + gmtoff) / 86400)) as Hc. pose proof (civil_year _ Hd) as Hy.
  destruct (civil_from_days _) as [[y m] d]. cbn.
  assert (0 <= (t + gmtoff) mod 86400 < 86400) by (apply Z.mod_pos_bound; lia).
  repeat split; try lia; try (apply Z.mod_pos_bound; lia); [apply Z.div_pos; lia|apply Z.div_lt_upper_bound; lia].
Qed.

Lemma localtime_ok gmtoff t : four_digit_year gmtoff t -> localtime gmtoff t = Ret (broken_down gmtoff t).
Proof.
  intros H. pose proof (broken_down_fields _ _ H) as (Hy & _). unfold localtime. cbn zeta in *.
  destruct (Z.leb_spec (- 2 ^ 31) (tm_year (broken_down gmtoff t))); [|lia].
  destruct (Z.ltb_spec (tm_year (broken_down gmtoff t)) (2 ^ 31)); [done|lia].
Qed.

(** [mktime] undoes [localtime]. *)
Lemma mktime_broken_down gmtoff t : mktime gmtoff (broken_down gmtoff t) = t.
Proof.
  unfold mktime, broken_down. pose proof (civil_of_days ((t + gmtoff) / 86400)) as Hc.
  destruct (civil_from_days _) as [[y m] d]. destruct Hc as (E & Hm & Hd). cbn.
  rewrite (Z.div_small (m - 1) 12), (Z.mod_small (m - 1) 12) by lia.
  replace (y - 1900 + 1900 + 0) with y by lia. replace (m - 1 + 1) with m by lia. rewrite E.
  clear. Z.to_euclidean_division_equations. lia.
Qed.

(** ** Numbers of a fixed width *)

Lemma pr_02d_digits n : 0 <= n < 100 -> pr_02d n = [n / 10 + 48; n mod 10 + 48].
Proof.
  intros H. unfold pr_02d, pr_dec, pr_nat. zcase (n <? 0); [lia|].
  destruct (Z.ltb_spec n 10) as [Hn|Hn].
  - cbn [pr_digits]. destruct (Z.ltb_spec n 10); [|lia]. rewrite Z.div_small, Z.mod_small by lia. done.
  - assert (3 <= Z.log2 n) by (apply Z.log2_le_pow2; lia).
    destruct (Z.to_nat (Z.log2 n)) as [|k] eqn:Ek; [lia|]. cbn [pr_digits].
    destruct (Z.ltb_spec n 10); [lia|].
    assert (n / 10 < 10) by (apply Z.div_lt_upper_bound; lia). destruct (Z.ltb_spec (n / 10) 10); [done|lia].
Qed.

Lemma pr_dec_4 n : 1000 <= n < 10000 -> pr_dec n = [n / 10 / 10 / 10 + 48; n / 10 / 10 mod 10 + 48; n / 10 mod 10 + 48; n mod 10 + 48].
Proof.
  intros H. unfold pr_dec, pr_nat. zcase (n <? 0); [lia|].
  assert (9 <= Z.log2 n) by (apply Z.log2_le_pow2; lia).
  destruct (Z.to_nat (Z.log2 n)) as [|[|[|k]]] eqn:Ek; [lia..|]. cbn [pr_digits].
  destruct (Z.ltb_spec n 10); [lia|].
  destruct (Z.ltb_spec (n / 10) 10); [Z.to_euclidean_division_equations; lia|].
  destruct (Z.ltb_spec (n / 10 / 10) 10); [Z.to_euclidean_division_equations; lia|].
  destruct (Z.ltb_spec (n / 10 / 10 / 10) 10); [done|Z.to_euclidean_division_equations; lia].
Qed.

Lemma pr_04d_dec n : 1000 <= n < 10000 -> pr_04d n = pr_dec n.
Proof. intros H. unfold pr_04d. rewrite pr_dec_4 by done. done. Qed.

Lemma scan_digits_step w k acc d s :
  0 <= d < 10 -> scan_digits (S w) k acc (d + 48 :: s) = scan_digits w (k + 1) (acc * 10 + d) s.
Proof.
  intros H. cbn [scan_digits]. destruct (Z.leb_spec 48 (d + 48)); [|lia]. destruct (Z.leb_spec (d + 48) 57); [|lia].
  cbn. f_equal. lia.
Qed.

(** A field that starts with a digit is scanned as its digits. *)
Lemma scan_int_digit w d s :
  0 <= d < 10 ->
  scan_int w (d + 48 :: s) = let '(k, v, r) := scan_digits w 0 0 (d + 48 :: s) in if k =? 0 then None else Some (v, r).
Proof.
  intros H. unfold scan_int. cbn [skip_space].
  assert (isspace (d + 48) = false) as ->.
  { unfold isspace. zcase (d + 48 =? 32); [lia|]. destruct (Z.leb_spec (d + 48) 13); [lia|]. by rewrite andb_false_r. }
  zcase (d + 48 =? 45); [lia|]. zcase (d + 48 =? 43); [lia|].
  destruct (scan_digits w 0 0 (d + 48 :: s)) as [[k v] r]. by destruct v.
Qed.

(** A field skips the spaces before it. *)
Lemma scan_int_space w s : scan_int w (skip_space s) = scan_int w s.
Proof.
  unfold scan_int. assert (skip_space (skip_space s) = skip_space s) as ->; [|done].
  induction s as [|c s IH]; [done|]. cbn. destruct (isspace c) eqn:E; [done|]. cbn. by rewrite E.
Qed.

Lemma scan_02d n s : 0 <= n < 100 -> scan_int 2 (pr_02d n ++ s) = Some (n, s).
Proof.
  intros H. rewrite pr_02d_digits by done. cbn [app].
  assert (0 <= n / 10 < 10) by (split; [apply Z.div_pos; lia|apply Z.div_lt_upper_bound; lia]).
  assert (0 <= n mod 10 < 10) by (apply Z.mod_pos_bound; lia).
  rewrite scan_int_digit by done. rewrite !scan_digits_step by done. cbn [scan_digits Z.eqb Z.add Pos.add].
  do 2 f_equal. pose proof (Z.div_mod n 10). lia.
Qed.

Lemma scan_year n s : 1000 <= n < 10000 -> scan_int 4 (pr_dec n ++ s) = Some (n, s).
Proof.
  intros H. rewrite pr_dec_4 by done. cbn [app].
  assert (0 <= n / 10 / 10 / 10 < 10) by (Z.to_euclidean_division_equations; lia).
  rewrite scan_int_digit by done. rewrite !scan_digits_step by (done || apply Z.mod_pos_bound; lia).
  cbn [scan_digits Z.eqb Z.add Pos.add]. do 2 f_equal. Z.to_euclidean_division_equations. lia.
Qed.

(** The fields fit the widths of the stamp. *)
Definition fits (tm : log_tm) : Prop :=
  1000 <= tm_year tm + 1900 < 10000 /\ 0 <= tm_mon tm + 1 < 100 /\ 0 <= tm_mday tm < 100 /\
  0 <= tm_hour tm < 100 /\ 0 <= tm_min tm < 100 /\ 0 <= tm_sec tm < 100.

Lemma broken_down_fits gmtoff t : four_digit_year gmtoff t -> fits (broken_down gmtoff t).
Proof. intros H. pose proof (broken_down_fields _ _ H). cbn zeta in *. unfold fits. lia. Qed.

(** ["%Y-%m-%d %H:%M:%S"] of a time is read back field by field. *)
Definition date_text (tm : log_tm) : bytes :=
  pr_dec (tm_year tm + 1900) ++ chr "-" :: pr_02d (tm_mon tm + 1) ++ chr "-" :: pr_02d (tm_mday tm) ++ chr " " ::
  pr_02d (tm_hour tm) ++ chr ":" :: pr_02d (tm_min tm) ++ chr ":" :: pr_02d (tm_sec tm).

Lemma scan_date tm :
  fits tm ->
  sscanf date_format (date_text tm) = [tm_year tm + 1900; tm_mon tm + 1; tm_mday tm; tm_hour tm; tm_min tm; tm_sec tm].
Proof.
  intros (Hy & Hmo & Hd & Hh & Hmi & Hs). unfold date_text, date_format. cbn [sscanf]. rewrite scan_year by done.
  do 2 (rewrite Z.eqb_refl, scan_02d by done). rewrite scan_int_space.
  change (scan_int 2 (chr " " :: ?x)) with (scan_int 2 x).
  rewrite scan_02d by done. rewrite Z.eqb_refl, scan_02d, Z.eqb_refl by done.
  rewrite <-(app_nil_r (pr_02d (tm_sec tm))), scan_02d by done. done.
Qed.

Lemma getSysDatetime_text tm : strftime 256 getSysDatetime_fmt tm = if zlen (date_text tm) <? 256 then Some (date_text tm) else None.
Proof.
  assert (E : strftime_text getSysDatetime_fmt tm = Some (date_text tm)); [|unfold strftime; by rewrite E].
  unfold date_text. rewrite <-(app_nil_r (pr_02d (tm_sec tm))). reflexivity.
Qed.

Lemma length_date tm : fits tm -> zlen (date_text tm) = 19.
Proof. intros (? & ? & ? & ? & ? & ?). unfold date_text. by rewrite pr_dec_4, !pr_02d_digits. Qed.

Lemma tm_eta tm : mk_tm (tm_year tm) (tm_mon tm) (tm_mday tm) (tm_hour tm) (tm_min tm) (tm_sec tm) = tm.
Proof. by destruct tm. Qed.

(** The date the server prints is the date it reads: between 1970 and
    9999, [getSysDatetime] writes 19 characters, and [formatDate4String] reads
    them back as the second at which they were written, in every time zone
    (of constant offset). *)
Theorem date_roundtrip gmtoff now later :
  four_digit_year gmtoff now ->
  exists s, getSysDatetime gmtoff now true = Ret (Some s) /\ zlen s = 19 /\
    formatDate4String gmtoff later (Some s) = Ret now.
Proof.
  intros H. pose proof (broken_down_fits _ _ H) as Hf.
  exists (date_text (broken_down gmtoff now)). unfold getSysDatetime. cbn [negb]. rewrite localtime_ok by done.
  cbn [mbind outcome_bind]. rewrite getSysDatetime_text, length_date by done.
  split_and!; [done|done|]. unfold formatDate4String. rewrite scan_date by done.
  by rewrite !Z.add_simpl_r, tm_eta, mktime_broken_down.
Qed.

Lemma date_roundtrip_witness :
  exists s, getSysDatetime 28800 1709180096 true = Ret (Some s) /\ zlen s = 19 /\
    formatDate4String 28800 5 (Some s) = Ret 1709180096.
Proof. apply date_roundtrip. unfold four_digit_year. lia. Defined.

(** A date of a leap day, as it is written. *)
Example leap_day : getSysDatetime 28800 1709180096 true = Ret (Some (str "2024-02-29 12:14:56")).
Proof. vm_compute. reflexivity. Qed.

(** ** Stamps *)

Lemma pr_02d_inj a b : 0 <= a < 100 -> 0 <= b < 100 -> pr_02d a = pr_02d b -> a = b.
Proof.
  intros Ha Hb. rewrite !pr_02d_digits by done. intros [= H1 H2].
  rewrite (Z.div_mod a 10), (Z.div_mod b 10) by lia. lia.
Qed.

Lemma pr_04d_inj a b : 1000 <= a < 10000 -> 1000 <= b < 10000 -> pr_04d a = pr_04d b -> a = b.
Proof.
  intros Ha Hb. rewrite !pr_04d_dec, !pr_dec_4 by done. intros [= H1 H2 H3 H4].
  Z.to_euclidean_division_equations. lia.
Qed.

Lemma length_02d n : 0 <= n < 100 -> length (pr_02d n) = 2%nat.
Proof. intros. by rewrite pr_02d_digits. Qed.

Lemma length_04d n : 1000 <= n < 10000 -> length (pr_04d n) = 4%nat.
Proof. intros. by rewrite pr_04d_dec, pr_dec_4. Qed.

Lemma length_stamp tm : fits tm -> length (stamp tm) = 14%nat.
Proof.
  intros (? & ? & ? & ? & ? & ?). unfold stamp. rewrite !length_app, length_04d, !length_02d; done.
Qed.

Lemma stamp_inj a b : fits a -> fits b -> stamp a = stamp b -> a = b.
Proof.
  intros (Ay & Am & Ad & Ah & Ai & As) (By & Bm & Bd & Bh & Bi & Bs). unfold stamp. intros E.
  apply app_inj_1 in E as [Ey E]; [|by rewrite !length_04d].
  do 4 (let F := fresh "F" in apply app_inj_1 in E as [F E]; [apply pr_02d_inj in F; [|done..]|by rewrite !length_02d]).
  apply pr_02d_inj in E; [|done..]. apply pr_04d_inj in Ey; [|done..].
  destruct a as [ay am ad ah ai as'], b as [b_y bm bd bh bi bs]. cbn [tm_year tm_mon tm_mday tm_hour tm_min tm_sec] in *. f_equal; lia.
Qed.

(** Two different seconds never have the same stamp: into a buffer of 15
    bytes or more the [YYYYMMDDHHMISS] name is written whole, and is as fine as
    the clock. *)
Theorem stamp_injective gmtoff t1 t2 old nSize :
  four_digit_year gmtoff t1 -> four_digit_year gmtoff t2 -> 15 <= nSize < 2 ^ 31 -> t1 <> t2 ->
  exists s1 s2, formatDateYYYYMMDDHHMISS gmtoff t1 old nSize = Ret s1 /\
    formatDateYYYYMMDDHHMISS gmtoff t2 old nSize = Ret s2 /\ zlen s1 = 14 /\ zlen s2 = 14 /\ s1 <> s2.
Proof.
  intros H1 H2 Hn Hne. exists (stamp (broken_down gmtoff t1)), (stamp (broken_down gmtoff t2)).
  unfold formatDateYYYYMMDDHHMISS. rewrite !localtime_ok by done. cbn [mbind outcome_bind].
  apply broken_down_fits in H1, H2. unfold snprintf.
  rewrite !u_wrap_id by (unfold is_u; lia). unfold zlen. rewrite !length_stamp by done.
  destruct (Z.eqb_spec nSize 0); [lia|]. destruct (Z.ltb_spec (Z.of_nat 14) nSize); [|lia].
  split_and!; try done. intros E. apply Hne. apply stamp_inj in E; [|done..].
  by rewrite <-(mktime_broken_down gmtoff t1), <-(mktime_broken_down gmtoff t2), E.
Qed.

Lemma stamp_injective_witness :
  exists s1 s2, formatDateYYYYMMDDHHMISS 0 951782399 [] 16 = Ret s1 /\
    formatDateYYYYMMDDHHMISS 0 951782400 [] 16 = Ret s2 /\ zlen s1 = 14 /\ zlen s2 = 14 /\ s1 <> s2.
Proof. apply stamp_injective; unfold four_digit_year; lia. Defined.

(** ** Readings of the clock *)

(** The three clocks agree: milliseconds and seconds are the microseconds
    divided, and no reading wraps as long as the microseconds fit 63 bits. *)
Theorem clocks_agree tv :
  0 <= tv_sec tv < 9223372036854 -> 0 <= tv_usec tv < 1000000 ->
  nowus tv = tv_sec tv * 1000000 + tv_usec tv /\ nowms tv = nowus tv / 1000 /\ nows tv = nowus tv / 1000000.
Proof.
  intros Hs Hu. unfold nowus, nowms, nows.
  assert (0 <= tv_usec tv / 1000 < 1000) by (split; [apply Z.div_pos; lia|apply Z.div_lt_upper_bound; lia]).
  rewrite (Z.div_small (tv_usec tv) 1000000) by lia. rewrite (u_wrap_id 64 (tv_sec tv)) by (unfold is_u; lia).
  rewrite !u_wrap_id by (unfold is_u; lia). rewrite !s_wrap_id by (unfold is_s; lia).
  split_and!; [lia| |]; Z.to_euclidean_division_equations; lia.
Qed.

Lemma clocks_agree_witness :
  nowus (mk_tv 1700000000 999999) = 1700000000 * 1000000 + 999999 /\
  nowms (mk_tv 1700000000 999999) = nowus (mk_tv 1700000000 999999) / 1000 /\
  nows (mk_tv 1700000000 999999) = nowus (mk_tv 1700000000 999999) / 1000000.
Proof. apply (clocks_agree (mk_tv 1700000000 999999)); cbn; lia. Defined.

(** [timestr] prints the time of the call: the seconds it is given are
    never read. *)
Theorem timestr_ignores gmtoff now sec1 sec2 : timestr gmtoff now sec1 = timestr gmtoff now sec2.
Proof. done. Qed.

(** A date that stops short is read through uninitialised fields. *)
Example short_date : formatDate4String 0 0 (Some (str "2024-02-29")) = Crash Uninitialised.
Proof. vm_compute. reflexivity. Qed.

(** ** Dumps *)

(** Sixteen bytes to a line. *)
Example dump_17 :
  printfBuffHex (str "t") (replicate 17 171) 17 =
  Ret (str "t" ++ [10] ++ str "0000 0xAB 0xAB 0xAB 0xAB 0xAB 0xAB 0xAB 0xAB 0xAB 0xAB 0xAB 0xAB 0xAB 0xAB 0xAB 0xAB " ++
       [10] ++ str "0010 0xAB " ++ [10]).
Proof. vm_compute. reflexivity. Qed.
