(* ===== verification/Accept.v ===== *)
(** * Accepting connections

    The main thread of both servers accepts connections, refuses them when there
    are too many, and hands them in turn to the network threads: a queue and a
    pipe for each, a byte in the pipe for every entry of the queue
    (src/src/trackerserver/ts_thread.c, src/src/dataserver/ds_network_io.c).  The
    queues themselves are those of [TsQueue]; here each is the list of its
    entries.  The two servers differ in one place: the tracker does not count a
    connection down again when no memory or event can be had for it.

    The counter [ctxs.curr_conns] also counts the connections that the data server
    opens itself: those of the replication threads to the slaves and of the full
    synchronisation to the master (src/src/dataserver/ds_sync.c) and of the
    reporting threads to the trackers (src/src/dataserver/tracker_client.c,
    src/src/dataserver/ds_client_conn.c).  Each of these threads has a variable for
    one socket, a slot of [ac_links]; the places where they change the counters
    are steps of their own here, and the threads are those of [DsSync] and
    [TrackerClient]. *)
From S2P Require Import Prelude Codec CString Lines TsConn.

(** ** The state *)

(** A network thread: its queue of sockets, the bytes in its pipe, and the
    sockets it serves. *)
Record net_thread := mk_nt { nt_queue : list Z; nt_pipe : nat; nt_conns : list Z }.

(** The socket variable of a thread that connects to another server: without a
    socket ([sfd = -1]), with one that is not counted, with one that is. *)
Inductive link := NoLink | RawLink | CountedLink.
#[export] Instance link_eq_dec : EqDecision link.
Proof. solve_decision. Defined.

(** [ctxs.curr_conns], [ctxs.total_conns] and [ctxs.rejected_conns], the thread
    that got the last connection, the threads, and the sockets that were closed:
    refused or ended ([ac_closed]), or accepted but without a connection object
    ([ac_failed]); the sockets of the threads that connect to other servers, and
    how often the counter was decremented for a socket that it had not been
    incremented for ([ac_short]). *)
Record acceptor := mk_acc { ac_curr : Z; ac_total : Z; ac_rejected : Z; ac_last : Z; ac_threads : list net_thread; ac_closed : list Z; ac_failed : list Z; ac_links : list link; ac_short : Z }.

Definition set_thread (a : acceptor) (tid : Z) (t : net_thread) : acceptor :=
  mk_acc (ac_curr a) (ac_total a) (ac_rejected a) (ac_last a) (<[Z.to_nat tid := t]> (ac_threads a)) (ac_closed a) (ac_failed a) (ac_links a) (ac_short a).
Definition set_curr (a : acceptor) (n : Z) : acceptor := mk_acc n (ac_total a) (ac_rejected a) (ac_last a) (ac_threads a) (ac_closed a) (ac_failed a) (ac_links a) (ac_short a).
Definition shut_sfd (a : acceptor) (sfd : Z) : acceptor :=
  mk_acc (ac_curr a) (ac_total a) (ac_rejected a) (ac_last a) (ac_threads a) (sfd :: ac_closed a) (ac_failed a) (ac_links a) (ac_short a).
Definition fail_sfd (a : acceptor) (sfd : Z) : acceptor :=
  mk_acc (ac_curr a) (ac_total a) (ac_rejected a) (ac_last a) (ac_threads a) (ac_closed a) (sfd :: ac_failed a) (ac_links a) (ac_short a).

(** ** Operations *)

Section Accept.
Context (uncount : bool) (work_threads max_connections reserved_fds links : Z).

(** [item]: [conn_item_new] has memory; [pipe]: the byte can be written.  A
    remainder by zero is undefined. *)
Definition __dispatch_conn (item pipe : bool) (a : acceptor) (sfd : Z) : outcome acceptor :=
  if negb item then Ret (shut_sfd a sfd)
  else if work_threads =? 0 then Crash OutOfBounds
  else
    let tid := Z.rem (s32 (ac_last a + 1)) work_threads in
    t ← get_or OutOfBounds (zlookup (ac_threads a) tid);
    let t := mk_nt (nt_queue t ++ [sfd]) (if pipe then S (nt_pipe t) else nt_pipe t) (nt_conns t) in
    let a := set_thread a tid t in
    Ret (mk_acc (u32 (ac_curr a + 1)) (u32 (ac_total a + 1)) (ac_rejected a) tid (ac_threads a) (ac_closed a) (ac_failed a) (ac_links a) (ac_short a)).

(** [ctxs.curr_conns + ctxs.reserved_fds >= confitems.max_connections - 1], which
    is unsigned. *)
Definition too_many (a : acceptor) : bool := u32 (max_connections - 1) <=? u32 (ac_curr a + reserved_fds).

(** [cfd] is the result of [accept].  Zero is neither handed over nor closed;
    whether the socket could be made non-blocking has no effect. *)
Definition __on_accept (item pipe : bool) (a : acceptor) (cfd : Z) : outcome acceptor :=
  if 0 <? cfd then
    if too_many a then
      let a := shut_sfd a cfd in
      Ret (mk_acc (ac_curr a) (ac_total a) (u64 (ac_rejected a + 1)) (ac_last a) (ac_threads a) (ac_closed a) (ac_failed a) (ac_links a) (ac_short a))
    else __dispatch_conn item pipe a cfd
  else Ret a.

(** The other main loop has no limit. *)
Definition accept_loop_round (item pipe : bool) (a : acceptor) (insfd : Z) : outcome acceptor := if insfd <? 0 then Ret a else __dispatch_conn item pipe a insfd.

(** The case 'c' of [__libevent_thread_callback]; [ok]: [conn_new] succeeds. *)
Definition __libevent_thread_callback (ok : bool) (a : acceptor) (tid : Z) : outcome acceptor :=
  t ← get_or OutOfBounds (zlookup (ac_threads a) tid);
  let pipe := pred (nt_pipe t) in
  match nt_queue t with
  | [] => Ret (set_thread a tid (mk_nt [] pipe (nt_conns t)))
  | sfd :: q =>
      if ok then Ret (set_thread a tid (mk_nt q pipe (nt_conns t ++ [sfd])))
      else
        let a := fail_sfd (set_thread a tid (mk_nt q pipe (nt_conns t))) sfd in
        Ret (if uncount then set_curr a (u32 (ac_curr a - 1)) else a)
  end.

(** [conn_close] of a connection of the thread. *)
Definition end_conn (a : acceptor) (tid sfd : Z) : outcome acceptor :=
  t ← get_or OutOfBounds (zlookup (ac_threads a) tid);
  let a := shut_sfd (set_thread a tid (mk_nt (nt_queue t) (nt_pipe t) (filter (fun x => x <> sfd) (nt_conns t)))) sfd in
  Ret (set_curr a (u32 (ac_curr a - 1))).

(** *** Connections to other servers *)

Definition set_link (a : acceptor) (i : nat) (l : link) : acceptor :=
  mk_acc (ac_curr a) (ac_total a) (ac_rejected a) (ac_last a) (ac_threads a) (ac_closed a) (ac_failed a) (<[i := l]> (ac_links a)) (ac_short a).

(** [ctxs.curr_conns--] for the socket of slot [i]. *)
Definition link_down (a : acceptor) (i : nat) (l : link) : acceptor :=
  let b := set_link a i NoLink in
  mk_acc (u32 (ac_curr b - 1)) (ac_total b) (ac_rejected b) (ac_last b) (ac_threads b) (ac_closed b) (ac_failed b) (ac_links b)
    (match l with CountedLink => ac_short b | _ => ac_short b + 1 end).

(** [socket] gave one. *)
Definition link_socket (a : acceptor) (i : nat) : acceptor := set_link a i RawLink.
(** [ctxs.curr_conns++; ctxs.total_conns++] *)
Definition link_connected (a : acceptor) (i : nat) : acceptor :=
  let b := set_link a i CountedLink in
  mk_acc (u32 (ac_curr b + 1)) (u32 (ac_total b + 1)) (ac_rejected b) (ac_last b) (ac_threads b) (ac_closed b) (ac_failed b) (ac_links b) (ac_short b).
(** [close(sfd); sfd = -1; ctxs.rejected_conns++] *)
Definition link_refused (a : acceptor) (i : nat) : acceptor :=
  let b := set_link a i NoLink in
  mk_acc (ac_curr b) (ac_total b) (u64 (ac_rejected b + 1)) (ac_last b) (ac_threads b) (ac_closed b) (ac_failed b) (ac_links b) (ac_short b).
(** [if(sfd >= 0) { close(sfd); sfd = -1; ctxs.curr_conns--; }], also at the label
    [err] of [full_sync_from_master]. *)
Definition link_close (a : acceptor) (i : nat) (l : link) : acceptor := match l with NoLink => a | _ => link_down a i l end.
(** [trackerclientconn_close] decrements whether or not there is a socket. *)
Definition link_trackerclientconn_close (a : acceptor) (i : nat) (l : link) : acceptor := link_down a i l.

(** ** Steps *)

Definition counted (a : acceptor) : Z := zlen (filter (fun l => l = CountedLink) (ac_links a)).
Definition open_sfds (a : acceptor) : list Z := t ← ac_threads a; nt_queue t ++ nt_conns t.

(** Any interleaving: a connection arrives (its socket is not one of those that
    are open), a thread reads a byte from its pipe, a connection ends; a thread
    gets a socket for another server, connects it, drops it, closes it. *)
Inductive acc_step : acceptor -> acceptor -> Prop :=
| step_accept item pipe cfd a a' : cfd ∉ open_sfds a -> __on_accept item pipe a cfd = Ret a' -> acc_step a a'
| step_thread ok tid t a a' : zlookup (ac_threads a) tid = Some t -> (0 < nt_pipe t)%nat -> __libevent_thread_callback ok a tid = Ret a' -> acc_step a a'
| step_end tid sfd t a a' : zlookup (ac_threads a) tid = Some t -> sfd ∈ nt_conns t -> end_conn a tid sfd = Ret a' -> acc_step a a'
| step_socket i a : ac_links a !! i = Some NoLink -> acc_step a (link_socket a i)
| step_connected i a : ac_links a !! i = Some RawLink -> acc_step a (link_connected a i)
| step_refused i a : ac_links a !! i = Some RawLink -> acc_step a (link_refused a i)
| step_close i l a : ac_links a !! i = Some l -> acc_step a (link_close a i l)
| step_tracker_close i l a : ac_links a !! i = Some l -> acc_step a (link_trackerclientconn_close a i l).

(** [last] is -1 in the tracker and 0 in the data server. *)
Definition acc_start (n : nat) (last : Z) (links : nat) : acceptor := mk_acc 0 0 0 last (replicate n (mk_nt [] 0 [])) [] [] (replicate links NoLink) 0.

(** ** Lemmas *)

Lemma thread_split a tid t : zlookup (ac_threads a) tid = Some t ->
  exists l1 l2, open_sfds a = l1 ++ (nt_queue t ++ nt_conns t) ++ l2 /\ forall t', open_sfds (set_thread a tid t') = l1 ++ (nt_queue t' ++ nt_conns t') ++ l2.
Proof.
  unfold zlookup. destruct (Z.leb_spec 0 tid) as [_|]; [|done]. intros H. unfold open_sfds. cbn [ac_threads set_thread].
  exists (t ← take (Z.to_nat tid) (ac_threads a); nt_queue t ++ nt_conns t), (t ← drop (S (Z.to_nat tid)) (ac_threads a); nt_queue t ++ nt_conns t). split.
  - rewrite <- (take_drop_middle _ _ _ H) at 1. by rewrite bind_app.
  - intros t'. rewrite insert_take_drop by (by eapply lookup_lt_Some). by rewrite bind_app.
Qed.

Lemma filter_out (x : Z) l : NoDup l -> x ∈ l -> l ≡ₚ x :: filter (fun y => y <> x) l.
Proof.
  intros Hn Hx. apply elem_of_Permutation in Hx as [k Hk]. rewrite Hk in Hn. apply NoDup_cons in Hn as [Hnx _].
  rewrite Hk at 2. rewrite filter_cons_False by (intros H; by apply H). rewrite Hk. f_equiv.
  clear Hk. induction k as [|y k IH]; [done|]. apply not_elem_of_cons in Hnx as [Hy Hk]. rewrite filter_cons_True by done. f_equiv. by apply IH.
Qed.

Lemma u32_step (b : Z) (n : Z) : u32 (u32 b + n) = u32 (b + n).
Proof. unfold u_wrap. by rewrite Zplus_mod_idemp_l. Qed.

(** What the counter is about: sockets that wait or are served, for the tracker
    those without an object too, and the connections to other servers. *)
Definition accepted (a : acceptor) : Z := zlen (open_sfds a) + (if uncount then 0 else zlen (ac_failed a)).
Definition in_use (a : acceptor) : Z := accepted a + counted a.

(** What every interleaving keeps. *)
Record acc_inv (a : acceptor) : Prop := {
  ai_threads : zlen (ac_threads a) = work_threads;
  ai_last : -1 <= ac_last a < work_threads;
  ai_fresh : NoDup (open_sfds a);
  ai_curr : ac_curr a = u32 (in_use a - ac_short a);
  ai_limit : ac_short a = 0 -> accepted a = 0 \/ accepted a + reserved_fds <= max_connections - 1;
  ai_pipe : Forall (fun t => nt_pipe t <= length (nt_queue t))%nat (ac_threads a);
  ai_links : zlen (ac_links a) = links;
  ai_short : 0 <= ac_short a /\ (links = 0 -> ac_short a = 0)
}.

Hypothesis (Hwork : 0 < work_threads < 2 ^ 31) (Hmax : 1 <= max_connections < 2 ^ 31) (Hres : 0 <= reserved_fds < 2 ^ 31) (Hlinks : 0 <= links < 2 ^ 31).

Lemma next_thread a : acc_inv a -> exists t, let tid := (ac_last a + 1) mod work_threads in
  Z.rem (s32 (ac_last a + 1)) work_threads = tid /\ 0 <= tid < work_threads /\ zlookup (ac_threads a) tid = Some t.
Proof.
  intros Hi. pose proof (ai_threads a Hi) as I1. pose proof (ai_last a Hi) as I2. cbv zeta. set (tid := (ac_last a + 1) mod work_threads). pose proof (Z.mod_pos_bound (ac_last a + 1) work_threads ltac:(lia)) as Hb. fold tid in Hb.
  destruct (lookup_lt_is_Some_2 (ac_threads a) (Z.to_nat tid)) as [t Ht]; [unfold zlen in I1; lia|]. exists t. split_and!; try lia.
  - destruct (Z.eq_dec (ac_last a + 1) (2 ^ 31)); [lia|]. rewrite s_wrap_id by (unfold is_s; lia). by rewrite Z.rem_mod_nonneg by lia.
  - unfold zlookup. destruct (Z.leb_spec 0 tid); [done|lia].
Qed.

Lemma accepted_pos a : 0 <= accepted a.
Proof. unfold accepted. pose proof (zlen_pos (open_sfds a)). destruct uncount; [lia|]. pose proof (zlen_pos (ac_failed a)). lia. Qed.

Lemma counted_range a : acc_inv a -> 0 <= counted a <= links.
Proof. intros Hi. rewrite <- (ai_links a Hi). unfold counted, zlen. pose proof (length_filter (fun l => l = CountedLink) (ac_links a)). lia. Qed.

(** As long as no decrement was too many the counter has not wrapped around. *)
Lemma curr_exact a : acc_inv a -> ac_short a = 0 -> ac_curr a = in_use a /\ 0 <= in_use a + reserved_fds < 2 ^ 32.
Proof.
  intros Hi H0. pose proof (accepted_pos a). pose proof (counted_range a Hi). pose proof (ai_limit a Hi H0). pose proof (ai_curr a Hi) as Hc. unfold in_use in *.
  rewrite H0, u_wrap_id in Hc by (unfold is_u; lia). lia.
Qed.

Lemma threads_set a tid t' : zlen (ac_threads (set_thread a tid t')) = zlen (ac_threads a).
Proof. cbn. unfold zlen. by rewrite length_insert. Qed.

Lemma zlen_perm {A} (l k : list A) : l ≡ₚ k -> zlen l = zlen k.
Proof. intros H. unfold zlen. by rewrite H. Qed.

(** A step of the main thread or of a network thread. *)
Lemma accepted_step a b : acc_inv a -> zlen (ac_threads b) = zlen (ac_threads a) -> -1 <= ac_last b < work_threads -> NoDup (open_sfds b) ->
  Forall (fun t => nt_pipe t <= length (nt_queue t))%nat (ac_threads b) -> ac_links b = ac_links a -> ac_short b = ac_short a ->
  ac_curr b = u32 (ac_curr a + (accepted b - accepted a)) -> accepted b <= accepted a \/ (ac_short a = 0 -> accepted b + reserved_fds <= max_connections - 1) -> acc_inv b.
Proof.
  intros Hi H1 H2 H3 H4 H5 H6 H7 H8. pose proof (accepted_pos b). split; [by rewrite H1, (ai_threads a Hi)|done|done| | |done|by rewrite H5, (ai_links a Hi)|by rewrite H6; apply (ai_short a Hi)].
  - rewrite H7, (ai_curr a Hi), u32_step. f_equal. unfold in_use, counted. rewrite H5, H6. lia.
  - rewrite H6. intros H0. pose proof (ai_limit a Hi H0). destruct H8 as [H8|H8]; [lia|]. specialize (H8 H0). lia.
Qed.

Lemma counted_insert a i l l' : ac_links a !! i = Some l ->
  counted (set_link a i l') = counted a + (if decide (l' = CountedLink) then 1 else 0) - (if decide (l = CountedLink) then 1 else 0).
Proof.
  intros H. unfold counted. cbn [ac_links set_link]. rewrite insert_take_drop by (by eapply lookup_lt_Some). rewrite <- (take_drop_middle _ _ _ H) at 3.
  rewrite !filter_app, !filter_cons, !zlen_app. repeat case_decide; rewrite ?zlen_cons; lia.
Qed.

(** A step of a thread that connects to another server. *)
Lemma link_step a b i l l' : acc_inv a -> ac_links a !! i = Some l -> ac_links b = <[i := l']> (ac_links a) -> ac_threads b = ac_threads a -> ac_last b = ac_last a -> ac_failed b = ac_failed a ->
  ac_short a <= ac_short b -> ac_curr b = u32 (ac_curr a + (counted b - counted a) - (ac_short b - ac_short a)) -> acc_inv b.
Proof.
  intros Hi Hl H1 H2 H3 H4 H5 H6. destruct (ai_short a Hi) as [Hp Hz]. assert (accepted b = accepted a) as Ha by (unfold accepted, open_sfds; by rewrite H2, H4).
  assert (open_sfds b = open_sfds a) as Ho by (unfold open_sfds; by rewrite H2). assert (links <> 0) as Hn.
  { apply lookup_lt_Some in Hl. pose proof (ai_links a Hi) as Hk. unfold zlen in Hk. lia. }
  split; rewrite ?H2, ?H3, ?Ho; try (by apply Hi).
  - rewrite H6, (ai_curr a Hi). rewrite <- Z.add_sub_assoc, u32_step. f_equal. unfold in_use. rewrite Ha. lia.
  - rewrite Ha. intros H0. apply (ai_limit a Hi). lia.
  - rewrite H1. rewrite <- (ai_links a Hi). unfold zlen. by rewrite length_insert.
  - split; [lia|done].
Qed.

Lemma dispatch_inv item pipe a cfd a' : acc_inv a -> cfd ∉ open_sfds a -> too_many a = false -> __dispatch_conn item pipe a cfd = Ret a' -> acc_inv a'.
Proof.
  intros Hi Hf Ht H. destruct (next_thread a Hi) as (t & Htid & Hb & Hl). set (tid := (ac_last a + 1) mod work_threads) in *.
  unfold __dispatch_conn in H. destruct item; cbn [negb] in H; [|injection H as <-; by destruct Hi]. destruct (Z.eqb_spec work_threads 0); [lia|]. rewrite Htid, Hl in H. cbn [get_or mbind outcome_bind] in H.
  injection H as <-. destruct (thread_split a tid t Hl) as (l1 & l2 & Hs & Hs').
  set (t' := mk_nt (nt_queue t ++ [cfd]) (if pipe then S (nt_pipe t) else nt_pipe t) (nt_conns t)). specialize (Hs' t'). set (b := mk_acc _ _ _ _ _ _ _ _ _).
  assert (open_sfds b ≡ₚ cfd :: open_sfds a) as Hp.
  { change (open_sfds b) with (open_sfds (set_thread a tid t')). rewrite Hs', Hs. cbn [nt_queue nt_conns t']. rewrite <- !app_assoc. rewrite !(app_assoc l1 (nt_queue t)). cbn [app]. symmetry. apply Permutation_middle. }
  assert (accepted b = accepted a + 1) as Ha by (unfold accepted; rewrite (zlen_perm _ _ Hp), zlen_cons; change (ac_failed b) with (ac_failed a); lia).
  apply (accepted_step a b Hi); [exact (threads_set a tid t')|cbn; lia|rewrite Hp; apply NoDup_cons; split; [done|apply Hi]| |done|done|rewrite Ha; unfold b; cbn; f_equal; lia|right; intros H0].
  - apply Forall_insert; [apply Hi|]. cbn. rewrite length_app. cbn. pose proof (ai_pipe a Hi) as I6. unfold zlookup in Hl. destruct (Z.leb_spec 0 tid); [|done].
    rewrite Forall_lookup in I6. specialize (I6 _ _ Hl). destruct pipe; lia.
  - destruct (curr_exact a Hi H0) as [Hc Hr]. pose proof (counted_range a Hi). unfold too_many in Ht. rewrite Hc in Ht. apply Z.leb_gt in Ht. rewrite !u_wrap_id in Ht by (unfold is_u; lia). unfold in_use in Ht. lia.
Qed.

(** The queue of a thread that was told of a connection is not empty. *)
Lemma thread_inv ok tid t a a' : acc_inv a -> zlookup (ac_threads a) tid = Some t -> (0 < nt_pipe t)%nat -> __libevent_thread_callback ok a tid = Ret a' -> acc_inv a'.
Proof.
  intros Hi Hl Hp H. unfold __libevent_thread_callback in H. rewrite Hl in H. cbn [get_or mbind outcome_bind] in H. destruct (thread_split a tid t Hl) as (l1 & l2 & Hs & Hs').
  pose proof (ai_pipe a Hi) as I6. assert (nt_pipe t <= length (nt_queue t))%nat as Hq by (unfold zlookup in Hl; destruct (Z.leb_spec 0 tid); [|done]; by rewrite Forall_lookup in I6; eapply I6).
  destruct (nt_queue t) as [|sfd q] eqn:Eq; cbn [length] in Hq; [lia|]. destruct ok.
  - injection H as <-. set (t' := mk_nt q _ _). specialize (Hs' t'). assert (open_sfds (set_thread a tid t') ≡ₚ open_sfds a) as Hperm.
    { rewrite Hs', Hs. cbn [nt_queue nt_conns t']. f_equiv. f_equiv. rewrite (app_assoc q). cbn [app]. symmetry. apply Permutation_cons_append. }
    assert (accepted (set_thread a tid t') = accepted a) as Ha by (unfold accepted; by rewrite (zlen_perm _ _ Hperm)).
    apply (accepted_step a _ Hi); [apply threads_set|apply Hi|rewrite Hperm; apply Hi|apply Forall_insert; [done|cbn; lia]|done|done| |left; lia].
    rewrite Ha, (ai_curr a Hi), u32_step. cbn. rewrite (ai_curr a Hi). f_equal. lia.
  - set (t' := mk_nt q (pred (nt_pipe t)) (nt_conns t)) in H. specialize (Hs' t'). set (b := if uncount then _ else _) in H. injection H as <-. assert (open_sfds b = open_sfds (set_thread a tid t')) as Hb by (unfold b; by destruct uncount).
    assert (open_sfds a ≡ₚ sfd :: open_sfds b) as Hperm.
    { rewrite Hb, Hs', Hs. cbn [nt_queue nt_conns t' app]. symmetry. apply Permutation_middle. }
    pose proof (zlen_perm _ _ Hperm) as Hz. rewrite zlen_cons in Hz. pose proof (ai_fresh a Hi) as I3. rewrite Hperm in I3. apply NoDup_cons in I3 as [_ I3].
    assert (accepted b = accepted a - (if uncount then 1 else 0)) as Ha by (unfold accepted, b in *; destruct uncount; [lia|cbn [ac_failed fail_sfd set_thread]; rewrite zlen_cons; lia]).
    apply (accepted_step a b Hi); [unfold b; destruct uncount; apply threads_set|unfold b; destruct uncount; apply Hi|done|unfold b; destruct uncount; (apply Forall_insert; [done|cbn; lia])|unfold b; by destruct uncount|unfold b; by destruct uncount| |left; destruct uncount; lia].
    rewrite Ha, (ai_curr a Hi), u32_step. unfold b. destruct uncount; cbn; rewrite (ai_curr a Hi); [|f_equal; lia]. rewrite <- Z.add_opp_r, u32_step. f_equal. lia.
Qed.

Lemma end_inv tid sfd t a a' : acc_inv a -> zlookup (ac_threads a) tid = Some t -> sfd ∈ nt_conns t -> end_conn a tid sfd = Ret a' -> acc_inv a'.
Proof.
  intros Hi Hl Hx H. unfold end_conn in H. rewrite Hl in H. cbn [get_or mbind outcome_bind] in H. destruct (thread_split a tid t Hl) as (l1 & l2 & Hs & Hs').
  set (t' := mk_nt _ _ _) in H. specialize (Hs' t'). pose proof (ai_fresh a Hi) as I3. assert (NoDup (nt_conns t)) as Hnd.
  { rewrite Hs in I3. apply NoDup_app in I3 as (_ & _ & I3). apply NoDup_app in I3 as (I3 & _ & _). by apply NoDup_app in I3 as (_ & _ & I3). }
  assert (open_sfds a ≡ₚ sfd :: open_sfds (set_thread a tid t')) as Hperm.
  { rewrite Hs', Hs. cbn [nt_queue nt_conns t']. rewrite (filter_out sfd (nt_conns t) Hnd Hx) at 1. rewrite !app_assoc. rewrite <- Permutation_middle. cbn [app]. done. }
  pose proof (zlen_perm _ _ Hperm) as Hz. rewrite zlen_cons in Hz. rewrite Hperm in I3. apply NoDup_cons in I3 as [_ I3].
  injection H as <-. set (b := set_curr _ _). assert (accepted b = accepted a - 1) as Ha by (unfold accepted; change (open_sfds b) with (open_sfds (set_thread a tid t')); change (ac_failed b) with (ac_failed a); lia).
  apply (accepted_step a b Hi); [exact (threads_set a tid t')|apply Hi|done| |done|done|rewrite Ha; unfold b; cbn; f_equal; lia|left; lia].
  apply Forall_insert; [apply Hi|]. cbn. pose proof (ai_pipe a Hi) as I6. unfold zlookup in Hl. destruct (Z.leb_spec 0 tid); [|done]. rewrite Forall_lookup in I6. by eapply I6.
Qed.

Lemma link_down_inv a i l : acc_inv a -> ac_links a !! i = Some l -> acc_inv (link_down a i l).
Proof.
  intros Hi Hl. apply (link_step a _ i l NoLink Hi Hl); try done; [cbn; destruct l; lia|]. change (counted (link_down a i l)) with (counted (set_link a i NoLink)).
  rewrite (counted_insert a i l NoLink Hl). change (ac_curr (link_down a i l)) with (u32 (ac_curr a - 1)). f_equal. repeat case_decide; destruct l; try done; cbn [ac_short link_down set_link]; lia.
Qed.

Lemma acc_step_inv a a' : acc_step a a' -> acc_inv a -> acc_inv a'.
Proof.
  intros [item pipe cfd b b' Hf H|ok tid t b b' Hl Hp H|tid sfd t b b' Hl Hx H|i b Hl|i b Hl|i b Hl|i l b Hl|i l b Hl] Hi.
  - unfold __on_accept in H. destruct (0 <? cfd); [|injection H as <-; exact Hi]. destruct (too_many b) eqn:E; [injection H as <-; by destruct Hi|]. by eapply dispatch_inv.
  - by eapply thread_inv.
  - by eapply end_inv.
  - apply (link_step b _ i NoLink RawLink Hi Hl); try done. unfold link_socket at 2. rewrite (counted_insert b i NoLink RawLink Hl). rewrite ?decide_True, ?decide_False by done. cbn [ac_curr ac_short link_socket link_connected link_refused set_link]. rewrite (ai_curr b Hi), <- Z.add_sub_assoc, u32_step. f_equal. lia.
  - apply (link_step b _ i RawLink CountedLink Hi Hl); try done. change (counted (link_connected b i)) with (counted (set_link b i CountedLink)). rewrite (counted_insert b i RawLink CountedLink Hl). rewrite ?decide_True, ?decide_False by done. cbn [ac_curr ac_short link_socket link_connected link_refused set_link]. f_equal. lia.
  - apply (link_step b _ i RawLink NoLink Hi Hl); try done. change (counted (link_refused b i)) with (counted (set_link b i NoLink)). rewrite (counted_insert b i RawLink NoLink Hl). rewrite ?decide_True, ?decide_False by done. cbn [ac_curr ac_short link_socket link_connected link_refused set_link]. rewrite (ai_curr b Hi), <- Z.add_sub_assoc, u32_step. f_equal. lia.
  - destruct l; [done|by apply link_down_inv..].
  - by apply link_down_inv.
Qed.

Lemma no_links n : zlen (filter (fun l => l = CountedLink) (replicate n NoLink)) = 0.
Proof. induction n as [|n IH]; [done|]. cbn [replicate]. rewrite filter_cons_False by done. exact IH. Qed.

Lemma acc_start_inv last : -1 <= last < work_threads -> acc_inv (acc_start (Z.to_nat work_threads) last (Z.to_nat links)).
Proof.
  intros Hl. set (a := acc_start _ _ _). assert (open_sfds a = []) as E.
  { unfold open_sfds. cbn. induction (Z.to_nat work_threads) as [|n IH]; [done|]. cbn. done. }
  assert (counted a = 0) as Ec.
  { apply no_links. }
  assert (accepted a = 0) as Ea by (unfold accepted; rewrite E; by destruct uncount).
  split; rewrite ?E; try done.
  - cbn. unfold zlen. rewrite length_replicate. lia.
  - constructor.
  - unfold in_use. rewrite Ea, Ec. by vm_compute.
  - by left.
  - cbn. by apply Forall_replicate.
  - cbn. unfold zlen. rewrite length_replicate. lia.
Qed.
End Accept.

(** The data server's copies: its threads are [confitems.nio_threads], and it counts
    down a connection that has no object. *)
Definition nio_dispatch_conn (nio_threads : Z) := __dispatch_conn nio_threads.
Definition nio_on_accept (nio_threads max_connections reserved_fds : Z) := __on_accept nio_threads max_connections reserved_fds.
Definition nio_accept_loop (nio_threads : Z) := accept_loop_round nio_threads.
Definition ts_libevent_thread_callback := __libevent_thread_callback false.

(** ** Theorems *)

(** C15. In every interleaving of accepts, network threads, ends of connections and
    the connections that the data server opens to other servers: no accepted socket is
    in two places; the counter is, modulo 2^32, the number of accepted connections
    that wait for their thread or are served (for the tracker also of those that got
    no connection object, which count for ever), plus the connected sockets of the
    replication and reporting threads, less the decrements made for sockets that were
    never counted; while there was no such decrement the counter is exactly that
    sum and the accepted connections never go beyond the limit; and no thread is
    told of more connections than its queue holds. *)
Theorem accept_accounting uncount n max_connections reserved_fds links last a : 0 < n < 2 ^ 31 -> 1 <= max_connections < 2 ^ 31 -> 0 <= reserved_fds < 2 ^ 31 -> 0 <= links < 2 ^ 31 -> -1 <= last < n ->
  star (acc_step uncount n max_connections reserved_fds) (acc_start (Z.to_nat n) last (Z.to_nat links)) a ->
  let used := zlen (open_sfds a) + (if uncount then 0 else zlen (ac_failed a)) in
  NoDup (open_sfds a) /\ ac_curr a = u32 (used + counted a - ac_short a) /\
  (ac_short a = 0 -> ac_curr a = used + counted a /\ (used = 0 \/ used + reserved_fds <= max_connections - 1)) /\
  Forall (fun t => nt_pipe t <= length (nt_queue t))%nat (ac_threads a).
Proof.
  intros Hn Hm Hr Hk Hl Hs used. assert (acc_inv uncount n max_connections reserved_fds links a) as Hi.
  { eapply star_invariant; [|by apply acc_start_inv|done]. intros b b' Hi Hb. by eapply acc_step_inv. }
  split_and!; [apply Hi|apply (ai_curr _ _ _ _ _ _ Hi)| |apply Hi]. intros H0. split; [by destruct (curr_exact _ _ _ _ _ Hm Hr Hk a Hi H0)|by apply (ai_limit _ _ _ _ _ _ Hi)].
Qed.

(** A tracker that could not make connection objects often enough refuses every
    connection from then on, though it serves none. *)
Theorem tracker_refuses_for_good n max_connections reserved_fds last a a' item pipe cfd : 0 < n < 2 ^ 31 -> 1 <= max_connections < 2 ^ 31 -> 0 <= reserved_fds < 2 ^ 31 -> -1 <= last < n ->
  star (acc_step false n max_connections reserved_fds) (acc_start (Z.to_nat n) last 0) a -> max_connections - 1 <= zlen (ac_failed a) + reserved_fds ->
  star (acc_step false n max_connections reserved_fds) a a' -> 0 < cfd ->
  exists a2, __on_accept n max_connections reserved_fds item pipe a' cfd = Ret a2 /\ ac_closed a2 = cfd :: ac_closed a' /\ ac_threads a2 = ac_threads a' /\ ac_rejected a2 = u64 (ac_rejected a' + 1).
Proof.
  intros Hn Hm Hr Hl Hs Hf Hs' Hc. set (inv := acc_inv false n max_connections reserved_fds 0).
  assert (inv a') as Hi.
  { eapply star_invariant; [|eapply star_invariant; [|by apply (acc_start_inv false n max_connections reserved_fds 0)|exact Hs]|exact Hs']; intros b b' Hi Hb; by eapply acc_step_inv. }
  assert (zlen (ac_failed a) <= zlen (ac_failed a')) as Hz.
  { clear Hs Hf Hi. induction Hs' as [|x y z Hxy Hyz IH]; [done|]. etransitivity; [|exact IH]. clear IH Hyz. destruct Hxy as [? ? ? ? ? _ H|ok tid t x y _ _ H|? ? ? x y _ _ H|?|?|?|? l ? ?|? l ? ?]; try done.
    - unfold __on_accept, __dispatch_conn in H. repeat case_match; simplify_eq; try done; apply bind_Ret in H as (? & _ & H); by injection H as <-.
    - unfold __libevent_thread_callback in H. apply bind_Ret in H as (? & _ & H). repeat case_match; simplify_eq; cbn; rewrite ?zlen_cons; lia.
    - unfold end_conn in H. apply bind_Ret in H as (? & _ & H). by injection H as <-.
    - by destruct l. }
  destruct (ai_short _ _ _ _ _ _ Hi) as [_ H0]. specialize (H0 eq_refl). destruct (curr_exact false n max_connections reserved_fds 0 Hm Hr ltac:(lia) a' Hi H0) as [Hcu Hra].
  pose proof (counted_range _ _ _ _ _ _ Hi) as Hcr. unfold in_use, accepted in Hcu, Hra. pose proof (zlen_pos (open_sfds a')).
  unfold __on_accept. destruct (Z.ltb_spec 0 cfd); [|lia]. unfold too_many. rewrite Hcu, !u_wrap_id by (unfold is_u; lia). match goal with |- context [?x <=? ?y] => destruct (Z.leb_spec x y); [|lia] end.
  eexists. split; [reflexivity|]. done.
Qed.

(** *** Turns *)

(** The sockets of [sfds] that thread [j] gets when thread [last] got the one
    before. *)
Fixpoint assigned (n last j : Z) (sfds : list Z) : list Z :=
  match sfds with
  | [] => []
  | x :: r => let tid := (last + 1) mod n in (if tid =? j then [x] else []) ++ assigned n tid j r
  end.

Fixpoint dispatch_all (n : Z) (a : acceptor) (sfds : list Z) : outcome acceptor :=
  match sfds with
  | [] => Ret a
  | x :: r => a ← __dispatch_conn n true true a x; dispatch_all n a r
  end.

Lemma zlen_assigned n last j sfds : 0 < n -> 0 <= j < n -> zlen (assigned n last j sfds) = (zlen sfds + n - 1 - (j - last - 1) mod n) / n.
Proof.
  intros Hn Hj. revert last. induction sfds as [|x r IH]; intros last; cbn [assigned].
  - change (zlen (@nil Z)) with 0. pose proof (Z.mod_pos_bound (j - last - 1) n Hn). symmetry. apply Z.div_small. lia.
  - set (tid := (last + 1) mod n). cbv zeta. pose proof (Z.mod_pos_bound (last + 1) n Hn) as Hb. fold tid in Hb. rewrite zlen_app, IH, zlen_cons.
    assert ((j - last - 1) mod n = (j - tid) mod n) as ->.
    { unfold tid. rewrite Zminus_mod_idemp_r. f_equal. lia. }
    destruct (Z.eqb_spec tid j) as [->|Hne].
    + replace (j - j - 1) with (-1) by lia. rewrite Z.sub_diag, Z.mod_0_l by lia. replace (-1 mod n) with (n - 1) by (rewrite <- (Z.mod_add (-1) 1 n), Z.mod_small by lia; lia).
      change (zlen [x]) with 1. replace (zlen r + n - 1 - (n - 1)) with (zlen r) by lia. replace (1 + zlen r + n - 1 - 0) with (zlen r + 1 * n) by lia. rewrite Z.div_add by lia. lia.
    + change (zlen (@nil Z)) with 0. replace (0 + _) with ((zlen r + n - 1 - (j - tid - 1) mod n) / n) by lia. f_equal.
      assert ((j - tid) mod n = (j - tid - 1) mod n + 1) as ->; [|lia].
      destruct (Z.le_gt_cases tid j).
      * rewrite !Z.mod_small by lia. lia.
      * rewrite <- (Z.mod_add (j - tid) 1 n), <- (Z.mod_add (j - tid - 1) 1 n), !Z.mod_small by lia. lia.
Qed.

Lemma dispatch_all_queues n a sfds a' : 0 < n < 2 ^ 31 -> -1 <= ac_last a < n -> zlen (ac_threads a) = n -> dispatch_all n a sfds = Ret a' ->
  forall j t, zlookup (ac_threads a) j = Some t -> exists t', zlookup (ac_threads a') j = Some t' /\ nt_queue t' = nt_queue t ++ assigned n (ac_last a) j sfds /\
    nt_pipe t' = (nt_pipe t + length (assigned n (ac_last a) j sfds))%nat.
Proof.
  intros Hn. revert a. induction sfds as [|x r IH]; intros a Hl Ht H j t Hj; cbn [dispatch_all assigned] in *.
  - injection H as <-. exists t. rewrite app_nil_r. split_and!; [done|done|cbn; lia].
  - apply bind_Ret in H as (a1 & Hd & H). unfold __dispatch_conn in Hd. cbn [negb] in Hd. destruct (Z.eqb_spec n 0); [lia|].
    assert (Z.rem (s32 (ac_last a + 1)) n = (ac_last a + 1) mod n) as Hr.
    { destruct (Z.eq_dec (ac_last a + 1) (2 ^ 31)); [lia|]. rewrite s_wrap_id by (unfold is_s; lia). by rewrite Z.rem_mod_nonneg by lia. }
    rewrite Hr in Hd. set (tid := (ac_last a + 1) mod n) in *. pose proof (Z.mod_pos_bound (ac_last a + 1) n ltac:(lia)) as Hb. fold tid in Hb.
    apply bind_Ret in Hd as (u & Hu & Hd). destruct (zlookup (ac_threads a) tid) as [u'|] eqn:Eu; [|done]. injection Hu as ->. injection Hd as <-.
    assert (exists t1, zlookup (<[Z.to_nat tid := mk_nt (nt_queue u ++ [x]) (S (nt_pipe u)) (nt_conns u)]> (ac_threads a)) j = Some t1 /\
      nt_queue t1 = nt_queue t ++ (if tid =? j then [x] else []) /\ nt_pipe t1 = (nt_pipe t + (if (tid =? j)%Z then 1 else 0))%nat) as (t1 & H1 & H2 & H3).
    { unfold zlookup in *. destruct (Z.leb_spec 0 j); [|done]. destruct (Z.leb_spec 0 tid); [|done]. destruct (Z.eqb_spec tid j) as [<-|Hne].
      - rewrite Eu in Hj. injection Hj as <-. eexists. rewrite list_lookup_insert_eq by (by eapply lookup_lt_Some). split_and!; [done|done|cbn; lia].
      - exists t. rewrite list_lookup_insert_ne by lia. rewrite app_nil_r. split_and!; [done|done|lia]. }
    match type of H with dispatch_all n ?b r = _ => destruct (IH b ltac:(cbn; lia) ltac:(cbn; unfold zlen in *; by rewrite length_insert) H j t1 H1) as (t' & G1 & G2 & G3) end.
    exists t'. split; [done|]. rewrite G2, H2, G3, H3. cbn [ac_last]. rewrite <- app_assoc, length_app. split; [done|]. destruct (tid =? j); cbn [length]; lia.
Qed.

(** The threads get the connections in turn: of [k] that arrive one after the
    other each of [n] threads gets [k / n] or one more, in the order of their
    arrival, and a byte in its pipe for each. *)
Theorem round_robin n a sfds a' : 0 < n < 2 ^ 31 -> -1 <= ac_last a < n -> zlen (ac_threads a) = n -> dispatch_all n a sfds = Ret a' ->
  forall j t, zlookup (ac_threads a) j = Some t -> exists t' new, zlookup (ac_threads a') j = Some t' /\ nt_queue t' = nt_queue t ++ new /\ nt_pipe t' = (nt_pipe t + length new)%nat /\
    new `sublist_of` sfds /\ zlen sfds / n <= zlen new <= zlen sfds / n + 1.
Proof.
  intros Hn Hl Ht H j t Hj. destruct (dispatch_all_queues n a sfds a' Hn Hl Ht H j t Hj) as (t' & H1 & H2 & H3). exists t', (assigned n (ac_last a) j sfds). split_and!; try done.
  - clear. revert a. set (last := ac_last). intros a. generalize (last a). clear last a. induction sfds as [|x r IH]; intros last; cbn [assigned]; [done|]. destruct (_ =? j); cbn [app]; by constructor.
  - assert (0 <= j < n) as Hjn by (unfold zlookup in Hj; destruct (Z.leb_spec 0 j); [|done]; apply lookup_lt_Some in Hj; unfold zlen in Ht; lia).
    rewrite zlen_assigned by lia. pose proof (Z.mod_pos_bound (j - ac_last a - 1) n ltac:(lia)). apply Z.div_le_mono; lia.
  - assert (0 <= j < n) as Hjn by (unfold zlookup in Hj; destruct (Z.leb_spec 0 j); [|done]; apply lookup_lt_Some in Hj; unfold zlen in Ht; lia).
    rewrite zlen_assigned by lia. pose proof (Z.mod_pos_bound (j - ac_last a - 1) n ltac:(lia)). rewrite <- (Z.div_add (zlen sfds) 1 n) by lia. apply Z.div_le_mono; lia.
Qed.

(** ** Examples *)

(** Runs are computed. *)
Inductive acc_event := EvAccept (cfd : Z) (item pipe : bool) | EvThread (tid : Z) (ok : bool) | EvEnd (tid sfd : Z) |
  EvSocket (i : nat) | EvConnected (i : nat) | EvRefused (i : nat) | EvClose (i : nat) | EvTrackerClose (i : nat).

Definition acc_event_step (uncount : bool) (n maxc res : Z) (a : acceptor) (ev : acc_event) : option acceptor :=
  let ret (o : outcome acceptor) := match o with Ret a => Some a | Crash _ => None end in
  match ev with
  | EvAccept cfd item pipe => if decide (cfd ∈ open_sfds a) then None else ret (__on_accept n maxc res item pipe a cfd)
  | EvThread tid ok => match zlookup (ac_threads a) tid with Some t => if (0 <? nt_pipe t)%nat then ret (__libevent_thread_callback uncount ok a tid) else None | None => None end
  | EvEnd tid sfd => match zlookup (ac_threads a) tid with Some t => if decide (sfd ∈ nt_conns t) then ret (end_conn a tid sfd) else None | None => None end
  | EvSocket i => match ac_links a !! i with Some NoLink => Some (link_socket a i) | _ => None end
  | EvConnected i => match ac_links a !! i with Some RawLink => Some (link_connected a i) | _ => None end
  | EvRefused i => match ac_links a !! i with Some RawLink => Some (link_refused a i) | _ => None end
  | EvClose i => match ac_links a !! i with Some l => Some (link_close a i l) | None => None end
  | EvTrackerClose i => match ac_links a !! i with Some l => Some (link_trackerclientconn_close a i l) | None => None end
  end.

Fixpoint acc_run (uncount : bool) (n maxc res : Z) (a : acceptor) (evs : list acc_event) : option acceptor :=
  match evs with
  | [] => Some a
  | ev :: evs => a ← acc_event_step uncount n maxc res a ev; acc_run uncount n maxc res a evs
  end.

Lemma acc_run_star uncount n maxc res evs a a' : acc_run uncount n maxc res a evs = Some a' -> star (acc_step uncount n maxc res) a a'.
Proof.
  revert a. induction evs as [|ev evs IH]; intros a H; cbn [acc_run] in H; [injection H as <-; constructor|].
  destruct (acc_event_step uncount n maxc res a ev) as [b|] eqn:E; [|done]. eapply star_step; [|by apply IH]. clear IH H. destruct ev as [cfd item pipe|tid ok|tid sfd|i|i|i|i|i]; cbn [acc_event_step] in E.
  - destruct (decide _); [done|]. destruct (__on_accept _ _ _ _ _ _ _) eqn:Ea; [|done]. injection E as <-. by eapply step_accept.
  - destruct (zlookup _ tid) as [t|] eqn:Et; [|done]. destruct (Nat.ltb_spec 0 (nt_pipe t)); [|done]. destruct (__libevent_thread_callback _ _ _ _) eqn:Ea; [|done]. injection E as <-. by eapply step_thread.
  - destruct (zlookup _ tid) as [t|] eqn:Et; [|done]. destruct (decide _); [|done]. destruct (end_conn _ _ _) eqn:Ea; [|done]. injection E as <-. by eapply step_end.
  - destruct (ac_links a !! i) as [[]|] eqn:El; simplify_eq. by apply step_socket.
  - destruct (ac_links a !! i) as [[]|] eqn:El; simplify_eq. by apply step_connected.
  - destruct (ac_links a !! i) as [[]|] eqn:El; simplify_eq. by apply step_refused.
  - destruct (ac_links a !! i) as [l|] eqn:El; simplify_eq. by apply step_close.
  - destruct (ac_links a !! i) as [l|] eqn:El; simplify_eq. by apply step_tracker_close.
Qed.

Definition demo_events : list acc_event := [EvAccept 5 true true; EvAccept 6 true true; EvSocket 0; EvAccept 7 true false; EvConnected 0; EvThread 1 true; EvThread 0 false; EvAccept 8 true true; EvEnd 1 5].

Lemma accept_accounting_witness : exists a, acc_run true 2 20 10 (acc_start 2 0 1) demo_events = Some a /\ NoDup (open_sfds a) /\ ac_curr a = zlen (open_sfds a) + 0 + counted a /\
  counted a = 1 /\ Forall (fun t => nt_pipe t <= length (nt_queue t))%nat (ac_threads a).
Proof.
  eexists. split; [vm_compute; reflexivity|].
  match goal with |- NoDup (open_sfds ?x) /\ _ => destruct (accept_accounting true 2 20 10 1 0 x) as (H1 & _ & H2 & H3); [lia..| |] end.
  - eapply (acc_run_star true 2 20 10 demo_events). vm_compute. reflexivity.
  - split; [exact H1|]. split; [apply H2; reflexivity|]. split; [reflexivity|exact H3].
Defined.

(** A reporting thread that cannot connect to its tracker decrements the counter at
    every attempt: the limit no longer holds. *)
Lemma drift_lifts_limit : exists a, acc_run true 1 3 0 (acc_start 1 0 1) [EvAccept 5 true true; EvAccept 6 true true; EvSocket 0; EvTrackerClose 0; EvAccept 7 true true] = Some a /\
  zlen (open_sfds a) = 3 /\ ac_rejected a = 0 /\ ac_short a = 1.
Proof. eexists. split; [by vm_compute|]. by vm_compute. Qed.

Definition demo_leaks : list acc_event := [EvAccept 5 true true; EvAccept 6 true true; EvThread 0 false; EvThread 0 false].

Lemma tracker_refuses_for_good_witness : exists a a2, acc_run false 1 3 0 (acc_start 1 (-1) 0) demo_leaks = Some a /\ open_sfds a = [] /\
  __on_accept 1 3 0 true true a 9 = Ret a2 /\ ac_closed a2 = 9 :: ac_closed a /\ ac_threads a2 = ac_threads a /\ ac_rejected a2 = u64 (ac_rejected a + 1).
Proof.
  eexists. destruct (tracker_refuses_for_good 1 3 0 (-1)
    (mk_acc 2 2 0 0 [mk_nt [] 0 []] [] [6; 5] [] 0) (mk_acc 2 2 0 0 [mk_nt [] 0 []] [] [6; 5] [] 0) true true 9) as (a2 & H); [lia..| | | |lia|].
  - apply (acc_run_star false 1 3 0 demo_leaks). by vm_compute.
  - by vm_compute.
  - constructor.
  - exists a2. split; [by vm_compute|]. split; [by vm_compute|]. exact H.
Defined.

Lemma round_robin_witness : exists a' t' new, dispatch_all 2 (acc_start 2 0 0) [5; 6; 7] = Ret a' /\ zlookup (ac_threads a') 1 = Some t' /\ nt_queue t' = [] ++ new /\ nt_pipe t' = (0 + length new)%nat /\
  new `sublist_of` [5; 6; 7] /\ 1 <= zlen new <= 2.
Proof.
  eexists. assert (dispatch_all 2 (acc_start 2 0 0) [5; 6; 7] = Ret (mk_acc 3 3 0 1 [mk_nt [6] 1 []; mk_nt [5; 7] 2 []] [] [] [] 0)) as E by (by vm_compute).
  destruct (round_robin 2 (acc_start 2 0 0) [5; 6; 7] _ ltac:(lia) ltac:(cbn; lia) eq_refl E 1 (mk_nt [] 0 []) eq_refl) as (t' & new & H). exists t', new. split; [exact E|]. exact H.
Defined.
