(* ===== verification/Threads.v ===== *)
(** * The start of the threads

    Both servers start their network threads, and the data server its disk
    threads, in the same way: the threads are created, each counts itself in under
    a mutex and signals, and the main thread waits until all have
    ([ts_thread_init] in src/src/trackerserver/ts_thread.c, [nio_threads_init] in
    src/src/dataserver/ds_network_io.c, [dio_thread_pool_init] in
    src/src/dataserver/ds_disk_io.c, [init_pthread_attr] and
    [create_work_threads] in src/src/common/shared_func.c). *)
From S2P Require Import Prelude.

(** ** Attributes and plain creation *)

(** What the calls on the attributes answer. *)
Record attr_env := mk_attr { ae_init : Z; ae_getstack : Z; ae_old : Z; ae_setstack : Z -> Z; ae_detach : Z }.

Definition new_stack_size (old_stack_size stack_size : Z) : Z :=
  if 0 <? stack_size then if negb (old_stack_size =? stack_size) then stack_size else 0
  else if old_stack_size <? 1 * 1024 * 1024 then 1 * 1024 * 1024
  else 0.

(** The result, and the size of the stack that the attributes have then. *)
Definition init_pthread_attr (e : attr_env) (stack_size : Z) : Z * Z :=
  if negb (ae_init e =? 0) then (ae_init e, ae_old e)
  else if negb (ae_getstack e =? 0) then (ae_getstack e, ae_old e)
  else
    let n := new_stack_size (ae_old e) stack_size in
    if (0 <? n) && negb (ae_setstack e n =? 0) then (ae_setstack e n, ae_old e)
    else
      let size := if 0 <? n then n else ae_old e in
      if negb (ae_detach e =? 0) then (ae_detach e, size) else (0, size).

(** The loop over [tids], from number [i] on; [create] answers for
    [pthread_create]. *)
Fixpoint create_loop (create : nat -> Z) (i n : nat) : nat * Z :=
  match n with
  | O => (i, 0)
  | S n' => if negb (create i =? 0) then (i, create i) else create_loop create (S i) n'
  end.

(** [*count] and the result. *)
Definition create_work_threads (e : attr_env) (create : nat -> Z) (count : Z) (stack_size : Z) : Z * Z :=
  let '(result, _) := init_pthread_attr e stack_size in
  if negb (result =? 0) then (count, result)
  else
    let '(k, result) := create_loop create 0 (Z.to_nat count) in
    (if negb (result =? 0) then Z.of_nat k else count, result).

(** ** Starting a pool *)

(** What the calls answer, by the number of the thread. *)
Record start_env := mk_senv { se_calloc : bool; se_errno : Z; se_pipe : nat -> bool; se_setup : nat -> bool; se_attr : nat -> attr_env; se_create : nat -> Z }.

(** The initialisation ends with an error, or the main thread waits for the
    threads: for each, whether its event base, pipe and queues could be set up,
    which nobody looks at, and whether it was created. *)
Inductive init_result := InitError (ret : Z) | InitWait (threads : list (bool * bool)).

(** [pipe] for the threads from [i] on; [ctxs.reserved_fds] and whether all are
    there. *)
Fixpoint pipes (e : start_env) (i n : nat) (reserved_fds : Z) : Z * bool :=
  match n with
  | O => (reserved_fds, true)
  | S n' => if se_pipe e i then pipes e (S i) n' (u32 (reserved_fds + 5)) else (reserved_fds, false)
  end.

Definition __create_worker_thread (e : start_env) (stack_size : Z) (i : nat) : bool :=
  ((init_pthread_attr (se_attr e i) stack_size).1 =? 0) && (se_create e i =? 0).

Definition ts_thread_init (e : start_env) (stack_size nthreads reserved_fds : Z) : Z * init_result :=
  if negb (se_calloc e) then (reserved_fds, InitError LFS_ERROR)
  else
    let '(reserved_fds, ok) := pipes e 0 (Z.to_nat nthreads) reserved_fds in
    if negb ok then (reserved_fds, InitError LFS_ERROR)
    else (reserved_fds, InitWait (map (fun i => (se_setup e i, __create_worker_thread e stack_size i)) (seq 0 (Z.to_nat nthreads)))).

(** The other two pools create their threads as the tracker does, and the network
    threads of the data server are set up as those of the tracker. *)
Definition __create_nio_thread := __create_worker_thread.
Definition __create_dio_thread := __create_worker_thread.
Definition nio_threads_init := ts_thread_init.

(** [errno] may be anything after [calloc]. *)
Definition dio_thread_pool_init (e : start_env) (stack_size dio_read_threads dio_write_threads : Z) : init_result :=
  let dio_tids_count := s32 (dio_read_threads + dio_write_threads) in
  if negb (se_calloc e) then InitError (se_errno e)
  else InitWait (map (fun i => (se_setup e i, __create_dio_thread e stack_size i)) (seq 0 (Z.to_nat dio_tids_count))).

(** ** Waiting for the threads *)

(** The main thread: before it takes the mutex, in [pthread_cond_wait], woken up,
    or returned. *)
Inductive main_pc := ToTest | InWait | Woken | Returned.

(** The main thread, [init_threads_count], and the created threads that have not
    counted themselves in. *)
Record starting := mk_starting { st_main : main_pc; st_count : Z; st_new : nat }.

(** [while(init_threads_count < nthreads) pthread_cond_wait(...)]: from the mutex
    to the wait or the return nothing else happens. *)
Definition __wait_for_worker_thread_startup (nthreads : Z) (s : starting) : starting :=
  mk_starting (if st_count s <? nthreads then InWait else Returned) (st_count s) (st_new s).

(** The signal reaches the main thread when it waits. *)
Definition __thread_init_register (s : starting) (n : nat) : starting :=
  mk_starting (match st_main s with InWait => Woken | m => m end) (s32 (st_count s + 1)) n.

(** [__setup_thread], [__setup_nio_thread]: [base] is whether libevent gives an event
    base, [event_add] what that call returns. *)
Definition __setup_thread (base : bool) (event_add : Z) : Z := if negb base then LFS_ERROR else if event_add =? -1 then LFS_ERROR else LFS_OK.
Definition __setup_nio_thread (base : bool) (event_add : Z) : Z := if negb base then LFS_ERROR else if event_add =? -1 then -2 else LFS_OK.

(** [__thread_worker], [__nio_thread_entry]: the thread counts itself in and then runs
    [event_base_loop] as long as the flag, which it reads before each, is set:
    how often. *)
Fixpoint __thread_worker (flags : list bool) : nat := match flags with true :: flags' => S (__thread_worker flags') | _ => O end.
Definition __nio_thread_entry := __thread_worker.

(** [ts_dispatch], [nio_dispatch]: whether the main thread gets to its event loop.
    [ts_thread_destroy]: the flag afterwards. *)
Definition ts_dispatch (event_add : Z) : bool := negb (event_add =? -1).
Definition nio_dispatch := ts_dispatch.
Definition ts_thread_destroy (do_work_thread : bool) : bool := false.

(** The pools of the data server wait and count in the same way. *)
Definition __wait_for_nio_thread_startup := __wait_for_worker_thread_startup.
Definition __wait_for_dio_thread_startup := __wait_for_worker_thread_startup.
Definition __nio_thread_init_register := __thread_init_register.
Definition __dio_thread_init_register := __thread_init_register.

Section Waiting.
Context (nthreads : Z).

(** The steps that have to happen. *)
Inductive due_step : starting -> starting -> Prop :=
| due_test s : st_main s = ToTest \/ st_main s = Woken -> due_step s (__wait_for_worker_thread_startup nthreads s)
| due_register s n : st_new s = S n -> due_step s (__thread_init_register s n).

(** And a wake-up without a signal. *)
Inductive start_step : starting -> starting -> Prop :=
| start_due s s' : due_step s s' -> start_step s s'
| start_spurious c n : start_step (mk_starting InWait c n) (mk_starting Woken c n).
End Waiting.

(** [k] threads were created. *)
Definition start_state (k : nat) : starting := mk_starting ToTest 0 k.

Definition created (ts : list (bool * bool)) : nat := sum_list ((fun t : bool * bool => if t.2 then 1%nat else 0%nat) <$> ts).

(** ** Lemmas *)

Lemma create_loop_spec create n i k r : create_loop create i n = (k, r) ->
  (forall j, (i <= j < k)%nat -> create j = 0) /\ ((r = 0 /\ k = (i + n)%nat) \/ (r <> 0 /\ r = create k /\ (i <= k < i + n)%nat)).
Proof.
  revert i. induction n as [|n IH]; intros i; cbn [create_loop].
  - intros [= <- <-]. split; [lia|]. left. lia.
  - destruct (Z.eqb_spec (create i) 0) as [E|E]; cbn [negb].
    + intros (H1 & H2)%IH. split; [|destruct H2 as [?|?]; [left|right]; lia]. intros j Hj. destruct (decide (j = i)) as [->|]; [done|]. apply H1. lia.
    + intros [= <- <-]. split; [lia|]. right. lia.
Qed.

Lemma work_threads_created e create count stack_size : 0 <= count -> (init_pthread_attr e stack_size).1 = 0 ->
  exists k r, create_work_threads e create count stack_size = (k, r) /\ 0 <= k <= count /\ (r = 0 <-> k = count) /\ forall j, (j < Z.to_nat k)%nat -> create j = 0.
Proof.
  intros Hc H0. unfold create_work_threads. destruct (init_pthread_attr e stack_size) as [r0 sz]. cbn in H0. subst r0. cbn [Z.eqb negb].
  destruct (create_loop create 0 (Z.to_nat count)) as [k r] eqn:E. apply create_loop_spec in E as (H1 & [(-> & ->)|(Hr & -> & Hk)]).
  - exists count, 0. split_and!; try done; try lia. intros j Hj. apply H1. lia.
  - destruct (Z.eqb_spec (create k) 0) as [|_]; [done|]. cbn [negb]. exists (Z.of_nat k), (create k). split_and!; try done; try lia. intros j Hj. apply H1. lia.
Qed.

Lemma pipes_all e n i r : 0 <= r -> r + 5 * Z.of_nat n < 2 ^ 32 -> (forall j, (i <= j < i + n)%nat -> se_pipe e j = true) -> pipes e i n r = (r + 5 * Z.of_nat n, true).
Proof.
  revert i r. induction n as [|n IH]; intros i r H0 Hr Hp; cbn [pipes]; [f_equal; lia|].
  rewrite (Hp i) by lia. rewrite u_wrap_id by (unfold is_u; lia). rewrite IH; [f_equal; lia|lia|lia|]. intros j Hj. apply Hp. lia.
Qed.

Lemma created_cons t ts : created (t :: ts) = ((if t.2 then 1 else 0) + created ts)%nat.
Proof. done. Qed.

(** The threads from number [i] on. *)
Definition pool_of (e : start_env) (stack_size : Z) (i n : nat) : list (bool * bool) :=
  map (fun i => (se_setup e i, __create_worker_thread e stack_size i)) (seq i n).

Lemma created_le e stack_size n i : (created (pool_of e stack_size i n) <= n)%nat.
Proof.
  revert i. induction n as [|n IH]; intros i; [done|]. unfold pool_of. cbn [seq map]. rewrite created_cons. specialize (IH (S i)). unfold pool_of in IH. cbn [snd].
  destruct (__create_worker_thread e stack_size i); lia.
Qed.

Lemma created_all e stack_size n i : (forall j, (i <= j < i + n)%nat -> __create_worker_thread e stack_size j = true) -> created (pool_of e stack_size i n) = n.
Proof.
  revert i. induction n as [|n IH]; intros i H; [done|]. unfold pool_of. cbn [seq map]. rewrite created_cons. cbn [snd]. rewrite (H i) by lia.
  fold (pool_of e stack_size (S i) n). rewrite IH; [done|]. intros j Hj. apply H. lia.
Qed.

Lemma created_less e stack_size n i j : (i <= j < i + n)%nat -> __create_worker_thread e stack_size j = false -> (created (pool_of e stack_size i n) < n)%nat.
Proof.
  revert i. induction n as [|n IH]; intros i Hj E; [lia|]. unfold pool_of. cbn [seq map]. rewrite created_cons. cbn [snd]. fold (pool_of e stack_size (S i) n).
  destruct (decide (j = i)) as [->|]; [rewrite E; pose proof (created_le e stack_size n (S i)); lia|].
  specialize (IH (S i) ltac:(lia) E). destruct (__create_worker_thread e stack_size i); lia.
Qed.

(** *** The wait *)

Section Wait.
Context (nthreads : Z) (k : nat).
Hypothesis (Hk : Z.of_nat k < 2 ^ 31).

(** The counter is exact, and the main thread waits only while threads are
    missing: a thread that counts itself in wakes it up. *)
Definition start_inv (s : starting) : Prop :=
  0 <= st_count s /\ st_count s + Z.of_nat (st_new s) = Z.of_nat k /\ (st_main s = InWait -> st_count s < nthreads) /\ (st_main s = Returned -> nthreads <= st_count s).

Lemma due_step_inv s s' : start_inv s -> due_step nthreads s s' -> start_inv s'.
Proof.
  intros Hi Hs. destruct Hs as [s0 _|s0 n Hn]; destruct Hi as (H1 & H2 & H3 & H4); unfold start_inv; cbn.
  - split_and!; [done|done| |]; by destruct (Z.ltb_spec (st_count s0) nthreads).
  - rewrite Hn in H2. rewrite s_wrap_id by (unfold is_s; lia). split_and!; [lia|lia| |]; destruct (st_main s0); try done; intros _; specialize (H4 eq_refl); lia.
Qed.

Lemma start_step_inv s s' : start_inv s -> start_step nthreads s s' -> start_inv s'.
Proof. intros Hi Hs. destruct Hs as [s0 s1 H|c n]; [by eapply due_step_inv|]. unfold start_inv in *. cbn in *. naive_solver. Qed.

Lemma start_reachable s : star (start_step nthreads) (start_state k) s -> start_inv s.
Proof. apply star_invariant; [apply start_step_inv|]. unfold start_inv. cbn. naive_solver lia. Qed.

Definition start_measure (s : starting) : nat := 2 * st_new s + match st_main s with ToTest | Woken => 1 | _ => 0 end.

Lemma due_step_decreases s s' : due_step nthreads s s' -> (start_measure s' < start_measure s)%nat.
Proof.
  clear dependent k. unfold start_measure. intros Hs. destruct Hs as [s0 [E|E]|s0 n Hn]; cbn; rewrite ?E, ?Hn; [destruct (st_count s0 <? nthreads); lia..|]. destruct (st_main s0); lia.
Qed.

Lemma due_step_terminates s : Acc (flip (due_step nthreads)) s.
Proof.
  clear dependent k. remember (start_measure s) as n eqn:E. revert s E. induction n as [n IH] using lt_wf_ind. intros s ->. constructor. intros s' H. eapply IH; [|reflexivity]. by apply due_step_decreases.
Qed.

(** Only the end has no step that is due. *)
Lemma start_progress s : start_inv s -> nthreads <= Z.of_nat k -> (forall s', ~ due_step nthreads s s') -> s = mk_starting Returned (Z.of_nat k) 0.
Proof.
  destruct s as [m c n]. intros (H1 & H2 & H3 & H4) Hn Hs. cbn in *. destruct n as [|n]; [|exfalso; by eapply Hs, due_register].
  destruct m; [exfalso; eapply Hs, due_test; by left| |exfalso; eapply Hs, due_test; by right|f_equal; lia]. specialize (H3 eq_refl). lia.
Qed.
End Wait.

(** ** Theorems *)

(** C17. The network threads of a server all start: [ts_thread_init] reserves five
    descriptors for each, and whatever the order in which the threads run and
    however often the main thread is woken up without a signal, it is not left
    waiting: a run in which no such wake-up happens any more is finite and ends
    with the main thread returned and every thread counted, never earlier. *)
Theorem startup_completes e stack_size nthreads reserved_fds : 0 <= nthreads < 2 ^ 31 -> 0 <= reserved_fds -> reserved_fds + 5 * nthreads < 2 ^ 32 -> se_calloc e = true ->
  (forall i, (i < Z.to_nat nthreads)%nat -> se_pipe e i = true /\ __create_worker_thread e stack_size i = true) ->
  exists ts, ts_thread_init e stack_size nthreads reserved_fds = (reserved_fds + 5 * nthreads, InitWait ts) /\
  forall s, star (start_step nthreads) (start_state (created ts)) s ->
    (st_main s = Returned -> st_count s = nthreads) /\ Acc (flip (due_step nthreads)) s /\
    forall s', star (due_step nthreads) s s' -> (forall s'', ~ due_step nthreads s' s'') -> s' = mk_starting Returned nthreads 0.
Proof.
  intros Hn Hr Hb Hc Ha. exists (pool_of e stack_size 0 (Z.to_nat nthreads)). split.
  - unfold ts_thread_init. rewrite Hc, pipes_all; [|lia|lia|intros j Hj; apply Ha; lia]. cbn [negb]. unfold pool_of. f_equal. lia.
  - rewrite created_all by (intros j Hj; apply Ha; lia). intros s Hs. assert (start_inv nthreads (Z.to_nat nthreads) s) as Hi by (apply start_reachable; [lia|done]).
    split_and!; [|apply due_step_terminates|].
    + intros E. destruct Hi as (H1 & H2 & H3 & H4). specialize (H4 E). lia.
    + intros s' Hs' Hd. rewrite (start_progress nthreads (Z.to_nat nthreads) s'); [f_equal; lia| |lia|done].
      eapply star_invariant; [|exact Hi|exact Hs']. intros a b Ha' Hb'. eapply due_step_inv; [lia|exact Ha'|exact Hb'].
Qed.

(** When a thread cannot be created, which [__create_worker_thread] only logs,
    the server never gets beyond its start: the main thread waits for the
    missing thread for ever. *)
Theorem startup_hangs e stack_size nthreads reserved_fds i r ts s : 0 <= nthreads < 2 ^ 31 -> (i < Z.to_nat nthreads)%nat -> __create_worker_thread e stack_size i = false ->
  ts_thread_init e stack_size nthreads reserved_fds = (r, InitWait ts) -> star (start_step nthreads) (start_state (created ts)) s -> st_main s <> Returned.
Proof.
  intros Hn Hi Hf Ht Hs E. unfold ts_thread_init in Ht. destruct (negb (se_calloc e)); [done|]. destruct (pipes e 0 (Z.to_nat nthreads) reserved_fds) as [r' ok].
  destruct (negb ok); [done|]. injection Ht as _ <-. fold (pool_of e stack_size 0 (Z.to_nat nthreads)) in Hs.
  pose proof (created_less e stack_size (Z.to_nat nthreads) 0 i ltac:(lia) Hf) as Hl.
  assert (start_inv nthreads (created (pool_of e stack_size 0 (Z.to_nat nthreads))) s) as (H1 & H2 & _ & H4) by (apply start_reachable; [lia|done]). specialize (H4 E). lia.
Qed.

Definition demo_attr : attr_env := mk_attr 0 0 8388608 (fun _ => 0) 0.
Definition demo_start (fails : nat -> bool) : start_env := mk_senv true 0 (fun _ => true) (fun _ => true) (fun _ => demo_attr) (fun i => if fails i then 11 else 0).

Lemma startup_completes_witness : exists ts, ts_thread_init (demo_start (fun _ => false)) 524288 4 10 = (30, InitWait ts) /\
  forall s', star (due_step 4) (start_state (created ts)) s' -> (forall s'', ~ due_step 4 s' s'') -> s' = mk_starting Returned 4 0.
Proof.
  destruct (startup_completes (demo_start (fun _ => false)) 524288 4 10) as (ts & H1 & H2); [lia|lia|lia|done|done|].
  exists ts. split; [exact H1|]. apply (H2 _ (star_refl _ _)).
Defined.

Lemma startup_hangs_witness : ~ exists s, star (start_step 2) (mk_starting ToTest 0 1) s /\ st_main s = Returned.
Proof.
  intros (s & Hs & E). apply (startup_hangs (demo_start (fun i => (i =? 1)%nat)) 524288 2 10 1 20 [(true, true); (true, false)] s); done || lia.
Defined.
