(* ===== verification/Shutdown.v ===== *)
(** * Stopping the tracker

    The maintenance thread of src/src/trackerserver/ts_cluster.c and the snapshot
    thread of ts_snapshot.c as whole loops, with the two mutexes and the two
    conditions they use, and [tracker_destroy] of ts_func.c, which stops them and
    frees the volume table.  [tracker_destroy] runs when the tracker gets SIGTERM
    or SIGINT. *)
From S2P Require Import Prelude Datasevr Cluster ClusterDatasevr.

(** ** The state *)

(** Who holds a mutex; the main thread holds one only within a step. *)
Inductive holder := Nobody | Maintenance | Flusher.

#[export] Instance holder_eq_dec : EqDecision holder.
Proof. solve_decision. Defined.

(** The maintenance thread: created, in [pthread_cond_wait], woken up without the
    mutex yet, before [snapshot_hangup], before [__cluster_expand], moving
    buckets, ended. *)
Inductive maint_at := MtStarting | MtWaiting | MtWoken | MtHangup | MtExpand | MtMoving | MtExited.

(** The snapshot thread. *)
Inductive flusher_at := FlStarting | FlWaiting | FlWoken | FlFlushing | FlExited.

(** The main thread: in its event loop, in [cluster_maintenance_thread_stop]
    (before the mutex, in [pthread_join]), in [snapshot_thread_stop] (the same), in
    [__cluster_free], or done with it. *)
Inductive main_at := Serving | StopMaint | JoinMaint | StopSnap | JoinSnap | FreeCluster | Stopped.

Record life := mk_life {
  lf_store : store;
  lf_cluster : datasevr_cluster;
  cluster_maintenance_lock : holder;
  snapshot_lock : holder;
  do_run_cluster_maintenance_thread : bool;
  do_run_snapshot_thread : bool;
  lf_maint : maint_at;
  lf_flusher : flusher_at;
  lf_main : main_at
}.

Definition with_maint (w : life) (s : store) (cl : datasevr_cluster) (ml sl : holder) (m : maint_at) : life :=
  mk_life s cl ml sl (do_run_cluster_maintenance_thread w) (do_run_snapshot_thread w) m (lf_flusher w) (lf_main w).
Definition with_flusher (w : life) (sl : holder) (f : flusher_at) : life :=
  mk_life (lf_store w) (lf_cluster w) (cluster_maintenance_lock w) sl (do_run_cluster_maintenance_thread w) (do_run_snapshot_thread w) (lf_maint w) f (lf_main w).
Definition with_main (w : life) (m : main_at) : life :=
  mk_life (lf_store w) (lf_cluster w) (cluster_maintenance_lock w) (snapshot_lock w) (do_run_cluster_maintenance_thread w) (do_run_snapshot_thread w) (lf_maint w) (lf_flusher w) m.

(** ** The threads

    [None]: the thread blocks. *)

Definition free (h : holder) : bool := bool_decide (h = Nobody).

Definition not_started (cl : datasevr_cluster) : datasevr_cluster :=
  mk_cluster (old_volume_count cl) (primary_volume_count cl) (curr_volume_id cl) (hash_size cl) (expand_bucket cl) false (expanding cl) (old_volumes cl) (primary_volumes cl).

(** [pthread_cond_wait]: the mutex is given up. *)
Definition maint_wait (w : life) (s : store) (cl : datasevr_cluster) (sl : holder) : life := with_maint w s (not_started cl) Nobody sl MtWaiting.

(** The end of the loop: the mutexes that the thread holds stay locked. *)
Definition maint_loop (w : life) (cl : datasevr_cluster) (sl : holder) : life :=
  if do_run_cluster_maintenance_thread w then
    if expanding cl then with_maint w (lf_store w) cl Maintenance sl MtMoving else maint_wait w (lf_store w) cl sl
  else with_maint w (lf_store w) cl Maintenance sl MtExited.

(** A step of [__cluster_maintenance_thread]; [ok]: [malloc] in
    [__cluster_expand], [got]: [cluster_trylock] of the bucket. *)
Definition __cluster_maintenance_thread (ok got : bool) (w : life) : outcome (option life) :=
  match lf_maint w with
  | MtStarting => Ret (if free (cluster_maintenance_lock w) then Some (maint_loop w (lf_cluster w) (snapshot_lock w)) else None)
  | MtWoken => Ret (if free (cluster_maintenance_lock w) then Some (with_maint w (lf_store w) (lf_cluster w) Maintenance (snapshot_lock w) MtHangup) else None)
  | MtHangup => Ret (if free (snapshot_lock w) then Some (with_maint w (lf_store w) (lf_cluster w) Maintenance Maintenance MtExpand) else None)
  | MtExpand =>
      let cl := __cluster_expand ok (lf_cluster w) in
      Ret (Some (maint_loop w cl (if ok then Maintenance else Nobody)))
  | MtMoving =>
      if negb got then Ret (Some w)
      else
        '(s, cl) ← cluster_migrate_bucket (lf_store w) (lf_cluster w);
        Ret (Some (if expanding cl then with_maint w s cl Maintenance Maintenance MtMoving else maint_wait w s cl Nobody))
  | MtWaiting | MtExited => Ret None
  end.

(** A step of [__snapshot_thread]; the flush is one step. *)
Definition __snapshot_thread (w : life) : option life :=
  let loop := if do_run_snapshot_thread w then with_flusher w Nobody FlWaiting else with_flusher w Nobody FlExited in
  match lf_flusher w with
  | FlStarting => if free (snapshot_lock w) then Some loop else None
  | FlWoken => if free (snapshot_lock w) then Some (with_flusher w Flusher FlFlushing) else None
  | FlFlushing => Some loop
  | FlWaiting | FlExited => None
  end.

Definition wake_maint (m : maint_at) : maint_at := match m with MtWaiting => MtWoken | _ => m end.
Definition wake_flusher (f : flusher_at) : flusher_at := match f with FlWaiting => FlWoken | _ => f end.

(** [cluster_maintenance_thread_stop] up to [pthread_join]. *)
Definition cluster_maintenance_thread_stop (w : life) : option life :=
  if free (cluster_maintenance_lock w) then
    Some (mk_life (lf_store w) (lf_cluster w) Nobody (snapshot_lock w) false (do_run_snapshot_thread w) (wake_maint (lf_maint w)) (lf_flusher w) JoinMaint)
  else None.

Definition snapshot_thread_stop (w : life) : option life :=
  if free (snapshot_lock w) then
    Some (mk_life (lf_store w) (lf_cluster w) (cluster_maintenance_lock w) Nobody (do_run_cluster_maintenance_thread w) false (lf_maint w) (wake_flusher (lf_flusher w)) JoinSnap)
  else None.

(** A step of [tracker_destroy].  The timer threads, which end by themselves, and
    what comes after [cluster_destroy] are left out. *)
Definition tracker_destroy (w : life) : option life :=
  match lf_main w with
  | Serving => Some (with_main w StopMaint)
  | StopMaint => cluster_maintenance_thread_stop w
  | JoinMaint => match lf_maint w with MtExited => Some (with_main w StopSnap) | _ => None end
  | StopSnap => snapshot_thread_stop w
  | JoinSnap => match lf_flusher w with FlExited => Some (with_main w FreeCluster) | _ => None end
  | FreeCluster => if free (cluster_maintenance_lock w) then Some (with_main w Stopped) else None
  | Stopped => None
  end.

(** A request that inserts a volume; the signal of [__cluster_start_expand]. *)
Definition insert_request (w : life) (v : vloc) : outcome life :=
  '(s, cl, _) ← do_cluster_insert (lf_store w) (lf_cluster w) v;
  Ret (with_maint w s cl (cluster_maintenance_lock w) (snapshot_lock w)
         (if negb (is_started_expanding (lf_cluster w)) && is_started_expanding cl then wake_maint (lf_maint w) else lf_maint w)).

(** [do_snapshot], from the timer. *)
Definition snapshot_tick (w : life) : life := if free (snapshot_lock w) then with_flusher w Nobody (wake_flusher (lf_flusher w)) else w.

(** Any interleaving, with wake-ups that nobody signalled. *)
Inductive life_step : life -> life -> Prop :=
| life_maint ok got w w' : __cluster_maintenance_thread ok got w = Ret (Some w') -> life_step w w'
| life_flusher w w' : __snapshot_thread w = Some w' -> life_step w w'
| life_main w w' : tracker_destroy w = Some w' -> life_step w w'
| life_insert v w w' : insert_request w v = Ret w' -> life_step w w'
| life_tick w : life_step w (snapshot_tick w)
| life_wake_maint w : life_step w (with_maint w (lf_store w) (lf_cluster w) (cluster_maintenance_lock w) (snapshot_lock w) (wake_maint (lf_maint w)))
| life_wake_flusher w : life_step w (with_flusher w (snapshot_lock w) (wake_flusher (lf_flusher w))).

Definition started (s : store) (cl : datasevr_cluster) : life := mk_life s cl Nobody Nobody true true MtStarting FlStarting Serving.

(** ** Lemmas *)

(** Who holds what, and what the main thread has passed. *)
Record life_inv (w : life) : Prop := {
  li_mlock : cluster_maintenance_lock w = match lf_maint w with MtStarting | MtWaiting | MtWoken => Nobody | _ => Maintenance end;
  li_slock : snapshot_lock w = Maintenance <-> match lf_maint w with MtExpand | MtMoving => True | MtExited => expanding (lf_cluster w) = true | _ => False end;
  li_flush : snapshot_lock w = Flusher <-> lf_flusher w = FlFlushing;
  li_expanding : match lf_maint w with MtMoving => expanding (lf_cluster w) = true | MtExited => True | _ => expanding (lf_cluster w) = false end;
  li_main : match lf_main w with Serving | StopMaint | JoinMaint => True | StopSnap => lf_maint w = MtExited
            | JoinSnap | FreeCluster => lf_maint w = MtExited /\ expanding (lf_cluster w) = false | Stopped => False end
}.

Lemma free_spec h : free h = true <-> h = Nobody.
Proof. apply bool_decide_eq_true. Qed.

Ltac life_cases :=
  repeat match goal with
  | H : context [if free ?h then _ else _] |- _ => let E := fresh "Ef" in destruct (free h) eqn:E; [apply free_spec in E|]; cbn in H
  | H : Some _ = Some _ |- _ => injection H as <-
  | H : Ret _ = Ret _ |- _ => injection H as <-
  end; try done.

Ltac life_done := split; cbn in *; repeat match goal with |- context [if ?b then _ else _] => destruct b eqn:?; cbn in * end;
  repeat match goal with m : main_at |- _ => destruct m end; intuition congruence.

Lemma maint_inv ok got w w' : life_inv w -> __cluster_maintenance_thread ok got w = Ret (Some w') -> life_inv w'.
Proof.
  intros [H1 H2 H3 H4 H5] Hs. destruct w as [s cl ml sl rm rs m f mn]. unfold __cluster_maintenance_thread, maint_loop, maint_wait, with_maint in Hs. cbn in *.
  destruct m; cbn in *; life_cases.
  - destruct rm; [rewrite H4|]; life_done.
  - life_done.
  - life_done.
  - unfold __cluster_expand. rewrite !cluster_expand_eq. destruct ok, rm; life_done.
  - destruct got; cbn in Hs; [|life_cases; life_done]. destruct (cluster_migrate_bucket s cl) as [ [s1 cl1]|]; cbn in Hs; [|done]. life_cases. destruct (expanding cl1) eqn:E; life_done.
Qed.

Lemma flusher_inv w w' : life_inv w -> __snapshot_thread w = Some w' -> life_inv w'.
Proof.
  intros [H1 H2 H3 H4 H5] Hs. destruct w as [s cl ml sl rm rs m f mn]. unfold __snapshot_thread, with_flusher in Hs. cbn in *.
  destruct f; cbn in *; life_cases; try (destruct rs); destruct m; life_done.
Qed.

Lemma main_inv w w' : life_inv w -> tracker_destroy w = Some w' -> life_inv w'.
Proof.
  intros [H1 H2 H3 H4 H5] Hs. destruct w as [s cl ml sl rm rs m f mn]. unfold tracker_destroy, cluster_maintenance_thread_stop, snapshot_thread_stop, with_main in Hs. cbn in *.
  destruct mn; cbn in *; life_cases; destruct m; cbn in *; life_cases; try (destruct f; cbn in *; life_cases); destruct (expanding cl) eqn:Ee; life_done.
Qed.

Lemma life_step_inv w w' : life_inv w -> life_step w w' -> life_inv w'.
Proof.
  intros Hi Hs. destruct Hs as [ok got w w' H|w w' H|w w' H|v w w' H|w|w|w]; [by eapply maint_inv|by eapply flusher_inv|by eapply main_inv|..]; destruct Hi as [H1 H2 H3 H4 H5];
    destruct w as [s cl ml sl rm rs m f mn]; cbn in *.
  - unfold insert_request in H. cbn in H. destruct (do_cluster_insert s cl v) as [ [ [s1 cl1] r]|] eqn:E; cbn in H; [|done]. injection H as <-.
    apply do_cluster_insert_frame in E as [E _]. rewrite <- E in H2, H4, H5. destruct (negb _ && _); destruct m; life_done.
  - unfold snapshot_tick, with_flusher. cbn. destruct (free sl) eqn:E; [apply free_spec in E; subst sl|]; destruct f, m; life_done.
  - destruct m; life_done.
  - destruct f; life_done.
Qed.

(** ** Theorems *)

(** A tracker that is told to stop never stops.  [cluster_maintenance_thread_stop]
    wakes the maintenance thread up, which takes the signal for a request to
    expand the table and ends without giving up a mutex; the main thread then
    waits for one of them for ever, in [snapshot_thread_stop] when the expansion
    had begun, and in [__cluster_free] otherwise. *)
Theorem tracker_never_stops s cl w : expanding cl = false -> star life_step (started s cl) w ->
  lf_main w <> Stopped /\ (lf_maint w = MtExited -> expanding (lf_cluster w) = true -> snapshot_lock w = Maintenance /\ (lf_main w <> JoinSnap /\ lf_main w <> FreeCluster)).
Proof.
  intros He Hs. assert (life_inv w) as [H1 H2 H3 H4 H5].
  { eapply star_invariant; [exact life_step_inv| |exact Hs]. split; cbn; try done; by rewrite He. }
  split; [by intros E; rewrite E in H5|]. intros Em Ee. rewrite Em, Ee in *. split; [by apply H2|]. split; intros E; rewrite E in H5; by destruct H5.
Qed.

Definition empty_store : store := mk_store ∅ ∅ 1 (fun _ => true) 0.

(** The threads get ready, the signal comes, and the maintenance thread ends. *)
Definition small_cluster : datasevr_cluster := mk_cluster 0 0 0 1 0 false false None [None; None].

Definition demo_stopping : life :=
  mk_life empty_store (__cluster_expand true (not_started small_cluster)) Maintenance Maintenance false true MtExited FlWaiting StopSnap.

Ltac run_step c := eapply star_step; [eapply c; reflexivity|cbn].

Lemma demo_stopping_reached : star life_step (started empty_store small_cluster) demo_stopping.
Proof.
  unfold started. run_step (life_maint true true). run_step life_flusher. run_step life_main. run_step life_main. run_step (life_maint true true). run_step (life_maint true true).
  run_step (life_maint true true). run_step life_main. apply star_refl.
Qed.

Lemma tracker_never_stops_witness : lf_main demo_stopping <> Stopped /\ snapshot_lock demo_stopping = Maintenance /\ tracker_destroy demo_stopping = None.
Proof.
  destruct (tracker_never_stops empty_store small_cluster demo_stopping eq_refl demo_stopping_reached) as [H1 H2]. split_and!; [exact H1|by apply H2|reflexivity].
Defined.
