(* ===== verification/Restart.v ===== *)
(** * The tracker's tables from start to end

    [cluster_init], [cluster_destroy] and [__cluster_free] of
    src/src/trackerserver/ts_cluster.c, and [snapshot_init],
    [snapshot_thread_start] and [snapshot_destroy] of ts_snapshot.c: what the
    tracker builds before it serves, what it finds in the snapshot of the run
    before, and what it gives back at the end. *)
From S2P Require Import Prelude Chains CString Lines Datasevr Cluster Wlc ClusterDatasevr Snapshot Shutdown.

(** ** Starting *)

(** What the calls of [cluster_init] return: the allocation of the array, of the
    skip list's header and of the locks, [confitems.work_threads], and the
    answers of [snapshot_load]. *)
Record cluster_env := mk_cluster_env {
  ce_array : bool;
  ce_header : bool;
  ce_locks : bool;
  ce_work_threads : Z;
  ce_chdir : Z;
  ce_fopen : bool;
  ce_lines : nat -> line_env
}.

(** The globals: the volumes and blocks, [clusters] once its array is there,
    [clusters.wlcsl], and [cluster_lock_hashpower] once the locks are there. *)
Record tables := mk_tables {
  tb_store : store;
  tb_cluster : option datasevr_cluster;
  tb_wlcsl : option wlc_skiplist;
  tb_power : option Z
}.

Definition cluster_init (e : cluster_env) (init_hashsize : Z) (s : store) (fs : snapshot_files) : outcome (tables * Z) :=
  match __cluster_init (ce_array e) init_hashsize with
  | inl ret => Ret (mk_tables s None None None, ret)
  | inr cl =>
      sl ← wlcsl_create (ce_header e);
      power ← __cluster_lock_init (hash_size cl) (ce_work_threads e);
      if negb (ce_locks e) then Ret (mk_tables s (Some cl) (Some sl) None, LFS_ERROR)
      else
        '(s, cl, ret) ← snapshot_load (ce_chdir e) (ce_fopen e) (ce_lines e) s cl fs;
        Ret (mk_tables s (Some cl) (Some sl) (Some power), ret)
  end.

(** What the calls of [snapshot_init] return; the second is the [errno] of
    [mkdir], 0 when it succeeds. *)
Record sinit_env := mk_sinit_env { si_mkdir : Z; si_cond_init : Z }.

(** The directory [bin] is there, [snapshot_thread_isinit],
    [do_run_snapshot_thread], and [snapshot_tid]. *)
Record snap_state := mk_snap_state {
  sn_bin : bool;
  sn_isinit : bool;
  sn_run : bool;
  sn_tid : option nat
}.

Definition snapshot_init (e : sinit_env) (w : snap_state) : snap_state * Z :=
  if negb (sn_bin w) && negb (si_mkdir e =? 0) then (w, si_mkdir e)
  else
    let w := mk_snap_state true (sn_isinit w) (sn_run w) (sn_tid w) in
    if sn_isinit w then (w, LFS_OK)
    else if negb (si_cond_init e =? 0) then (w, si_cond_init e)
    else (mk_snap_state true true (sn_run w) (sn_tid w), LFS_OK).

(** [created]: the identity of the thread, or what [pthread_create] returned. *)
Definition snapshot_thread_start (created : Z + nat) (w : snap_state) : snap_state * Z :=
  match created with
  | inl ret => (mk_snap_state (sn_bin w) (sn_isinit w) true (sn_tid w), ret)
  | inr tid => (mk_snap_state (sn_bin w) (sn_isinit w) true (Some tid), LFS_OK)
  end.

(** [cluster_maintenance_tid] and the result. *)
Definition cluster_maintenance_thread_start (created : Z + nat) (tid : option nat) : option nat * Z :=
  match created with
  | inl ret => (tid, ret)
  | inr t => (Some t, LFS_OK)
  end.

(** The mutex and the condition are gone; [snapshot_thread_isinit] stays. *)
Definition snapshot_destroy (w : snap_state) : snap_state * Z := (w, LFS_OK).

(** ** Ending *)

(** The inner loop of [__cluster_free]. *)
Fixpoint free_volumes (fuel : nat) (s : store) (it : option vloc) : outcome store :=
  match it with
  | None => Ret s
  | Some v =>
      match fuel with
      | O => Crash Diverged
      | S f =>
          dv ← get_volume s v;
          let next := next dv in
          s ← volume_free s (Some v);
          free_volumes f s next
      end
  end.

(** The outer loop: [got i] is whether [cluster_trylock(i)] succeeded; a bucket
    that is locked is passed over. *)
Fixpoint free_buckets (got : Z -> bool) (s : store) (i : Z) (prim : list (option vloc)) : outcome (store * list (option vloc)) :=
  match prim with
  | [] => Ret (s, [])
  | p :: prim' =>
      '(s, p) ← (if got i then s ← free_volumes (size (st_volumes s)) s p; Ret (s, None) else Ret (s, p));
      '(s, ps) ← free_buckets got s (i + 1) prim';
      Ret (s, p :: ps)
  end.

(** [None]: the call waits for [cluster_maintenance_lock]. *)
Definition __cluster_free (h : holder) (got : Z -> bool) (s : store) (cl : option datasevr_cluster) : outcome (option store) :=
  match cl with
  | None => Ret (Some s)
  | Some cl =>
      if negb (free h) then Ret None
      else '(s, _) ← free_buckets got s 0 (primary_volumes cl); Ret (Some s)
  end.

(** What is left: the volumes and blocks, and the nodes of the load list. *)
Definition cluster_destroy (h : holder) (got : Z -> bool) (t : tables) : outcome (option (store * nodes * Z)) :=
  r ← __cluster_free h got (tb_store t) (tb_cluster t);
  match r with
  | None => Ret None
  | Some s =>
      sl ← get_or NullDeref (tb_wlcsl t);
      c ← wlcsl_free sl;
      Ret (Some (s, c, 0))
  end.

(** ** Lemmas: an empty table *)

(** A table of any size starts empty. *)
Lemma init_members s hs cl :
  0 <= hs <= 31 -> st_volumes s = ∅ -> __cluster_init true hs = inr cl -> members s cl ∅ /\ expanding cl = false.
Proof.
  intros Hhs Hs. unfold __cluster_init.
  assert (exists k, 0 <= k <= 31 /\ (if hs =? 0 then DEFAULT_CLUSTER_HASH_POWER else hs) = k) as (k & Hk & ->).
  { zcase (hs =? 0); eexists; (split; [|reflexivity]); unfold DEFAULT_CLUSTER_HASH_POWER; lia. }
  intros [= <-]. split; [|done].
  set (tab := replicate _ None). assert (Hlen : Z.of_nat (length tab) = 2 ^ k).
  { unfold tab. rewrite length_replicate. unfold hashsize. rewrite Z.shiftl_1_l. rewrite Z2Nat.id by (apply Z.pow_nonneg; lia). done. }
  exists []. split; [|split; [by intros v vid ?%not_elem_of_nil|split; [by intros vid bs; rewrite lookup_empty|
    by intros v d; rewrite Hs, lookup_empty] ] ].
  split; cbn; try done; try constructor; try lia.
  exists (replicate (length tab) []), []. split_and!; try done; try (by intros i xs x Hi; rewrite lookup_nil in Hi).
  - unfold tab. rewrite length_replicate. apply Forall2_replicate. done.
  - intros i xs x Hi Hx. apply lookup_replicate in Hi as [-> _]. by apply not_elem_of_nil in Hx.
  - unfold vitems. rewrite concat_replicate_nil. done.
Qed.

Lemma create_empty blks : exists sl, wlcsl_create true = Ret sl /\ skip_inv blks sl [].
Proof.
  eexists. split; [reflexivity|]. split; cbn [w_header w_nodes w_level w_tail w_length w_brk last length bpath].
  - apply NoDup_singleton.
  - intros i Hi. unfold tall, lpath, fwd. cbn [base.filter list_filter]. rewrite lookup_insert_eq. by apply (lookup_replicate_2 WLC_SKIPLIST_MAX_LEVEL None i).
  - unfold ht. by rewrite lookup_insert_eq.
  - constructor.
  - unfold WLC_SKIPLIST_MAX_LEVEL. lia.
  - constructor.
  - constructor.
  - done.
  - done.
  - done.
  - set_solver.
  - intros x. rewrite dom_insert_L. set_solver by lia.
Qed.

(** The power of two of the number of locks is the number of buckets divided by the
    number of threads; it has to be below 64. *)
Lemma lock_init_ok hs n :
  0 < n -> 0 <= hs <= 31 -> hashsize hs / n < 64 -> __cluster_lock_init hs n = Ret (hashsize hs / n).
Proof.
  intros Hn Hhs Hlt. unfold __cluster_lock_init. zcase (n =? 0); [lia|].
  assert (0 <= hashsize hs / n).
  { apply Z.div_pos; [|lia]. unfold hashsize. rewrite Z.shiftl_1_l. apply Z.pow_nonneg. lia. }
  rewrite s_wrap_id by (unfold is_s; lia).
  destruct (Z.leb_spec 0 (hashsize hs / n)); [|lia]. by destruct (Z.ltb_spec (hashsize hs / n) 64); [|lia].
Qed.

(** ** A restart *)

(** The power of two of the number of buckets; [main] passes 0. *)
Definition table_power (init_hashsize : Z) : Z := if init_hashsize =? 0 then DEFAULT_CLUSTER_HASH_POWER else init_hashsize.

(** Every call of [cluster_init] succeeds, and the locks can be counted. *)
Record cluster_fine (e : cluster_env) (hs : Z) : Prop := {
  cf_array : ce_array e = true;
  cf_header : ce_header e = true;
  cf_locks : ce_locks e = true;
  cf_chdir : ce_chdir e = 0;
  cf_fopen : ce_fopen e = true;
  cf_size : 0 <= hs <= 31;
  cf_threads : 0 < ce_work_threads e;
  cf_power : hashsize (table_power hs) / ce_work_threads e < 64
}.

(** [cluster_init] with nothing in its way is the load of the snapshot into an
    empty table. *)
Lemma cluster_init_loads e hs s :
  cluster_fine e hs -> st_volumes s = ∅ ->
  exists cl sl, members s cl ∅ /\ expanding cl = false /\ skip_inv (st_blocks s) sl [] /\
    forall fs, cluster_init e hs s fs =
      ('(s, cl, ret) ← snapshot_load 0 true (ce_lines e) s cl fs;
       Ret (mk_tables s (Some cl) (Some sl) (Some (hashsize (table_power hs) / ce_work_threads e)), ret)).
Proof.
  intros [Ha Hh Hl Hc Hf Hs Ht Hp] Hv. destruct (create_empty (st_blocks s)) as (sl & Hsl & Hinv).
  destruct (__cluster_init true hs) as [r|cl] eqn:Hi; [by unfold __cluster_init in Hi|].
  destruct (init_members s hs cl) as [Hm Hx]; [lia|done|done|]. exists cl, sl. split_and!; [done..|]. intros fs.
  assert (hash_size cl = table_power hs) as Hcl by (unfold __cluster_init in Hi; by injection Hi as <-).
  assert (0 <= table_power hs <= 31) by (unfold table_power, DEFAULT_CLUSTER_HASH_POWER; destruct (hs =? 0); lia).
  unfold cluster_init. rewrite Ha, Hi, Hh, Hsl. cbn [mbind outcome_bind]. rewrite Hcl, lock_init_ok by lia.
  cbn [mbind outcome_bind]. by rewrite Hl, Hc, Hf.
Qed.

(** C30. A tracker that is stopped and started again knows its data servers:
    what one run saved with [__snapshot_flush], [cluster_init] of the next run
    brings back into a table of any configured size.  The volumes whose bucket
    could be locked have their blocks in the same order, each with its ids,
    address, type, weight, times and sequence, off line, and the first of a volume
    as its master; the volumes of a locked bucket are lost.  The load list starts
    empty, and the power of two of the number of locks is the number of buckets
    divided by that of the worker threads. *)
Theorem tracker_restarts e s cl M fs ce hs s0 :
  flush_ok e -> members s cl M -> expanding cl = false -> savable_members s M ->
  cluster_fine ce hs -> st_volumes s0 = ∅ -> (forall n, st_oracle s0 n = true) ->
  exists fs' t cl' sl M', __snapshot_flush e s cl fs = Ret fs' /\
    cluster_init ce hs s0 fs' = Ret (t, LFS_OK) /\
    tb_cluster t = Some cl' /\ members (tb_store t) cl' M' /\
    tb_wlcsl t = Some sl /\ skip_inv (st_blocks s0) sl [] /\ tb_power t = Some (hashsize (table_power hs) / ce_work_threads ce) /\
    forall vid, Forall2 (fun b d => st_blocks (tb_store t) !! b = Some d) (default [] (M' !! vid))
      (if lock_ok e (vid mod 2 ^ hash_size cl)
       then first_master (restore <$> (saved_of s <$> default [] (M !! vid))) else []).
Proof.
  intros He Hm Hx Hs Hc Hv Ho.
  destruct (cluster_init_loads ce hs s0 Hc Hv) as (cl0 & sl & Hm0 & Hx0 & Hsl & Hi).
  destruct (snapshot_restores e s cl M fs (ce_lines ce) s0 cl0) as (fs' & s' & cl' & M' & Hf & Hl & Hm' & Hr); [done..|].
  exists fs'. do 4 eexists. split; [done|]. rewrite Hi, Hl. cbn [mbind outcome_bind].
  split; [reflexivity|]. split; [reflexivity|]. cbn [tb_store tb_cluster tb_wlcsl tb_power]. split_and!; done.
Qed.

Definition restart_env : cluster_env :=
  mk_cluster_env true true true 4 0 true (fun _ => mk_line_env (fun _ => Crash OutOfBounds) (fun _ => true)).

Lemma tracker_restarts_witness :
  exists fs' t cl' sl M', __snapshot_flush snap_env snap_two.1 snap_two.2 (mk_files None None) = Ret fs' /\
    cluster_init restart_env 0 snap_blocks fs' = Ret (t, LFS_OK) /\
    tb_cluster t = Some cl' /\ members (tb_store t) cl' M' /\
    tb_wlcsl t = Some sl /\ skip_inv (st_blocks snap_blocks) sl [] /\ tb_power t = Some (hashsize (table_power 0) / ce_work_threads restart_env) /\
    forall vid, Forall2 (fun b d => st_blocks (tb_store t) !! b = Some d) (default [] (M' !! vid))
      (if lock_ok snap_env (vid mod 2 ^ hash_size snap_two.2)
       then first_master (restore <$> (saved_of snap_two.1 <$> default [] (<[10 := [0%nat; 1%nat]]> (∅ : gmap Z (list bloc)) !! vid))) else []).
Proof.
  refine (tracker_restarts snap_env snap_two.1 snap_two.2 _ (mk_files None None) restart_env 0 snap_blocks
            _ snap_two_members _ snap_two_savable _ _ _); [by split|by vm_compute|split; cbn; done || lia|reflexivity|reflexivity].
Defined.

(** A tracker that has never saved anything, or whose [bin] directory cannot be
    entered, starts with an empty table; only the second is an error. *)
Lemma first_start e hs s :
  cluster_fine e hs -> st_volumes s = ∅ ->
  exists t cl, cluster_init e hs s (mk_files None None) = Ret (t, LFS_OK) /\ tb_cluster t = Some cl /\ members (tb_store t) cl ∅.
Proof.
  intros Hc Hv. destruct (cluster_init_loads e hs s Hc Hv) as (cl & sl & Hm & _ & _ & Hi). rewrite Hi. by eauto 10.
Qed.

(** ** The end *)

(** [p] is the first of [xs], and the rest follows it on level 0. *)
Definition starts (c : nodes) (p : option nloc) (xs : list nloc) : Prop :=
  match xs with [] => p = None | x :: xs' => p = Some x /\ lpath c 0 x xs' end.

Lemma get_fwd_starts c a xs : lpath c 0 a xs -> exists n, get_fwd c a 0 = Ret n /\ starts c n xs.
Proof.
  destruct xs as [|y ys]; cbn [lpath]; [intros Hl|intros [Hl Hl'] ]; eexists; (split; [by apply get_fwd_Ret|done]).
Qed.

Lemma starts_delete c z p xs : starts c p xs -> z ∉ xs -> starts (delete z c) p xs.
Proof.
  destruct xs as [|x xs]; [done|]. intros [-> Hl] Hz. split; [done|]. eapply lpath_frame; [|exact Hl].
  intros y Hy. unfold fwd. rewrite lookup_delete_ne; [done|]. set_solver.
Qed.

(** Following level 0 of a list frees its nodes, and only them. *)
Lemma free_loop_spec xs fuel c p :
  starts c p xs -> NoDup xs -> (length xs <= fuel)%nat ->
  exists c', wlcsl_free_loop fuel c p = Ret c' /\ forall y, c' !! y = if decide (y ∈ xs) then None else c !! y.
Proof.
  revert fuel c p. induction xs as [|x xs IH]; intros fuel c p Hp Hnd Hf.
  - cbn in Hp. subst p. exists c. split; [by destruct fuel|]. intros y. destruct (decide _); [set_solver|done].
  - destruct Hp as [-> Hl]. apply NoDup_cons in Hnd as [Hx Hnd]. destruct fuel as [|fuel]; [cbn in Hf; lia|].
    cbn [wlcsl_free_loop].
    destruct (get_fwd_starts c x xs Hl) as (n & -> & Hn). cbn [mbind outcome_bind].
    destruct (IH fuel (delete x c) n) as (c' & Hr & Hc'); [by apply starts_delete|done|cbn in Hf; lia|].
    exists c'. split; [done|]. intros y. rewrite Hc'. destruct (decide (y = x)) as [->|Hyx].
    + destruct (decide (x ∈ xs)); [done|]. rewrite lookup_delete_eq. by destruct (decide _) as [|Hz]; [|set_solver].
    + rewrite lookup_delete_ne by done. repeat case_decide; set_solver.
Qed.

(** [wlcsl_free] frees the header and every node. *)
Lemma wlcsl_free_all blks sl xs : skip_inv blks sl xs -> wlcsl_free sl = Ret ∅.
Proof.
  intros [Hnd Hp Hh Hhs _ _ _ _ _ _ Hd _]. apply NoDup_cons in Hnd as [Hx Hnd].
  assert (tall (w_nodes sl) 0 xs = xs) as Ht.
  { apply tall_zero. eapply Forall_impl; [exact Hhs|]. cbn. lia. }
  specialize (Hp 0%nat). rewrite Ht in Hp. specialize (Hp ltac:(unfold WLC_SKIPLIST_MAX_LEVEL; lia)).
  assert (Hl : (length xs <= size (w_nodes sl))%nat).
  { rewrite <-size_dom, Hd, list_to_set_cons, size_union, size_list_to_set by (done || set_solver). lia. }
  unfold wlcsl_free. destruct (get_fwd_starts _ _ _ Hp) as (n & -> & Hn). cbn [mbind outcome_bind].
  destruct (free_loop_spec xs _ (delete (w_header sl) (w_nodes sl)) n (starts_delete _ _ _ _ Hn Hx) Hnd Hl) as (c' & -> & Hc').
  f_equal. apply map_empty. intros y. rewrite Hc'. case_decide as Hy; [done|].
  destruct (decide (y = w_header sl)) as [->|Hyh]; [apply lookup_delete_eq|]. rewrite lookup_delete_ne by done.
  apply not_elem_of_dom. rewrite Hd. set_solver.
Qed.

(** Volumes with a block array are left as they are. *)
Lemma free_volumes_keeps s xs fuel p :
  vchain (st_volumes s) p xs -> Forall (fun x => is_Some (blocks x.2)) xs -> (length xs <= fuel)%nat ->
  free_volumes fuel s p = Ret s.
Proof.
  intros Hc Hb. revert fuel p Hc. induction Hb as [|[v d] xs [bs Hd] _ IH]; intros fuel p Hc Hf.
  - cbn in Hc. subst p. by destruct fuel.
  - destruct fuel as [|fuel]; [cbn in Hf; lia|]. destruct Hc as (-> & Hv & Hc). cbn [free_volumes volume_free].
    unfold get_volume. rewrite Hv. cbn [get_or mbind outcome_bind]. cbn in Hd. rewrite Hd. cbn [mbind outcome_bind].
    apply IH; [done|cbn in Hf; lia].
Qed.

Lemma free_buckets_keeps got s tab xss i :
  Forall2 (vchain (st_volumes s)) tab xss -> NoDup (concat xss).*1 ->
  Forall (fun x => is_Some (blocks x.2)) (concat xss) ->
  exists tab', free_buckets got s i tab = Ret (s, tab').
Proof.
  intros Hc. revert i. induction Hc as [|p xs tab xss Hp _ IH]; intros i Hnd Hb; [by eexists|].
  cbn [concat] in *. rewrite fmap_app in Hnd. apply NoDup_app in Hnd as (Hnd1 & _ & Hnd2). apply Forall_app in Hb as [Hb1 Hb2].
  cbn [free_buckets]. destruct (IH (i + 1) Hnd2 Hb2) as [tab' Ht].
  pose proof (free_volumes_keeps s xs _ p Hp Hb1 (chain_length _ _ _ Hp Hnd1)) as Hk.
  destruct (got i); rewrite ?Hk; cbn [mbind outcome_bind]; rewrite Ht; by eexists.
Qed.

Lemma members_arrays s cl M :
  members s cl M -> exists pss, Forall2 (vchain (st_volumes s)) (primary_volumes cl) pss /\ NoDup (concat pss).*1 /\
    Forall (fun x => is_Some (blocks x.2)) (concat pss).
Proof.
  intros (P & Hi & HP & _). pose proof Hi as [(pss & oss & Hc & _ & _ & Hv & _) Hl _ _ _]. exists pss. split; [done|].
  assert (Hsub : forall v d, (v, d) ∈ concat pss -> (v, volume_id d) ∈ P).
  { intros v d Hin. rewrite <-Hv. apply elem_of_app. right. by apply elem_of_vitems. }
  split.
  - pose proof (items_NoDup P oss pss Hv Hl) as Hnd. by apply NoDup_app in Hnd as (_ & _ & Hnd).
  - apply Forall_forall. intros [v d] Hin. destruct (HP _ _ (Hsub _ _ Hin)) as (dv & bs & Hdv & _ & (arr & Ha & _) & _).
    apply (Forall2_chain_lookup _ _ _ _ Hc) in Hin. cbn in Hin |- *. rewrite Hin in Hdv. injection Hdv as ->. by eexists.
Qed.

(** The end of a tracker that has let go of [cluster_maintenance_lock]
    releases the load list and no volume: [volume_free] frees
    the blocks only of a volume that has no array of them, so every volume and
    every block is still allocated, whichever buckets were locked. *)
Theorem cluster_destroy_spec got t cl sl M xs :
  tb_cluster t = Some cl -> tb_wlcsl t = Some sl -> members (tb_store t) cl M -> skip_inv (st_blocks (tb_store t)) sl xs ->
  cluster_destroy Nobody got t = Ret (Some (tb_store t, ∅, 0)) /\
  cluster_destroy Maintenance got t = Ret None.
Proof.
  intros Hcl Hsl Hm Hs. destruct (members_arrays _ _ _ Hm) as (pss & Hc & Hnd & Hb).
  unfold cluster_destroy, __cluster_free. rewrite Hcl, Hsl. cbn.
  destruct (free_buckets_keeps got _ _ _ 0 Hc Hnd Hb) as [tab' ->]. cbn.
  by rewrite (wlcsl_free_all _ _ _ Hs).
Qed.

Definition demo_tables : tables := mk_tables snap_two.1 (Some snap_two.2) (Some (match wlcsl_create true with Ret sl => sl | Crash _ => mk_wlc ∅ 0 0 None 0 0 end)) (Some 2).

Lemma cluster_destroy_spec_witness :
  cluster_destroy Nobody (fun i => negb (i =? 1)) demo_tables = Ret (Some (tb_store demo_tables, ∅, 0)) /\
  cluster_destroy Maintenance (fun i => negb (i =? 1)) demo_tables = Ret None.
Proof.
  destruct (create_empty (st_blocks (tb_store demo_tables))) as (sl & [= <-] & Hs).
  refine (cluster_destroy_spec (fun i => negb (i =? 1)) demo_tables snap_two.2 _ _ [] eq_refl eq_refl snap_two_members Hs).
Defined.

(** A second start after a failed [mkdir], or a second [snapshot_init], finds
    the mutex and condition ready once. *)
Lemma snapshot_init_idempotent e w w' :
  snapshot_init e w = (w', LFS_OK) -> snapshot_init e w' = (w', LFS_OK) /\ sn_bin w' = true /\ sn_isinit w' = true.
Proof.
  unfold snapshot_init. destruct w as [bin isinit run tid]. cbn.
  destruct bin, isinit; cbn; destruct (Z.eqb_spec (si_mkdir e) 0); cbn; destruct (Z.eqb_spec (si_cond_init e) 0); cbn;
    intros H; inversion H; subst; done.
Qed.
