(* ===== verification/Config.v ===== *)
(** * Configuration of the servers

    src/src/dataserver/ds_func.c, src/src/trackerserver/ts_func.c and the first
    part of the two [main] functions: default values, the values of the
    configuration file ([CfgFile]), and the sizes that depend on them.  The file
    is read through the dictionary interface of [CfgFile]. *)
From S2P Require Import Prelude Codec CString Lines Base64 HashTable CfgFile TsConn DsBlock DsFile DsConn Accept.
From Stdlib Require Import Floats.SpecFloat.

(** ** Values *)

(** [struct confs_st] of the data server; a pointer that is null is [None]. *)
Record ds_confs := mk_dsc {
  dc_base_path : bytes;
  dc_group_name : option bytes;
  dc_volume_name : option bytes;
  dc_block_mount : option bytes;
  dc_tracker_servers : option bytes;
  dc_logger_level : option bytes;
  dc_logger_file_name : option bytes;
  dc_bind_addr : option bytes;
  dc_bind_port : Z;
  dc_network_timeout : Z;
  dc_heart_beat_interval : Z;
  dc_sync_report_interval : Z;
  dc_sync_wait_time : Z;
  dc_sync_interval : Z;
  dc_binlog_flush_interval : Z;
  dc_state_report_interval : Z;
  dc_block_snapshot_interval : Z;
  dc_block_vfs_interval : Z;
  dc_max_connections : Z;
  dc_thread_stack_size : Z;
  dc_nio_read_buffer_size : Z;
  dc_nio_write_buffer_size : Z;
  dc_file_buffer_size : Z;
  dc_nio_threads : Z;
  dc_dio_read_threads : Z;
  dc_dio_write_threads : Z;
  dc_block_sub_count : Z;
  dc_block_max_file_count : Z;
  dc_block_free_size_ratio : spec_float;
  dc_weight : Z;
  dc_file_fsync_written_bytes : Z
}.

(** [struct confs_st] of the tracker. *)
Record ts_confs := mk_tsc {
  tc_base_path : bytes;
  tc_logger_level : option bytes;
  tc_logger_file_name : option bytes;
  tc_bind_addr : option bytes;
  tc_bind_port : Z;
  tc_network_timeout : Z;
  tc_max_connections : Z;
  tc_thread_stack_size : Z;
  tc_conn_buffer_size : Z;
  tc_work_threads : Z;
  tc_heart_beat_interval : Z;
  tc_snapshot_thread_interval : Z
}.

Definition DEFAULT_PORT : Z := 2985.
Definition DEFAULT_MAXCONNS : Z := 1024.
Definition DEFAULT_NETWORK_TIMEOUT : Z := 60.
Definition DEFAULT_HEART_BEAT_INTERVAL : Z := 30.
Definition DEFAULT_SYNC_INTERVAL : Z := 40.
Definition DEFAULT_THREAD_STACK_SIZE : Z := 512 * 1024.

(** 0.15 as a [float] *)
Definition DEFAULT_BLOCK_FREE_SIZE_RATIO : spec_float := S754_finite false 10066330 (-26).

(** The four strings a data server needs, in the order they are looked for. *)
Inductive ds_string := GroupName | VolumeName | BlockMount | TrackerServers.

Definition set_string (c : ds_confs) (k : ds_string) (s : bytes) : ds_confs :=
  let pick k' old := match k, k' with
                     | GroupName, GroupName | VolumeName, VolumeName | BlockMount, BlockMount | TrackerServers, TrackerServers => Some s
                     | _, _ => old
                     end in
  mk_dsc (dc_base_path c) (pick GroupName (dc_group_name c)) (pick VolumeName (dc_volume_name c)) (pick BlockMount (dc_block_mount c)) (pick TrackerServers (dc_tracker_servers c))
    (dc_logger_level c) (dc_logger_file_name c) (dc_bind_addr c) (dc_bind_port c) (dc_network_timeout c) (dc_heart_beat_interval c) (dc_sync_report_interval c) (dc_sync_wait_time c) (dc_sync_interval c)
    (dc_binlog_flush_interval c) (dc_state_report_interval c) (dc_block_snapshot_interval c) (dc_block_vfs_interval c) (dc_max_connections c) (dc_thread_stack_size c) (dc_nio_read_buffer_size c)
    (dc_nio_write_buffer_size c) (dc_file_buffer_size c) (dc_nio_threads c) (dc_dio_read_threads c) (dc_dio_write_threads c) (dc_block_sub_count c) (dc_block_max_file_count c)
    (dc_block_free_size_ratio c) (dc_weight c) (dc_file_fsync_written_bytes c).

Definition set_base (c : ds_confs) (s : bytes) : ds_confs :=
  mk_dsc s (dc_group_name c) (dc_volume_name c) (dc_block_mount c) (dc_tracker_servers c)
    (dc_logger_level c) (dc_logger_file_name c) (dc_bind_addr c) (dc_bind_port c) (dc_network_timeout c) (dc_heart_beat_interval c) (dc_sync_report_interval c) (dc_sync_wait_time c) (dc_sync_interval c)
    (dc_binlog_flush_interval c) (dc_state_report_interval c) (dc_block_snapshot_interval c) (dc_block_vfs_interval c) (dc_max_connections c) (dc_thread_stack_size c) (dc_nio_read_buffer_size c)
    (dc_nio_write_buffer_size c) (dc_file_buffer_size c) (dc_nio_threads c) (dc_dio_read_threads c) (dc_dio_write_threads c) (dc_block_sub_count c) (dc_block_max_file_count c)
    (dc_block_free_size_ratio c) (dc_weight c) (dc_file_fsync_written_bytes c).

(** ** Reading them *)

Section Config.
Context {M T : Type} `{Dictionary M T}.
(** [atof]; two constants that the sources use and do not define. *)
Context (atof : bytes -> spec_float) (DEFAULT_BINLOG_FLUSH_INTERVAL DEFAULT_FILE_FSYNC_WRITTEN_BYTES : Z).

Definition cfg_get_floatvalue (m : M) (pht : T) (name : bytes) (dvalue : spec_float) : outcome spec_float :=
  svalue ← cfg_get_strvalue m pht name;
  Ret (match svalue with None => dvalue | Some s => atof s end).

(** [conf_items_init] of the data server; the strings that are not set are null. *)
Definition ds_conf_items_init : ds_confs :=
  mk_dsc [] None None None None (Some (str "INFO")) (Some (str "ds")) (Some (str "127.0.0.1")) DEFAULT_PORT DEFAULT_NETWORK_TIMEOUT DEFAULT_HEART_BEAT_INTERVAL DEFAULT_SYNC_INTERVAL 100
    DEFAULT_SYNC_INTERVAL DEFAULT_BINLOG_FLUSH_INTERVAL 60 30 30 DEFAULT_MAXCONNS DEFAULT_THREAD_STACK_SIZE 1024 1024 (64 * 1024) 4 1 1 256 256 DEFAULT_BLOCK_FREE_SIZE_RATIO 1
    DEFAULT_FILE_FSYNC_WRITTEN_BYTES.

(** The part of [set_cfg2globalobj] that cannot fail: strings without a line
    become null, also those that had a default. *)
Definition ds_cfg_items (m : M) (t : T) (c : ds_confs) : outcome ds_confs :=
  let int name d := cfg_get_intvalue m t name d in
  logger_level ← cfg_get_strvalue m t (str "logger.level");
  logger_file_name ← cfg_get_strvalue m t (str "logger.file.name");
  bind_addr ← cfg_get_strvalue m t (str "bind.addr");
  bind_port ← int (str "bind.port") DEFAULT_PORT;
  network_timeout ← int (str "network.timeout") DEFAULT_NETWORK_TIMEOUT;
  heart_beat_interval ← int (str "heart.beat.interval") DEFAULT_HEART_BEAT_INTERVAL;
  sync_report_interval ← int (str "sync.report.interval") DEFAULT_SYNC_INTERVAL;
  sync_wait_time ← int (str "sync.wait.time") 100;
  sync_interval ← int (str "sync.interval") DEFAULT_SYNC_INTERVAL;
  binlog_flush_interval ← int (str "binlog.flush.interval") DEFAULT_BINLOG_FLUSH_INTERVAL;
  state_report_interval ← int (str "state.report.interval") 60;
  block_snapshot_interval ← int (str "block.snapshot.interval") 30;
  block_vfs_interval ← int (str "block.vfs.interval") 30;
  max_connections ← int (str "max.connections") DEFAULT_MAXCONNS;
  thread_stack_size ← int (str "thread.stack.size") DEFAULT_THREAD_STACK_SIZE;
  nio_read_buffer_size ← int (str "nio.read.buffer.size") 1024;
  nio_write_buffer_size ← int (str "nio.write.buffer.size") 1024;
  file_buffer_size ← int (str "file.buffer.size") (64 * 1024);
  nio_threads ← int (str "nio.threads") 4;
  dio_read_threads ← int (str "dio.read.threads") 1;
  dio_write_threads ← int (str "dio.write.threads") 1;
  block_sub_count ← int (str "block.sub.count") 256;
  block_max_file_count ← int (str "block.max.file.count") 256;
  block_free_size_ratio ← cfg_get_floatvalue m t (str "block.free.size.ratio") DEFAULT_BLOCK_FREE_SIZE_RATIO;
  weight ← int (str "weight") 1;
  file_fsync_written_bytes ← int (str "file.fsync.written.bytes") DEFAULT_FILE_FSYNC_WRITTEN_BYTES;
  Ret (mk_dsc (dc_base_path c) (dc_group_name c) (dc_volume_name c) (dc_block_mount c) (dc_tracker_servers c) logger_level logger_file_name bind_addr bind_port network_timeout
         heart_beat_interval sync_report_interval sync_wait_time sync_interval binlog_flush_interval state_report_interval block_snapshot_interval block_vfs_interval max_connections
         thread_stack_size nio_read_buffer_size nio_write_buffer_size file_buffer_size nio_threads dio_read_threads dio_write_threads block_sub_count block_max_file_count
         block_free_size_ratio weight file_fsync_written_bytes).

(** A string that must be there; the values set so far stay when it is not. *)
Definition ds_need (m : M) (t : T) (name : bytes) (k : ds_string) (c : ds_confs) (rest : ds_confs -> outcome (ds_confs * Z)) : outcome (ds_confs * Z) :=
  pbp ← cfg_get_strvalue m t name;
  match pbp with
  | None => Ret (c, LFS_ERROR)
  | Some s => rest (set_string c k s)
  end.

Definition ds_set_cfg2globalobj (m : M) (t : T) (c : ds_confs) : outcome (ds_confs * Z) :=
  pbp ← cfg_get_strvalue m t (str "base.path");
  match pbp with
  | None => Ret (c, LFS_ERROR)
  | Some s =>
      ds_need m t (str "group.name") GroupName (set_base c (take (MAX_PATH_SIZE - 1) s)) (fun c =>
      ds_need m t (str "volume.name") VolumeName c (fun c =>
      ds_need m t (str "block.mount") BlockMount c (fun c =>
      ds_need m t (str "tracker.servers") TrackerServers c (fun c =>
      c ← ds_cfg_items m t c; Ret (c, LFS_OK)))))
  end.

(** What [main] of the data server does before the logger is started: the size of
    the tables is computed from the default, and the result of
    [set_cfg2globalobj] is not looked at. *)
Definition ds_start (m : M) (t : T) (next_fd : Z) : outcome (ds_confs * Z) :=
  let c := ds_conf_items_init in
  let max_fds := s32 (dc_max_connections c + next_fd) in
  '(c, _) ← ds_set_cfg2globalobj m t c;
  Ret (c, max_fds).

(** [is_local_block]: [strcmp] of a null pointer is undefined. *)
Definition is_local_block (c : ds_confs) (ipaddr : bytes) : outcome bool :=
  match dc_bind_addr c with
  | None => Crash NullDeref
  | Some s => Ret (bool_decide (ipaddr = s))
  end.

(** *** The tracker *)

Definition ts_conf_items_init : ts_confs :=
  mk_tsc [] (Some (str "INFO")) (Some (str "trackerd")) (Some (str "127.0.0.1")) DEFAULT_PORT DEFAULT_NETWORK_TIMEOUT DEFAULT_MAXCONNS DEFAULT_THREAD_STACK_SIZE (4 * 1024) 4
    DEFAULT_HEART_BEAT_INTERVAL 30.

Definition ts_set_cfg2globalobj (m : M) (t : T) (c : ts_confs) : outcome (ts_confs * Z) :=
  pbp ← cfg_get_strvalue m t (str "base.path");
  match pbp with
  | None => Ret (c, LFS_ERROR)
  | Some s =>
      let int name d := cfg_get_intvalue m t name d in
      logger_level ← cfg_get_strvalue m t (str "logger.level");
      logger_file_name ← cfg_get_strvalue m t (str "logger.file.name");
      bind_addr ← cfg_get_strvalue m t (str "bind.addr");
      bind_port ← int (str "bind.port") DEFAULT_PORT;
      network_timeout ← int (str "network.timeout") DEFAULT_NETWORK_TIMEOUT;
      max_connections ← int (str "max.connections") DEFAULT_MAXCONNS;
      thread_stack_size ← int (str "thread.stack.size") DEFAULT_THREAD_STACK_SIZE;
      conn_buffer_size ← int (str "conn.buffer.size") (4 * 1024);
      work_threads ← int (str "work.threads") 4;
      heart_beat_interval ← int (str "heart.beat.interval") DEFAULT_HEART_BEAT_INTERVAL;
      snapshot_thread_interval ← int (str "snapshot.thread.interval") 30;
      Ret (mk_tsc (take (MAX_PATH_SIZE - 1) s) logger_level logger_file_name bind_addr bind_port network_timeout max_connections thread_stack_size conn_buffer_size work_threads
             heart_beat_interval snapshot_thread_interval, LFS_OK)
  end.

(** [conns_init] of ts_func.c, called before the file is read; [rlim]: the result
    of [getrlimit]. *)
Definition ts_max_fds (c : ts_confs) (reserved_fds next_fd : Z) (rlim : option Z) : Z :=
  match rlim with
  | Some n => s32 n
  | None => s32 (tc_max_connections c + reserved_fds + next_fd)
  end.

(** *** Counters and clocks *)

(** [ctxs] of the data server. *)
Record ds_ctxs := mk_ds_ctxs {
  dx_max_fds : Z;
  dx_curr_conns : Z;
  dx_total_conns : Z;
  dx_rejected_conns : Z;
  dx_reserved_fds : Z;
  dx_started_time : Z;
  dx_register_timestamp : Z;
  dx_last_sync_sequence : Z;
  dx_is_fullsyncdone : bool;
  dx_last_mount_block_index : Z;
  dx_block_opt_count : Z;
  dx_sid : Z;
  dx_b64_ctx : base64_context
}.

(** [next_fd] is what [dup(1)] returns, [now] what [time] does. *)
Definition ds_ctxs_init (hash_func : bytes -> Z) (m : M) (t : T) (max_connections next_fd now : Z) : outcome ds_ctxs :=
  local_addr ← cfg_get_strvalue m t (str "bind.addr");
  let sid := match local_addr with Some a => hash_func a | None => 0 end in
  b64 ← base64_init_ex 0 (chr "-") (chr "_") (chr ".");
  Ret (mk_ds_ctxs (s32 (max_connections + next_fd)) 0 0 0 0 now 0 0 false 0 0 sid b64).

(** [ctxs] of the tracker: [max_fds], [curr_conns], [total_conns], [rejected_conns],
    [reserved_fds] and [started_time]. *)
Record ts_ctxs := mk_ts_ctxs { tx_max_fds : Z; tx_curr_conns : Z; tx_total_conns : Z; tx_rejected_conns : Z; tx_reserved_fds : Z; tx_started_time : Z }.

Definition ts_ctxs_init (now : Z) : ts_ctxs := mk_ts_ctxs 0 0 0 0 5 now.
End Config.

(** ** Lemmas *)

(** The integers of the data server: key, field and default. *)
Definition ds_int_items (flush fsync : Z) : list (bytes * (ds_confs -> Z) * Z) :=
  [(str "bind.port", dc_bind_port, 2985); (str "network.timeout", dc_network_timeout, 60); (str "heart.beat.interval", dc_heart_beat_interval, 30);
   (str "sync.report.interval", dc_sync_report_interval, 40); (str "sync.wait.time", dc_sync_wait_time, 100); (str "sync.interval", dc_sync_interval, 40);
   (str "binlog.flush.interval", dc_binlog_flush_interval, flush); (str "state.report.interval", dc_state_report_interval, 60);
   (str "block.snapshot.interval", dc_block_snapshot_interval, 30); (str "block.vfs.interval", dc_block_vfs_interval, 30); (str "max.connections", dc_max_connections, 1024);
   (str "thread.stack.size", dc_thread_stack_size, 524288); (str "nio.read.buffer.size", dc_nio_read_buffer_size, 1024); (str "nio.write.buffer.size", dc_nio_write_buffer_size, 1024);
   (str "file.buffer.size", dc_file_buffer_size, 65536); (str "nio.threads", dc_nio_threads, 4); (str "dio.read.threads", dc_dio_read_threads, 1);
   (str "dio.write.threads", dc_dio_write_threads, 1); (str "block.sub.count", dc_block_sub_count, 256); (str "block.max.file.count", dc_block_max_file_count, 256);
   (str "weight", dc_weight, 1); (str "file.fsync.written.bytes", dc_file_fsync_written_bytes, fsync)].

Definition ts_int_items : list (bytes * (ts_confs -> Z) * Z) :=
  [(str "bind.port", tc_bind_port, 2985); (str "network.timeout", tc_network_timeout, 60); (str "max.connections", tc_max_connections, 1024); (str "thread.stack.size", tc_thread_stack_size, 524288);
   (str "conn.buffer.size", tc_conn_buffer_size, 4096); (str "work.threads", tc_work_threads, 4); (str "heart.beat.interval", tc_heart_beat_interval, 30);
   (str "snapshot.thread.interval", tc_snapshot_thread_interval, 30)].

(** The value of an integer: that of its line, or the default. *)
Definition int_of (d : gmap bytes bytes) (key : bytes) (dvalue : Z) : Z := match d !! key with Some s => atoi s | None => dvalue end.

Definition read_as {C : Type} (d : gmap bytes bytes) (c : C) (items : list (bytes * (C -> Z) * Z)) : Prop := Forall (fun '(key, field, dvalue) => field c = int_of d key dvalue) items.

Section Laws.
Context {M T : Type} `{L : DictionaryLaws M T}.
Context (atof : bytes -> spec_float) (flush fsync : Z).

Lemma get_int (m : M) (t : T) d name dv : dict_repr m t d -> cfg_get_intvalue m t name dv = Ret (int_of d name dv).
Proof. intros Hr. unfold cfg_get_intvalue, cfg_get_strvalue. rewrite (dict_get_ok m t d name Hr). cbn [mbind outcome_bind]. unfold int_of. by destruct (d !! name). Qed.

Lemma get_str (m : M) (t : T) d name : dict_repr m t d -> cfg_get_strvalue m t name = Ret (d !! name).
Proof. intros Hr. unfold cfg_get_strvalue. by rewrite (dict_get_ok m t d name Hr). Qed.

Lemma get_float (m : M) (t : T) d name dv : dict_repr m t d -> cfg_get_floatvalue atof m t name dv = Ret (match d !! name with Some s => atof s | None => dv end).
Proof. intros Hr. unfold cfg_get_floatvalue. rewrite (get_str m t d name Hr). cbn [mbind outcome_bind]. by destruct (d !! name). Qed.

Lemma ds_items_read (m : M) (t : T) d c : dict_repr m t d ->
  exists c', ds_cfg_items atof flush fsync m t c = Ret c' /\ read_as d c' (ds_int_items flush fsync) /\ dc_bind_addr c' = d !! str "bind.addr" /\ dc_logger_level c' = d !! str "logger.level" /\
    dc_base_path c' = dc_base_path c /\ dc_group_name c' = dc_group_name c /\ dc_volume_name c' = dc_volume_name c /\ dc_block_mount c' = dc_block_mount c /\ dc_tracker_servers c' = dc_tracker_servers c /\ dc_logger_file_name c' = d !! str "logger.file.name" /\
    dc_block_free_size_ratio c' = match d !! str "block.free.size.ratio" with Some s => atof s | None => DEFAULT_BLOCK_FREE_SIZE_RATIO end.
Proof.
  intros Hr. unfold ds_cfg_items. repeat (first [rewrite (get_str m t d _ Hr)|rewrite (get_int m t d _ _ Hr)|rewrite (get_float m t d _ _ Hr)]; cbn [mbind outcome_bind]).
  eexists. split; [reflexivity|]. split_and!; try done. unfold read_as, ds_int_items. repeat (apply Forall_cons; split; [reflexivity|]). constructor.
Qed.

(** The strings a data server needs are all there. *)
Definition complete (d : gmap bytes bytes) : Prop :=
  is_Some (d !! str "base.path") /\ is_Some (d !! str "group.name") /\ is_Some (d !! str "volume.name") /\ is_Some (d !! str "block.mount") /\ is_Some (d !! str "tracker.servers").

Lemma ds_start_read (m : M) (t : T) d next_fd : dict_repr m t d -> complete d -> exists c,
  ds_start atof flush fsync m t next_fd = Ret (c, s32 (1024 + next_fd)) /\ read_as d c (ds_int_items flush fsync) /\ dc_bind_addr c = d !! str "bind.addr" /\
  dc_group_name c = d !! str "group.name" /\ dc_volume_name c = d !! str "volume.name" /\ dc_block_mount c = d !! str "block.mount" /\ dc_tracker_servers c = d !! str "tracker.servers" /\
  Some (dc_base_path c) = take (MAX_PATH_SIZE - 1) <$> d !! str "base.path" /\ dc_logger_level c = d !! str "logger.level" /\ dc_logger_file_name c = d !! str "logger.file.name" /\
  dc_block_free_size_ratio c = match d !! str "block.free.size.ratio" with Some s => atof s | None => DEFAULT_BLOCK_FREE_SIZE_RATIO end.
Proof.
  intros Hr ([b Hb] & [g Hg] & [v Hv] & [k Hk] & [s Hs]). unfold ds_start, ds_set_cfg2globalobj, ds_need.
  rewrite (get_str m t d (str "base.path") Hr), (get_str m t d (str "group.name") Hr), (get_str m t d (str "volume.name") Hr), (get_str m t d (str "block.mount") Hr),
    (get_str m t d (str "tracker.servers") Hr), Hb, Hg, Hv, Hk, Hs. cbn [mbind outcome_bind].
  match goal with |- context [ds_cfg_items atof flush fsync m t ?c0] => destruct (ds_items_read m t d c0 Hr) as (c' & -> & H1 & H2 & H3 & H8 & H4 & H5 & H6 & H7 & H9 & H10) end.
  cbn [mbind outcome_bind]. exists c'. split_and!; [done|done|done|rewrite H4|rewrite H5|rewrite H6|rewrite H7|rewrite H8|done|done|done]; by cbn; rewrite ?Hg, ?Hv, ?Hk, ?Hs, ?Hb.
Qed.

(** The context names files with the url-safe alphabet for which Base64.v has the
    round trip, and the server's number is the hash of its address. *)
Lemma ds_ctxs_read hash_func (m : M) (t : T) d maxc next_fd now :
  dict_repr m t d ->
  exists x, ds_ctxs_init hash_func m t maxc next_fd now = Ret x /\ dx_b64_ctx x = ds_context /\
    dx_sid x = match d !! str "bind.addr" with Some a => hash_func a | None => 0 end /\ dx_started_time x = now.
Proof. intros Hr. unfold ds_ctxs_init. rewrite (get_str m t d _ Hr). by eexists. Qed.

Lemma ts_config_read (m : M) (t : T) d c : dict_repr m t d -> is_Some (d !! str "base.path") -> exists c',
  ts_set_cfg2globalobj m t c = Ret (c', LFS_OK) /\ read_as d c' ts_int_items /\ tc_bind_addr c' = d !! str "bind.addr" /\ tc_logger_level c' = d !! str "logger.level".
Proof.
  intros Hr [b Hb]. unfold ts_set_cfg2globalobj. rewrite (get_str m t d (str "base.path") Hr), Hb. cbn [mbind outcome_bind].
  repeat (first [rewrite (get_str m t d _ Hr)|rewrite (get_int m t d _ _ Hr)]; cbn [mbind outcome_bind]).
  eexists. split; [reflexivity|]. split_and!; try done. unfold read_as, ts_int_items. repeat (apply Forall_cons; split; [reflexivity|]). constructor.
Qed.
End Laws.

(** ** Theorems *)

(** C21. A data server with memory and a configuration file that has no key twice and
    the five lines it needs runs with the values of the file: every integer and the
    ratio is that of its line or the default, every string that of its line or
    null, the base path cut to the size of its array.  The size of the tables of
    connections does not depend on the file. *)
Theorem ds_configured hash_func h text atof flush fsync next_fd : cells h = ∅ -> (forall n, malloc_oracle h n = true) -> no_nul text -> NoDup (cfg_entries text).*1 ->
  let d := list_to_map (cfg_entries text) : gmap bytes bytes in complete d ->
  let _ := hash_dictionary hash_func in
  exists h' t c, cfg_init h (readable text) = Ret (h', inr t) /\ ds_start atof flush fsync h' t next_fd = Ret (c, s32 (1024 + next_fd)) /\ read_as d c (ds_int_items flush fsync) /\
    dc_bind_addr c = d !! str "bind.addr" /\ dc_group_name c = d !! str "group.name" /\ dc_volume_name c = d !! str "volume.name" /\
    dc_block_mount c = d !! str "block.mount" /\ dc_tracker_servers c = d !! str "tracker.servers" /\
    Some (dc_base_path c) = take (MAX_PATH_SIZE - 1) <$> d !! str "base.path" /\ dc_logger_level c = d !! str "logger.level" /\ dc_logger_file_name c = d !! str "logger.file.name" /\
    dc_block_free_size_ratio c = match d !! str "block.free.size.ratio" with Some s => atof s | None => DEFAULT_BLOCK_FREE_SIZE_RATIO end.
Proof.
  intros Hf Hp Hn Hd d Hc D. destruct (cfg_init_readable (H0 := hash_dictionary_laws hash_func) h text Hf Hp Hn Hd) as (h' & t & He & Hr).
  destruct (ds_start_read (L := hash_dictionary_laws hash_func) atof flush fsync h' t d next_fd Hr Hc) as (c & H1 & H2). exists h', t, c. split_and!; try done; apply H2.
Qed.

(** More connections than the default: the limit of the file lets a socket in
    whose number is behind the tables, and making its connection fails an
    assertion. *)
Theorem large_limit_aborts n reserved_fds next_fd work_threads a cfd t mal1 mal2 mal3 ev jr jw st rs ws fl : 1 <= n < 2 ^ 31 -> 0 <= reserved_fds -> 0 <= next_fd < 2 ^ 20 ->
  0 <= ac_curr a -> ac_curr a + reserved_fds < n - 1 -> zlen (conns t) = s32 (1024 + next_fd) -> 1024 + next_fd <= cfd ->
  __on_accept work_threads n reserved_fds true true a cfd = __dispatch_conn work_threads true true a cfd /\
  conn_new mal1 mal2 mal3 ev jr jw t cfd st rs ws fl = Crash AssertFailed.
Proof.
  intros Hn Hr Hf Ha Hl Ht Hc. split.
  - unfold __on_accept. destruct (Z.ltb_spec 0 cfd); [|lia]. unfold too_many. rewrite !u_wrap_id by (unfold is_u; lia). by destruct (Z.leb_spec (n - 1) (ac_curr a + reserved_fds)); [lia|].
  - unfold conn_new. rewrite s_wrap_id in Ht by (unfold is_s; lia). assert (zlookup (conns t) cfd = None) as ->; [|done]. unfold zlookup. destruct (0 <=? cfd); [|done].
    apply lookup_ge_None. unfold zlen in Ht. lia.
Qed.

(** A configuration without an address: the default is overwritten with a null
    pointer, which [is_local_block] passes to [strcmp]. *)
Theorem default_address_lost hash_func h text atof flush fsync next_fd ip : cells h = ∅ -> (forall n, malloc_oracle h n = true) -> no_nul text -> NoDup (cfg_entries text).*1 ->
  let d := list_to_map (cfg_entries text) : gmap bytes bytes in complete d -> d !! str "bind.addr" = None ->
  let _ := hash_dictionary hash_func in
  exists h' t c n, cfg_init h (readable text) = Ret (h', inr t) /\ ds_start atof flush fsync h' t next_fd = Ret (c, n) /\ is_local_block c ip = Crash NullDeref.
Proof.
  intros Hf Hp Hn Hd d Hc Ha D. destruct (cfg_init_readable (H0 := hash_dictionary_laws hash_func) h text Hf Hp Hn Hd) as (h' & t & He & Hr).
  destruct (ds_start_read (L := hash_dictionary_laws hash_func) atof flush fsync h' t d next_fd Hr Hc) as (c & H1 & _ & H3 & _). exists h', t, c, (s32 (1024 + next_fd)). split_and!; [done|done|].
  unfold is_local_block. by rewrite H3, Ha.
Qed.

(** ** Witnesses *)

Definition ds_demo : list cfg_item :=
  [Comment (str " data server"); Entry (str "base.path") (str "/data"); Entry (str "group.name") (str "g1"); Entry (str "volume.name") (str "v1"); Entry (str "block.mount") (str "/m1");
   Entry (str "tracker.servers") (str "10.0.0.1:2985"); Entry (str "nio.threads") (str "8")].

Lemma ds_demo_entries : no_nul (cfg_render ds_demo) /\ NoDup (cfg_entries (cfg_render ds_demo)).*1.
Proof.
  split; [apply (bool_decide_unpack (Forall (fun c => c <> 0) _)); by vm_compute|refine (bool_decide_unpack _ _); by vm_compute].
Qed.

Lemma ds_demo_complete : complete (list_to_map (cfg_entries (cfg_render ds_demo))).
Proof. unfold complete. split_and!; refine (bool_decide_unpack _ _); by vm_compute. Qed.

Lemma ds_configured_witness :
  let _ := hash_dictionary len_hash in
  exists h' t c, cfg_init empty_heap (readable (cfg_render ds_demo)) = Ret (h', inr t) /\ ds_start (fun _ => S754_zero false) 1 1 h' t 6 = Ret (c, 1030) /\
    dc_group_name c = Some (str "g1") /\ dc_nio_threads c = 8 /\ dc_dio_read_threads c = 1.
Proof.
  destruct (ds_configured len_hash empty_heap (cfg_render ds_demo) (fun _ => S754_zero false) 1 1 6) as (h' & t & c & H1 & H2 & H3 & _ & H4 & _); [done|done|apply ds_demo_entries|apply ds_demo_entries|apply ds_demo_complete|].
  exists h', t, c. split_and!; [exact H1|exact H2|rewrite H4; by vm_compute| |].
  - eapply (Forall_lookup_1 _ _ 15) in H3; [|reflexivity]. rewrite H3. by vm_compute.
  - eapply (Forall_lookup_1 _ _ 16) in H3; [|reflexivity]. rewrite H3. by vm_compute.
Defined.

Lemma default_address_lost_witness :
  let _ := hash_dictionary len_hash in
  exists h' t c n, cfg_init empty_heap (readable (cfg_render ds_demo)) = Ret (h', inr t) /\ ds_start (fun _ => S754_zero false) 1 1 h' t 6 = Ret (c, n) /\
    is_local_block c (str "10.0.0.7") = Crash NullDeref.
Proof.
  apply (default_address_lost len_hash empty_heap (cfg_render ds_demo)); [done|done|apply ds_demo_entries|apply ds_demo_entries|apply ds_demo_complete|by vm_compute].
Defined.

Lemma large_limit_aborts_witness :
  let t := mk_conn_table (replicate 1030 None) [] 0 in
  conn_new true true true true (fun _ => 0) (fun _ => 0) t 1030 conn_read 1024 1024 0 = Crash AssertFailed.
Proof.
  refine (proj2 (large_limit_aborts 4096 10 6 4 (mk_acc 1025 1025 0 0 [] [] [] [] 0) 1030 _ _ _ _ _ _ _ _ _ _ _ _ _ _ _ _ _ _)); unfold zlen; cbn [ac_curr conns]; rewrite ?length_replicate; done || lia.
Defined.
