(* ===== verification/Startup.v ===== *)
(** * The main functions

    [main] of src/src/dataserver/dataserverd.c and src/src/trackerserver/trackerd.c:
    the command line, the configuration ([CfgFile], [Config]), the parts in the
    order in which they are started, the socket ([SockOpt]), and what happens when
    a part fails.  The parts themselves are modelled in their own files; here each
    comes up or does not. *)
From S2P Require Import Prelude Codec CString Lines HashTable CfgFile SockOpt Config.
From Stdlib Require Import Floats.SpecFloat.

(** ** The command line *)

(** The options as [getopt] returns them. *)
Inductive copt := Od | Ob (optarg : bytes) | Of (optarg : bytes) | Oh | Oi | OV | Oillegal.

Record setting := mk_setting { st_backlog : Z; st_cfgfilepath : option bytes }.

Definition DEFAULT_LISTEN_BACKLOG : Z := 1024.

Definition settings_init : setting := mk_setting DEFAULT_LISTEN_BACKLOG None.

(** The loop over the options: a code to exit with, or the settings and whether to
    run as a daemon. *)
Fixpoint parse_options (os : list copt) (s : setting) (do_daemonize : bool) : Z + setting * bool :=
  match os with
  | [] => inr (s, do_daemonize)
  | Od :: os => parse_options os s true
  | Ob a :: os => parse_options os (mk_setting (atoi a) (st_cfgfilepath s)) do_daemonize
  | Of a :: os => parse_options os (mk_setting (st_backlog s) (Some a)) do_daemonize
  | Oh :: _ | Oi :: _ | OV :: _ => inl 0
  | Oillegal :: _ => inl 1
  end.

(** ** The parts *)

Inductive ds_part := DsLogger | DsConns | DsFctx | DsMounts | DsBinlog | DsAsync | DsNio | DsDio | DsTrackers | DsReport.
Inductive ts_part := TsLogger | TsSnapshot | TsCluster | TsThreads | TsMaintenance | TsSnapshotThread.

#[export] Instance ds_part_eq_dec : EqDecision ds_part.
Proof. solve_decision. Defined.
#[export] Instance ts_part_eq_dec : EqDecision ts_part.
Proof. solve_decision. Defined.

(** The parts are started until one fails. *)
Fixpoint start_parts {P : Type} (up : P -> bool) (ps : list P) : list P * bool :=
  match ps with
  | [] => ([], true)
  | p :: ps => if up p then let '(q, ok) := start_parts up ps in (p :: q, ok) else ([], false)
  end.

Definition ds_first : list ds_part := [DsLogger; DsConns; DsFctx; DsMounts; DsBinlog; DsAsync; DsNio; DsDio].
Definition ds_last : list ds_part := [DsTrackers; DsReport].
Definition ts_parts : list ts_part := [TsLogger; TsSnapshot; TsCluster; TsThreads; TsMaintenance; TsSnapshotThread].

(** The socket that was served, and the parts that were started when [main] comes to
    its end; or [exit]. *)
Inductive main_end (P : Type) := Exited (code : Z) | Fin (served : option socket) (started : list P).
Arguments Exited {P} _.
Arguments Fin {P} _ _.

(** [dataserver_destroy]: [file_ctx_mpools_destroy] asserts that the pool is there;
    the other parts may be missing. *)
Definition ds_destroy (started : list ds_part) : outcome unit := if decide (DsFctx ∈ started) then Ret tt else Crash AssertFailed.

(** [tracker_destroy]: [cluster_maintenance_thread_stop] joins the thread, whose
    number is -1 when it was not created; what happens when it was is in
    [Shutdown]. *)
Definition ts_destroy (started : list ts_part) : outcome unit := if decide (TsMaintenance ∈ started) then Ret tt else Crash OutOfBounds.

(** ** The main functions *)

Section Main.
Context {M T : Type} `{Dictionary M T}.
Context (atof : bytes -> spec_float) (DEFAULT_BINLOG_FLUSH_INTERVAL DEFAULT_FILE_FSYNC_WRITTEN_BYTES : Z).
(** The files of the machine, by path; no path is the null pointer. *)
Context (files : option bytes -> file_calls) (next_fd : Z) (sock : sock_env).

(** [cfg_destroy]; the table is null when [cfg_init] has failed. *)
Definition cfg_fin (m : M) (t : option T) : outcome M := match t with Some t => cfg_destroy m t | None => Ret m end.

(** The end of the data server's [main]; its result is 0 in every case. *)
Definition ds_fin (m : M) (t : option T) (served : option socket) (started : list ds_part) : outcome (M * main_end ds_part) :=
  m ← cfg_fin m t; _ ← ds_destroy started; Ret (m, Fin served started).

(** [settings_init] comes after the command line and the configuration.
    [hash_init] cannot fail for the one type of hash that [main] asks for. *)
Definition ds_main (up : ds_part -> bool) (m : M) (os : list copt) : outcome (M * main_end ds_part) :=
  match parse_options os (mk_setting 0 None) false with
  | inl code => Ret (m, Exited code)
  | inr (s, _) =>
      '(m, r) ← cfg_init m (files (st_cfgfilepath s));
      match r with
      | inl _ => ds_fin m None None []
      | inr t =>
          let s := settings_init in
          '(c, _) ← ds_start atof DEFAULT_BINLOG_FLUSH_INTERVAL DEFAULT_FILE_FSYNC_WRITTEN_BYTES m t next_fd;
          let '(started, ok) := start_parts up ds_first in
          if negb ok then ds_fin m (Some t) None started
          else
            let '(so, sfd) := server_sockets sock (st_backlog s) (dc_bind_addr c) (dc_bind_port c) (dc_network_timeout c) in
            if sfd <? 0 then ds_fin m (Some t) None started
            else
              let '(rest, ok) := start_parts up ds_last in
              ds_fin m (Some t) (if ok then so else None) (started ++ rest)
      end
  end.

Definition ts_fin (m : M) (t : option T) (served : option socket) (started : list ts_part) : outcome (M * main_end ts_part) :=
  m ← cfg_fin m t; _ ← ts_destroy started; Ret (m, Fin served started).

Definition ts_main (up : ts_part -> bool) (m : M) (os : list copt) : outcome (M * main_end ts_part) :=
  match parse_options os settings_init false with
  | inl code => Ret (m, Exited code)
  | inr (s, _) =>
      '(m, r) ← cfg_init m (files (st_cfgfilepath s));
      match r with
      | inl _ => ts_fin m None None []
      | inr t =>
          '(c, ret) ← ts_set_cfg2globalobj m t ts_conf_items_init;
          if negb (ret =? 0) then ts_fin m (Some t) None []
          else
            let '(started, ok) := start_parts up ts_parts in
            if negb ok then ts_fin m (Some t) None started
            else
              let '(so, sfd) := server_sockets sock (st_backlog s) (tc_bind_addr c) (tc_bind_port c) (tc_network_timeout c) in
              ts_fin m (Some t) (if sfd <? 0 then None else so) started
      end
  end.
End Main.

(** ** Lemmas *)

Lemma start_parts_all {P} (up : P -> bool) ps : (forall p, up p = true) -> start_parts up ps = (ps, true).
Proof. intros Hu. induction ps as [|p ps IH]; cbn; [done|]. by rewrite Hu, IH. Qed.

Lemma start_parts_stop {P} (up : P -> bool) ps p qs : up p = false -> exists started, start_parts up (ps ++ p :: qs) = (started, false) /\ started `prefix_of` ps.
Proof.
  intros Hp. induction ps as [|x ps IH]; cbn; [rewrite Hp; eexists; split; [done|apply prefix_nil]|].
  destruct (up x); [|eexists; split; [done|apply prefix_nil]]. destruct IH as (q & -> & Hq). eexists. split; [done|]. by apply prefix_cons.
Qed.

Lemma prefix_missing {P} (x : P) (l k : list P) : x ∉ k -> l `prefix_of` k -> x ∉ l.
Proof. intros Hx [r ->]. set_solver. Qed.

Section Laws.
Context {M T : Type} `{L : DictionaryLaws M T}.
Context (atof : bytes -> spec_float) (flush fsync : Z) (files : option bytes -> file_calls) (next_fd : Z) (sock : sock_env).

Lemma cfg_fin_ok (m : M) (t : T) d : dict_repr m t d -> exists m', cfg_fin m (Some t) = Ret m' /\ dict_fresh m'.
Proof. apply dict_free_ok. Qed.

Lemma ds_main_serves up (m : M) os s dm text d c0 : dict_fresh m -> dict_plenty m -> no_nul text -> NoDup (cfg_entries text).*1 -> d = list_to_map (cfg_entries text) -> complete d ->
  parse_options os (mk_setting 0 None) false = inr (s, dm) -> files (st_cfgfilepath s) = readable text -> (forall p, up p = true) ->
  c0 = server_sockets sock 1024 (d !! str "bind.addr") (int_of d (str "bind.port") 2985) (int_of d (str "network.timeout") 60) -> 0 <= c0.2 ->
  exists m', ds_main atof flush fsync files next_fd sock up m os = Ret (m', Fin c0.1 (ds_first ++ ds_last)) /\ dict_fresh m'.
Proof.
  intros Hf Hp Hn Hd -> Hc Ho Hfile Hu -> Hs. unfold ds_main. rewrite Ho, Hfile. destruct (cfg_init_readable m text Hf Hp Hn Hd) as (m1 & t & -> & Hr). cbn [mbind outcome_bind].
  destruct (ds_start_read atof flush fsync m1 t _ next_fd Hr Hc) as (c & -> & Hi & Ha & _). cbn [mbind outcome_bind]. rewrite !start_parts_all by done. cbn [negb].
  pose proof (Forall_lookup_1 _ _ 0 _ Hi eq_refl) as Hport. pose proof (Forall_lookup_1 _ _ 1 _ Hi eq_refl) as Htime. cbn in Hport, Htime. rewrite Ha, Hport, Htime.
  change (st_backlog settings_init) with 1024. destruct (server_sockets _ _ _ _ _) as [so sfd]. cbn [fst snd] in *. destruct (Z.ltb_spec sfd 0); [lia|]. unfold ds_fin.
  destruct (cfg_fin_ok m1 t _ Hr) as (m2 & -> & Hm2). cbn [mbind outcome_bind]. by exists m2.
Qed.

Lemma ts_main_serves up (m : M) os s dm text d c0 : dict_fresh m -> dict_plenty m -> no_nul text -> NoDup (cfg_entries text).*1 -> d = list_to_map (cfg_entries text) -> is_Some (d !! str "base.path") ->
  parse_options os settings_init false = inr (s, dm) -> files (st_cfgfilepath s) = readable text -> (forall p, up p = true) ->
  c0 = server_sockets sock (st_backlog s) (d !! str "bind.addr") (int_of d (str "bind.port") 2985) (int_of d (str "network.timeout") 60) -> 0 <= c0.2 ->
  exists m', ts_main files sock up m os = Ret (m', Fin c0.1 ts_parts) /\ dict_fresh m'.
Proof.
  intros Hf Hp Hn Hd -> Hc Ho Hfile Hu -> Hs. unfold ts_main. rewrite Ho, Hfile. destruct (cfg_init_readable m text Hf Hp Hn Hd) as (m1 & t & -> & Hr). cbn [mbind outcome_bind].
  destruct (ts_config_read m1 t _ ts_conf_items_init Hr Hc) as (c & -> & Hi & Ha & _). cbn [mbind outcome_bind]. change (negb (LFS_OK =? 0)) with false. cbn iota. rewrite !start_parts_all by done. cbn [negb].
  pose proof (Forall_lookup_1 _ _ 0 _ Hi eq_refl) as Hport. pose proof (Forall_lookup_1 _ _ 1 _ Hi eq_refl) as Htime. cbn in Hport, Htime. rewrite Ha, Hport, Htime.
  destruct (server_sockets _ _ _ _ _) as [so sfd]. cbn [fst snd] in *. destruct (Z.ltb_spec sfd 0); [lia|]. unfold ts_fin.
  destruct (cfg_fin_ok m1 t _ Hr) as (m2 & -> & Hm2). cbn [mbind outcome_bind]. by exists m2.
Qed.
End Laws.

(** ** Theorems *)

(** C35. A data server whose configuration is complete and whose parts all come up serves
    a socket at the address and port of the configuration, and leaves no entry of
    the configuration behind.  The length of the queue of that socket is 1024, also
    when the command line asks for another. *)
Theorem ds_served hash_func h text atof flush fsync files next_fd sock up os s dm ip : cells h = ∅ -> (forall n, malloc_oracle h n = true) -> no_nul text -> NoDup (cfg_entries text).*1 ->
  let d := list_to_map (cfg_entries text) : gmap bytes bytes in complete d ->
  parse_options os (mk_setting 0 None) false = inr (s, dm) -> files (st_cfgfilepath s) = readable text -> (forall p, up p = true) ->
  let port := int_of d (str "bind.port") 2985 in sock_fine sock (d !! str "bind.addr") port ip ->
  let _ := hash_dictionary hash_func in
  exists h' so, ds_main atof flush fsync files next_fd sock up h os = Ret (h', Fin (Some so) (ds_first ++ ds_last)) /\ cells h' = ∅ /\
    so_open so = true /\ so_addr so = Some (ip, u_wrap 16 port) /\ so_backlog so = Some 1024 /\ so_noblock so = true.
Proof.
  intros Hf Hp Hn Hd d Hc Ho Hfile Hu port Hs D. subst port. destruct (server_sockets_fine sock 1024 _ _ (int_of d (str "network.timeout") 60) ip Hs) as (so & Hso & H1 & H2 & H3 & H4).
  destruct (ds_main_serves (L := hash_dictionary_laws hash_func) atof flush fsync files next_fd sock up h os s dm text d _ Hf Hp Hn Hd eq_refl Hc Ho Hfile Hu eq_refl) as (h' & Hm & Hh);
    rewrite Hso in *; [apply Hs|]. exists h', so. by split_and!.
Qed.

(** The same for a tracker; its command line sets the length of the queue. *)
Theorem ts_served hash_func h text files sock up os s dm ip : cells h = ∅ -> (forall n, malloc_oracle h n = true) -> no_nul text -> NoDup (cfg_entries text).*1 ->
  let d := list_to_map (cfg_entries text) : gmap bytes bytes in is_Some (d !! str "base.path") ->
  parse_options os settings_init false = inr (s, dm) -> files (st_cfgfilepath s) = readable text -> (forall p, up p = true) ->
  let port := int_of d (str "bind.port") 2985 in sock_fine sock (d !! str "bind.addr") port ip ->
  let _ := hash_dictionary hash_func in
  exists h' so, ts_main files sock up h os = Ret (h', Fin (Some so) ts_parts) /\ cells h' = ∅ /\
    so_open so = true /\ so_addr so = Some (ip, u_wrap 16 port) /\ so_backlog so = Some (st_backlog s) /\ so_noblock so = true.
Proof.
  intros Hf Hp Hn Hd d Hc Ho Hfile Hu port Hs D. subst port. destruct (server_sockets_fine sock (st_backlog s) _ _ (int_of d (str "network.timeout") 60) ip Hs) as (so & Hso & H1 & H2 & H3 & H4).
  destruct (ts_main_serves (L := hash_dictionary_laws hash_func) files sock up h os s dm text d _ Hf Hp Hn Hd eq_refl Hc Ho Hfile Hu eq_refl) as (h' & Hm & Hh);
    rewrite Hso in *; [apply Hs|]. exists h', so. by split_and!.
Qed.

(** Errors at the start: when the logger, the table of connections or the pool of
    contexts of a data server cannot be had, [dataserver_destroy] fails an assertion
    instead of ending the program. *)
Theorem ds_failed_start hash_func h text atof flush fsync files next_fd sock up os s dm p : cells h = ∅ -> (forall n, malloc_oracle h n = true) -> no_nul text -> NoDup (cfg_entries text).*1 ->
  complete (list_to_map (cfg_entries text)) -> parse_options os (mk_setting 0 None) false = inr (s, dm) -> files (st_cfgfilepath s) = readable text ->
  p ∈ [DsLogger; DsConns; DsFctx] -> up p = false ->
  let _ := hash_dictionary hash_func in ds_main atof flush fsync files next_fd sock up h os = Crash AssertFailed.
Proof.
  intros Hf Hp Hn Hd Hc Ho Hfile Hin Hu D. subst D. unfold ds_main. rewrite Ho, Hfile.
  destruct (cfg_init_readable (H0 := hash_dictionary_laws hash_func) h text Hf Hp Hn Hd) as (h1 & t & -> & Hr). cbn [mbind outcome_bind].
  destruct (ds_start_read (L := hash_dictionary_laws hash_func) atof flush fsync h1 t _ next_fd Hr Hc) as (c & -> & _). cbn [mbind outcome_bind].
  assert (exists ps qs, ds_first = ps ++ p :: qs /\ DsFctx ∉ ps) as (ps & qs & -> & Hps).
  { repeat (apply elem_of_cons in Hin as [->|Hin]); [exists [], (tail ds_first)|exists [DsLogger], (drop 2 ds_first)|exists [DsLogger; DsConns], (drop 3 ds_first)|by apply elem_of_nil in Hin]; (split; [done|set_solver]). }
  destruct (start_parts_stop up ps p qs Hu) as (st & -> & Hpre). cbn [negb]. unfold ds_fin.
  destruct (cfg_fin_ok (L := hash_dictionary_laws hash_func) h1 t _ Hr) as (h2 & -> & _). cbn [mbind outcome_bind]. unfold ds_destroy.
  by rewrite decide_False by (by eapply prefix_missing).
Qed.

(** And a tracker that cannot start its maintenance thread, or a part before it,
    joins a thread that does not exist. *)
Theorem ts_failed_start hash_func h text files sock up os s dm p : cells h = ∅ -> (forall n, malloc_oracle h n = true) -> no_nul text -> NoDup (cfg_entries text).*1 ->
  is_Some ((list_to_map (cfg_entries text) : gmap bytes bytes) !! str "base.path") -> parse_options os settings_init false = inr (s, dm) -> files (st_cfgfilepath s) = readable text ->
  p ∈ take 5 ts_parts -> up p = false ->
  let _ := hash_dictionary hash_func in ts_main files sock up h os = Crash OutOfBounds.
Proof.
  intros Hf Hp Hn Hd Hc Ho Hfile Hin Hu D. subst D. unfold ts_main. rewrite Ho, Hfile.
  destruct (cfg_init_readable (H0 := hash_dictionary_laws hash_func) h text Hf Hp Hn Hd) as (h1 & t & -> & Hr). cbn [mbind outcome_bind].
  destruct (ts_config_read (L := hash_dictionary_laws hash_func) h1 t _ ts_conf_items_init Hr Hc) as (c & -> & _). cbn [mbind outcome_bind]. change (negb (LFS_OK =? 0)) with false. cbn iota.
  assert (exists ps qs, ts_parts = ps ++ p :: qs /\ TsMaintenance ∉ ps) as (ps & qs & -> & Hps).
  { apply list_elem_of_lookup in Hin as [i Hi]. exists (take i ts_parts), (drop (S i) ts_parts). assert (ts_parts !! i = Some p) as Hi' by (do 5 (destruct i as [|i]; [done|]); done).
    split; [by rewrite take_drop_middle|]. do 5 (destruct i as [|i]; [set_solver|]). done. }
  destruct (start_parts_stop up ps p qs Hu) as (st & -> & Hpre). cbn [negb]. unfold ts_fin.
  destruct (cfg_fin_ok (L := hash_dictionary_laws hash_func) h1 t _ Hr) as (h2 & -> & _). cbn [mbind outcome_bind]. unfold ts_destroy.
  by rewrite decide_False by (by eapply prefix_missing).
Qed.

(** ** Witnesses *)

Definition demo_files (p : option bytes) : file_calls := readable (cfg_render ds_demo).

Lemma ds_served_witness :
  let _ := hash_dictionary len_hash in
  exists h' so, ds_main (fun _ => S754_zero false) 1 1 demo_files 6 demo_sock (fun _ => true) empty_heap [Ob (str "16"); Of (str "ds.conf")] = Ret (h', Fin (Some so) (ds_first ++ ds_last)) /\
    so_addr so = Some (0, 2985) /\ so_backlog so = Some 1024.
Proof.
  destruct (ds_served len_hash empty_heap (cfg_render ds_demo) (fun _ => S754_zero false) 1 1 demo_files 6 demo_sock (fun _ => true) [Ob (str "16"); Of (str "ds.conf")] (mk_setting 16 (Some (str "ds.conf"))) false 0)
    as (h' & so & H1 & _ & _ & H2 & H3 & _); [done|done|apply ds_demo_entries|apply ds_demo_entries|apply ds_demo_complete|done|done|done|by split_and!|].
  exists h', so. split_and!; [exact H1|exact H2|exact H3].
Defined.

Lemma ts_served_witness :
  let _ := hash_dictionary len_hash in
  exists h' so, ts_main demo_files demo_sock (fun _ => true) empty_heap [Ob (str "16")] = Ret (h', Fin (Some so) ts_parts) /\ so_backlog so = Some 16.
Proof.
  destruct (ts_served len_hash empty_heap (cfg_render ds_demo) demo_files demo_sock (fun _ => true) [Ob (str "16")] (mk_setting 16 None) false 0)
    as (h' & so & H1 & _ & _ & _ & H2 & _); [done|done|apply ds_demo_entries|apply ds_demo_entries|apply ds_demo_complete|done|done|done|by split_and!|].
  exists h', so. split; [exact H1|exact H2].
Defined.

Lemma ds_failed_start_witness :
  let _ := hash_dictionary len_hash in
  ds_main (fun _ => S754_zero false) 1 1 demo_files 6 demo_sock (fun p => bool_decide (p <> DsConns)) empty_heap [] = Crash AssertFailed.
Proof.
  apply (ds_failed_start len_hash empty_heap (cfg_render ds_demo) _ _ _ _ _ _ _ [] (mk_setting 0 None) false DsConns); [done|done|apply ds_demo_entries|apply ds_demo_entries|apply ds_demo_complete|done|done| |done].
  apply list_elem_of_further, list_elem_of_here.
Defined.

Lemma ts_failed_start_witness :
  let _ := hash_dictionary len_hash in
  ts_main demo_files demo_sock (fun p => bool_decide (p <> TsCluster)) empty_heap [] = Crash OutOfBounds.
Proof.
  apply (ts_failed_start len_hash empty_heap (cfg_render ds_demo) _ _ _ [] settings_init false TsCluster); [done|done|apply ds_demo_entries|apply ds_demo_entries|apply ds_demo_complete|done|done| |done].
  do 2 apply list_elem_of_further. apply list_elem_of_here.
Defined.
