(* ===== verification/DsTasks.v ===== *)
(** * What the periodic tasks do

    The callbacks of src/src/dataserver/dataserverd.c and of
    src/src/trackerserver/trackerd.c as whole functions: the work ([DsBlock],
    [DsBinlog], [Snapshot]) and the next timer ([Periodic]). *)
From S2P Require Import Prelude CString Lines ListH SchedTimer Periodic Datasevr Cluster Snapshot DsBlock DsBinlog.

(** ** The state and the calls *)

(** The mount points, the file with their counters, and the logs of the local
    operations and of the copies, each with its files. *)
Record ds_files := mk_dsf {
  df_mounts : block_mount;
  df_stat : option bytes;
  df_log : bdisk * binlog_ctx;
  df_rlog : bdisk * binlog_ctx
}.

(** What a run of a task meets: the time, the flags [is_flush] and [is_statistics]
    that other threads may have set, and the calls on files. *)
Record task_env := mk_task_env {
  tk_now : Z;
  tk_is_flush : bool;
  tk_is_statistics : bool;
  tk_open_errno : Z;
  tk_write_n : Z -> Z -> Z;
  tk_errno : Z;
  tk_benv : binlog_env
}.

(** [binlog_lock_flush] of ds_binlog.c. *)
Definition binlog_lock_flush (e : binlog_env) (l : bdisk * binlog_ctx) : bdisk * binlog_ctx :=
  (__binlog_lock_flush e l.1 l.2).1.

Section Callbacks.
Context (interval : Z -> Z).

Definition run_block_stat_snapshot (e : task_env) (s : ds_files) (st : tstate) : outcome (ds_files * tstate) :=
  '(f, _) ← block_stat_flush (tk_is_flush e) (tk_open_errno e) (tk_write_n e) (tk_errno e) (df_mounts s) (df_stat s);
  st ← task_again interval (tk_now e) mnt_block_stat_snapshot_cb st;
  Ret (mk_dsf (df_mounts s) f (df_log s) (df_rlog s), st).

Definition run_block_vfs_statistics (e : task_env) (s : ds_files) (st : tstate) : outcome (ds_files * tstate) :=
  '(m, _) ← block_vfs_statistics (tk_is_statistics e) (df_mounts s);
  st ← task_again interval (tk_now e) block_vfs_statistics_cb st;
  Ret (mk_dsf m (df_stat s) (df_log s) (df_rlog s), st).

Definition run_local_binlog_flush (e : task_env) (s : ds_files) (st : tstate) : outcome (ds_files * tstate) :=
  let l := binlog_lock_flush (tk_benv e) (df_log s) in
  st ← task_again interval (tk_now e) local_binlog_flush_cb st;
  Ret (mk_dsf (df_mounts s) (df_stat s) l (df_rlog s), st).

Definition run_remote_binlog_flush (e : task_env) (s : ds_files) (st : tstate) : outcome (ds_files * tstate) :=
  let l := binlog_lock_flush (tk_benv e) (df_rlog s) in
  st ← task_again interval (tk_now e) remote_binlog_flush_cb st;
  Ret (mk_dsf (df_mounts s) (df_stat s) (df_log s) l, st).

(** The callback that a timer names. *)
Definition run_task (e : task_env) (cb : Z) (s : ds_files) (st : tstate) : outcome (ds_files * tstate) :=
  if cb =? mnt_block_stat_snapshot_cb then run_block_stat_snapshot e s st
  else if cb =? block_vfs_statistics_cb then run_block_vfs_statistics e s st
  else if cb =? local_binlog_flush_cb then run_local_binlog_flush e s st
  else run_remote_binlog_flush e s st.

(** [snapshot_schedtimer_cb] of the tracker. *)
Definition run_snapshot (now : Z) (w : snap_world) (st : tstate) : outcome (snap_world * tstate) :=
  let '(_, w) := do_snapshot w in
  st ← task_again interval now snapshot_schedtimer_cb st;
  Ret (w, st).

(** Several tasks in a row, with lines written to the two logs in between. *)
Inductive work := WTask (e : task_env) (cb : Z) | WLine (e : binlog_env) (remote : bool) (line : bytes).

Definition run_work (x : work) (s : ds_files) (st : tstate) : outcome (ds_files * tstate) :=
  match x with
  | WTask e cb => run_task e cb s st
  | WLine e false line => '(d, b, _) ← binlog_write 0 e (df_log s).1 (df_log s).2 line; Ret (mk_dsf (df_mounts s) (df_stat s) (d, b) (df_rlog s), st)
  | WLine e true line => '(d, b, _) ← binlog_write 0 e (df_rlog s).1 (df_rlog s).2 line; Ret (mk_dsf (df_mounts s) (df_stat s) (df_log s) (d, b), st)
  end.

Fixpoint run_works (xs : list work) (s : ds_files) (st : tstate) : outcome (ds_files * tstate) :=
  match xs with
  | [] => Ret (s, st)
  | x :: xs => '(s, st) ← run_work x s st; run_works xs s st
  end.

(** ** Lemmas *)

(** A timer for the next run is set, and nothing else happens to the timers. *)
Lemma task_again_ok now cb st xs ys :
  timer_inv st xs ys ->
  exists st' xs1 xs2, task_again interval now cb st = Ret st' /\ xs = xs1 ++ xs2 /\ timer_inv st' (xs1 ++ tm_brk st :: xs2) ys /\
    tm_timers st' = <[tm_brk st := mk_timer (s64 (now + usec_of interval cb)) (Some cb) []]> (tm_timers st).
Proof.
  intros Hi. destruct (sched_timer_inv now st xs ys (usec_of interval cb) (Some cb) [0] [] Hi eq_refl)
    as (st' & xs1 & xs2 & Hr & Hx & Hi' & Ht & _). by exists st', xs1, xs2.
Qed.

(** A log that fits its counters, with room for [n] more files. *)
Definition log_ok (l : bdisk * binlog_ctx) (lines : list bytes) (n : Z) : Prop :=
  stored l.1 l.2 lines /\ curr_binlog_file_index l.2 + n < 2 ^ 31.

Lemma lock_flush_ok e l lines n :
  calls_ok e -> log_ok l lines n -> 1 <= n ->
  let l' := binlog_lock_flush e l in
  log_ok l' lines (n - 1) /\ exists chunks, files_text l'.1 l'.2 = (@concat Z) <$> chunks /\ concat chunks = lines.
Proof.
  intros He [(chunks & pending & Hh & -> & Hlen) Hn] Hn1. unfold binlog_lock_flush, __binlog_lock_flush.
  destruct (flush_holds e He _ _ _ _ Hh) as (d' & b' & chunks' & -> & Hh' & Hc & Hi); [lia|]. cbn [fst snd].
  split; [split; cbn [fst snd]; [|lia]|].
  - exists chunks', []. split_and!; [done|by rewrite app_nil_r|]. destruct (ho_cache _ _ _ _ Hh') as [_ ->]. unfold zlen, BINLOG_CACHE_BUFFER_SIZE. cbn. lia.
  - exists chunks'. by split; [apply (holds_files _ _ _ _ Hh')|].
Qed.

Lemma write_ok e l lines n line :
  calls_ok e -> log_ok l lines n -> 2 <= n -> (length line < 256)%nat ->
  exists d b r, binlog_write 0 e l.1 l.2 line = Ret (d, b, r) /\ log_ok (d, b) (lines ++ [line]) (n - 1).
Proof.
  intros He [Hs Hn] Hn1 Hl. destruct (write_all_stored e He [line] l.1 l.2 lines Hs) as (d & b & Hw & Hs' & Hi);
    [by constructor|unfold zlen; cbn [length]; lia|]. cbn [write_all] in Hw.
  destruct (binlog_write 0 e l.1 l.2 line) as [ [ [d1 b1] r]|]; [|done]. injection Hw as -> ->. exists d, b, r.
  split; [done|]. split; [done|]. cbn [fst snd zlen length] in *. unfold zlen in Hi. cbn in Hi. lia.
Qed.

(** Writing the counters returns, whatever the calls do. *)
Lemma stat_write_returns wn errno m pre bs file :
  mounted m (pre ++ bs) -> Forall stat_valid bs ->
  exists f r, stat_write_loop (length bs) wn errno m (Z.of_nat (length pre)) file = Ret (f, r).
Proof.
  intros Hm Hv. revert pre file Hm. induction Hv as [|b bs Hb _ IH]; intros pre file Hm; cbn [length stat_write_loop]; [by eauto|].
  destruct (get_mounted m _ (length pre) Hm) as (b' & Hl & ->); [rewrite length_app; cbn; lia|]. cbn [mbind outcome_bind].
  rewrite lookup_app_r, Nat.sub_diag in Hl by lia. injection Hl as <-.
  rewrite (proj2 (Nat.ltb_lt _ _)) by (by apply stat_line_fits). cbn [negb]. case_match; [by eauto|].
  replace (Z.of_nat (length pre) + 1) with (Z.of_nat (length (pre ++ [b]))) by (rewrite length_app; cbn; lia).
  apply IH. by rewrite <-app_assoc.
Qed.

Lemma stat_flush_returns e m bs file :
  mounted m bs -> Forall stat_valid bs ->
  exists f r, block_stat_flush (tk_is_flush e) (tk_open_errno e) (tk_write_n e) (tk_errno e) m file = Ret (f, r).
Proof.
  intros Hm Hv. unfold block_stat_flush, __mount_block_stat_write. destruct (tk_is_flush e); [by eauto|].
  destruct (negb _); [by eauto|]. pose proof Hm as [_ ->]. rewrite Nat2Z.id.
  destruct (stat_write_returns (tk_write_n e) (tk_errno e) m [] bs [] Hm Hv) as (f & r & Hr). change (Z.of_nat (length [])) with 0 in Hr. rewrite Hr. by eauto.
Qed.

Lemma vfs_returns e m bs :
  mounted m bs -> exists m' r, block_vfs_statistics (tk_is_statistics e) m = Ret (m', r) /\ mounted m' bs.
Proof.
  intros Hm. unfold block_vfs_statistics. destruct (tk_is_statistics e); [by eauto|]. pose proof Hm as [Hb Hc]. rewrite Hc, Nat2Z.id.
  pose proof (statistics_loop_sum (length bs) m bs 0 Hm eq_refl) as Hs. change (Z.of_nat 0) with 0 in Hs. rewrite Hs.
  eexists _, _. split; [reflexivity|]. by split; cbn; rewrite ?Hc.
Qed.

(** What every task and every line keeps: [lines] and [rlines] are the lines of the
    two logs, and [n] more files fit their counters. *)
Record tasks_inv (bs : list block_st) (lines rlines : list bytes) (n : Z) (s : ds_files) (st : tstate) : Prop := {
  ti_mounts : mounted (df_mounts s) bs;
  ti_stat : Forall stat_valid bs;
  ti_log : log_ok (df_log s) lines n;
  ti_rlog : log_ok (df_rlog s) rlines n;
  ti_timers : exists xs ys, timer_inv st xs ys
}.

Lemma log_ok_less l lines n n' : log_ok l lines n -> n' <= n -> log_ok l lines n'.
Proof. intros [H1 H2] Hn. split; [done|lia]. Qed.

(** The lines of a piece of work: those of the local log, or of the other. *)
Definition work_lines (remote : bool) (x : work) : list bytes :=
  match x with WLine _ r line => if eqb r remote then [line] else [] | WTask _ _ => [] end.

Definition work_ok (x : work) : Prop :=
  match x with
  | WTask e cb => calls_ok (tk_benv e) /\ cb ∈ ds_tasks
  | WLine e _ line => calls_ok e /\ (length line < 256)%nat
  end.

Lemma run_task_ok bs lines rlines n s st e cb :
  tasks_inv bs lines rlines n s st -> calls_ok (tk_benv e) -> 2 <= n ->
  exists s' st', run_task e cb s st = Ret (s', st') /\ tasks_inv bs lines rlines (n - 1) s' st'.
Proof.
  intros [Hm Hv Hl Hr (xs & ys & Ht)] He Hn.
  pose proof (log_ok_less _ _ _ (n - 1) Hl ltac:(lia)) as Hl'. pose proof (log_ok_less _ _ _ (n - 1) Hr ltac:(lia)) as Hr'.
  assert (Ha : forall cb, exists st', task_again interval (tk_now e) cb st = Ret st' /\ exists xs ys, timer_inv st' xs ys).
  { intros cb'. destruct (task_again_ok (tk_now e) cb' st xs ys Ht) as (st' & xs1 & xs2 & Hr0 & _ & Hi & _). by eauto 10. }
  unfold run_task. repeat (destruct (_ =? _)).
  - unfold run_block_stat_snapshot. destruct (stat_flush_returns e _ _ (df_stat s) Hm Hv) as (f & r & ->). cbn [mbind outcome_bind].
    destruct (Ha mnt_block_stat_snapshot_cb) as (st' & -> & Hi). eexists _, _. split; [reflexivity|]. by split.
  - unfold run_block_vfs_statistics. destruct (vfs_returns e _ _ Hm) as (m' & r & -> & Hm'). cbn [mbind outcome_bind].
    destruct (Ha block_vfs_statistics_cb) as (st' & -> & Hi). eexists _, _. split; [reflexivity|]. by split.
  - unfold run_local_binlog_flush. destruct (Ha local_binlog_flush_cb) as (st' & -> & Hi). eexists _, _. split; [reflexivity|].
    split; try done. apply (lock_flush_ok _ _ _ _ He Hl). lia.
  - unfold run_remote_binlog_flush. destruct (Ha remote_binlog_flush_cb) as (st' & -> & Hi). eexists _, _. split; [reflexivity|].
    split; try done. apply (lock_flush_ok _ _ _ _ He Hr). lia.
Qed.

Lemma run_work_ok bs lines rlines n s st x :
  tasks_inv bs lines rlines n s st -> work_ok x -> 2 <= n ->
  exists s' st', run_work x s st = Ret (s', st') /\
    tasks_inv bs (lines ++ work_lines false x) (rlines ++ work_lines true x) (n - 1) s' st'.
Proof.
  intros Hi Hx Hn. destruct x as [e cb|e [|] line]; cbn [work_lines eqb run_work]; rewrite ?app_nil_r.
  - by apply run_task_ok; [|apply Hx|].
  - destruct Hi as [Hm Hv Hl Hr Ht]. destruct (write_ok e _ _ _ line (proj1 Hx) Hr Hn (proj2 Hx)) as (d & b & r & -> & Hl').
    eexists _, _. split; [reflexivity|]. split; try done. eapply log_ok_less; [exact Hl|lia].
  - destruct Hi as [Hm Hv Hl Hr Ht]. destruct (write_ok e _ _ _ line (proj1 Hx) Hl Hn (proj2 Hx)) as (d & b & r & -> & Hl').
    eexists _, _. split; [reflexivity|]. split; try done. eapply log_ok_less; [exact Hr|lia].
Qed.

Lemma run_works_ok xs : forall bs lines rlines n s st,
  tasks_inv bs lines rlines n s st -> Forall work_ok xs -> zlen xs + 1 <= n ->
  exists s' st', run_works xs s st = Ret (s', st') /\
    tasks_inv bs (lines ++ (xs ≫= work_lines false)) (rlines ++ (xs ≫= work_lines true)) (n - zlen xs) s' st'.
Proof.
  induction xs as [|x xs IH]; intros bs lines rlines n s st Hi Hx Hn.
  - exists s, st. split; [done|]. rewrite !app_nil_r. replace (n - zlen []) with n by (unfold zlen; cbn; lia). done.
  - apply Forall_cons in Hx as [Hx Hxs]. rewrite zlen_cons in *. pose proof (zlen_pos xs).
    destruct (run_work_ok _ _ _ _ _ _ _ Hi Hx ltac:(lia)) as (s1 & st1 & Hr & Hi1). cbn [run_works]. rewrite Hr. cbn [mbind outcome_bind].
    destruct (IH _ _ _ _ _ _ Hi1 Hxs ltac:(lia)) as (s2 & st2 & -> & Hi2). exists s2, st2. split; [done|].
    cbn [mbind list_bind]. rewrite !app_assoc. by replace (n - (1 + zlen xs)) with (n - 1 - zlen xs) by lia.
Qed.

(** C37. A run of [local_binlog_flush_cb] empties the cache: when the calls on the log
    files succeed, whatever lines were written to the two logs and whatever tasks
    ran in between, in any order, the run that follows returns, leaves every line of
    the local log in its files, whole and in order, and loses none of the log of
    copies; and its timer is set again, [binlog_flush_interval] seconds ahead when
    that is at most 2147 seconds. *)
Theorem lines_flushed bs lines rlines n s st xs e :
  tasks_inv bs lines rlines n s st -> Forall work_ok xs -> calls_ok (tk_benv e) -> zlen xs + 2 <= n ->
  0 <= interval local_binlog_flush_cb <= 2147 -> 0 <= tk_now e < 2 ^ 62 ->
  exists s1 st1 s2 st2 chunks, run_works xs s st = Ret (s1, st1) /\
    run_task e local_binlog_flush_cb s1 st1 = Ret (s2, st2) /\
    files_text (df_log s2).1 (df_log s2).2 = (@concat Z) <$> chunks /\ concat chunks = lines ++ (xs ≫= work_lines false) /\
    stored (df_rlog s2).1 (df_rlog s2).2 (rlines ++ (xs ≫= work_lines true)) /\
    tm_timers st2 !! tm_brk st1 = Some (mk_timer (tk_now e + interval local_binlog_flush_cb * 1000000) (Some local_binlog_flush_cb) []).
Proof.
  intros Hi Hx He Hn Hv Hnow. destruct (run_works_ok xs _ _ _ _ _ _ Hi Hx ltac:(lia)) as (s1 & st1 & Hr & [_ _ Hl [Hrl _] (ts & ys & Ht)]).
  destruct (task_again_ok (tk_now e) local_binlog_flush_cb st1 ts ys Ht) as (st2 & _ & _ & Ha & _ & _ & Htm).
  destruct (lock_flush_ok _ _ _ _ He Hl ltac:(lia)) as (_ & chunks & Hf & Hc).
  exists s1, st1, (mk_dsf (df_mounts s1) (df_stat s1) (binlog_lock_flush (tk_benv e) (df_log s1)) (df_rlog s1)), st2, chunks.
  split_and!; [done| |done|done|done|rewrite Htm, lookup_insert_eq, usec_small, s_wrap_id by (done || unfold is_s; lia); done].
  change (run_task e local_binlog_flush_cb s1 st1) with (run_local_binlog_flush e s1 st1). unfold run_local_binlog_flush. by rewrite Ha.
Qed.
End Callbacks.

(** ** Examples *)

Definition demo_tasks : ds_files := mk_dsf demo_mounts None (demo_disk, demo_bctx []) (demo_disk, demo_bctx []).
Definition demo_task_env (now : Z) : task_env := mk_task_env now false false 0 (fun _ n => n) 0 demo_benv.
Definition demo_works : list work :=
  [WLine demo_benv false (demo_line 11 "00/00/d"); WTask (demo_task_env 5) mnt_block_stat_snapshot_cb; WLine demo_benv true (demo_line 12 "00/00/e");
   WTask (demo_task_env 7) block_vfs_statistics_cb; WLine demo_benv false (demo_line 13 "00/00/f")].

Lemma demo_tasks_inv : tasks_inv DsBlock.demo_blocks demo_chunk demo_chunk 100 demo_tasks no_timers.
Proof.
  assert (Hl : log_ok (demo_disk, demo_bctx []) demo_chunk 100).
  { split; [|vm_compute; reflexivity]. exists [demo_chunk], []. split_and!; [apply holds_one|by rewrite !app_nil_r|vm_compute; discriminate]. }
  split; [exact demo_mounted|repeat constructor; cbn; lia|exact Hl|exact Hl|exists [], []; exact no_timers_inv].
Qed.

Lemma lines_flushed_witness : exists s1 st1 s2 st2 chunks, run_works (fun _ => 30) demo_works demo_tasks no_timers = Ret (s1, st1) /\
    run_task (fun _ => 30) (demo_task_env 9) local_binlog_flush_cb s1 st1 = Ret (s2, st2) /\
    files_text (df_log s2).1 (df_log s2).2 = (@concat Z) <$> chunks /\ concat chunks = demo_chunk ++ (demo_works ≫= work_lines false) /\
    stored (df_rlog s2).1 (df_rlog s2).2 (demo_chunk ++ (demo_works ≫= work_lines true)) /\
    tm_timers st2 !! tm_brk st1 = Some (mk_timer (9 + 30 * 1000000) (Some local_binlog_flush_cb) []).
Proof.
  apply (lines_flushed (fun _ => 30) DsBlock.demo_blocks demo_chunk demo_chunk 100 demo_tasks no_timers demo_works (demo_task_env 9) demo_tasks_inv); [|exact demo_calls_ok|vm_compute; discriminate|lia|cbn; lia].
  repeat (apply Forall_cons; split; [split; [exact demo_calls_ok|first [by apply Nat.ltb_lt|set_solver] ]|]). constructor.
Defined.
