(* ===== verification/TrackerClient.v ===== *)
(** * The client of the tracker

    src/src/dataserver/tracker_client.c and ds_client_conn.c: a data server
    registers with every tracker, reports to it, and learns from the answers to
    its heartbeats which other servers belong to its volume.  One thread per
    tracker runs [__trackerclient_state_machine]. *)
From S2P Require Import Prelude Codec CString Lines ListH TsQueue TsConn Datasevr Chains Cluster Wlc ClusterDatasevr Protocol TsService DsBlock DsBinlog ClientIo DsSync.

(** The items of the configuration that are used. *)
Record ds_conf := mk_conf {
  cf_group_name : bytes;
  cf_volume_name : bytes;
  cf_bind_addr : bytes;
  cf_bind_port : Z;
  cf_weight : Z;
  cf_heart_beat_interval : Z;
  cf_sync_report_interval : Z;
  cf_state_report_interval : Z
}.

(** ** Requests *)

Definition cf_map_info (cf : ds_conf) : bytes := cf_group_name cf ++ [47] ++ cf_volume_name cf.

(** [long2buff] to consecutive fields. *)
Fixpoint put_longs (buff : bytes) (off : Z) (ns : list Z) : outcome bytes :=
  match ns with
  | [] => Ret buff
  | n :: ns' => buff ← buf_write buff off (long2buff n); put_longs buff (off + 8) ns'
  end.

(** [req_buff] of the requests: the header, [map_info] and [ds_ipaddr] as
    [sprintf] and [strcpy] store them, and the numbers.  The request structures
    have no padding. *)
Definition tracker_request (cf : ds_conf) (m : bytes) (cmd : Z) (ns : list Z) : outcome bytes :=
  let body_len := 50 + 8 * zlen ns in
  let buff := zeros (Z.to_nat (sizeof_protocol_header + body_len)) in
  buff ← buf_write buff 0 (header_bytes body_len cmd 0);
  buff ← buf_write buff (sizeof_protocol_header + req_map_info) (m ++ [0]);
  buff ← buf_write buff (sizeof_protocol_header + req_ds_ipaddr) (cf_bind_addr cf ++ [0]);
  put_longs buff (sizeof_protocol_header + req_field8 0) ns.

(** A request that is answered with a header only. *)
Definition exchange (sfd : Z) (s : sock) (req : bytes) : outcome (sock * Z) :=
  '(s, ret) ← client_senddata sfd s req;
  if negb (ret =? 0) then Ret (s, ret)
  else '(s, ret, _) ← client_recvheader s; Ret (s, ret).

Definition __tracker_register (cf : ds_conf) (current_time started_time sfd : Z) (s : sock) : outcome (sock * Z) :=
  req ← tracker_request cf (cf_map_info cf) PROTOCOL_CMD_DATASERVER_REGISTER
          [cf_bind_port cf; cf_weight cf; cf_heart_beat_interval cf; current_time; started_time];
  exchange sfd s req.

Definition __tracker_report_syncinfo (cf : ds_conf) (last_sync_sequence sfd : Z) (s : sock) : outcome (sock * Z) :=
  req ← tracker_request cf (cf_map_info cf) PROTOCOL_CMD_DATASERVER_SYNCREPORT [last_sync_sequence];
  exchange sfd s req.

Definition __tracker_report_blockstate (cf : ds_conf) (conns : Z) (m : block_mount) (sfd : Z) (s : sock) : outcome (sock * Z) :=
  req ← tracker_request cf (cf_map_info cf) PROTOCOL_CMD_DATASERVER_STATREPORT [conns; block_total_size_mb m; block_free_size_mb m];
  exchange sfd s req.

Definition __tracker_quit (cf : ds_conf) (sfd : Z) (s : sock) : outcome (sock * Z) :=
  req ← tracker_request cf (cf_map_info cf) PROTOCOL_CMD_DATASERVER_QUITED [];
  client_senddata sfd s req.

Inductive trackerclient_state := connectd | registerd | fullsync | reporting | quited | closed.

#[export] Instance trackerclient_state_eq_dec : EqDecision trackerclient_state.
Proof. solve_decision. Defined.

(** The result, the value that is assigned to [c->nextto] if any, and the address
    of the master.  [map_info] is cut to its field; the address is copied to an
    array of 16 bytes. *)
Definition __tracker_fullsync_req (cf : ds_conf) (malloc_ok : bool) (sfd : Z) (s : sock) : outcome (sock * Z * option trackerclient_state * bytes * Z) :=
  req ← tracker_request cf (take 33 (cf_map_info cf)) PROTOCOL_CMD_DATASERVER_FULLSYNC [];
  '(s, ret) ← client_senddata sfd s req;
  if negb (ret =? 0) then Ret (s, ret, Some closed, [], 0)
  else
    '(s, ret, _, buff) ← client_recvdata malloc_ok s;
    if negb (ret =? 0) then
      Ret (s, ret, Some (if ret =? PROTOCOL_RESP_STATUS_ERROR_UNREGISTER then registerd
                         else if ret =? PROTOCOL_RESP_STATUS_SYNCSETTING_WAITING then fullsync else quited), [], 0)
    else
      match buff with
      | None => Ret (s, -2, Some closed, [], 0)
      | Some b =>
          ip ← c_string b;
          if (length ip <? 16)%nat then
            f ← buf_read b 16 8;
            p ← buff2long f;
            Ret (s, ret, None, ip, s32 p)
          else Crash OutOfBounds
      end.

(** ** The servers of the volume *)

(** [state] is an [int]: the number in the response is not checked. *)
Record block_brief := mk_bbrief { bb_state : Z; bb_ipaddr : bytes; bb_port : Z; bb_sequence : Z }.

(** [LFS_MAX_BLOCKS_EACH_VOLUME], as a number of array entries. *)
Definition max_blocks : nat := Z.to_nat LFS_MAX_BLOCKS_EACH_VOLUME.

(** [volume_blocks], [blocks_count], and the replication threads. *)
Record volume_table := mk_vtable { volume_blocks : list block_brief; blocks_count : Z; vt_threads : async_threads }.

Definition no_brief : block_brief := mk_bbrief 0 (zeros 16) 0 0.
Definition no_blocks : volume_table := mk_vtable (replicate max_blocks no_brief) 0 (mk_threads None 0).

Definition set_vt_block (v : volume_table) (i : nat) (b : block_brief) : volume_table := mk_vtable (<[i := b]> (volume_blocks v)) (blocks_count v) (vt_threads v).
Definition set_vt_threads (v : volume_table) (t : async_threads) : volume_table := mk_vtable (volume_blocks v) (blocks_count v) t.
Definition set_bb_state (b : block_brief) (st : Z) : block_brief := mk_bbrief st (bb_ipaddr b) (bb_port b) (bb_sequence b).
Definition set_bb_sequence (b : block_brief) (n : Z) : block_brief := mk_bbrief (bb_state b) (bb_ipaddr b) (bb_port b) n.

(** [n] entries from [i] on; [ipaddr] is the memory at the address. *)
Fixpoint blocks_find_loop (n i : nat) (ipaddr : bytes) (blocks : list block_brief) : outcome (option nat) :=
  match n with
  | O => Ret None
  | S n' =>
      b ← get_or OutOfBounds (blocks !! i);
      same ← strcmp_eq ipaddr (bb_ipaddr b);
      if same : bool then Ret (Some i) else blocks_find_loop n' (S i) ipaddr blocks
  end.

Definition __local_volume_blocks_find (ipaddr : bytes) (v : volume_table) : outcome (option nat) :=
  blocks_find_loop (Z.to_nat (blocks_count v)) 0 ipaddr (volume_blocks v).

(** The fields of a record of the response, [rec] being the memory from it on. *)
Definition rec_state (rec : bytes) : outcome Z := n ← buff2long rec; Ret (s32 n).
Definition rec_ipaddr (rec : bytes) : bytes := drop 8 rec.
Definition rec_port (rec : bytes) : outcome Z := n ← buff2long (drop 24 rec); Ret (s32 n).
Definition rec_sequence (rec : bytes) : outcome Z := buff2long (drop 32 rec).

(** The number of entries is not compared with the size of the array. *)
Definition __local_volume_blocks_add (rec : bytes) (v : volume_table) : outcome (volume_table * nat) :=
  let i := Z.to_nat (blocks_count v) in
  old ← get_or OutOfBounds (volume_blocks v !! i);
  st ← rec_state rec;
  p ← rec_port rec;
  seq ← rec_sequence rec;
  name ← c_string (rec_ipaddr rec);
  ip ← buf_write (bb_ipaddr old) 0 name;
  Ret (mk_vtable (<[i := mk_bbrief st ip p seq]> (volume_blocks v)) (blocks_count v + 1) (vt_threads v), i).

(** What [async_thread_start] meets. *)
Record start_thread_env := mk_stenv { sv_attr : Z; sv_create : Z; sv_realloc : bool; sv_tid : Z }.

Definition start_thread (cf : ds_conf) (e : start_thread_env) (i : nat) (v : volume_table) : outcome (volume_table * Z) :=
  b ← get_or OutOfBounds (volume_blocks v !! i);
  is_local ← (if (bb_state b =? state_code active) || (bb_state b =? state_code on_line) then strcmp_eq (bb_ipaddr b) (cf_bind_addr cf ++ [0]) else Ret false);
  let '(t, ret) := async_thread_start (bb_state b) is_local (sv_attr e) (sv_create e) (sv_realloc e) (sv_tid e) (vt_threads v) in
  Ret (set_vt_threads v t, ret).

(** [pf->state == init || ...], and [new_state == on_line || new_state == active] *)
Definition was_down (st : Z) : bool := existsb (fun x => st =? state_code x) [init; wait_sync; syncing; off_line].
Definition is_up (st : Z) : bool := (st =? state_code on_line) || (st =? state_code active).

(** One record.  A failing [async_thread_start] is only logged. *)
Definition manage_record (cf : ds_conf) (e : start_thread_env) (rec : bytes) (v : volume_table) : outcome volume_table :=
  pf ← __local_volume_blocks_find (rec_ipaddr rec) v;
  match pf with
  | Some i =>
      b ← get_or OutOfBounds (volume_blocks v !! i);
      new_state ← rec_state rec;
      seq ← rec_sequence rec;
      let b := set_bb_sequence b seq in
      let v := set_vt_block v i b in
      if negb (bb_state b =? new_state) && was_down (bb_state b) && is_up new_state then
        '(v, _) ← start_thread cf e i (set_vt_block v i (set_bb_state b new_state)); Ret v
      else Ret v
  | None =>
      '(v, i) ← __local_volume_blocks_add rec v;
      '(v, _) ← start_thread cf e i v;
      Ret v
  end.

(** [n] records, the first at the start of [buff]. *)
Fixpoint manage_records (cf : ds_conf) (n : nat) (k : nat) (e : nat -> start_thread_env) (buff : bytes) (v : volume_table) : outcome volume_table :=
  match n with
  | O => Ret v
  | S n' => v ← manage_record cf (e k) buff v; manage_records cf n' (S k) e (drop 40 buff) v
  end.

Definition __local_volume_blocks_manager (cf : ds_conf) (e : nat -> start_thread_env) (buff : bytes) (count : Z) (v : volume_table) : outcome (volume_table * Z) :=
  if count =? 0 then Crash AssertFailed
  else v ← manage_records cf (Z.to_nat count) 0 e buff v; Ret (v, LFS_OK).

(** The answer to a heartbeat.  The length in the header is compared with the
    buffer only after the data has been received into it; [nextto] is set when
    there is no valid header. *)
Definition __check_volumeblocks_change (cf : ds_conf) (e : nat -> start_thread_env) (s : sock) (v : volume_table) : outcome (sock * volume_table * Z * option trackerclient_state) :=
  '(s, ret, resp_bytes) ← client_recvheader s;
  if negb (ret =? 0) then Ret (s, v, ret, Some closed)
  else if resp_bytes =? 0 then Ret (s, v, LFS_OK, None)
  else
    '(s, ret, got) ← client_recvdata_nomalloc (sizeof_block_brief_info_resp * Z.of_nat max_blocks) s resp_bytes;
    if negb (ret =? 0) then Ret (s, v, ret, None)
    else
      let bcount := s32 (resp_bytes / sizeof_block_brief_info_resp) in
      if Z.of_nat max_blocks <? bcount then Ret (s, v, LFS_ERROR, None)
      else '(v, ret) ← __local_volume_blocks_manager cf e got bcount v; Ret (s, v, ret, None).

Definition __tracker_hearbeat (cf : ds_conf) (e : nat -> start_thread_env) (sfd : Z) (s : sock) (v : volume_table) : outcome (sock * volume_table * Z * option trackerclient_state) :=
  req ← tracker_request cf (cf_map_info cf) PROTOCOL_CMD_DATASERVER_HEARTBEAT [];
  '(s, ret) ← client_senddata sfd s req;
  if negb (ret =? 0) then Ret (s, v, ret, None) else __check_volumeblocks_change cf e s v.

(** ** The snapshot of the context (ds_func.c) *)

(** [ctxs.register_timestamp], [ctxs.is_fullsyncdone] and
    [ctxs.last_sync_sequence]. *)
Record ctx_snapshot := mk_snap { sn_register_timestamp : Z; sn_is_fullsyncdone : bool; sn_last_sync_sequence : Z }.

#[export] Instance ctx_snapshot_record : LineRecord ctx_snapshot.
Proof.
  refine {| lr_count := 3;
            lr_columns x := [pr_dec (sn_register_timestamp x); pr_dec (if sn_is_fullsyncdone x then 1 else 0); pr_dec (sn_last_sync_sequence x)];
            lr_read c := mk_snap (atol (c 0%nat)) (negb (atoi (c 1%nat) =? 0)) (atol (c 2%nat));
            lr_valid x := is_s 64 (sn_register_timestamp x) /\ is_s 64 (sn_last_sync_sequence x) |}.
  - done.
  - intros x _. repeat (apply Forall_cons; split); auto using pr_dec_column.
  - intros [a b c] f [H1 H2] Hf. cbn in *. rewrite (Hf 0%nat _ eq_refl), (Hf 1%nat _ eq_refl), (Hf 2%nat _ eq_refl).
    rewrite !atol_pr_long by done. by destruct b; rewrite atoi_pr_int.
Defined.

(** The file is created anew; the result of [write] is [write (length)]. *)
Definition ctx_snapshot_batdata_flush (open_ok : bool) (write : Z -> Z) (errno : Z) (file : option bytes) (x : ctx_snapshot) : option bytes * Z :=
  if negb open_ok then (file, errno)
  else
    let buff := pr_record x in
    let n := write (zlen buff) in
    (Some (take (Z.to_nat n) buff), if negb (n =? zlen buff) then errno else LFS_OK).

Definition BINLOG_BAT_LINE_BUFF_SIZE : nat := 256.

Definition ctx_snapshot_batdata_load (open_ok : bool) (trim_ok : nat -> bool) (errno : Z) (file : option bytes) (x : ctx_snapshot) : outcome (ctx_snapshot * Z) :=
  match (if open_ok then file else None) with
  | None => Ret (x, errno)
  | Some text => x ← read_lines (fun _ y => y) BINLOG_BAT_LINE_BUFF_SIZE (length text) trim_ok x text; Ret (x, LFS_OK)
  end.

(** ** The state machine *)

Record trackerclient_conn := mk_tconn {
  tcn_sfd : Z;
  last_heartbeat : Z;
  last_syncreport : Z;
  last_reportstate : Z;
  tcn_state : trackerclient_state;
  nextto : trackerclient_state
}.

Definition trackerclientconn_new : trackerclient_conn := mk_tconn 0 0 0 0 connectd connectd.

(** The thread: its connection, [is_local_haseregistered] and
    [is_local_hasefullsync], and what it shares with the other threads:
    [do_run_tracker_reported_thread], the counters, the servers of the volume,
    the snapshot of the context with its file, and the synchronisation. *)
Record tclient := mk_tclient {
  tc_conn : trackerclient_conn;
  tc_sock : sock;
  is_local_haseregistered : bool;
  is_local_hasefullsync : bool;
  do_run : bool;
  tc_counts : conn_counts;
  tc_volume : volume_table;
  tc_snapshot : ctx_snapshot;
  tc_file : option bytes;
  tc_world : fworld
}.

Definition tc_set_conn (t : tclient) (c : trackerclient_conn) : tclient :=
  mk_tclient c (tc_sock t) (is_local_haseregistered t) (is_local_hasefullsync t) (do_run t) (tc_counts t) (tc_volume t) (tc_snapshot t) (tc_file t) (tc_world t).
Definition tc_set_sock (t : tclient) (s : sock) : tclient :=
  mk_tclient (tc_conn t) s (is_local_haseregistered t) (is_local_hasefullsync t) (do_run t) (tc_counts t) (tc_volume t) (tc_snapshot t) (tc_file t) (tc_world t).
Definition tc_set_registered (t : tclient) : tclient :=
  mk_tclient (tc_conn t) (tc_sock t) true (is_local_hasefullsync t) (do_run t) (tc_counts t) (tc_volume t) (tc_snapshot t) (tc_file t) (tc_world t).
Definition tc_set_fullsynced (t : tclient) : tclient :=
  mk_tclient (tc_conn t) (tc_sock t) (is_local_haseregistered t) true (do_run t) (tc_counts t) (tc_volume t) (tc_snapshot t) (tc_file t) (tc_world t).
Definition tc_set_run (t : tclient) (r : bool) : tclient :=
  mk_tclient (tc_conn t) (tc_sock t) (is_local_haseregistered t) (is_local_hasefullsync t) r (tc_counts t) (tc_volume t) (tc_snapshot t) (tc_file t) (tc_world t).
Definition tc_set_counts (t : tclient) (c : conn_counts) : tclient :=
  mk_tclient (tc_conn t) (tc_sock t) (is_local_haseregistered t) (is_local_hasefullsync t) (do_run t) c (tc_volume t) (tc_snapshot t) (tc_file t) (tc_world t).
Definition tc_set_volume (t : tclient) (v : volume_table) : tclient :=
  mk_tclient (tc_conn t) (tc_sock t) (is_local_haseregistered t) (is_local_hasefullsync t) (do_run t) (tc_counts t) v (tc_snapshot t) (tc_file t) (tc_world t).
Definition tc_set_snapshot (t : tclient) (x : ctx_snapshot) (f : option bytes) : tclient :=
  mk_tclient (tc_conn t) (tc_sock t) (is_local_haseregistered t) (is_local_hasefullsync t) (do_run t) (tc_counts t) (tc_volume t) x f (tc_world t).
Definition tc_set_world (t : tclient) (w : fworld) : tclient :=
  mk_tclient (tc_conn t) (tc_sock t) (is_local_haseregistered t) (is_local_hasefullsync t) (do_run t) (tc_counts t) (tc_volume t) (tc_snapshot t) (tc_file t) w.

(** [set_trackerclientconn_state(c, st)] *)
Definition set_trackerclientconn_state (t : tclient) (st : trackerclient_state) : tclient :=
  let c := tc_conn t in
  tc_set_conn t (mk_tconn (tcn_sfd c) (last_heartbeat c) (last_syncreport c) (last_reportstate c) st (nextto c)).
Definition tc_set_nextto (t : tclient) (st : option trackerclient_state) : tclient :=
  let c := tc_conn t in
  match st with
  | Some st => tc_set_conn t (mk_tconn (tcn_sfd c) (last_heartbeat c) (last_syncreport c) (last_reportstate c) (tcn_state c) st)
  | None => t
  end.
Definition tc_set_times (t : tclient) (hb sr rs : Z) : tclient :=
  let c := tc_conn t in tc_set_conn t (mk_tconn (tcn_sfd c) hb sr rs (tcn_state c) (nextto c)).
Definition tc_set_sfd (t : tclient) (fd : Z) : tclient :=
  let c := tc_conn t in tc_set_conn t (mk_tconn fd (last_heartbeat c) (last_syncreport c) (last_reportstate c) (tcn_state c) (nextto c)).

(** The connection is counted as closed whether or not it was opened. *)
Definition trackerclientconn_close (t : tclient) : tclient :=
  let c := tc_conn t in
  tc_set_counts (tc_set_conn t (mk_tconn (tcn_sfd c) 0 (last_syncreport c) 0 (tcn_state c) (nextto c))) (conn_closed (tc_counts t)).

(** What one round meets: [do_run_tracker_reported_thread] as the other threads
    leave it, the system calls, the clock. *)
Record tc_env := mk_tcenv {
  te_run : bool;
  te_socket : Z;
  te_bind : Z;
  te_noblock : Z;
  te_sockopt : Z;
  te_connect : Z;
  te_sock : sock;
  te_time : Z;
  te_started : Z;
  te_lock : Z;
  te_malloc : bool;
  te_rounds : list round_env;
  te_flush : bool * (Z -> Z) * Z;
  te_start : nat -> start_thread_env
}.

Definition state_if (b : bool) (st : trackerclient_state) (t : tclient) : tclient := if b then set_trackerclientconn_state t st else t.

(** [case connectd] *)
Definition step_connectd (e : tc_env) (t : tclient) : tclient :=
  let t := tc_set_sfd t (te_socket e) in
  if te_socket e <? 0 then tc_set_run t false
  else
    let t := state_if (negb (te_bind e =? 0)) closed t in
    let t := state_if (negb (te_noblock e =? 0)) closed t in
    let t := state_if (negb (te_sockopt e =? 0)) closed t in
    if negb (te_connect e =? 0) then set_trackerclientconn_state t closed
    else set_trackerclientconn_state (tc_set_counts (tc_set_sock t (te_sock e)) (conn_opened (tc_counts t))) registerd.

(** [case registerd] *)
Definition step_registerd (cf : ds_conf) (e : tc_env) (t : tclient) : outcome tclient :=
  if negb (is_local_haseregistered t) then
    '(s, ret) ← __tracker_register cf (te_time e) (te_started e) (tcn_sfd (tc_conn t)) (tc_sock t);
    let t := tc_set_sock t s in
    if negb (ret =? 0) then Ret (set_trackerclientconn_state t closed)
    else
      let x := tc_snapshot t in
      Ret (set_trackerclientconn_state (tc_set_snapshot (tc_set_registered t) (mk_snap (s32 (te_time e)) (sn_is_fullsyncdone x) (sn_last_sync_sequence x)) (tc_file t)) fullsync)
  else Ret (set_trackerclientconn_state t fullsync).

(** [case fullsync].  [ctxs.last_sync_sequence] is [fw_sequence] during the
    synchronisation. *)
Definition step_fullsync (cf : ds_conf) (m : block_mount) (e : tc_env) (t : tclient) : outcome tclient :=
  let done t := set_trackerclientconn_state (tc_set_fullsynced t) reporting in
  if is_local_hasefullsync t then Ret (set_trackerclientconn_state t reporting)
  else if negb (te_lock e =? 0) then Ret (set_trackerclientconn_state t quited)
  else if sn_is_fullsyncdone (tc_snapshot t) then Ret (done t)
  else
    '(s, ret, nx, ip, port) ← __tracker_fullsync_req cf (te_malloc e) (tcn_sfd (tc_conn t)) (tc_sock t);
    let t := tc_set_nextto (tc_set_sock t s) nx in
    if negb (ret =? 0) then Ret (set_trackerclientconn_state t (nextto (tc_conn t)))
    else if bool_decide (ip = cf_bind_addr cf) then Ret (done t)
    else
      '(w, counts, fstate) ← full_sync_from_master (te_rounds e) m ip port 0 (fw_set_sequence (tc_world t) (sn_last_sync_sequence (tc_snapshot t))) (tc_counts t);
      let x := tc_snapshot t in
      let t := tc_set_snapshot (tc_set_counts (tc_set_world t w) counts) (mk_snap (sn_register_timestamp x) (sn_is_fullsyncdone x) (fw_sequence w)) (tc_file t) in
      match fstate with
      | F_SYNC_NETWORK_ERROR | F_SYNC_ERROR | F_SYNC_OK => Ret (set_trackerclientconn_state (tc_set_run t false) quited)
      | F_SYNC_FINISH =>
          let x := mk_snap (sn_register_timestamp x) true (fw_sequence w) in
          let '(open_ok, write, errno) := te_flush e in
          let '(file, ret) := ctx_snapshot_batdata_flush open_ok write errno (tc_file t) x in
          let t := tc_set_snapshot t x file in
          if negb (ret =? 0) then Ret (tc_set_run t false) else Ret (done t)
      | _ => Ret (done t)
      end.

(** A report that is due: when it fails the state is changed and the loop is
    left. *)
Definition report (due : bool) (send : tclient -> outcome (tclient * Z)) (bad : trackerclient_state) (t : tclient) : outcome (tclient * bool) :=
  if due then '(t, ret) ← send t; Ret (if negb (ret =? 0) then (set_trackerclientconn_state t bad, false) else (t, true))
  else Ret (t, true).

(** [case reporting]: one round of its [while]. *)
Definition step_reporting (cf : ds_conf) (m : block_mount) (e : tc_env) (t : tclient) : outcome tclient :=
  let sfd := tcn_sfd (tc_conn t) in
  let now := te_time e in
  '(t, go) ← report (cf_heart_beat_interval cf <=? now - last_heartbeat (tc_conn t))
    (fun t => '(s, v, ret, nx) ← __tracker_hearbeat cf (te_start e) sfd (tc_sock t) (tc_volume t);
              let t := tc_set_nextto (tc_set_volume (tc_set_sock t s) v) nx in
              Ret (if ret =? 0 then tc_set_times t now (last_syncreport (tc_conn t)) (last_reportstate (tc_conn t)) else t, ret)) closed t;
  if negb go then Ret t
  else
    '(t, go) ← report (cf_sync_report_interval cf <=? now - last_syncreport (tc_conn t))
      (fun t => '(s, ret) ← __tracker_report_syncinfo cf (sn_last_sync_sequence (tc_snapshot t)) sfd (tc_sock t);
                let t := tc_set_sock t s in
                Ret (if ret =? 0 then tc_set_times t now now (last_reportstate (tc_conn t)) else t, ret)) quited t;
    if negb go then Ret t
    else
      '(t, _) ← report (cf_state_report_interval cf <=? now - last_reportstate (tc_conn t))
        (fun t => '(s, ret) ← __tracker_report_blockstate cf (curr_conn_count (tc_counts t)) m sfd (tc_sock t);
                  let t := tc_set_sock t s in
                  Ret (if ret =? 0 then tc_set_times t now (last_syncreport (tc_conn t)) now else t, ret)) closed t;
      Ret t.

(** [case quited]; the state stays. *)
Definition step_quited (cf : ds_conf) (t : tclient) : outcome tclient :=
  '(s, _) ← (if negb (do_run t) then __tracker_quit cf (tcn_sfd (tc_conn t)) (tc_sock t) else Ret (tc_sock t, LFS_OK));
  Ret (trackerclientconn_close (tc_set_sock t s)).

Definition tc_step (cf : ds_conf) (m : block_mount) (e : tc_env) (t : tclient) : outcome tclient :=
  match tcn_state (tc_conn t) with
  | connectd => Ret (step_connectd e t)
  | registerd => step_registerd cf e t
  | fullsync => step_fullsync cf m e t
  | reporting => step_reporting cf m e t
  | quited => step_quited cf t
  | closed => Ret (set_trackerclientconn_state (trackerclientconn_close t) connectd)
  end.

(** The [while] loop over a list of rounds. *)
Fixpoint __trackerclient_state_machine (cf : ds_conf) (m : block_mount) (rounds : list tc_env) (t : tclient) : outcome tclient :=
  match rounds with
  | [] => Ret t
  | e :: rounds' =>
      if do_run t && te_run e then t ← tc_step cf m e t; __trackerclient_state_machine cf m rounds' t
      else Ret (tc_set_run t false)
  end.

(** ** The list of the trackers *)

Record tracker_info := mk_tinfo { ti_index : Z; ti_port : Z; ti_ip_addr : bytes }.

Definition ti_set_ip (x : tracker_info) (ip : bytes) : tracker_info := mk_tinfo (ti_index x) (ti_port x) ip.
Definition ti_set_port (x : tracker_info) (p : Z) : tracker_info := mk_tinfo (ti_index x) p (ti_ip_addr x).
Definition ti_set_index (x : tracker_info) (i : Z) : tracker_info := mk_tinfo i (ti_port x) (ti_ip_addr x).

Definition update_tracker (l : list tracker_info) (i : nat) (f : tracker_info -> outcome tracker_info) : outcome (list tracker_info) :=
  x ← get_or OutOfBounds (l !! i); x ← f x; Ret (<[i := x]> l).

(** [p[in] = ...] *)
Definition slot_ok (i : nat) : outcome unit := if (i <? 32)%nat then Ret tt else Crash OutOfBounds.

(** The inner [while]: the tokens of one entry.  [in] counts the tokens of all
    entries, and its parity tells an address from a port. *)
Fixpoint info_tokens (fuel : nat) (s : bytes) (i index : nat) (l : list tracker_info) : outcome (nat * list tracker_info) :=
  _ ← slot_ok i;
  match strtok_r s (str ":") with
  | (None, _) => Ret (i, l)
  | (Some tok, rest) =>
      match fuel with
      | O => Crash Diverged
      | S f =>
          l ← update_tracker l index (fun x =>
                if Nat.even i then ip ← buf_write (ti_ip_addr x) 0 tok; Ret (ti_set_ip x ip)
                else Ret (ti_set_port x (atoi tok)));
          info_tokens f rest (S i) index l
      end
  end.

(** The outer [while]. *)
Fixpoint info_entries (fuel : nat) (s : bytes) (i index : nat) (l : list tracker_info) : outcome (list tracker_info) :=
  _ ← slot_ok i;
  match strtok_r s (str "|") with
  | (None, _) => Ret l
  | (Some tok, rest) =>
      match fuel with
      | O => Crash Diverged
      | S f =>
          '(i, l) ← info_tokens (length tok) tok i index l;
          l ← update_tracker l index (fun x => Ret (ti_set_index x (Z.of_nat index)));
          info_entries f rest i (S index) l
      end
  end.

Definition no_tracker : tracker_info := mk_tinfo 0 0 (zeros 16).

(** [tracker_groups.trackers] and the result. *)
Definition trackerclient_info_init (malloc_ok : bool) (tracker_servers : bytes) : outcome (option (list tracker_info) * Z) :=
  let tracker_count := get_split_str_count tracker_servers 124 in
  if negb malloc_ok then Ret (None, LFS_ERROR)
  else
    l ← info_entries (length tracker_servers) tracker_servers 0 0 (replicate (Z.to_nat tracker_count) no_tracker);
    Ret (Some l, LFS_OK).

(** ** Lemmas: requests *)

Lemma put_longs_zeros a ns n off : off = zlen a -> (8 * length ns <= n)%nat ->
  put_longs (a ++ zeros n) off ns = Ret ((a ++ concat (long2buff <$> ns)) ++ zeros (n - 8 * length ns)).
Proof.
  revert a n off. induction ns as [|x ns IH]; intros a n off -> Hn; cbn [put_longs fmap list_fmap concat length] in *.
  - by rewrite app_nil_r, Nat.mul_0_r, Nat.sub_0_r.
  - rewrite buf_write_snoc by (rewrite ?length_long2buff; unfold zlen; lia). cbn [mbind outcome_bind]. rewrite length_long2buff.
    rewrite IH by (rewrite ?zlen_app; unfold zlen; rewrite ?length_long2buff; lia). rewrite <- (app_assoc a). do 3 f_equal. lia.
Qed.

(** A request is what the handlers of the tracker expect: the header and the
    fields at their offsets. *)
Lemma tracker_request_bytes cf m cmd ns : named m (cf_bind_addr cf) ->
  tracker_request cf m cmd ns = Ret (header_bytes (50 + 8 * zlen ns) cmd 0 ++ zeros 6 ++ request m (cf_bind_addr cf) ns).
Proof.
  intros (Hm & Hi & Hlm & Hli). unfold tracker_request. set (H := header_bytes _ _ _). assert (length H = 10%nat) as HH by done. clearbody H.
  set (ip := cf_bind_addr cf) in *. change sizeof_protocol_header with 16. change req_map_info with 0. change req_ds_ipaddr with 34. change (req_field8 0) with 50.
  replace (Z.to_nat (16 + (50 + 8 * zlen ns))) with (66 + 8 * length ns)%nat by (unfold zlen; lia). set (N := (8 * length ns)%nat).
  pose proof (buf_write_snoc [] (66 + N) H 0 eq_refl) as W. cbn [app] in W. rewrite W, HH by lia. cbn [mbind outcome_bind].
  rewrite (buf_write_zeros H _ (m ++ [0]) 6) by (rewrite ?length_app; cbn; lia). cbn [mbind outcome_bind].
  rewrite app_assoc, <- (app_assoc m).
  replace ([0] ++ zeros (66 + N - 10 - 6 - length (m ++ [0]))) with (zeros (50 + N - length m)) by (rewrite length_app; cbn [length]; replace (50 + N - length m)%nat with (1 + (66 + N - 10 - 6 - (length m + 1)))%nat by lia; unfold zeros; by rewrite replicate_add).
  rewrite app_assoc. rewrite (buf_write_zeros _ _ (ip ++ [0]) (34 - length m)) by (rewrite ?length_app; cbn; change (length (zeros 6)) with 6%nat; lia). cbn [mbind outcome_bind].
  replace ((ip ++ [0]) ++ zeros (50 + N - length m - (34 - length m) - length (ip ++ [0]))) with ((ip ++ zeros (16 - length ip)) ++ zeros N); cycle 1.
  { rewrite <- !app_assoc. f_equal. rewrite length_app. cbn [length]. unfold zeros. change [0] with (replicate 1 0). rewrite <- !replicate_add. f_equal. lia. }
  rewrite !app_assoc. rewrite put_longs_zeros by (rewrite ?length_app; unfold zlen, N; rewrite ?length_app; change (length (zeros 6)) with 6%nat; unfold zeros; rewrite ?length_replicate; lia).
  unfold N. rewrite Nat.sub_diag. unfold request, name_fields, pad. rewrite app_nil_r. by rewrite <- !app_assoc.
Qed.

(** ** The servers of the volume, abstractly *)

(** What a data server knows of another one. *)
Record peer := mk_peer { p_ip : bytes; p_state : Z; p_port : Z; p_sequence : Z }.

(** A record of the response: a server that is not known is added; of one that is
    known the sequence is taken over, and the state when it comes up. *)
Definition refresh (old new : peer) : peer :=
  mk_peer (p_ip old) (if was_down (p_state old) && is_up (p_state new) then p_state new else p_state old) (p_port old) (p_sequence new).

Definition learn (tbl : list peer) (r : peer) : list peer :=
  match list_find (fun p => p_ip p = p_ip r) tbl with
  | Some (i, p) => <[i := refresh p r]> tbl
  | None => tbl ++ [r]
  end.

Definition p_named (p : peer) : Prop := no_nul (p_ip p) /\ (length (p_ip p) <= 15)%nat.

(** The servers that a replication thread is for. *)
Definition replicated (own : bytes) (p : peer) : Prop := is_up (p_state p) = true /\ p_ip p <> own.
#[export] Instance replicated_dec own p : Decision (replicated own p).
Proof. unfold replicated. apply _. Defined.

Definition brief_of (p : peer) : block_brief := mk_bbrief (p_state p) (pad 16 (p_ip p)) (p_port p) (p_sequence p).

Record vtable_repr (own : bytes) (v : volume_table) (tbl : list peer) : Prop := {
  vr_blocks : volume_blocks v = (brief_of <$> tbl) ++ replicate (max_blocks - length tbl) no_brief;
  vr_count : blocks_count v = zlen tbl;
  vr_size : (length tbl <= max_blocks)%nat;
  vr_named : Forall p_named tbl;
  vr_distinct : NoDup (p_ip <$> tbl);
  vr_threads : async_threads_count (vt_threads v) = zlen (filter (replicated own) tbl)
}.

(** The bytes of a record. *)
Definition peer_bytes (p : peer) : bytes := long2buff (p_state p) ++ pad 16 (p_ip p) ++ long2buff (p_port p) ++ long2buff (p_sequence p).

Definition peer_ok (p : peer) : Prop := p_named p /\ is_s 32 (p_state p) /\ is_s 32 (p_port p) /\ is_s 64 (p_sequence p).

(** Threads can be created. *)
Definition starts_ok (e : start_thread_env) : Prop := sv_attr e = 0 /\ sv_create e = 0 /\ sv_realloc e = true.

Lemma long_field n b : is_s 64 n -> buff2long (long2buff n ++ b) = Ret n.
Proof. intros Hn. rewrite buff2long_decode. by rewrite s_wrap_id. Qed.

(** The memory from [rec] on starts with the record of [p]. *)
Definition record_at (p : peer) (rec : bytes) : Prop :=
  rec_state rec = Ret (p_state p) /\ rec_port rec = Ret (p_port p) /\ rec_sequence rec = Ret (p_sequence p) /\ exists z, rec_ipaddr rec = p_ip p ++ 0 :: z.

Lemma rec_fields p r : peer_ok p -> record_at p (peer_bytes p ++ r).
Proof.
  intros ([Hn Hl] & Hs & Hp & Hq). unfold record_at, rec_state, rec_port, rec_sequence, rec_ipaddr, peer_bytes. rewrite <- !app_assoc.
  assert (forall n, is_s 32 n -> is_s 64 n) as H64 by (unfold is_s; lia).
  assert (forall n b, drop 8 (long2buff n ++ b) = b) as D8 by done.
  assert (drop 24 (long2buff (p_state p) ++ pad 16 (p_ip p) ++ long2buff (p_port p) ++ long2buff (p_sequence p) ++ r) = long2buff (p_port p) ++ long2buff (p_sequence p) ++ r) as D24
    by (rewrite app_assoc; apply drop_app_length'; rewrite length_app, length_long2buff, length_pad; lia).
  replace 32%nat with (24 + 8)%nat by done. rewrite <- drop_drop, D24, !D8, !long_field by auto. cbn [mbind outcome_bind]. rewrite !s_wrap_id by done.
  split_and!; try done. rewrite pad_nul by lia. rewrite <- !app_assoc. cbn [app]. by eexists.
Qed.

Lemma find_loop_spec ip z pre tbl rest : no_nul ip -> Forall p_named tbl ->
  blocks_find_loop (length tbl) (length pre) (ip ++ 0 :: z) (pre ++ (brief_of <$> tbl) ++ rest) =
    Ret ((fun x => (length pre + x.1)%nat) <$> list_find (fun p => p_ip p = ip) tbl).
Proof.
  intros Hip Hn. revert pre. induction Hn as [|p tbl [Hp Hl] _ IH]; intros pre; [done|]. cbn [length blocks_find_loop list_find]. rewrite fmap_cons.
  rewrite lookup_app_r, Nat.sub_diag by lia. cbn [app lookup list_lookup get_or mbind outcome_bind brief_of bb_ipaddr].
  rewrite (pad_nul 16 (p_ip p)) by lia. rewrite strcmp_eq_nul by done. cbn [mbind outcome_bind].
  destruct (decide (p_ip p = ip)) as [->|Hne].
  - rewrite bool_decide_true by done. cbn. by rewrite Nat.add_0_r.
  - rewrite bool_decide_false by congruence. pose proof (IH (pre ++ [brief_of p])) as IH'. rewrite <- app_assoc, length_app, Nat.add_1_r in IH'.
    cbn [app] in IH' |- *. rewrite IH'. f_equal. destruct (list_find _ tbl) as [[i q]|]; [|done]. cbn. f_equal. lia.
Qed.

Lemma blocks_find_spec own v tbl ip z : vtable_repr own v tbl -> no_nul ip ->
  __local_volume_blocks_find (ip ++ 0 :: z) v = Ret (fst <$> list_find (fun p => p_ip p = ip) tbl).
Proof.
  intros [H1 H2 _ H4 _ _] Hip. unfold __local_volume_blocks_find. rewrite H1, H2. unfold zlen. rewrite Nat2Z.id.
  pose proof (find_loop_spec ip z [] tbl (replicate (max_blocks - length tbl) no_brief) Hip H4) as H. cbn [app length] in H. rewrite H.
  done.
Qed.

Lemma block_lookup own v tbl i p : vtable_repr own v tbl -> tbl !! i = Some p -> volume_blocks v !! i = Some (brief_of p).
Proof. intros [H1 _ _ _ _ _] Hp. rewrite H1, lookup_app_l by (rewrite length_fmap; by apply lookup_lt_Some in Hp). by rewrite list_lookup_fmap, Hp. Qed.

(** The thread for entry [i]. *)
Lemma start_thread_spec cf e v i p : starts_ok e -> no_nul (cf_bind_addr cf) -> p_named p -> volume_blocks v !! i = Some (brief_of p) ->
  exists v' ret, start_thread cf e i v = Ret (v', ret) /\ volume_blocks v' = volume_blocks v /\ blocks_count v' = blocks_count v /\
    async_threads_count (vt_threads v') = async_threads_count (vt_threads v) + (if decide (replicated (cf_bind_addr cf) p) then 1 else 0).
Proof.
  intros (E1 & E2 & E3) Hb [Hp Hl] Hi. unfold start_thread. rewrite Hi. cbn [get_or mbind outcome_bind brief_of bb_state bb_ipaddr].
  unfold async_thread_start. rewrite E1, E2, E3. assert ((p_state p =? state_code active) || (p_state p =? state_code on_line) = is_up (p_state p)) as -> by (unfold is_up; apply orb_comm).
  destruct (is_up (p_state p)) eqn:Eu.
  - rewrite pad_nul, strcmp_eq_nul by (done || lia). cbn [mbind outcome_bind]. destruct (decide (p_ip p = cf_bind_addr cf)) as [Eq|Ne].
    + rewrite bool_decide_true by done. cbn [negb andb]. rewrite decide_False by (unfold replicated; tauto). eexists _, _. split_and!; [reflexivity|done|done|]. cbn. lia.
    + rewrite bool_decide_false by done. cbn [negb andb Z.eqb]. rewrite decide_True by (by split). eexists _, _. split_and!; [reflexivity|done|done|]. done.
  - cbn [mbind outcome_bind andb]. rewrite decide_False by (unfold replicated; rewrite Eu; intros [? _]; done). eexists _, _. split_and!; [reflexivity|done|done|]. cbn. lia.
Qed.

Lemma count_insert {A} (P : A -> Prop) `{!forall x, Decision (P x)} (l : list A) i x y : l !! i = Some x ->
  zlen (filter P (<[i := y]> l)) = zlen (filter P l) - (if decide (P x) then 1 else 0) + (if decide (P y) then 1 else 0).
Proof.
  intros Hi. rewrite insert_take_drop by (by apply lookup_lt_Some in Hi). rewrite <- (take_drop_middle l i x Hi) at 3.
  rewrite !filter_app, !zlen_app, !filter_cons. destruct (decide (P x)), (decide (P y)); rewrite ?zlen_cons; lia.
Qed.

Lemma replicated_refresh own p r : replicated own (refresh p r) <-> replicated own p \/ (was_down (p_state p) && is_up (p_state r) = true /\ p_ip p <> own).
Proof.
  unfold replicated, refresh. cbn [p_state p_ip]. destruct (was_down (p_state p) && is_up (p_state r)) eqn:E.
  - apply andb_prop in E as [_ E]. rewrite E. split; [intros [_ ?]; by right|intros [ [_ ?]|[_ ?] ]; done].
  - split; [by left|]. by intros [?|[? _] ].
Qed.

Lemma was_down_not_up st : was_down st = true -> is_up st = false.
Proof. unfold was_down, is_up. cbn. intros H. repeat (apply orb_prop in H as [H|H]); try done; apply Z.eqb_eq in H; by subst. Qed.

Lemma brief_refresh p r : brief_of (refresh p r) =
  let b := set_bb_sequence (brief_of p) (p_sequence r) in if was_down (p_state p) && is_up (p_state r) then set_bb_state b (p_state r) else b.
Proof. unfold brief_of, refresh. cbn [p_state p_ip p_port p_sequence]. by destruct (was_down (p_state p) && is_up (p_state r)). Qed.

(** A record of a server that is known. *)
Lemma manage_known cf e v tbl r rec i p : starts_ok e -> no_nul (cf_bind_addr cf) -> vtable_repr (cf_bind_addr cf) v tbl -> p_named r -> record_at r rec ->
  list_find (fun p => p_ip p = p_ip r) tbl = Some (i, p) ->
  exists v', manage_record cf e rec v = Ret v' /\ vtable_repr (cf_bind_addr cf) v' (<[i := refresh p r]> tbl).
Proof.
  intros He Hown Hv Hr (R1 & _ & R3 & z & R4) Hfind. unfold manage_record. rewrite R4, (blocks_find_spec _ _ _ _ _ Hv) by apply Hr.
  rewrite Hfind. cbn [fmap option_fmap option_map mbind outcome_bind fst]. apply list_find_Some in Hfind as (Hi & Hip & _). rewrite (block_lookup _ _ _ _ _ Hv Hi).
  cbn [get_or mbind outcome_bind]. rewrite R1, R3. cbn [mbind outcome_bind]. cbn [set_bb_sequence bb_state brief_of].
  pose proof (Forall_lookup_1 _ _ _ _ (vr_named _ _ _ Hv) Hi) as Hpn. pose proof (lookup_lt_Some _ _ _ Hi) as Hlt.
  assert (forall v' , volume_blocks v' = <[i := brief_of (refresh p r)]> (volume_blocks v) -> blocks_count v' = blocks_count v ->
    async_threads_count (vt_threads v') = async_threads_count (vt_threads v) - (if decide (replicated (cf_bind_addr cf) p) then 1 else 0) + (if decide (replicated (cf_bind_addr cf) (refresh p r)) then 1 else 0) ->
    vtable_repr (cf_bind_addr cf) v' (<[i := refresh p r]> tbl)) as Hrepr.
  { intros v' B1 B2 B3. destruct Hv as [H1 H2 H3 H4 H5 H6]. split.
    - rewrite B1, H1, insert_app_l by (by rewrite length_fmap). by rewrite list_fmap_insert, length_insert.
    - rewrite B2, H2. unfold zlen. by rewrite length_insert.
    - by rewrite length_insert.
    - by apply Forall_insert.
    - rewrite list_fmap_insert, list_insert_id; [done|]. rewrite list_lookup_fmap, Hi. done.
    - rewrite B3, H6. symmetry. by apply count_insert. }
  assert (negb (p_state p =? p_state r) && was_down (p_state p) && is_up (p_state r) = was_down (p_state p) && is_up (p_state r)) as ->.
  { destruct (Z.eqb_spec (p_state p) (p_state r)) as [E|]; [|done]. destruct (was_down (p_state p)) eqn:Ed; [|done]. apply was_down_not_up in Ed. by rewrite <- E, Ed. }
  destruct (was_down (p_state p) && is_up (p_state r)) eqn:Ec.
  - set (v1 := set_vt_block _ _ _). assert (volume_blocks v1 !! i = Some (brief_of (refresh p r))) as Hb.
    { unfold v1. cbn. rewrite list_lookup_insert_eq by (rewrite length_insert, (vr_blocks _ _ _ Hv), length_app, length_fmap; lia). by rewrite brief_refresh, Ec. }
    destruct (start_thread_spec cf e v1 i (refresh p r) He Hown Hpn Hb) as (v2 & ret & Hs & S1 & S2 & S3). rewrite Hs. cbn [mbind outcome_bind]. exists v2. split; [done|].
    apply Hrepr; [|by rewrite S2|].
    + rewrite S1. unfold v1. cbn. rewrite list_insert_insert_eq. by rewrite brief_refresh, Ec.
    + rewrite S3. cbn. rewrite (decide_False (P := replicated _ p)); [lia|]. unfold replicated. apply andb_prop in Ec as [Ed _]. apply was_down_not_up in Ed. rewrite Ed. by intros [? _].
  - eexists. split; [reflexivity|]. apply Hrepr; [|done|].
    + by rewrite brief_refresh, Ec.
    + cbn. assert (replicated (cf_bind_addr cf) (refresh p r) <-> replicated (cf_bind_addr cf) p) as Hiff by (rewrite replicated_refresh, Ec; split; [intros [?|[? _] ]; done|tauto]).
      rewrite (decide_ext _ _ _ _ Hiff). lia.
Qed.

(** A record of a new server. *)
Lemma manage_new cf e v tbl r rec : starts_ok e -> no_nul (cf_bind_addr cf) -> vtable_repr (cf_bind_addr cf) v tbl -> p_named r -> record_at r rec ->
  list_find (fun p => p_ip p = p_ip r) tbl = None -> (length tbl < max_blocks)%nat ->
  exists v', manage_record cf e rec v = Ret v' /\ vtable_repr (cf_bind_addr cf) v' (tbl ++ [r]).
Proof.
  intros He Hown Hv [Hn Hl] (R1 & R2 & R3 & z & R4) Hfind Hlt. unfold manage_record. rewrite R4, (blocks_find_spec _ _ _ _ _ Hv) by done.
  rewrite Hfind. cbn [fmap option_fmap option_map mbind outcome_bind]. destruct Hv as [H1 H2 H3 H4 H5 H6].
  assert (volume_blocks v = (brief_of <$> tbl) ++ no_brief :: replicate (max_blocks - S (length tbl)) no_brief) as H1'
    by (rewrite H1; replace (max_blocks - length tbl)%nat with (S (max_blocks - S (length tbl))) by lia; done).
  assert (Z.to_nat (blocks_count v) = length tbl) as Hcnt by (rewrite H2; unfold zlen; lia). unfold __local_volume_blocks_add. rewrite Hcnt, H1'. rewrite lookup_app_r by (rewrite length_fmap; lia). rewrite length_fmap, Nat.sub_diag.
  cbn [lookup list_lookup get_or mbind outcome_bind]. rewrite R1, R2, R3, R4. rewrite c_string_nul by done. cbn [mbind outcome_bind no_brief bb_ipaddr].
  pose proof (buf_write_snoc [] 16 (p_ip r) 0 eq_refl) as W. cbn [app] in W. rewrite W by lia. cbn [mbind outcome_bind].
  set (v1 := mk_vtable _ _ _). change (mk_bbrief (p_state r) (p_ip r ++ zeros (16 - length (p_ip r))) (p_port r) (p_sequence r)) with (brief_of r) in v1.
  assert (volume_blocks v1 = (brief_of <$> tbl ++ [r]) ++ replicate (max_blocks - S (length tbl)) no_brief) as Hb1.
  { unfold v1. cbn [volume_blocks]. rewrite insert_app_r_alt by (rewrite length_fmap; lia). rewrite length_fmap, Nat.sub_diag. cbn. rewrite fmap_app, <- app_assoc. done. }
  destruct (start_thread_spec cf e v1 (length tbl) r He Hown) as (v2 & ret & Hs & S1 & S2 & S3); [done| |].
  { rewrite Hb1, fmap_app, <- app_assoc. rewrite lookup_app_r by (rewrite length_fmap; lia). by rewrite length_fmap, Nat.sub_diag. }
  rewrite Hs. cbn [mbind outcome_bind]. exists v2. split; [done|]. split.
  - rewrite S1, Hb1, length_app. cbn [length]. by rewrite Nat.add_1_r.
  - rewrite S2. unfold v1. cbn. rewrite H2, zlen_app. done.
  - rewrite length_app. cbn. lia.
  - apply Forall_app. split; [done|]. apply Forall_singleton. by split.
  - rewrite fmap_app. apply NoDup_app. split_and!; [done| |apply NoDup_singleton]. intros x Hx. apply list_elem_of_fmap in Hx as (q & -> & Hq). intros Hin.
    apply list_elem_of_fmap in Hin as (q' & Eq & ->%list_elem_of_singleton). apply list_find_None in Hfind. rewrite Forall_forall in Hfind. by apply (Hfind q).
  - rewrite S3, filter_app, zlen_app, filter_cons, filter_nil. unfold v1. cbn [vt_threads]. rewrite H6. destruct (decide _); done.
Qed.

Lemma learn_length tbl r : (length tbl <= length (learn tbl r))%nat.
Proof. unfold learn. destruct (list_find _ tbl) as [[i p]|]; rewrite ?length_insert, ?length_app; lia. Qed.

Lemma learn_all_length tbl rs : (length tbl <= length (foldl learn tbl rs))%nat.
Proof. revert tbl. induction rs as [|r rs IH]; intros tbl; cbn; [done|]. pose proof (learn_length tbl r). specialize (IH (learn tbl r)). lia. Qed.

Lemma length_peer_bytes p : p_named p -> length (peer_bytes p) = 40%nat.
Proof. intros [_ Hl]. unfold peer_bytes. rewrite !length_app, !length_long2buff, length_pad; lia. Qed.

Lemma manage_records_spec cf e k v tbl rs rest : (forall i, starts_ok (e i)) -> no_nul (cf_bind_addr cf) -> vtable_repr (cf_bind_addr cf) v tbl -> Forall peer_ok rs ->
  (length (foldl learn tbl rs) <= max_blocks)%nat ->
  exists v', manage_records cf (length rs) k e (concat (peer_bytes <$> rs) ++ rest) v = Ret v' /\ vtable_repr (cf_bind_addr cf) v' (foldl learn tbl rs).
Proof.
  intros He Hown Hv Hrs. revert k v tbl Hv. induction Hrs as [|r rs Hr Hrs IH]; intros k v tbl Hv Hlen; cbn [length manage_records foldl] in *; [by exists v|].
  rewrite fmap_cons. cbn [concat]. rewrite <- app_assoc. pose proof (rec_fields r (concat (peer_bytes <$> rs) ++ rest) Hr) as Hrec.
  rewrite drop_app_length' by (by rewrite length_peer_bytes by apply Hr). pose proof (learn_all_length (learn tbl r) rs).
  assert (exists v', manage_record cf (e k) (peer_bytes r ++ concat (peer_bytes <$> rs) ++ rest) v = Ret v' /\ vtable_repr (cf_bind_addr cf) v' (learn tbl r)) as (v' & -> & Hv').
  { assert (length (learn tbl r) <= max_blocks)%nat as Hl by lia. clear H IH Hlen. unfold learn in *. destruct (list_find (fun p => p_ip p = p_ip r) tbl) as [[i p]|] eqn:E.
    - apply manage_known; try done. apply Hr.
    - apply manage_new; try done; [apply Hr|]. rewrite length_app in Hl. cbn [length] in Hl. lia. }
  cbn [mbind outcome_bind]. by apply IH.
Qed.

(** ** The tracker's side *)

(** A block of the tracker as the other servers of its volume see it. *)
Definition peer_of (d : datasevr_block) : peer := mk_peer (cstr (ip_addr d)) (state_code (state d)) (port d) (last_sync_sequence d).

Definition block_ok (d : datasevr_block) : Prop :=
  (exists ip, ip_addr d = pad 16 ip /\ no_nul ip /\ (length ip <= 15)%nat) /\ is_s 32 (port d) /\ is_s 64 (last_sync_sequence d).

Lemma peer_of_ok d : block_ok d -> peer_ok (peer_of d) /\ brief d = peer_bytes (peer_of d).
Proof.
  intros ((ip & Hip & Hn & Hl) & Hp & Hs). unfold peer_ok, peer_of, peer_bytes, brief, p_named. cbn [p_ip p_state p_port p_sequence].
  assert (cstr (ip_addr d) = ip) as -> by (rewrite Hip, pad_nul by lia; by apply cstr_app_nul). rewrite Hip. split_and!; try done; by destruct (state d).
Qed.

Lemma briefs_peers ds : Forall block_ok ds -> Forall peer_ok (peer_of <$> ds) /\ brief <$> ds = peer_bytes <$> (peer_of <$> ds).
Proof.
  induction 1 as [|d ds Hd _ [IH1 IH2] ]; [by split; [constructor|]|]. destruct (peer_of_ok d Hd) as [H1 H2]. rewrite !fmap_cons. split; [by constructor|]. by rewrite H2, IH2.
Qed.

(** What [__check_volumeblocks_change] makes of a response that is in the
    stream. *)
Lemma check_change_spec cf e s v tbl ds cmd padding rest s' v' nx : (forall i, starts_ok (e i)) -> no_nul (cf_bind_addr cf) -> vtable_repr (cf_bind_addr cf) v tbl ->
  Forall block_ok ds -> (length ds <= 3)%nat -> (length (foldl learn tbl (peer_of <$> ds)) <= max_blocks)%nat -> length padding = 6%nat ->
  sk_in s = header_bytes (40 * zlen ds) cmd 0 ++ padding ++ concat (brief <$> ds) ++ rest -> __check_volumeblocks_change cf e s v = Ret (s', v', LFS_OK, nx) ->
  vtable_repr (cf_bind_addr cf) v' (foldl learn tbl (peer_of <$> ds)) /\ sk_in s' = rest /\ sk_out s' = sk_out s.
Proof.
  intros He Hown Hv Hds Hn3 Hlen Hpad Hin H. unfold __check_volumeblocks_change in H. apply bind_Ret in H as ([ [s1 r1] n] & Hh & H).
  assert (0 <= zlen ds <= 3) as Hz by (unfold zlen; lia).
  destruct (recvheader_spec s s1 r1 n (40 * zlen ds) cmd 0 padding _ ltac:(lia) ltac:(lia) Hpad Hin Hh) as [Hout Hok].
  destruct (Z.eqb_spec r1 0) as [->|Hne]; cbn [negb] in H; [|injection H as _ _ ? _; done]. destruct (Hok eq_refl) as (_ & -> & Hin1).
  destruct (briefs_peers ds Hds) as [Hps Hbr]. destruct (Z.eqb_spec (40 * zlen ds) 0) as [E0|Hpos].
  { assert (ds = []) as -> by (destruct ds; [done|]; rewrite zlen_cons in E0; pose proof (zlen_pos ds); lia). injection H as <- <- _. cbn in Hin1. by split_and!. }
  assert (length (concat (brief <$> ds)) = (40 * length ds)%nat) as Hlb.
  { rewrite Hbr. clear -Hps. induction ds as [|d ds IH]; [done|]. rewrite !fmap_cons in *. cbn [concat length]. apply Forall_cons in Hps as [Hp Hps].
    rewrite length_app, (IH Hps), length_peer_bytes by apply Hp. lia. }
  unfold client_recvdata_nomalloc in H. change (sizeof_block_brief_info_resp * Z.of_nat max_blocks) with 120 in H.
  destruct (Z.leb_spec (40 * zlen ds) 120) as [_|]; [|lia]. apply bind_Ret in H as ([ [s2 r2] got] & Hr & H).
  apply bind_Ret in Hr as ([ [s2' r2'] got'] & Hr & Hr'). injection Hr' as -> -> ->. rewrite s_wrap_id in Hr by (try done; unfold is_s; lia).
  destruct (recvdata_spec _ _ _ _ _ Hr) as (Hin2 & Hout2 & _ & Hok2). destruct (Z.eqb_spec r2 0) as [->|Hne]; cbn [negb] in H; [|injection H as _ _ ? _; done].
  specialize (Hok2 eq_refl). rewrite Hin1 in Hin2. apply eq_sym, prefix_zlen in Hin2 as [-> Hin2]; [|rewrite Hok2; unfold zlen; rewrite Hlb; unfold zlen in *; lia].
  change sizeof_block_brief_info_resp with 40 in H. rewrite (Z.mul_comm 40), Z.div_mul in H by lia. rewrite s_wrap_id in H by (try done; unfold is_s; lia).
  change (Z.of_nat max_blocks) with 3 in H. destruct (Z.ltb_spec 3 (zlen ds)) as [|_]; [lia|].
  apply bind_Ret in H as ([v2 r3] & Hm & H). injection H as <- <- -> <-. unfold __local_volume_blocks_manager in Hm. destruct (Z.eqb_spec (zlen ds) 0) as [|_]; [lia|].
  apply bind_Ret in Hm as (v3 & Hm & Hm'). injection Hm' as <-. destruct (manage_records_spec cf e 0 v tbl (peer_of <$> ds) [] He Hown Hv Hps Hlen) as (v4 & Hm4 & Hv4).
  rewrite app_nil_r, <- Hbr, length_fmap in Hm4. unfold zlen in Hm. rewrite Nat2Z.id in Hm. rewrite Hm in Hm4. injection Hm4 as <-. split_and!; [done|done|congruence].
Qed.

(** What has been sent when a request has gone out. *)
Lemma senddata_sent sfd s data s' ret : client_senddata sfd s data = Ret (s', ret) -> ret = 0 -> sk_out s' = sk_out s ++ data /\ sk_in s' = sk_in s.
Proof.
  unfold client_senddata. destruct (sfd <=? 0); [by intros [= <- <-]|]. intros H ->. unfold senddata_nblock in H.
  apply (senddata_loop_spec _ _ _ _ _ _ _ (le_n _)) in H as (k & H1 & H2 & H3). by rewrite H1, (H3 eq_refl).
Qed.

(** ** Theorems *)

(** C11. From server to server, for a volume of which at most two other servers are
    reported and whose table in the data server has room for them (threads can be
    created): the tracker answers a heartbeat with the other servers of the volume,
    and a data server that takes the answer as a success has exactly the table that
    [learn] makes of its own.  A server that was not known is added at the end with
    its address, state, port and sequence; of one that is known the sequence is
    taken over, the state only when it comes up, and the old port stays.  Every
    address is in the table once, and there are as many replication threads as
    entries that are recorded as up, the server's own apart. *)
Theorem heartbeat_learns hash_func interval garbage e t c M bs b d cf es v tbl :
  let m := cf_map_info cf in let ip := cf_bind_addr cf in
  let s1 := put_block (tk_store t) b (set_state (set_heartbeat d (now e 0)) active) in
  let ps := peers s1 (pad 16 ip) bs in
  members (tk_store t) (tk_cluster t) M -> M !! hash_func m = Some bs ->
  cluster_datasevrblock_find hash_func (tk_store t) (tk_cluster t) m ip = Ret (Some b) ->
  st_blocks (tk_store t) !! b = Some d -> ip_addr d = pad 16 ip -> Forall (addressed (tk_store t)) bs ->
  named m ip -> at_rcurr c (request m ip []) -> wbuff c = zeros (length (wbuff c)) -> (96 <= length (wbuff c))%nat ->
  (forall k, now e k - now e 0 <= interval) -> (length ps <= 2)%nat ->
  Forall block_ok ps -> (forall i, starts_ok (es i)) -> vtable_repr ip v tbl -> (length (foldl learn tbl (peer_of <$> ps)) <= max_blocks)%nat ->
  exists c', dispatch_cmd hash_func interval garbage e t c PROTOCOL_CMD_DATASERVER_HEARTBEAT = Ret (with_store t s1, c') /\
    forall sfd s s' v' nx rest, sk_in s = response c' ++ rest -> __tracker_hearbeat cf es sfd s v = Ret (s', v', LFS_OK, nx) ->
      sk_out s' = sk_out s ++ header_bytes 50 PROTOCOL_CMD_DATASERVER_HEARTBEAT 0 ++ zeros 6 ++ request m ip [] /\
      sk_in s' = rest /\ vtable_repr ip v' (foldl learn tbl (peer_of <$> ps)).
Proof.
  intros m ip s1 ps Hm HM Hfind Hb Hip Haddr Hn Hc Hw Hroom Hclk Hps Hok Hes Hv Hlen. unfold request in Hc.
  destruct (heartbeat_answer hash_func interval garbage e t c m ip _ M bs b d Hm HM Hfind Hb Hip Haddr Hn Hc Hw Hroom Hclk Hps) as (c' & Hd & Hr & _).
  exists c'. split; [exact Hd|]. intros sfd s s' v' nx rest Hin H. unfold __tracker_hearbeat in H. rewrite (tracker_request_bytes cf (cf_map_info cf) _ [] Hn) in H. cbn [mbind outcome_bind] in H.
  apply bind_Ret in H as ([s2 r2] & Hs & H). destruct (Z.eqb_spec r2 0) as [->|Hne]; cbn [negb] in H; [|injection H as _ _ ? _; done].
  apply senddata_sent in Hs as [Hout Hin2]; [|done]. rewrite Hr, <- !app_assoc in Hin. rewrite <- Hin2 in Hin. change (Z.of_nat (length ps)) with (zlen ps) in Hin.
  apply (check_change_spec cf es s2 v tbl ps _ (zeros 6) rest s' v' nx Hes (proj1 (proj2 Hn)) Hv Hok ltac:(lia) Hlen eq_refl Hin) in H as (Hv' & Hin' & Hout'). split_and!; [|done|done].
  by rewrite Hout', Hout.
Qed.

(** C12. A data server that has registered is in the registry of the tracker as it is
    configured: when [__tracker_register] returns 0 its request has gone out, and
    a tracker with memory that does not know the server stores its address, port,
    weight and interval and answers with success, except when the volume is new,
    the volume table is growing and the bit that the growth adds is set in the id
    of the volume: then the tracker writes past the end of the old array instead of
    answering. *)
Theorem registered_as_configured hash_func interval garbage e t M cf now started sfd s s' : let m := cf_map_info cf in let ip := cf_bind_addr cf in
  tracker_ok t M -> (forall n, st_oracle (tk_store t) n = true) ->
  named m ip -> cluster_datasevrblock_find hash_func (tk_store t) (tk_cluster t) m ip = Ret None ->
  Forall (is_s 32) [cf_bind_port cf; cf_weight cf; cf_heart_beat_interval cf] -> __tracker_register cf now started sfd s = Ret (s', 0) ->
  exists body, sk_out s' = sk_out s ++ header_bytes (zlen body) PROTOCOL_CMD_DATASERVER_REGISTER 0 ++ zeros 6 ++ body /\
    forall c, clean c -> at_rcurr c body ->
      if past_old_array hash_func t M m then dispatch_cmd hash_func interval garbage e t c PROTOCOL_CMD_DATASERVER_REGISTER = Crash OutOfBounds
      else exists t' c' b d, dispatch_cmd hash_func interval garbage e t c PROTOCOL_CMD_DATASERVER_REGISTER = Ret (t', c') /\
      response c' = header_bytes 0 PROTOCOL_CMD_DATASERVER_REGISTER 0 ++ zeros 6 /\
      cluster_datasevrblock_find hash_func (tk_store t') (tk_cluster t') m ip = Ret (Some b) /\ st_blocks (tk_store t') !! b = Some d /\
      ip_addr d = pad 16 ip /\ port d = cf_bind_port cf /\ weight d = cf_weight cf /\ heart_beat_interval d = cf_heart_beat_interval cf.
Proof.
  intros m ip Ht Ho Hn Hf Hcf H. unfold __tracker_register in H. rewrite (tracker_request_bytes cf _ _ _ Hn) in H. cbn [mbind outcome_bind] in H. unfold exchange in H.
  apply bind_Ret in H as ([s2 r2] & Hs & H). destruct (Z.eqb_spec r2 0) as [->|Hne]; cbn [negb] in H; [|injection H as _ ?; done].
  apply senddata_sent in Hs as [Hout _]; [|done]. apply bind_Ret in H as ([ [s3 r3] n] & Hh & H). injection H as <- ->.
  assert (sk_out s3 = sk_out s2) as Hout3.
  { clear -Hh. unfold client_recvheader in Hh. apply bind_Ret in Hh as ([ [s4 r4] g] & Hr & Hh). destruct (recvdata_spec _ _ _ _ _ Hr) as (_ & Ho & _).
    destruct (negb (r4 =? 0)); [by injection Hh as <- _ _|]. apply bind_Ret in Hh as (st & _ & Hh). destruct (negb (st =? _)); [by injection Hh as <- _ _|].
    apply bind_Ret in Hh as (n' & _ & Hh). destruct (_ <? 0); [done|]. by injection Hh as <- _. }
  set (body := request (cf_map_info cf) (cf_bind_addr cf) [cf_bind_port cf; cf_weight cf; cf_heart_beat_interval cf; now; started]) in *. exists body. split.
  - rewrite Hout3, Hout. assert (zlen body = 90) as ->; [|done]. unfold body, request, name_fields, zlen. destruct Hn as (_ & _ & ? & ?). rewrite !length_app, !length_pad by (unfold m, ip in *; lia). done.
  - intros c Hcl Hc. destruct (past_old_array hash_func t M m) eqn:Ep.
    { unfold dispatch_cmd. rewrite Z.eqb_refl. by rewrite (register_overrun hash_func e t c m ip _ _ _ _ _ M Ht Ho Ep Hn Hc Hf). }
    destruct (register_new hash_func e t c m ip _ _ _ _ _ M Ht Ho (past_old_array_false _ _ _ _ Ep) Hn Hc Hcl Hf) as (t' & c' & b & d & Hr & Hresp & _ & _ & Hfind & Hd & Hip & Hp & Hw & Hi & _).
    exists t', c', b, d. rewrite !Forall_cons in Hcf. destruct Hcf as (C1 & C2 & C3 & _). assert (forall n, is_s 32 n -> s32 (s64 n) = n) as W by (intros n' Hn'; rewrite (s_wrap_id 64 n'), (s_wrap_id 32 n'); try done; unfold is_s in *; lia).
    rewrite W in Hp, Hw, Hi by done. split_and!; try done. unfold dispatch_cmd. by rewrite Hr.
Qed.

Lemma machine_next cf m e rounds t t1 : do_run t = true -> te_run e = true -> tc_step cf m e t = Ret t1 ->
  __trackerclient_state_machine cf m (e :: rounds) t = __trackerclient_state_machine cf m rounds t1.
Proof. intros H1 H2 H3. cbn [__trackerclient_state_machine]. by rewrite H1, H2, H3. Qed.

(** The connection to a tracker that is quitted is never opened again: the state
    stays [quited], and every round counts another connection as closed. *)
Theorem quited_forever cf m rounds t : Forall (fun e => te_run e = true) rounds -> do_run t = true -> tcn_state (tc_conn t) = quited ->
  exists t', __trackerclient_state_machine cf m rounds t = Ret t' /\ tcn_state (tc_conn t') = quited /\ do_run t' = true /\
    curr_conn_count (tc_counts t') = curr_conn_count (tc_counts t) - zlen rounds.
Proof.
  intros Hr. revert t. induction Hr as [|e rounds He _ IH]; intros t Hrun Hst.
  - exists t. split_and!; try done. change (zlen (@nil tc_env)) with 0. lia.
  - destruct (IH (trackerclientconn_close (tc_set_sock t (tc_sock t)))) as (t' & H1 & H2 & H3 & H4); [done|done|]. exists t'. split_and!; try done.
    + rewrite <- H1. apply machine_next; [done|done|]. unfold tc_step. rewrite Hst. unfold step_quited. by rewrite Hrun.
    + rewrite H4, zlen_cons. cbn. lia.
Qed.

(** While a tracker cannot be reached, every attempt to connect lowers the number
    of connections that this server reports to the others as its load. *)
Theorem unreachable_tracker_drifts cf m cycles t : do_run t = true -> tcn_state (tc_conn t) = connectd ->
  Forall (fun x => te_run x.1 = true /\ te_run x.2 = true /\ 0 <= te_socket x.1 /\ te_connect x.1 <> 0) cycles ->
  exists t', __trackerclient_state_machine cf m (concat ((fun x => [x.1; x.2]) <$> cycles)) t = Ret t' /\ tcn_state (tc_conn t') = connectd /\ do_run t' = true /\
    curr_conn_count (tc_counts t') = curr_conn_count (tc_counts t) - zlen cycles /\ total_conn_count (tc_counts t') = total_conn_count (tc_counts t).
Proof.
  intros Hrun Hst Hc. revert t Hrun Hst. induction Hc as [|[e1 e2] cycles (R1 & R2 & Hs & Hcn) _ IH]; intros t Hrun Hst.
  - exists t. split_and!; try done. change (zlen (@nil (tc_env * tc_env))) with 0. lia.
  - rewrite fmap_cons. cbn [concat app fst snd] in *.
    assert (exists c, step_connectd e1 t = set_trackerclientconn_state (tc_set_conn t c) closed) as [c Hc1].
    { unfold step_connectd. rewrite (proj2 (Z.ltb_ge _ _) Hs), (proj2 (Z.eqb_neq _ _) Hcn). cbn [negb]. unfold state_if.
      destruct (negb (te_bind e1 =? 0)), (negb (te_noblock e1 =? 0)), (negb (te_sockopt e1 =? 0)); by eexists (tc_conn (tc_set_sfd t (te_socket e1))). }
    rewrite (machine_next cf m e1 _ t (step_connectd e1 t)) by (done || (unfold tc_step; by rewrite Hst)). rewrite Hc1.
    set (t1 := set_trackerclientconn_state _ _). rewrite (machine_next cf m e2 _ t1 (set_trackerclientconn_state (trackerclientconn_close t1) connectd)) by done.
    set (t2 := set_trackerclientconn_state (trackerclientconn_close t1) _). destruct (IH t2) as (t' & H1 & H2 & H3 & H4 & H5); [done|done|].
    exists t'. split_and!; [exact H1|done|done| |]; [rewrite H4, zlen_cons; cbn; lia|by rewrite H5].
Qed.

(** ** The state machine and a tracker that has forgotten the server *)

Lemma registered_nextto t nx : is_local_haseregistered (tc_set_nextto t nx) = is_local_haseregistered t.
Proof. by destruct nx. Qed.

Lemma report_registered due send bad t t' go : (forall t1 r, send t = Ret (t1, r) -> is_local_haseregistered t1 = is_local_haseregistered t) ->
  report due send bad t = Ret (t', go) -> is_local_haseregistered t' = is_local_haseregistered t.
Proof.
  intros Hs H. unfold report in H. destruct due; [|by injection H as <- _]. apply bind_Ret in H as ([t1 r] & H1 & H). injection H as H. specialize (Hs t1 r H1).
  destruct (negb (r =? 0)); injection H as <- _; done.
Qed.

Lemma step_registered cf m e t t' : is_local_haseregistered t = true -> tc_step cf m e t = Ret t' -> is_local_haseregistered t' = true.
Proof.
  intros Hr H. unfold tc_step in H. destruct (tcn_state (tc_conn t)).
  - injection H as <-. unfold step_connectd, state_if. by repeat (case_match; cbn; try done).
  - unfold step_registerd in H. rewrite Hr in H. by injection H as <-.
  - unfold step_fullsync in H. cbv zeta in H. ret_inv H; injection H as <-; cbn; rewrite ?registered_nextto; done.
  - unfold step_reporting in H. cbv zeta in H. apply bind_Ret in H as ([t1 go1] & H1 & H). apply report_registered in H1; cycle 1.
    { intros t2 r H2. apply bind_Ret in H2 as ([ [ [s2 v2] r2] nx] & _ & H2). injection H2 as H2 _. subst t2. destruct (r2 =? 0); cbn; by rewrite registered_nextto. }
    destruct (negb go1); [injection H as <-; by rewrite H1|]. apply bind_Ret in H as ([t2 go2] & H2 & H). apply report_registered in H2; cycle 1.
    { intros t3 r H3. apply bind_Ret in H3 as ([s3 r3] & _ & H3). injection H3 as H3 _. subst t3. by destruct (r3 =? 0). }
    destruct (negb go2); [injection H as <-; by rewrite H2, H1|]. apply bind_Ret in H as ([t3 go3] & H3 & H). apply report_registered in H3; cycle 1.
    { intros t4 r H4. apply bind_Ret in H4 as ([s4 r4] & _ & H4). injection H4 as H4 _. subst t4. by destruct (r4 =? 0). }
    injection H as <-. by rewrite H3, H2, H1.
  - unfold step_quited in H. apply bind_Ret in H as ([s r] & _ & H). by injection H as <-.
  - by injection H as <-.
Qed.

Lemma machine_registered cf m rounds t t' : is_local_haseregistered t = true -> __trackerclient_state_machine cf m rounds t = Ret t' -> is_local_haseregistered t' = true.
Proof.
  revert t. induction rounds as [|e rounds IH]; intros t Hr H; cbn [__trackerclient_state_machine] in H; [by injection H as <-|].
  destruct (do_run t && te_run e); [|by injection H as <-]. apply bind_Ret in H as (t1 & H1 & H). apply IH in H; [done|]. by eapply step_registered.
Qed.

(** The rounds of one connection: it is closed, opened again, and the first
    heartbeat on it is refused. *)
Record refused_cycle (cf : ds_conf) (x : tc_env * tc_env * tc_env * tc_env * tc_env) : Prop := {
  rc_run : Forall (fun e => te_run e = true) [x.1.1.1.1; x.1.1.1.2; x.1.1.2; x.1.2; x.2];
  rc_socket : 0 <= te_socket x.1.1.1.2;
  rc_connect : te_connect x.1.1.1.2 = 0;
  rc_due : cf_heart_beat_interval cf <= te_time x.2;
  rc_refused v : exists s ret nx, __tracker_hearbeat cf (te_start x.2) (te_socket x.1.1.1.2) (te_sock x.1.1.1.2) v = Ret (s, v, ret, nx) /\ ret <> 0
}.

Definition cycle_rounds (x : tc_env * tc_env * tc_env * tc_env * tc_env) : list tc_env := [x.1.1.1.1; x.1.1.1.2; x.1.1.2; x.1.2; x.2].

(** Where the thread is between two connections. *)
Definition waiting (v : volume_table) (t : tclient) : Prop :=
  tcn_state (tc_conn t) = closed /\ do_run t = true /\ is_local_haseregistered t = true /\ is_local_hasefullsync t = true /\ tc_volume t = v.

Lemma report_fails send bad t t1 ret : send t = Ret (t1, ret) -> ret <> 0 -> report true send bad t = Ret (set_trackerclientconn_state t1 bad, false).
Proof. intros H Hne. unfold report. rewrite H. cbn [mbind outcome_bind]. by rewrite (proj2 (Z.eqb_neq _ _) Hne). Qed.

Lemma reporting_refused cf m e t s v ret nx : cf_heart_beat_interval cf <= te_time e - last_heartbeat (tc_conn t) ->
  __tracker_hearbeat cf (te_start e) (tcn_sfd (tc_conn t)) (tc_sock t) (tc_volume t) = Ret (s, v, ret, nx) -> ret <> 0 ->
  step_reporting cf m e t = Ret (set_trackerclientconn_state (tc_set_nextto (tc_set_volume (tc_set_sock t s) v) nx) closed).
Proof.
  intros Hd Hh Hne. unfold step_reporting. cbv zeta. rewrite (proj2 (Z.leb_le _ _) Hd).
  rewrite (report_fails _ closed t (tc_set_nextto (tc_set_volume (tc_set_sock t s) v) nx) ret); [done| |done]. rewrite Hh. cbn [mbind outcome_bind]. by rewrite (proj2 (Z.eqb_neq _ _) Hne).
Qed.

Lemma cycle_refused cf m x rounds v t : refused_cycle cf x -> waiting v t ->
  exists t', __trackerclient_state_machine cf m (cycle_rounds x ++ rounds) t = __trackerclient_state_machine cf m rounds t' /\ waiting v t'.
Proof.
  destruct x as [ [ [ [e1 e2] e3] e4] e5]. intros [Hrun Hs Hc Hd Hr] (H1 & H2 & H3 & H4 & H5). cbn [fst snd cycle_rounds app] in *. rewrite !Forall_cons in Hrun. destruct Hrun as (R1 & R2 & R3 & R4 & R5 & _).
  set (t1 := set_trackerclientconn_state (trackerclientconn_close t) connectd). rewrite (machine_next cf m e1 _ t t1) by (done || (unfold tc_step; by rewrite H1)).
  assert (exists c, step_connectd e2 t1 = tc_set_counts (tc_set_conn (tc_set_sock t1 (te_sock e2)) c) (conn_opened (tc_counts t1)) /\
    tcn_state c = registerd /\ tcn_sfd c = te_socket e2 /\ last_heartbeat c = 0) as (c & Hc1 & Hst & Hsfd & Hhb).
  { unfold step_connectd. rewrite (proj2 (Z.ltb_ge _ _) Hs), Hc. cbn [negb Z.eqb]. unfold state_if.
    destruct (negb (te_bind e2 =? 0)), (negb (te_noblock e2 =? 0)), (negb (te_sockopt e2 =? 0)); eexists; split; try reflexivity; done. }
  rewrite (machine_next cf m e2 _ t1 (step_connectd e2 t1)) by done. rewrite Hc1. set (t2 := tc_set_counts _ _). clear Hc1.
  rewrite (machine_next cf m e3 _ t2 (set_trackerclientconn_state t2 fullsync)); [|done|done|]; cycle 1.
  { unfold tc_step. cbn [tc_conn t2 tc_set_counts tc_set_conn]. rewrite Hst. unfold step_registerd. cbn. by rewrite H3. }
  set (t3 := set_trackerclientconn_state t2 fullsync). rewrite (machine_next cf m e4 _ t3 (set_trackerclientconn_state t3 reporting)); [|done|done|]; cycle 1.
  { unfold tc_step. cbn [tc_conn t3 set_trackerclientconn_state tc_set_conn tcn_state]. unfold step_fullsync. cbn. by rewrite H4. }
  set (t4 := set_trackerclientconn_state t3 reporting). destruct (Hr v) as (s & ret & nx & Hh & Hne).
  set (t5 := set_trackerclientconn_state (tc_set_nextto (tc_set_volume (tc_set_sock t4 s) v) nx) closed). exists t5. rewrite (machine_next cf m e5 _ t4 t5); [|done|done|]; cycle 1.
  { unfold tc_step. cbn [tc_conn t4 set_trackerclientconn_state tc_set_conn tcn_state]. fold t4. apply (reporting_refused cf m e5 t4 s v ret nx); [| |done].
    - cbn. rewrite Hhb, Z.sub_0_r. exact Hd.
    - cbn. rewrite Hsfd, H5. exact Hh. }
  split; [done|]. unfold waiting, t5. destruct nx; by cbn.
Qed.

(** A server that a tracker has forgotten (it was restarted, say) is never
    registered again: whatever it meets, a thread that has registered once passes
    over the registration without a request; and while the tracker refuses its
    heartbeats it connects again and again and learns nothing. *)
Theorem never_registers_again cf m t v : waiting v t ->
  (forall rounds e t', __trackerclient_state_machine cf m rounds t = Ret t' -> tcn_state (tc_conn t') = registerd ->
     tc_step cf m e t' = Ret (set_trackerclientconn_state t' fullsync)) /\
  (forall cycles, Forall (refused_cycle cf) cycles -> exists t', __trackerclient_state_machine cf m (concat (cycle_rounds <$> cycles)) t = Ret t' /\ waiting v t').
Proof.
  intros Hw. split.
  - intros rounds e t' H Hst. destruct Hw as (_ & _ & Hr & _). apply machine_registered in H; [|done]. unfold tc_step. rewrite Hst. unfold step_registerd. by rewrite H.
  - intros cycles Hc. revert t Hw. induction Hc as [|x cycles Hx _ IH]; intros t Hw; [by exists t|]. rewrite fmap_cons. cbn [concat].
    destruct (cycle_refused cf m x (concat (cycle_rounds <$> cycles)) v t Hx Hw) as (t1 & H1 & Hw1). destruct (IH t1 Hw1) as (t' & H2 & Hw2). exists t'. by rewrite H1.
Qed.

(** A server that is up stays up in the table, whatever the tracker reports of it
    later: that it is off line or deleted is not taken over, and its replication
    thread goes on. *)
Lemma learn_keeps_up tbl r i p : tbl !! i = Some p -> is_up (p_state p) = true -> exists q, learn tbl r !! i = Some q /\ p_state q = p_state p /\ p_ip q = p_ip p.
Proof.
  intros Hi Hu. unfold learn. destruct (list_find _ tbl) as [[j q]|] eqn:E.
  - apply list_find_Some in E as (Hj & _ & _). destruct (decide (i = j)) as [<-|Hne].
    + rewrite list_lookup_insert_eq by (by apply lookup_lt_Some in Hi). rewrite Hi in Hj. injection Hj as <-. eexists. split; [done|]. unfold refresh. cbn [p_state p_ip].
      destruct (was_down (p_state p)) eqn:Ed; [|done]. apply was_down_not_up in Ed. congruence.
    + rewrite list_lookup_insert_ne by done. by exists p.
  - rewrite lookup_app_l by (by apply lookup_lt_Some in Hi). by exists p.
Qed.

Lemma learn_all_keeps_up rs tbl i p : tbl !! i = Some p -> is_up (p_state p) = true -> exists q, foldl learn tbl rs !! i = Some q /\ p_state q = p_state p /\ p_ip q = p_ip p.
Proof.
  revert tbl p. induction rs as [|r rs IH]; intros tbl p Hi Hu; cbn; [by exists p|]. destruct (learn_keeps_up tbl r i p Hi Hu) as (q & Hq & Hs & Hip).
  destruct (IH (learn tbl r) q Hq) as (q' & Hq' & Hs' & Hip'); [by rewrite Hs|]. exists q'. split_and!; congruence.
Qed.

(** The state of a server that has come up is never changed again: the records of
    any later responses that say it is off line or deleted are not taken over. *)
Theorem down_never_noticed cf e k v tbl rs rest v' i p : (forall i, starts_ok (e i)) -> no_nul (cf_bind_addr cf) -> vtable_repr (cf_bind_addr cf) v tbl -> Forall peer_ok rs ->
  (length (foldl learn tbl rs) <= max_blocks)%nat -> tbl !! i = Some p -> is_up (p_state p) = true ->
  manage_records cf (length rs) k e (concat (peer_bytes <$> rs) ++ rest) v = Ret v' ->
  exists b, volume_blocks v' !! i = Some b /\ bb_state b = p_state p /\ bb_ipaddr b = pad 16 (p_ip p).
Proof.
  intros He Hown Hv Hrs Hlen Hi Hu H. destruct (manage_records_spec cf e k v tbl rs rest He Hown Hv Hrs Hlen) as (v2 & H2 & Hv2). rewrite H in H2. injection H2 as <-.
  destruct (learn_all_keeps_up rs tbl i p Hi Hu) as (q & Hq & Hs & Hip). exists (brief_of q). split; [by eapply block_lookup|]. cbn. by rewrite Hs, Hip.
Qed.

(** The table has room for three servers and no test: the record of a fourth one
    is written behind it. *)
Theorem fourth_server_overflows cf e v tbl r rec : vtable_repr (cf_bind_addr cf) v tbl -> length tbl = max_blocks -> p_named r -> record_at r rec ->
  Forall (fun p => p_ip p <> p_ip r) tbl -> manage_record cf e rec v = Crash OutOfBounds.
Proof.
  intros Hv Hl [Hn _] (_ & _ & _ & z & R4) Hnew. unfold manage_record. rewrite R4, (blocks_find_spec _ _ _ _ _ Hv) by done.
  rewrite (proj2 (list_find_None (fun p => p_ip p = p_ip r) tbl)) by done. cbn [fmap option_fmap option_map mbind outcome_bind].
  destruct Hv as [H1 H2 _ _ _ _]. unfold __local_volume_blocks_add. rewrite H1, H2, Hl. rewrite lookup_ge_None_2; [done|].
  rewrite length_app, length_fmap, length_replicate. unfold zlen. rewrite Nat2Z.id. lia.
Qed.

(** ** The list of the trackers *)

Definition tracker_entry (x : bytes * Z) : bytes := x.1 ++ 58 :: pr_dec x.2.
Definition tracker_ok_entry (x : bytes * Z) : Prop := x.1 <> [] /\ lacks 58 x.1 /\ lacks 124 x.1 /\ (length x.1 <= 16)%nat /\ is_s 32 x.2.

Lemma mem_single c d : c <> d -> mem c [d] = false.
Proof. intros H. cbn. by rewrite (proj2 (Z.eqb_neq _ _) H). Qed.

Lemma strpbrk_lacks d tok : lacks d tok -> strpbrk tok [d] = None /\ forall rest, strpbrk (tok ++ d :: rest) [d] = Some (tok, rest).
Proof.
  induction 1 as [|c tok Hc _ [IH1 IH2] ]; cbn [strpbrk app].
  - split; [done|]. intros rest. unfold mem. cbn. by rewrite Z.eqb_refl.
  - rewrite mem_single by done. split; [by rewrite IH1|]. intros rest. by rewrite IH2.
Qed.

Lemma strtok_first d tok rest : tok <> [] -> lacks d tok -> strtok_r (tok ++ d :: rest) [d] = (Some tok, rest).
Proof.
  intros Hne Hl. destruct (strpbrk_lacks d tok Hl) as [_ Hp]. destruct Hl as [|c tok Hc Hl]; [done|]. unfold strtok_r. cbn [app strspn_drop]. rewrite mem_single by done.
  change (c :: tok ++ d :: rest) with ((c :: tok) ++ d :: rest). by rewrite Hp.
Qed.

Lemma strtok_last d tok : tok <> [] -> lacks d tok -> strtok_r tok [d] = (Some tok, []).
Proof.
  intros Hne Hl. destruct (strpbrk_lacks d tok Hl) as [Hp _]. destruct Hl as [|c tok Hc Hl]; [done|]. unfold strtok_r. cbn [app strspn_drop]. rewrite mem_single by done. by rewrite Hp.
Qed.

Lemma slot_free i : (i < 32)%nat -> slot_ok i = Ret tt.
Proof. intros Hi. unfold slot_ok. by rewrite (proj2 (Nat.ltb_lt _ _) Hi). Qed.

Lemma tokens_next f s i index l tok rest x y : (i < 32)%nat -> strtok_r s [58] = (Some tok, rest) -> l !! index = Some x ->
  (if Nat.even i then ip ← buf_write (ti_ip_addr x) 0 tok; Ret (ti_set_ip x ip) else Ret (ti_set_port x (atoi tok))) = Ret y ->
  info_tokens (S f) s i index l = info_tokens f rest (S i) index (<[index := y]> l).
Proof.
  intros Hi Hs Hx Hy. cbn [info_tokens]. rewrite slot_free by done. cbn [mbind outcome_bind]. change (str ":") with [58]. rewrite Hs. unfold update_tracker. rewrite Hx.
  cbn [get_or mbind outcome_bind]. cbn [mbind outcome_bind] in Hy. by rewrite Hy.
Qed.

Lemma tokens_end f i index l : (i < 32)%nat -> info_tokens f [] i index l = Ret (i, l).
Proof. intros Hi. destruct f; cbn [info_tokens]; by rewrite slot_free. Qed.

(** The tokens of one entry: three entries of [p] are used. *)
Lemma info_tokens_entry x i index l : tracker_ok_entry x -> Nat.even i = true -> (i < 31)%nat -> l !! index = Some no_tracker ->
  info_tokens (length (tracker_entry x)) (tracker_entry x) i index l =
    if (i + 2 <? 32)%nat then Ret ((i + 2)%nat, <[index := mk_tinfo 0 x.2 (pad 16 x.1)]> l) else Crash OutOfBounds.
Proof.
  destruct x as [ip p]. intros (Hne & H58 & _ & Hlen & Hp) Hi Hlt Hx. cbn [fst snd] in *. unfold tracker_entry. cbn [fst snd].
  assert (exists n, length (ip ++ 58 :: pr_dec p) = S (S n)) as [n ->].
  { destruct ip as [|c ip]; [done|]. cbn [app length]. rewrite length_app. cbn [length]. eexists. rewrite Nat.add_succ_r. reflexivity. }
  pose proof (buf_write_snoc [] 16 ip 0 eq_refl) as W. cbn [app] in W. specialize (W Hlen).
  rewrite (tokens_next _ _ i index l ip (pr_dec p) no_tracker (mk_tinfo 0 0 (pad 16 ip))); [|lia|by apply strtok_first|done|rewrite Hi; cbn [no_tracker ti_ip_addr]; by rewrite W].
  rewrite (tokens_next _ _ (S i) index _ (pr_dec p) [] (mk_tinfo 0 0 (pad 16 ip)) (mk_tinfo 0 p (pad 16 ip))); [|lia| | |].
  - destruct (Nat.ltb_spec (i + 2) 32) as [Hin|Hout].
    + rewrite tokens_end by lia. rewrite list_insert_insert_eq. do 2 f_equal. lia.
    + assert (i = 30)%nat as -> by lia. by destruct n.
  - apply strtok_last; [by apply pr_dec_nonempty|]. apply pr_dec_lacks; cbn; lia.
  - by rewrite list_lookup_insert_eq by (by apply lookup_lt_Some in Hx).
  - rewrite Nat.even_succ, <- Nat.negb_even, Hi. cbn [negb]. unfold ti_set_port. by rewrite atoi_pr_int.
Qed.

Definition tracker_infos (k : nat) (xs : list (bytes * Z)) : list tracker_info := imap (fun i x => mk_tinfo (Z.of_nat (k + i)) x.2 (pad 16 x.1)) xs.

Lemma tracker_entry_lacks x : tracker_ok_entry x -> tracker_entry x <> [] /\ lacks 124 (tracker_entry x).
Proof.
  destruct x as [ip p]. intros (Hne & _ & H & _ & _). unfold tracker_entry. cbn in *. split; [by destruct ip|]. apply Forall_app. split; [done|].
  constructor; [done|]. apply pr_dec_lacks; cbn; lia.
Qed.

Lemma strtok_join d e es : e <> [] -> lacks d e -> strtok_r (join d (e :: es)) [d] = (Some e, join d es).
Proof. intros Hne Hl. destruct es as [|e' es]; [by apply strtok_last|]. by apply strtok_first. Qed.

(** The entries from [xs] on; those before have been stored. *)
Lemma info_entries_spec xs : forall fuel stored, Forall tracker_ok_entry xs -> (length xs <= fuel)%nat -> (length stored <= 15)%nat ->
  info_entries fuel (join 124 (tracker_entry <$> xs)) (2 * length stored) (length stored) (stored ++ replicate (length xs) no_tracker) =
    if (length stored + length xs <=? 15)%nat then Ret (stored ++ tracker_infos (length stored) xs) else Crash OutOfBounds.
Proof.
  induction xs as [|x xs IH]; intros fuel stored Hok Hf Hs.
  - rewrite Nat.add_0_r, (proj2 (Nat.leb_le _ _) Hs). cbn. destruct fuel; cbn [info_entries]; by rewrite slot_free by lia.
  - apply Forall_cons in Hok as [Hx Hok]. destruct (tracker_entry_lacks x Hx) as [Hne Hl]. rewrite fmap_cons. destruct fuel as [|fuel]; [cbn in Hf; lia|]. cbn [length] in Hf.
    cbn [info_entries]. rewrite slot_free by lia. cbn [mbind outcome_bind]. change (str "|") with [124]. rewrite strtok_join by done. cbn [length replicate].
    rewrite info_tokens_entry; [|done|by rewrite Nat.even_mul|lia|by rewrite lookup_app_r, Nat.sub_diag by lia].
    destruct (Nat.ltb_spec (2 * length stored + 2) 32) as [Hin|Hout]; cycle 1.
    { cbn [mbind outcome_bind]. by rewrite (proj2 (Nat.leb_gt _ _)) by lia. }
    cbn [mbind outcome_bind]. unfold update_tracker. rewrite insert_app_r_alt, Nat.sub_diag by lia. cbn [insert list_insert]. rewrite lookup_app_r, Nat.sub_diag by lia.
    cbn [lookup list_lookup get_or mbind outcome_bind]. rewrite insert_app_r_alt, Nat.sub_diag by lia. cbn [insert list_insert ti_set_index ti_port ti_ip_addr].
    specialize (IH fuel (stored ++ [mk_tinfo (Z.of_nat (length stored)) x.2 (pad 16 x.1)]) Hok ltac:(lia)).
    rewrite length_app in IH. cbn [length] in IH. specialize (IH ltac:(lia)). rewrite <- app_assoc in IH. cbn [app] in IH.
    change (ti_set_index _ _) with (mk_tinfo (Z.of_nat (length stored)) x.2 (pad 16 x.1)).
    replace (2 * length stored + 2)%nat with (2 * (length stored + 1))%nat by lia. replace (S (length stored)) with (length stored + 1)%nat by lia. rewrite IH.
    replace (length stored + S (length xs))%nat with (length stored + 1 + length xs)%nat by lia. destruct (_ <=? 15)%nat; [|done]. f_equal.
    unfold tracker_infos. rewrite <- app_assoc. cbn [app imap]. f_equal. f_equal; [by rewrite Nat.add_0_r|]. apply imap_ext. intros j y _. cbn. do 2 f_equal. lia.
Qed.

(** The configured trackers are read back, in order, with their addresses and
    ports, up to fifteen; with sixteen the array of tokens is overrun. *)
Theorem trackers_configured xs : xs <> [] -> Forall tracker_ok_entry xs ->
  trackerclient_info_init true (join 124 (tracker_entry <$> xs)) =
    if (length xs <=? 15)%nat then Ret (Some (tracker_infos 0 xs), LFS_OK) else Crash OutOfBounds.
Proof.
  intros Hne Hok. unfold trackerclient_info_init. cbn [negb].
  assert (get_split_str_count (join 124 (tracker_entry <$> xs)) 124 = zlen xs) as ->.
  { clear -Hne Hok. induction Hok as [|x xs Hx Hok IH]; [done|]. destruct (tracker_entry_lacks x Hx) as [_ Hl]. rewrite fmap_cons, zlen_cons.
    destruct xs as [|y ys]; [by apply count_lacks|]. rewrite fmap_cons in *. change (join 124 (?a :: ?b :: ?l)) with (a ++ 124 :: join 124 (b :: l)). rewrite count_app by done. by rewrite IH. }
  assert (length xs <= length (join 124 (tracker_entry <$> xs)))%nat as Hf.
  { clear -Hok. induction Hok as [|x xs Hx Hok IH]; [cbn; lia|]. destruct (tracker_entry_lacks x Hx) as [Hx0 _]. rewrite fmap_cons.
    assert (1 <= length (tracker_entry x))%nat by (destruct (tracker_entry x); [done|cbn; lia]).
    destruct xs as [|y ys]; [cbn; lia|]. rewrite fmap_cons in *. change (join 124 (?a :: ?b :: ?l)) with (a ++ 124 :: join 124 (b :: l)). rewrite length_app. cbn [length] in *. lia. }
  unfold zlen. rewrite Nat2Z.id. pose proof (info_entries_spec xs _ [] Hok Hf ltac:(cbn; lia)) as H. cbn [length app] in H. rewrite Nat.mul_0_r in H. rewrite H.
  rewrite Nat.add_0_l. by destruct (length xs <=? 15)%nat.
Qed.

(** What a server knows of itself survives a restart. *)
Theorem ctx_snapshot_restart x x0 file trim_ok errno errno' : lr_valid x ->
  exists text, ctx_snapshot_batdata_flush true (fun n => n) errno file x = (Some text, LFS_OK) /\
    ctx_snapshot_batdata_load true trim_ok errno' (Some text) x0 = Ret (x, LFS_OK).
Proof.
  intros Hv. unfold ctx_snapshot_batdata_flush. cbn [negb]. rewrite Z.eqb_refl, take_zlen. cbn [negb]. eexists. split; [reflexivity|].
  unfold ctx_snapshot_batdata_load. rewrite read_lines_one; [done|done|by apply Nat.ltb_lt|]. destruct Hv as [H1 H2]. destruct x as [a b c]. cbn in H1, H2.
  apply (length_pr_dec 64) in H1, H2; [|done..]. unfold pr_record, pr_line. cbn [lr_columns ctx_snapshot_record join sn_register_timestamp sn_is_fullsyncdone sn_last_sync_sequence].
  assert (length (pr_dec (if b then 1 else 0)) = 1%nat) by (by destruct b). repeat (rewrite length_app; cbn [length]). unfold BINLOG_BAT_LINE_BUFF_SIZE. lia.
Qed.

(** ** Examples *)

Definition demo_conf : ds_conf := mk_conf (str "g1") (str "v1") ip1 8001 2 30 60 60.
Definition demo_start : nat -> start_thread_env := fun k => mk_stenv 0 0 true (Z.of_nat k).

Lemma no_blocks_repr own : vtable_repr own no_blocks [].
Proof. split; try done. cbn. lia. constructor. Qed.

Lemma demo_conf_named : named (cf_map_info demo_conf) (cf_bind_addr demo_conf).
Proof. apply (demo_named ip1). constructor. Qed.

Lemma heartbeat_learns_witness : let ps := peers demo_beat (pad 16 ip1) [0; 2]%nat in
  peer_of <$> ps = [mk_peer ip2 0 8002 0] /\
  exists c', dispatch_cmd sum_hash 30 0 (demo_env 120) tracker2 (demo_conn 3 (request (cf_map_info demo_conf) ip1 [])) PROTOCOL_CMD_DATASERVER_HEARTBEAT = Ret (with_store tracker2 demo_beat, c') /\
    forall sfd s s' v' nx rest, sk_in s = response c' ++ rest -> __tracker_hearbeat demo_conf demo_start sfd s no_blocks = Ret (s', v', LFS_OK, nx) ->
      sk_out s' = sk_out s ++ header_bytes 50 PROTOCOL_CMD_DATASERVER_HEARTBEAT 0 ++ zeros 6 ++ request (cf_map_info demo_conf) ip1 [] /\
      sk_in s' = rest /\ vtable_repr ip1 v' (foldl learn [] (peer_of <$> ps)).
Proof.
  intros ps. assert (peer_of <$> ps = [mk_peer ip2 0 8002 0]) as Hps by (by vm_compute). split; [exact Hps|].
  assert (Forall block_ok ps) as Hok.
  { assert (ip_addr <$> ps = [pad 16 ip2]) as H1 by (vm_compute; reflexivity). assert (port <$> ps = [8002]) as H2 by (vm_compute; reflexivity).
    assert (last_sync_sequence <$> ps = [0]) as H3 by (vm_compute; reflexivity). destruct (demo_named ip2 ltac:(by do 2 constructor)) as (_ & Hn & _ & Hl).
    clear Hps. clearbody ps. destruct ps as [|d [|? ?] ]; [discriminate H1| |discriminate H1]. injection H1 as H1. injection H2 as H2. injection H3 as H3. constructor; [|constructor].
    split; [exists ip2; split_and!; assumption|]. rewrite H2, H3. by vm_compute. }
  assert (length (foldl learn [] (peer_of <$> ps)) <= max_blocks)%nat as Hl by (rewrite Hps; vm_compute; lia).
  refine (heartbeat_learns sum_hash 30 0 (demo_env 120) tracker2 (demo_conn 3 (request (cf_map_info demo_conf) ip1 [])) _ [0; 2]%nat 0%nat demo_first demo_conf demo_start no_blocks []
    (proj1 tracker2_ok) _ _ _ _ tracker2_addressed demo_conf_named _ _ _ _ _ Hok _ (no_blocks_repr ip1) Hl).
  - apply lookup_insert_eq.
  - by vm_compute.
  - by vm_compute.
  - by vm_compute.
  - apply demo_at_rcurr.
  - reflexivity.
  - vm_compute. lia.
  - intros k. cbn. lia.
  - vm_compute. lia.
  - intros i. repeat split.
Defined.

Lemma registered_as_configured_witness : let s := mk_sock (header_bytes 0 1 0 ++ zeros 6) [] [EvSelect 1 0; EvSend 200 0; EvRecv 16 0] in
  exists s' body, __tracker_register demo_conf 100 90 5 s = Ret (s', 0) /\ sk_out s' = [] ++ header_bytes (zlen body) PROTOCOL_CMD_DATASERVER_REGISTER 0 ++ zeros 6 ++ body /\
    forall c, clean c -> at_rcurr c body -> exists t' c' b d, dispatch_cmd sum_hash 30 0 (demo_env 100) tracker0 c PROTOCOL_CMD_DATASERVER_REGISTER = Ret (t', c') /\
      response c' = header_bytes 0 PROTOCOL_CMD_DATASERVER_REGISTER 0 ++ zeros 6 /\
      cluster_datasevrblock_find sum_hash (tk_store t') (tk_cluster t') (cf_map_info demo_conf) ip1 = Ret (Some b) /\ st_blocks (tk_store t') !! b = Some d /\
      ip_addr d = pad 16 ip1 /\ port d = 8001 /\ weight d = 2 /\ heart_beat_interval d = 30.
Proof.
  intros s. destruct (__tracker_register demo_conf 100 90 5 s) as [ [s' ret]|] eqn:E; [|vm_compute in E; discriminate].
  assert (ret = 0) as -> by (vm_compute in E; by injection E as <- <-). exists s'.
  enough (exists body, sk_out s' = [] ++ header_bytes (zlen body) PROTOCOL_CMD_DATASERVER_REGISTER 0 ++ zeros 6 ++ body /\ _) as (body & H) by (exists body; split; [done|exact H]).
  refine (registered_as_configured sum_hash 30 0 (demo_env 100) tracker0 ∅ demo_conf 100 90 5 s s' tracker0_ok _ demo_conf_named _ _ E).
  - intros n. reflexivity.
  - by vm_compute.
  - by repeat constructor.
Defined.

Lemma trackers_configured_witness :
  trackerclient_info_init true (str "10.0.0.1:8000|10.0.0.2:9000") = Ret (Some [mk_tinfo 0 8000 (pad 16 (str "10.0.0.1")); mk_tinfo 1 9000 (pad 16 (str "10.0.0.2"))], LFS_OK).
Proof.
  apply (trackers_configured [(str "10.0.0.1", 8000); (str "10.0.0.2", 9000)]); [done|].
  assert (forall x, bool_decide (x.1 <> []) && bool_decide (lacks 58 x.1) && bool_decide (lacks 124 x.1) && (length x.1 <=? 16)%nat && bool_decide (is_s 32 x.2) = true -> tracker_ok_entry x) as H.
  { intros x Hx. repeat (apply andb_prop in Hx as [Hx ?]). split_and!; try (by eapply bool_decide_eq_true_1). by apply Nat.leb_le. }
  apply Forall_cons; split; [apply H; by vm_compute|]. apply Forall_cons; split; [apply H; by vm_compute|constructor].
Defined.

Lemma ctx_snapshot_restart_witness : exists text,
  ctx_snapshot_batdata_flush true (fun n => n) 0 None (mk_snap 1700000000 true 42) = (Some text, LFS_OK) /\
  ctx_snapshot_batdata_load true (fun _ => true) 0 (Some text) (mk_snap 0 false 0) = Ret (mk_snap 1700000000 true 42, LFS_OK).
Proof. apply (ctx_snapshot_restart (mk_snap 1700000000 true 42) (mk_snap 0 false 0) None (fun _ => true) 0 0). by split. Defined.

Definition demo_peer (ip : bytes) (st : Z) : peer := mk_peer ip st 8002 0.
Definition demo_table (tbl : list peer) : volume_table :=
  mk_vtable ((brief_of <$> tbl) ++ replicate (3 - length tbl) no_brief) (zlen tbl) (mk_threads None (zlen (filter (replicated ip1) tbl))).

Lemma ip2_named st : p_named (demo_peer ip2 st).
Proof. destruct (demo_named ip2 ltac:(by do 2 constructor)) as (_ & Hn & _ & Hl). by split. Qed.

Lemma down_never_noticed_witness : let v := demo_table [demo_peer ip2 3] in
  match manage_records demo_conf 1 0 demo_start (concat (peer_bytes <$> [demo_peer ip2 6]) ++ []) v with
  | Ret v' => exists b, volume_blocks v' !! 0%nat = Some b /\ bb_state b = 3 /\ bb_ipaddr b = pad 16 ip2
  | Crash _ => False
  end.
Proof.
  intros v. destruct (manage_records _ _ _ _ _ _) as [v'|c] eqn:E; [|vm_compute in E; discriminate].
  apply (down_never_noticed demo_conf demo_start 0 v [demo_peer ip2 3] [demo_peer ip2 6] [] v' 0 (demo_peer ip2 3)); [intros i; repeat split|apply demo_conf_named| | |vm_compute; lia|done|done|exact E].
  - split; try done; [by apply Nat.leb_le|constructor; [apply ip2_named|constructor]|apply NoDup_singleton].
  - constructor; [|constructor]. split; [apply ip2_named|by vm_compute].
Defined.

Lemma fourth_server_overflows_witness : let tbl := [demo_peer (str "1") 3; demo_peer (str "2") 3; demo_peer (str "3") 3] in
  manage_record demo_conf (demo_start 0) (peer_bytes (demo_peer ip2 3) ++ []) (demo_table tbl) = Crash OutOfBounds.
Proof.
  intros tbl. apply (fourth_server_overflows demo_conf (demo_start 0) (demo_table tbl) tbl (demo_peer ip2 3)); [|done|apply ip2_named| |].
  - split; try done; [|by apply (bool_decide_unpack _); vm_compute]. repeat constructor; cbn; lia || discriminate.
  - apply rec_fields. split; [apply ip2_named|by vm_compute].
  - repeat constructor; discriminate.
Defined.

(** The thread between two connections, and a tracker that does not know it. *)
Definition demo_tclient (st : trackerclient_state) : tclient :=
  mk_tclient (mk_tconn 5 0 0 0 st connectd) (mk_sock [] [] []) true true true (mk_counts 4 9 0) no_blocks (mk_snap 0 true 0) None (demo_fworld (mk_sock [] [] [])).
Definition demo_tcenv (connect : Z) : tc_env :=
  mk_tcenv true 5 0 0 0 connect (mk_sock (header_bytes 0 3 PROTOCOL_RESP_STATUS_ERROR_UNREGISTER ++ zeros 6) [] [EvSelect 1 0; EvSend 200 0; EvRecv 16 0]) 1000 90 0 true [] (true, fun n => n, 0) demo_start.

Lemma never_registers_again_witness : let e := demo_tcenv 0 in
  (forall rounds e t', __trackerclient_state_machine demo_conf demo_mounts rounds (demo_tclient closed) = Ret t' -> tcn_state (tc_conn t') = registerd ->
     tc_step demo_conf demo_mounts e t' = Ret (set_trackerclientconn_state t' fullsync)) /\
  exists t', __trackerclient_state_machine demo_conf demo_mounts [e; e; e; e; e; e; e; e; e; e] (demo_tclient closed) = Ret t' /\ waiting no_blocks t'.
Proof.
  intros e. destruct (never_registers_again demo_conf demo_mounts (demo_tclient closed) no_blocks) as [H1 H2]; [by split_and!|]. split; [exact H1|].
  apply (H2 [(e, e, e, e, e); (e, e, e, e, e)]). assert (refused_cycle demo_conf (e, e, e, e, e)) as Hc; [|apply Forall_cons; split; [exact Hc|]; apply Forall_cons; split; [exact Hc|constructor] ].
  split; cbn [fst snd]; [by repeat constructor|done|done|done|]. intros v.
  exists (mk_sock [] (header_bytes 50 3 0 ++ zeros 6 ++ request (cf_map_info demo_conf) ip1 []) []), PROTOCOL_RESP_STATUS_ERROR_UNREGISTER, (Some closed).
  split; [vm_compute; reflexivity|done].
Defined.

Lemma unreachable_tracker_drifts_witness : let e := demo_tcenv 111 in
  exists t', __trackerclient_state_machine demo_conf demo_mounts [e; e; e; e; e; e] (demo_tclient connectd) = Ret t' /\ tcn_state (tc_conn t') = connectd /\ do_run t' = true /\
    curr_conn_count (tc_counts t') = 4 - 3 /\ total_conn_count (tc_counts t') = 9.
Proof.
  intros e. apply (unreachable_tracker_drifts demo_conf demo_mounts [(e, e); (e, e); (e, e)] (demo_tclient connectd)); [done|done|]. repeat constructor; by vm_compute.
Defined.

Lemma quited_forever_witness : let e := demo_tcenv 0 in
  exists t', __trackerclient_state_machine demo_conf demo_mounts [e; e] (demo_tclient quited) = Ret t' /\ tcn_state (tc_conn t') = quited /\ do_run t' = true /\
    curr_conn_count (tc_counts t') = 4 - 2.
Proof. intros e. apply (quited_forever demo_conf demo_mounts [e; e] (demo_tclient quited)); [by repeat constructor|done|done]. Defined.
