(* ===== verification/DsPools.v ===== *)
(** * What the data server starts and gives back

    The tables and threads of the data server that are set up before it serves
    and released by [dataserver_destroy]: the connection items and connections
    (src/src/dataserver/ds_conn.c), the contexts of files (ds_file.c), the network
    and disk threads (ds_network_io.c, ds_disk_io.c), the synchronisation threads
    (ds_sync.c) and the threads that report to the trackers (tracker_client.c).
    [daemon_init] and [kill_work_threads] of src/src/common/shared_func.c are here
    too, and the splitting of file names (src/src/include/lfs_define.h). *)
From S2P Require Import Prelude Codec CString Lines ListH TsQueue TsConn DsBlock DsBinlog ClientIo DsSync DsFile DsConn Threads TrackerClient.

(** ** Queues of connection items *)

(** ds_conn.c has its own copy of the tracker's queue. *)
Definition conn_item_push := TsQueue.conn_item_queue_push.
Definition __conn_item_pop := TsQueue.conn_item_queue_pop.
Definition conn_item_walk := TsQueue.queue_walk.

(** The loop is that of [conn_queue_destroy]. *)
Definition conn_item_queue_destroy (h : links) (cq_head : lloc) : outcome links :=
  a ← queue_active h cq_head;
  if negb a then Ret h else pos ← get_next h cq_head; destroy_loop (size h) h pos cq_head.

(** ** Tables by socket *)

Definition conns_init (calloc_ok : bool) (max_fds : nat) : option (list (option conn)) * Z :=
  if calloc_ok then (Some (replicate max_fds None), 0) else (None, -1).

(** The loop of [conns_destroy] and [file_ctx_mpools_destroy]: the entries that
    are there, in the order in which they are freed. *)
Fixpoint free_slots {A : Type} (n : nat) (i : Z) (tab : list (option A)) : outcome (list A) :=
  match n with
  | O => Ret []
  | S n' =>
      slot ← get_or OutOfBounds (zlookup tab i);
      rest ← free_slots n' (i + 1) tab;
      Ret (match slot with Some a => a :: rest | None => rest end)
  end.

(** The structures that are freed; the buffers of a connection are not. *)
Definition conns_destroy (max_fds : nat) (tab : option (list (option conn))) : outcome (list conn) :=
  tab ← get_or AssertFailed tab; free_slots max_fds 0 tab.

(** The contexts that are freed; [f_buff] of each stays. *)
Definition file_ctx_mpools_destroy (max_fds : nat) (fctxs : option fctx_pool) : outcome (list file_ctx) :=
  tab ← get_or AssertFailed fctxs; free_slots max_fds 0 tab.

(** [file_ctx_free]: the buffer that is freed with the context. *)
Definition file_ctx_free (fctx : option file_ctx) : outcome bytes :=
  f ← get_or AssertFailed fctx; Ret (f_buff f).

(** ** Pools of threads *)

(** The array of threads and the flag they watch. *)
Record thread_pool := mk_threadpool { th_tids : option (list Z); th_run : bool }.

(** The mutex and the condition are destroyed first, and no thread is
    waited for. *)
Definition nio_threads_destroy (p : thread_pool) : thread_pool := mk_threadpool None false.
Definition dio_thread_pool_destroy (p : thread_pool) : thread_pool := mk_threadpool None false.

(** [isdir], [mkdir]: what the two calls say of the directory [sync]. *)
Definition async_thread_init (isdir mkdir_ok : bool) : async_threads * Z :=
  if negb isdir && negb mkdir_ok then (mk_threads None 0, LFS_ERROR) else (mk_threads None 0, LFS_OK).

(** The threads, the flag, and the result. *)
Definition async_thread_destroy (t : async_threads) : async_threads * bool * Z :=
  (match async_tids t with Some _ => mk_threads None 0 | None => t end, false, LFS_OK).

(** [pthread_kill] may fail; the loop goes on. *)
Definition kill_work_threads (kill : Z -> Z) (tids : list Z) : list (Z * Z) * Z := ((fun tid => (tid, kill tid)) <$> tids, 0).

(** ** The threads that report to the trackers *)

(** A thread that has started: its tracker. *)
Record reporter := mk_reporter { rp_tid : Z; rp_tracker : tracker_info }.

(** What [init_pthread_attr], [malloc] and [pthread_create] answer; the last by
    the number of the thread, with its identity. *)
Record report_env := mk_renv { re_attr : Z; re_malloc : bool; re_errno : Z; re_create : nat -> Z; re_tid : nat -> Z }.

Fixpoint start_reporters (e : report_env) (k : nat) (ts : list tracker_info) : list reporter * Z :=
  match ts with
  | [] => ([], LFS_OK)
  | ti :: ts' =>
      if negb (re_create e k =? 0) then ([], re_create e k)
      else let '(rs, ret) := start_reporters e (S k) ts' in (mk_reporter (re_tid e k) ti :: rs, ret)
  end.

(** The threads that run, and the result; [tracker_reporter_tids] has their
    identities in the same order. *)
Definition tracker_report_thread_start (e : report_env) (trackers : list tracker_info) : list reporter * Z :=
  if negb (re_attr e =? 0) then ([], re_attr e)
  else if negb (re_malloc e) then ([], if negb (re_errno e =? 0) then re_errno e else ENOMEM)
  else start_reporters e 0 trackers.

(** What a thread does: [t0] is the rest of the state when it starts. *)
Definition __tracker_client_thread_entrance (malloc_ok : bool) (cf : ds_conf) (m : block_mount) (rounds : list tc_env) (t0 : tclient) : outcome tclient :=
  if negb malloc_ok then Ret t0
  else
    let t := tc_set_conn t0 trackerclientconn_new in
    __trackerclient_state_machine cf m rounds (set_trackerclientconn_state t connectd).

(** ** Becoming a daemon *)

(** What the calls answer: [fork] (-1, 0 in the child), [setsid], [chdir],
    [open] of /dev/null, [dup2] onto each of the three files, [close]. *)
Record daemon_env := mk_denv { dn_fork : Z; dn_setsid : Z; dn_chdir : Z; dn_open : Z; dn_dup2 : Z -> Z; dn_close : Z }.

(** The parent ends with the code; the caller gets the result. *)
Inductive daemon_end := ParentExit (code : Z) | DaemonRet (ret : Z).

Definition daemon_init (e : daemon_env) (bCloseFiles : bool) : daemon_end :=
  if negb bCloseFiles then DaemonRet (-1)
  else if dn_fork e =? -1 then DaemonRet (-1)
  else if negb (dn_fork e =? 0) then ParentExit 0
  else if dn_setsid e =? -1 then DaemonRet (-1)
  else if negb (dn_chdir e =? 0) then DaemonRet (-1)
  else if negb (dn_open e =? -1) then
    if dn_dup2 e 0 <? 0 then DaemonRet (-1)
    else if dn_dup2 e 1 <? 0 then DaemonRet (-1)
    else if dn_dup2 e 2 <? 0 then DaemonRet (-1)
    else if (2 <? dn_open e) && (dn_close e <? 0) then DaemonRet (-1)
    else DaemonRet 0
  else DaemonRet 0.

(** ** Names of files *)

(** [LFS_SPLIT_VOLUME_NAME_AND_BLOCK_INDEX_BY_FILE_ID]: [volume_name],
    [pblock_index] and [fid_map_name_buff]. *)
Definition LFS_SPLIT_VOLUME_NAME_AND_BLOCK_INDEX_BY_FILE_ID (file_id : bytes) : option (bytes * bytes * bytes) :=
  let fid_buff := take (LFS_FILE_ID_SIZE - 1) file_id in
  match strchr fid_buff LFS_FILE_ID_SEPERATOR with
  | None => None
  | Some (_, r) =>
      let fid_vmn_buff := take (LFS_FILE_NAME_SIZE - 1) r in
      match strchr fid_vmn_buff LFS_FILE_ID_SEPERATOR with
      | None => None
      | Some (volume_name, r) =>
          let fid_mn_buff := take (LFS_FILE_NAME_SIZE - 1) r in
          match strchr fid_mn_buff LFS_FILE_ID_SEPERATOR with
          | None => None
          | Some (mn, name) => Some (volume_name, match mn with [] => name | _ :: t => t end, name)
          end
      end
  end.

(** [LFS_SPLIT_FILE_MAP_NAME]: the two directories and the name;
    [f_name_buff] has room for 127 characters, and [sprintf] does not stop there. *)
Definition LFS_SPLIT_FILE_MAP_NAME (file_map_name : bytes) : outcome (option (bytes * bytes * bytes)) :=
  let f_map_name_buff := take (LFS_FILE_MAP_NAME_SIZE - 1) file_map_name in
  match strchr f_map_name_buff LFS_FILE_ID_SEPERATOR with
  | None => Ret None
  | Some (d1, r) =>
      let fsuf_map_name_buff := take (LFS_FILE_MAP_NAME_SIZE - 1) r in
      match strchr fsuf_map_name_buff LFS_FILE_ID_SEPERATOR with
      | None => Ret None
      | Some (d2, name) =>
          if (LFS_FILE_NAME_SIZE <=? length name)%nat then Crash OutOfBounds else Ret (Some (d1, d2, name))
      end
  end.

(** ** Queues *)

(** A queue of items can be destroyed only when it is empty: the loop
    frees an item and then reads the link in it. *)
Theorem conn_item_queue_destroy_spec h q xs :
  is_list h q xs -> conn_item_queue_destroy h q = match xs with [] => Ret h | _ :: _ => Crash UseAfterFree end.
Proof.
  intros Hl. destruct xs as [|c xs].
  - unfold conn_item_queue_destroy. by rewrite (queue_active_spec h q _ Hl).
  - exact (conn_queue_destroy_bad h q c xs Hl).
Qed.

Lemma conn_item_queue_destroy_spec_witness : conn_item_queue_destroy links_demo 0 = Crash UseAfterFree.
Proof. exact (conn_item_queue_destroy_spec links_demo 0 [1; 2; 3]%nat links_demo_list). Defined.

(** ** Tables by socket *)

Lemma free_slots_drop {A} (tab : list (option A)) k n :
  (k + n = length tab)%nat -> free_slots n (Z.of_nat k) tab = Ret (omap id (drop k tab)).
Proof.
  revert k. induction n as [|n IH]; intros k Hk.
  - by rewrite drop_ge by lia.
  - destruct (lookup_lt_is_Some_2 tab k) as [slot Hs]; [lia|]. cbn [free_slots].
    unfold zlookup. destruct (Z.leb_spec 0 (Z.of_nat k)); [|lia]. rewrite Nat2Z.id, Hs. cbn [get_or mbind outcome_bind].
    replace (Z.of_nat k + 1) with (Z.of_nat (S k)) by lia. rewrite IH by lia. cbn [mbind outcome_bind].
    rewrite (drop_S _ _ _ Hs). by destruct slot.
Qed.

(** The contexts a server can have: the pool as it starts, and a
    context taken for a socket again and again. *)
Inductive pool_use (max_fds : nat) : fctx_pool -> Prop :=
| pool_new pool : file_ctx_mpools_init true max_fds = Some pool -> pool_use max_fds pool
| pool_take mal1 mal2 pool sfd size opt pool' ok :
    pool_use max_fds pool -> file_ctx_new mal1 mal2 pool sfd size opt = Ret (pool', ok) -> pool_use max_fds pool'.

Lemma pool_use_length n pool : pool_use n pool -> length pool = n.
Proof.
  induction 1 as [pool H|mal1 mal2 pool sfd size opt pool' ok _ IH H].
  - injection H as <-. apply length_replicate.
  - unfold file_ctx_new in H. destruct (zlookup pool sfd) as [ [f|]|]; [| |done].
    + injection H as <- _. by rewrite length_insert.
    + destruct (mal1 && mal2); injection H as <- _; [by rewrite length_insert|done].
Qed.

(** Whatever sockets were served, the end of the server frees
    every context that is in the pool, in the order of the sockets, each once,
    and none is missed.  (Their buffers are not freed.) *)
Theorem contexts_freed max_fds pool :
  pool_use max_fds pool -> file_ctx_mpools_destroy max_fds (Some pool) = Ret (omap id pool).
Proof. intros H%pool_use_length. cbn. rewrite (free_slots_drop pool 0) by done. by rewrite drop_0. Qed.

Lemma contexts_freed_witness :
  exists pool f, file_ctx_new true true (replicate 4 None) 2 64 FILE_OP_TYPE_WRITE = Ret (pool, true) /\
    file_ctx_mpools_destroy 4 (Some pool) = Ret [f].
Proof.
  do 2 eexists. split; [reflexivity|]. refine (contexts_freed 4 _ _).
  refine (pool_take 4 true true (replicate 4 None) 2 64 FILE_OP_TYPE_WRITE _ true _ eq_refl). by apply pool_new.
Defined.

(** The same table for connections. *)
Lemma conns_freed max_fds tab :
  length tab = max_fds -> conns_destroy max_fds (Some tab) = Ret (omap id tab).
Proof. intros H. cbn. rewrite (free_slots_drop tab 0) by done. by rewrite drop_0. Qed.

(** ** Reporting threads *)

(** The threads that run are those of the trackers before the first one
    whose thread cannot be created. *)
Lemma start_reporters_spec e ts k :
  exists n, (n <= length ts)%nat /\ rp_tracker <$> (start_reporters e k ts).1 = take n ts /\
    (forall j, (j < n)%nat -> re_create e (k + j) = 0) /\
    (if decide (n = length ts) then (start_reporters e k ts).2 = LFS_OK
     else (start_reporters e k ts).2 = re_create e (k + n) /\ re_create e (k + n) <> 0).
Proof.
  revert k. induction ts as [|t ts IH]; intros k; cbn [start_reporters].
  - exists 0%nat. split_and!; [done|done|lia|done].
  - destruct (Z.eqb_spec (re_create e k) 0) as [H0|H0]; cbn [negb].
    + destruct (IH (S k)) as (n & Hn & Ht & Hj & Hr). destruct (start_reporters e (S k) ts) as [rs ret]. cbn [fst snd] in *.
      exists (S n). split_and!; [cbn; lia|cbn; by rewrite Ht| |].
      * intros [|j] Hlt; [by rewrite Nat.add_0_r|]. replace (k + S j)%nat with (S k + j)%nat by lia. apply Hj. lia.
      * replace (k + S n)%nat with (S k + n)%nat by lia. cbn [length].
        destruct (decide (n = length ts)), (decide (S n = S (length ts))); (done || lia).
    + exists 0%nat. split_and!; [cbn; lia|done|lia|]. cbn [length]. destruct (decide _); [lia|]. by rewrite Nat.add_0_r.
Qed.

(** A data server reports to every tracker of its configuration: from
    up to fifteen entries [ip:port] separated by bars, one thread is started for
    each, in order, with its number, address and port; when a thread cannot be
    created the call fails, and the threads before it keep running. *)
Theorem trackers_reported e xs :
  xs <> [] -> Forall tracker_ok_entry xs -> (length xs <= 15)%nat -> re_attr e = 0 -> re_malloc e = true ->
  exists ts, trackerclient_info_init true (join 124 (tracker_entry <$> xs)) = Ret (Some ts, LFS_OK) /\
    length ts = length xs /\ (forall i x, xs !! i = Some x -> ts !! i = Some (mk_tinfo (Z.of_nat i) x.2 (pad 16 x.1))) /\
    let '(rs, ret) := tracker_report_thread_start e ts in
    (ret = LFS_OK /\ rp_tracker <$> rs = ts) \/
    (exists n, ret = re_create e n /\ ret <> 0 /\ (n < length ts)%nat /\ rp_tracker <$> rs = take n ts).
Proof.
  intros Hne Hok Hlen Ha Hm. exists (tracker_infos 0 xs). rewrite trackers_configured by done.
  destruct (Nat.leb_spec (length xs) 15); [|lia]. split; [done|]. unfold tracker_infos. rewrite length_imap. split; [done|]. split.
  { intros i x Hi. rewrite list_lookup_imap, Hi. done. }
  unfold tracker_report_thread_start. rewrite Ha, Hm. cbn [Z.eqb negb].
  set (ts := imap _ xs). destruct (start_reporters_spec e ts 0) as (n & Hn & Ht & _ & Hr).
  destruct (start_reporters e 0 ts) as [rs ret]. cbn [fst snd] in *. destruct (decide (n = length ts)) as [->|Hlt].
  - left. by rewrite take_ge in Ht by lia.
  - right. exists n. destruct Hr as [-> Hr]. split_and!; [done|done|unfold ts in *; rewrite length_imap in *; lia|done].
Qed.

Definition demo_renv : report_env := mk_renv 0 true 0 (fun k => if (k =? 1)%nat then EAGAIN else 0) (fun k => 100 + Z.of_nat k).

Lemma trackers_reported_witness :
  exists ts, trackerclient_info_init true (join 124 (tracker_entry <$> [(str "10.0.0.1", 8000); (str "10.0.0.2", 9000)])) = Ret (Some ts, LFS_OK) /\
    length ts = 2%nat /\
    (forall i x, [(str "10.0.0.1", 8000); (str "10.0.0.2", 9000)] !! i = Some x -> ts !! i = Some (mk_tinfo (Z.of_nat i) x.2 (pad 16 x.1))) /\
    let '(rs, ret) := tracker_report_thread_start demo_renv ts in
    (ret = LFS_OK /\ rp_tracker <$> rs = ts) \/
    (exists n, ret = re_create demo_renv n /\ ret <> 0 /\ (n < length ts)%nat /\ rp_tracker <$> rs = take n ts).
Proof.
  apply (trackers_reported demo_renv [(str "10.0.0.1", 8000); (str "10.0.0.2", 9000)]); [done| |cbn; lia|done|done].
  assert (forall x, bool_decide (x.1 <> []) && bool_decide (lacks 58 x.1) && bool_decide (lacks 124 x.1) && (length x.1 <=? 16)%nat && bool_decide (is_s 32 x.2) = true -> tracker_ok_entry x) as H.
  { intros x Hx. repeat (apply andb_prop in Hx as [Hx ?]). split_and!; try (by eapply bool_decide_eq_true_1). by apply Nat.leb_le. }
  apply Forall_cons; split; [apply H; reflexivity|]. apply Forall_cons; split; [apply H; reflexivity|constructor].
Defined.

(** ** Names *)

(** An id that a server made is taken apart as it was put together: the
    volume, the block in hexadecimal and the name in the block, and then the two
    directories and the file. *)
Theorem id_split group volume i d1 d2 f :
  let name := join LFS_FILE_ID_SEPERATOR [d1; d2; f] in
  0 <= i < 10 -> lacks LFS_FILE_ID_SEPERATOR group -> lacks LFS_FILE_ID_SEPERATOR volume ->
  lacks LFS_FILE_ID_SEPERATOR d1 -> lacks LFS_FILE_ID_SEPERATOR d2 ->
  (length (file_id group volume i name) < LFS_FILE_ID_SIZE)%nat ->
  (length (volume ++ LFS_FILE_ID_SEPERATOR :: (chr "B" :: pr_02X i) ++ LFS_FILE_ID_SEPERATOR :: name) < LFS_FILE_NAME_SIZE)%nat ->
  LFS_SPLIT_VOLUME_NAME_AND_BLOCK_INDEX_BY_FILE_ID (file_id group volume i name) = Some (volume, pr_02X i, name) /\
  LFS_SPLIT_FILE_MAP_NAME name = Ret (Some (d1, d2, f)).
Proof.
  intros name Hi Hg Hv H1 H2 Hl Hl2. split.
  - unfold LFS_SPLIT_VOLUME_NAME_AND_BLOCK_INDEX_BY_FILE_ID. rewrite take_ge by lia. unfold file_id. cbn [join].
    rewrite strchr_app by done. rewrite take_ge by lia. rewrite strchr_app by done.
    rewrite take_ge by (rewrite length_app in Hl2; cbn [length] in Hl2; lia).
    rewrite strchr_app; [done|]. constructor; [done|by apply decimal_index].
  - assert (length name < LFS_FILE_NAME_SIZE)%nat as Hn by (rewrite !length_app in Hl2; cbn [length] in Hl2; rewrite length_app in Hl2; cbn [length] in Hl2; lia).
    unfold LFS_SPLIT_FILE_MAP_NAME. unfold LFS_FILE_NAME_SIZE in *.
    rewrite take_ge by (unfold LFS_FILE_MAP_NAME_SIZE; lia). unfold name in *. cbn [join] in *.
    rewrite strchr_app by done. rewrite !length_app in Hn. cbn [length] in Hn. rewrite length_app in Hn. cbn [length] in Hn.
    rewrite take_ge by (rewrite length_app; cbn [length]; unfold LFS_FILE_MAP_NAME_SIZE; lia).
    rewrite strchr_app by done. by rewrite (proj2 (Nat.leb_gt _ _)) by lia.
Qed.

Lemma id_split_witness :
  LFS_SPLIT_VOLUME_NAME_AND_BLOCK_INDEX_BY_FILE_ID (file_id (str "g1") (str "v1") 7 (str "00/1F/abc")) = Some (str "v1", pr_02X 7, str "00/1F/abc") /\
  LFS_SPLIT_FILE_MAP_NAME (str "00/1F/abc") = Ret (Some (str "00", str "1F", str "abc")).
Proof. apply (id_split (str "g1") (str "v1") 7 (str "00") (str "1F") (str "abc")); [lia|by repeat constructor..|by vm_compute; lia|vm_compute; lia]. Defined.
