(* ===== verification/DsStop.v ===== *)
(** * The end of a data server

    [dataserver_destroy] of src/src/dataserver/ds_func.c as a whole: the
    configuration, the logger, the timers, the contexts of files, the threads and
    the two logs of operations, in the order in which the code gives them up.  The
    function does not wait for the network and disk threads, which may still use what
    it frees; here it is what the main thread does, and their flags.  It never gets
    to its end: the two logs share a mutex, which the end of the first destroys. *)
From S2P Require Import Prelude CString Lines HashTable CfgFile ListH TsConn SchedTimer Periodic DsBlock DsBinlog DsSync DsFile Logger Config Startup DsPools.

Section Stop.
Context {M T : Type} `{L : DictionaryLaws M T}.

(** The parts: the configuration (memory and table), the log file, the threads
    of the timers, the pool of contexts, the network and disk threads, the log of
    the operations, that of the copies and whether their mutex is initialised, and the
    synchronisation threads with their flag. *)
Record ds_parts := mk_dsparts {
  ds_mem : M;
  ds_cfg : option T;
  ds_logger : log_state;
  ds_timers : timer_pool;
  ds_fctxs : option fctx_pool;
  ds_nio : thread_pool;
  ds_dio : thread_pool;
  ds_bin : bdisk * binlog_ctx;
  ds_rbin : bdisk * binlog_ctx;
  ds_binlock : bool;
  ds_async : async_threads;
  ds_async_run : bool
}.

(** The contexts that were freed are returned with the state. *)
Definition dataserver_destroy (le : log_env) (el er : binlog_env) (max_fds : nat) (p : ds_parts) : outcome (ds_parts * list file_ctx) :=
  m ← cfg_fin (ds_mem p) (ds_cfg p);
  l ← logger_destroy le (ds_logger p);
  let timers := sched_timer_exit (ds_timers p) in
  freed ← file_ctx_mpools_destroy max_fds (ds_fctxs p);
  let nio := nio_threads_destroy (ds_nio p) in
  let dio := dio_thread_pool_destroy (ds_dio p) in
  '(bin, rbin, lock) ← binlog_destroy el er (ds_binlock p) (ds_bin p).1 (ds_rbin p).1 (ds_bin p).2 (ds_rbin p).2;
  let '(async, run, _) := async_thread_destroy (ds_async p) in
  Ret (mk_dsparts m None l timers None nio dio bin rbin lock async run, freed).

(** ** Lemmas *)

Lemma logger_destroy_spec le l f :
  env_fine le -> log_ok l -> lg_fd l = Some f ->
  exists l', logger_destroy le l = Ret l' /\ lg_fd l' = None /\ lg_buff l' = [] /\ default [] (lg_files l' !! f) = journal l.
Proof.
  intros He Hl Hf. destruct (logger_sync_spec le l He Hl) as (l' & Hr & Hj & Hb & _ & Hs). unfold logger_destroy. rewrite Hf.
  unfold logger_sync_func in Hr. rewrite Hr. cbn [mbind outcome_bind]. eexists. split; [reflexivity|]. cbn. split; [done|]. split; [done|].
  assert (lg_fd l' = Some f) as Hf' by (rewrite <-Hf; apply Hs). unfold journal, written in Hj. rewrite Hf', Hb, app_nil_r in Hj. rewrite Hj. unfold journal, written. by rewrite Hf.
Qed.

(** Everything that a start of the logs asks of the system succeeds. *)
Definition start_ok (se : DsBinlog.start_env) : Prop :=
  se_isDir se = true /\ se_index_open se = true /\ se_index_read se = true /\ se_malloc se = true /\ se_open se = true /\ se_lseek se = true.

(** The flush of the second log locks the mutex that the end of the first has
    destroyed. *)
Lemma binlog_destroy_bad el er dl dr bl br lines rlines : calls_ok el -> stored dl bl lines -> stored dr br rlines -> curr_binlog_file_index bl + 2 < 2 ^ 31 ->
  binlog_destroy el er true dl dr bl br = Crash UseAfterFree.
Proof.
  intros Hel Hl (chunks & pending & Hh & _) Hn. pose proof (ho_fd _ _ _ _ Hh) as Hf.
  destruct (binlog_restart el (mk_senv true true true true true true true el) dl bl lines Hel Hl Hn) as (d1 & b1 & _ & _ & H1 & _); [done..|].
  unfold binlog_destroy. rewrite H1. cbn [mbind outcome_bind]. unfold binlog_ctx_destroy. by rewrite Hf.
Qed.

(** ** Theorems *)

(** C38. A data server that is stopped keeps its log file and the log of its operations
    and then has undefined behaviour: when the calls succeed, every line that was
    logged is in the file and the cache is empty, every context of a file is freed
    once, the next start finds the lines of the local log; and [dataserver_destroy]
    locks a destroyed mutex at the end of the remote log, whose cached lines need
    not get to the disk. *)
Theorem stop_locks_destroyed le el er sl max_fds p t d f pool lines rlines :
  ds_cfg p = Some t -> dict_repr (ds_mem p) t d ->
  env_fine le -> log_ok (ds_logger p) -> lg_fd (ds_logger p) = Some f ->
  ds_fctxs p = Some pool -> pool_use max_fds pool -> ds_binlock p = true ->
  calls_ok el -> start_ok sl -> stored (ds_bin p).1 (ds_bin p).2 lines -> stored (ds_rbin p).1 (ds_rbin p).2 rlines ->
  curr_binlog_file_index (ds_bin p).2 + 2 < 2 ^ 31 ->
  (exists l', logger_destroy le (ds_logger p) = Ret l' /\ lg_buff l' = [] /\ default [] (lg_files l' !! f) = journal (ds_logger p)) /\
  file_ctx_mpools_destroy max_fds (ds_fctxs p) = Ret (omap id pool) /\
  (exists d1 b1 d2 b2, binlog_ctx_destroy el true (ds_bin p).1 (ds_bin p).2 = Ret (d1, b1, false) /\ local_binlog_init sl true d1 = Ret (d2, b2, true, LFS_OK) /\ stored d2 b2 lines) /\
  dataserver_destroy le el er max_fds p = Crash UseAfterFree.
Proof.
  intros Hc Hd He Hl Hf Hp Hu Hk Hel (? & ? & ? & ? & ? & ?) Hb Hr Hnb.
  destruct (logger_destroy_spec le _ f He Hl Hf) as (l' & Hlog & _ & Hbuf & Hj). pose proof (contexts_freed max_fds pool Hu) as Hfree.
  split; [by exists l'|]. split; [by rewrite Hp|]. split; [by apply binlog_restart|].
  unfold dataserver_destroy. rewrite Hc. destruct (cfg_fin_ok (ds_mem p) t d Hd) as (m' & -> & _). cbn [mbind outcome_bind].
  rewrite Hlog. cbn [mbind outcome_bind]. rewrite Hp, Hfree. cbn [mbind outcome_bind]. rewrite Hk. by rewrite (binlog_destroy_bad el er _ _ _ _ lines rlines).
Qed.
End Stop.

Definition demo_senv : DsBinlog.start_env := mk_senv true true true true true true true demo_benv.

Lemma demo_bin_stored : stored demo_disk (demo_bctx []) demo_chunk.
Proof. exists [demo_chunk], []. split_and!; [apply holds_one|by rewrite !app_nil_r|vm_compute; discriminate]. Qed.

Lemma stop_locks_destroyed_witness :
  let _ := hash_dictionary len_hash in
  exists h t,
    dataserver_destroy (demo_logenv 7) demo_benv demo_benv 4
      (mk_dsparts h (Some t) demo_logger (mk_tpool 1 false 1) (Some (replicate 4 None)) (mk_threadpool (Some [1; 2]) true) (mk_threadpool (Some [3]) true)
        (demo_disk, demo_bctx []) (demo_disk, demo_bctx []) true (mk_threads None 0) true) = Crash UseAfterFree.
Proof.
  intros D. destruct (cfg_init_readable (H0 := hash_dictionary_laws len_hash) empty_heap (cfg_render ds_demo)) as (h & t & _ & Hr); [done|done|apply ds_demo_entries|apply ds_demo_entries|].
  exists h, t.
  apply (stop_locks_destroyed (L := hash_dictionary_laws len_hash) (demo_logenv 7) demo_benv demo_benv demo_senv 4
    (mk_dsparts h (Some t) demo_logger (mk_tpool 1 false 1) (Some (replicate 4 None)) (mk_threadpool (Some [1; 2]) true) (mk_threadpool (Some [3]) true)
        (demo_disk, demo_bctx []) (demo_disk, demo_bctx []) true (mk_threads None 0) true) t (list_to_map (cfg_entries (cfg_render ds_demo))) (str "/l/logs/t.log") (replicate 4 None) demo_chunk demo_chunk);
    [done|exact Hr|split; [unfold tm_ok; cbn; lia|done]|by vm_compute|done|done|by apply pool_new|done|exact demo_calls_ok|by split_and!|exact demo_bin_stored|exact demo_bin_stored|by cbn].
Defined.
